(* ===== verification/_CoqProject ===== *)
-Q . S2P
Prelude.v
CsiDecode.v
CsiReceive.v
CsiLog.v
CText.v
CsiDatabase.v
ReadBfee.v
SendData.v
Base64.v
Bitfield.v
HexText.v
BlockCipher.v
AesWrap.v
AesCtr.v
AesOmac.v
AesEax.v
AesCcm.v
Rc4.v
EapolKey.v
EapCommon.v
EapolAuth.v
Prf.v
WpaState.v
WpaPtk.v
WpaSafe.v
Erp.v
EapServer.v
EapMethods.v
EapServerInv.v
EapConversation.v
WpaInv.v
PmksaCache.v
WpaAuth.v
WpaWorld.v
WpaReplay.v
RsnIe.v
RsnChoice.v
Radius.v
RadiusSpec.v
Merkle.v
Sha1Internal.v
Md5Internal.v
Sha256Internal.v
Hmac.v
