(* ===== verification/Prelude.v ===== *)
(** * Atheros CSI tool and the hostapd it ships: a verification library

    The repository has two halves.  The CSI tool proper receives channel state
    information (CSI) from a patched ath9k driver, logs it to a file or a
    database, decodes it, and generates the packets that make the driver
    report; it is some 3000 lines under src/recvCSIToFile,
    src/recvCSIToDatabase, src/sendData and src/matlab.  The access point that
    the experiments run is a copy of hostapd 2.5 under src/hostapd-2.5.  The
    library models the first half completely and, of the second, the code that
    decides who gets access and with which keys.

    ** How the parts are modelled

    C functions are functions into the monad [M] below: an out-of-bounds
    access, a division by zero, a NULL dereference, a read of an uninitialised
    value or a signed overflow is an [Err], so "the function is [Ok]" is memory
    safety.  Buffers are byte lists with offsets, read and written through
    [rd], [wr], [get] and [blit]; integers are [Z] reduced at the places where
    the C type wraps ([u8] ... [u64], [i32]).  Code outside the repository
    (libpq, sockets, crypto backends, the driver, the user database, allocators) is
    a parameter: a class such as [Database], [BlockCipher], [Digests],
    [Environment] or [WpaEnv] with its laws in a class of their own, each with
    a concrete instance on which the witnesses run.

    The files, in dependency order:

    - Prelude.v: the monad, bounds-checked lists, C loops ([cfor]), fixed-width
      arithmetic, little-endian numbers and the proof rules for them.
    - The CSI tool.  CsiDecode.v: fill_csi_matrix of csi_fun.c and the MEX
      gateway of matlab/read_csi.c, against one abstract reading of the bit
      stream ([csi_field]).  CsiReceive.v: record_status, record_csi_payload,
      main.c with its receive loop and log.  CsiLog.v: matlab/read_log_file.m on
      the receiver's logs.  CText.v, CsiDatabase.v: printf's integers,
      csi_persistence.c's SQL texts and buffers, the database receiver.
      ReadBfee.v: matlab/read_bfee.c.  SendData.v: sendData.c.
    - 802.1X.  EapolAuth.v: the six state machines of eapol_auth_sm.c, their
      joint step, timers and callbacks, and the entry points of ieee802_1x.c.
      To this port the EAP server is the sequence of its outputs.
    - EAP.  EapCommon.v: eap_common.c and the wpabuf operations under it.  Erp.v:
      re-authentication keys and messages.  EapServer.v: eap_server.c, the full
      authenticator with its backend and pass-through states; a method is a
      table of functions ([eap_method]).  EapMethods.v: the methods Identity,
      MD5 and GTC.  EapServerInv.v: the invariant and the measure of the step,
      against the promises of the methods ([MethodLaws]).  EapConversation.v:
      the three methods keep them; a conversation.
    - RADIUS.  Radius.v: radius.c, messages as a buffer with the offsets of their
      attributes.  RadiusSpec.v: the same messages as lists of attributes
      ([represents]), and the theorems.
    - Utilities.  Base64.v (utils/base64.c), Bitfield.v (utils/bitfield.c),
      HexText.v (utils/common.c, uuid.c).
    - Cryptography.  BlockCipher.v is the interface of the AES backends;
      AesWrap.v, AesCtr.v, AesOmac.v, AesEax.v, AesCcm.v are the modes of
      operation over it, each against its published definition; Rc4.v; Prf.v:
      the PRFs and the PTK and PMKID derivations over the HMACs of [Digests].
      Merkle.v: words and the padding the digests share; Sha1Internal.v,
      Md5Internal.v, Sha256Internal.v: the digests of the internal backend,
      contexts, buffering and transforms; Hmac.v: HMAC, PBKDF2, the PRFs of TLS
      and the T-PRF over them, and the instances of [Digests] and [Md5].
    - The WPA authenticator (ap/wpa_auth.c).  EapolKey.v: EAPOL-Key frames as
      bytes.  WpaState.v: struct wpa_state_machine, struct wpa_group, sending,
      group keys.  WpaPtk.v: the states of the 4-way and the group key
      handshake, their step functions and the checks of wpa_receive.
      WpaAuth.v: all stations, the step loop, every entry point, and runs
      ([wpa_run]).  The proofs follow the same layers: WpaSafe.v (arrays),
      WpaInv.v (invariant of a station, one step), WpaWorld.v (the step loop,
      the entry points, whole runs), WpaReplay.v (replay counters).
      PmksaCache.v: ap/pmksa_cache_auth.c, a heap of entries with two
      intrusive lists, refined by one list sorted by expiration.
    - Association.  RsnIe.v: the RSN and WPA elements of common/wpa_common.c and
      ap/wpa_auth_ie.c, read and written.  RsnChoice.v: wpa_validate_wpa_ie, the
      choice of the suites and the lookup of a PMKSA.

    ** How they meet

    CsiLog.v runs CsiReceive.v's main loop on encoded reports and the log reader
    on what it wrote.  CsiDatabase.v compares its decoder with CsiReceive.v's.
    The frames of EapolKey.v are wrapped by AesWrap.v or Rc4.v and signed by
    AesOmac.v or [Digests]; WpaState.v sends them with the replay counter of the
    station; Prf.v gives both ends the PTK that signs them.  The authenticator's
    Boolean answers to the EAPOL machine (wpa_auth_set_eapol) are outputs of
    WpaAuth.v, and what the EAPOL machine writes back are its inputs.
    RsnChoice.v reads a station's element with RsnIe.v and its PMKID in
    PmksaCache.v, and its verdict is the association input of WpaAuth.v.
    Radius.v signs with [Digests] and [Md5]; an EAP message of EapCommon.v that
    passes through it is unchanged, and the keys it delivers are the PMK of
    PmksaCache.v and WpaPtk.v.
    Hmac.v gives the interfaces [Digests] and [Md5] an instance the code of the
    internal backend computes (internal_backend_refines), so that every theorem
    proved from their laws holds of that backend.
    EapServer.v calls the methods only through their table; EapServerInv.v
    proves its theorems from the laws of the table and EapConversation.v proves
    the laws.  Erp.v's checks are the whole of the server's INITIATE_RECEIVED.

    ** What the theorems show

    - Functional correctness against an independent definition: the CSI
      decoders, record_status, key wrap, CMAC, EAX, SIV, CCM, base64; the SQL
      texts against statements written from the numbers, when sprintf copies
      an overlapping string (C leaves that open); the PTK against the standard's
      tables of lengths and its KDF; the digests against RFC 1321 and FIPS 180,
      HMAC, PBKDF2 and the PRFs against their RFCs, for every length their
      32-bit parameters can hold and every division into buffers.
    - Exact bounds: for the CSI decoders and record_csi_payload, the inputs on
      which they have defined behaviour, in both directions; the findings of the
      manifest come from these.
    - Round trips: CSI streams, logs (up to the rounding of time stamps above
      2^53, which are doubles in MATLAB), base64, hexadecimal text, address masks,
      key wrap, authenticated encryption (which also refuses everything else),
      EAPOL-Key frames.
    - State machines: the port of 802.1X is authorized only after success and its
      status agrees with the PAE state in every reachable state; the WPA
      authenticator, under the assumptions named below, never fails, its
      machines come to rest after every input, a pairwise key is installed
      only after a frame verified under it, and a replayed frame is dropped
      until the counters are zeroed by a new association.  The PMKSA cache refines a sorted list under
      every sequence of operations.
    - EAP: the server's step ends and is safe in every reachable state, for every
      set of methods that keeps the laws and whose Identity method starts;
      success is raised only by a method
      that succeeded, by RADIUS, or by an authenticated re-authentication, and
      EAP-MD5 succeeds exactly for the right digest; a Nak is a filter; a
      re-authentication cannot be replayed; its keys are those of RFC 5295.
    - RADIUS: the parser accepts exactly a header and attributes; a response is
      accepted exactly when the octets behind the header of its only
      Message-Authenticator and its authenticator are the digests for the
      request (of the RFCs, when that attribute has the RFC's length), and what the server finishes is accepted; EAP messages and MS-MPPE keys
      arrive as they were; a short Message-Authenticator leaves the buffer.
    - Elements: what the access point announces is what a parser reads; a
      station is accepted exactly when its element agrees with the
      configuration, its machine then runs with suites that both sides allow,
      and whatever follows the association is a safe run.
    - Termination and non-termination: read_log_file.m ends on every file, the
      receive loop never returns (until its counter, an int, overflows), the step loop of wpa_auth.c ends.

    ** Fuel

    [cfor] takes the number of iterations as fuel; each use gives the bound of
    the C loop and a theorem shows that [OutOfFuel] does not occur.  The step
    loop of WpaAuth.v has [STEP_FUEL] = 2000 rounds: WpaInv.v and WpaWorld.v give
    a measure below it that every round decreases ([rank], [gm]).  Its
    recursion through the group machine is two deep ([STEP_DEPTH]): a group step
    steps the other stations, which find the group machine at rest.  The EAPOL
    machines' step loop has the 100 rounds of the code.  The EAP server's step
    has [SERVER_ROUNDS] = 50; the measure of EapServerInv.v is at most 30.

    ** Assumptions

    The theorems on runs of the WPA authenticator (WpaWorld.v, RsnChoice.v)
    assume a configuration whose element is well formed and at most 128 octets,
    AKMs whose MIC has 16 octets (not Suite B at 192 bits), and that os_malloc
    gives the memory for the copies of received frames; every other allocation
    may fail.  Those on replayed frames (WpaReplay.v) hold until the counters
    are zeroed by a new association or initialisation.  Those on the EAP
    server's step assume that the Identity method starts and that
    EAP-Initiate/Re-auth-Start is off.  The findings of the manifest say what
    the code does otherwise.

    ** Not modelled

    In wpa_auth.c: fast transition, PeerKey, groups of other VLANs and the MIB
    text; the EAPOL machine reacts to set_eapol calls inside the same C call,
    here with its next input; timeouts of [TimeoutCtr] are counted without
    bound.  In eap_server.c: the MSCHAP callback, logging, and the release of
    methods and machines.  Elsewhere: the process around the libraries (configuration files,
    control interface, sockets, event loop), drivers, TLS, the other EAP methods, WPS,
    P2P, the RADIUS client and servers around the messages, the supplicant, and the MATLAB scripts that plot or compute
    with floating point numbers.  The manifest lists every part with the reason.

    ** Plan

    Next: element parsing of the 802.11 frames, the software AES as an instance
    of [BlockCipher], the rest of utils/common.c. *)

From Stdlib Require Export ZArith Lia ZifyBool ZifyNat.
From stdpp Require Export base tactics option list numbers.

#[global] Open Scope Z_scope.

(** ** Errors: what a C program does that has no defined result *)

Inductive err : Type :=
| OutOfBounds
| DivByZero
| NullDeref
| Uninitialised
| SignedOverflow
| OutOfFuel.

#[export] Instance err_eq_dec : EqDecision err.
Proof. solve_decision. Defined.

Inductive M (A : Type) : Type :=
| Ok (a : A)
| Err (e : err).
Arguments Ok {A} a.
Arguments Err {A} e.

#[export] Instance M_ret : MRet M := fun A a => Ok a.
#[export] Instance M_bind : MBind M := fun A B f m =>
  match m with Ok a => f a | Err e => Err e end.
#[export] Instance M_fmap : FMap M := fun A B f m =>
  match m with Ok a => Ok (f a) | Err e => Err e end.

Definition is_ok {A} (m : M A) : bool := match m with Ok _ => true | Err _ => false end.

Lemma bind_ok {A B} (a : A) (f : A -> M B) : (Ok a ≫= f) = f a.
Proof. reflexivity. Qed.

Lemma bind_ok_inv {A B} (m : M A) (f : A -> M B) b :
  (m ≫= f) = Ok b -> exists a, m = Ok a /\ f a = Ok b.
Proof. destruct m; [eauto | discriminate]. Qed.

(** run a computation known to succeed backwards: one equation per step *)
Ltac minv H :=
  repeat (apply bind_ok_inv in H; let x := fresh "x" in let E := fresh "E" in
          destruct H as (x & E & H);
          try (match type of x with (_ * _)%type => destruct x as [? ?] end);
          cbv beta iota in H);
  try (injection H as <-).

Lemma bind_assoc {A B C} (m : M A) (f : A -> M B) (g : B -> M C) :
  ((m ≫= f) ≫= g) = (m ≫= (fun a => f a ≫= g)).
Proof. by destruct m. Qed.

(** [m] gives a result, and one that satisfies [P] *)
Definition safe {A} (m : M A) (P : A -> Prop) : Prop := match m with Ok a => P a | Err _ => False end.

Lemma safe_bind {A B} (Q : A -> Prop) (m : M A) (f : A -> M B) (P : B -> Prop) :
  safe m Q -> (forall a, Q a -> safe (f a) P) -> safe (m ≫= f) P.
Proof. destruct m; [|done]. intros H HQ. by apply HQ. Qed.

Lemma safe_mono {A} (m : M A) (P Q : A -> Prop) : safe m P -> (forall a, P a -> Q a) -> safe m Q.
Proof. destruct m; [|done]. intros H HQ. by apply HQ. Qed.

Lemma safe_and {A} (m : M A) (P Q : A -> Prop) : safe m P -> safe m Q -> safe m (fun a => P a /\ Q a).
Proof. by destruct m. Qed.

Lemma safe_exists {A} (m : M A) (P : A -> Prop) : safe m P <-> exists a, m = Ok a /\ P a.
Proof.
  destruct m as [a|]; cbn; [|naive_solver]. split; [intros H; by exists a|]. by intros (? & [= ->] & ?).
Qed.

(** ** Arrays: Z-indexed reads and writes that fail out of range *)

Definition zlen {A} (l : list A) : Z := Z.of_nat (length l).

Definition rd {A} (l : list A) (i : Z) : M A :=
  if i <? 0 then Err OutOfBounds
  else match l !! Z.to_nat i with Some x => Ok x | None => Err OutOfBounds end.

Definition wr {A} (l : list A) (i : Z) (x : A) : M (list A) :=
  if (0 <=? i) && (i <? zlen l) then Ok (<[Z.to_nat i := x]> l)
  else Err OutOfBounds.

Section Arrays.
Context {A : Type}.
Implicit Types (l : list A) (i j : Z) (x : A).

Lemma rd_lookup l i x : 0 <= i -> rd l i = Ok x <-> l !! Z.to_nat i = Some x.
Proof.
  intros Hi. unfold rd. replace (i <? 0) with false by lia.
  destruct (l !! Z.to_nat i); naive_solver.
Qed.

Lemma rd_in_range l i : 0 <= i < zlen l -> exists x, rd l i = Ok x.
Proof.
  intros [Hi Hl]. destruct (lookup_lt_is_Some_2 l (Z.to_nat i)) as [x Hx].
  - unfold zlen in Hl. lia.
  - exists x. by apply rd_lookup.
Qed.

Lemma rd_nth l i (d : A) : 0 <= i < zlen l -> rd l i = Ok (nth (Z.to_nat i) l d).
Proof.
  unfold zlen. intros. apply rd_lookup; [lia|].
  destruct (nth_lookup_or_length l (Z.to_nat i) d); [done|lia].
Qed.

Lemma rd_Ok_range l i x : rd l i = Ok x -> 0 <= i < zlen l.
Proof.
  unfold rd, zlen. destruct (Z.ltb_spec i 0); [discriminate|].
  destruct (l !! Z.to_nat i) eqn:E; [|discriminate].
  intros _. apply lookup_lt_Some in E. lia.
Qed.

Lemma rd_out_of_range l i : i < 0 \/ zlen l <= i -> rd l i = Err OutOfBounds.
Proof.
  unfold rd, zlen. intros H. destruct (Z.ltb_spec i 0); [done|].
  by rewrite lookup_ge_None_2 by lia.
Qed.

Lemma rd_drop l (n : nat) i : 0 <= i -> rd (drop n l) i = rd l (Z.of_nat n + i).
Proof.
  intros. unfold rd. replace (i <? 0) with false by lia.
  replace (Z.of_nat n + i <? 0) with false by lia.
  rewrite lookup_drop. by replace (n + Z.to_nat i)%nat with (Z.to_nat (Z.of_nat n + i)) by lia.
Qed.

Lemma rd_app_l l1 l2 i : 0 <= i < zlen l1 -> rd (l1 ++ l2) i = rd l1 i.
Proof.
  unfold zlen. intros. unfold rd. replace (i <? 0) with false by lia.
  by rewrite lookup_app_l by lia.
Qed.

Lemma rd_app_r l1 l2 i : zlen l1 <= i -> rd (l1 ++ l2) i = rd l2 (i - zlen l1).
Proof.
  unfold zlen. intros. unfold rd. replace (i <? 0) with false by lia.
  replace (i - Z.of_nat (length l1) <? 0) with false by lia.
  rewrite lookup_app_r by lia.
  by replace (Z.to_nat i - length l1)%nat with (Z.to_nat (i - Z.of_nat (length l1))) by lia.
Qed.

Lemma wr_ok l i x : 0 <= i < zlen l -> wr l i x = Ok (<[Z.to_nat i := x]> l).
Proof. intros. unfold wr. by replace ((0 <=? i) && (i <? zlen l)) with true by lia. Qed.

Lemma wr_out_of_range l i x : i < 0 \/ zlen l <= i -> wr l i x = Err OutOfBounds.
Proof. intros. unfold wr. by replace ((0 <=? i) && (i <? zlen l)) with false by lia. Qed.

Lemma wr_Ok_inv l i x l' :
  wr l i x = Ok l' -> 0 <= i < zlen l /\ l' = <[Z.to_nat i := x]> l.
Proof.
  unfold wr. destruct ((0 <=? i) && (i <? zlen l)) eqn:E; [|discriminate].
  intros [= <-]. split; [lia | done].
Qed.

Lemma zlen_insert l (i : nat) x : zlen (<[i := x]> l) = zlen l.
Proof. unfold zlen. by rewrite length_insert. Qed.

Lemma zlen_app l1 l2 : zlen (l1 ++ l2) = zlen l1 + zlen l2.
Proof. unfold zlen. rewrite length_app. lia. Qed.

Lemma zlen_nonneg l : 0 <= zlen l.
Proof. unfold zlen. lia. Qed.

Lemma zlen_cons x l : zlen (x :: l) = 1 + zlen l.
Proof. unfold zlen. simpl. lia. Qed.

Lemma zlen_nil : zlen (@nil A) = 0.
Proof. reflexivity. Qed.
End Arrays.

#[export] Hint Resolve zlen_nonneg : core.
Create Rewrite HintDb arr.
#[export] Hint Rewrite @zlen_insert @zlen_app @zlen_cons @zlen_nil : arr.

(** ** Counted loops

    [cfor fuel next cond body i s] is the C loop
    [for (; cond(i); i = next(i)) s = body(i, s);].  The counter's type is in
    [next] (an 8-bit counter wraps), and running out of fuel is an error. *)

Fixpoint cfor {S} (fuel : nat) (next : Z -> Z) (cond : Z -> bool)
    (body : Z -> S -> M S) (i : Z) (s : S) : M S :=
  match fuel with
  | O => Err OutOfFuel
  | Datatypes.S fuel =>
      if cond i then s' ← body i s; cfor fuel next cond body (next i) s'
      else Ok s
  end.

(** The invariant rule: a loop counting from [i] to [n] whose body keeps [P]
    ends with [P n], when the fuel exceeds the number of rounds. *)
Lemma cfor_inv {S} (P : Z -> S -> Prop) next cond (body : Z -> S -> M S) n fuel i s :
  i <= n -> n - i < Z.of_nat fuel ->
  (forall j, i <= j < n -> next j = j + 1) ->
  (forall j, i <= j <= n -> cond j = (j <? n)) ->
  (forall j s, i <= j < n -> P j s -> exists s', body j s = Ok s' /\ P (j + 1) s') ->
  P i s ->
  exists s', cfor fuel next cond body i s = Ok s' /\ P n s'.
Proof.
  revert i s. induction fuel as [|fuel IH]; intros i s Hin Hf Hnext Hcond Hbody HP; [lia|].
  simpl. rewrite Hcond by lia. destruct (Z.ltb_spec i n) as [Hlt|Hge].
  - destruct (Hbody i s) as (s' & Es & Ps); [lia|done|].
    rewrite Es, bind_ok, Hnext by lia.
    apply IH; [lia|lia| | | |done]; intros; try apply Hnext; try apply Hcond; try apply Hbody; try lia; done.
  - exists s. by replace n with i by lia.
Qed.

(** The same loop seen from a failing round. *)
Lemma cfor_fails {S} (P : Z -> S -> Prop) next cond (body : Z -> S -> M S) n e fuel i s :
  i <= n -> n - i < Z.of_nat fuel ->
  (forall j, i <= j < n -> next j = j + 1) ->
  (forall j, i <= j <= n -> cond j = true) ->
  (forall j s, i <= j < n -> P j s -> exists s', body j s = Ok s' /\ P (j + 1) s') ->
  (forall s, P n s -> body n s = Err e) ->
  P i s ->
  cfor fuel next cond body i s = Err e.
Proof.
  revert i s. induction fuel as [|fuel IH]; intros i s Hin Hf Hnext Hcond Hbody Hfail HP; [lia|].
  simpl. rewrite Hcond by lia. destruct (decide (i = n)) as [->|Hne].
  - by rewrite Hfail.
  - destruct (Hbody i s) as (s' & Es & Ps); [lia|done|].
    rewrite Es, bind_ok, Hnext by lia.
    apply IH; [lia|lia| | | |done|done]; intros; try apply Hnext; try apply Hcond; try apply Hbody; try lia; done.
Qed.

(** A loop that ends well ran every round, from a state that keeps what the
    rounds preserve. *)
Lemma cfor_rounds {S} (P : Z -> S -> Prop) next cond (body : Z -> S -> M S) n fuel i s s' :
  (forall j, i <= j < n -> next j = j + 1) ->
  (forall j, i <= j <= n -> cond j = (j <? n)) ->
  (forall j s s', i <= j < n -> P j s -> body j s = Ok s' -> P (j + 1) s') ->
  P i s ->
  cfor fuel next cond body i s = Ok s' ->
  forall j, i <= j < n -> exists s1 s2, P j s1 /\ body j s1 = Ok s2.
Proof.
  revert i s. induction fuel as [|fuel IH]; intros i s Hnext Hcond Hbody HP E j Hj; [done|].
  simpl in E. rewrite Hcond in E by lia. replace (i <? n) with true in E by lia.
  apply bind_ok_inv in E as (s1 & E1 & E).
  destruct (decide (j = i)) as [->|]; [eauto|].
  rewrite Hnext in E by lia.
  eapply (IH (i + 1)); [intros; apply Hnext; lia|intros; apply Hcond; lia| | |exact E|lia].
  - intros j' t t' Hj'. apply Hbody. lia.
  - by eapply Hbody; eauto; lia.
Qed.

(** Partial correctness: what every round preserves holds after the loop. *)
Lemma cfor_partial {S} (P : Z -> S -> Prop) next cond (body : Z -> S -> M S) n fuel i s s' :
  i <= n ->
  (forall j, i <= j < n -> next j = j + 1) ->
  (forall j, i <= j <= n -> cond j = (j <? n)) ->
  (forall j s s', i <= j < n -> P j s -> body j s = Ok s' -> P (j + 1) s') ->
  P i s -> cfor fuel next cond body i s = Ok s' -> P n s'.
Proof.
  revert i s. induction fuel as [|fuel IH]; intros i s Hin Hnext Hcond Hbody HP E; [done|].
  simpl in E. rewrite Hcond in E by lia. destruct (Z.ltb_spec i n).
  - apply bind_ok_inv in E as (s1 & E1 & E). rewrite Hnext in E by lia.
    eapply (IH (i + 1) s1); [lia| | | | |exact E];
      [intros; apply Hnext; lia|intros; apply Hcond; lia
      |intros j t t' Hj; apply (Hbody j); lia|by eapply Hbody; eauto; lia].
  - injection E as <-. by replace n with i by lia.
Qed.

(** *** Enough fuel: a loop that counts to [n] runs out only if its body does *)

Abbreviation enough_fuel m := (m <> Err OutOfFuel).

Lemma bind_enough_fuel {A B} (m : M A) (f : A -> M B) :
  enough_fuel m -> (forall a, enough_fuel (f a)) -> enough_fuel (m ≫= f).
Proof. intros Hm Hf. destruct m as [a|e]; [apply Hf|]. intros [= ->]. by apply Hm. Qed.

Lemma bind_enough_fuel_eq {A B} (m : M A) (f : A -> M B) :
  enough_fuel m -> (forall a, m = Ok a -> enough_fuel (f a)) -> enough_fuel (m ≫= f).
Proof. intros Hm Hf. destruct m as [a|e]; [by apply Hf|]. intros [= ->]. by apply Hm. Qed.

Lemma Ok_enough_fuel {A} (a : A) : enough_fuel (Ok a).
Proof. done. Qed.

Lemma rd_enough_fuel {A} (l : list A) i : enough_fuel (rd l i).
Proof. unfold rd. destruct (i <? 0); [done|]. by destruct (l !! Z.to_nat i). Qed.

Lemma wr_enough_fuel {A} (l : list A) i x : enough_fuel (wr l i x).
Proof. unfold wr. by destruct ((0 <=? i) && (i <? zlen l)). Qed.

Lemma cfor_enough_fuel {S} next cond (body : Z -> S -> M S) n fuel i s :
  i <= n -> n - i < Z.of_nat fuel ->
  (forall j, i <= j < n -> next j = j + 1) ->
  (forall j, i <= j <= n -> cond j = (j <? n)) ->
  (forall j s, i <= j < n -> enough_fuel (body j s)) ->
  enough_fuel (cfor fuel next cond body i s).
Proof.
  revert i s. induction fuel as [|fuel IH]; intros i s Hin Hf Hnext Hcond Hbody; [lia|].
  simpl. rewrite Hcond by lia. destruct (Z.ltb_spec i n); [|done].
  apply bind_enough_fuel; [apply Hbody; lia|]. intros s'. rewrite Hnext by lia.
  apply IH; [lia|lia|intros; apply Hnext; lia|intros; apply Hcond; lia|intros; apply Hbody; lia].
Qed.

Create HintDb fuel.
#[export] Hint Resolve bind_enough_fuel Ok_enough_fuel rd_enough_fuel wr_enough_fuel : fuel.

(** ** Fixed-width integers *)

Definition u8 (x : Z) : Z := x mod 2 ^ 8.
Definition u16 (x : Z) : Z := x mod 2 ^ 16.
Definition u32 (x : Z) : Z := x mod 2 ^ 32.
Definition u64 (x : Z) : Z := x mod 2 ^ 64.
(** two's complement conversion to a [w]-bit signed integer *)
Definition to_signed (w x : Z) : Z := (x + 2 ^ (w - 1)) mod 2 ^ w - 2 ^ (w - 1).
Definition i32 (x : Z) : Z := to_signed 32 x.
(** [n + 1] of an [int], which may not overflow *)
Definition int_succ (n : Z) : M Z := if n <? 2 ^ 31 - 1 then Ok (n + 1) else Err SignedOverflow.

Definition is_byte (b : Z) : Prop := 0 <= b < 256.
Abbreviation bytes l := (Forall is_byte l).

#[export] Instance is_byte_dec b : Decision (is_byte b).
Proof. unfold is_byte. apply _. Defined.

Lemma int_succ_ok n : n < 2 ^ 31 - 1 -> int_succ n = Ok (n + 1).
Proof. intros. unfold int_succ. by replace (n <? 2 ^ 31 - 1) with true by lia. Qed.
Lemma int_succ_inv n m : int_succ n = Ok m -> m = n + 1 /\ n < 2 ^ 31 - 1.
Proof. unfold int_succ. destruct (Z.ltb_spec n (2 ^ 31 - 1)); [|done]. by intros [= <-]. Qed.

Lemma u8_range x : 0 <= u8 x < 256.
Proof. unfold u8. apply Z.mod_pos_bound. lia. Qed.
Lemma u16_range x : 0 <= u16 x < 65536.
Proof. unfold u16. apply Z.mod_pos_bound. lia. Qed.
Lemma u32_range x : 0 <= u32 x < 4294967296.
Proof. unfold u32. apply Z.mod_pos_bound. lia. Qed.
Lemma u64_range x : 0 <= u64 x < 18446744073709551616.
Proof. unfold u64. apply Z.mod_pos_bound. lia. Qed.

Lemma u8_small x : 0 <= x < 256 -> u8 x = x.
Proof. intros. apply Z.mod_small. lia. Qed.
Lemma u16_small x : 0 <= x < 65536 -> u16 x = x.
Proof. intros. apply Z.mod_small. lia. Qed.
Lemma u32_small x : 0 <= x < 4294967296 -> u32 x = x.
Proof. intros. apply Z.mod_small. lia. Qed.
Lemma u64_small x : 0 <= x < 18446744073709551616 -> u64 x = x.
Proof. intros. apply Z.mod_small. lia. Qed.
Lemma i32_small x : -2147483648 <= x < 2147483648 -> i32 x = x.
Proof. intros. unfold i32, to_signed. rewrite Z.mod_small; lia. Qed.

Create Rewrite HintDb word.
#[export] Hint Rewrite u8_small u16_small u32_small u64_small i32_small using lia : word.

Lemma bytes_lookup (l : list Z) (i : nat) b : bytes l -> l !! i = Some b -> is_byte b.
Proof. intros H Hl. by eapply Forall_lookup_1. Qed.

Lemma bytes_rd (l : list Z) i b : bytes l -> rd l i = Ok b -> is_byte b.
Proof.
  intros H Hr. pose proof (rd_Ok_range _ _ _ Hr).
  apply rd_lookup in Hr; [|lia]. by eapply bytes_lookup.
Qed.

Lemma bytes_drop n (l : list Z) : bytes l -> bytes (drop n l).
Proof. apply Forall_drop. Qed.

(** ** Bit fields *)

(** [w] bits of [v] from bit [o] up *)
Definition bits_at (v o w : Z) : Z := (v / 2 ^ o) mod 2 ^ w.

Lemma bits_at_range v o w : 0 <= w -> 0 <= bits_at v o w < 2 ^ w.
Proof. intros. apply Z.mod_pos_bound. lia. Qed.

Lemma bits_at_0 v o : bits_at v o 0 = 0.
Proof. unfold bits_at. by rewrite Z.mod_1_r. Qed.

(** a wide field is its low part plus its high part shifted *)
Lemma bits_at_split v o a b :
  0 <= o -> 0 <= a -> 0 <= b ->
  bits_at v o (a + b) = bits_at v o a + 2 ^ a * bits_at v (o + a) b.
Proof.
  intros. unfold bits_at.
  rewrite (Z.pow_add_r 2 a b), (Z.pow_add_r 2 o a) by lia.
  rewrite <- Z.div_div by lia. rewrite Z.rem_mul_r by lia. lia.
Qed.

Lemma bits_at_low v o a b :
  0 <= o -> 0 <= a <= b -> bits_at v o b mod 2 ^ a = bits_at v o a.
Proof.
  intros. replace b with (a + (b - a)) by lia.
  rewrite bits_at_split by lia. rewrite Z.mul_comm, Z_mod_plus_full.
  apply Z.mod_small, bits_at_range. lia.
Qed.

Lemma bits_at_high v o a b :
  0 <= o -> 0 <= a <= b -> bits_at v o b / 2 ^ a = bits_at v (o + a) (b - a).
Proof.
  intros. replace b with (a + (b - a)) at 1 by lia.
  rewrite bits_at_split by lia. pose proof (bits_at_range v o a ltac:(lia)).
  rewrite Z.mul_comm, Z.div_add, (Z.div_small (bits_at v o a)) by lia. lia.
Qed.

Lemma land_ones_mod x n : 0 <= n -> Z.land x (2 ^ n - 1) = x mod 2 ^ n.
Proof.
  intros. rewrite <- Z.land_ones by done. f_equal.
  rewrite Z.ones_equiv. lia.
Qed.

(** ** Little-endian byte strings *)

Fixpoint le (bs : list Z) : Z :=
  match bs with [] => 0 | b :: bs => b + 256 * le bs end.

Lemma le_byte bs i b :
  bytes bs -> rd bs i = Ok b -> bits_at (le bs) (8 * i) 8 = b.
Proof.
  intros Hb Hr. pose proof (rd_Ok_range _ _ _ Hr) as Hi. apply rd_lookup in Hr; [|lia].
  remember (Z.to_nat i) as n eqn:En. assert (i = Z.of_nat n) as -> by lia. clear En Hi.
  revert bs Hb Hr. induction n as [|n IH]; intros [|c bs] Hb Hr; try done;
    apply Forall_cons_1 in Hb as [Hc Hb]; simpl le.
  - injection Hr as ->. unfold bits_at. change (8 * Z.of_nat 0) with 0.
    rewrite Z.div_1_r. replace (2 ^ 8) with 256 by done.
    rewrite (Z.mul_comm 256 (le bs)), Z_mod_plus_full. by apply Z.mod_small.
  - rewrite <- (IH bs) by done. unfold bits_at.
    replace (8 * Z.of_nat (S n)) with (8 + 8 * Z.of_nat n) by lia.
    rewrite Z.pow_add_r by lia. rewrite <- Z.div_div by lia. change (2 ^ 8) with 256.
    rewrite (Z.mul_comm 256 (le bs)), Z.div_add by lia.
    unfold is_byte in Hc. by rewrite (Z.div_small c) by lia.
Qed.

(** two's complement reading of a [w]-bit field *)
Definition sext (w v : Z) : Z := if v <? 2 ^ (w - 1) then v else v - 2 ^ w.

Lemma sext_range w v : 0 < w -> 0 <= v < 2 ^ w -> - 2 ^ (w - 1) <= sext w v < 2 ^ (w - 1).
Proof.
  intros. unfold sext. replace (2 ^ w) with (2 * 2 ^ (w - 1)) in * by (rewrite <- Z.pow_succ_r by lia; f_equal; lia).
  destruct (Z.ltb_spec v (2 ^ (w - 1))); lia.
Qed.

(** [n] bytes of [v], least significant first *)
Fixpoint to_le (n : nat) (v : Z) : list Z :=
  match n with O => [] | S n => v mod 256 :: to_le n (v / 256) end.

Lemma to_le_bytes n v : bytes (to_le n v).
Proof.
  revert v. induction n as [|n IH]; intros v; simpl; constructor; [|apply IH].
  unfold is_byte. apply Z.mod_pos_bound. lia.
Qed.

Lemma length_to_le n v : length (to_le n v) = n.
Proof. revert v. induction n; intros; simpl; auto. Qed.

Lemma zlen_to_le n v : zlen (to_le n v) = Z.of_nat n.
Proof. unfold zlen. by rewrite length_to_le. Qed.

Lemma le_to_le n v : le (to_le n v) = v mod 256 ^ Z.of_nat n.
Proof.
  revert v. induction n as [|n IH]; intros v; simpl to_le; simpl le.
  - by rewrite Z.mod_1_r.
  - rewrite IH. rewrite Nat2Z.inj_succ, Z.pow_succ_r by lia.
    rewrite Z.rem_mul_r by lia. lia.
Qed.

Lemma le_range bs : bytes bs -> 0 <= le bs < 256 ^ zlen bs.
Proof.
  induction 1 as [|b bs Hb _ IH]; simpl le; [done|].
  autorewrite with arr. rewrite Z.pow_add_r by (try apply zlen_nonneg; lia).
  unfold is_byte in Hb. change (256 ^ 1) with 256. lia.
Qed.

Lemma to_le_le bs : bytes bs -> to_le (length bs) (le bs) = bs.
Proof.
  induction 1 as [|b bs Hb _ IH]; simpl to_le; simpl le; [done|]. unfold is_byte in Hb.
  rewrite (Z.mul_comm 256), Z.div_add, (Z.div_small b), Z.add_0_l, IH by lia.
  by rewrite Z_mod_plus_full, Z.mod_small.
Qed.

(** ** Bitwise or of fields that do not overlap *)

Lemma lor_disjoint hi lo n : 0 <= n -> 0 <= lo < 2 ^ n -> Z.lor (hi * 2 ^ n) lo = hi * 2 ^ n + lo.
Proof.
  intros Hn Hlo. destruct (decide (lo = 0)) as [->|]; [rewrite Z.lor_0_r; lia|].
  rewrite <- Z.add_lor_land.
  enough (Z.land (hi * 2 ^ n) lo = 0) as -> by lia.
  apply Z.bits_inj'. intros k Hk. rewrite Z.land_spec, Z.bits_0.
  destruct (Z.ltb_spec k n).
  - by rewrite Z.mul_pow2_bits_low.
  - rewrite (Z.bits_above_log2 lo); [apply andb_false_r|lia|].
    apply Z.lt_le_trans with n; [apply Z.log2_lt_pow2; lia|lia].
Qed.

(** *** Slices: [n] elements from position [i] *)

Definition slice {A} (i n : nat) (l : list A) : list A := take n (drop i l).

Lemma zlen_slice {A} (i n : nat) (l : list A) :
  Z.of_nat (i + n) <= zlen l -> zlen (slice i n l) = Z.of_nat n.
Proof. unfold zlen, slice. rewrite length_take, length_drop. lia. Qed.

Lemma rd_slice {A} (i n : nat) (l : list A) j :
  0 <= j < Z.of_nat n -> rd (slice i n l) j = rd l (Z.of_nat i + j).
Proof.
  intros. unfold slice. rewrite <- rd_drop by lia.
  unfold rd. replace (j <? 0) with false by lia. by rewrite lookup_take_lt by lia.
Qed.

Lemma slice_cons {A} (l : list A) (i n : nat) b :
  rd l (Z.of_nat i) = Ok b -> slice i (S n) l = b :: slice (S i) n l.
Proof.
  intros H. apply rd_lookup in H; [|lia]. rewrite Nat2Z.id in H. unfold slice. by rewrite (drop_S _ _ _ H).
Qed.

Lemma list_eq_rd {A} (l1 l2 : list A) :
  zlen l1 = zlen l2 -> (forall i, 0 <= i < zlen l1 -> rd l1 i = rd l2 i) -> l1 = l2.
Proof.
  unfold zlen. intros Hl H. apply list_eq. intros i.
  destruct (decide (i < length l1)%nat); [|by rewrite !lookup_ge_None_2 by lia].
  specialize (H (Z.of_nat i) ltac:(lia)). unfold rd in H.
  replace (Z.of_nat i <? 0) with false in H by lia. rewrite Nat2Z.id in H.
  destruct (l1 !! i), (l2 !! i); congruence.
Qed.

(** ** Exhaustive checks over bytes *)

Lemma byte_forall (f : Z -> bool) :
  forallb f (seqZ 0 256) = true -> forall b, is_byte b -> f b = true.
Proof.
  intros H b Hb. eapply forallb_forall in H; [exact H|].
  apply list_elem_of_In, elem_of_seqZ. unfold is_byte in Hb. lia.
Qed.

Lemma land_disjoint x c n : 0 <= n -> 0 <= x < 2 ^ n -> Z.land x (c * 2 ^ n) = 0.
Proof.
  intros Hn Hx. pose proof (lor_disjoint c x n Hn Hx). pose proof (Z.add_lor_land (c * 2 ^ n) x).
  rewrite Z.land_comm. lia.
Qed.

(** ** Memory blocks: memcpy in and out of a byte buffer *)

Definition get {A} (buf : list A) (off n : Z) : M (list A) :=
  if (0 <=? off) && (0 <=? n) && (off + n <=? zlen buf)
  then Ok (slice (Z.to_nat off) (Z.to_nat n) buf) else Err OutOfBounds.

Definition blit {A} (buf : list A) (off : Z) (src : list A) : M (list A) :=
  if (0 <=? off) && (off + zlen src <=? zlen buf)
  then Ok (take (Z.to_nat off) buf ++ src ++ drop (Z.to_nat (off + zlen src)) buf)
  else Err OutOfBounds.

Section Blocks.
Context {A : Type}.
Implicit Types (l x y : list A) (R : list (list A)).

Lemma get_app l1 x l2 off n : off = zlen l1 -> n = zlen x -> get (l1 ++ x ++ l2) off n = Ok x.
Proof.
  intros -> ->. unfold get. pose proof (zlen_nonneg l1). pose proof (zlen_nonneg x). pose proof (zlen_nonneg l2).
  autorewrite with arr. replace ((0 <=? zlen l1) && (0 <=? zlen x) && _) with true by lia.
  unfold slice, zlen. rewrite !Nat2Z.id, drop_app_length. by rewrite take_app_length.
Qed.

Lemma blit_app l1 x l2 off y : off = zlen l1 -> zlen y = zlen x -> blit (l1 ++ x ++ l2) off y = Ok (l1 ++ y ++ l2).
Proof.
  intros -> Hy. unfold blit. pose proof (zlen_nonneg l1). pose proof (zlen_nonneg l2).
  autorewrite with arr. rewrite Hy. replace ((0 <=? zlen l1) && _) with true by lia.
  unfold zlen in *. rewrite Nat2Z.id, take_app_length. do 3 f_equal.
  rewrite app_assoc. apply drop_app_length'. rewrite length_app. lia.
Qed.

Lemma get_head x l2 n : n = zlen x -> get (x ++ l2) 0 n = Ok x.
Proof. intros. by apply (get_app [] x l2). Qed.

Lemma blit_head x l2 y : zlen y = zlen x -> blit (x ++ l2) 0 y = Ok (y ++ l2).
Proof. intros. by apply (blit_app [] x l2). Qed.

Lemma get_last l1 x off n : off = zlen l1 -> n = zlen x -> get (l1 ++ x) off n = Ok x.
Proof. intros. rewrite <- (app_nil_r x) at 1. by apply get_app. Qed.

Lemma blit_last l1 x off y : off = zlen l1 -> zlen y = zlen x -> blit (l1 ++ x) off y = Ok (l1 ++ y).
Proof. intros. pose proof (blit_app l1 x [] off y) as E. rewrite !app_nil_r in E. by apply E. Qed.

Lemma get_whole x n : n = zlen x -> get x 0 n = Ok x.
Proof. by apply (get_last []). Qed.

Lemma blit_whole x y : zlen y = zlen x -> blit x 0 y = Ok y.
Proof. by apply (blit_last []). Qed.

Lemma zlen_concat R n : Forall (fun x => zlen x = n) R -> zlen (concat R) = n * zlen R.
Proof. induction 1 as [|x R Hx _ IH]; simpl; autorewrite with arr; lia. Qed.

(** the [p]th of a row of blocks of [n] elements *)
Lemma get_concat R n p x : Forall (fun x => zlen x = n) R -> R !! p = Some x ->
  get (concat R) (n * Z.of_nat p) n = Ok x.
Proof.
  intros HR Hp. rewrite <- (take_drop_middle R p x Hp) in HR |- *.
  apply Forall_app in HR as [H1 [Hx _]%Forall_cons_1].
  rewrite concat_app, concat_cons. apply get_app; [|lia].
  rewrite (zlen_concat _ _ H1). unfold zlen. rewrite length_take_le; [done|].
  apply lookup_lt_Some in Hp. lia.
Qed.

Lemma blit_concat R n p y : Forall (fun x => zlen x = n) R -> (p < length R)%nat -> zlen y = n ->
  blit (concat R) (n * Z.of_nat p) y = Ok (concat (<[p := y]> R)).
Proof.
  intros HR Hp Hy. destruct (lookup_lt_is_Some_2 R p Hp) as [x Hx].
  assert (zlen (take p R) = Z.of_nat p) as Hl by (unfold zlen; rewrite length_take_le; lia).
  rewrite (insert_take_drop R p y) by done. rewrite concat_app, concat_cons.
  rewrite <- (take_drop_middle R p x Hx) in HR. apply Forall_app in HR as [H1 [Hxn _]%Forall_cons_1].
  rewrite <- (take_drop_middle R p x Hx) at 1. rewrite concat_app, concat_cons.
  apply blit_app; [|lia]. rewrite (zlen_concat _ _ H1). lia.
Qed.

Lemma get_shift l1 l2 off n : 0 <= off -> get (l1 ++ l2) (zlen l1 + off) n = get l2 off n.
Proof.
  intros. unfold get. pose proof (zlen_nonneg l1). autorewrite with arr.
  replace ((0 <=? zlen l1 + off) && (0 <=? n) && (zlen l1 + off + n <=? zlen l1 + zlen l2))
    with ((0 <=? off) && (0 <=? n) && (off + n <=? zlen l2)) by lia.
  destruct (_ && _ && _) eqn:E; [|done]. f_equal. unfold slice. f_equal.
  rewrite drop_app. unfold zlen. rewrite drop_ge by lia. cbn. f_equal. lia.
Qed.

Lemma blit_shift l1 l2 off y : 0 <= off ->
  blit (l1 ++ l2) (zlen l1 + off) y = (l ← blit l2 off y; Ok (l1 ++ l)).
Proof.
  intros. unfold blit. pose proof (zlen_nonneg l1). autorewrite with arr.
  replace ((0 <=? zlen l1 + off) && (zlen l1 + off + zlen y <=? zlen l1 + zlen l2))
    with ((0 <=? off) && (off + zlen y <=? zlen l2)) by lia.
  destruct (_ && _) eqn:E; [|done]. rewrite bind_ok. f_equal. pose proof (zlen_nonneg y).
  rewrite take_app, drop_app. unfold zlen in *. rewrite take_ge, drop_ge by lia. cbn.
  rewrite <- app_assoc. do 3 f_equal; [f_equal; lia|f_equal; f_equal; lia].
Qed.

Lemma get_Ok_inv l off n x : get l off n = Ok x -> 0 <= off /\ off + n <= zlen l /\ zlen x = n /\ 0 <= n.
Proof.
  unfold get. destruct (_ && _) eqn:E; [|discriminate]. intros [= <-].
  split; [lia|]. split; [lia|]. split; [|lia]. rewrite zlen_slice; lia.
Qed.
End Blocks.
