(* ===== verification/CsiDecode.v ===== *)
(** * The CSI bit stream: [fill_csi_matrix] and the MATLAB decoder [read_csi.c]

    The kernel reports a channel matrix as a stream of 10-bit two's complement
    numbers, least significant bit first, packed without padding into 16-bit
    little-endian words.  [FillCsi] models the user-space decoder of
    recvCSIToFile/csi_fun.c (and its copy in recvCSIToDatabase), [ReadCsi] the
    MEX gateway of matlab/read_csi.c.  [csi_field] is the abstract reading of
    the stream both are measured against. *)

From S2P Require Import Prelude.

Record COMPLEX := mkComplex { real : Z; imag : Z }.

#[export] Instance COMPLEX_eq_dec : EqDecision COMPLEX.
Proof. solve_decision. Defined.

(** ** Abstract reading of the stream *)

(** the [n]-th 10-bit number of the stream *)
Definition csi_field (bs : list Z) (n : Z) : Z := sext 10 (bits_at (le bs) (10 * n) 10).

(** bytes the decoder fetches for [n] numbers: whole 16-bit words, at least one *)
Definition stream_bytes (n : Z) : Z := Z.max 2 (2 * ((10 * n + 15) / 16)).

(** ** The shift register shared by both decoders

    [bits_left], [idx] and [current_data] are the C locals of those names.
    [conv] is the conversion to the type [bits_left] is declared with: [u8] in
    csi_fun.c, [i32] in read_csi.c. *)

Record reg := mkReg { bits_left : Z; idx : Z; current_data : Z }.

Definition bit_convert (data maxbit : Z) : Z :=
  if negb (Z.land data (Z.shiftl 1 (maxbit - 1)) =? 0) then data - Z.shiftl 1 maxbit else data.

Definition bitmask : Z := Z.shiftl 1 10 - 1.

(** the first 16 bits, loaded before the loops *)
Definition reg_init (csi_addr : list Z) : M reg :=
  b0 ← rd csi_addr 0;
  b1 ← rd csi_addr 1;
  let h_data := u32 (b0 + Z.shiftl b1 8) in
  Ok (mkReg 16 2 (Z.land h_data (Z.shiftl 1 16 - 1))).

(** [if ((bits_left - 10) < 0) { get next 16 bits }] *)
Definition reg_refill (conv : Z -> Z) (csi_addr : list Z) (r : reg) : M reg :=
  if bits_left r - 10 <? 0 then
    b0 ← rd csi_addr (idx r);
    b1 ← rd csi_addr (u32 (idx r + 1));
    let h_data := u32 (b0 + Z.shiftl b1 8) in
    Ok (mkReg (conv (bits_left r + 16)) (u32 (idx r + 2))
              (u32 (current_data r + u32 (Z.shiftl h_data (bits_left r)))))
  else Ok r.

(** mask out one number, convert it, shift it away *)
Definition reg_take (conv : Z -> Z) (csi_addr : list Z) (r : reg) : M (Z * reg) :=
  r ← reg_refill conv csi_addr r;
  let v := bit_convert (Z.land (current_data r) bitmask) 10 in
  Ok (v, mkReg (conv (bits_left r - 10)) (idx r) (Z.shiftr (current_data r) 10)).

(** *** The register holds the unread part of the stream *)

Definition reg_inv (bs : list Z) (n : Z) (r : reg) : Prop :=
  0 <= n /\ (0 <= bits_left r <= 16 /\ (0 < n -> bits_left r < 16)) /\
  8 * idx r = 10 * n + bits_left r /\
  (exists k, idx r = 2 * k) /\
  current_data r = bits_at (le bs) (10 * n) (bits_left r).

Lemma bit_convert_sext v : 0 <= v < 1024 -> bit_convert v 10 = sext 10 v.
Proof.
  intros. unfold bit_convert, sext. change (10 - 1) with 9.
  change (Z.shiftl 1 9) with (2 ^ 9). change (Z.shiftl 1 10) with (2 ^ 10).
  assert (Z.land v (2 ^ 9) = if v <? 512 then 0 else 512) as ->.
  { apply Z.bits_inj'. intros k Hk. rewrite Z.land_spec, Z.pow2_bits_eqb by lia.
    destruct (Z.eqb_spec 9 k) as [<-|Hne]; cycle 1.
    - rewrite andb_false_r. destruct (v <? 512); [by rewrite Z.bits_0|].
      change 512 with (2 ^ 9). by rewrite Z.pow2_bits_false by lia.
    - rewrite andb_true_r. destruct (Z.ltb_spec v 512).
      + rewrite Z.bits_0. apply Z.bits_above_log2; [lia|].
        destruct (decide (v = 0)) as [->|]; [done|]. apply Z.log2_lt_pow2; lia.
      + change (Z.testbit 512 9) with true. apply Z.testbit_true; [lia|].
        change (2 ^ 9) with 512. replace (v / 512) with 1; [done|].
        apply Z.div_unique with (v - 512); lia. }
  change (2 ^ 9) with 512. by destruct (v <? 512).
Qed.

Lemma le_word bs i b0 b1 :
  bytes bs -> rd bs i = Ok b0 -> rd bs (i + 1) = Ok b1 ->
  bits_at (le bs) (8 * i) 16 = b0 + Z.shiftl b1 8.
Proof.
  intros Hb H0 H1. pose proof (rd_Ok_range _ _ _ H0).
  change 16 with (8 + 8). rewrite bits_at_split by lia.
  replace (8 * i + 8) with (8 * (i + 1)) by lia.
  rewrite (le_byte bs i b0), (le_byte bs (i + 1) b1) by done.
  rewrite Z.shiftl_mul_pow2 by lia. lia.
Qed.

Lemma reg_init_ok bs :
  bytes bs -> 2 <= zlen bs -> exists r, reg_init bs = Ok r /\ reg_inv bs 0 r.
Proof.
  intros Hb Hl. unfold reg_init.
  destruct (rd_in_range bs 0) as [b0 E0]; [lia|]. destruct (rd_in_range bs 1) as [b1 E1]; [lia|].
  rewrite E0, E1, !bind_ok. eexists; split; [done|].
  pose proof (le_word bs 0 b0 b1 Hb E0 E1) as Hw.
  apply bytes_rd in E0 as ?; [|done]. apply bytes_rd in E1 as ?; [|done]. unfold is_byte in *.
  assert (0 <= b0 + Z.shiftl b1 8 < 65536).
  { rewrite <- Hw. apply (bits_at_range _ _ 16). lia. }
  unfold reg_inv; simpl. repeat split; try lia; [by exists 1|].
  rewrite u32_small by lia. change (Z.shiftl 1 16 - 1) with (2 ^ 16 - 1).
  rewrite land_ones_mod by lia. rewrite Z.mod_small by lia. by rewrite <- Hw.
Qed.

Section Register.
  Context (conv : Z -> Z) (Hconv : forall x, 0 <= x < 256 -> conv x = x).

(** a refill appends the next word above the bits still held *)
Lemma reg_refill_ok bs n r :
  bytes bs -> zlen bs < 2 ^ 32 -> reg_inv bs n r ->
  stream_bytes (n + 1) <= zlen bs ->
  exists r', reg_refill conv bs r = Ok r' /\ 10 <= bits_left r' <= 25 /\
    8 * idx r' = 10 * n + bits_left r' /\ (exists k, idx r' = 2 * k) /\
    current_data r' = bits_at (le bs) (10 * n) (bits_left r').
Proof.
  intros Hb Hlen (Hn & Hbl & Hidx & [k Hk] & Hcur) Hs. unfold reg_refill.
  destruct (Z.ltb_spec (bits_left r - 10) 0); [|exists r; repeat split; eauto; lia].
  assert (idx r + 2 <= zlen bs).
  { unfold stream_bytes in Hs. pose proof (Z.div_mod (10 * (n + 1) + 15) 16 ltac:(lia)).
    pose proof (Z.mod_pos_bound (10 * (n + 1) + 15) 16 ltac:(lia)). lia. }
  destruct (rd_in_range bs (idx r)) as [b0 E0]; [lia|].
  destruct (rd_in_range bs (idx r + 1)) as [b1 E1]; [lia|].
  rewrite (u32_small (idx r + 1)), E0, bind_ok, E1, bind_ok by lia.
  pose proof (le_word bs _ b0 b1 Hb E0 E1) as Hw.
  assert (0 <= b0 + Z.shiftl b1 8 < 65536).
  { rewrite <- Hw. apply (bits_at_range _ _ 16). lia. }
  eexists; split; [done|]; simpl.
  rewrite (u32_small (b0 + _)), (u32_small (idx r + 2)), Hconv by lia.
  split; [lia|]. split; [lia|]. split; [exists (k + 1); lia|].
  rewrite Z.add_comm, (bits_at_split _ _ (bits_left r) 16), <- Hcur by lia.
  replace (10 * n + bits_left r) with (8 * idx r) by lia.
  rewrite Hw, Z.shiftl_mul_pow2 by lia.
  pose proof (bits_at_range (le bs) (10 * n) (bits_left r) ltac:(lia)) as Hr. rewrite <- Hcur in Hr.
  assert (2 ^ bits_left r <= 2 ^ 9) by (apply Z.pow_le_mono_r; lia). change (2 ^ 9) with 512 in *.
  rewrite (u32_small (_ * 2 ^ bits_left r)), u32_small by nia. lia.
Qed.

(** taking a number yields the next field of the stream *)
Lemma reg_take_ok bs n r :
  bytes bs -> zlen bs < 2 ^ 32 -> reg_inv bs n r ->
  stream_bytes (n + 1) <= zlen bs ->
  exists r', reg_take conv bs r = Ok (csi_field bs n, r') /\ reg_inv bs (n + 1) r'.
Proof.
  intros Hb Hlen Hinv Hs. unfold reg_take.
  destruct (reg_refill_ok bs n r Hb Hlen Hinv Hs) as (r' & -> & Hbl & Hidx & Hk & Hcur).
  destruct Hinv as (Hn & _). rewrite bind_ok.
  eexists; split.
  - do 2 f_equal. change bitmask with (2 ^ 10 - 1). rewrite land_ones_mod by lia.
    rewrite Hcur, bits_at_low by lia. apply bit_convert_sext, (bits_at_range _ _ 10). lia.
  - unfold reg_inv; cbn [bits_left idx current_data]. rewrite Hconv by lia.
    split_and!; [lia..|done|].
    rewrite Z.shiftr_div_pow2, Hcur, bits_at_high by lia. f_equal; lia.
Qed.

(** a successful fetch stayed inside the buffer *)
Lemma reg_take_Ok_inv bs n r v r' :
  bytes bs -> zlen bs < 2 ^ 32 -> reg_inv bs n r -> idx r <= zlen bs ->
  reg_take conv bs r = Ok (v, r') ->
  stream_bytes (n + 1) <= zlen bs /\ reg_inv bs (n + 1) r' /\ idx r' <= zlen bs.
Proof.
  intros Hb Hlen Hinv Hidx E.
  assert (stream_bytes (n + 1) <= zlen bs) as Hs.
  { destruct Hinv as (Hn & Hbl & H8 & [k Hk] & _).
    apply bind_ok_inv in E as (r1 & E & _). unfold reg_refill in E.
    pose proof (Z.div_mod (10 * (n + 1) + 15) 16 ltac:(lia)).
    pose proof (Z.mod_pos_bound (10 * (n + 1) + 15) 16 ltac:(lia)).
    unfold stream_bytes. destruct (Z.ltb_spec (bits_left r - 10) 0); [|lia].
    apply bind_ok_inv in E as (b0 & E0 & E). apply bind_ok_inv in E as (b1 & E1 & _).
    apply rd_Ok_range in E0. rewrite u32_small in E1 by lia. apply rd_Ok_range in E1. lia. }
  split; [done|]. destruct (reg_take_ok bs n r) as (r2 & E2 & Hinv2); [done..|].
  rewrite E2 in E. injection E as _ ->. split; [done|].
  destruct Hinv2 as (_ & ? & ? & [k Hk] & _). unfold stream_bytes in Hs.
  pose proof (Z.div_mod (10 * (n + 1) + 15) 16 ltac:(lia)).
  pose proof (Z.mod_pos_bound (10 * (n + 1) + 15) 16 ltac:(lia)). lia.
Qed.

Lemma reg_init_Ok_inv bs r :
  bytes bs -> reg_init bs = Ok r -> stream_bytes 0 <= zlen bs /\ reg_inv bs 0 r /\ idx r <= zlen bs.
Proof.
  intros Hb E. assert (2 <= zlen bs).
  { apply bind_ok_inv in E as (b0 & E0 & E). apply bind_ok_inv in E as (b1 & E1 & _).
    apply rd_Ok_range in E1. lia. }
  destruct (reg_init_ok bs Hb) as (r0 & E0 & Hi); [done|].
  rewrite E0 in E. injection E as ->. split; [done|]. split; [done|].
  destruct Hi as (_ & ? & ? & _). lia.
Qed.

End Register.

(** ** The loop nest of both decoders

    For every subcarrier, every transmit antenna, every receive antenna. *)

Definition csi_loops {S} (fuel : nat) (next : Z -> Z) (nr nc num_tones : Z)
    (body : Z -> Z -> Z -> S -> M S) (s : S) : M S :=
  cfor fuel next (fun k => k <? num_tones) (fun k s =>
    cfor fuel next (fun nc_idx => nc_idx <? nc) (fun nc_idx s =>
      cfor fuel next (fun nr_idx => nr_idx <? nr) (fun nr_idx s =>
        body k nc_idx nr_idx s) 0 s) 0 s) 0 s.

(** position of an antenna pair and subcarrier in the order of the nest *)
Definition lin (nr nc r c k : Z) : Z := (k * nc + c) * nr + r.

Lemma csi_loops_inv {S} (P : Z -> S -> Prop) fuel next nr nc num_tones
    (body : Z -> Z -> Z -> S -> M S) s :
  0 <= nr < Z.of_nat fuel -> 0 <= nc < Z.of_nat fuel -> 0 <= num_tones < Z.of_nat fuel ->
  (forall j, 0 <= j < Z.max nr (Z.max nc num_tones) -> next j = j + 1) ->
  (forall k c r s, 0 <= k < num_tones -> 0 <= c < nc -> 0 <= r < nr ->
     P (lin nr nc r c k) s ->
     exists s', body k c r s = Ok s' /\ P (lin nr nc r c k + 1) s') ->
  P 0 s ->
  exists s', csi_loops fuel next nr nc num_tones body s = Ok s' /\ P (nr * nc * num_tones) s'.
Proof.
  intros Hnr Hnc Hnt Hnext Hbody HP. unfold csi_loops.
  edestruct (cfor_inv (fun k s => P (lin nr nc 0 0 k) s)) as (s' & E & HP'); cycle 6.
  { exists s'. split; [exact E|]. unfold lin in HP'.
    by replace (nr * nc * num_tones) with ((num_tones * nc + 0) * nr + 0) by lia. }
  1-4: intros; try apply Hnext; try done; lia.
  - intros k s0 Hk Hs0.
    edestruct (cfor_inv (fun c s => P (lin nr nc 0 c k) s)) as (s1 & E1 & HP1); cycle 6.
    { exists s1. split; [exact E1|]. unfold lin in *.
      by replace (((k + 1) * nc + 0) * nr + 0) with ((k * nc + nc) * nr + 0) by lia. }
    1-4: intros; try apply Hnext; try done; lia.
    + intros c s1 Hc Hs1.
      edestruct (cfor_inv (fun r s => P (lin nr nc r c k) s)) as (s2 & E2 & HP2); cycle 6.
      { exists s2. split; [exact E2|]. unfold lin in *.
        by replace ((k * nc + (c + 1)) * nr + 0) with ((k * nc + c) * nr + nr) by lia. }
      1-4: intros; try apply Hnext; try done; lia.
      * intros r s2 Hr Hs2. destruct (Hbody k c r s2) as (s3 & E3 & HP3); [lia..|done|].
        exists s3. split; [done|]. unfold lin in *.
        by replace ((k * nc + c) * nr + (r + 1)) with ((k * nc + c) * nr + r + 1) by lia.
      * exact Hs1.
    + exact Hs0.
  - exact HP.
Qed.

Lemma csi_loops_partial {S} (P : Z -> S -> Prop) fuel next nr nc num_tones
    (body : Z -> Z -> Z -> S -> M S) s s' :
  0 <= nr -> 0 <= nc -> 0 <= num_tones ->
  (forall j, 0 <= j < Z.max nr (Z.max nc num_tones) -> next j = j + 1) ->
  (forall k c r s s', 0 <= k < num_tones -> 0 <= c < nc -> 0 <= r < nr ->
     P (lin nr nc r c k) s -> body k c r s = Ok s' -> P (lin nr nc r c k + 1) s') ->
  P 0 s -> csi_loops fuel next nr nc num_tones body s = Ok s' -> P (nr * nc * num_tones) s'.
Proof.
  intros Hnr Hnc Hnt Hnext Hbody HP E. unfold csi_loops in E.
  replace (nr * nc * num_tones) with (lin nr nc 0 0 num_tones) by (unfold lin; lia).
  replace 0 with (lin nr nc 0 0 0) in HP by (unfold lin; lia).
  revert HP E. apply (cfor_partial (fun k s => P (lin nr nc 0 0 k) s));
    [lia|intros; apply Hnext; lia|done|].
  intros k s0 s1 Hk. replace (lin nr nc 0 0 (k + 1)) with (lin nr nc 0 nc k) by (unfold lin; lia).
  apply (cfor_partial (fun c s => P (lin nr nc 0 c k) s));
    [lia|intros; apply Hnext; lia|done|].
  intros c s2 s3 Hc. replace (lin nr nc 0 (c + 1) k) with (lin nr nc nr c k) by (unfold lin; lia).
  apply (cfor_partial (fun r s => P (lin nr nc r c k) s));
    [lia|intros; apply Hnext; lia|done|].
  intros r s4 s5 Hr. replace (lin nr nc (r + 1) c k) with (lin nr nc r c k + 1) by (unfold lin; lia).
  by apply Hbody.
Qed.

Lemma csi_loops_rounds {S} fuel next nr nc num_tones (body : Z -> Z -> Z -> S -> M S) s s' :
  (forall j, 0 <= j < Z.max nr (Z.max nc num_tones) -> next j = j + 1) ->
  csi_loops fuel next nr nc num_tones body s = Ok s' ->
  forall k c r, 0 <= k < num_tones -> 0 <= c < nc -> 0 <= r < nr ->
  exists s1 s2, body k c r s1 = Ok s2.
Proof.
  unfold csi_loops. intros Hnext E k c r Hk Hc Hr.
  eapply (cfor_rounds (fun _ _ => True) _ _ _ num_tones) in E as (s1 & s2 & _ & E);
    [|intros; apply Hnext; lia|done..|exact Hk].
  eapply (cfor_rounds (fun _ _ => True) _ _ _ nc) in E as (s3 & s4 & _ & E);
    [|intros; apply Hnext; lia|done..|exact Hc].
  eapply (cfor_rounds (fun _ _ => True) _ _ _ nr) in E as (s5 & s6 & _ & E);
    [|intros; apply Hnext; lia|done..|exact Hr]. eauto.
Qed.

(** a position of the nest determines the indices *)
Lemma lin_inj nr nc r c k r' c' k' :
  0 <= r < nr -> 0 <= c < nc -> 0 <= r' < nr -> 0 <= c' < nc ->
  lin nr nc r c k = lin nr nc r' c' k' -> r = r' /\ c = c' /\ k = k'.
Proof.
  unfold lin. intros Hr Hc Hr' Hc' E.
  destruct (Z.div_mod_unique nr (k * nc + c) (k' * nc + c') r r') as [E1 ->]; [lia..|].
  destruct (Z.div_mod_unique nc k k' c c') as [-> ->]; [lia..|]. done.
Qed.

Lemma lin_range nr nc nt r c k :
  0 <= r < nr -> 0 <= c < nc -> 0 <= k < nt -> 0 <= lin nr nc r c k < nr * nc * nt.
Proof.
  unfold lin. intros.
  assert (0 <= k * nc + c) by nia. assert (k * nc + c + 1 <= nt * nc) by nia. nia.
Qed.

Lemma stream_bytes_mono m n : m <= n -> stream_bytes m <= stream_bytes n.
Proof.
  intros. unfold stream_bytes.
  pose proof (Z.div_le_mono (10 * m + 15) (10 * n + 15) 16 ltac:(lia) ltac:(lia)). lia.
Qed.

(** ** recvCSIToFile/csi_fun.c (and recvCSIToDatabase/csi_fun.c) *)

Module FillCsi.

(** [COMPLEX csi_matrix[3][3][114]], row-major *)
Definition CSI_NR : Z := 3.
Definition CSI_NC : Z := 3.
Definition CSI_MAX_SUBCARRIERS : Z := 114.
Definition MATRIX_CELLS : Z := CSI_NR * CSI_NC * CSI_MAX_SUBCARRIERS.

Definition in_matrix (r c k : Z) : bool :=
  (0 <=? r) && (r <? CSI_NR) && (0 <=? c) && (c <? CSI_NC) &&
  (0 <=? k) && (k <? CSI_MAX_SUBCARRIERS).

(** [&csi_matrix[r][c][k]]: defined only inside the array *)
Definition cell (r c k : Z) : Z := (r * CSI_NC + c) * CSI_MAX_SUBCARRIERS + k.

Definition matrix_get (m : list COMPLEX) (r c k : Z) : M COMPLEX :=
  if in_matrix r c k then rd m (cell r c k) else Err OutOfBounds.

Definition store_imag (m : list COMPLEX) (r c k v : Z) : M (list COMPLEX) :=
  x ← matrix_get m r c k; wr m (cell r c k) (mkComplex (real x) v).

Definition store_real (m : list COMPLEX) (r c k v : Z) : M (list COMPLEX) :=
  x ← matrix_get m r c k; wr m (cell r c k) (mkComplex v (imag x)).

(** the loop body: imaginary part first *)
Definition fill_body (csi_addr : list Z) (k nc_idx nr_idx : Z) (s : reg * list COMPLEX)
    : M (reg * list COMPLEX) :=
  '(im, r) ← reg_take u8 csi_addr (fst s);
  m ← store_imag (snd s) nr_idx nc_idx k im;
  '(re, r) ← reg_take u8 csi_addr r;
  m ← store_real m nr_idx nc_idx k re;
  Ok (r, m).

(** the loop counters are [u_int8_t] *)
Definition u8_next (i : Z) : Z := u8 (i + 1).

Definition fill_csi_matrix (csi_addr : list Z) (nr nc num_tones : Z) (csi_matrix : list COMPLEX)
    : M (list COMPLEX) :=
  r ← reg_init csi_addr;
  '(_, m) ← csi_loops 257 u8_next nr nc num_tones (fill_body csi_addr) (r, csi_matrix);
  Ok m.

(** *** Matrix accesses *)

Lemma in_matrix_true r c k :
  in_matrix r c k = true <-> 0 <= r < 3 /\ 0 <= c < 3 /\ 0 <= k < 114.
Proof. unfold in_matrix, CSI_NR, CSI_NC, CSI_MAX_SUBCARRIERS. lia. Qed.

Lemma cell_range r c k : in_matrix r c k = true -> 0 <= cell r c k < MATRIX_CELLS.
Proof.
  rewrite in_matrix_true. unfold cell, MATRIX_CELLS, CSI_NR, CSI_NC, CSI_MAX_SUBCARRIERS. lia.
Qed.

Lemma cell_inj r c k r' c' k' :
  in_matrix r c k = true -> in_matrix r' c' k' = true ->
  cell r c k = cell r' c' k' -> r = r' /\ c = c' /\ k = k'.
Proof. rewrite !in_matrix_true. unfold cell, CSI_NC, CSI_MAX_SUBCARRIERS. lia. Qed.

Lemma matrix_get_ok m r c k :
  zlen m = MATRIX_CELLS -> in_matrix r c k = true ->
  exists x, matrix_get m r c k = Ok x.
Proof.
  intros Hm Hi. unfold matrix_get. rewrite Hi. apply rd_in_range. rewrite Hm. by apply cell_range.
Qed.

Lemma matrix_get_insert m r c k r' c' k' x :
  zlen m = MATRIX_CELLS -> in_matrix r c k = true ->
  matrix_get (<[Z.to_nat (cell r c k) := x]> m) r' c' k' =
    if decide (r = r' /\ c = c' /\ k = k') then Ok x else matrix_get m r' c' k'.
Proof.
  intros Hm Hi. pose proof (cell_range r c k Hi). unfold matrix_get.
  destruct (in_matrix r' c' k') eqn:Hi'; [|case_decide as E; [|done]; destruct E as (-> & -> & ->); congruence].
  pose proof (cell_range r' c' k' Hi'). case_decide as E.
  - destruct E as (-> & -> & ->). apply rd_lookup; [lia|]. apply list_lookup_insert_eq. unfold zlen in *. lia.
  - unfold rd. rewrite list_lookup_insert_ne; [done|]. intros Heq. apply E, cell_inj; [done..|lia].
Qed.

(** imaginary then real part: the cell holds the pair *)
Lemma store_pair m r c k v w :
  zlen m = MATRIX_CELLS -> in_matrix r c k = true ->
  exists m1 m2, store_imag m r c k v = Ok m1 /\ store_real m1 r c k w = Ok m2 /\
    zlen m2 = MATRIX_CELLS /\
    forall r' c' k', matrix_get m2 r' c' k' =
      if decide (r = r' /\ c = c' /\ k = k') then Ok (mkComplex w v) else matrix_get m r' c' k'.
Proof.
  intros Hm Hi. unfold store_imag, store_real. pose proof (cell_range r c k Hi) as Hc.
  destruct (matrix_get_ok m r c k Hm Hi) as [x Hx]. rewrite Hx, bind_ok, wr_ok by lia.
  eexists _, _; split; [done|].
  rewrite matrix_get_insert, decide_True, bind_ok by done.
  rewrite wr_ok by (autorewrite with arr; lia). split; [done|].
  autorewrite with arr. split; [done|]. intros r' c' k'.
  rewrite !matrix_get_insert by (autorewrite with arr; done).
  by repeat case_decide.
Qed.

Lemma u8_next_small j : 0 <= j < 255 -> u8_next j = j + 1.
Proof. intros. unfold u8_next. apply u8_small. lia. Qed.

(** *** Functional correctness *)

(** what cell (r, c, k) must hold once [n] pairs of the nest are decoded *)
Definition decoded (bs : list Z) (nr nc num_tones n : Z) (m0 m : list COMPLEX) : Prop :=
  forall r c k, matrix_get m r c k =
    if (0 <=? r) && (r <? nr) && (0 <=? c) && (c <? nc) && (0 <=? k) && (k <? num_tones)
       && (lin nr nc r c k <? n)
    then Ok (mkComplex (csi_field bs (2 * lin nr nc r c k + 1)) (csi_field bs (2 * lin nr nc r c k)))
    else matrix_get m0 r c k.

Lemma fill_body_ok bs nr nc num_tones m0 k c r s :
  bytes bs -> zlen bs < 2 ^ 32 ->
  0 <= nr <= CSI_NR -> 0 <= nc <= CSI_NC -> 0 <= num_tones <= CSI_MAX_SUBCARRIERS ->
  stream_bytes (2 * (nr * nc * num_tones)) <= zlen bs ->
  0 <= k < num_tones -> 0 <= c < nc -> 0 <= r < nr ->
  let P n s := reg_inv bs (2 * n) (fst s) /\ zlen (snd s) = MATRIX_CELLS /\
               decoded bs nr nc num_tones n m0 (snd s) in
  P (lin nr nc r c k) s ->
  exists s', fill_body bs k c r s = Ok s' /\ P (lin nr nc r c k + 1) s'.
Proof.
  intros Hb Hlen Hnr Hnc Hnt Hs Hk Hc Hr P (Hinv & Hm & Hd).
  set (n := lin nr nc r c k) in *. destruct s as [rg m]; simpl in *. unfold fill_body; simpl.
  unfold CSI_NR, CSI_NC, CSI_MAX_SUBCARRIERS in *.
  pose proof (lin_range nr nc num_tones r c k Hr Hc Hk) as Hn. fold n in Hn.
  pose proof (stream_bytes_mono (2 * n + 1) (2 * (nr * nc * num_tones)) ltac:(lia)).
  pose proof (stream_bytes_mono (2 * n + 1 + 1) (2 * (nr * nc * num_tones)) ltac:(lia)).
  destruct (reg_take_ok u8 u8_small bs (2 * n) rg) as (r1 & -> & Hinv1); [done..|lia|].
  rewrite bind_ok.
  assert (in_matrix r c k = true) as Hi by (apply in_matrix_true; lia).
  destruct (store_pair m r c k (csi_field bs (2 * n)) (csi_field bs (2 * n + 1)) Hm Hi)
    as (m1 & m2 & -> & E2 & Hm2 & Hget).
  rewrite bind_ok. destruct (reg_take_ok u8 u8_small bs (2 * n + 1) r1) as (r2 & -> & Hinv2); [done..|lia|].
  rewrite bind_ok, E2, bind_ok. eexists; split; [done|]. split_and!; [|done|]; simpl.
  - by replace (2 * (n + 1)) with (2 * n + 1 + 1) by lia.
  - intros r' c' k'. rewrite Hget. case_decide as E.
    + destruct E as (<- & <- & <-). fold n.
      by replace ((0 <=? r) && _ && _ && _ && _ && _ && _) with true by lia.
    + rewrite Hd. destruct ((0 <=? r') && (r' <? nr) && (0 <=? c') && (c' <? nc) && (0 <=? k') && (k' <? num_tones)) eqn:Hin; [|done].
      simpl. replace (lin nr nc r' c' k' <? n + 1) with (lin nr nc r' c' k' <? n); [done|].
      assert (lin nr nc r' c' k' <> n); [|lia].
      intros Heq. apply E. destruct (lin_inj nr nc r' c' k' r c k) as (-> & -> & ->); try lia; done.
Qed.

Lemma fill_csi_matrix_decodes bs nr nc num_tones m :
  bytes bs -> zlen bs < 2 ^ 32 -> zlen m = MATRIX_CELLS ->
  0 <= nr <= CSI_NR -> 0 <= nc <= CSI_NC -> 0 <= num_tones <= CSI_MAX_SUBCARRIERS ->
  stream_bytes (2 * (nr * nc * num_tones)) <= zlen bs ->
  exists m', fill_csi_matrix bs nr nc num_tones m = Ok m' /\ zlen m' = MATRIX_CELLS /\
    decoded bs nr nc num_tones (nr * nc * num_tones) m m'.
Proof.
  intros Hb Hlen Hm Hnr Hnc Hnt Hs. unfold fill_csi_matrix.
  destruct (reg_init_ok bs Hb) as (r0 & -> & Hr0); [unfold stream_bytes in Hs; lia|].
  rewrite bind_ok. unfold CSI_NR, CSI_NC, CSI_MAX_SUBCARRIERS in *.
  edestruct (csi_loops_inv (fun n s => reg_inv bs (2 * n) (fst s) /\
      zlen (snd s) = MATRIX_CELLS /\ decoded bs nr nc num_tones n m (snd s)) 257 u8_next nr nc num_tones
      (fill_body bs) (r0, m)) as (s' & -> & Hinv & Hm' & Hd).
  1-3: lia.
  - intros. apply u8_next_small. lia.
  - intros. by apply fill_body_ok.
  - simpl. split_and!; [done..|]. intros r c k.
    destruct ((0 <=? r) && (r <? nr) && (0 <=? c) && (c <? nc) && (0 <=? k) && (k <? num_tones)) eqn:Hin; [|done].
    pose proof (lin_range nr nc num_tones r c k ltac:(lia) ltac:(lia) ltac:(lia)). simpl.
    by replace (lin nr nc r c k <? 0) with false by lia.
  - destruct s' as [r' m']. rewrite bind_ok. by exists m'.
Qed.

(** a round that ends well wrote inside the matrix *)
Lemma fill_body_in_matrix bs k c r s s' :
  fill_body bs k c r s = Ok s' -> in_matrix r c k = true.
Proof.
  unfold fill_body. intros E. apply bind_ok_inv in E as ([im r1] & _ & E).
  apply bind_ok_inv in E as (m & E & _). unfold store_imag, matrix_get in E.
  destruct (in_matrix r c k); [done|discriminate].
Qed.

(** the dimensions a report may announce without the decoder leaving the matrix *)
Definition fits_matrix (nr nc num_tones : Z) : bool :=
  (nr * nc * num_tones =? 0) ||
  ((nr <=? CSI_NR) && (nc <=? CSI_NC) && (num_tones <=? CSI_MAX_SUBCARRIERS)).

Lemma csi_loops_empty {S} nr nc num_tones (body : Z -> Z -> Z -> S -> M S) s :
  0 <= nr < 256 -> 0 <= nc < 256 -> 0 <= num_tones < 256 -> nr * nc * num_tones = 0 ->
  csi_loops 257 u8_next nr nc num_tones body s = Ok s.
Proof.
  intros Hnr Hnc Hnt H0.
  edestruct (csi_loops_inv (fun _ s' => s' = s) 257 u8_next nr nc num_tones body s)
    as (s' & -> & ->); try done; try lia.
  - intros. apply u8_next_small. lia.
  - intros. assert (0 < nr * nc * num_tones); [|lia].
    apply Z.mul_pos_pos; [apply Z.mul_pos_pos|]; lia.
Qed.

Lemma fill_csi_matrix_Ok_fits bs nr nc num_tones m m' :
  0 <= nr < 256 -> 0 <= nc < 256 -> 0 <= num_tones < 256 ->
  fill_csi_matrix bs nr nc num_tones m = Ok m' -> fits_matrix nr nc num_tones = true.
Proof.
  intros Hnr Hnc Hnt E. unfold fill_csi_matrix in E.
  apply bind_ok_inv in E as (r0 & _ & E). apply bind_ok_inv in E as (s' & E & _).
  unfold fits_matrix. destruct (Z.eqb_spec (nr * nc * num_tones) 0) as [|Hne]; [done|]. simpl.
  assert (0 < nr /\ 0 < nc /\ 0 < num_tones) as (? & ? & ?) by nia.
  pose proof (csi_loops_rounds 257 u8_next nr nc num_tones _ _ _
    ltac:(intros j Hj; apply u8_next_small; lia) E (num_tones - 1) (nc - 1) (nr - 1)
    ltac:(lia) ltac:(lia) ltac:(lia)) as (s1 & s2 & Hb).
  apply fill_body_in_matrix, in_matrix_true in Hb.
  unfold CSI_NR, CSI_NC, CSI_MAX_SUBCARRIERS. lia.
Qed.

Lemma fill_csi_matrix_Ok_stream bs nr nc num_tones m m' :
  bytes bs -> zlen bs < 2 ^ 32 ->
  0 <= nr < 256 -> 0 <= nc < 256 -> 0 <= num_tones < 256 ->
  fill_csi_matrix bs nr nc num_tones m = Ok m' ->
  stream_bytes (2 * (nr * nc * num_tones)) <= zlen bs.
Proof.
  intros Hb Hlen Hnr Hnc Hnt E. unfold fill_csi_matrix in E.
  apply bind_ok_inv in E as (r0 & E0 & E). apply bind_ok_inv in E as (s' & E & _).
  apply reg_init_Ok_inv in E0 as (Hs0 & Hi & Hx); [|done].
  eapply (csi_loops_partial (fun n s => stream_bytes (2 * n) <= zlen bs /\
    reg_inv bs (2 * n) (fst s) /\ idx (fst s) <= zlen bs)) in E as [? _]; try lia; try done.
  - intros. apply u8_next_small. lia.
  - intros k c r s1 s2 _ _ _ (_ & Hi1 & Hx1) Eb. unfold fill_body in Eb.
    set (n := lin nr nc r c k) in *.
    apply bind_ok_inv in Eb as ([v1 r1] & E1 & Eb). apply bind_ok_inv in Eb as (m1 & _ & Eb).
    apply bind_ok_inv in Eb as ([v2 r2] & E2 & Eb). apply bind_ok_inv in Eb as (m2 & _ & Eb).
    injection Eb as <-. simpl.
    eapply reg_take_Ok_inv in E1 as (_ & Hi2 & Hx2); eauto using u8_small.
    eapply reg_take_Ok_inv in E2 as (Hs3 & Hi3 & Hx3); eauto using u8_small.
    by replace (2 * (n + 1)) with (2 * n + 1 + 1) by lia.
Qed.

(** the decoder succeeds exactly on fitting dimensions and a long enough stream *)
Lemma fill_csi_matrix_is_ok bs nr nc num_tones m :
  bytes bs -> zlen bs < 2 ^ 32 -> zlen m = MATRIX_CELLS ->
  0 <= nr < 256 -> 0 <= nc < 256 -> 0 <= num_tones < 256 ->
  is_ok (fill_csi_matrix bs nr nc num_tones m) =
    fits_matrix nr nc num_tones && (stream_bytes (2 * (nr * nc * num_tones)) <=? zlen bs).
Proof.
  intros Hb Hlen Hm Hnr Hnc Hnt.
  destruct (fill_csi_matrix bs nr nc num_tones m) eqn:E; simpl.
  - rewrite (fill_csi_matrix_Ok_fits _ _ _ _ _ _ Hnr Hnc Hnt E).
    pose proof (fill_csi_matrix_Ok_stream _ _ _ _ _ _ Hb Hlen Hnr Hnc Hnt E). lia.
  - destruct (fits_matrix nr nc num_tones) eqn:Hf; [|done].
    destruct (Z.leb_spec (stream_bytes (2 * (nr * nc * num_tones))) (zlen bs)) as [Hs|]; [|done].
    unfold fits_matrix in Hf. destruct (Z.eqb_spec (nr * nc * num_tones) 0) as [H0|Hne].
    + unfold fill_csi_matrix in E.
      destruct (reg_init_ok bs Hb) as (r0 & E0 & _); [unfold stream_bytes in Hs; lia|].
      by rewrite E0, bind_ok, csi_loops_empty in E.
    + destruct (fill_csi_matrix_decodes bs nr nc num_tones m) as (m' & E' & _); try done; try lia.
      congruence.
Qed.

End FillCsi.

(** ** matlab/read_csi.c *)

Module ReadCsi.

(** The output array [mxCreateNumericArray(3, {nr, nc, num_tones}, mxDOUBLE_CLASS,
    mxCOMPLEX)] is zero filled and column-major; the decoder walks it with
    [*ptrI++] and [*ptrR++].  A double that holds an integer is that integer. *)
Record csi_out := mkOut { ptrR : Z; ptrI : Z; csiR : list Z; csiI : list Z }.

Definition mxCreate (n : Z) : csi_out :=
  mkOut 0 0 (replicate (Z.to_nat n) 0) (replicate (Z.to_nat n) 0).

Definition signbit_convert (data maxbit : Z) : Z :=
  if negb (Z.land data (Z.shiftl 1 (maxbit - 1)) =? 0) then data - Z.shiftl 1 maxbit else data.

(** [*ptrI = imag; ++ptrI;] and [*ptrR = real; ++ptrR;] *)
Definition push_imag (o : csi_out) (v : Z) : M csi_out :=
  l ← wr (csiI o) (ptrI o) v; Ok (mkOut (ptrR o) (ptrI o + 1) (csiR o) l).

Definition push_real (o : csi_out) (v : Z) : M csi_out :=
  l ← wr (csiR o) (ptrR o) v; Ok (mkOut (ptrR o + 1) (ptrI o) l (csiI o)).

Definition mex_body (local_h : list Z) (k nc_idx nr_idx : Z) (s : reg * csi_out)
    : M (reg * csi_out) :=
  '(im, r) ← reg_take i32 local_h (fst s);
  o ← push_imag (snd s) im;
  '(re, r) ← reg_take i32 local_h r;
  o ← push_real o re;
  Ok (r, o).

(** the decoder proper; the loop counters are [int] *)
Definition decode (local_h : list Z) (nr nc num_tones : Z) : M csi_out :=
  r ← reg_init local_h;
  '(_, o) ← csi_loops (S (Z.to_nat (Z.max nr (Z.max nc num_tones)))) (fun i => i32 (i + 1))
              nr nc num_tones (mex_body local_h) (r, mxCreate (nr * nc * num_tones));
  Ok o.

(** The gateway: [mexErrMsgIdAndTxt] leaves the function with a MATLAB error. *)
Inductive mex_error := ErrNrhs | ErrNlhs | ErrNotBytes.

Definition mexFunction (nlhs nrhs : Z) (is_uint8 : bool) (local_h : list Z)
    (nr nc num_tones : Z) : mex_error + M csi_out :=
  if negb (nrhs =? 4) then inl ErrNrhs
  else if negb (nlhs =? 1) then inl ErrNlhs
  else if negb is_uint8 then inl ErrNotBytes
  else inr (decode local_h nr nc num_tones).

Lemma decode_ok bs nr nc num_tones :
  bytes bs -> zlen bs < 2 ^ 32 ->
  0 <= nr < 2 ^ 31 -> 0 <= nc < 2 ^ 31 -> 0 <= num_tones < 2 ^ 31 ->
  stream_bytes (2 * (nr * nc * num_tones)) <= zlen bs ->
  exists o, decode bs nr nc num_tones = Ok o /\
    forall n, 0 <= n < nr * nc * num_tones ->
      rd (csiI o) n = Ok (csi_field bs (2 * n)) /\ rd (csiR o) n = Ok (csi_field bs (2 * n + 1)).
Proof.
  intros Hb Hlen Hnr Hnc Hnt Hs. unfold decode.
  destruct (reg_init_ok bs Hb) as (r0 & -> & Hr0); [unfold stream_bytes in Hs; lia|].
  rewrite bind_ok. set (N := nr * nc * num_tones) in *. assert (0 <= N) by (unfold N; nia).
  edestruct (csi_loops_inv (fun n s => reg_inv bs (2 * n) (fst s) /\ n <= N /\
      ptrR (snd s) = n /\ ptrI (snd s) = n /\ zlen (csiR (snd s)) = N /\ zlen (csiI (snd s)) = N /\
      forall j, 0 <= j < n -> rd (csiI (snd s)) j = Ok (csi_field bs (2 * j)) /\
                              rd (csiR (snd s)) j = Ok (csi_field bs (2 * j + 1)))
      (S (Z.to_nat (Z.max nr (Z.max nc num_tones)))) (fun i => i32 (i + 1)) nr nc num_tones
      (mex_body bs) (r0, mxCreate N)) as ([r' o] & -> & _ & _ & _ & _ & _ & _ & Hd).
  1-3: lia.
  - intros. apply i32_small. lia.
  - intros k c r [rg o] Hk Hc Hr (Hinv & HnN & HR & HI & HlR & HlI & Hd). unfold mex_body. simpl in *.
    pose proof (lin_range nr nc num_tones r c k Hr Hc Hk) as Hn. fold N in Hn.
    set (n := lin nr nc r c k) in *.
    pose proof (stream_bytes_mono (2 * n + 1) (2 * N) ltac:(lia)).
    pose proof (stream_bytes_mono (2 * n + 1 + 1) (2 * N) ltac:(lia)).
    assert (forall x, 0 <= x < 256 -> i32 x = x) as Hc32 by (intros; apply i32_small; lia).
    destruct (reg_take_ok i32 Hc32 bs (2 * n) rg) as (r1 & -> & Hinv1); [done..|lia|].
    rewrite bind_ok. unfold push_imag. rewrite wr_ok, !bind_ok by lia.
    destruct (reg_take_ok i32 Hc32 bs (2 * n + 1) r1) as (r2 & -> & Hinv2); [done..|lia|].
    rewrite bind_ok. unfold push_real. simpl. rewrite wr_ok, !bind_ok by lia.
    eexists; split; [done|]. simpl. autorewrite with arr. split_and!; try lia.
    { by replace (2 * (n + 1)) with (2 * n + 1 + 1) by lia. }
    intros j Hj. rewrite HI, HR, !rd_lookup by lia.
    destruct (decide (j = n)) as [->|].
    + rewrite !list_lookup_insert_eq; [done|unfold zlen in *; lia..].
    + rewrite !list_lookup_insert_ne by lia. rewrite <- !rd_lookup by lia. apply Hd. lia.
  - simpl. unfold zlen. rewrite !length_replicate. split_and!; try done; lia.
  - rewrite bind_ok. by exists o.
Qed.

Lemma decode_Ok_stream bs nr nc num_tones o :
  bytes bs -> zlen bs < 2 ^ 32 ->
  0 <= nr < 2 ^ 31 -> 0 <= nc < 2 ^ 31 -> 0 <= num_tones < 2 ^ 31 ->
  decode bs nr nc num_tones = Ok o ->
  stream_bytes (2 * (nr * nc * num_tones)) <= zlen bs.
Proof.
  intros Hb Hlen Hnr Hnc Hnt E. unfold decode in E.
  apply bind_ok_inv in E as (r0 & E0 & E). apply bind_ok_inv in E as (s' & E & _).
  apply reg_init_Ok_inv in E0 as (Hs0 & Hi & Hx); [|done].
  eapply (csi_loops_partial (fun n s => stream_bytes (2 * n) <= zlen bs /\
    reg_inv bs (2 * n) (fst s) /\ idx (fst s) <= zlen bs)) in E as [? _]; try lia; try done.
  - intros. apply i32_small. lia.
  - assert (forall x, 0 <= x < 256 -> i32 x = x) as Hc32 by (intros; apply i32_small; lia).
    intros k c r s1 s2 _ _ _ (_ & Hi1 & Hx1) Eb. unfold mex_body in Eb.
    set (n := lin nr nc r c k) in *.
    apply bind_ok_inv in Eb as ([v1 r1] & E1 & Eb). apply bind_ok_inv in Eb as (m1 & _ & Eb).
    apply bind_ok_inv in Eb as ([v2 r2] & E2 & Eb). apply bind_ok_inv in Eb as (m2 & _ & Eb).
    injection Eb as <-. simpl.
    eapply reg_take_Ok_inv in E1 as (_ & Hi2 & Hx2); eauto.
    eapply reg_take_Ok_inv in E2 as (Hs3 & Hi3 & Hx3); eauto.
    by replace (2 * (n + 1)) with (2 * n + 1 + 1) by lia.
Qed.

Lemma reg_take_enough_fuel conv bs r : enough_fuel (reg_take conv bs r).
Proof. unfold reg_take, reg_refill. destruct (_ <? 0); auto 8 with fuel. Qed.

(** the fuel of [decode] covers its three loops *)
Lemma decode_enough_fuel bs nr nc num_tones :
  0 <= nr < 2 ^ 31 -> 0 <= nc < 2 ^ 31 -> 0 <= num_tones < 2 ^ 31 ->
  enough_fuel (decode bs nr nc num_tones).
Proof.
  intros Hnr Hnc Hnt. unfold decode. apply bind_enough_fuel; [unfold reg_init; auto 8 with fuel|].
  intros r0. apply bind_enough_fuel; [|by intros [? ?]]. unfold csi_loops.
  apply (cfor_enough_fuel _ _ _ num_tones); [lia|lia|intros; apply i32_small; lia|done|]. intros k s1 _.
  apply (cfor_enough_fuel _ _ _ nc); [lia|lia|intros; apply i32_small; lia|done|]. intros c s2 _.
  apply (cfor_enough_fuel _ _ _ nr); [lia|lia|intros; apply i32_small; lia|done|]. intros r [rg o] _.
  unfold mex_body, push_imag, push_real. simpl.
  apply bind_enough_fuel; [apply reg_take_enough_fuel|]. intros [v1 r1].
  apply bind_enough_fuel; [auto with fuel|]. intros o1.
  apply bind_enough_fuel; [apply reg_take_enough_fuel|]. intros [v2 r2].
  apply bind_enough_fuel; [auto with fuel|done].
Qed.

(** the MEX decoder succeeds exactly when the stream is long enough *)
Lemma decode_is_ok bs nr nc num_tones :
  bytes bs -> zlen bs < 2 ^ 32 ->
  0 <= nr < 2 ^ 31 -> 0 <= nc < 2 ^ 31 -> 0 <= num_tones < 2 ^ 31 ->
  is_ok (decode bs nr nc num_tones) = (stream_bytes (2 * (nr * nc * num_tones)) <=? zlen bs).
Proof.
  intros Hb Hlen Hnr Hnc Hnt. destruct (decode bs nr nc num_tones) eqn:E; simpl.
  - pose proof (decode_Ok_stream _ _ _ _ _ Hb Hlen Hnr Hnc Hnt E). lia.
  - destruct (Z.leb_spec (stream_bytes (2 * (nr * nc * num_tones))) (zlen bs)) as [Hs|]; [|done].
    destruct (decode_ok bs nr nc num_tones) as (o & E' & _); try done. congruence.
Qed.

End ReadCsi.

(** ** Building a stream: the packing the decoders undo *)

Fixpoint pack (fs : list Z) : Z :=
  match fs with [] => 0 | f :: fs => f mod 1024 + 1024 * pack fs end.

(** whole 16-bit words, least significant byte first *)
Definition csi_stream (fs : list Z) : list Z :=
  to_le (Z.to_nat (stream_bytes (zlen fs))) (pack fs).

Lemma pack_range fs : 0 <= pack fs < 1024 ^ zlen fs.
Proof.
  induction fs as [|f fs IH]; simpl pack; [done|].
  autorewrite with arr. rewrite Z.pow_add_r by (try apply zlen_nonneg; lia).
  change (1024 ^ 1) with 1024. pose proof (Z.mod_pos_bound f 1024 ltac:(lia)). lia.
Qed.

Lemma pack_field fs (n : nat) f :
  fs !! n = Some f -> bits_at (pack fs) (10 * Z.of_nat n) 10 = f mod 1024.
Proof.
  revert n. induction fs as [|g fs IH]; intros [|n] Hf; try done; simpl pack; unfold bits_at.
  - injection Hf as ->. change (10 * Z.of_nat 0) with 0. rewrite Z.div_1_r.
    change (2 ^ 10) with 1024. rewrite (Z.mul_comm 1024), Z_mod_plus_full. apply Z.mod_mod. lia.
  - replace (10 * Z.of_nat (S n)) with (10 + 10 * Z.of_nat n) by lia.
    rewrite Z.pow_add_r by lia. rewrite <- Z.div_div by lia. change (2 ^ 10) with 1024.
    rewrite (Z.mul_comm 1024 (pack fs)), Z.div_add by lia.
    rewrite (Z.div_small (g mod 1024)) by (apply Z.mod_pos_bound; lia). by apply IH.
Qed.

Lemma sext_mod v : -512 <= v < 512 -> sext 10 (v mod 1024) = v.
Proof.
  intros. unfold sext. change (2 ^ (10 - 1)) with 512. change (2 ^ 10) with 1024.
  destruct (decide (0 <= v)).
  - rewrite Z.mod_small by lia. destruct (Z.ltb_spec v 512); lia.
  - replace (v mod 1024) with (v + 1024); [destruct (Z.ltb_spec (v + 1024) 512); lia|].
    apply (Z.mod_unique v 1024 (-1)); lia.
Qed.

Lemma stream_bytes_nonneg n : 0 <= stream_bytes n.
Proof. unfold stream_bytes. lia. Qed.

Lemma zlen_csi_stream fs : zlen (csi_stream fs) = stream_bytes (zlen fs).
Proof. unfold csi_stream. rewrite zlen_to_le. pose proof (stream_bytes_nonneg (zlen fs)). lia. Qed.

Lemma le_csi_stream fs : le (csi_stream fs) = pack fs.
Proof.
  unfold csi_stream. pose proof (stream_bytes_nonneg (zlen fs)). rewrite le_to_le, Z2Nat.id by done.
  apply Z.mod_small. pose proof (pack_range fs). split; [lia|].
  eapply Z.lt_le_trans; [apply H0|]. change 1024 with (2 ^ 10). change 256 with (2 ^ 8).
  pose proof (zlen_nonneg fs).
  rewrite <- !Z.pow_mul_r by lia. apply Z.pow_le_mono_r; [lia|]. unfold stream_bytes.
  pose proof (Z.div_mod (10 * zlen fs + 15) 16 ltac:(lia)).
  pose proof (Z.mod_pos_bound (10 * zlen fs + 15) 16 ltac:(lia)). lia.
Qed.

Lemma csi_field_stream fs n f :
  rd fs n = Ok f -> -512 <= f < 512 -> csi_field (csi_stream fs) n = f.
Proof.
  intros Hf Hr. pose proof (rd_Ok_range _ _ _ Hf). apply rd_lookup in Hf; [|lia].
  unfold csi_field. rewrite le_csi_stream.
  replace n with (Z.of_nat (Z.to_nat n)) by lia.
  rewrite (pack_field _ _ f) by done. by apply sext_mod.
Qed.

(** ** Properties *)

Section Properties.
Import FillCsi.

(** C1: [fill_csi_matrix] is correct: for every matrix shape the hardware can
    announce and a buffer that holds the stream, it succeeds; cell (r, c, k)
    inside the announced shape holds the two consecutive 10-bit signed
    numbers at the cell's place in the stream (imaginary part first, the
    receive antenna varying fastest), and every other cell keeps its value. *)
Theorem fill_csi_matrix_correct (csi_addr : list Z) (nr nc num_tones : Z) (m : list COMPLEX)
    (Hbytes : bytes csi_addr) (Hsize : zlen csi_addr < 2 ^ 32)
    (Hm : zlen m = MATRIX_CELLS)
    (Hnr : 0 <= nr <= CSI_NR) (Hnc : 0 <= nc <= CSI_NC)
    (Hnt : 0 <= num_tones <= CSI_MAX_SUBCARRIERS)
    (Hstream : stream_bytes (2 * (nr * nc * num_tones)) <= zlen csi_addr) :
  exists m', fill_csi_matrix csi_addr nr nc num_tones m = Ok m' /\
    (forall r c k, 0 <= r < nr -> 0 <= c < nc -> 0 <= k < num_tones ->
       let n := lin nr nc r c k in
       matrix_get m' r c k =
         Ok {| real := csi_field csi_addr (2 * n + 1); imag := csi_field csi_addr (2 * n) |}) /\
    (forall r c k, ~ (0 <= r < nr /\ 0 <= c < nc /\ 0 <= k < num_tones) ->
       matrix_get m' r c k = matrix_get m r c k).
Proof.
  destruct (fill_csi_matrix_decodes csi_addr nr nc num_tones m) as (m' & E & _ & Hd); [done..|].
  exists m'. split; [done|]. split; intros r c k H; intros; rewrite Hd.
  - pose proof (lin_range nr nc num_tones r c k H H0 H1). fold n in H2.
    by replace ((0 <=? r) && _ && _ && _ && _ && _ && _) with true by lia.
  - destruct ((0 <=? r) && (r <? nr) && (0 <=? c) && (c <? nc) && (0 <=? k) && (k <? num_tones)) eqn:Hin; [|done].
    exfalso. apply H. lia.
Qed.

(** C2: [fill_csi_matrix] has defined behaviour exactly when the announced
    shape fits [csi_matrix[3][3][114]] (or is empty) and the buffer holds all
    the 16-bit words it fetches.  Nothing in the program checks either. *)
Theorem fill_csi_matrix_safe_iff (csi_addr : list Z) (nr nc num_tones : Z) (m : list COMPLEX)
    (Hbytes : bytes csi_addr) (Hsize : zlen csi_addr < 2 ^ 32) (Hm : zlen m = MATRIX_CELLS)
    (Hnr : 0 <= nr < 256) (Hnc : 0 <= nc < 256) (Hnt : 0 <= num_tones < 256) :
  is_ok (fill_csi_matrix csi_addr nr nc num_tones m) = true <->
  (nr * nc * num_tones = 0 \/ nr <= 3 /\ nc <= 3 /\ num_tones <= 114) /\
  stream_bytes (2 * (nr * nc * num_tones)) <= zlen csi_addr.
Proof.
  rewrite fill_csi_matrix_is_ok by done.
  unfold fits_matrix, CSI_NR, CSI_NC, CSI_MAX_SUBCARRIERS. lia.
Qed.

(** C3: the user-space decoder and the MATLAB decoder agree: on the same
    bytes and shape both succeed, and element (r+1, c+1, k+1) of the MATLAB
    array (column-major) is the C matrix's cell (r, c, k). *)
Theorem decoders_agree (local_h : list Z) (nr nc num_tones : Z) (m : list COMPLEX)
    (Hbytes : bytes local_h) (Hsize : zlen local_h < 2 ^ 32)
    (Hm : zlen m = MATRIX_CELLS)
    (Hnr : 0 <= nr <= CSI_NR) (Hnc : 0 <= nc <= CSI_NC)
    (Hnt : 0 <= num_tones <= CSI_MAX_SUBCARRIERS)
    (Hstream : stream_bytes (2 * (nr * nc * num_tones)) <= zlen local_h) :
  exists m' o, fill_csi_matrix local_h nr nc num_tones m = Ok m' /\
    ReadCsi.mexFunction 1 4 true local_h nr nc num_tones = inr (Ok o) /\
    forall r c k, 0 <= r < nr -> 0 <= c < nc -> 0 <= k < num_tones ->
      exists x, matrix_get m' r c k = Ok x /\
        rd (ReadCsi.csiR o) (r + nr * (c + nc * k)) = Ok (real x) /\
        rd (ReadCsi.csiI o) (r + nr * (c + nc * k)) = Ok (imag x).
Proof.
  unfold CSI_NR, CSI_NC, CSI_MAX_SUBCARRIERS in *.
  destruct (fill_csi_matrix_decodes local_h nr nc num_tones m) as (m' & E & _ & Hd); [done..|].
  destruct (ReadCsi.decode_ok local_h nr nc num_tones) as (o & Eo & Ho); [done|done|lia..|done|].
  exists m', o. split; [done|]. split; [by unfold ReadCsi.mexFunction; rewrite Eo|].
  intros r c k Hr Hc Hk. pose proof (lin_range nr nc num_tones r c k Hr Hc Hk) as Hn.
  rewrite Hd. replace ((0 <=? r) && _ && _ && _ && _ && _ && _) with true by lia.
  eexists; split; [done|]. simpl.
  replace (r + nr * (c + nc * k)) with (lin nr nc r c k) by (unfold lin; lia).
  by destruct (Ho _ Hn).
Qed.

(** C4: round trip: packing any list of 10-bit signed numbers, two per cell in
    the order of the nest, and decoding the packed words gives the numbers
    back. *)
Theorem fill_csi_matrix_roundtrip (fs : list Z) (nr nc num_tones : Z) (m : list COMPLEX)
    (Hfs : Forall (fun f => -512 <= f < 512) fs)
    (Hm : zlen m = MATRIX_CELLS)
    (Hnr : 0 <= nr <= CSI_NR) (Hnc : 0 <= nc <= CSI_NC)
    (Hnt : 0 <= num_tones <= CSI_MAX_SUBCARRIERS)
    (Hlen : zlen fs = 2 * (nr * nc * num_tones)) :
  exists m', fill_csi_matrix (csi_stream fs) nr nc num_tones m = Ok m' /\
    forall r c k, 0 <= r < nr -> 0 <= c < nc -> 0 <= k < num_tones ->
      exists x, matrix_get m' r c k = Ok x /\
        rd fs (2 * lin nr nc r c k) = Ok (imag x) /\
        rd fs (2 * lin nr nc r c k + 1) = Ok (real x).
Proof.
  pose proof (zlen_csi_stream fs) as Hz. rewrite Hlen in Hz.
  assert (stream_bytes (2 * (nr * nc * num_tones)) <= 4096).
  { unfold stream_bytes, CSI_NR, CSI_NC, CSI_MAX_SUBCARRIERS in *.
    assert (nr * nc <= 9) by nia. assert (nr * nc * num_tones <= 1026) by nia.
    pose proof (Z.div_mod (10 * (2 * (nr * nc * num_tones)) + 15) 16 ltac:(lia)).
    pose proof (Z.mod_pos_bound (10 * (2 * (nr * nc * num_tones)) + 15) 16 ltac:(lia)). lia. }
  destruct (fill_csi_matrix_decodes (csi_stream fs) nr nc num_tones m) as (m' & E & _ & Hd);
    [apply to_le_bytes|lia|done..|lia|].
  exists m'. split; [done|]. intros r c k Hr Hc Hk.
  pose proof (lin_range nr nc num_tones r c k Hr Hc Hk) as Hn.
  rewrite Hd. replace ((0 <=? r) && _ && _ && _ && _ && _ && _) with true by lia.
  eexists; split; [done|]. simpl.
  destruct (rd_in_range fs (2 * lin nr nc r c k)) as [f0 E0]; [lia|].
  destruct (rd_in_range fs (2 * lin nr nc r c k + 1)) as [f1 E1]; [lia|].
  assert (forall i f, rd fs i = Ok f -> -512 <= f < 512) as Hrange.
  { intros i f Hf. pose proof (rd_Ok_range _ _ _ Hf). apply rd_lookup in Hf; [|lia].
    exact (Forall_lookup_1 _ _ _ _ Hfs Hf). }
  rewrite (csi_field_stream fs _ f0), (csi_field_stream fs _ f1) by eauto. done.
Qed.

(** The MATLAB decoder has defined behaviour exactly when its input holds
    whole 16-bit words: a 114-tone report of a 1x1 link carries 285 bytes of
    CSI, and decoding exactly those bytes reads past the end of the input. *)
Theorem read_csi_safe_iff (local_h : list Z) (nr nc num_tones : Z)
    (Hbytes : bytes local_h) (Hsize : zlen local_h < 2 ^ 32)
    (Hnr : 0 <= nr < 2 ^ 31) (Hnc : 0 <= nc < 2 ^ 31) (Hnt : 0 <= num_tones < 2 ^ 31) :
  (is_ok (ReadCsi.decode local_h nr nc num_tones) = true <->
     stream_bytes (2 * (nr * nc * num_tones)) <= zlen local_h) /\
  (nr = 1 -> nc = 1 -> num_tones = 114 -> 8 * zlen local_h = 20 * (nr * nc * num_tones) ->
     is_ok (ReadCsi.decode local_h nr nc num_tones) = false).
Proof.
  rewrite ReadCsi.decode_is_ok by done. split; [lia|]. intros -> -> -> H.
  change (stream_bytes (2 * (1 * 1 * 114))) with 286. lia.
Qed.
End Properties.

(** *** Witnesses *)

(** one antenna pair, one tone: imag = 1, real = -1 *)
Definition sample_stream : list Z := csi_stream [1; -1].
Definition sample_matrix : list COMPLEX := replicate 1026 (mkComplex 7 7).

Lemma sample_stream_bytes : bytes sample_stream.
Proof. apply to_le_bytes. Qed.

Lemma fill_csi_matrix_correct_witness :
  exists m', FillCsi.fill_csi_matrix sample_stream 1 1 1 sample_matrix = Ok m' /\
    FillCsi.matrix_get m' 0 0 0 = Ok (mkComplex (-1) 1) /\
    FillCsi.matrix_get m' 2 2 113 = Ok (mkComplex 7 7).
Proof.
  destruct (fill_csi_matrix_correct sample_stream 1 1 1 sample_matrix
    sample_stream_bytes ltac:(reflexivity) ltac:(reflexivity)) as (m' & E & Hin & Hout);
    [by vm_compute..|].
  exists m'. split; [exact E|]. split.
  - rewrite (Hin 0 0 0) by lia. reflexivity.
  - rewrite (Hout 2 2 113) by lia. reflexivity.
Defined.

Lemma fill_csi_matrix_safe_iff_witness :
  is_ok (FillCsi.fill_csi_matrix sample_stream 1 1 1 sample_matrix) = true /\
  is_ok (FillCsi.fill_csi_matrix sample_stream 4 1 1 sample_matrix) = false.
Proof.
  split.
  - apply (fill_csi_matrix_safe_iff sample_stream 1 1 1 sample_matrix sample_stream_bytes);
      [reflexivity|reflexivity|lia|lia|lia|]. split; [lia|by vm_compute].
  - destruct (is_ok _) eqn:E; [|reflexivity].
    assert (H := proj1 (fill_csi_matrix_safe_iff sample_stream 4 1 1 sample_matrix
      sample_stream_bytes ltac:(reflexivity) ltac:(reflexivity) ltac:(lia) ltac:(lia) ltac:(lia)) E).
    lia.
Defined.

Lemma decoders_agree_witness :
  exists m' o, FillCsi.fill_csi_matrix sample_stream 1 1 1 sample_matrix = Ok m' /\
    ReadCsi.mexFunction 1 4 true sample_stream 1 1 1 = inr (Ok o) /\
    exists x, FillCsi.matrix_get m' 0 0 0 = Ok x /\
      rd (ReadCsi.csiR o) 0 = Ok (real x) /\ rd (ReadCsi.csiI o) 0 = Ok (imag x).
Proof.
  destruct (decoders_agree sample_stream 1 1 1 sample_matrix
    sample_stream_bytes ltac:(reflexivity) ltac:(reflexivity)) as (m' & o & E & Eo & H);
    [by vm_compute..|].
  exists m', o. split; [exact E|]. split; [exact Eo|]. apply (H 0 0 0); lia.
Defined.

Lemma fill_csi_matrix_roundtrip_witness :
  exists m', FillCsi.fill_csi_matrix (csi_stream [5; -512; 511; 0]) 2 1 1 sample_matrix = Ok m' /\
    exists x, FillCsi.matrix_get m' 1 0 0 = Ok x /\ rd [5; -512; 511; 0] 2 = Ok (imag x).
Proof.
  destruct (fill_csi_matrix_roundtrip [5; -512; 511; 0] 2 1 1 sample_matrix)
    as (m' & E & H); [repeat constructor; lia|reflexivity|by vm_compute..|].
  exists m'. split; [exact E|]. destruct (H 1 0 0) as (x & Ex & Hi & _); [lia..|].
  exists x. split; [exact Ex|exact Hi].
Defined.

Lemma read_csi_safe_iff_witness :
  is_ok (ReadCsi.decode (replicate 285 0) 1 1 114) = false.
Proof.
  apply (read_csi_safe_iff (replicate 285 0) 1 1 114);
    [apply Forall_replicate; unfold is_byte; lia|reflexivity|lia..|reflexivity].
Defined.
