(* ===== verification/CsiReceive.v ===== *)
(** * recvCSIToFile: record_status, record_csi_payload, the receive loop and the log

    Models recvCSIToFile/csi_fun.c, csi_fun.h and main.c.  The status decoder of
    recvCSIToDatabase differs and is modelled in CsiDatabase.v; the payload
    copy and the matrix decoder are the same text in both programs. *)

From S2P Require Import Prelude CsiDecode.
Import FillCsi.

(** ** csi_fun.h *)

Record csi_struct := mkCsi {
  tstamp : Z;
  channel : Z; chanBW : Z;
  rate : Z; nr : Z; nc : Z; num_tones : Z; noise : Z;
  phyerr : Z;
  rssi : Z; rssi_0 : Z; rssi_1 : Z; rssi_2 : Z;
  payload_len : Z; csi_len : Z; buf_len : Z
}.

(** the ranges of the field types *)
Definition csi_typed (s : csi_struct) : Prop :=
  (0 <= payload_len s < 2 ^ 16 /\ 0 <= csi_len s < 2 ^ 16 /\ 0 <= buf_len s < 2 ^ 16) /\
  0 <= nr s < 256 /\ 0 <= nc s < 256 /\ 0 <= num_tones s < 256.

Definition csi_st_len : Z := 23.
Definition BUFSIZE : Z := 4096.
Definition DATA_BUF_SIZE : Z := 1500.

(** ** The host

    [big_endian]: the byte order.  [wide_shl a n] is the value the compiled
    program computes for [a << n] on [int] when [n >= 32], which C leaves
    undefined; for [n < 32] the bits shifted out are lost, as GCC documents. *)

Section Host.
Context (big_endian : bool) (wide_shl : Z -> Z -> Z).

(** the bytes of an [int] in memory *)
Definition int_repr (a : Z) : list Z :=
  let l := to_le 4 (u32 a) in if big_endian then reverse l else l.

Definition is_big_endian : bool :=
  match int_repr 0x1234 with b :: _ => b =? 0x12 | [] => false end.

Definition int_shl (a n : Z) : Z := if n <? 32 then i32 (Z.shiftl a n) else wide_shl a n.

(** [(buf_addr[i] << n) & mask], converted to 64 bits *)
Definition tstamp_term (b n mask : Z) : Z := Z.land (u64 (int_shl b n)) mask.

(** [((hi << 8) & 0xff00) | (lo & 0x00ff)] *)
Definition half (hi lo : Z) : Z := Z.lor (Z.land (Z.shiftl hi 8) 0xff00) (Z.land lo 0x00ff).

(** the eight terms, given the bytes in the order the expression names them *)
Definition tstamp_expr (a0 a1 a2 a3 a4 a5 a6 a7 : Z) : Z :=
  Z.lor (Z.lor (Z.lor (Z.lor (Z.lor (Z.lor (Z.lor
    (tstamp_term a0 56 0x00000000000000ff) (tstamp_term a1 48 0x000000000000ff00))
    (tstamp_term a2 40 0x0000000000ff0000)) (tstamp_term a3 32 0x00000000ff000000))
    (tstamp_term a4 24 0x000000ff00000000)) (tstamp_term a5 16 0x0000ff0000000000))
    (tstamp_term a6 8 0x00ff000000000000)) (Z.land (u64 a7) 0xff00000000000000).

(** [record_status]: every field is assigned, so the old struct plays no part *)
Definition record_status (buf_addr : list Z) (cnt : Z) : M csi_struct :=
  b0 ← rd buf_addr 0; b1 ← rd buf_addr 1; b2 ← rd buf_addr 2; b3 ← rd buf_addr 3;
  b4 ← rd buf_addr 4; b5 ← rd buf_addr 5; b6 ← rd buf_addr 6; b7 ← rd buf_addr 7;
  b8 ← rd buf_addr 8; b9 ← rd buf_addr 9; b10 ← rd buf_addr 10; b11 ← rd buf_addr 11;
  l2 ← rd buf_addr (cnt - 2); l1 ← rd buf_addr (cnt - 1);
  p0 ← rd buf_addr csi_st_len; p1 ← rd buf_addr (csi_st_len + 1);
  b12 ← rd buf_addr 12; b13 ← rd buf_addr 13; b14 ← rd buf_addr 14; b15 ← rd buf_addr 15;
  b16 ← rd buf_addr 16; b17 ← rd buf_addr 17; b18 ← rd buf_addr 18; b19 ← rd buf_addr 19;
  b20 ← rd buf_addr 20; b21 ← rd buf_addr 21; b22 ← rd buf_addr 22;
  Ok {| tstamp := if is_big_endian then tstamp_expr b0 b1 b2 b3 b4 b5 b6 b7
                  else tstamp_expr b7 b6 b5 b4 b3 b2 b1 b0;
        csi_len := if is_big_endian then half b8 b9 else half b9 b8;
        channel := if is_big_endian then half b10 b11 else half b11 b10;
        buf_len := if is_big_endian then half l2 l1 else half l1 l2;
        payload_len := if is_big_endian then half p0 p1 else half p1 p0;
        phyerr := b12; noise := b13; rate := b14; chanBW := b15; num_tones := b16;
        nr := b17; nc := b18; rssi := b19; rssi_0 := b20; rssi_1 := b21; rssi_2 := b22 |}.
End Host.

(** ** record_csi_payload *)

(** [for (i = 1; i <= payload_len; i++) data_buf[i-1] = buf_addr[csi_st_len + csi_len + i + 1]] *)
Definition copy_payload (buf_addr : list Z) (csi_len payload_len : Z) (data_buf : list Z)
    : M (list Z) :=
  cfor (Z.to_nat payload_len + 1) (fun i => i + 1) (fun i => i <=? payload_len)
    (fun i d => b ← rd buf_addr (csi_st_len + csi_len + i + 1); wr d (i - 1) b) 1 data_buf.

Definition record_csi_payload (buf_addr : list Z) (st : csi_struct) (data_buf : list Z)
    (csi_matrix : list COMPLEX) : M (list Z * list COMPLEX) :=
  d ← copy_payload buf_addr (csi_len st) (payload_len st) data_buf;
  let csi_addr := drop (Z.to_nat (csi_st_len + 2)) buf_addr in
  m ← fill_csi_matrix csi_addr (nr st) (nc st) (num_tones st) csi_matrix;
  Ok (d, m).

(** ** main.c *)

(** what [read(fd, buf_addr, BUFSIZE)] does next: deliver bytes, or fail *)
Inductive read_result := ReadBytes (l : list Z) | ReadError.

(** the kernel copies at most [BUFSIZE] bytes to the front of the buffer *)
Definition read_csi_buf (buf_addr : list Z) (r : read_result) : list Z * Z :=
  match r with
  | ReadBytes l => let l := take (Z.to_nat BUFSIZE) l in (l ++ drop (length l) buf_addr, zlen l)
  | ReadError => (buf_addr, -1)
  end.

(** [fopen]'s outcome and the command line decide how main starts *)
Inductive start := Running (log_flag : bool) | Exited (code : Z).

Definition main_start (argc : Z) (fopen_ok : bool) (fd errno : Z) : M start :=
  if (argc =? 2) && negb fopen_ok then Err NullDeref (* fclose(NULL) *)
  else if 2 <? argc then Ok (Exited 0)
  else if fd <? 0 then Ok (Exited errno)
  else Ok (Running (negb (argc =? 1))).

(** The globals and the locals of main that live across iterations; [log] is
    what has been written to [fp], [printed] the lines of the progress printf. *)
Record prog := mkProg {
  buf_addr : list Z; data_buf : list Z; csi_matrix : list COMPLEX;
  total_msg_cnt : Z; quit : Z;
  log : list Z; printed : list (Z * Z * Z)
}.

Definition SIGINT : Z := 2.
Definition sig_handler (signo : Z) (quit : Z) : Z := if signo =? SIGINT then 1 else quit.

Definition prog_init : prog :=
  mkProg (replicate (Z.to_nat BUFSIZE) 0) (replicate (Z.to_nat DATA_BUF_SIZE) 0)
         (replicate (Z.to_nat MATRIX_CELLS) (mkComplex 0 0)) 0 0 [] [].

Definition prog_wf (p : prog) : Prop :=
  zlen (buf_addr p) = BUFSIZE /\ bytes (buf_addr p) /\ zlen (data_buf p) = DATA_BUF_SIZE /\
  zlen (csi_matrix p) = MATRIX_CELLS.

(** [fwrite(buf_addr, 1, buf_len, fp)] *)
Definition fwrite (buf : list Z) (n : Z) : M (list Z) :=
  if n <=? zlen buf then Ok (take (Z.to_nat n) buf) else Err OutOfBounds.

Section Main.
Context (big_endian : bool) (wide_shl : Z -> Z -> Z) (log_flag : bool).

(** [fwrite(&buf_len, 1, 2, fp)]: a [u_int16_t] in host order *)
Definition u16_repr (v : Z) : list Z :=
  let l := to_le 2 (u16 v) in if big_endian then reverse l else l.

(** one round of [while(1)], once [quit] is seen to be 0; [inl] is main's return *)
Definition main_iter (p : prog) (r : read_result) : M (Z + prog) :=
  if quit p =? 1 then Ok (inl 0) else
  let '(buf, cnt) := read_csi_buf (buf_addr p) r in
  if cnt =? 0 then
    Ok (inr (mkProg buf (data_buf p) (csi_matrix p) (total_msg_cnt p) (quit p) (log p) (printed p)))
  else
    total ← int_succ (total_msg_cnt p);
    st ← record_status big_endian wide_shl buf cnt;
    '(d, m) ← record_csi_payload buf st (data_buf p) (csi_matrix p);
    let line := (total, rate st, payload_len st) in
    if log_flag then
      body ← fwrite buf (buf_len st);
      Ok (inr (mkProg buf d m total (quit p) (log p ++ u16_repr (buf_len st) ++ body) (printed p ++ [line])))
    else
      Ok (inr (mkProg buf d m total (quit p) (log p) (printed p ++ [line]))).

Fixpoint main_loop (p : prog) (rs : list read_result) : M (Z + prog) :=
  match rs with
  | [] => Ok (inr p)
  | r :: rs => x ← main_iter p r;
               match x with inl code => Ok (inl code) | inr p => main_loop p rs end
  end.
End Main.

(** ** Lemmas *)

(** [is_big_endian] looks for 0x12 in the first byte of a four-byte [int]
    holding 0x1234: it is 0x34 on a little-endian host and 0x00 on a big-endian one *)
Lemma is_big_endian_false be : is_big_endian be = false.
Proof. by destruct be. Qed.

Lemma half_val hi lo : is_byte hi -> is_byte lo -> half hi lo = lo + 256 * hi.
Proof.
  unfold is_byte, half. intros Hhi Hlo.
  change 0x00ff with (2 ^ 8 - 1). rewrite (land_ones_mod lo), (Z.mod_small lo) by lia.
  replace (Z.land (Z.shiftl hi 8) 65280) with (hi * 2 ^ 8); [rewrite lor_disjoint by lia; lia|].
  rewrite Z.shiftl_mul_pow2 by lia. change 65280 with (255 * 2 ^ 8).
  rewrite <- !Z.shiftl_mul_pow2 by lia. rewrite <- Z.shiftl_land. f_equal.
  change 255 with (2 ^ 8 - 1). rewrite land_ones_mod by lia. symmetry. apply Z.mod_small. lia.
Qed.

Lemma half_le (buf : list Z) (i : nat) lo hi :
  rd buf (Z.of_nat i) = Ok lo -> rd buf (Z.of_nat i + 1) = Ok hi -> bytes buf ->
  half hi lo = le (slice i 2 buf).
Proof.
  intros E0 E1 Hb. rewrite half_val by eauto using bytes_rd.
  apply rd_lookup in E0, E1; [|lia..].
  replace (Z.to_nat (Z.of_nat i)) with i in E0 by lia.
  replace (Z.to_nat (Z.of_nat i + 1)) with (S i) in E1 by lia.
  unfold slice. rewrite (drop_S _ _ _ E0), (drop_S _ _ _ E1). simpl. lia.
Qed.

(** a term of the timestamp whose shift stays inside an [int] contributes
    nothing, except the sign bits of [buf_addr[3] << 24] *)
Lemma tstamp_term_16 w b : is_byte b -> tstamp_term w b 16 0x0000ff0000000000 = 0.
Proof.
  intros Hb. apply Z.eqb_eq.
  apply (byte_forall (fun b => tstamp_term w b 16 0x0000ff0000000000 =? 0)); [by vm_compute|done].
Qed.

Lemma tstamp_term_8 w b : is_byte b -> tstamp_term w b 8 0x00ff000000000000 = 0.
Proof.
  intros Hb. apply Z.eqb_eq.
  apply (byte_forall (fun b => tstamp_term w b 8 0x00ff000000000000 =? 0)); [by vm_compute|done].
Qed.

Lemma tstamp_term_24 w b : is_byte b ->
  tstamp_term w b 24 0x000000ff00000000 = if b <? 128 then 0 else 0xff00000000.
Proof.
  intros Hb. apply Z.eqb_eq.
  apply (byte_forall (fun b => tstamp_term w b 24 0x000000ff00000000 =?
    if b <? 128 then 0 else 0xff00000000)); [by vm_compute|done].
Qed.

Lemma tstamp_term_0 b : is_byte b -> Z.land (u64 b) 0xff00000000000000 = 0.
Proof.
  intros Hb. apply Z.eqb_eq.
  apply (byte_forall (fun b => Z.land (u64 b) 0xff00000000000000 =? 0)); [by vm_compute|done].
Qed.

(** the shifts by 32 and more, as compilers translate them: the count taken
    modulo 32 (the x86 shift instruction), or the result folded to 0 *)
Definition usual_wide_shl (w : Z -> Z -> Z) : Prop :=
  (forall a n, w a n = i32 (Z.shiftl a (n mod 32))) \/ (forall a n, w a n = 0).

Lemma tstamp_term_wide w b n mask :
  usual_wide_shl w -> is_byte b -> In (n, mask) [(56, 0xff); (48, 0xff00); (40, 0xff0000); (32, 0xff000000)] ->
  tstamp_term w b n mask = 0.
Proof.
  intros Hw Hb Hin. unfold tstamp_term, int_shl.
  repeat destruct Hin as [[= <- <-]|Hin]; [..|done]; cbv beta iota delta [Z.ltb Z.compare];
    simpl; destruct Hw as [Hw|Hw]; rewrite Hw; try done; apply Z.eqb_eq;
    match goal with |- (Z.land (u64 (i32 (Z.shiftl b ?n))) ?mask =? 0) = true =>
      apply (byte_forall (fun b => Z.land (u64 (i32 (Z.shiftl b n))) mask =? 0)); [by vm_compute|done]
    end.
Qed.

(** *** record_status *)

Lemma record_status_ok be w buf cnt :
  23 + 2 <= zlen buf -> 2 <= cnt <= zlen buf -> exists st, record_status be w buf cnt = Ok st.
Proof.
  intros Hl Hc. unfold record_status, csi_st_len.
  repeat (match goal with |- context [rd buf ?i ≫= _] =>
    let b := fresh "b" in let E := fresh "E" in
    destruct (rd_in_range buf i) as [b E]; [lia|rewrite E, bind_ok; clear E] end).
  by eexists.
Qed.

Lemma record_status_fields be w buf cnt st :
  bytes buf -> record_status be w buf cnt = Ok st ->
  2 <= cnt <= zlen buf /\
  csi_len st = le (slice 8 2 buf) /\ channel st = le (slice 10 2 buf) /\
  payload_len st = le (slice 23 2 buf) /\ buf_len st = le (slice (Z.to_nat (cnt - 2)) 2 buf) /\
  [phyerr st; noise st; rate st; chanBW st; num_tones st; nr st; nc st;
   rssi st; rssi_0 st; rssi_1 st; rssi_2 st] = slice 12 11 buf.
Proof.
  intros Hb E. unfold record_status in E. minv E. rewrite is_big_endian_false.
  pose proof (rd_Ok_range _ _ _ E12). pose proof (rd_Ok_range _ _ _ E13). cbn [csi_len channel payload_len buf_len
    phyerr noise rate chanBW num_tones nr nc rssi rssi_0 rssi_1 rssi_2].
  split; [lia|]. split; [by apply (half_le buf 8)|]. split; [by apply (half_le buf 10)|].
  split; [by apply (half_le buf 23)|]. split.
  - apply half_le; [by rewrite Z2Nat.id by lia| |done].
    rewrite Z2Nat.id by lia. by replace (cnt - 2 + 1) with (cnt - 1) by lia.
  - unfold slice. repeat match goal with H : rd buf ?i = Ok _ |- _ =>
      first [apply rd_lookup in H; [let n := eval vm_compute in (Z.to_nat i) in change (Z.to_nat i) with n in H|done]
            |clear H] end.
    by repeat (erewrite drop_S by eassumption).
Qed.

Lemma bytes_slice i n (l : list Z) : bytes l -> bytes (slice i n l).
Proof. intros. by apply Forall_take, Forall_drop. Qed.

Lemma le_slice_2 i (l : list Z) : bytes l -> 0 <= le (slice i 2 l) < 2 ^ 16.
Proof.
  intros Hb. pose proof (le_range _ (bytes_slice i 2 l Hb)) as Hr. split; [lia|].
  eapply Z.lt_le_trans; [apply Hr|]. change (2 ^ 16) with (256 ^ 2). apply Z.pow_le_mono_r; [lia|].
  unfold zlen, slice. rewrite length_take. lia.
Qed.

Lemma record_status_typed be w buf cnt st :
  bytes buf -> record_status be w buf cnt = Ok st -> csi_typed st.
Proof.
  intros Hb E. destruct (record_status_fields _ _ _ _ _ Hb E) as (_ & Hc & _ & Hp & Hbl & Hl).
  unfold csi_typed. rewrite Hc, Hp, Hbl. split; [by split_and!; apply le_slice_2|].
  pose proof (bytes_slice 12 11 buf Hb) as Hs. rewrite <- Hl in Hs.
  repeat (apply Forall_cons_1 in Hs as [? Hs]). unfold is_byte in *. lia.
Qed.

(** *** record_csi_payload *)

Lemma copy_payload_ok buf cl pl d :
  0 <= pl <= zlen d -> 0 <= cl -> pl = 0 \/ 25 + cl + pl <= zlen buf ->
  exists d', copy_payload buf cl pl d = Ok d' /\ zlen d' = zlen d /\
    forall j, 0 <= j -> rd d' j = if j <? pl then rd buf (25 + cl + j) else rd d j.
Proof.
  intros Hpl Hcl Hbuf. unfold copy_payload, csi_st_len.
  edestruct (cfor_inv (fun i d' => zlen d' = zlen d /\
    forall j, 0 <= j -> rd d' j = if j <? i - 1 then rd buf (25 + cl + j) else rd d j)
    (fun i => i + 1) (fun i => i <=? pl)
    (fun i d => b ← rd buf (23 + cl + i + 1); wr d (i - 1) b) (pl + 1) (Z.to_nat pl + 1) 1 d)
    as (d' & -> & Hl & Hd); try lia.
  - intros i d1 Hi (Hl & Hd).
    destruct (rd_in_range buf (23 + cl + i + 1)) as [b Eb]; [lia|].
    rewrite Eb, bind_ok, wr_ok by lia. eexists; split; [done|].
    autorewrite with arr. split; [done|]. intros j Hj.
    destruct (decide (j = i - 1)) as [->|Hne].
    + replace (i - 1 <? i + 1 - 1) with true by lia.
      replace (25 + cl + (i - 1)) with (23 + cl + i + 1) by lia. rewrite Eb.
      apply rd_lookup; [lia|]. apply list_lookup_insert_eq. unfold zlen in *. lia.
    + transitivity (rd d1 j).
      { unfold rd. by rewrite list_lookup_insert_ne by lia. }
      rewrite Hd by lia. by replace (j <? i + 1 - 1) with (j <? i - 1) by lia.
  - split; [done|]. intros j Hj. by replace (j <? 1 - 1) with false by lia.
  - exists d'. split; [done|]. split; [done|]. intros j Hj. rewrite Hd by done.
    by replace (pl + 1 - 1) with pl by lia.
Qed.

Lemma copy_payload_is_ok buf cl pl d :
  0 <= pl -> 0 <= cl ->
  is_ok (copy_payload buf cl pl d) =
    (pl <=? zlen d) && ((pl =? 0) || (25 + cl + pl <=? zlen buf)).
Proof.
  intros Hpl Hcl. destruct (copy_payload buf cl pl d) as [d'|e] eqn:E; simpl.
  - destruct (Z.eqb_spec pl 0) as [->|]; [pose proof (zlen_nonneg d); lia|].
    unfold copy_payload, csi_st_len in E.
    eapply (cfor_rounds (fun _ s => zlen s = zlen d) _ _ _ (pl + 1)) with (j := pl) in E
      as (s1 & s2 & Hs1 & E); [| |lia| | |lia]; [|done| |done].
    + apply bind_ok_inv in E as (b & Eb & E). apply rd_Ok_range in Eb. apply wr_Ok_inv in E as [Hw _]. lia.
    + intros j s s' _ Hs Ej. apply bind_ok_inv in Ej as (b' & _ & Ej).
      apply wr_Ok_inv in Ej as [_ ->]. by autorewrite with arr.
  - destruct ((pl <=? zlen d) && ((pl =? 0) || (25 + cl + pl <=? zlen buf))) eqn:C; [|done].
    destruct (copy_payload_ok buf cl pl d) as (d' & E' & _); [lia..|congruence].
Qed.

Lemma fits_stream nr nc nt :
  0 <= nr -> 0 <= nc -> 0 <= nt -> fits_matrix nr nc nt = true ->
  stream_bytes (2 * (nr * nc * nt)) <= 2566.
Proof.
  intros Hr Hc Ht Hf. unfold fits_matrix, CSI_NR, CSI_NC, CSI_MAX_SUBCARRIERS in Hf.
  assert (nr * nc * nt <= 1026).
  { destruct (Z.eqb_spec (nr * nc * nt) 0); [lia|]. simpl in Hf.
    assert (nr <= 3 /\ nc <= 3 /\ nt <= 114) as (? & ? & ?) by lia. clear Hf.
    assert (nr * nc <= 9) by nia. nia. }
  change 2566 with (stream_bytes (2 * 1026)). apply stream_bytes_mono. lia.
Qed.

(** what the receive loop relies on and nothing checks *)
Definition payload_fits (st : csi_struct) : bool :=
  (payload_len st <=? DATA_BUF_SIZE) &&
  ((payload_len st =? 0) || (csi_st_len + 2 + csi_len st + payload_len st <=? BUFSIZE)) &&
  fits_matrix (nr st) (nc st) (num_tones st).

Lemma zlen_drop {A} n (l : list A) : 0 <= n <= zlen l -> zlen (drop (Z.to_nat n) l) = zlen l - n.
Proof. unfold zlen. rewrite length_drop. lia. Qed.

Lemma zlen_take {A} n (l : list A) : 0 <= n <= zlen l -> zlen (take (Z.to_nat n) l) = n.
Proof. unfold zlen. rewrite length_take. lia. Qed.

Lemma record_csi_payload_is_ok buf st d m :
  bytes buf -> zlen buf = BUFSIZE -> zlen d = DATA_BUF_SIZE -> zlen m = MATRIX_CELLS ->
  csi_typed st -> is_ok (record_csi_payload buf st d m) = payload_fits st.
Proof.
  intros Hb Hl Hd Hm ((Hp & Hc & _) & Hnr & Hnc & Hnt). unfold record_csi_payload, payload_fits.
  pose proof (copy_payload_is_ok buf (csi_len st) (payload_len st) d ltac:(lia) ltac:(lia)) as Hcp.
  rewrite Hd, Hl in Hcp. replace (25 + csi_len st) with (csi_st_len + 2 + csi_len st) in Hcp by done.
  rewrite <- Hcp. destruct (copy_payload _ _ _ _); simpl; [|done].
  set (csi_addr := drop _ buf). assert (zlen csi_addr = 4071) as Ha.
  { change (Z.to_nat (csi_st_len + 2)) with (Z.to_nat 25) in csi_addr. subst csi_addr.
    rewrite zlen_drop, Hl; [done|]. rewrite Hl. unfold BUFSIZE. lia. }
  pose proof (fill_csi_matrix_is_ok csi_addr (nr st) (nc st) (num_tones st) m
    ltac:(by apply bytes_drop) ltac:(lia) Hm ltac:(lia) ltac:(lia) ltac:(lia)) as Hf.
  destruct (fits_matrix (nr st) (nc st) (num_tones st)) eqn:F.
  - pose proof (fits_stream (nr st) (nc st) (num_tones st) ltac:(lia) ltac:(lia) ltac:(lia) F).
    replace (_ <=? _) with true in Hf by lia.
    destruct (fill_csi_matrix _ _ _ _ _); [done|discriminate].
  - destruct (fill_csi_matrix _ _ _ _ _); [discriminate|done].
Qed.

(** ** The receive loop *)

Definition read_wf (r : read_result) : Prop :=
  match r with ReadBytes l => bytes l | ReadError => True end.

Lemma read_csi_buf_wf buf r buf' cnt :
  zlen buf = BUFSIZE -> bytes buf -> read_wf r -> read_csi_buf buf r = (buf', cnt) ->
  zlen buf' = BUFSIZE /\ bytes buf' /\ -1 <= cnt <= BUFSIZE.
Proof.
  intros Hl Hb Hr E. destruct r as [l|]; simpl in *; injection E as <- <-; [|unfold BUFSIZE; done].
  assert (zlen (take (Z.to_nat BUFSIZE) l) <= BUFSIZE) as Ht.
  { unfold zlen. rewrite length_take. unfold BUFSIZE. lia. }
  split_and!.
  - autorewrite with arr. unfold zlen in *. rewrite length_drop. lia.
  - apply Forall_app_2; [by apply Forall_take|by apply Forall_drop].
  - pose proof (zlen_nonneg (take (Z.to_nat BUFSIZE) l)). lia.
  - done.
Qed.

Lemma copy_payload_length buf cl pl d d' :
  0 <= pl -> copy_payload buf cl pl d = Ok d' -> zlen d' = zlen d.
Proof.
  intros Hpl E. unfold copy_payload in E.
  eapply (cfor_partial (fun _ s => zlen s = zlen d) _ _ _ (pl + 1)) in E; [done|lia|lia|lia| |done].
  intros j s s' _ Hs Ej. apply bind_ok_inv in Ej as (b' & _ & Ej).
  apply wr_Ok_inv in Ej as [_ ->]. by autorewrite with arr.
Qed.

Lemma fill_csi_matrix_length bs nr nc nt m m' :
  0 <= nr < 256 -> 0 <= nc < 256 -> 0 <= nt < 256 ->
  fill_csi_matrix bs nr nc nt m = Ok m' -> zlen m' = zlen m.
Proof.
  intros Hr Hc Ht E. unfold fill_csi_matrix in E. minv E.
  eapply (csi_loops_partial (fun _ s => zlen (snd s) = zlen m)) in E1; [done|lia..| | |done].
  - intros j Hj. apply u8_next_small. lia.
  - intros k c rx s s' _ _ _ Hs Eb. unfold fill_body, store_imag, store_real in Eb. minv Eb.
    apply bind_ok_inv in E2 as (y0 & _ & E2). apply bind_ok_inv in E4 as (y1 & _ & E4).
    apply wr_Ok_inv in E4 as [_ ->]. apply wr_Ok_inv in E2 as [_ ->]. simpl. by autorewrite with arr.
Qed.

(** a round that reports nothing changes only the buffer; one that reports
    counts it; no round leaves the loop while [quit] is 0 *)
Lemma main_iter_inv be w lf p r x :
  prog_wf p -> quit p = 0 -> read_wf r -> main_iter be w lf p r = Ok x ->
  exists p', x = inr p' /\ prog_wf p' /\ quit p' = 0 /\
    total_msg_cnt p' = total_msg_cnt p + (if snd (read_csi_buf (buf_addr p) r) =? 0 then 0 else 1) /\
    (total_msg_cnt p' = total_msg_cnt p \/ total_msg_cnt p < 2 ^ 31 - 1) /\
    zlen (printed p') - zlen (printed p) = total_msg_cnt p' - total_msg_cnt p.
Proof.
  intros (Hl & Hb & Hd & Hm) Hq Hr E. unfold main_iter in E. rewrite Hq in E. simpl in E.
  destruct (read_csi_buf (buf_addr p) r) as [buf cnt] eqn:Er; simpl.
  destruct (read_csi_buf_wf _ _ _ _ Hl Hb Hr Er) as (Hl' & Hb' & _).
  destruct (cnt =? 0).
  - injection E as <-. eexists; split; [done|]. unfold prog_wf; simpl. split_and!; (by left) || done || lia.
  - apply bind_ok_inv in E as (total & Et & E). apply int_succ_inv in Et as [-> Ht].
    apply bind_ok_inv in E as (st & Est & E). apply bind_ok_inv in E as ([d m] & Ep & E).
    destruct (record_status_typed _ _ _ _ _ Hb' Est) as ((Hpl & _ & _) & Hnr & Hnc & Hnt).
    unfold record_csi_payload in Ep. minv Ep.
    apply copy_payload_length in E0; [|lia]. apply fill_csi_matrix_length in E1; [|lia..].
    destruct lf; minv E; eexists; (split; [done|]); unfold prog_wf; simpl; autorewrite with arr.
    all: split_and!; first [by right | done | congruence | unfold zlen; simpl; lia].
Qed.

Lemma reads_count b r : r <> ReadBytes [] -> snd (read_csi_buf b r) <> 0.
Proof.
  intros Hr. destruct r as [[|x l]|]; [done| |done]. unfold read_csi_buf, zlen, BUFSIZE. cbn [snd]. rewrite length_take.
  cbn [length]. lia.
Qed.

Lemma main_loop_inv be w lf rs : forall p x,
  prog_wf p -> quit p = 0 -> Forall read_wf rs -> main_loop be w lf p rs = Ok x ->
  exists p', x = inr p' /\ prog_wf p' /\ quit p' = 0 /\
    (total_msg_cnt p <= 2 ^ 31 - 1 -> total_msg_cnt p' <= 2 ^ 31 - 1) /\
    zlen (printed p') - zlen (printed p) = total_msg_cnt p' - total_msg_cnt p.
Proof.
  induction rs as [|r rs IH]; intros p x Hwf Hq Hrs E; simpl in E.
  - injection E as <-. eexists; split; [done|]. split_and!; done || lia.
  - apply Forall_cons_1 in Hrs as [Hr Hrs]. apply bind_ok_inv in E as (y & Ey & E).
    destruct (main_iter_inv _ _ _ _ _ _ Hwf Hq Hr Ey) as (p1 & -> & Hwf1 & Hq1 & Hc1 & Ht1 & Hp1).
    destruct (IH p1 x Hwf1 Hq1 Hrs E) as (p2 & -> & Hwf2 & Hq2 & Ht2 & Hp2).
    exists p2. split; [done|]. split_and!; try done; [|lia]. intros Hm. apply Ht2.
    destruct (snd (read_csi_buf (buf_addr p) r) =? 0); lia.
Qed.

Lemma prog_init_wf : prog_wf prog_init.
Proof.
  unfold prog_wf, prog_init; cbn [buf_addr data_buf csi_matrix].
  split_and!; [reflexivity| |reflexivity|reflexivity]. apply Forall_replicate. unfold is_byte. lia.
Qed.

(** ** Properties *)

(** C13: [record_status] decodes the header: it has defined behaviour exactly
    when the reported count leaves room for the two trailing length bytes, and
    then the four 16-bit fields are the little-endian values at offsets 8, 10,
    23 and [cnt - 2], and bytes 12 to 22 are the byte fields in order -- on a
    big-endian host too, where [is_big_endian] also answers false. *)
Theorem record_status_correct (big_endian : bool) (wide_shl : Z -> Z -> Z) (buf : list Z) (cnt : Z)
    (Hbytes : bytes buf) (Hlen : zlen buf = BUFSIZE) :
  is_big_endian big_endian = false /\
  (is_ok (record_status big_endian wide_shl buf cnt) = true <-> 2 <= cnt <= BUFSIZE) /\
  forall st, record_status big_endian wide_shl buf cnt = Ok st ->
    csi_typed st /\
    csi_len st = le (slice 8 2 buf) /\ channel st = le (slice 10 2 buf) /\
    payload_len st = le (slice 23 2 buf) /\ buf_len st = le (slice (Z.to_nat (cnt - 2)) 2 buf) /\
    [phyerr st; noise st; rate st; chanBW st; num_tones st; nr st; nc st;
     rssi st; rssi_0 st; rssi_1 st; rssi_2 st] = slice 12 11 buf.
Proof.
  split; [apply is_big_endian_false|]. split.
  - split.
    + destruct (record_status _ _ _ _) eqn:E; [|done]. intros _.
      destruct (record_status_fields _ _ _ _ _ Hbytes E) as [? _]. lia.
    + intros Hc. unfold BUFSIZE in *.
      destruct (record_status_ok big_endian wide_shl buf cnt) as [st ->]; [lia|lia|done].
  - intros st E. split; [by eapply record_status_typed|].
    by destruct (record_status_fields _ _ _ _ _ Hbytes E) as [_ H].
Qed.

(** C14: the hardware timestamp is lost: under either usual translation of the
    shifts by 32 and more (the expression shifts [int] bytes by up to 56, and
    its masks are those of the opposite byte order), [tstamp] is 0 or, when bit
    7 of byte 3 is set, 0xff00000000, whatever the other seven bytes hold. *)
Theorem tstamp_lost (big_endian : bool) (wide_shl : Z -> Z -> Z) (buf : list Z) (cnt b3 : Z)
    (st : csi_struct)
    (Hbytes : bytes buf) (Hwide : usual_wide_shl wide_shl) (Hb3 : rd buf 3 = Ok b3)
    (Hst : record_status big_endian wide_shl buf cnt = Ok st) :
  tstamp st = if b3 <? 128 then 0 else 0xff00000000.
Proof.
  unfold record_status in Hst. minv Hst. cbn [tstamp]. rewrite is_big_endian_false.
  unfold tstamp_expr. assert (x2 = b3) as -> by congruence.
  rewrite tstamp_term_24, tstamp_term_16, tstamp_term_8, tstamp_term_0 by eauto using bytes_rd.
  rewrite !tstamp_term_wide by (simpl; eauto 6 using bytes_rd).
  by destruct (b3 <? 128).
Qed.

(** C15: [record_csi_payload] has defined behaviour exactly on a header whose
    payload length fits [data_buf[1500]], whose payload lies inside the
    4096-byte receive buffer, and whose matrix shape fits [csi_matrix]; no
    check in the program enforces any of the three. *)
Theorem record_csi_payload_safe_iff (buf : list Z) (st : csi_struct) (d : list Z) (m : list COMPLEX)
    (Hbytes : bytes buf) (Hlen : zlen buf = BUFSIZE) (Hd : zlen d = DATA_BUF_SIZE)
    (Hm : zlen m = MATRIX_CELLS) (Hst : csi_typed st) :
  is_ok (record_csi_payload buf st d m) = true <->
  payload_len st <= 1500 /\
  (payload_len st = 0 \/ 25 + csi_len st + payload_len st <= 4096) /\
  (nr st * nc st * num_tones st = 0 \/ nr st <= 3 /\ nc st <= 3 /\ num_tones st <= 114).
Proof.
  rewrite record_csi_payload_is_ok by done.
  unfold payload_fits, fits_matrix, DATA_BUF_SIZE, BUFSIZE, csi_st_len, CSI_NR, CSI_NC, CSI_MAX_SUBCARRIERS.
  lia.
Qed.

(** What [record_csi_payload] stores: the payload bytes, found behind the
    23-byte header, the payload length and the CSI, replace the front of
    [data_buf], whose tail is kept, and the matrix is the decoded CSI. *)
Theorem record_csi_payload_correct (buf : list Z) (st : csi_struct) (d : list Z) (m : list COMPLEX)
    (Hbytes : bytes buf) (Hlen : zlen buf = BUFSIZE) (Hd : zlen d = DATA_BUF_SIZE)
    (Hm : zlen m = MATRIX_CELLS) (Hst : csi_typed st) (Hfits : payload_fits st = true) :
  exists m',
    record_csi_payload buf st d m =
      Ok (slice (Z.to_nat (25 + csi_len st)) (Z.to_nat (payload_len st)) buf ++
          drop (Z.to_nat (payload_len st)) d, m') /\
    fill_csi_matrix (drop 25 buf) (nr st) (nc st) (num_tones st) m = Ok m'.
Proof.
  pose proof (record_csi_payload_is_ok buf st d m Hbytes Hlen Hd Hm Hst) as Hok. rewrite Hfits in Hok.
  destruct Hst as ((Hpl & Hcl & _) & _). unfold payload_fits, DATA_BUF_SIZE, BUFSIZE, csi_st_len in *.
  unfold record_csi_payload in *. change (Z.to_nat (csi_st_len + 2)) with 25%nat in *.
  destruct (copy_payload_ok buf (csi_len st) (payload_len st) d) as (d' & E & Hl & Hr); [lia..|].
  rewrite E, bind_ok in *.
  destruct (fill_csi_matrix _ _ _ _ _) as [m'|]; [|discriminate]. exists m'. split; [|done].
  simpl. do 2 f_equal. apply list_eq_rd.
  - autorewrite with arr. destruct (decide (payload_len st = 0)) as [Z0|].
    + rewrite Z0. unfold slice. simpl. rewrite drop_0, take_0. change (zlen (@nil Z)) with 0. lia.
    + assert (zlen (slice (Z.to_nat (25 + csi_len st)) (Z.to_nat (payload_len st)) buf) = payload_len st) as ->
        by (rewrite zlen_slice by lia; lia).
      rewrite zlen_drop by lia. lia.
  - intros i Hi. rewrite Hr by lia. destruct (Z.ltb_spec i (payload_len st)).
    + rewrite rd_app_l by (rewrite zlen_slice; lia). rewrite rd_slice by lia. f_equal. lia.
    + destruct (decide (payload_len st = 0)) as [Z0|].
      { rewrite Z0. unfold slice. by rewrite take_0. }
      rewrite rd_app_r by (rewrite zlen_slice; lia). rewrite zlen_slice by lia.
      rewrite rd_drop by lia. f_equal. lia.
Qed.

(** C16: the receive loop never returns: after every sequence of reads that has
    defined behaviour the program is still running with its arrays intact, has
    counted exactly the lines it printed, and [quit] is still 0 (main installs no
    signal handler).  It is not defined for ever: the first failing [read] (-1)
    makes it read before the start of its buffer, and after 2^31 - 1 messages the
    next report or failure overflows the counter, an [int]. *)
Theorem main_loop_never_returns (big_endian log_flag : bool) (wide_shl : Z -> Z -> Z)
    (rs : list read_result) (Hrs : Forall read_wf rs) :
  (forall x, main_loop big_endian wide_shl log_flag prog_init rs = Ok x ->
     exists p, x = inr p /\ prog_wf p /\ quit p = 0 /\ zlen (printed p) = total_msg_cnt p /\ total_msg_cnt p < 2 ^ 31) /\
  (forall p, main_loop big_endian wide_shl log_flag prog_init rs = Ok (inr p) ->
     (total_msg_cnt p < 2 ^ 31 - 1 -> main_loop big_endian wide_shl log_flag p [ReadError] = Err OutOfBounds) /\
     (total_msg_cnt p = 2 ^ 31 - 1 -> forall r, r <> ReadBytes [] ->
        main_loop big_endian wide_shl log_flag p [r] = Err SignedOverflow)).
Proof.
  split.
  - intros x E.
    destruct (main_loop_inv _ _ _ _ _ _ prog_init_wf eq_refl Hrs E) as (p & -> & Hwf & Hq & Ht & Hp).
    exists p. split; [done|]. split; [done|]. split; [done|]. change (printed prog_init) with (@nil (Z*Z*Z)) in Hp.
    change (total_msg_cnt prog_init) with 0 in *. change (zlen (@nil (Z*Z*Z))) with 0 in Hp. lia.
  - intros p E.
    destruct (main_loop_inv _ _ _ _ _ _ prog_init_wf eq_refl Hrs E) as (p' & [= <-] & Hwf & Hq & _).
    split.
    + intros Ht. simpl. unfold main_iter. rewrite Hq. simpl. rewrite int_succ_ok, bind_ok by done.
      destruct (record_status big_endian wide_shl (buf_addr p) (-1)) as [st|e] eqn:Est.
      * destruct Hwf as (_ & Hb & _). destruct (record_status_fields _ _ _ _ _ Hb Est) as [? _]. lia.
      * destruct Hwf as (Hl & _). revert Est. unfold record_status, csi_st_len.
        repeat (match goal with |- context [rd (buf_addr p) ?i ≫= _] =>
          first [destruct (rd_in_range (buf_addr p) i) as [? ->]; [rewrite Hl; unfold BUFSIZE; lia|]; rewrite bind_ok
                |rewrite (rd_out_of_range (buf_addr p) i) by lia] end).
        by intros [= <-].
    + intros Ht r Hr. simpl. unfold main_iter. rewrite Hq. cbn [Z.eqb].
      pose proof (reads_count (buf_addr p) r Hr). destruct (read_csi_buf (buf_addr p) r) as [buf cnt].
      replace (cnt =? 0) with false by (cbn [snd] in *; lia). by rewrite Ht.
Qed.

(** ** The properties at a concrete report

    Two tones on one antenna pair, a three-byte payload, in a fresh buffer. *)

Definition sample_report : list Z :=
  [1; 2; 3; 0x80; 5; 6; 7; 8; 5; 0; 0x8a; 0x09; 0; 200; 0x87; 0; 2; 1; 1; 40; 38; 30; 128; 3; 0]
  ++ [1; 2; 3; 4; 5] ++ [10; 20; 30] ++ [33; 0].

Definition sample_buf : list Z := sample_report ++ replicate 4061 0.

Definition sample_status : csi_struct :=
  match record_status false (fun _ _ => 0) sample_buf 35 with
  | Ok st => st
  | Err _ => mkCsi 0 0 0 0 0 0 0 0 0 0 0 0 0 0 0 0
  end.

Lemma sample_bytes : bytes sample_buf.
Proof. apply Forall_app_2; [|apply Forall_replicate; unfold is_byte; lia]. by apply (bool_decide_unpack _). Qed.

Lemma sample_typed : csi_typed sample_status.
Proof. vm_compute. intuition discriminate. Qed.

Lemma record_status_correct_witness :
  is_ok (record_status false (fun _ _ => 0) sample_buf 35) = true.
Proof.
  destruct (record_status_correct false (fun _ _ => 0) sample_buf 35 sample_bytes eq_refl) as (_ & H & _).
  apply H. unfold BUFSIZE. lia.
Defined.

Lemma tstamp_lost_witness : tstamp sample_status = 0xff00000000.
Proof.
  apply (tstamp_lost false (fun _ _ => 0) sample_buf 35 0x80 sample_status);
    [exact sample_bytes | right; reflexivity | reflexivity | reflexivity].
Defined.

Lemma record_csi_payload_safe_iff_witness :
  is_ok (record_csi_payload sample_buf sample_status (data_buf prog_init) (csi_matrix prog_init)) = true.
Proof.
  apply (record_csi_payload_safe_iff sample_buf sample_status (data_buf prog_init) (csi_matrix prog_init)
           sample_bytes eq_refl eq_refl eq_refl sample_typed).
  vm_compute. intuition discriminate.
Defined.

Lemma record_csi_payload_correct_witness :
  exists m, record_csi_payload sample_buf sample_status (data_buf prog_init) (csi_matrix prog_init) =
    Ok ([10; 20; 30] ++ replicate 1497 0, m).
Proof.
  destruct (record_csi_payload_correct sample_buf sample_status (data_buf prog_init) (csi_matrix prog_init)
           sample_bytes eq_refl eq_refl eq_refl sample_typed eq_refl) as (m & H & _).
  exists m. exact H.
Defined.

Lemma main_loop_never_returns_witness :
  exists p, main_loop false (fun _ _ => 0) true prog_init [ReadBytes sample_report; ReadBytes []] = Ok (inr p) /\
    quit p = 0.
Proof.
  destruct (main_loop_never_returns false true (fun _ _ => 0) [ReadBytes sample_report; ReadBytes []]) as [H _].
  - repeat constructor; done.
  - destruct (main_loop false (fun _ _ => 0) true prog_init [ReadBytes sample_report; ReadBytes []]) as [x|e] eqn:E;
      [|vm_compute in E; discriminate E].
    destruct (H x eq_refl) as (p & -> & _ & Hq & _). exists p. split; [reflexivity|exact Hq].
Defined.
