(* ===== verification/CsiLog.v ===== *)
(** * The CSI log: recvCSIToFile's frames and matlab/read_log_file.m

    The receiver logs each report as a 16-bit length and the report's bytes
    (main.c); read_log_file.m walks such a file back into records.  [report]
    and [encode_report] are the kernel's report as both ends parse it; the
    round trip runs the receive loop on reports and the reader on its log. *)

From S2P Require Import Prelude CsiDecode CsiReceive.

(** ** A report of the CSI device *)

Record report := mkReport {
  r_tstamp : Z; r_channel : Z;
  r_phyerr : Z; r_noise : Z; r_rate : Z; r_chanBW : Z; r_num_tones : Z; r_nr : Z; r_nc : Z;
  r_rssi : Z; r_rssi_0 : Z; r_rssi_1 : Z; r_rssi_2 : Z;
  r_csi : list Z; r_payload : list Z
}.

Definition report_len (r : report) : Z := 25 + zlen (r_csi r) + zlen (r_payload r).

Definition report_head (r : report) : list Z :=
  to_le 8 (r_tstamp r) ++ to_le 2 (zlen (r_csi r)) ++ to_le 2 (r_channel r) ++
  [r_phyerr r; r_noise r; r_rate r; r_chanBW r; r_num_tones r; r_nr r; r_nc r;
   r_rssi r; r_rssi_0 r; r_rssi_1 r; r_rssi_2 r] ++ to_le 2 (zlen (r_payload r)).

(** the bytes the receiver logs, and the bytes one [read] delivers *)
Definition report_body (r : report) : list Z := report_head r ++ r_csi r ++ r_payload r.
Definition encode_report (r : report) : list Z := report_body r ++ to_le 2 (report_len r).

#[global] Arguments report_head : simpl never.
#[global] Arguments report_body : simpl never.
#[global] Arguments encode_report : simpl never.

(** the reports both ends handle: the field ranges, what [record_csi_payload]
    needs (see [payload_fits]), and a CSI that covers the 16-bit words fetched *)
Definition report_wf (r : report) : Prop :=
  (0 <= r_tstamp r < 2 ^ 64 /\ 0 <= r_channel r < 2 ^ 16) /\
  bytes [r_phyerr r; r_noise r; r_rate r; r_chanBW r; r_num_tones r; r_nr r; r_nc r;
         r_rssi r; r_rssi_0 r; r_rssi_1 r; r_rssi_2 r] /\
  bytes (r_csi r) /\ bytes (r_payload r) /\
  (r_nr r <= 3 /\ r_nc r <= 3 /\ r_num_tones r <= 114) /\
  stream_bytes (2 * (r_nr r * r_nc r * r_num_tones r)) <= zlen (r_csi r) /\
  zlen (r_payload r) <= 1500 /\ report_len r + 2 <= 4096.

(** ** read_log_file.m *)

Module ReadLogFile.

(** the struct [csi_matrix] of the script *)
Record entry := mkEntry {
  timestamp : Z; csi_len : Z; channel : Z;
  err_info : Z; noise_floor : Z; Rate : Z; bandWidth : Z; num_tones : Z; nr : Z; nc : Z;
  rssi : Z; rssi1 : Z; rssi2 : Z; rssi3 : Z;
  payload_len : Z;
  csi : option ReadCsi.csi_out;       (* [None] is the scalar 0 *)
  payload : option (list Z)
}.

(** [fread(f, n, 'uint8')]; the reader does not test for the end of the file,
    where MATLAB returns fewer elements: that is an error of the model *)
Definition fread (n : nat) (f : list Z) : M (list Z * list Z) :=
  if (n <=? length f)%nat then Ok (take n f, drop n f) else Err OutOfBounds.

(** a little-endian unsigned number of [n] bytes *)
Definition fread_uint (n : nat) (f : list Z) : M (Z * list Z) :=
  '(l, f) ← fread n f; Ok (le l, f).

(** A number read without [=>] is a double: a 16-bit one is exact, a [uint64] is
    rounded to 53 significant bits, to the nearest and on a tie to the even one. *)
Definition to_double (v : Z) : Z :=
  let e := Z.log2 v - 52 in
  if e <=? 0 then v
  else
    let q := v / 2 ^ e in
    let r := v mod 2 ^ e in
    (if (2 ^ (e - 1) <? r) || ((r =? 2 ^ (e - 1)) && Z.odd q) then q + 1 else q) * 2 ^ e.

(** one record behind its [field_len] *)
Definition read_entry (f : list Z) : M (entry * list Z) :=
  '(timestamp, f) ← fread_uint 8 f;
  let timestamp := to_double timestamp in
  '(csi_len, f) ← fread_uint 2 f;
  '(tx_channel, f) ← fread_uint 2 f;
  '(err_info, f) ← fread_uint 1 f;
  '(noise_floor, f) ← fread_uint 1 f;
  '(Rate, f) ← fread_uint 1 f;
  '(bandWidth, f) ← fread_uint 1 f;
  '(num_tones, f) ← fread_uint 1 f;
  '(nr, f) ← fread_uint 1 f;
  '(nc, f) ← fread_uint 1 f;
  '(rssi, f) ← fread_uint 1 f;
  '(rssi1, f) ← fread_uint 1 f;
  '(rssi2, f) ← fread_uint 1 f;
  '(rssi3, f) ← fread_uint 1 f;
  '(payload_len, f) ← fread_uint 2 f;
  '(csi, f) ← (if 0 <? csi_len then
                 '(csi_buf, f) ← fread (Z.to_nat csi_len) f;
                 csi ← ReadCsi.decode csi_buf nr nc num_tones; Ok (Some csi, f)
               else Ok (None, f));
  '(payload, f) ← (if 0 <? payload_len then
                     '(data_buf, f) ← fread (Z.to_nat payload_len) f; Ok (Some data_buf, f)
                   else Ok (None, f));
  Ok (mkEntry timestamp csi_len tx_channel err_info noise_floor Rate bandWidth num_tones nr nc
        rssi rssi1 rssi2 rssi3 payload_len csi payload, f).

(** how far the reader moves [cur] over a record *)
Definition entry_len (e : entry) : Z := 25 + csi_len e + payload_len e.

(** the while loop; [ret] holds the [count] records stored so far *)
Fixpoint read_loop (fuel : nat) (len cur : Z) (f : list Z) (ret : list entry)
    : M (list entry) :=
  match fuel with
  | O => Err OutOfFuel
  | S fuel =>
      if cur <? len - 4 then
        '(field_len, f) ← fread_uint 2 f;
        let cur := cur + 2 in
        if len <? cur + field_len then Ok ret else
        '(e, f) ← read_entry f;
        let cur := cur + entry_len e in
        if len <? cur + 420 then Ok ret else read_loop fuel len cur f (ret ++ [e])
      else Ok ret
  end.

(** [ret(1:count-1)] or [ret(1)], in a cell array of [ceil(len/420)] cells,
    empty ([None]) where nothing was stored *)
Definition trim (len : Z) (ret : list entry) : M (list (option entry)) :=
  match ret with
  | [] => if 0 <? len then Ok [None] else Err OutOfBounds
  | [e] => Ok [Some e]
  | _ => Ok (Some <$> take (length ret - 1) ret)
  end.

Definition read_log_file (f : list Z) : M (list (option entry)) :=
  ret ← read_loop (S (length f)) (zlen f) 0 f []; trim (zlen f) ret.

End ReadLogFile.
Import ReadLogFile (entry, mkEntry, fread, fread_uint, to_double, read_entry, entry_len, read_loop, trim, read_log_file).

(** ** The reader on an encoded report *)

Lemma le_to_le_small n v : 0 <= v < 256 ^ Z.of_nat n -> le (to_le n v) = v.
Proof. intros. rewrite le_to_le. by apply Z.mod_small. Qed.

Lemma fread_app n l f : length l = n -> fread n (l ++ f) = Ok (l, f).
Proof.
  intros <-. unfold fread. rewrite length_app.
  replace (length l <=? length l + length f)%nat with true by (symmetry; apply Nat.leb_le; lia).
  by rewrite take_app_length, drop_app_length.
Qed.

Lemma fread_uint_app n v f : 0 <= v < 256 ^ Z.of_nat n -> fread_uint n (to_le n v ++ f) = Ok (v, f).
Proof.
  intros. unfold fread_uint. rewrite fread_app by apply length_to_le. rewrite bind_ok.
  by rewrite le_to_le_small.
Qed.

Lemma fread_uint_byte b f : fread_uint 1 (b :: f) = Ok (b, f).
Proof. unfold fread_uint, fread. simpl. rewrite drop_0. do 2 f_equal. lia. Qed.

Lemma fread_rest n f l f' : fread n f = Ok (l, f') -> f = l ++ f' /\ length l = n.
Proof.
  unfold fread. destruct (Nat.leb_spec n (length f)); [|discriminate]. intros [= <- <-].
  by rewrite take_drop, length_take_le by lia.
Qed.

Lemma fread_uint_rest n f v f' :
  fread_uint n f = Ok (v, f') -> zlen f = Z.of_nat n + zlen f' /\ (bytes f -> 0 <= v /\ bytes f').
Proof.
  intros E. unfold fread_uint in E. apply bind_ok_inv in E as ([l f1] & E & [= <- <-]).
  apply fread_rest in E as [-> Hl]. unfold zlen. rewrite length_app. split; [lia|].
  intros [Hb ?]%Forall_app. split; [|done]. by apply le_range.
Qed.

(** [cur] and the file position move together *)
Lemma read_entry_rest f e f' :
  bytes f -> read_entry f = Ok (e, f') ->
  zlen f = entry_len e + zlen f' /\ bytes f' /\ 25 <= entry_len e.
Proof.
  intros Hb E. unfold read_entry in E.
  repeat (apply bind_ok_inv in E as ([? ?] & Eu & E);
    match type of Eu with fread_uint _ _ = _ =>
      apply fread_uint_rest in Eu as [? Hx]; specialize (Hx ltac:(assumption)) as [? ?] end).
  apply bind_ok_inv in E as ([csi f1] & E1 & E). apply bind_ok_inv in E as ([pl f2] & E2 & [= <- <-]).
  unfold entry_len; cbn [ReadLogFile.csi_len ReadLogFile.payload_len].
  assert (zlen l13 = z0 + zlen f1 /\ bytes f1) as [? Hb1].
  { destruct (Z.ltb_spec 0 z0); [|injection E1 as <- <-; split; [lia|done]].
    apply bind_ok_inv in E1 as ([d f3] & E1 & E3). apply bind_ok_inv in E3 as (c & _ & [= <- <-]).
    apply fread_rest in E1 as [-> Hl]. rewrite zlen_app. unfold zlen at 1.
    split; [lia|].
    match goal with H : bytes (_ ++ _) |- _ => by apply Forall_app in H as [] end. }
  assert (zlen f1 = z13 + zlen f2 /\ bytes f2) as [? Hb2].
  { destruct (Z.ltb_spec 0 z13); [|injection E2 as <- <-; split; [lia|done]].
    apply bind_ok_inv in E2 as ([d f3] & E2 & [= <- <-]).
    apply fread_rest in E2 as [-> Hl]. rewrite zlen_app. unfold zlen at 1.
    split; [lia|].
    match goal with H : bytes (_ ++ _) |- _ => by apply Forall_app in H as [] end. }
  split; [lia|]. split; [done|lia].
Qed.

(** *** The rounding of time stamps *)

(** the natural numbers a double represents *)
Definition is_double (d : Z) : Prop := exists m e, 0 <= m < 2 ^ 53 /\ 0 <= e /\ d = m * 2 ^ e.

Lemma to_double_exact v : 0 <= v < 2 ^ 53 -> to_double v = v.
Proof.
  intros Hv. unfold to_double. replace (Z.log2 v - 52 <=? 0) with true; [done|]. symmetry. apply Z.leb_le.
  destruct (Z.eq_dec v 0) as [->|]; [done|]. assert (Z.log2 v < 53) by (apply Z.log2_lt_pow2; lia). lia.
Qed.

(** no double lies strictly between the neighbours of [v] *)
Lemma double_gap d e q : 0 < e -> 2 ^ 52 <= q -> is_double d -> d <= q * 2 ^ e \/ (q + 1) * 2 ^ e <= d.
Proof.
  intros He Hq (m & k & Hm & Hk & ->). pose proof (Z.pow_pos_nonneg 2 e ltac:(lia) ltac:(lia)).
  destruct (Z.le_gt_cases e k).
  - replace k with (k - e + e) by lia. rewrite Z.pow_add_r, Z.mul_assoc by lia.
    destruct (Z.le_gt_cases (m * 2 ^ (k - e)) q); [left|right]; apply Z.mul_le_mono_nonneg_r; lia.
  - left. transitivity (2 ^ 53 * 2 ^ (e - 1)).
    + apply Z.mul_le_mono_nonneg; [lia..|]. apply Z.pow_le_mono_r; lia.
    + replace (2 ^ 53 * 2 ^ (e - 1)) with (2 ^ 52 * 2 ^ e); [apply Z.mul_le_mono_nonneg_r; lia|].
      rewrite <- !Z.pow_add_r by lia. f_equal. lia.
Qed.

(** [to_double] is a nearest double *)
Lemma to_double_nearest v d : 0 <= v -> is_double d -> Z.abs (to_double v - v) <= Z.abs (d - v).
Proof.
  intros Hv Hd. unfold to_double. destruct (Z.leb_spec (Z.log2 v - 52) 0) as [|He]; [lia|].
  destruct (Z.log2_spec v) as [Hlo Hhi]; [destruct (Z.eq_dec v 0) as [->|]; [done|lia]|].
  set (e := Z.log2 v - 52) in *. assert (0 < 2 ^ e) by (apply Z.pow_pos_nonneg; lia).
  pose proof (Z.div_mod v (2 ^ e) ltac:(lia)). pose proof (Z.mod_pos_bound v (2 ^ e) ltac:(lia)).
  assert (2 ^ 52 <= v / 2 ^ e) as Hq.
  { apply Z.div_le_lower_bound; [done|]. rewrite <- Z.pow_add_r by lia. by replace (e + 52) with (Z.log2 v) by lia. }
  assert (2 ^ e = 2 * 2 ^ (e - 1)) by (rewrite <- (Z.pow_succ_r 2 (e - 1)) by lia; f_equal; lia).
  destruct (double_gap d e (v / 2 ^ e) He Hq Hd); destruct (Z.ltb_spec (2 ^ (e - 1)) (v mod 2 ^ e));
    destruct (Z.eqb_spec (v mod 2 ^ e) (2 ^ (e - 1))); destruct (Z.odd (v / 2 ^ e)); cbn [orb andb]; nia.
Qed.

(** the record the reader builds for a report *)
Definition entry_of (r : report) : M entry :=
  csi ← ReadCsi.decode (r_csi r) (r_nr r) (r_nc r) (r_num_tones r);
  Ok (mkEntry (to_double (r_tstamp r)) (zlen (r_csi r)) (r_channel r) (r_phyerr r) (r_noise r) (r_rate r)
        (r_chanBW r) (r_num_tones r) (r_nr r) (r_nc r) (r_rssi r) (r_rssi_0 r) (r_rssi_1 r) (r_rssi_2 r)
        (zlen (r_payload r)) (Some csi)
        (match r_payload r with [] => None | l => Some l end)).

Lemma zlen_0 {A} (l : list A) : zlen l = 0 -> l = [].
Proof. destruct l; [done|]. unfold zlen. simpl. lia. Qed.

Lemma stream_bytes_pos n : 2 <= stream_bytes n.
Proof. unfold stream_bytes. lia. Qed.

Lemma zlen_report_body r : zlen (report_body r) = report_len r.
Proof. unfold report_body, report_head, report_len. autorewrite with arr. rewrite !zlen_to_le.
  change (zlen (@nil Z)) with 0. lia. Qed.

Lemma read_entry_report r rest :
  report_wf r -> read_entry (report_body r ++ rest) = e ← entry_of r; Ok (e, rest).
Proof.
  intros ((Ht & Hch) & Hb & Hcsi & Hpl & Hdim & Hs & Hp & Hlen). unfold report_len in Hlen.
  pose proof (stream_bytes_pos (2 * (r_nr r * r_nc r * r_num_tones r))).
  pose proof (zlen_nonneg (r_payload r)).
  unfold report_body, report_head, read_entry. rewrite <- !app_assoc.
  rewrite fread_uint_app, bind_ok by (change (256 ^ Z.of_nat 8) with (2 ^ 64); lia).
  rewrite fread_uint_app, bind_ok by (change (256 ^ Z.of_nat 2) with (2 ^ 16); lia).
  rewrite fread_uint_app, bind_ok by (change (256 ^ Z.of_nat 2) with (2 ^ 16); lia).
  cbn [app]. do 11 (rewrite fread_uint_byte, bind_ok).
  rewrite fread_uint_app, bind_ok by (change (256 ^ Z.of_nat 2) with (2 ^ 16); lia).
  replace (0 <? zlen (r_csi r)) with true by lia.
  rewrite fread_app, bind_ok by (unfold zlen; lia).
  unfold entry_of. destruct (ReadCsi.decode _ _ _ _) as [c|]; [|done]. rewrite !bind_ok.
  destruct (r_payload r) as [|b l] eqn:E; [done|].
  replace (0 <? zlen (b :: l)) with true by (unfold zlen; simpl; lia).
  by rewrite fread_app by (unfold zlen; lia).
Qed.

Lemma entry_of_ok r : report_wf r -> exists e, entry_of r = Ok e /\ entry_len e = report_len r.
Proof.
  intros (_ & Hb & Hcsi & _ & Hdim & Hs & Hp & Hlen). unfold entry_of, report_len in *.
  pose proof (zlen_nonneg (r_payload r)).
  assert (is_byte (r_nr r) /\ is_byte (r_nc r) /\ is_byte (r_num_tones r)) as (H1 & H2 & H3).
  { repeat (apply Forall_cons_1 in Hb as [? Hb]). done. }
  unfold is_byte in *.
  destruct (ReadCsi.decode (r_csi r) (r_nr r) (r_nc r) (r_num_tones r)) as [c|e] eqn:E.
  - rewrite bind_ok. eexists; split; [done|]. done.
  - pose proof (ReadCsi.decode_is_ok (r_csi r) (r_nr r) (r_nc r) (r_num_tones r)) as Hok.
    rewrite E in Hok. simpl in Hok. exfalso.
    enough (false = true) by done. rewrite Hok; [lia|done|..]; lia.
Qed.

(** ** The receive loop on reports *)

Definition frame (r : report) : list Z := to_le 2 (report_len r) ++ report_body r.
Definition frames (rs : list report) : list Z := concat (frame <$> rs).

Lemma zlen_frame r : zlen (frame r) = 2 + report_len r.
Proof. unfold frame. rewrite zlen_app, zlen_to_le, zlen_report_body. lia. Qed.

Lemma report_len_range r : report_wf r -> 27 <= report_len r < 2 ^ 16.
Proof.
  intros (_ & _ & _ & _ & _ & Hs & _ & Hl).
  pose proof (stream_bytes_pos (2 * (r_nr r * r_nc r * r_num_tones r))).
  pose proof (zlen_nonneg (r_payload r)). unfold report_len in *. lia.
Qed.

Lemma bytes_encode_report r : report_wf r -> bytes (encode_report r).
Proof.
  intros (_ & Hb & Hcsi & Hpl & _). unfold encode_report, report_body, report_head.
  repeat apply Forall_app_2; first [apply to_le_bytes | done].
Qed.

Lemma zlen_encode_report r : zlen (encode_report r) = report_len r + 2.
Proof. unfold encode_report. rewrite zlen_app, zlen_report_body, zlen_to_le. lia. Qed.

Lemma slice_mid {A} (l1 l2 l3 : list A) i n :
  length l1 = i -> length l2 = n -> slice i n (l1 ++ l2 ++ l3) = l2.
Proof. intros <- <-. unfold slice. by rewrite drop_app_length, take_app_length. Qed.

(** the status the receiver decodes from a report *)
Definition status_of (r : report) (st : csi_struct) : Prop :=
  csi_len st = zlen (r_csi r) /\ channel st = r_channel r /\ payload_len st = zlen (r_payload r) /\
  buf_len st = report_len r /\
  [phyerr st; noise st; rate st; chanBW st; num_tones st; nr st; nc st;
   rssi st; rssi_0 st; rssi_1 st; rssi_2 st] =
  [r_phyerr r; r_noise r; r_rate r; r_chanBW r; r_num_tones r; r_nr r; r_nc r;
   r_rssi r; r_rssi_0 r; r_rssi_1 r; r_rssi_2 r].

Lemma record_status_report be w r tl :
  report_wf r -> bytes tl ->
  exists st, record_status be w (encode_report r ++ tl) (zlen (encode_report r)) = Ok st /\ status_of r st.
Proof.
  intros Hwf Htl. pose proof (report_len_range r Hwf) as Hlen.
  pose proof (zlen_encode_report r) as Hz. pose proof (zlen_nonneg tl).
  destruct (record_status_ok be w (encode_report r ++ tl) (zlen (encode_report r))) as [st Est];
    [rewrite zlen_app; lia|rewrite zlen_app; lia|].
  exists st. split; [done|].
  destruct (record_status_fields _ _ _ _ _ (Forall_app_2 _ _ _ (bytes_encode_report r Hwf) Htl) Est)
    as (_ & Hc & Hch & Hp & Hbl & Hf).
  destruct Hwf as ((_ & Hchr) & _ & _ & _ & _ & _ & Hpl & Hl). unfold report_len in Hl.
  pose proof (zlen_nonneg (r_csi r)). pose proof (zlen_nonneg (r_payload r)).
  change (2 ^ 16) with (256 ^ Z.of_nat 2) in *.
  unfold status_of. rewrite Hc, Hch, Hp, Hbl, Hf.
  assert (slice (Z.to_nat (zlen (encode_report r) - 2)) 2 (encode_report r ++ tl) = to_le 2 (report_len r)) as ->.
  { unfold encode_report. rewrite <- app_assoc. apply slice_mid; [|apply length_to_le].
    rewrite zlen_app, zlen_report_body, zlen_to_le. pose proof (zlen_report_body r) as Hb.
    unfold zlen in Hb. lia. }
  rewrite le_to_le_small by lia. unfold encode_report, report_body, report_head.
  rewrite <- !app_assoc. split_and!; [..|done|done].
  - rewrite slice_mid by apply length_to_le. apply le_to_le_small. lia.
  - rewrite (app_assoc (to_le 8 _)), slice_mid; [|by rewrite length_app, !length_to_le|apply length_to_le].
    apply le_to_le_small. lia.
  - do 2 rewrite (app_assoc (to_le 8 _ ++ _)) || rewrite (app_assoc (to_le 8 _)).
    rewrite (app_assoc (_ ++ to_le 2 _)), slice_mid; [|by rewrite !length_app, !length_to_le|apply length_to_le].
    apply le_to_le_small. lia.
Qed.

Lemma status_of_fits r st : report_wf r -> status_of r st -> csi_typed st /\ payload_fits st = true.
Proof.
  intros (_ & Hb & _ & _ & Hdim & Hs & Hp & Hl) (Hc & _ & Hpl & Hbl & [= ? ? ? ? Hnt Hnr Hnc ? ? ? ?]).
  pose proof (stream_bytes_pos (2 * (r_nr r * r_nc r * r_num_tones r))).
  pose proof (zlen_nonneg (r_payload r)). pose proof (zlen_nonneg (r_csi r)).
  repeat (apply Forall_cons_1 in Hb as [? Hb]). unfold is_byte, report_len in *.
  unfold csi_typed, payload_fits, FillCsi.fits_matrix, DATA_BUF_SIZE, BUFSIZE, csi_st_len,
    FillCsi.CSI_NR, FillCsi.CSI_NC, FillCsi.CSI_MAX_SUBCARRIERS.
  rewrite Hc, Hpl, Hbl, Hnt, Hnr, Hnc. lia.
Qed.

(** one round logs the report's frame *)
Lemma main_iter_report w p r :
  prog_wf p -> quit p = 0 -> report_wf r -> total_msg_cnt p < 2 ^ 31 - 1 ->
  exists p', main_iter false w true p (ReadBytes (encode_report r)) = Ok (inr p') /\
    prog_wf p' /\ quit p' = 0 /\ total_msg_cnt p' = total_msg_cnt p + 1 /\ log p' = log p ++ frame r.
Proof.
  intros Hwf Hq Hr Ht. pose proof (report_len_range r Hr) as Hlen. pose proof (zlen_encode_report r) as Hz.
  assert (zlen (encode_report r) <= BUFSIZE) as Hmax.
  { rewrite Hz. by destruct Hr as (_ & _ & _ & _ & _ & _ & _ & Hmax). }
  assert (exists tl, read_csi_buf (buf_addr p) (ReadBytes (encode_report r)) =
    (encode_report r ++ tl, zlen (encode_report r)) /\ bytes tl) as (tl & Hread & Htl).
  { exists (drop (length (encode_report r)) (buf_addr p)). unfold read_csi_buf.
    rewrite (take_ge (encode_report r)) by (unfold zlen in Hmax; lia). split; [done|].
    destruct Hwf as (_ & Hb & _). by apply bytes_drop. }
  assert (read_wf (ReadBytes (encode_report r))) as Hrw by by apply bytes_encode_report.
  destruct (record_status_report false w r tl Hr Htl) as (st & Est & Hst).
  destruct (status_of_fits r st Hr Hst) as [Hty Hfit].
  destruct (read_csi_buf_wf (buf_addr p) _ _ _ ltac:(apply Hwf) ltac:(apply Hwf) Hrw Hread) as (Hbl & Hbb & _).
  pose proof Hwf as (_ & _ & Hd & Hm).
  pose proof (record_csi_payload_is_ok (encode_report r ++ tl) st (data_buf p) (csi_matrix p)
    Hbb Hbl Hd Hm Hty) as Hok. rewrite Hfit in Hok.
  destruct (main_iter false w true p (ReadBytes (encode_report r))) as [x|e] eqn:E.
  - destruct (main_iter_inv _ _ _ _ _ _ Hwf Hq Hrw E) as (p' & -> & Hwf' & Hq' & Hc' & _).
    exists p'. split; [done|]. split; [done|]. split; [done|].
    rewrite Hread in Hc'. cbn [snd] in Hc'. split; [destruct (Z.eqb_spec (zlen (encode_report r)) 0); lia|]. clear Hwf' Hq' Hc'.
    unfold main_iter in E. rewrite Hq, Hread in E. cbn [Z.eqb] in E.
    replace (zlen (encode_report r) =? 0) with false in E by lia.
    rewrite int_succ_ok, bind_ok in E by done.
    rewrite Est, bind_ok in E. remember (encode_report r ++ tl) as buf eqn:Ebuf. minv E. cbn [log].
    destruct Hst as (_ & _ & _ & Hblen & _). 
    match goal with Hw : fwrite _ _ = Ok _ |- _ => unfold fwrite in Hw; rewrite Hblen in *;
      destruct (_ <=? _); [injection Hw as <-|discriminate] end.
    unfold frame, u16_repr. cbv zeta. rewrite u16_small by lia. do 2 f_equal.
    change (to_le 2 (report_len r) ++ take (Z.to_nat (report_len r)) buf =
            to_le 2 (report_len r) ++ report_body r). f_equal.
    rewrite Ebuf. unfold encode_report. rewrite <- app_assoc. apply take_app_length'.
    pose proof (zlen_report_body r). unfold zlen in *. lia.
  - exfalso. unfold main_iter in E. rewrite Hq, Hread in E. cbn [Z.eqb] in E.
    replace (zlen (encode_report r) =? 0) with false in E by lia.
    rewrite int_succ_ok, bind_ok in E by done.
    rewrite Est, bind_ok in E. destruct (record_csi_payload _ _ _ _) as [[d m]|]; [|done].
    rewrite bind_ok in E. destruct Hst as (_ & _ & _ & Hblen & _). unfold fwrite in E. rewrite Hblen in E.
    replace (_ <=? _) with true in E; [discriminate|]. symmetry. apply Z.leb_le. rewrite zlen_app.
    pose proof (zlen_nonneg tl). lia.
Qed.

Lemma main_loop_reports w rs : forall p,
  prog_wf p -> quit p = 0 -> Forall report_wf rs -> total_msg_cnt p + zlen rs < 2 ^ 31 ->
  exists p', main_loop false w true p (ReadBytes ∘ encode_report <$> rs) = Ok (inr p') /\
    log p' = log p ++ frames rs.
Proof.
  induction rs as [|r rs IH]; intros p Hwf Hq Hrs Ht; simpl.
  - exists p. split; [done|]. unfold frames. simpl. by rewrite app_nil_r.
  - apply Forall_cons_1 in Hrs as [Hr Hrs].
    rewrite zlen_cons in Ht. pose proof (zlen_nonneg rs).
    destruct (main_iter_report w p r Hwf Hq Hr) as (p1 & E1 & Hwf1 & Hq1 & Ht1 & Hlog1); [lia|].
    destruct (IH p1 Hwf1 Hq1 Hrs ltac:(lia)) as (p2 & E2 & Hlog2).
    exists p2. simpl in E1. rewrite E1, bind_ok. split; [exact E2|].
    rewrite Hlog2, Hlog1. change (frames (r :: rs)) with (frame r ++ frames rs). by rewrite app_assoc.
Qed.

(** ** The reader on a log *)

(** the records stored: those with at least 420 bytes of log behind them *)
Fixpoint stored (rs : list report) : list report :=
  match rs with
  | [] => []
  | r :: rs => if 420 <=? zlen (frames rs) then r :: stored rs else []
  end.

Lemma zlen_frames_cons r rs : zlen (frames (r :: rs)) = 2 + report_len r + zlen (frames rs).
Proof.
  change (frames (r :: rs)) with (frame r ++ frames rs). by rewrite zlen_app, zlen_frame.
Qed.

Lemma read_loop_frames len rs : forall fuel cur ret,
  Forall report_wf rs -> zlen (frames rs) < Z.of_nat fuel -> len = cur + zlen (frames rs) ->
  exists es, read_loop fuel len cur (frames rs) ret = Ok (ret ++ es) /\
    Forall2 (fun r e => entry_of r = Ok e) (stored rs) es.
Proof.
  induction rs as [|r rs IH]; intros [|fuel] cur ret Hrs Hfuel Hlen;
    [by pose proof (zlen_nonneg (frames [])); lia| |by pose proof (zlen_nonneg (frames (r :: rs))); lia|].
  - exists []. simpl. unfold frames in Hlen; simpl in Hlen. change (zlen (@nil Z)) with 0 in Hlen.
    replace (cur <? len - 4) with false by lia. by rewrite app_nil_r.
  - apply Forall_cons_1 in Hrs as [Hr Hrs]. pose proof (report_len_range r Hr) as Hl.
    rewrite zlen_frames_cons in *. pose proof (zlen_nonneg (frames rs)). cbn [read_loop stored].
    replace (cur <? len - 4) with true by lia.
    change (frames (r :: rs)) with (frame r ++ frames rs). unfold frame. rewrite <- !app_assoc.
    rewrite fread_uint_app, bind_ok by (change (256 ^ Z.of_nat 2) with (2 ^ 16); lia).
    replace (len <? cur + 2 + report_len r) with false by lia.
    destruct (entry_of_ok r Hr) as (e & Ee & Hel).
    rewrite read_entry_report, Ee, !bind_ok, Hel by done.
    destruct (Z.leb_spec 420 (zlen (frames rs))).
    + replace (len <? cur + 2 + report_len r + 420) with false by lia.
      destruct (IH fuel (cur + 2 + report_len r) (ret ++ [e]) Hrs) as (es & -> & Hes); [lia|lia|].
      exists (e :: es). rewrite <- app_assoc. split; [done|]. by constructor.
    + replace (len <? cur + 2 + report_len r + 420) with true by lia.
      exists []. by rewrite app_nil_r.
Qed.

Lemma fread_enough_fuel n f : enough_fuel (fread n f).
Proof. unfold fread. by destruct (_ <=? _)%nat. Qed.

Lemma fread_uint_enough_fuel n f : enough_fuel (fread_uint n f).
Proof. apply bind_enough_fuel; [apply fread_enough_fuel|by intros [? ?]]. Qed.

Lemma fread_uint_1_byte f v f' : bytes f -> fread_uint 1 f = Ok (v, f') -> 0 <= v < 256 /\ bytes f'.
Proof.
  intros Hb E. apply bind_ok_inv in E as ([l f1] & E & [= <- <-]).
  apply fread_rest in E as [-> Hl]. apply Forall_app in Hb as [Hb ?]. split; [|done].
  pose proof (le_range l Hb). unfold zlen in *. rewrite Hl in *. lia.
Qed.

Lemma read_entry_enough_fuel f : bytes f -> enough_fuel (read_entry f).
Proof.
  intros Hb. unfold read_entry.
  do 15 (apply bind_enough_fuel_eq; [apply fread_uint_enough_fuel|];
    intros [? ?] Eu;
    first [apply fread_uint_1_byte in Eu as [? ?]; [|assumption]
          |apply fread_uint_rest in Eu as [_ Eu]; specialize (Eu ltac:(assumption)) as [? ?]]).
  apply bind_enough_fuel.
  - destruct (_ <? _); [|done]. apply bind_enough_fuel; [apply fread_enough_fuel|]. intros [? ?].
    apply bind_enough_fuel; [|done]. apply ReadCsi.decode_enough_fuel; lia.
  - intros [? ?]. apply bind_enough_fuel; [|by intros [? ?]]. destruct (_ <? _); [|done].
    apply bind_enough_fuel; [apply fread_enough_fuel|by intros [? ?]].
Qed.

(** the reader ends on every file whose bytes are bytes *)
Lemma read_loop_fuel len : forall fuel cur f ret,
  bytes f -> zlen f < Z.of_nat fuel -> len = cur + zlen f ->
  read_loop fuel len cur f ret <> Err OutOfFuel.
Proof.
  induction fuel as [|fuel IH]; intros cur f ret Hb Hf Hlen; [pose proof (zlen_nonneg f); lia|].
  simpl. destruct (cur <? len - 4); [|done].
  destruct (fread_uint 2 f) as [[fl f1]|e] eqn:E1; rewrite ?bind_ok.
  - apply fread_uint_rest in E1 as [Hl1 Hb1]. destruct (Hb1 Hb) as [_ Hb1'].
    destruct (_ <? _); [done|]. destruct (read_entry f1) as [[en f2]|e] eqn:E2; rewrite ?bind_ok.
    + apply read_entry_rest in E2 as (Hl2 & Hb2 & Hen); [|done]. destruct (_ <? _); [done|].
      apply IH; [done|lia|lia].
    + simpl. intros [= ->]. by apply (read_entry_enough_fuel f1).
  - simpl. intros [= ->]. by apply (fread_uint_enough_fuel 2 f).
Qed.

Lemma entry_timestamp r e : report_wf r -> entry_of r = Ok e ->
  (forall d, is_double d -> Z.abs (ReadLogFile.timestamp e - r_tstamp r) <= Z.abs (d - r_tstamp r)) /\
  (r_tstamp r < 2 ^ 53 -> ReadLogFile.timestamp e = r_tstamp r).
Proof.
  intros ((Ht & _) & _) E. unfold entry_of in E. apply bind_ok_inv in E as (c & _ & [= <-]). cbn [ReadLogFile.timestamp].
  split; [intros d; apply to_double_nearest; lia|intros; apply to_double_exact; lia].
Qed.
Lemma stored_wf rs : Forall report_wf rs -> Forall report_wf (stored rs).
Proof. induction 1 as [|r rs Hr _ IH]; simpl; [done|]. destruct (420 <=? _); [by constructor|done]. Qed.
Lemma stored_entries rs es : Forall report_wf rs -> Forall2 (fun r e => entry_of r = Ok e) (stored rs) es ->
  Forall2 (fun r e => entry_of r = Ok e /\
    (forall d, is_double d -> Z.abs (ReadLogFile.timestamp e - r_tstamp r) <= Z.abs (d - r_tstamp r)) /\
    (r_tstamp r < 2 ^ 53 -> ReadLogFile.timestamp e = r_tstamp r)) (stored rs) es.
Proof.
  intros Hrs H. apply stored_wf in Hrs. induction H as [|r e l es E _ IH]; constructor.
  - apply Forall_cons_1 in Hrs as [Hr _]. split; [done|]. by apply entry_timestamp.
  - apply Forall_cons_1 in Hrs as [_ Hrs]. by apply IH.
Qed.

(** ** Properties *)

(** C17: the log round trip: when the receiver logs any non-empty sequence of
    fewer than 2^31 well-formed reports (its counter is an [int]), the loop survives and read_log_file.m returns, in
    order, the records of exactly those reports that have at least 420 bytes of
    log behind them, less the last of these when there are several (it returns
    one empty cell when there is none): each record carries the report's header
    fields, its payload and the matrix its CSI bytes decode to; its time stamp is
    a double nearest to the report's, hence equal below 2^53. *)
Theorem log_roundtrip (wide_shl : Z -> Z -> Z) (rs : list report)
    (Hrs : Forall report_wf rs) (Hne : rs <> []) (Hcount : zlen rs < 2 ^ 31) :
  exists p es,
    main_loop false wide_shl true prog_init (ReadBytes ∘ encode_report <$> rs) = Ok (inr p) /\
    Forall2 (fun r e => entry_of r = Ok e /\
               (forall d, is_double d -> Z.abs (ReadLogFile.timestamp e - r_tstamp r) <= Z.abs (d - r_tstamp r)) /\
               (r_tstamp r < 2 ^ 53 -> ReadLogFile.timestamp e = r_tstamp r)) (stored rs) es /\
    read_log_file (log p) =
      Ok (match es with [] => [None] | [e] => [Some e] | _ => Some <$> take (length es - 1) es end).
Proof.
  destruct (main_loop_reports wide_shl rs prog_init prog_init_wf eq_refl Hrs Hcount) as (p & E & Hlog).
  change (log prog_init) with (@nil Z) in Hlog. cbn [app] in Hlog.
  destruct (read_loop_frames (zlen (frames rs)) rs (S (length (frames rs))) 0 [] Hrs) as (es & El & Hes);
    [unfold zlen; lia|lia|].
  exists p, es. split; [done|]. split; [by apply stored_entries|].
  unfold read_log_file. rewrite Hlog, El, bind_ok. cbn [app]. unfold trim.
  destruct es as [|e1 [|e2 es]]; [|done..].
  replace (0 <? zlen (frames rs)) with true; [done|]. symmetry. apply Z.ltb_lt.
  destruct rs as [|r rs]; [done|]. apply Forall_cons_1 in Hrs as [Hr _].
  rewrite zlen_frames_cons. pose proof (report_len_range r Hr). pose proof (zlen_nonneg (frames rs)). lia.
Qed.

(** Read_log_file.m terminates on every file: its loop, which follows
    length fields it does not check against each other, consumes at least 27
    bytes a round, so the model's fuel (one more than the file's length) is
    never used up, whatever the bytes. *)
Theorem read_log_file_terminates (f : list Z) (Hf : bytes f) : enough_fuel (read_log_file f).
Proof.
  unfold read_log_file. apply bind_enough_fuel; [apply read_loop_fuel; [done|unfold zlen; lia|lia]|].
  intros [|e1 [|e2 es]]; unfold trim; [by destruct (_ <? _)|done|done].
Qed.

(** ** The properties at concrete logs *)

(** reports of 450 logged bytes *)
Definition sample_csi_report (payload : Z) : report :=
  mkReport 7 2437 0 0 0x87 0 2 1 1 40 38 30 128 [1; 2; 3; 4; 5; 6] (replicate 419 payload).

Lemma sample_csi_report_wf payload : is_byte payload -> report_wf (sample_csi_report payload).
Proof.
  intros Hp. unfold report_wf, sample_csi_report; cbn [r_tstamp r_channel r_phyerr r_noise r_rate r_chanBW
    r_num_tones r_nr r_nc r_rssi r_rssi_0 r_rssi_1 r_rssi_2 r_csi r_payload].
  split; [lia|]. split; [by apply (bool_decide_unpack _)|]. split; [by apply (bool_decide_unpack _)|].
  split; [by apply Forall_replicate|]. split; [lia|]. by vm_compute.
Qed.

(** four reports are logged, two come back *)
Lemma log_roundtrip_witness :
  exists p e1 e2,
    main_loop false (fun _ _ => 0) true prog_init
      (ReadBytes ∘ encode_report <$> [sample_csi_report 1; sample_csi_report 2; sample_csi_report 3;
                                      sample_csi_report 4]) = Ok (inr p) /\
    entry_of (sample_csi_report 1) = Ok e1 /\ entry_of (sample_csi_report 2) = Ok e2 /\
    read_log_file (log p) = Ok [Some e1; Some e2].
Proof.
  destruct (log_roundtrip (fun _ _ => 0)
    [sample_csi_report 1; sample_csi_report 2; sample_csi_report 3; sample_csi_report 4])
    as (p & es & E & Hes & Hr); [|discriminate|done|].
  - repeat (constructor; [apply sample_csi_report_wf; unfold is_byte; lia|]). constructor.
  - change (stored _) with [sample_csi_report 1; sample_csi_report 2; sample_csi_report 3] in Hes.
    inversion Hes as [|? e1 ? es1 [H1 _] Hes1]; subst. inversion Hes1 as [|? e2 ? es2 [H2 _] Hes2]; subst.
    inversion Hes2 as [|? e3 ? es3 H3 Hes3]; subst. inversion Hes3; subst.
    exists p, e1, e2. auto.
Defined.

Lemma read_log_file_terminates_witness : enough_fuel (read_log_file (replicate 60 3)).
Proof.
  apply (read_log_file_terminates (replicate 60 3)). apply Forall_replicate. unfold is_byte. lia.
Defined.
