(* ===== verification/CText.v ===== *)
(** * C text: string literals, printf's integers, atoi

    Strings are byte lists without their terminating NUL; [sprintf_len] and
    friends account for the NUL where a buffer's size matters.  Shared by the
    components that build or parse text. *)

From Stdlib Require String Ascii.
Export String.StringSyntax.
From S2P Require Import Prelude.

(** the bytes of a string literal *)
Definition str (s : String.string) : list Z :=
  map (fun a => Z.of_N (Ascii.N_of_ascii a)) (String.list_ascii_of_string s).
#[global] Arguments str s%_string_scope : simpl never.

Definition is_digit (c : Z) : bool := (48 <=? c) && (c <=? 57).

(** ** Printing: the conversions %u/%lu and %d *)

Fixpoint udec_loop (fuel : nat) (n : Z) (acc : list Z) : list Z :=
  match fuel with
  | O => acc
  | S fuel => let acc := 48 + n mod 10 :: acc in
              if n <? 10 then acc else udec_loop fuel (n / 10) acc
  end.

Definition udec (n : Z) : list Z := udec_loop (S (Z.to_nat (Z.log2 n))) n [].
Definition dec (n : Z) : list Z := if n <? 0 then 45 :: udec (- n) else udec n.

(** the number a digit string denotes *)
Definition dval (ds : list Z) : Z := fold_left (fun a c => a * 10 + (c - 48)) ds 0.

Lemma dval_snoc ds c : dval (ds ++ [c]) = dval ds * 10 + (c - 48).
Proof. unfold dval. by rewrite fold_left_app. Qed.

Lemma udec_loop_spec fuel n acc :
  0 <= n < 10 ^ Z.of_nat fuel -> (0 < fuel)%nat ->
  exists ds, udec_loop fuel n acc = ds ++ acc /\ Forall (fun c => is_digit c = true) ds /\ dval ds = n /\
    0 < zlen ds /\ (10 ^ (zlen ds - 1) <= n \/ zlen ds = 1) /\ n < 10 ^ zlen ds.
Proof.
  revert n acc. induction fuel as [|fuel IH]; intros n acc Hn Hf; [lia|]. simpl.
  assert (0 <= n mod 10 < 10) by (apply Z.mod_pos_bound; lia).
  assert (is_digit (48 + n mod 10) = true) as Hd by (unfold is_digit; lia).
  destruct (Z.ltb_spec n 10).
  - exists [48 + n mod 10]. rewrite Z.mod_small in * by lia. split; [done|].
    split; [by constructor|]. split; [unfold dval; simpl; lia|].
    change (zlen [_]) with 1. change (10 ^ 1) with 10. split_and!; lia.
  - rewrite Nat2Z.inj_succ, Z.pow_succ_r in Hn by lia.
    assert (n / 10 < 10 ^ Z.of_nat fuel) by (apply Z.div_lt_upper_bound; lia).
    assert (1 <= n / 10) by (apply Z.div_le_lower_bound; lia).
    destruct fuel as [|fuel]; [change (10 ^ Z.of_nat 0) with 1 in *; lia|].
    destruct (IH (n / 10) (48 + n mod 10 :: acc)) as (ds & -> & Hds & Hv & Hl & Hlo & Hhi); [lia|lia|].
    exists (ds ++ [48 + n mod 10]). rewrite <- app_assoc, dval_snoc, Hv. split; [done|].
    pose proof (Z.div_mod n 10 ltac:(lia)).
    autorewrite with arr. change (zlen (@nil Z)) with 0.
    split; [by apply Forall_app_2; [done|constructor]|]. split; [lia|]. split; [lia|].
    replace (zlen ds + (1 + 0)) with (Z.succ (zlen ds)) by lia.
    rewrite (Z.pow_succ_r 10 (zlen ds)) by lia. split; [left|lia].
    replace (Z.succ (zlen ds) - 1) with (Z.succ (zlen ds - 1)) by lia.
    rewrite Z.pow_succ_r by lia. destruct Hlo as [|Hlo]; [lia|].
    rewrite Hlo. change (10 ^ (1 - 1)) with 1. lia.
Qed.

Lemma udec_spec n : 0 <= n ->
  Forall (fun c => is_digit c = true) (udec n) /\ dval (udec n) = n /\
  0 < zlen (udec n) /\ (10 ^ (zlen (udec n) - 1) <= n \/ zlen (udec n) = 1) /\ n < 10 ^ zlen (udec n).
Proof.
  intros Hn. unfold udec.
  destruct (udec_loop_spec (S (Z.to_nat (Z.log2 n))) n []) as (ds & -> & H); [|lia|by rewrite app_nil_r].
  split; [lia|]. destruct (decide (n = 0)) as [->|]; [done|].
  pose proof (Z.log2_spec n ltac:(lia)) as [_ Hlt]. pose proof (Z.log2_nonneg n).
  replace (Z.of_nat (S (Z.to_nat (Z.log2 n)))) with (Z.succ (Z.log2 n)) by lia.
  eapply Z.lt_le_trans; [exact Hlt|]. apply Z.pow_le_mono_l. lia.
Qed.

Lemma pow10_mono_inv a b : 0 <= b -> 10 ^ a < 10 ^ b -> a < b.
Proof. intros. apply (Z.pow_lt_mono_r_iff 10); lia. Qed.

(** a number below 10^k prints in at most k digits *)
Lemma zlen_udec n k : 0 <= n < 10 ^ k -> 1 <= k -> 1 <= zlen (udec n) <= k.
Proof.
  intros Hn Hk. destruct (udec_spec n) as (_ & _ & Hl & [Hlo|Hlo] & _); [lia| |lia].
  assert (zlen (udec n) - 1 < k); [|lia]. apply pow10_mono_inv; lia.
Qed.

Lemma zlen_udec_exact n d : 0 < d -> (10 ^ (d - 1) <= n \/ d = 1) -> 0 <= n < 10 ^ d -> zlen (udec n) = d.
Proof.
  intros Hd Hlo Hn. pose proof (zlen_udec n d Hn ltac:(lia)). destruct Hlo as [Hlo|]; [|lia].
  destruct (udec_spec n) as (_ & _ & Hl & _ & Hhi); [lia|].
  assert (d - 1 < zlen (udec n)); [|lia]. apply pow10_mono_inv; lia.
Qed.

(** a number of absolute value below 10^k prints in at most k+1 characters *)
Lemma zlen_dec n k : - 10 ^ k < n < 10 ^ k -> 1 <= k -> 1 <= zlen (dec n) <= k + (if n <? 0 then 1 else 0).
Proof.
  intros Hn Hk. unfold dec. destruct (Z.ltb_spec n 0).
  - autorewrite with arr. pose proof (zlen_udec (- n) k). lia.
  - pose proof (zlen_udec n k). lia.
Qed.

(** ** atoi: optional white space and sign, then digits *)

Definition is_space (c : Z) : bool := (c =? 32) || ((9 <=? c) && (c <=? 13)).

Fixpoint skip_space (s : list Z) : list Z :=
  match s with c :: s' => if is_space c then skip_space s' else s | [] => [] end.

Fixpoint scan_digits (acc : Z) (s : list Z) : Z :=
  match s with
  | c :: s => if is_digit c then scan_digits (acc * 10 + (c - 48)) s else acc
  | [] => acc
  end.

(** a value outside [int] has no defined result *)
Definition atoi (s : list Z) : M Z :=
  let s := skip_space s in
  let v := match s with
           | c :: s' => if c =? 45 then - scan_digits 0 s'
                        else if c =? 43 then scan_digits 0 s' else scan_digits 0 s
           | [] => 0
           end in
  if (- 2 ^ 31 <=? v) && (v <? 2 ^ 31) then Ok v else Err SignedOverflow.

Lemma scan_digits_all acc ds :
  Forall (fun c => is_digit c = true) ds ->
  scan_digits acc ds = fold_left (fun a c => a * 10 + (c - 48)) ds acc.
Proof.
  intros H. revert acc. induction H as [|c ds Hc _ IH]; intros acc; simpl; [done|]. by rewrite Hc.
Qed.

(** reading back what %d prints *)
Lemma atoi_dec n : - 2 ^ 31 <= n < 2 ^ 31 -> atoi (dec n) = Ok n.
Proof.
  intros Hn. unfold atoi, dec. destruct (Z.ltb_spec n 0).
  - destruct (udec_spec (- n)) as (Hd & Hv & _); [lia|]. simpl.
    rewrite scan_digits_all by done. unfold dval in Hv. rewrite Hv.
    by replace ((- 2 ^ 31 <=? - - n) && (- - n <? 2 ^ 31)) with true by lia; f_equal; lia.
  - destruct (udec_spec n) as (Hd & Hv & Hl & _); [lia|].
    destruct (udec n) as [|c ds] eqn:E; [done|].
    pose proof Hd as Hd'. apply Forall_cons_1 in Hd' as [Hc _]. unfold is_digit in Hc. simpl skip_space.
    replace (is_space c) with false by (unfold is_space; lia).
    replace (c =? 45) with false by lia. replace (c =? 43) with false by lia.
    rewrite scan_digits_all by done. unfold dval in Hv. rewrite Hv.
    by replace ((- 2 ^ 31 <=? n) && (n <? 2 ^ 31)) with true by lia.
Qed.

(** ** Writing text into a buffer *)

(** [sprintf(buf, ...)] of the expansion [text] into [size] bytes: the NUL must fit *)
Definition sprintf (size : Z) (text : list Z) : M (list Z) :=
  if zlen text + 1 <=? size then Ok text else Err OutOfBounds.

(** [snprintf(buf, size, ...)]: what is stored, and the length it returns *)
Definition snprintf (size : Z) (text : list Z) : list Z * Z :=
  (take (Z.to_nat (size - 1)) text, zlen text).

Lemma sprintf_ok size text : zlen text + 1 <= size -> sprintf size text = Ok text.
Proof. intros. unfold sprintf. by replace (_ <=? _) with true by lia. Qed.

(** ** Hexadecimal: sscanf's %x and printf's %02x *)

Definition hex_value (c : Z) : option Z :=
  if is_digit c then Some (c - 48)
  else if (97 <=? c) && (c <=? 102) then Some (c - 87)
  else if (65 <=? c) && (c <=? 70) then Some (c - 55)
  else None.

(** digits as far as they go: the value, how many, and the rest *)
Fixpoint scan_hex_digits (acc count : Z) (s : list Z) : Z * Z * list Z :=
  match s with
  | c :: s' => match hex_value c with
               | Some d => scan_hex_digits (acc * 16 + d) (count + 1) s'
               | None => (acc, count, s)
               end
  | [] => (acc, count, [])
  end.

(** [%x] into an [unsigned int]: white space, a sign, an optional 0x, at least
    one digit; the conversion is strtoul's, which saturates at [ULONG_MAX] *)
Definition scan_x (s : list Z) : option (Z * list Z) :=
  let s := skip_space s in
  let '(neg, s) := match s with
                   | c :: s' => if c =? 45 then (true, s') else if c =? 43 then (false, s') else (false, s)
                   | [] => (false, [])
                   end in
  let s := match s with
           | c :: x :: s' => if (c =? 48) && ((x =? 120) || (x =? 88)) then s' else s
           | _ => s
           end in
  let '(v, count, s) := scan_hex_digits 0 0 s in
  if count =? 0 then None
  else let v := if v <? 2 ^ 64 then (if neg then - v else v) else 2 ^ 64 - 1 in
       Some (u32 v, s).

Definition hex_digit (d : Z) : Z := if d <? 10 then 48 + d else 87 + d.

(** [%02x] of a byte *)
Definition hex2 (b : Z) : list Z := [hex_digit (b / 16); hex_digit (b mod 16)].

Lemma hex_value_digit d : 0 <= d < 16 -> hex_value (hex_digit d) = Some d.
Proof.
  intros. unfold hex_digit, hex_value, is_digit. destruct (Z.ltb_spec d 10).
  - replace ((48 <=? 48 + d) && (48 + d <=? 57)) with true by lia. f_equal. lia.
  - replace ((48 <=? 87 + d) && (87 + d <=? 57)) with false by lia.
    replace ((97 <=? 87 + d) && (87 + d <=? 102)) with true by lia. f_equal. lia.
Qed.

(** a byte written as two hex digits is read back, up to the next separator *)
Lemma scan_x_hex2 b sep s :
  is_byte b -> hex_value sep = None -> scan_x (hex2 b ++ sep :: s) = Some (b, sep :: s).
Proof.
  intros Hb Hsep. unfold is_byte in Hb.
  assert (0 <= b / 16 < 16) by (split; [apply Z.div_pos|apply Z.div_lt_upper_bound]; lia).
  pose proof (Z.mod_pos_bound b 16 ltac:(lia)) as Hm.
  assert (forall d, 0 <= d < 16 -> 48 <= hex_digit d <= 57 \/ 97 <= hex_digit d <= 102) as Hd
    by (intros d Hd; unfold hex_digit; destruct (Z.ltb_spec d 10); lia).
  pose proof (Hd (b / 16) ltac:(done)). pose proof (Hd (b mod 16) Hm).
  unfold scan_x, hex2. simpl app. simpl skip_space.
  replace (is_space (hex_digit (b / 16))) with false by (unfold is_space; lia).
  replace (hex_digit (b / 16) =? 45) with false by lia.
  replace (hex_digit (b / 16) =? 43) with false by lia.
  replace ((hex_digit (b mod 16) =? 120) || (hex_digit (b mod 16) =? 88)) with false by lia.
  rewrite andb_false_r. cbn [scan_hex_digits]. rewrite !hex_value_digit, Hsep by done.
  change (0 + 1 + 1 =? 0) with false. cbv iota zeta.
  replace ((0 * 16 + b / 16) * 16 + b mod 16) with b by (Z.div_mod_to_equations; lia).
  replace (b <? 2 ^ 64) with true by lia. by rewrite u32_small by lia.
Qed.

Lemma scan_x_hex2_end b : is_byte b -> scan_x (hex2 b) = Some (b, []).
Proof.
  intros Hb. pose (f b := bool_decide (scan_x (hex2 b) = Some (b, []))).
  assert (f b = true) as Hf by (apply byte_forall; [by vm_compute|done]).
  by apply bool_decide_eq_true in Hf.
Qed.
