(* ===== verification/CsiDatabase.v ===== *)
(** * recvCSIToDatabase: status, persistence and the receive loop

    Models recvCSIToDatabase/csi_fun.c (what differs from recvCSIToFile),
    csi_persistence.c and main.c.  libpq is the interface [Database]: what a
    connection does with a query is a parameter, and so is what sprintf makes of
    the overlapping string that save_csi_matrix gives it ([overlap]). *)

From S2P Require Import Prelude CsiDecode CsiReceive CText.
Import FillCsi.

(** ** libpq *)

Inductive ExecStatus := PGRES_COMMAND_OK | PGRES_TUPLES_OK | PGRES_ERROR.

#[export] Instance ExecStatus_eq_dec : EqDecision ExecStatus.
Proof. solve_decision. Defined.

(** a result: its status, and the first column of its first row, if any *)
Record PGresult := mkResult { PQresultStatus : ExecStatus; PQgetvalue : option (list Z) }.

Class Database (DB : Type) := {
  PQconnectdb : list Z -> DB;
  PQstatus_bad : DB -> bool;
  PQexec : DB -> list Z -> DB * PGresult
}.

(** ** csi_persistence.c: number lengths and the connection *)

Definition LONG_MIN : Z := - 2 ^ 63.

(** [while (number > 0) { number /= 10; digits++; }] *)
Definition count_digits (number digits : Z) : M (Z * Z) :=
  (fix loop (fuel : nat) (number digits : Z) : M (Z * Z) :=
     match fuel with
     | O => Err OutOfFuel
     | S fuel => if 0 <? number then loop fuel (number / 10) (digits + 1) else Ok (number, digits)
     end) 20%nat number digits.

Definition long_num_digits (number : Z) : M Z :=
  '(number, digits) ← (if number <? 0 then
                         if number =? LONG_MIN then Err SignedOverflow else Ok (number * -1, 1)
                       else Ok (number, 0));
  if number =? 0 then Ok 1 else
  '(_, digits) ← count_digits number digits; Ok digits.

Definition num_digits (number : Z) : M Z := long_num_digits number.

Record pg_config := mkConfig {
  PG_USER : list Z; PG_PASS : list Z; PG_DBNAME : list Z; PG_HOST : list Z; PG_PORT : Z
}.

Definition default_config : pg_config :=
  mkConfig (str "csi") (str "csi") (str "csi") (str "127.0.0.1") 5432.

Definition connection_string (c : pg_config) : list Z :=
  str "user=" ++ PG_USER c ++ str " password=" ++ PG_PASS c ++ str " dbname=" ++ PG_DBNAME c ++
  str " hostaddr=" ++ PG_HOST c ++ str " port=" ++ dec (PG_PORT c).

Section Persistence.
Context {DB : Type} `{!Database DB} (config : pg_config) (overlap : list Z -> list Z).

(** the connection is a pointer: [None] is NULL *)
Definition pg_close (conn : option DB) : option DB := None.

Definition pg_connect : M (option DB * Z) :=
  port_len ← num_digits (PG_PORT config);
  let str_len := 40 + port_len + zlen (PG_USER config) + zlen (PG_PASS config) +
                 zlen (PG_DBNAME config) + zlen (PG_HOST config) in
  s ← sprintf str_len (connection_string config);
  let conn := PQconnectdb s in
  if PQstatus_bad conn then Ok (pg_close (Some conn), 0) else Ok (Some conn, 1).

Definition sequences_query : list Z :=
  str "CREATE SEQUENCE csi_status_id_seq START WITH 1 INCREMENT BY 1 NO MINVALUE NO MAXVALUE CACHE 1; " ++
  str "ALTER TABLE public.csi_status_id_seq OWNER TO " ++ PG_USER config ++ str "; " ++
  str "CREATE SEQUENCE csi_data_id_seq START WITH 1 INCREMENT BY 1 NO MINVALUE NO MAXVALUE CACHE 1; " ++
  str "ALTER TABLE public.csi_data_id_seq OWNER TO " ++ PG_USER config ++ str ";".

Definition tables_query : list Z :=
  str "CREATE TABLE IF NOT EXISTS csi_status(" ++
  str "id INTEGER PRIMARY KEY DEFAULT nextval('csi_status_id_seq'::regclass)," ++
  str "timestamp_milli BIGINT,channel INTEGER,channel_bw REAL,rate INTEGER,num_receives INTEGER," ++
  str "num_transmitters INTEGER,num_subcarriers INTEGER,noise INTEGER,phy_err INTEGER,full_rssi INTEGER," ++
  str "rssi_0 INTEGER,rssi_1 INTEGER,rssi_2 INTEGER,payload_len INTEGER,csi_len INTEGER,buf_len INTEGER);" ++
  str "CREATE TABLE IF NOT EXISTS csi_data(" ++
  str "id INTEGER PRIMARY KEY DEFAULT nextval('csi_data_id_seq'::regclass)," ++
  str "timestamp_milli BIGINT,status_id INTEGER,antenna INTEGER,subcarrier INTEGER," ++
  str "rc_1_real INTEGER,rc_1_imag INTEGER,rc_1_rssi INTEGER,rc_2_real INTEGER,rc_2_imag INTEGER," ++
  str "rc_2_rssi INTEGER,rc_3_real INTEGER,rc_3_imag INTEGER,rc_3_rssi INTEGER);".

Definition csi_init_table (conn : option DB) : M (option DB * Z) :=
  match conn with
  | None => Ok (None, 0)
  | Some db =>
      q ← sprintf 1200 sequences_query;
      let '(db, _) := PQexec db q in
      q ← sprintf 1200 tables_query;
      let '(db, res) := PQexec db q in
      if decide (PQresultStatus res <> PGRES_COMMAND_OK) then Ok (pg_close (Some db), 0)
      else Ok (Some db, 1)
  end.

(** *** One report *)

Definition quoted (vs : list (list Z)) : list Z := concat ((fun v => str ",'" ++ v ++ str "'") <$> vs).

(** the text [create_csi_status_insert_query] prints; %f shows six decimals *)
Definition status_query (st : csi_struct) : list Z :=
  str "INSERT INTO csi_status VALUES(DEFAULT" ++
  quoted [udec (tstamp st); dec (channel st);
          (if chanBW st =? 0 then str "20.000000" else str "40.000000");
          dec (rate st); dec (nr st); dec (nc st); dec (num_tones st); dec (noise st); dec (phyerr st);
          dec (rssi st); dec (rssi_0 st); dec (rssi_1 st); dec (rssi_2 st);
          dec (payload_len st); dec (csi_len st); dec (buf_len st)] ++
  str ")".

Definition create_csi_status_insert_query (max_len : Z) (st : csi_struct) : list Z * Z :=
  snprintf max_len (status_query st).

Definition select_id_query : list Z := str "SELECT id FROM csi_status ORDER BY id DESC LIMIT 1".

Definition save_csi_status (conn : option DB) (st : csi_struct) : M (option DB * Z) :=
  match conn with
  | None => Ok (None, 0)
  | Some db =>
      let len := 1 + snd (create_csi_status_insert_query 0 st) in
      let insert_query := fst (create_csi_status_insert_query len st) in
      let '(db, res) := PQexec db insert_query in
      if decide (PQresultStatus res <> PGRES_COMMAND_OK) then Ok (pg_close (Some db), 0) else
      let '(db, res) := PQexec db select_id_query in
      if decide (PQresultStatus res <> PGRES_TUPLES_OK) then Ok (pg_close (Some db), 0) else
      match PQgetvalue res with
      | None => Err NullDeref
      | Some v => csi_status_id ← atoi v; Ok (Some db, csi_status_id)
      end
  end.

(** [sprintf(insert_query, "%s...", insert_query)]: source and destination
    overlap, which C leaves undefined.  What a C library makes of the [%s] is
    [overlap]: the old string where the library copies it onto itself, nothing
    where it empties the destination first. *)
Definition self_sprintf (max_len : Z) (insert_query text : list Z) : M (list Z) :=
  sprintf max_len (overlap insert_query ++ text).
Definition strcat (max_len : Z) (insert_query text : list Z) : M (list Z) :=
  sprintf max_len (insert_query ++ text).

Definition row_head (st : csi_struct) (csi_status_id antenna subcarrier : Z) : list Z :=
  str " (DEFAULT" ++ quoted [udec (tstamp st); dec csi_status_id; dec (antenna + 1); dec (subcarrier + 1)].

Definition row_cell (c : COMPLEX) : list Z := quoted [dec (real c); dec (imag c); dec 0].

Definition row_end (st : csi_struct) (antenna subcarrier : Z) : list Z :=
  if (subcarrier + 1 =? num_tones st) && (antenna + 1 =? nr st) then str ");" else str "),".

Definition matrix_query (csi_status_id : Z) (st : csi_struct) (csi_matrix : list COMPLEX) : M (list Z) :=
  let max_len := 27 + (num_tones st * nr st) * 122 in
  q ← sprintf max_len (str "INSERT INTO csi_data VALUES");
  cfor 257 (fun i => i + 1) (fun subcarrier => subcarrier <? num_tones st) (fun subcarrier q =>
    cfor 257 (fun i => i + 1) (fun antenna => antenna <? nr st) (fun antenna q =>
      q ← self_sprintf max_len q (row_head st csi_status_id antenna subcarrier);
      q ← cfor 257 (fun i => i + 1) (fun n => n <? nc st) (fun n q =>
            c ← matrix_get csi_matrix antenna n subcarrier;
            self_sprintf max_len q (row_cell c)) 0 q;
      strcat max_len q (row_end st antenna subcarrier)) 0 q) 0 q.

Definition save_csi_matrix (conn : option DB) (csi_status_id : Z) (st : csi_struct)
    (csi_matrix : list COMPLEX) : M (option DB * Z) :=
  match conn with
  | None => Ok (None, 0)
  | Some db =>
      insert_query ← matrix_query csi_status_id st csi_matrix;
      let '(db, res) := PQexec db insert_query in
      if decide (PQresultStatus res <> PGRES_COMMAND_OK) then Ok (pg_close (Some db), 0)
      else Ok (Some db, 1)
  end.

Definition save_csi (conn : option DB) (st : csi_struct) (csi_matrix : list COMPLEX)
    : M (option DB * Z) :=
  '(conn, csi_status_id) ← save_csi_status conn st;
  if csi_status_id =? 0 then Ok (conn, 0) else
  '(conn, ok) ← save_csi_matrix conn csi_status_id st csi_matrix;
  if ok =? 0 then Ok (conn, 0) else Ok (conn, 1).
End Persistence.

(** ** csi_fun.c: the status, stamped with the wall clock

    [spec] is what [clock_gettime] returns.  [round(tv_nsec / 1.0e6)] is exact
    on the range of [tv_nsec]: ties are representable and round up.  Without
    [big_endian] the branch taken assigns every field but [csi_len], which
    keeps the value it has in [csi_status]. *)

Definition final_ts (spec : Z * Z) : Z := fst spec * 1000 + (snd spec + 500000) / 1000000.

Definition record_status (big_endian : bool) (spec : Z * Z) (buf_addr : list Z) (cnt : Z)
    (csi_status : csi_struct) : M csi_struct :=
  csi_len ← (if is_big_endian big_endian
             then b8 ← rd buf_addr 8; b9 ← rd buf_addr 9; Ok (half b8 b9)
             else Ok (csi_len csi_status));
  b10 ← rd buf_addr 10; b11 ← rd buf_addr 11;
  l2 ← rd buf_addr (cnt - 2); l1 ← rd buf_addr (cnt - 1);
  p0 ← rd buf_addr csi_st_len; p1 ← rd buf_addr (csi_st_len + 1);
  b12 ← rd buf_addr 12; b13 ← rd buf_addr 13; b14 ← rd buf_addr 14; b15 ← rd buf_addr 15;
  b16 ← rd buf_addr 16; b17 ← rd buf_addr 17; b18 ← rd buf_addr 18; b19 ← rd buf_addr 19;
  b20 ← rd buf_addr 20; b21 ← rd buf_addr 21; b22 ← rd buf_addr 22;
  Ok {| tstamp := u64 (final_ts spec); CsiReceive.csi_len := csi_len;
        channel := if is_big_endian big_endian then half b10 b11 else half b11 b10;
        buf_len := if is_big_endian big_endian then half l2 l1 else half l1 l2;
        payload_len := if is_big_endian big_endian then half p0 p1 else half p1 p0;
        phyerr := b12; noise := b13; rate := b14; chanBW := b15; num_tones := b16;
        nr := b17; nc := b18; rssi := b19; rssi_0 := b20; rssi_1 := b21; rssi_2 := b22 |}.

(** ** main.c

    [csi_status] starts with whatever [malloc] returned.  The log is commented
    out in this program. *)

Section Main.
Context {DB : Type} `{!Database DB} (config : pg_config) (overlap : list Z -> list Z) (big_endian : bool).

Record dbprog := mkDbProg {
  conn : option DB; csi_status : csi_struct;
  db_buf_addr : list Z; db_data_buf : list Z; db_csi_matrix : list COMPLEX;
  db_total_msg_cnt : Z; db_quit : Z
}.

(** up to the loop: connect first, then the command line, the device, the tables *)
Definition main_start (argc : Z) (fopen_ok : bool) (fd errno : Z) (malloced : csi_struct)
    : M (Z + dbprog) :=
  '(conn, _) ← pg_connect config;
  if (argc =? 2) && negb fopen_ok then Err NullDeref (* fclose(NULL) *)
  else if 2 <? argc then Ok (inl 0)
  else if fd <? 0 then Ok (inl errno)
  else
    '(conn, _) ← csi_init_table config conn;
    Ok (inr (mkDbProg conn malloced (buf_addr prog_init) (data_buf prog_init) (csi_matrix prog_init) 0 0)).

(** one round: the clock, and what [read] does *)
Definition main_iter (p : dbprog) (ev : (Z * Z) * read_result) : M (Z + dbprog) :=
  if db_quit p =? 1 then Ok (inl 0) else
  let '(buf, cnt) := read_csi_buf (db_buf_addr p) (snd ev) in
  if cnt =? 0 then
    Ok (inr (mkDbProg (conn p) (csi_status p) buf (db_data_buf p) (db_csi_matrix p) (db_total_msg_cnt p) (db_quit p)))
  else
    total ← int_succ (db_total_msg_cnt p);
    st ← record_status big_endian (fst ev) buf cnt (csi_status p);
    '(d, m) ← record_csi_payload buf st (db_data_buf p) (db_csi_matrix p);
    '(conn, _) ← save_csi overlap (conn p) st m;
    Ok (inr (mkDbProg conn st buf d m total (db_quit p))).

Fixpoint main_loop (p : dbprog) (evs : list ((Z * Z) * read_result)) : M (Z + dbprog) :=
  match evs with
  | [] => Ok (inr p)
  | ev :: evs => x ← main_iter p ev;
                 match x with inl code => Ok (inl code) | inr p => main_loop p evs end
  end.
End Main.
Arguments dbprog : clear implicits.

(** ** Lemmas *)

(** *** Digits *)

Lemma count_digits_ok number digits :
  0 < number < 10 ^ 19 -> exists n, count_digits number digits = Ok (n, digits + zlen (udec number)).
Proof.
  intros Hn. unfold count_digits.
  assert (forall fuel number digits, 0 < number < 10 ^ Z.of_nat fuel ->
    exists n, (fix loop (fuel : nat) (number digits : Z) : M (Z * Z) :=
       match fuel with
       | O => Err OutOfFuel
       | S fuel => if 0 <? number then loop fuel (number / 10) (digits + 1) else Ok (number, digits)
       end) (S fuel) number digits = Ok (n, digits + zlen (udec number))) as H;
    [|by apply (H 19%nat)].
  clear. induction fuel as [|fuel IH]; intros number digits Hn; [change (10 ^ Z.of_nat 0) with 1 in Hn; lia|].
  replace (0 <? number) with true by lia.
  rewrite Nat2Z.inj_succ, Z.pow_succ_r in Hn by lia.
  destruct (decide (number < 10)) as [Hlt|Hge].
  - rewrite (Z.div_small number 10) by lia. eexists.
    rewrite (zlen_udec_exact number 1) by (auto with lia; lia). by destruct fuel.
  - assert (0 < number / 10) by (apply Z.div_str_pos; lia).
    assert (number / 10 < 10 ^ Z.of_nat fuel) by (apply Z.div_lt_upper_bound; lia).
    destruct (IH (number / 10) (digits + 1)) as [n ->]; [lia|]. exists n. do 2 f_equal.
    destruct (udec_spec (number / 10)) as (_ & _ & Hl & Hlo & Hhi); [lia|].
    assert (zlen (udec number) = zlen (udec (number / 10)) + 1) as ->; [|lia].
    pose proof (Z.div_mod number 10 ltac:(lia)). pose proof (Z.mod_pos_bound number 10 ltac:(lia)).
    apply zlen_udec_exact; [lia| |].
    + left. replace (zlen (udec (number / 10)) + 1 - 1) with (Z.succ (zlen (udec (number / 10)) - 1)) by lia.
      rewrite Z.pow_succ_r by lia. destruct Hlo as [|Hlo]; [lia|]. rewrite Hlo. change (10 ^ (1 - 1)) with 1. lia.
    + rewrite Z.pow_add_r by lia. change (10 ^ 1) with 10. lia.
Qed.

Lemma long_num_digits_ok number :
  - 2 ^ 63 < number < 2 ^ 63 -> long_num_digits number = Ok (zlen (dec number)).
Proof.
  intros Hn. assert (2 ^ 63 < 10 ^ 19) by done. unfold long_num_digits, dec, LONG_MIN.
  destruct (Z.ltb_spec number 0).
  - replace (number =? - 2 ^ 63) with false by lia. rewrite bind_ok.
    replace (number * -1 =? 0) with false by lia. replace (number * -1) with (- number) by lia.
    destruct (count_digits_ok (- number) 1) as [n ->]; [lia|]. by autorewrite with arr.
  - rewrite bind_ok. destruct (Z.eqb_spec number 0) as [->|]; [done|].
    destruct (count_digits_ok number 0) as [m ->]; [lia|]. done.
Qed.

(** *** The text of a matrix *)

Lemma zlen_quoted_cons v vs : zlen (quoted (v :: vs)) = 3 + zlen v + zlen (quoted vs).
Proof.
  change (quoted (v :: vs)) with ((str ",'" ++ v ++ str "'") ++ quoted vs). rewrite !zlen_app.
  change (zlen (str ",'")) with 2. change (zlen (str "'")) with 1. lia.
Qed.

Lemma zlen_quoted_nil : zlen (quoted []) = 0.
Proof. done. Qed.

(** *** The statement the database is to get *)

Definition sql_values (vs : list Z) : list Z := concat ((fun v => str ",'" ++ dec v ++ str "'") <$> vs).
Definition sql_row (vs : list Z) : list Z := str " (DEFAULT" ++ sql_values vs ++ str ")".
Fixpoint join_rows (rows : list (list Z)) : list Z :=
  match rows with
  | [] => []
  | [r] => r
  | r :: rows => r ++ str "," ++ join_rows rows
  end.
Definition insert_statement (rows : list (list Z)) : list Z :=
  str "INSERT INTO csi_data VALUES" ++ join_rows (sql_row <$> rows) ++ str ";".

(** the columns rc_n_real, rc_n_imag, rc_n_rssi of a transmit antenna *)
Definition cell_numbers (c : COMPLEX) : list Z := [real c; imag c; 0].
(** timestamp_milli, status_id, antenna, subcarrier, and the cells of
    [csi_matrix[antenna][0 ...][subcarrier]] *)
Definition row_numbers (id ts tx : Z) (m : list COMPLEX) (k a : Z) : list Z :=
  [ts; id; a + 1; k + 1] ++
  concat ((fun n => cell_numbers (nth (Z.to_nat ((a * 3 + n) * 114 + k)) m (mkComplex 0 0))) <$> seqZ 0 tx).
Definition insert_rows (id ts tones rx tx : Z) (m : list COMPLEX) : list (list Z) :=
  (fun '(k, a) => row_numbers id ts tx m k a) <$> (k ← seqZ 0 tones; a ← seqZ 0 rx; [(k, a)]).

Definition cell_small (c : COMPLEX) : Prop := -512 <= real c < 512 /\ -512 <= imag c < 512.

Lemma zlen_dec_small n : -512 <= n < 512 -> zlen (dec n) <= 4.
Proof.
  intros. pose proof (zlen_dec n 3 ltac:(lia) ltac:(lia)) as Hz. destruct (n <? 0); lia.
Qed.

Lemma zlen_row_cell c : cell_small c -> zlen (row_cell c) <= 18.
Proof.
  intros [Hr Hi]. unfold row_cell. rewrite !zlen_quoted_cons, zlen_quoted_nil.
  pose proof (zlen_dec_small _ Hr). pose proof (zlen_dec_small _ Hi).
  change (zlen (dec 0)) with 1. lia.
Qed.

Lemma zlen_row_head st id a k :
  0 <= tstamp st < 2 ^ 64 -> - 2 ^ 31 <= id < 2 ^ 31 -> 0 <= a < 3 -> 0 <= k < 114 ->
  zlen (row_head st id a k) <= 56.
Proof.
  intros Ht Hid Ha Hk. unfold row_head. rewrite zlen_app, !zlen_quoted_cons, zlen_quoted_nil.
  change (zlen (str " (DEFAULT")) with 9.
  pose proof (zlen_udec (tstamp st) 20 ltac:(lia) ltac:(lia)).
  pose proof (zlen_dec id 10 ltac:(lia) ltac:(lia)) as Hdi.
  pose proof (zlen_dec (a + 1) 1 ltac:(lia) ltac:(lia)) as Hda.
  pose proof (zlen_dec (k + 1) 3 ltac:(lia) ltac:(lia)) as Hdk.
  destruct (id <? 0); destruct (Z.ltb_spec (a + 1) 0); destruct (Z.ltb_spec (k + 1) 0); lia.
Qed.

Section MatrixText.
Context (overlap : list Z -> list Z) (Hoverlap : forall q, overlap q = q).
Context (id : Z) (st : csi_struct) (m : list COMPLEX).
Context (Hid : - 2 ^ 31 <= id < 2 ^ 31) (Ht : 0 <= tstamp st < 2 ^ 64).
Context (Hnr : 0 <= nr st <= 3) (Hnc : 0 <= nc st <= 3) (Hnt : 0 <= num_tones st <= 114).
Context (Hm : zlen m = MATRIX_CELLS) (Hsmall : Forall cell_small m).

Definition cell_at (a n k : Z) : COMPLEX :=
  match matrix_get m a n k with Ok c => c | Err _ => mkComplex 0 0 end.

Lemma cell_at_ok a n k :
  0 <= a < 3 -> 0 <= n < 3 -> 0 <= k < 114 ->
  matrix_get m a n k = Ok (cell_at a n k) /\ cell_small (cell_at a n k).
Proof.
  intros Ha Hn Hk. unfold cell_at.
  destruct (matrix_get_ok m a n k) as [c E]; [done|unfold in_matrix, CSI_NR, CSI_NC, CSI_MAX_SUBCARRIERS; lia|].
  rewrite E. split; [done|]. unfold matrix_get in E. destruct (in_matrix a n k); [|done].
  pose proof (rd_Ok_range _ _ _ E). apply rd_lookup in E; [|lia]. by eapply Forall_lookup_1.
Qed.

Definition row (p : Z * Z) : list Z :=
  let '(k, a) := p in
  row_head st id a k ++ concat ((fun n => row_cell (cell_at a n k)) <$> seqZ 0 (nc st)).
Definition closed (p : Z * Z) : list Z := row p ++ row_end st (snd p) (fst p).

(** positions of the rows, in the order of the loops *)
Definition row_of (k a : Z) : list (Z * Z) := (fun a => (k, a)) <$> seqZ 0 a.
Definition positions (k : Z) : list (Z * Z) := k ← seqZ 0 k; row_of k (nr st).

Lemma seqZ_snoc k : 0 <= k -> seqZ 0 (k + 1) = seqZ 0 k ++ [k].
Proof. intros. rewrite seqZ_app by lia. by rewrite Z.add_0_l. Qed.

Lemma row_of_snoc k a : 0 <= a -> row_of k (a + 1) = row_of k a ++ [(k, a)].
Proof. intros. unfold row_of. by rewrite seqZ_snoc, fmap_app by lia. Qed.

Lemma positions_snoc k : 0 <= k -> positions (k + 1) = positions k ++ row_of k (nr st).
Proof. intros. unfold positions. rewrite seqZ_snoc, bind_app by lia. simpl. by rewrite app_nil_r. Qed.

Definition prefix : list Z := str "INSERT INTO csi_data VALUES".
Definition text (ps : list (Z * Z)) : list Z := prefix ++ concat (closed <$> ps).

Lemma text_snoc ps p : text (ps ++ [p]) = text ps ++ closed p.
Proof.
  unfold text. rewrite fmap_app, concat_app. change (concat (closed <$> [p])) with (closed p ++ []).
  by rewrite app_nil_r, app_assoc.
Qed.

Lemma max_len_room j :
  0 < num_tones st * nr st -> 0 <= j <= num_tones st * nr st ->
  27 + 112 * j + 1 <= 27 + num_tones st * nr st * 122.
Proof. lia. Qed.

Lemma strcat_ok max_len q t : zlen q + zlen t + 1 <= max_len -> strcat max_len q t = Ok (q ++ t).
Proof. intros. unfold strcat. apply sprintf_ok. autorewrite with arr. lia. Qed.
Lemma append_ok max_len q t : zlen q + zlen t + 1 <= max_len -> self_sprintf overlap max_len q t = Ok (q ++ t).
Proof. unfold self_sprintf. rewrite Hoverlap. apply strcat_ok. Qed.

(** one row: the head, a cell per transmit antenna, the end *)
Lemma row_appended max_len q k a :
  0 <= k < num_tones st -> 0 <= a < nr st -> zlen q + 112 + 1 <= max_len ->
  (q ← self_sprintf overlap max_len q (row_head st id a k);
   q ← cfor 257 (fun i => i + 1) (fun n => n <? nc st) (fun n q =>
         c ← matrix_get m a n k; self_sprintf overlap max_len q (row_cell c)) 0 q;
   strcat max_len q (row_end st a k)) = Ok (q ++ closed (k, a)) /\ zlen (closed (k, a)) <= 112.
Proof.
  intros Hk Ha Hq. pose proof (zlen_row_head st id a k Ht Hid ltac:(lia) ltac:(lia)) as Hh.
  assert (zlen (row_end st a k) = 2) as He by (unfold row_end; by destruct (_ && _)).
  set (cells n := concat ((fun n => row_cell (cell_at a n k)) <$> seqZ 0 n)).
  rewrite append_ok, bind_ok by lia.
  edestruct (cfor_inv (fun n q' => q' = q ++ row_head st id a k ++ cells n /\ zlen (cells n) <= 18 * n)
    (fun i => i + 1) (fun n => n <? nc st)
    (fun n q => c ← matrix_get m a n k; self_sprintf overlap max_len q (row_cell c)) (nc st) 257 0
    (q ++ row_head st id a k)) as (q' & -> & -> & Hl); try lia.
  - intros n q' Hn (-> & Hl). destruct (cell_at_ok a n k) as [-> Hs]; [lia..|].
    pose proof (zlen_row_cell _ Hs). rewrite bind_ok.
    rewrite append_ok by (autorewrite with arr; lia). eexists; split; [done|].
    assert (cells (n + 1) = cells n ++ row_cell (cell_at a n k)) as ->.
    { unfold cells. rewrite seqZ_snoc, fmap_app, concat_app by lia. simpl. by rewrite app_nil_r. }
    autorewrite with arr. split; [by rewrite <- !app_assoc|lia].
  - split; [|done]. unfold cells. simpl. by rewrite app_nil_r.
  - rewrite bind_ok. rewrite strcat_ok by (autorewrite with arr; lia).
    unfold closed, row. fold (cells (nc st)). simpl fst; simpl snd. autorewrite with arr.
    split; [by rewrite <- !app_assoc|lia].
Qed.

Lemma matrix_query_text :
  0 < num_tones st * nr st -> matrix_query overlap id st m = Ok (text (positions (num_tones st))).
Proof.
  intros HN. unfold matrix_query. set (max_len := 27 + _).
  rewrite sprintf_ok, bind_ok by (change (zlen (str "INSERT INTO csi_data VALUES")) with 27; lia).
  edestruct (cfor_inv (fun k q => q = text (positions k) /\ zlen q <= 27 + 112 * (k * nr st)))
    with (n := num_tones st) (next := fun i : Z => i + 1) (i := 0) as (q & E & Hq & _); cycle -1.
  { rewrite Hq in E. exact E. }
  all: try lia; try done.
  intros k q Hk (-> & Hl).
  edestruct (cfor_inv (fun a q => q = text (positions k ++ row_of k a) /\ zlen q <= 27 + 112 * (k * nr st + a)))
    with (n := nr st) (next := fun i : Z => i + 1) (i := 0) as (q & E & Hq & Hlq); cycle -1.
  { exists q. split; [exact E|]. rewrite Hq. rewrite positions_snoc by lia. rewrite Hq in Hlq. split; [done|lia]. }
  all: try lia; try done.
  - intros a q Ha (-> & Hl').
    assert (k * nr st + a + 1 <= num_tones st * nr st) by nia.
    destruct (row_appended max_len (text (positions k ++ row_of k a)) k a) as [E Hc]; [lia..|].
    exists (text (positions k ++ row_of k a) ++ closed (k, a)). split; [exact E|].
    rewrite row_of_snoc, app_assoc, text_snoc by lia. autorewrite with arr. split; [done|lia].
  - split; [|lia]. unfold row_of. simpl. by rewrite app_nil_r.
Qed.

(** rows separated by commas, the last followed by a semicolon *)
Fixpoint values_text (rows : list (list Z)) : list Z :=
  match rows with
  | [] => []
  | [r] => r ++ str ");"
  | r :: rows => r ++ str ")," ++ values_text rows
  end.

Lemma values_text_snoc rows r :
  values_text (rows ++ [r]) = concat ((fun r => r ++ str "),") <$> rows) ++ r ++ str ");".
Proof.
  induction rows as [|r0 rows IH]; [done|].
  change (concat _) with ((r0 ++ str "),") ++ concat ((fun r => r ++ str "),") <$> rows)).
  rewrite <- !app_assoc, <- IH. simpl. destruct (rows ++ [r]) eqn:E; [by destruct rows|done].
Qed.

Lemma text_values :
  0 < num_tones st * nr st ->
  text (positions (num_tones st)) = prefix ++ values_text (row <$> positions (num_tones st)).
Proof.
  intros HN. unfold text. f_equal.
  assert (0 < num_tones st /\ 0 < nr st) as [Hk Ha] by nia.
  replace (num_tones st) with (num_tones st - 1 + 1) by lia. rewrite positions_snoc by lia.
  replace (row_of (num_tones st - 1) (nr st)) with
    (row_of (num_tones st - 1) (nr st - 1) ++ [(num_tones st - 1, nr st - 1)])
    by (rewrite <- row_of_snoc by lia; f_equal; lia).
  rewrite app_assoc, !fmap_app. simpl. rewrite values_text_snoc, concat_app. simpl. rewrite app_nil_r.
  f_equal.
  - rewrite <- !fmap_app, <- list_fmap_compose. f_equal. apply list_fmap_ext. intros i [k a] Hin. simpl.
    unfold closed, row_end. simpl.
    apply list_elem_of_lookup_2, elem_of_app in Hin as [Hin|Hin].
    + unfold positions in Hin. apply list_elem_of_bind in Hin as (k' & Hin & Hk').
      apply list_elem_of_fmap in Hin as (a' & [= -> ->] & _). apply elem_of_seqZ in Hk'.
      by replace (k' + 1 =? num_tones st) with false by lia.
    + apply list_elem_of_fmap in Hin as (a' & [= -> ->] & Hin). apply elem_of_seqZ in Hin.
      replace (a' + 1 =? nr st) with false by lia. by rewrite andb_false_r.
  - unfold closed, row_end. simpl.
    replace (num_tones st - 1 + 1 =? num_tones st) with true by lia.
    by replace (nr st - 1 + 1 =? nr st) with true by lia.
Qed.

(** *** The statement, from the numbers *)

Lemma dec_nat n : 0 <= n -> dec n = udec n.
Proof. intros H. unfold dec. by replace (n <? 0) with false by lia. Qed.
Lemma sql_values_quoted vs : sql_values vs = quoted (dec <$> vs).
Proof. unfold sql_values, quoted. by rewrite <- list_fmap_compose. Qed.
Lemma quoted_app l1 l2 : quoted (l1 ++ l2) = quoted l1 ++ quoted l2.
Proof. unfold quoted. by rewrite fmap_app, concat_app. Qed.

Lemma cell_at_nth a n k : 0 <= a < 3 -> 0 <= n < 3 -> 0 <= k < 114 ->
  cell_at a n k = nth (Z.to_nat ((a * 3 + n) * 114 + k)) m (mkComplex 0 0).
Proof.
  intros Ha Hn Hk. destruct (cell_at_ok a n k Ha Hn Hk) as [E _]. unfold matrix_get in E.
  destruct (in_matrix a n k); [|done]. rewrite (rd_nth _ _ (mkComplex 0 0)) in E; [by injection E|].
  pose proof (rd_Ok_range _ _ _ E). done.
Qed.

Lemma row_values k a : 0 <= k < 114 -> 0 <= a < 3 ->
  row (k, a) = str " (DEFAULT" ++ sql_values (row_numbers id (tstamp st) (nc st) m k a).
Proof.
  intros Hk Ha. rewrite sql_values_quoted. unfold row, row_head, row_numbers. rewrite <- (dec_nat (tstamp st)) by lia.
  rewrite fmap_app, quoted_app, <- app_assoc. do 2 f_equal.
  assert (forall l, Forall (fun n => 0 <= n < 3) l -> concat ((fun n => row_cell (cell_at a n k)) <$> l) =
    quoted (dec <$> concat ((fun n => cell_numbers (nth (Z.to_nat ((a * 3 + n) * 114 + k)) m (mkComplex 0 0))) <$> l))) as G.
  { induction 1 as [|n l Hn _ IH]; [done|]. cbn [fmap list_fmap concat]. rewrite IH, cell_at_nth by done.
    by rewrite fmap_app, quoted_app. }
  apply G. apply Forall_seqZ. lia.
Qed.

Lemma values_text_join rows : rows <> [] ->
  values_text ((fun vs => str " (DEFAULT" ++ sql_values vs) <$> rows) = join_rows (sql_row <$> rows) ++ str ";".
Proof.
  intros Hne. induction rows as [|r [|r' rows] IH]; [done| |].
  - cbn [fmap list_fmap values_text join_rows]. unfold sql_row. by rewrite <- !app_assoc.
  - change (values_text ((fun vs => str " (DEFAULT" ++ sql_values vs) <$> r :: r' :: rows)) with
      ((str " (DEFAULT" ++ sql_values r) ++ str ")," ++ values_text ((fun vs => str " (DEFAULT" ++ sql_values vs) <$> r' :: rows)).
    rewrite IH by done. change (join_rows (sql_row <$> r :: r' :: rows)) with (sql_row r ++ str "," ++ join_rows (sql_row <$> r' :: rows)).
    unfold sql_row at 2. rewrite <- !app_assoc. done.
Qed.

Lemma positions_pairs : positions (num_tones st) = k ← seqZ 0 (num_tones st); a ← seqZ 0 (nr st); [(k, a)].
Proof.
  reflexivity.
Qed.
Lemma statement_text : 0 < num_tones st * nr st ->
  prefix ++ values_text (row <$> positions (num_tones st)) =
    insert_statement (insert_rows id (tstamp st) (num_tones st) (nr st) (nc st) m).
Proof.
  intros HN. unfold insert_statement, prefix. f_equal. assert (0 < num_tones st /\ 0 < nr st) as [H1 H2] by nia.
  rewrite <- values_text_join.
  - unfold insert_rows. rewrite <- positions_pairs, <- list_fmap_compose. f_equal. apply list_fmap_ext. intros i [k a] Hin.
    apply list_elem_of_lookup_2 in Hin. unfold positions in Hin. apply list_elem_of_bind in Hin as (k' & Hin & Hk').
    apply list_elem_of_fmap in Hin as (a' & [= -> ->] & Ha'). apply elem_of_seqZ in Hk'. apply elem_of_seqZ in Ha'.
    apply row_values; lia.
  - unfold insert_rows. intros E. apply fmap_nil_inv in E. rewrite <- positions_pairs in E.
    assert ((0, 0) ∈ positions (num_tones st)) as Hin; [|rewrite E in Hin; by apply not_elem_of_nil in Hin].
    apply list_elem_of_bind. exists 0. split; [|apply elem_of_seqZ; lia]. apply list_elem_of_fmap. exists 0. split; [done|]. apply elem_of_seqZ; lia.
Qed.
End MatrixText.

(** *** The loop *)

Lemma record_status_csi_len be spec buf cnt st st' :
  record_status be spec buf cnt st = Ok st' -> csi_len st' = csi_len st.
Proof.
  intros E. unfold record_status in E. minv E. rewrite is_big_endian_false in *.
  by match goal with H : Ok (csi_len st) = Ok _ |- _ => injection H as <- end.
Qed.

Lemma save_csi_dead {DB} `{!Database DB} overlap st m : save_csi overlap (None : option DB) st m = Ok (None, 0).
Proof. done. Qed.

Lemma main_iter_keeps {DB} `{!Database DB} overlap be (p : dbprog DB) ev x :
  main_iter overlap be p ev = Ok x -> db_quit p = 0 ->
  exists p', x = inr p' /\ db_quit p' = 0 /\ csi_len (csi_status p') = csi_len (csi_status p) /\
    (conn p = None -> conn p' = None).
Proof.
  intros E Hq. unfold main_iter in E. rewrite Hq in E. simpl in E.
  destruct (read_csi_buf _ _) as [buf cnt]. destruct (cnt =? 0).
  - injection E as <-. by eexists.
  - apply bind_ok_inv in E as (total & _ & E). apply bind_ok_inv in E as (st & Est & E). apply bind_ok_inv in E as ([d m] & _ & E).
    apply bind_ok_inv in E as ([c i] & Es & [= <-]).
    eexists; split; [done|]. simpl. split; [done|]. split; [by eapply record_status_csi_len|].
    intros Hc. rewrite Hc, save_csi_dead in Es. congruence.
Qed.

(** ** Properties *)

(** [long_num_digits] counts the characters printf's %d/%ld prints, sign
    included, for every [long] but LONG_MIN, whose negation overflows; and the
    connection string built on it exactly fills its buffer, terminating NUL
    included, whatever the configured names and [int] port. *)
Theorem pg_connect_fits {DB} `{!Database DB} (config : pg_config) (number : Z)
    (Hnumber : - 2 ^ 63 <= number < 2 ^ 63) (Hport : - 2 ^ 31 <= PG_PORT config < 2 ^ 31) :
  long_num_digits number =
    (if number =? LONG_MIN then Err SignedOverflow else Ok (zlen (dec number))) /\
  pg_connect config =
    (let db := PQconnectdb (connection_string config) in
     if PQstatus_bad db then Ok (None, 0) else Ok (Some db, 1)).
Proof.
  split.
  - destruct (Z.eqb_spec number LONG_MIN) as [->|Hne]; [done|].
    apply long_num_digits_ok. unfold LONG_MIN in Hne. lia.
  - unfold pg_connect, num_digits. rewrite long_num_digits_ok, bind_ok by lia.
    rewrite sprintf_ok; [by rewrite bind_ok; destruct (PQstatus_bad _)|].
    unfold connection_string. rewrite !zlen_app.
    change (zlen (str "user=")) with 5. change (zlen (str " password=")) with 10.
    change (zlen (str " dbname=")) with 8. change (zlen (str " hostaddr=")) with 10.
    change (zlen (str " port=")) with 6. lia.
Qed.

(** C18: the statement [save_csi_matrix] builds, for a matrix of the supported
    size and a C library whose sprintf copies an overlapping string onto itself
    (C leaves it undefined): with at least one row, the text is the INSERT
    statement of one parenthesised row per subcarrier and receive antenna, in that
    order, whose values are the time stamp, the status id, the antenna and the
    subcarrier counted from 1, and for each transmit antenna the real part, the
    imaginary part and 0; and every intermediate string fits the 122 bytes
    allotted per row.  With no row at all the buffer is one byte too short for its
    first sprintf. *)
Theorem matrix_query_correct (overlap : list Z -> list Z) (Hoverlap : forall q, overlap q = q)
    (id : Z) (st : csi_struct) (m : list COMPLEX)
    (Hid : - 2 ^ 31 <= id < 2 ^ 31) (Ht : 0 <= tstamp st < 2 ^ 64)
    (Hnr : 0 <= nr st <= 3) (Hnc : 0 <= nc st <= 3) (Hnt : 0 <= num_tones st <= 114)
    (Hm : zlen m = MATRIX_CELLS) (Hsmall : Forall cell_small m) :
  matrix_query overlap id st m =
    if num_tones st * nr st =? 0 then Err OutOfBounds
    else Ok (insert_statement (insert_rows id (tstamp st) (num_tones st) (nr st) (nc st) m)).
Proof.
  destruct (Z.eqb_spec (num_tones st * nr st) 0) as [H0|].
  - unfold matrix_query. by rewrite H0.
  - rewrite matrix_query_text, text_values, statement_text by (done || nia). done.
Qed.

(** Where sprintf empties its destination first, each overlapping call loses what
    was written before: only the last cell reaches the database. *)
Theorem matrix_query_overlap :
  matrix_query (fun _ => []) 7 (mkCsi 1 2437 0 0 1 1 1 0 0 0 0 0 0 0 0 0) (replicate 1026 (mkComplex 511 (-512))) =
    Ok (str ",'511','-512','0');").
Proof. vm_compute. reflexivity. Qed.

(** [save_csi] on every branch: the status row is inserted first, the id
    the database reports for it is used for the matrix rows, any query that
    fails closes the connection, an id of 0 skips the matrix, and a closed
    connection sends no query. *)
Theorem save_csi_correct {DB} `{!Database DB} (overlap : list Z -> list Z) (db : DB) (st : csi_struct) (m : list COMPLEX)
    (id : Z) (q : list Z) (db1 db2 db3 : DB) (r1 r2 r3 : PGresult)
    (Hid : - 2 ^ 31 <= id < 2 ^ 31) (Hq : matrix_query overlap id st m = Ok q)
    (H1 : PQexec db (status_query st) = (db1, r1))
    (H2 : PQexec db1 select_id_query = (db2, r2)) (Hv : PQgetvalue r2 = Some (dec id))
    (H3 : PQexec db2 q = (db3, r3)) :
  save_csi overlap (Some db) st m =
    Ok (if decide (PQresultStatus r1 <> PGRES_COMMAND_OK) then (None, 0)
        else if decide (PQresultStatus r2 <> PGRES_TUPLES_OK) then (None, 0)
        else if id =? 0 then (Some db2, 0)
        else if decide (PQresultStatus r3 <> PGRES_COMMAND_OK) then (None, 0)
        else (Some db3, 1)) /\
  save_csi overlap (None : option DB) st m = Ok (None, 0).
Proof.
  split; [|done]. unfold save_csi, save_csi_status, create_csi_status_insert_query, snprintf. cbn [fst snd].
  rewrite take_ge by (unfold zlen; lia). rewrite H1.
  destruct (decide (PQresultStatus r1 <> PGRES_COMMAND_OK)); [done|].
  rewrite H2. destruct (decide (PQresultStatus r2 <> PGRES_TUPLES_OK)); [done|].
  rewrite Hv, atoi_dec, !bind_ok by done. destruct (id =? 0); [done|].
  unfold save_csi_matrix. rewrite Hq, bind_ok, H3.
  by destruct (decide (PQresultStatus r3 <> PGRES_COMMAND_OK)).
Qed.

(** What the status decoder of this program shares with recvCSIToFile's:
    on any full buffer the two succeed together and agree on every field but
    two.  The time stamp is the wall clock in milliseconds, and [csi_len] is not
    read from the report: it keeps the value the struct had, so through any run
    of the receive loop it is the value [malloc] left there.  A connection once
    lost stays lost while the loop goes on. *)
Theorem db_status_and_loop {DB} `{!Database DB} (overlap : list Z -> list Z) (big_endian : bool) (wide_shl : Z -> Z -> Z)
    (spec : Z * Z) (buf : list Z) (cnt : Z) (old : csi_struct) (p : dbprog DB)
    (evs : list ((Z * Z) * read_result)) (Hlen : zlen buf = BUFSIZE) (Hquit : db_quit p = 0) :
  record_status big_endian spec buf cnt old =
    (st ← CsiReceive.record_status big_endian wide_shl buf cnt;
     Ok {| tstamp := u64 (final_ts spec); csi_len := csi_len old; channel := channel st;
           buf_len := buf_len st; payload_len := payload_len st; phyerr := phyerr st; noise := noise st;
           rate := rate st; chanBW := chanBW st; num_tones := num_tones st; nr := nr st; nc := nc st;
           rssi := rssi st; rssi_0 := rssi_0 st; rssi_1 := rssi_1 st; rssi_2 := rssi_2 st |}) /\
  forall x, main_loop overlap big_endian p evs = Ok x ->
    exists p', x = inr p' /\ csi_len (csi_status p') = csi_len (csi_status p) /\
      (conn p = None -> conn p' = None).
Proof.
  split.
  - unfold record_status, CsiReceive.record_status, csi_st_len. rewrite is_big_endian_false, bind_ok.
    assert (forall i, 0 <= i < 4096 -> exists b, rd buf i = Ok b) as Hrd
      by (intros; apply rd_in_range; by rewrite Hlen).
    do 10 (match goal with |- _ = (rd buf ?i ≫= _) ≫= _ =>
      let E := fresh "E" in destruct (Hrd i ltac:(lia)) as [? E]; rewrite E, bind_ok; clear E end).
    repeat match goal with |- (rd buf ?i ≫= _) = _ =>
      destruct (rd buf i); [rewrite !bind_ok|reflexivity] end.
    reflexivity.
  - revert p Hquit. induction evs as [|ev evs IH]; intros p Hquit x E; simpl in E.
    + injection E as <-. by exists p.
    + apply bind_ok_inv in E as (y & Ey & E).
      destruct (main_iter_keeps _ _ _ _ _ Ey Hquit) as (p1 & -> & Hq1 & Hc1 & Hn1).
      destruct (IH p1 Hq1 x E) as (p2 & -> & Hc2 & Hn2).
      exists p2. split; [done|]. split; [congruence|auto].
Qed.

(** ** The properties at concrete inputs *)

(** a database that counts its queries and answers every SELECT with id 7 *)
#[export] Instance counting_database : Database nat := {
  PQconnectdb _ := 0%nat;
  PQstatus_bad _ := false;
  PQexec n q := (S n, if decide (q = select_id_query) then mkResult PGRES_TUPLES_OK (Some (dec 7))
                      else mkResult PGRES_COMMAND_OK None)
}.

Lemma pg_connect_fits_witness :
  long_num_digits (-1234) = Ok 5 /\ pg_connect default_config = Ok (Some 0%nat, 1).
Proof.
  destruct (pg_connect_fits (DB := nat) default_config (-1234)) as [H1 H2]; [lia|simpl; lia|].
  split; [exact H1|exact H2].
Defined.

Definition sample_db_matrix : list COMPLEX := replicate 1026 (mkComplex 511 (-512)).

Lemma sample_db_matrix_small : Forall cell_small sample_db_matrix.
Proof. apply Forall_replicate. unfold cell_small. simpl. lia. Qed.

(** two transmit antennas with different cells *)
Lemma matrix_query_correct_witness :
  matrix_query id 7 (mkCsi 1 2437 0 0 1 2 1 0 0 0 0 0 0 0 0 0) (mkComplex 5 (-6) :: replicate 1025 (mkComplex 511 (-512))) =
    Ok (str "INSERT INTO csi_data VALUES (DEFAULT,'1','7','1','1','5','-6','0','511','-512','0');").
Proof.
  rewrite (matrix_query_correct id (fun q => eq_refl) 7 (mkCsi 1 2437 0 0 1 2 1 0 0 0 0 0 0 0 0 0)
      (mkComplex 5 (-6) :: replicate 1025 (mkComplex 511 (-512))));
    [reflexivity|lia|simpl; lia|simpl; lia|simpl; lia|simpl; lia|reflexivity|].
  constructor; [unfold cell_small; simpl; lia|]. apply Forall_replicate. unfold cell_small. simpl. lia.
Defined.

Definition sample_query : list Z :=
  match matrix_query id 7 sample_status sample_db_matrix with Ok q => q | Err _ => [] end.

Lemma save_csi_correct_witness :
  save_csi id (Some 0%nat) sample_status sample_db_matrix = Ok (Some 3%nat, 1).
Proof.
  destruct (save_csi_correct id 0%nat sample_status sample_db_matrix 7 sample_query 1%nat 2%nat 3%nat
    (mkResult PGRES_COMMAND_OK None) (mkResult PGRES_TUPLES_OK (Some (dec 7))) (mkResult PGRES_COMMAND_OK None))
    as [H _]; [lia|vm_compute; reflexivity|vm_compute; reflexivity|vm_compute; reflexivity|reflexivity
    |vm_compute; reflexivity|exact H].
Defined.

Lemma db_status_and_loop_witness :
  exists p, main_loop id false (mkDbProg (Some 0%nat) (mkCsi 0 0 0 0 0 0 0 0 0 0 0 0 0 0 9 0)
      (buf_addr prog_init) (data_buf prog_init) (csi_matrix prog_init) 0 0)
      [((1, 0), ReadBytes sample_report)] = Ok (inr p) /\ csi_len (csi_status p) = 9.
Proof.
  destruct (db_status_and_loop (DB := nat) id false (fun _ _ => 0) (1, 0) sample_buf 35 sample_status
    (mkDbProg (Some 0%nat) (mkCsi 0 0 0 0 0 0 0 0 0 0 0 0 0 0 9 0)
      (buf_addr prog_init) (data_buf prog_init) (csi_matrix prog_init) 0 0)
    [((1, 0), ReadBytes sample_report)] eq_refl eq_refl) as [_ H].
  destruct (main_loop _ _ _ _) as [x|e] eqn:E; [|vm_compute in E; discriminate E].
  destruct (H x eq_refl) as (p & -> & Hc & _). exists p. split; [reflexivity|exact Hc].
Defined.
