(* ===== verification/ReadBfee.v ===== *)
(** * matlab/read_bfee.c: the beamforming report of the Intel tool

    The second decoder of the MATLAB directory: 30 subcarriers, each a 3-bit
    gap followed by 8-bit real and imaginary parts per antenna pair, packed
    without alignment. *)

From S2P Require Import Prelude CsiDecode.
Import ReadCsi (csi_out, ptrR, ptrI, csiR, csiI, mxCreate, push_imag, push_real).

Record bfee := mkBfee {
  timestamp_low : Z; bfee_count : Z; Nrx : Z; Ntx : Z;
  rssi_a : Z; rssi_b : Z; rssi_c : Z; noise : Z; agc : Z;
  perm : list Z; rate : Z; csi : csi_out
}.

Inductive bfee_error := WrongSize | WrongNrhs | WrongNlhs | NotBytes.

(** a signed char *)
Definition i8 (x : Z) : Z := to_signed 8 x.

Definition calc_len (Nrx Ntx : Z) : Z := u32 (30 * (Nrx * Ntx * 8 * 2 + 3) + 7) / 8.

(** [tmp = (payload[k] >> remainder) | (payload[k+1] << (8-remainder))] *)
Definition unaligned (payload : list Z) (k remainder : Z) : M Z :=
  b0 ← rd payload k; b1 ← rd payload (k + 1);
  Ok (i8 (Z.lor (Z.shiftr b0 remainder) (Z.shiftl b1 (8 - remainder)))).

(** the loop over antenna pairs; [index] is the bit position *)
Definition pair_body (payload : list Z) (remainder : Z) (s : Z * csi_out) : M (Z * csi_out) :=
  let '(index, o) := s in
  tmp ← unaligned payload (index / 8) remainder;
  o ← push_real o tmp;
  tmp ← unaligned payload (index / 8 + 1) remainder;
  o ← push_imag o tmp;
  Ok (u32 (index + 16), o).

Definition read_csi_bits (payload : list Z) (n : Z) (o : csi_out) : M (Z * csi_out) :=
  cfor 31 (fun i => u32 (i + 1)) (fun i => i <? 30) (fun _ s =>
    let index := u32 (fst s + 3) in
    let remainder := index mod 8 in
    cfor (S (Z.to_nat n)) (fun j => u32 (j + 1)) (fun j => j <? n)
      (fun _ s => pair_body payload remainder s) 0 (index, snd s)) 0 (0, o).

(** shifts are on [int]; the conversion to unsigned wraps *)
Definition read_bfee (inBytes : list Z) : M (bfee_error + bfee) :=
  b0 ← rd inBytes 0; b1 ← rd inBytes 1; b2 ← rd inBytes 2; b3 ← rd inBytes 3;
  b4 ← rd inBytes 4; b5 ← rd inBytes 5; b8 ← rd inBytes 8; b9 ← rd inBytes 9;
  b10 ← rd inBytes 10; b11 ← rd inBytes 11; b12 ← rd inBytes 12; b13 ← rd inBytes 13;
  b14 ← rd inBytes 14; b15 ← rd inBytes 15; b16 ← rd inBytes 16; b17 ← rd inBytes 17;
  b18 ← rd inBytes 18; b19 ← rd inBytes 19;
  let timestamp_low := u32 (b0 + Z.shiftl b1 8 + Z.shiftl b2 16 + i32 (Z.shiftl b3 24)) in
  let len := b16 + Z.shiftl b17 8 in
  if negb (len =? calc_len b8 b9) then Ok (inl WrongSize) else
  let payload := drop 20 inBytes in
  '(_, o) ← read_csi_bits payload (b8 * b9) (mxCreate (b9 * b8 * 30));
  Ok (inr (mkBfee timestamp_low (u16 (b4 + Z.shiftl b5 8)) b8 b9 b10 b11 b12 (i8 b13) b14
    [Z.land b15 3 + 1; Z.land (Z.shiftr b15 2) 3 + 1; Z.land (Z.shiftr b15 4) 3 + 1]
    (b18 + Z.shiftl b19 8) o)).

Definition bfee_gateway (nlhs nrhs : Z) (is_uint8 : bool) (inBytes : list Z) : M (bfee_error + bfee) :=
  if negb (nrhs =? 1) then Ok (inl WrongNrhs)
  else if negb (nlhs =? 1) then Ok (inl WrongNlhs)
  else if negb is_uint8 then Ok (inl NotBytes)
  else read_bfee inBytes.

(** ** Abstract reading *)

(** the signed byte at a bit position, and where pair [j] of subcarrier [i] starts *)
Definition bit_byte (bs : list Z) (o : Z) : Z := sext 8 (bits_at (le bs) o 8).
Definition pair_bit (n i j : Z) : Z := 3 * (i + 1) + 16 * (n * i + j).

(** ** Lemmas *)

Lemma i8_sext v : i8 v = sext 8 (v mod 256).
Proof.
  unfold i8, to_signed, sext. change (2 ^ (8 - 1)) with 128. change (2 ^ 8) with 256.
  pose proof (Z.mod_pos_bound v 256 ltac:(lia)).
  destruct (Z.ltb_spec (v mod 256) 128); Z.div_mod_to_equations; lia.
Qed.

(** two neighbouring bytes hold the 8 bits at any offset below 8 *)
Lemma unaligned_ok payload index :
  bytes payload -> 0 <= index -> index / 8 + 1 < zlen payload ->
  unaligned payload (index / 8) (index mod 8) = Ok (bit_byte payload index).
Proof.
  intros Hb Hi Hl. pose proof (Z.mod_pos_bound index 8 ltac:(lia)).
  pose proof (Z.div_mod index 8 ltac:(lia)). assert (0 <= index / 8) by (apply Z.div_pos; lia).
  set (k := index / 8) in *. set (r := index mod 8) in *. unfold unaligned.
  destruct (rd_in_range payload k) as [b0 E0]; [lia|].
  destruct (rd_in_range payload (k + 1)) as [b1 E1]; [lia|].
  rewrite E0, E1, !bind_ok. f_equal. rewrite i8_sext. unfold bit_byte. f_equal.
  pose proof (bytes_rd _ _ _ Hb E0) as Hb0. pose proof (bytes_rd _ _ _ Hb E1) as Hb1. unfold is_byte in *.
  assert (bits_at (le payload) (8 * k) 16 = b0 + 256 * b1) as Hw.
  { change 16 with (8 + 8). rewrite bits_at_split by lia. rewrite (le_byte payload k b0) by done.
    replace (8 * k + 8) with (8 * (k + 1)) by lia. by rewrite (le_byte payload (k + 1) b1). }
  replace index with (8 * k + r) by lia.
  rewrite <- (bits_at_low _ _ 8 (16 - r)) by lia. change (2 ^ 8) with 256.
  rewrite <- (bits_at_high _ _ r 16), Hw by lia. f_equal.
  rewrite Z.shiftr_div_pow2, Z.shiftl_mul_pow2, Z.lor_comm by lia.
  assert (2 ^ r * 2 ^ (8 - r) = 256) as Hp by (rewrite <- Z.pow_add_r by lia; by replace (r + (8 - r)) with 8 by lia).
  assert (0 < 2 ^ r) by (apply Z.pow_pos_nonneg; lia).
  rewrite lor_disjoint; [|lia|split; [by apply Z.div_pos; lia|apply Z.div_lt_upper_bound; lia]].
  replace (b0 + 256 * b1) with (b0 + b1 * 2 ^ (8 - r) * 2 ^ r) by (rewrite <- Hp; ring). rewrite Z.div_add by lia. lia.
Qed.

(** [n] elements of both parts written, as [f] says *)
Definition filled (n size : Z) (f : Z -> Z * Z) (o : csi_out) : Prop :=
  ptrR o = n /\ ptrI o = n /\ zlen (csiR o) = size /\ zlen (csiI o) = size /\
  forall j, 0 <= j < n -> rd (csiR o) j = Ok (fst (f j)) /\ rd (csiI o) j = Ok (snd (f j)).

Lemma filled_push n size f o :
  0 <= n < size -> filled n size f o ->
  exists o', (o ← push_real o (fst (f n)); push_imag o (snd (f n))) = Ok o' /\ filled (n + 1) size f o'.
Proof.
  intros Hn (HR & HI & HlR & HlI & Hf). unfold push_real, push_imag.
  rewrite HR, wr_ok, !bind_ok by lia. simpl. rewrite HI, wr_ok, bind_ok by lia.
  eexists; split; [done|]. unfold filled; simpl. autorewrite with arr. split_and!; try lia.
  intros j Hj. rewrite !rd_lookup by lia. destruct (decide (j = n)) as [->|].
  - rewrite !list_lookup_insert_eq; [done|unfold zlen in *; lia..].
  - rewrite !list_lookup_insert_ne by lia. rewrite <- !rd_lookup by lia. apply Hf. lia.
Qed.

Lemma filled_create n f : 0 <= n -> filled 0 n f (mxCreate n).
Proof.
  intros. unfold filled, mxCreate; simpl. unfold zlen. rewrite !length_replicate. split_and!; try lia.
Qed.

(** what the decoder stores at place [p] of a matrix with [n] antenna pairs *)
Definition pair_value (payload : list Z) (n p : Z) : Z * Z :=
  let index := pair_bit n (p / n) (p mod n) in (bit_byte payload index, bit_byte payload (index + 8)).

Lemma pair_value_at payload n i j :
  0 <= j < n ->
  pair_value payload n (n * i + j) = (bit_byte payload (pair_bit n i j), bit_byte payload (pair_bit n i j + 8)).
Proof.
  intros. unfold pair_value. rewrite (Z.mul_comm n i).
  rewrite Z.div_add_l, (Z.div_small j), Z.add_0_r by lia.
  by rewrite Z.add_comm, Z_mod_plus_full, Z.mod_small by lia.
Qed.

Lemma pair_body_ok payload n i j o :
  bytes payload -> 0 <= i < 30 -> 0 <= j < n -> n < 2 ^ 16 -> zlen payload = 60 * n + 12 ->
  filled (n * i + j) (30 * n) (pair_value payload n) o ->
  exists o', pair_body payload (pair_bit n i 0 mod 8) (pair_bit n i j, o) = Ok (pair_bit n i (j + 1), o') /\
    filled (n * i + (j + 1)) (30 * n) (pair_value payload n) o'.
Proof.
  intros Hb Hi Hj Hn Hlen Hf. assert (n * i <= n * 29) by (apply Z.mul_le_mono_nonneg_l; lia).
  assert (0 <= n * i) by (apply Z.mul_nonneg_nonneg; lia).
  destruct (filled_push (n * i + j) (30 * n) _ o ltac:(lia) Hf) as (o' & E & Hf').
  rewrite pair_value_at in E by done. cbn [fst snd] in E. exists o'.
  replace (n * i + (j + 1)) with (n * i + j + 1) by lia. split; [|done].
  assert (pair_bit n i 0 mod 8 = pair_bit n i j mod 8) as ->.
  { unfold pair_bit. replace (3 * (i + 1) + 16 * (n * i + j)) with (3 * (i + 1) + 16 * (n * i + 0) + 2 * j * 8) by lia.
    by rewrite Z_mod_plus_full. }
  assert (pair_bit n i (j + 1) = pair_bit n i j + 16) as -> by (unfold pair_bit; lia).
  assert (0 <= pair_bit n i j /\ pair_bit n i j / 8 + 2 < zlen payload /\ pair_bit n i j + 16 < 2 ^ 32)
    as (Hpos & Hroom & Hmax) by (unfold pair_bit; Z.div_mod_to_equations; lia).
  set (index := pair_bit n i j) in *. unfold pair_body.
  rewrite unaligned_ok, bind_ok by (done || lia). apply bind_ok_inv in E as (o1 & E1 & E2).
  rewrite E1, bind_ok.
  assert (index / 8 + 1 = (index + 8) / 8) as -> by (Z.div_mod_to_equations; lia).
  assert (index mod 8 = (index + 8) mod 8) as -> by (Z.div_mod_to_equations; lia).
  rewrite unaligned_ok, bind_ok, E2, bind_ok; [|done|lia|Z.div_mod_to_equations; lia].
  by rewrite u32_small by lia.
Qed.

(** the decoder's loops on a payload of exactly the length [calc_len] demands *)
Lemma read_csi_bits_ok payload n :
  bytes payload -> 0 <= n < 2 ^ 16 -> zlen payload = 60 * n + 12 ->
  exists index o, read_csi_bits payload n (mxCreate (n * 30)) = Ok (index, o) /\
    filled (30 * n) (30 * n) (pair_value payload n) o.
Proof.
  intros Hb Hn Hlen. unfold read_csi_bits.
  edestruct (cfor_inv (fun i s => fst s = 3 * i + 16 * (n * i) /\
      filled (n * i) (30 * n) (pair_value payload n) (snd s)))
    with (n := 30) (next := fun i => u32 (i + 1)) (i := 0) as ([index o] & E & _ & Hf); cycle -1.
  { exists index, o. split; [exact E|]. by replace (n * 30) with (30 * n) in Hf by lia. }
  1-2: lia. 1: intros; apply u32_small; lia. 1: done.
  2: { simpl. rewrite !Z.mul_0_r. split; [lia|]. rewrite (Z.mul_comm n 30). apply filled_create. lia. }
  intros i [index o] Hi [Hidx Hf]. cbn [fst snd] in *.
  assert (n * i <= n * 29) by (apply Z.mul_le_mono_nonneg_l; lia).
  assert (0 <= n * i) by (apply Z.mul_nonneg_nonneg; lia). rewrite (u32_small (index + 3)) by lia.
  assert (index + 3 = pair_bit n i 0) as -> by (unfold pair_bit; lia).
  edestruct (cfor_inv (fun j s => fst s = pair_bit n i j /\
      filled (n * i + j) (30 * n) (pair_value payload n) (snd s)))
    with (n := n) (next := fun j => u32 (j + 1)) (i := 0) as ([index' o'] & E & Hi' & Hf'); cycle -1.
  { exists (index', o'). split; [exact E|]. cbn [fst snd] in *. unfold pair_bit in Hi'.
    replace (n * (i + 1)) with (n * i + n) by lia. split; [lia|done]. }
  1-2: lia. 1: intros; apply u32_small; lia. 1: done.
  2: { simpl. rewrite Z.add_0_r. by split. }
  intros j [index' o'] Hj [Hidx' Hf']. cbn [fst snd] in *. subst index'.
  destruct (pair_body_ok payload n i j o') as (o2 & E & Hf2); [done|lia..|done|].
  by exists (pair_bit n i (j + 1), o2).
Qed.

Lemma calc_len_val nrx ntx : 0 <= nrx < 256 -> 0 <= ntx < 256 -> calc_len nrx ntx = 60 * (nrx * ntx) + 12.
Proof.
  intros. assert (0 <= nrx * ntx <= 65025) by nia. unfold calc_len. rewrite u32_small by lia.
  Z.div_mod_to_equations; lia.
Qed.

(** the fixed header of a report of at least 20 bytes *)
Lemma header_reads (l : list Z) :
  20 <= zlen l -> exists b : Z -> Z, forall i, 0 <= i < 20 -> rd l i = Ok (b i).
Proof.
  intros H. exists (fun i => nth (Z.to_nat i) l 0). intros i Hi. apply rd_lookup; [lia|].
  destruct (nth_lookup_or_length l (Z.to_nat i) 0) as [|]; [done|]. unfold zlen in H. lia.
Qed.

Lemma timestamp_val b0 b1 b2 b3 :
  is_byte b0 -> is_byte b1 -> is_byte b2 -> is_byte b3 ->
  u32 (b0 + Z.shiftl b1 8 + Z.shiftl b2 16 + i32 (Z.shiftl b3 24)) = le [b0; b1; b2; b3].
Proof.
  unfold is_byte. intros. rewrite !Z.shiftl_mul_pow2 by lia. simpl le. unfold i32, to_signed, u32.
  change (2 ^ (32 - 1)) with 2147483648. change (2 ^ 32) with 4294967296.
  change (2 ^ 24) with 16777216. change (2 ^ 16) with 65536. change (2 ^ 8) with 256.
  Z.div_mod_to_equations. lia.
Qed.

(** ** Properties *)

(** C19: [read_bfee] decodes a beforming report: a report whose length field is
    not the one its antenna counts demand is refused; one that carries exactly
    that many payload bytes is decoded without a read past its end, and element
    j of subcarrier i holds the signed bytes at its bit position in the payload. *)
Theorem read_bfee_correct (inBytes : list Z) (nrx ntx len : Z)
    (Hbytes : bytes inBytes) (Hrx : rd inBytes 8 = Ok nrx) (Htx : rd inBytes 9 = Ok ntx)
    (Hlen : len = le (slice 16 2 inBytes)) (Hsize : zlen inBytes = 20 + len) :
  let n := nrx * ntx in
  if len =? 60 * n + 12 then
    exists r, read_bfee inBytes = Ok (inr r) /\
      Nrx r = nrx /\ Ntx r = ntx /\ timestamp_low r = le (slice 0 4 inBytes) /\
      forall i j, 0 <= i < 30 -> 0 <= j < n ->
        rd (csiR (csi r)) (n * i + j) = Ok (bit_byte (drop 20 inBytes) (pair_bit n i j)) /\
        rd (csiI (csi r)) (n * i + j) = Ok (bit_byte (drop 20 inBytes) (pair_bit n i j + 8))
  else read_bfee inBytes = Ok (inl WrongSize).
Proof.
  cbv zeta. pose proof (bytes_rd _ _ _ Hbytes Hrx) as Hbrx. pose proof (bytes_rd _ _ _ Hbytes Htx) as Hbtx.
  unfold is_byte in Hbrx, Hbtx. pose proof (header_reads inBytes) as Hr.
  assert (0 <= len) as Hl0 by (subst len; by apply le_range, Forall_take, Forall_drop).
  destruct Hr as (b & Hr); [lia|]. unfold read_bfee.
  assert (forall i n, (i < 20)%nat -> slice i (S n) inBytes = b (Z.of_nat i) :: slice (S i) n inBytes) as Hs
    by (intros; apply slice_cons, Hr; lia).
  rewrite Hrx, Htx, !Hr, !bind_ok by lia.
  assert (b 16 + Z.shiftl (b 17) 8 = len) as ->.
  { rewrite Hlen, !Hs by lia. unfold slice. simpl. rewrite Z.shiftl_mul_pow2 by lia. change (Z.of_nat 16) with 16; change (Z.of_nat 17) with 17. lia. }
  rewrite calc_len_val by done. assert (0 <= nrx * ntx <= 65025) by nia.
  destruct (Z.eqb_spec len (60 * (nrx * ntx) + 12)) as [El|]; [|done]. simpl negb. cbv iota.
  destruct (read_csi_bits_ok (drop 20 inBytes) (nrx * ntx)) as (index & o & E & HR & HI & _ & _ & Hf);
    [by apply bytes_drop|lia|unfold zlen in *; rewrite length_drop; lia|].
  rewrite (Z.mul_comm ntx nrx), E, bind_ok. eexists. split; [done|]. split; [done|]. split; [done|]. split.
  - cbn [timestamp_low]. rewrite !Hs by lia. unfold slice. simpl take. apply timestamp_val.
    all: eapply bytes_rd; [exact Hbytes|apply Hr; lia].
  - intros i j Hi Hj. cbn [csi]. assert (nrx * ntx * i <= nrx * ntx * 29) by (apply Z.mul_le_mono_nonneg_l; lia).
    assert (0 <= nrx * ntx * i) by (apply Z.mul_nonneg_nonneg; lia).
    destruct (Hf (nrx * ntx * i + j)) as [-> ->]; [lia|]. by rewrite pair_value_at.
Qed.

(** a 1x1 report: 72 payload bytes *)
Definition sample_bfee : list Z :=
  [1; 0; 0; 128; 5; 0; 0; 0; 1; 1; 40; 41; 42; 200; 7; 36; 72; 0; 1; 1] ++ replicate 72 0xc1.

Lemma read_bfee_correct_witness :
  exists r, read_bfee sample_bfee = Ok (inr r) /\ timestamp_low r = 0x80000001 /\
    rd (csiR (csi r)) (1 * 29 + 0) = Ok 112.
Proof.
  pose proof (read_bfee_correct sample_bfee 1 1 72) as H. cbv zeta in H.
  destruct H as (r & E & _ & _ & Ht & Hd);
    [by apply (bool_decide_unpack _)|reflexivity|reflexivity|reflexivity|reflexivity|].
  destruct (Hd 29 0) as [HR _]; [lia|lia|].
  exists r. split; [exact E|]. split; [exact Ht|]. exact HR.
Defined.
