(* ===== verification/SendData.v ===== *)
(** * sendData/sendData.c: the packet generator

    The socket calls only print when they fail; the model records what is
    slept and sent, and takes the interface's address as a parameter. *)

From S2P Require Import Prelude CText.

Definition IFNAMSIZ : Z := 16.
Definition BUF_SIZ : Z := 2048.
Definition ETH_P_IP : Z := 0x0800.
Definition default_dest : list Z := [0x00; 0x03; 0x7F; 0xB0; 0x20; 0x20].

(** [sscanf(argv[2], "%x:%x:%x:%x:%x:%x", ...)]: stores what it can match and
    leaves the remaining elements as they are ([None]: not initialised) *)
Fixpoint sscanf_mac (n : nat) (s : list Z) : list (option Z) :=
  match n with
  | O => []
  | S n => match scan_x s with
           | None => replicate (S n) None
           | Some (v, s) =>
               Some v :: match s with
                         | c :: s => if c =? 58 then sscanf_mac n s else replicate n None
                         | [] => replicate n None
                         end
           end
  end.

Definition use (v : option Z) : M Z := match v with Some v => Ok v | None => Err Uninitialised end.

Fixpoint use_all (vs : list (option Z)) : M (list Z) :=
  match vs with [] => Ok [] | v :: vs => x ← use v; xs ← use_all vs; Ok (x :: xs) end.

(** what main does that can be seen from outside *)
Inductive event := Sleep (usec : Z) | SendTo (frame : list Z) (sll_addr : list Z).

(** [for(i=1;i<=1000;i++) sendbuf[tx_len++] = 0xaa] *)
Definition fill_payload (sendbuf : list Z) (tx_len : Z) : M (list Z * Z) :=
  cfor 1001 (fun i => i + 1) (fun i => i <=? 1000)
    (fun _ s => b ← wr (fst s) (snd s) 0xaa; Ok (b, snd s + 1)) 1 (sendbuf, tx_len).

(** the Ethernet header goes to the front of the zeroed buffer *)
Definition build_frame (dst shost : list Z) : M (list Z * Z) :=
  let header := (u8 <$> dst) ++ shost ++ [ETH_P_IP / 256; ETH_P_IP mod 256] in
  fill_payload (header ++ replicate (Z.to_nat (BUF_SIZ - 14)) 0) 14.

(** [for(;Cnt>0;Cnt--) { usleep; sendto }] *)
Definition send_burst (ev : list event) (Cnt : Z) (tr : list event) : M (list event) :=
  cfor (S (Z.to_nat Cnt)) (fun c => c - 1) (fun c => 0 <? c) (fun _ tr => Ok (tr ++ ev)) Cnt tr.

(** [for(;seconds>0;seconds--)] around it: [Cnt] is not set again *)
Definition send_loop (ev : list event) (Cnt seconds : Z) : M (list event) :=
  '(_, tr) ← cfor (S (Z.to_nat seconds)) (fun s => s - 1) (fun s => 0 <? s)
    (fun _ '(Cnt, tr) => tr ← send_burst ev Cnt tr; Ok (Z.min Cnt 0, tr)) seconds (Cnt, []);
  Ok tr.

(** [argv] without the program's name; [shost] is the address SIOCGIFHWADDR gives *)
Definition main (argv : list (list Z)) (shost : list Z) : M (list event) :=
  match argv with
  | [] => Ok []
  | ifName :: args =>
      if IFNAMSIZ <=? zlen ifName then Err OutOfBounds (* strcpy *) else
      let DstAddr := match args with
                     | mac :: _ => sscanf_mac 6 mac
                     | [] => Some <$> default_dest
                     end in
      Cnt ← (match args with _ :: c :: _ => atoi c | _ => Ok 1 end);
      seconds ← (match args with _ :: _ :: s :: _ => atoi s | _ => Ok 1 end);
      dst ← use_all DstAddr;
      '(sendbuf, tx_len) ← build_frame dst shost;
      if Cnt =? 0 then Err DivByZero else
      let wait_time := Z.quot 1000000 Cnt in
      send_loop [Sleep wait_time; SendTo (take (Z.to_nat tx_len) sendbuf) (u8 <$> dst)] Cnt seconds
  end.

(** ** Lemmas *)

Lemma cfor_down {S} (body : Z -> S -> M S) (f : S -> S) fuel i s :
  (Z.to_nat i < fuel)%nat -> (forall j s, 0 < j <= i -> body j s = Ok (f s)) ->
  cfor fuel (fun c => c - 1) (fun c => 0 <? c) body i s = Ok (Nat.iter (Z.to_nat i) f s).
Proof.
  revert i s. induction fuel as [|fuel IH]; intros i s Hf Hb; [lia|]. simpl.
  destruct (Z.ltb_spec 0 i).
  - rewrite Hb, bind_ok, IH by (lia || (intros; apply Hb; lia)). f_equal.
    replace (Z.to_nat i) with (Datatypes.S (Z.to_nat (i - 1))) by lia. by rewrite Nat.iter_succ_r.
  - by replace (Z.to_nat i) with 0%nat by lia.
Qed.

Lemma send_burst_ok ev Cnt tr :
  send_burst ev Cnt tr = Ok (tr ++ concat (replicate (Z.to_nat Cnt) ev)).
Proof.
  unfold send_burst. rewrite (cfor_down _ (fun tr => tr ++ ev)) by (lia || done). f_equal.
  induction (Z.to_nat Cnt) as [|n IH]; [by rewrite app_nil_r|].
  rewrite Nat.iter_succ, IH, <- app_assoc. f_equal.
  clear. induction n as [|n IH]; simpl; [by rewrite app_nil_r|]. by rewrite <- app_assoc, IH.
Qed.

Lemma send_loop_ok ev Cnt seconds :
  send_loop ev Cnt seconds =
    Ok (if 0 <? seconds then concat (replicate (Z.to_nat Cnt) ev) else []).
Proof.
  unfold send_loop.
  rewrite (cfor_down _ (fun s => (Z.min (fst s) 0, snd s ++ concat (replicate (Z.to_nat (fst s)) ev))))
    by (lia || (intros j [c tr] _; by rewrite send_burst_ok)). rewrite bind_ok.
  set (g := fun s : Z * list event => _).
  assert (forall n tr, Nat.iter n g (Z.min Cnt 0, tr) = (Z.min Cnt 0, tr)) as Hfix.
  { induction n as [|n IH]; intros tr; [done|]. rewrite Nat.iter_succ, IH. unfold g; simpl.
    replace (Z.to_nat (Z.min Cnt 0)) with 0%nat by lia. simpl. rewrite app_nil_r. f_equal. lia. }
  destruct (Z.ltb_spec 0 seconds).
  - replace (Z.to_nat seconds) with (S (Z.to_nat (seconds - 1))) by lia.
    rewrite Nat.iter_succ_r. unfold g at 2. simpl. by rewrite Hfix.
  - by replace (Z.to_nat seconds) with 0%nat by lia.
Qed.

Lemma fill_payload_ok hd tl :
  1000 <= zlen tl ->
  fill_payload (hd ++ tl) (zlen hd) = Ok (hd ++ replicate 1000 0xaa ++ drop 1000 tl, zlen hd + 1000).
Proof.
  intros Hl. unfold fill_payload.
  edestruct (cfor_inv (fun i s => s = (hd ++ replicate (Z.to_nat (i - 1)) 0xaa ++ drop (Z.to_nat (i - 1)) tl, zlen hd + (i - 1)))
    (fun i => i + 1) (fun i => i <=? 1000)
    (fun _ s => b ← wr (fst s) (snd s) 0xaa; Ok (b, snd s + 1)) 1001 1001 1 (hd ++ tl, zlen hd))
    as (s & E & Hs); [lia|lia|lia|lia| | |rewrite E, Hs; done].
  - intros i s Hi ->. cbn [fst snd]. set (n := Z.to_nat (i - 1)).
    assert (drop n tl = nth n tl 0 :: drop (S n) tl) as ->.
    { apply drop_S. destruct (nth_lookup_or_length tl n 0); [done|]. unfold zlen in Hl. lia. }
    rewrite wr_ok by (autorewrite with arr; unfold zlen; rewrite length_replicate; unfold zlen in Hl; lia).
    rewrite bind_ok. eexists; split; [done|]. replace (Z.to_nat (i + 1 - 1)) with (n + 1)%nat by lia.
    rewrite replicate_add. simpl. f_equal; [|lia].
    rewrite insert_app_r_alt by (unfold zlen; lia). f_equal.
    rewrite insert_app_r_alt by (rewrite length_replicate; unfold zlen; lia). rewrite <- app_assoc. f_equal.
    rewrite length_replicate. replace (Z.to_nat (zlen hd + (i - 1)) - length hd - n)%nat with 0%nat by (unfold zlen; lia).
    simpl. by replace (n + 1)%nat with (S n) by lia.
  - rewrite Z.add_0_r. simpl. by rewrite drop_0.
Qed.

(** destination, source, type, and a thousand payload bytes *)
Lemma build_frame_ok dst shost :
  length dst = 6%nat -> length shost = 6%nat ->
  exists buf, build_frame dst shost = Ok (buf, 1014) /\
    take 1014 buf = (u8 <$> dst) ++ shost ++ [8; 0] ++ replicate 1000 0xaa.
Proof.
  intros Hd Hs. unfold build_frame. set (hd := (u8 <$> dst) ++ _).
  assert (length hd = 14%nat) as Hl by (unfold hd; rewrite !length_app, length_fmap, Hd, Hs; done).
  pose proof (fill_payload_ok hd (replicate (Z.to_nat (BUF_SIZ - 14)) 0) ltac:(by vm_compute)) as E.
  assert (zlen hd = 14) as Hz by (unfold zlen; lia). rewrite Hz in E. rewrite E.
  eexists; split; [done|]. rewrite app_assoc, take_app_length'; [|rewrite length_app, length_replicate; lia].
  unfold hd. by rewrite <- !app_assoc.
Qed.

(** octets separated by colons, as printf's "%02x:%02x:..." writes them *)
Fixpoint print_mac (bs : list Z) : list Z :=
  match bs with
  | [] => []
  | [b] => hex2 b
  | b :: bs => hex2 b ++ 58 :: print_mac bs
  end.

Lemma sscanf_print_mac n bs :
  bytes bs -> (0 < length bs <= n)%nat ->
  sscanf_mac n (print_mac bs) = (Some <$> bs) ++ replicate (n - length bs) None.
Proof.
  revert n. induction bs as [|b bs IH]; intros [|n] Hb Hl; simpl in Hl; try lia.
  apply Forall_cons_1 in Hb as [Hb Hbs]. destruct bs as [|b' bs].
  - cbn [print_mac sscanf_mac]. rewrite scan_x_hex2_end by done. simpl. by rewrite Nat.sub_0_r.
  - change (print_mac (b :: b' :: bs)) with (hex2 b ++ 58 :: print_mac (b' :: bs)). cbn [sscanf_mac].
    rewrite scan_x_hex2 by done. change (58 =? 58) with true. cbv iota.
    simpl in Hl. rewrite IH by (done || (simpl; lia)). done.
Qed.

Lemma use_all_some vs : use_all (Some <$> vs) = Ok vs.
Proof.
  induction vs as [|v vs IH]; [done|]. rewrite fmap_cons. cbn [use_all use]. by rewrite bind_ok, IH.
Qed.

Lemma use_all_none vs n : (0 < n)%nat -> use_all ((Some <$> vs) ++ replicate n None) = Err Uninitialised.
Proof.
  intros Hn. induction vs as [|v vs IH]; [by destruct n; [lia|]|].
  rewrite fmap_cons. cbn [app use_all use]. by rewrite bind_ok, IH.
Qed.

(** ** Properties *)

(** C20: [main] of sendData with all four arguments: a destination of six
    octets sends [Cnt] frames, each after a sleep of 1000000/[Cnt] microseconds,
    addressed to it and filled with 1000 bytes 0xaa -- once, whatever positive
    number of seconds is asked for, because the inner loop uses [Cnt] up; 0
    packets divides by zero; and a destination with fewer octets, such as the
    five of the usage message's example, is used uninitialised. *)
Theorem send_data_correct (ifName mac shost : list Z) (Cnt seconds : Z)
    (Hif : zlen ifName < IFNAMSIZ) (Hmac : bytes mac) (Hlen : (0 < length mac <= 6)%nat)
    (Hshost : length shost = 6%nat)
    (Hcnt : - 2 ^ 31 <= Cnt < 2 ^ 31) (Hsec : - 2 ^ 31 <= seconds < 2 ^ 31) :
  main [ifName; print_mac mac; dec Cnt; dec seconds] shost =
    if (length mac <? 6)%nat then Err Uninitialised
    else if Cnt =? 0 then Err DivByZero
    else Ok (if 0 <? seconds then
               concat (replicate (Z.to_nat Cnt)
                 [Sleep (Z.quot 1000000 Cnt); SendTo (mac ++ shost ++ [8; 0] ++ replicate 1000 0xaa) mac])
             else []).
Proof.
  unfold main. replace (IFNAMSIZ <=? zlen ifName) with false by lia.
  rewrite sscanf_print_mac, !atoi_dec, !bind_ok by done. destruct (Nat.ltb_spec (length mac) 6).
  - by rewrite use_all_none by lia.
  - replace (6 - length mac)%nat with 0%nat by lia. rewrite app_nil_r, use_all_some, bind_ok.
    destruct (build_frame_ok mac shost) as (buf & -> & Hbuf); [lia|done|]. rewrite bind_ok.
    destruct (Cnt =? 0); [done|]. change (Z.to_nat 1014) with 1014%nat.
    rewrite send_loop_ok, Hbuf.
    assert (u8 <$> mac = mac) as ->; [|done].
    clear - Hmac. induction Hmac as [|b bs Hb _ IH]; [done|]. rewrite fmap_cons, IH, u8_small; done.
Qed.

(** the usage message's example, corrected to six octets *)
Lemma send_data_correct_witness :
  main [str "wlan0"; str "00:7f:5d:3e:4a:01"; str "2"; str "10"] (replicate 6 9) =
    Ok (concat (replicate 2 [Sleep 500000;
      SendTo ([0; 0x7f; 0x5d; 0x3e; 0x4a; 1] ++ replicate 6 9 ++ [8; 0] ++ replicate 1000 0xaa)
             [0; 0x7f; 0x5d; 0x3e; 0x4a; 1]])) /\
  main [str "wlan0"; str "00:7f:5d:3e:4a"; str "100"; str "10"] (replicate 6 9) = Err Uninitialised.
Proof.
  split.
  - exact (send_data_correct (str "wlan0") [0; 0x7f; 0x5d; 0x3e; 0x4a; 1] (replicate 6 9) 2 10
      eq_refl ltac:(by apply (bool_decide_unpack _)) ltac:(simpl; lia) eq_refl ltac:(lia) ltac:(lia)).
  - exact (send_data_correct (str "wlan0") [0; 0x7f; 0x5d; 0x3e; 0x4a] (replicate 6 9) 100 10
      eq_refl ltac:(by apply (bool_decide_unpack _)) ltac:(simpl; lia) eq_refl ltac:(lia) ltac:(lia)).
Defined.
