(* ===== verification/Base64.v ===== *)
(** * Base64 (src/hostapd-2.5/src/utils/base64.c)

    The two allocating functions on byte lists.  A [size_t] has 64 bits; the
    allocator is the argument [malloc], which says for each size whether it
    succeeds.  The output pointer [pos] is the list of bytes written so far;
    a write at or past the allocated size is an error. *)

From S2P Require Import Prelude CText.

Definition base64_table : list Z :=
  Eval vm_compute in str "ABCDEFGHIJKLMNOPQRSTUVWXYZabcdefghijklmnopqrstuvwxyz0123456789+/".

(** [*pos++ = c] in a buffer of [olen] bytes *)
Definition put (olen : Z) (out : list Z) (c : Z) : M (list Z) :=
  if zlen out <? olen then Ok (out ++ [c]) else Err OutOfBounds.

(** *** base64_encode *)

Definition encoded_size (len : Z) : Z :=
  let olen := u64 (u64 (len * 4) / 3 + 4) in
  let olen := u64 (olen + olen / 72) in
  u64 (olen + 1).

(** the loop over whole blocks: what is left of the input, the output and [line_len] *)
Fixpoint encode_blocks (olen : Z) (inp out : list Z) (line_len : Z) : M (list Z * list Z * Z) :=
  match inp with
  | b0 :: b1 :: b2 :: inp' =>
      c ← rd base64_table (Z.land (Z.shiftr b0 2) 0x3f);
      out ← put olen out c;
      c ← rd base64_table (Z.land (Z.lor (Z.shiftl (Z.land b0 0x03) 4) (Z.shiftr b1 4)) 0x3f);
      out ← put olen out c;
      c ← rd base64_table (Z.land (Z.lor (Z.shiftl (Z.land b1 0x0f) 2) (Z.shiftr b2 6)) 0x3f);
      out ← put olen out c;
      c ← rd base64_table (Z.land b2 0x3f);
      out ← put olen out c;
      if line_len + 4 >=? 72 then
        out ← put olen out 10;
        encode_blocks olen inp' out 0
      else encode_blocks olen inp' out (line_len + 4)
  | _ => Ok (inp, out, line_len)
  end.

(** the one or two bytes left over *)
Definition encode_rest (olen : Z) (inp out : list Z) (line_len : Z) : M (list Z * Z) :=
  match inp with
  | [] => Ok (out, line_len)
  | b0 :: inp' =>
      c ← rd base64_table (Z.land (Z.shiftr b0 2) 0x3f);
      out ← put olen out c;
      out ← match inp' with
            | [] =>
                c ← rd base64_table (Z.land (Z.shiftl (Z.land b0 0x03) 4) 0x3f);
                out ← put olen out c;
                put olen out 61
            | b1 :: _ =>
                c ← rd base64_table (Z.land (Z.lor (Z.shiftl (Z.land b0 0x03) 4) (Z.shiftr b1 4)) 0x3f);
                out ← put olen out c;
                c ← rd base64_table (Z.land (Z.shiftl (Z.land b1 0x0f) 2) 0x3f);
                put olen out c
            end;
      out ← put olen out 61;
      Ok (out, line_len + 4)
  end.

(** the bytes before the terminating NUL, which must fit too; [None] is NULL *)
Definition base64_encode (malloc : Z -> bool) (src : list Z) : M (option (list Z)) :=
  let len := zlen src in
  let olen := encoded_size len in
  if olen <? len then Ok None
  else if negb (malloc olen) then Ok None
  else
    '(inp, out, line_len) ← encode_blocks olen src [] 0;
    '(out, line_len) ← encode_rest olen inp out line_len;
    out ← (if line_len =? 0 then Ok out else put olen out 10);
    _ ← put olen out 0;
    Ok (Some out).

(** *** base64_decode *)

Fixpoint fill_dtable (i : Z) (cs : list Z) (dtable : list Z) : list Z :=
  match cs with
  | [] => dtable
  | c :: cs => fill_dtable (i + 1) cs (<[Z.to_nat c := i]> dtable)
  end.

Definition dtable : list Z :=
  Eval vm_compute in <[61%nat := 0]> (fill_dtable 0 base64_table (replicate 256 0x80)).

Fixpoint count_symbols (count : Z) (src : list Z) : M Z :=
  match src with
  | [] => Ok count
  | c :: src =>
      tmp ← rd dtable c;
      count_symbols (if tmp =? 0x80 then count else count + 1) src
  end.

(** [block] holds the [count] values of the current block *)
Fixpoint decode_loop (olen : Z) (src out block : list Z) (pad : Z) : M (option (list Z)) :=
  match src with
  | [] => Ok (Some out)
  | c :: src =>
      tmp ← rd dtable c;
      if tmp =? 0x80 then decode_loop olen src out block pad
      else
        let pad := if c =? 61 then pad + 1 else pad in
        match block ++ [tmp] with
        | [v0; v1; v2; v3] =>
            out ← put olen out (u8 (Z.lor (Z.shiftl v0 2) (Z.shiftr v1 4)));
            out ← put olen out (u8 (Z.lor (Z.shiftl v1 4) (Z.shiftr v2 2)));
            out ← put olen out (u8 (Z.lor (Z.shiftl v2 6) v3));
            if pad =? 0 then decode_loop olen src out [] pad
            else if pad =? 1 then Ok (Some (take (length out - 1) out))
            else if pad =? 2 then Ok (Some (take (length out - 2) out))
            else Ok None
        | block => decode_loop olen src out block pad
        end
  end.

Definition base64_decode (malloc : Z -> bool) (src : list Z) : M (option (list Z)) :=
  count ← count_symbols 0 src;
  if (count =? 0) || negb (count mod 4 =? 0) then Ok None
  else
    let olen := count / 4 * 3 in
    if negb (malloc olen) then Ok None
    else decode_loop olen src [] [] 0.

(** ** What the encoding is: base-64 digits of 24-bit blocks, in lines of 72 characters *)

Definition sym (d : Z) : Z := nth (Z.to_nat d) base64_table 0.

Fixpoint base64_text (src : list Z) : list Z :=
  match src with
  | b0 :: b1 :: b2 :: src =>
      let v := (b0 * 256 + b1) * 256 + b2 in
      sym (v / 64 ^ 3) :: sym (v / 64 ^ 2 mod 64) :: sym (v / 64 mod 64) :: sym (v mod 64) :: base64_text src
  | [b0; b1] =>
      let v := (b0 * 256 + b1) * 256 in
      [sym (v / 64 ^ 3); sym (v / 64 ^ 2 mod 64); sym (v / 64 mod 64); 61]
  | [b0] =>
      let v := b0 * 256 * 256 in
      [sym (v / 64 ^ 3); sym (v / 64 ^ 2 mod 64); 61; 61]
  | [] => []
  end.

(** [text] from column [col] on, a line feed after every 72nd character and at the end *)
Fixpoint wrap72 (col : Z) (text : list Z) : list Z :=
  match text with
  | [] => if col =? 0 then [] else [10]
  | c :: text => if col + 1 =? 72 then c :: 10 :: wrap72 0 text else c :: wrap72 (col + 1) text
  end.

Definition is_symbol (c : Z) : bool := negb (nth (Z.to_nat c) dtable 0x80 =? 0x80).

(** *** Lemmas *)

Lemma rd_table d : 0 <= d < 64 -> rd base64_table d = Ok (sym d).
Proof. intros. apply rd_nth. change (zlen base64_table) with 64. lia. Qed.

Definition sym_check (d : Z) : bool :=
  (negb (d <? 64)) || ((nth (Z.to_nat (sym d)) dtable 0x80 =? d) && negb (sym d =? 61) && (0 <=? sym d) && (sym d <? 128)).

Lemma sym_spec d : 0 <= d < 64 ->
  rd dtable (sym d) = Ok d /\ sym d <> 61 /\ is_symbol (sym d) = true /\ is_byte (sym d).
Proof.
  intros Hd. assert (sym_check d = true) as H by (apply byte_forall; [by vm_compute|unfold is_byte; lia]).
  unfold sym_check in H. apply orb_prop in H as [H|H]; [lia|].
  rewrite !andb_true_iff, Z.eqb_eq in H. destruct H as (((H & Hn) & Hlo) & Hhi).
  split_and!; [|lia| |unfold is_byte; lia].
  - rewrite <- H at 2. apply rd_nth. change (zlen dtable) with 256. lia.
  - unfold is_symbol. rewrite H. lia.
Qed.

Lemma rd_dtable c : is_byte c -> rd dtable c = Ok (nth (Z.to_nat c) dtable 0x80).
Proof.
  unfold is_byte. intros. apply rd_nth. change (zlen dtable) with 256. lia.
Qed.

Lemma put_ok olen out c : zlen out < olen -> put olen out c = Ok (out ++ [c]).
Proof. intros. unfold put. by replace (zlen out <? olen) with true by lia. Qed.

(** the digits the code extracts with shifts and masks *)
Lemma top_digit b0 r : is_byte b0 -> 0 <= r < 65536 ->
  Z.land (Z.shiftr b0 2) 0x3f = (b0 * 65536 + r) / 64 ^ 3.
Proof.
  unfold is_byte. intros. change 0x3f with (2 ^ 6 - 1). rewrite land_ones_mod, Z.shiftr_div_pow2 by lia.
  change (2 ^ 2) with 4. change (2 ^ 6) with 64. change (64 ^ 3) with 262144.
  Z.div_mod_to_equations; lia.
Qed.

(** a digit that straddles bytes [a] and [b]: [k] low bits of [a], then [6-k] high bits of [b] *)
Lemma mid_digit a b k m : is_byte b -> (k, m) = (2, 0x03) \/ (k, m) = (4, 0x0f) ->
  Z.land (Z.lor (Z.shiftl (Z.land a m) (6 - k)) (Z.shiftr b (2 + k))) 0x3f = (a * 256 + b) / 2 ^ (2 + k) mod 64.
Proof.
  unfold is_byte. intros Hb Hk. change 0x3f with (2 ^ 6 - 1). rewrite land_ones_mod, Z.shiftr_div_pow2, Z.shiftl_mul_pow2 by (intuition (simplify_eq; lia)).
  destruct Hk as [[= -> ->]|[= -> ->]];
    [change 0x03 with (2 ^ 2 - 1)|change 0x0f with (2 ^ 4 - 1)]; rewrite land_ones_mod by lia; simpl Z.sub;
    (rewrite lor_disjoint by (cbn; Z.div_mod_to_equations; lia)); cbn [Z.pow Z.pow_pos Pos.iter Z.mul Pos.mul Z.add Pos.add];
    change (2 ^ 2) with 4; change (2 ^ 4) with 16; change (2 ^ 6) with 64; change (2 ^ (2 + 2)) with 16; change (2 ^ (2 + 4)) with 64;
    Z.div_mod_to_equations; lia.
Qed.

Lemma low_digit a : Z.land a 0x3f = a mod 64.
Proof. change 0x3f with (2 ^ 6 - 1). by rewrite land_ones_mod. Qed.

Lemma list3_ind (P : list Z -> Prop) :
  P [] -> (forall a, P [a]) -> (forall a b, P [a; b]) ->
  (forall a b c l, P l -> P (a :: b :: c :: l)) -> forall l, P l.
Proof.
  intros H0 H1 H2 H3. fix IH 1. intros [|a [|b [|c l]]]; [done|done|done|]. apply H3, IH.
Qed.

Lemma wrap72_block col c0 c1 c2 c3 text : 0 <= col < 72 -> col mod 4 = 0 ->
  wrap72 col (c0 :: c1 :: c2 :: c3 :: text) =
  [c0; c1; c2; c3] ++ (if col + 4 >=? 72 then 10 :: wrap72 0 text else wrap72 (col + 4) text).
Proof.
  intros Hc Hm. cbn [wrap72]. assert (col <= 68) by (Z.div_mod_to_equations; lia).
  replace (col + 1 =? 72) with false by lia. replace (col + 1 + 1 =? 72) with false by lia.
  replace (col + 1 + 1 + 1 =? 72) with false by lia.
  replace (col + 1 + 1 + 1 + 1) with (col + 4) by lia.
  destruct (Z.eqb_spec (col + 4) 72) as [E|E]; [by rewrite E|].
  by replace (col + 4 >=? 72) with false by lia.
Qed.

Lemma zlen_wrap72 col text : 0 <= col < 72 ->
  zlen (wrap72 col text) = zlen text + (col + zlen text + 71) / 72.
Proof.
  revert col. induction text as [|c text IH]; intros col Hc; cbn [wrap72].
  - destruct (Z.eqb_spec col 0) as [->|]; [done|]. change (zlen (@nil Z)) with 0. change (zlen [10]) with 1.
    Z.div_mod_to_equations; lia.
  - pose proof (zlen_nonneg text).
    destruct (Z.eqb_spec (col + 1) 72); autorewrite with arr; rewrite IH by lia;
      Z.div_mod_to_equations; lia.
Qed.

Lemma zlen_base64_text src : zlen (base64_text src) = 4 * ((zlen src + 2) / 3).
Proof.
  induction src as [|a|a b|a b c src IH] using list3_ind; [done..|].
  cbn [base64_text]. autorewrite with arr. rewrite IH. Z.div_mod_to_equations; lia.
Qed.

(** the size computed for the output, wrap-around included *)
Lemma encoded_size_fits len : 0 <= len -> len * 4 < 2 ^ 64 ->
  len <= encoded_size len /\ 4 * ((len + 2) / 3) + (4 * ((len + 2) / 3) + 71) / 72 + 1 <= encoded_size len.
Proof.
  intros H0 H1. change (2 ^ 64) with 18446744073709551616 in H1. unfold encoded_size.
  rewrite (u64_small (len * 4)) by lia.
  rewrite (u64_small (_ + 4)) by (Z.div_mod_to_equations; lia).
  rewrite (u64_small (_ + _ / 72)) by (Z.div_mod_to_equations; lia).
  rewrite u64_small by (Z.div_mod_to_equations; lia).
  split; Z.div_mod_to_equations; lia.
Qed.

Lemma encoded_size_wraps len : 2 ^ 64 <= len * 4 -> len < 2 ^ 64 -> encoded_size len < len.
Proof.
  change (2 ^ 64) with 18446744073709551616. intros H1 H2.
  assert (u64 (len * 4) <= len * 4 - 18446744073709551616) as Hw by (unfold u64; Z.div_mod_to_equations; lia).
  pose proof (u64_range (len * 4)) as Hr. unfold encoded_size.
  revert Hw Hr. generalize (u64 (len * 4)). intros w Hw Hr.
  rewrite (u64_small (_ + 4)) by (Z.div_mod_to_equations; lia).
  rewrite (u64_small (_ + _ / 72)) by (Z.div_mod_to_equations; lia).
  rewrite u64_small by (Z.div_mod_to_equations; lia). Z.div_mod_to_equations; lia.
Qed.

(** the four digits of a block, as the code computes them *)
Lemma block_digits b0 b1 b2 : is_byte b0 -> is_byte b1 -> is_byte b2 ->
  let v := (b0 * 256 + b1) * 256 + b2 in
  Z.land (Z.shiftr b0 2) 0x3f = v / 64 ^ 3 /\
  Z.land (Z.lor (Z.shiftl (Z.land b0 0x03) 4) (Z.shiftr b1 4)) 0x3f = v / 64 ^ 2 mod 64 /\
  Z.land (Z.lor (Z.shiftl (Z.land b1 0x0f) 2) (Z.shiftr b2 6)) 0x3f = v / 64 mod 64 /\
  Z.land b2 0x3f = v mod 64 /\
  0 <= v / 64 ^ 3 < 64.
Proof.
  intros H0 H1 H2 v. pose proof (mid_digit b0 b1 2 0x03 H1 ltac:(by left)) as E1.
  pose proof (mid_digit b1 b2 4 0x0f H2 ltac:(by right)) as E2.
  change (6 - 2) with 4 in E1. change (2 + 2) with 4 in E1. change (6 - 4) with 2 in E2. change (2 + 4) with 6 in E2. rewrite E1, E2, (low_digit b2). clear E1 E2.
  unfold is_byte in *. rewrite (top_digit b0 (b1 * 256 + b2)) by (unfold is_byte; lia). unfold v.
  change (64 ^ 2) with 4096. change (64 ^ 3) with 262144. change (2 ^ 4) with 16. change (2 ^ 6) with 64.
  split_and!; Z.div_mod_to_equations; lia.
Qed.

(** one table lookup or write at the head of the computation *)
Ltac put_step :=
  rewrite ?bind_assoc;
  first [rewrite rd_table by (first [done | apply Z.mod_pos_bound; lia])
        |rewrite put_ok by (autorewrite with arr; lia)];
  rewrite ?bind_ok; cbv beta.

(** the padded end of the text: its characters, then a line feed in column [col + 4 > 0] *)
Ltac encode_finish col Hl :=
  destruct (Z.geb_spec (col + 4) 72); cbn [wrap72] in *;
  try (replace (col + 4 =? 0) with false in * by lia);
  autorewrite with arr in Hl;
  repeat put_step; replace (col + 4 =? 0) with false by lia;
  rewrite <- !app_assoc; reflexivity.

(** the rounds of the encoder, the rest and the last line feed produce the wrapped text *)
Lemma encode_steps olen src out col :
  bytes src -> 0 <= col < 72 -> col mod 4 = 0 ->
  zlen out + zlen (wrap72 col (base64_text src)) < olen ->
  ('(inp, out, line_len) ← encode_blocks olen src out col;
   '(out, line_len) ← encode_rest olen inp out line_len;
   if line_len =? 0 then Ok out else put olen out 10) = Ok (out ++ wrap72 col (base64_text src)).
Proof.
  revert out col. induction src as [|b0|b0 b1|b0 b1 b2 src IH] using list3_ind; intros out col Hb Hc Hm Hl;
    repeat match goal with H : bytes (_ :: _) |- _ => apply Forall_cons_1 in H as [?Hb H] end.
  - cbn in *. destruct (Z.eqb_spec col 0); [by rewrite app_nil_r|].
    rewrite put_ok; [done|]. change (zlen [10]) with 1 in Hl. lia.
  - destruct (block_digits b0 0 0) as (E0 & E1 & _ & _ & Hr); [done|unfold is_byte; lia..|].
    rewrite Z.shiftr_0_l, Z.lor_0_r in E1. rewrite !Z.add_0_r in *.
    cbn [base64_text] in *. rewrite wrap72_block in * by done. cbn [encode_blocks]. rewrite bind_ok. cbn [encode_rest].
    rewrite E0, E1. clear E0 E1. autorewrite with arr in Hl.
    encode_finish col Hl.
  - destruct (block_digits b0 b1 0) as (E0 & E1 & E2 & _ & Hr); [done|done|unfold is_byte; lia..|].
    rewrite Z.shiftr_0_l, Z.lor_0_r in E2. rewrite !Z.add_0_r in *.
    cbn [base64_text] in *. rewrite wrap72_block in * by done. cbn [encode_blocks]. rewrite bind_ok. cbn [encode_rest].
    rewrite E0, E1, E2. clear E0 E1 E2. autorewrite with arr in Hl.
    encode_finish col Hl.
  - destruct (block_digits b0 b1 b2) as (E0 & E1 & E2 & E3 & Hr); [done..|].
    cbn [base64_text] in *. rewrite wrap72_block in * by done. cbn [encode_blocks].
    rewrite E0, E1, E2, E3. clear E0 E1 E2 E3. autorewrite with arr in Hl.
    destruct (Z.geb_spec (col + 4) 72).
    + pose proof (zlen_nonneg (wrap72 0 (base64_text src))). autorewrite with arr in Hl.
      repeat put_step. rewrite IH; [by rewrite <- !app_assoc|done|lia|done|].
      autorewrite with arr. lia.
    + pose proof (zlen_nonneg (wrap72 (col + 4) (base64_text src))).
      repeat put_step. rewrite IH; [by rewrite <- !app_assoc|done|lia|Z.div_mod_to_equations; lia|].
      autorewrite with arr. lia.
Qed.

(** *** Decoding *)

Lemma count_symbols_spec n src : bytes src -> count_symbols n src = Ok (n + zlen (List.filter is_symbol src)).
Proof.
  intros H. revert n. induction H as [|c src Hc _ IH]; intros n; cbn [count_symbols List.filter].
  - rewrite zlen_nil. f_equal. lia.
  - rewrite rd_dtable, bind_ok, IH by done. unfold is_symbol at 2.
    destruct (Z.eqb_spec (nth (Z.to_nat c) dtable 0x80) 0x80); simpl negb; cbv iota; autorewrite with arr; f_equal; lia.
Qed.

(** bytes outside the alphabet are skipped *)
Lemma decode_loop_filter olen src out block pad : bytes src ->
  decode_loop olen src out block pad = decode_loop olen (List.filter is_symbol src) out block pad.
Proof.
  intros H. revert out block pad. induction H as [|c src Hc _ IH]; intros out block pad; [done|].
  cbn [decode_loop List.filter]. rewrite rd_dtable, bind_ok by done. unfold is_symbol at 1.
  destruct (Z.eqb_spec (nth (Z.to_nat c) dtable 0x80) 0x80) as [E|E]; simpl negb; cbv iota; [apply IH|].
  cbn [decode_loop]. rewrite rd_dtable, bind_ok by done.
  replace (nth (Z.to_nat c) dtable 0x80 =? 0x80) with false by lia.
  destruct (block ++ [nth (Z.to_nat c) dtable 0x80]) as [|v0 [|v1 [|v2 [|v3 [|]]]]]; try apply IH.
  repeat (match goal with |- (?m ≫= _) = _ => destruct m as [out'|] end; [rewrite !bind_ok|done]; clear out; rename out' into out).
  destruct ((if c =? 61 then pad + 1 else pad) =? 0); [apply IH|done].
Qed.

Definition pads (c : Z) : Z := if c =? 61 then 1 else 0.

(** the first three symbols of a block are only stored *)
Lemma decode_short olen c v src out block pad :
  (length block < 3)%nat -> rd dtable c = Ok v -> v <> 0x80 ->
  decode_loop olen (c :: src) out block pad = decode_loop olen src out (block ++ [v]) (pad + pads c).
Proof.
  intros Hb E Hv. cbn [decode_loop]. rewrite E, bind_ok. replace (v =? 0x80) with false by lia.
  replace (if c =? 61 then pad + 1 else pad) with (pad + pads c) by (unfold pads; destruct (c =? 61); lia).
  destruct block as [|b0 [|b1 [|b2 [|]]]]; cbn in Hb; [reflexivity..|lia|lia].
Qed.

(** what a block of four symbols does *)
Lemma decode_block olen c0 c1 c2 c3 v0 v1 v2 v3 src out :
  rd dtable c0 = Ok v0 -> rd dtable c1 = Ok v1 -> rd dtable c2 = Ok v2 -> rd dtable c3 = Ok v3 ->
  Forall (fun v => v <> 0x80) [v0; v1; v2; v3] -> zlen out + 3 <= olen ->
  decode_loop olen (c0 :: c1 :: c2 :: c3 :: src) out [] 0 =
  let pad := pads c0 + pads c1 + pads c2 + pads c3 in
  let out := ((out ++ [u8 (Z.lor (Z.shiftl v0 2) (Z.shiftr v1 4))]) ++ [u8 (Z.lor (Z.shiftl v1 4) (Z.shiftr v2 2))])
             ++ [u8 (Z.lor (Z.shiftl v2 6) v3)] in
  if pad =? 0 then decode_loop olen src out [] 0
  else if pad =? 1 then Ok (Some (take (length out - 1) out))
  else if pad =? 2 then Ok (Some (take (length out - 2) out))
  else Ok None.
Proof.
  intros E0 E1 E2 E3 H Ho. repeat (apply Forall_cons_1 in H as [?Hv H]).
  rewrite (decode_short _ _ v0), (decode_short _ _ v1), (decode_short _ _ v2) by (first [done | cbn; lia]).
  cbn [app decode_loop]. rewrite E3, bind_ok. replace (v3 =? 0x80) with false by lia.
  rewrite put_ok, bind_ok by lia. rewrite put_ok, bind_ok by (autorewrite with arr; lia).
  rewrite put_ok, bind_ok by (autorewrite with arr; lia). cbv zeta. rewrite Z.add_0_l.
  replace (if c3 =? 61 then pads c0 + pads c1 + pads c2 + 1 else pads c0 + pads c1 + pads c2)
    with (pads c0 + pads c1 + pads c2 + pads c3) by (unfold pads; destruct (c3 =? 61); lia).
  destruct (Z.eqb_spec (pads c0 + pads c1 + pads c2 + pads c3) 0) as [->|]; reflexivity.
Qed.

(** the bytes of a block from its digits *)
Lemma block_bytes b0 b1 b2 : is_byte b0 -> is_byte b1 -> is_byte b2 ->
  let v := (b0 * 256 + b1) * 256 + b2 in
  u8 (Z.lor (Z.shiftl (v / 64 ^ 3) 2) (Z.shiftr (v / 64 ^ 2 mod 64) 4)) = b0 /\
  u8 (Z.lor (Z.shiftl (v / 64 ^ 2 mod 64) 4) (Z.shiftr (v / 64 mod 64) 2)) = b1 /\
  u8 (Z.lor (Z.shiftl (v / 64 mod 64) 6) (v mod 64)) = b2.
Proof.
  intros H0 H1 H2 v. unfold is_byte, v in *. rewrite !Z.shiftl_mul_pow2, !Z.shiftr_div_pow2 by lia.
  change (64 ^ 3) with 262144. change (64 ^ 2) with 4096.
  rewrite !lor_disjoint by (change (2 ^ 2) with 4; change (2 ^ 4) with 16; change (2 ^ 6) with 64; Z.div_mod_to_equations; lia).
  unfold u8. change (2 ^ 2) with 4. change (2 ^ 4) with 16. change (2 ^ 6) with 64. change (2 ^ 8) with 256.
  split_and!; Z.div_mod_to_equations; lia.
Qed.

Lemma pads_sym d : 0 <= d < 64 -> pads (sym d) = 0.
Proof. intros H. unfold pads. destruct (sym_spec d H) as (_ & Hn & _). by replace (sym d =? 61) with false by lia. Qed.

(** an encoded block, the last two characters of which may be padding *)
Lemma decode_block_text olen b0 b1 b2 c2 c3 src out : is_byte b0 -> is_byte b1 -> is_byte b2 ->
  let v := (b0 * 256 + b1) * 256 + b2 in
  rd dtable c2 = Ok (v / 64 mod 64) -> rd dtable c3 = Ok (v mod 64) -> zlen out + 3 <= olen ->
  decode_loop olen (sym (v / 64 ^ 3) :: sym (v / 64 ^ 2 mod 64) :: c2 :: c3 :: src) out [] 0 =
  let out := out ++ [b0; b1; b2] in
  if pads c2 + pads c3 =? 0 then decode_loop olen src out [] 0
  else if pads c2 + pads c3 =? 1 then Ok (Some (take (length out - 1) out))
  else if pads c2 + pads c3 =? 2 then Ok (Some (take (length out - 2) out))
  else Ok None.
Proof.
  intros H0 H1 H2 v E2 E3 Ho. destruct (block_bytes b0 b1 b2 H0 H1 H2) as (B0 & B1 & B2). fold v in B0, B1, B2.
  destruct (block_digits b0 b1 b2 H0 H1 H2) as (_ & _ & _ & _ & Hr). fold v in Hr.
  assert (forall x, 0 <= x mod 64 < 64) as Hm by (intros; apply Z.mod_pos_bound; lia).
  rewrite (decode_block _ _ _ _ _ _ _ _ _ _ _ (proj1 (sym_spec _ Hr)) (proj1 (sym_spec _ (Hm _))) E2 E3); [|repeat constructor|done].
  - rewrite B0, B1, B2, !pads_sym by done. cbv zeta. rewrite <- !app_assoc. reflexivity.
  - lia.
  - specialize (Hm (v / 64 ^ 2)). lia.
  - specialize (Hm (v / 64)). lia.
  - specialize (Hm v). lia.
Qed.

Lemma rd_pad x : x = 0 -> rd dtable 61 = Ok x.
Proof. by intros ->. Qed.

Lemma decode_text olen src out : bytes src -> zlen out + 3 * ((zlen src + 2) / 3) <= olen ->
  decode_loop olen (base64_text src) out [] 0 = Ok (Some (out ++ src)).
Proof.
  revert out. induction src as [|b0|b0 b1|b0 b1 b2 src IH] using list3_ind; intros out Hb Ho;
    repeat match goal with H : bytes (_ :: _) |- _ => apply Forall_cons_1 in H as [?Hb H] end;
    autorewrite with arr in Ho;
    assert (is_byte 0) by (unfold is_byte; lia); cbn [base64_text].
  - cbn. by rewrite app_nil_r.
  - pose proof (decode_block_text olen b0 0 0 61 61 [] out) as Hd. rewrite !Z.add_0_r in *. rewrite Hd; try done.
    + change (pads 61 + pads 61) with 2. cbv zeta. cbn [Z.eqb Pos.eqb]. rewrite length_app. cbn [length].
      f_equal. f_equal. replace (out ++ [b0; 0; 0]) with ((out ++ [b0]) ++ [0; 0]) by (by rewrite <- app_assoc).
      apply take_app_length'. rewrite length_app. cbn. lia.
    + apply rd_pad. Z.div_mod_to_equations; lia.
    + apply rd_pad. Z.div_mod_to_equations; lia.
  - assert (forall d, 0 <= d mod 64 < 64) as Hm by (intros; apply Z.mod_pos_bound; lia).
    pose proof (decode_block_text olen b0 b1 0 (sym ((b0 * 256 + b1) * 256 / 64 mod 64)) 61 [] out) as Hd. rewrite !Z.add_0_r in *. rewrite Hd; try done.
    + rewrite pads_sym by done. change (0 + pads 61) with 1. cbv zeta. cbn [Z.eqb Pos.eqb]. rewrite length_app. cbn [length].
      f_equal. f_equal. replace (out ++ [b0; b1; 0]) with ((out ++ [b0; b1]) ++ [0]) by (by rewrite <- app_assoc).
      apply take_app_length'. rewrite length_app. cbn. lia.
    + apply sym_spec. done.
    + apply rd_pad. Z.div_mod_to_equations; lia.
  - assert (forall d, 0 <= d mod 64 < 64) as Hm by (intros; apply Z.mod_pos_bound; lia).
    pose proof (zlen_nonneg src). rewrite decode_block_text; try done; [|by apply sym_spec..|Z.div_mod_to_equations; lia].
    rewrite !pads_sym by done. cbv zeta. cbn [Z.eqb Z.add]. rewrite IH; [by rewrite <- app_assoc|done|].
    autorewrite with arr. Z.div_mod_to_equations; lia.
Qed.

Lemma filter_wrap72 col text : List.filter is_symbol (wrap72 col text) = List.filter is_symbol text.
Proof.
  revert col. induction text as [|c text IH]; intros col; cbn [wrap72].
  - by destruct (col =? 0).
  - destruct (col + 1 =? 72); cbn [List.filter]; change (is_symbol 10) with false; cbv iota; by rewrite IH.
Qed.

Lemma filter_text src : bytes src -> List.filter is_symbol (base64_text src) = base64_text src.
Proof.
  assert (forall d, 0 <= d < 64 -> is_symbol (sym d) = true) as Hs by (intros; by apply sym_spec).
  assert (forall d, 0 <= d mod 64 < 64) as Hm by (intros; apply Z.mod_pos_bound; lia).
  assert (forall b0 r, is_byte b0 -> 0 <= r < 65536 -> 0 <= (b0 * 65536 + r) / 64 ^ 3 < 64) as Hr
    by (unfold is_byte; intros; change (64 ^ 3) with 262144; Z.div_mod_to_equations; lia).
  induction src as [|b0|b0 b1|b0 b1 b2 src IH] using list3_ind; intros Hb;
    repeat match goal with H : bytes (_ :: _) |- _ => apply Forall_cons_1 in H as [?Hb H] end;
    cbn [base64_text List.filter]; unfold is_byte in *; change (is_symbol 61) with true; rewrite ?Hs by done; cbv iota.
  - done.
  - replace (b0 * 256 * 256) with (b0 * 65536 + 0) by lia. by rewrite !Hs by (first [done | apply Hr; lia]).
  - replace ((b0 * 256 + b1) * 256) with (b0 * 65536 + b1 * 256) by lia. by rewrite !Hs by (first [done | apply Hr; lia]).
  - rewrite IH by done. replace ((b0 * 256 + b1) * 256 + b2) with (b0 * 65536 + (b1 * 256 + b2)) by lia.
    by rewrite !Hs by (first [done | apply Hr; lia]).
Qed.

(** the number of pad characters in the first block that has any *)
Fixpoint first_padding (s : list Z) : Z :=
  match s with
  | c0 :: c1 :: c2 :: c3 :: s =>
      let p := pads c0 + pads c1 + pads c2 + pads c3 in if p =? 0 then first_padding s else p
  | _ => 0
  end.

Definition dtable_check (c : Z) : bool :=
  let v := nth (Z.to_nat c) dtable 0x80 in implb (is_symbol c) ((0 <=? v) && (v <? 64)).

Lemma rd_symbol c : is_byte c -> is_symbol c = true -> exists v, rd dtable c = Ok v /\ v <> 0x80.
Proof.
  intros Hc Hs. exists (nth (Z.to_nat c) dtable 0x80). split; [by apply rd_dtable|].
  unfold is_symbol in Hs. lia.
Qed.

(** every sequence of whole blocks is decoded inside the buffer or refused for its padding *)
Lemma decode_blocks olen n s out :
  length s = (4 * n)%nat -> Forall (fun c => is_byte c /\ is_symbol c = true) s -> zlen out + 3 * Z.of_nat n <= olen ->
  exists r, decode_loop olen s out [] 0 = Ok r /\ (r = None <-> 2 < first_padding s) /\
    (forall text, r = Some text -> zlen text <= zlen out + 3 * Z.of_nat n /\ zlen text <= olen).
Proof.
  revert s out. induction n as [|n IH]; intros s out Hl Hs Ho.
  - destruct s; [|done]. exists (Some out). cbn. split; [done|]. split; [by split; [|lia]|]. intros ? [= <-]. lia.
  - destruct s as [|c0 [|c1 [|c2 [|c3 s]]]]; cbn in Hl; try lia.
    do 4 (apply Forall_cons_1 in Hs as [[? ?] Hs]).
    destruct (rd_symbol c0) as (v0 & E0 & ?), (rd_symbol c1) as (v1 & E1 & ?),
      (rd_symbol c2) as (v2 & E2 & ?), (rd_symbol c3) as (v3 & E3 & ?); try done.
    rewrite (decode_block _ _ _ _ _ _ _ _ _ _ _ E0 E1 E2 E3); [|by repeat constructor|lia].
    cbn [first_padding]. cbv zeta. set (p := pads c0 + pads c1 + pads c2 + pads c3). set (out' := (_ ++ [_]) ++ [_]).
    assert (zlen out' = zlen out + 3) as Ho' by (unfold out'; autorewrite with arr; lia). clearbody out'.
    assert (forall k, zlen (take k out') <= zlen out') as Ht by (intros k; unfold zlen; rewrite length_take; lia).
    assert (0 <= p <= 4) by (unfold p, pads; repeat case_match; lia).
    destruct (Z.eqb_spec p 0).
    + destruct (IH s out') as (r & Er & Hr & Hrl); [lia|done|lia|]. exists r. split; [done|]. split; [done|].
      intros text E. specialize (Hrl text E). lia.
    + destruct (Z.eqb_spec p 1); [|destruct (Z.eqb_spec p 2)]; (eexists; split; [reflexivity|]).
      1,2: split; [split; [done|lia]|]; intros ? [= <-]; pose proof (Ht (length out' - 1)%nat); pose proof (Ht (length out' - 2)%nat); lia.
      split; [split; [lia|done]|done].
Qed.

Lemma base64_encode_text malloc src :
  bytes src -> zlen src * 4 < 2 ^ 64 -> malloc (encoded_size (zlen src)) = true ->
  base64_encode malloc src = Ok (Some (wrap72 0 (base64_text src))).
Proof.
  intros Hb Hw Hm. unfold base64_encode. destruct (encoded_size_fits _ (zlen_nonneg src) Hw) as [Hlen Hfit].
  replace (_ <? zlen src) with false by lia. rewrite Hm. cbn [negb].
  assert (zlen (wrap72 0 (base64_text src)) < encoded_size (zlen src)) as Hout.
  { rewrite zlen_wrap72, zlen_base64_text, Z.add_0_l by lia. lia. }
  trans (out ← Ok ([] ++ wrap72 0 (base64_text src)); _ ← put (encoded_size (zlen src)) out 0; Ok (Some out));
    [|by rewrite bind_ok, app_nil_l, put_ok].
  rewrite <- (encode_steps (encoded_size (zlen src)) src [] 0) by done.
  destruct (encode_blocks _ src [] 0) as [[[inp out] line_len]|]; [|done].
  rewrite !bind_ok. by destruct (encode_rest _ inp out line_len) as [[]|].
Qed.

(** ** Properties *)

(** Base64_encode returns NULL exactly when four times the length does not
    fit a [size_t] or the allocation fails; otherwise it writes the base-64
    digits of its input, padded with '=' and broken into lines of 72
    characters, without leaving the buffer it allocated. *)
Theorem base64_encode_correct malloc src :
  bytes src -> zlen src < 2 ^ 64 ->
  base64_encode malloc src =
  Ok (if (2 ^ 64 <=? zlen src * 4) || negb (malloc (encoded_size (zlen src))) then None
      else Some (wrap72 0 (base64_text src))).
Proof.
  intros Hb Hl. destruct (Z.leb_spec (2 ^ 64) (zlen src * 4)) as [Hw|Hw].
  - pose proof (encoded_size_wraps _ Hw Hl). unfold base64_encode. by replace (_ <? zlen src) with true by lia.
  - destruct (malloc _) eqn:Em; [by rewrite base64_encode_text|].
    unfold base64_encode. rewrite Em. by destruct (_ <? zlen src).
Qed.

Lemma base64_encode_correct_witness :
  base64_encode (fun _ => true) (str "Many") = Ok (Some (str "TWFueQ==" ++ [10])).
Proof. rewrite base64_encode_correct; [reflexivity|by apply (bool_decide_unpack _); vm_compute|reflexivity]. Defined.

(** Base64_decode undoes base64_encode, however the encoded text is
    re-wrapped: any text with the same symbols, other bytes apart, decodes to
    the encoded bytes, for every input that is not empty. *)
Theorem base64_roundtrip malloc src text t :
  bytes src -> src <> [] -> zlen src * 4 < 2 ^ 64 -> malloc ((zlen src + 2) / 3 * 3) = true ->
  base64_encode malloc src = Ok (Some t) ->
  bytes text -> List.filter is_symbol text = List.filter is_symbol t ->
  base64_decode malloc text = Ok (Some src).
Proof.
  intros Hb Hne Hl Hm Ht Htb Hf. assert (0 < zlen src) as Hpos by (destruct src; [done|rewrite zlen_cons; pose proof (zlen_nonneg src); lia]).
  destruct (malloc (encoded_size (zlen src))) eqn:Em;
    [|unfold base64_encode in Ht; rewrite Em in Ht; by destruct (_ <? zlen src)].
  rewrite base64_encode_text in Ht by done. injection Ht as <-.
  rewrite filter_wrap72, filter_text in Hf by done.
  unfold base64_decode. rewrite count_symbols_spec, bind_ok, Hf, zlen_base64_text, Z.add_0_l by done.
  set (k := (zlen src + 2) / 3) in *. assert (1 <= k) by (unfold k; Z.div_mod_to_equations; lia).
  replace (4 * k) with (k * 4) by lia. rewrite Z_mod_mult, Z.div_mul by lia.
  replace (k * 4 =? 0) with false by lia. cbn [negb orb Z.eqb]. rewrite Hm. cbn [negb].
  rewrite decode_loop_filter, Hf by done. rewrite decode_text; [done|done|]. rewrite zlen_nil. fold k. lia.
Qed.

Lemma base64_roundtrip_witness :
  base64_decode (fun _ => true) (str "T  W-F#ueQ=" ++ [10] ++ str "=") = Ok (Some (str "Many")).
Proof.
  apply (base64_roundtrip (fun _ => true) (str "Many") _ (str "TWFueQ==" ++ [10]));
    [by apply (bool_decide_unpack _); vm_compute|done|reflexivity|reflexivity|vm_compute; reflexivity
    |by apply (bool_decide_unpack _); vm_compute|vm_compute; reflexivity].
Defined.

(** Base64_decode stays inside its buffers on every byte string, and
    returns NULL exactly when the number of symbols is zero or no multiple of
    four, when the allocation fails, or when the first padded block has more
    than two pad characters. *)
Theorem base64_decode_total malloc src :
  bytes src ->
  let s := List.filter is_symbol src in
  exists r, base64_decode malloc src = Ok r /\
    (r = None <-> zlen s = 0 \/ zlen s mod 4 <> 0 \/ malloc (zlen s / 4 * 3) = false \/ 2 < first_padding s) /\
    (forall text, r = Some text -> zlen text <= zlen s / 4 * 3).
Proof.
  intros Hb s. unfold base64_decode. rewrite count_symbols_spec, bind_ok, Z.add_0_l by done. fold s.
  destruct (Z.eqb_spec (zlen s) 0); [exists None; split_and!; [done|tauto|done]|].
  destruct (Z.eqb_spec (zlen s mod 4) 0) as [Hm|]; [|exists None; split_and!; [done|tauto|done]]. cbn [negb orb].
  destruct (malloc _) eqn:Ea; [|exists None; split_and!; [done|tauto|done]]. cbn [negb].
  rewrite decode_loop_filter by done. fold s. pose proof (zlen_nonneg s).
  destruct (decode_blocks (zlen s / 4 * 3) (Z.to_nat (zlen s / 4)) s []) as (r & Er & Hr & Hl).
  - unfold zlen in *. Z.div_mod_to_equations; lia.
  - apply List.Forall_forall. intros c [Hc Hs]%filter_In.
    split; [|done]. rewrite List.Forall_forall in Hb. by apply Hb.
  - rewrite zlen_nil. Z.div_mod_to_equations; lia.
  - exists r. split; [done|]. split; [rewrite Hr; intuition congruence|]. intros text E. by apply Hl.
Qed.

Lemma base64_decode_total_witness :
  exists r, base64_decode (fun _ => true) (str "QQ=====") = Ok r /\ r = None.
Proof.
  destruct (base64_decode_total (fun _ => true) (str "QQ=====")) as (r & E & Hr & _);
    [by apply (bool_decide_unpack _); vm_compute|].
  exists r. split; [exact E|]. apply Hr. right. left. by vm_compute.
Defined.
