(* ===== verification/Bitfield.v ===== *)
(** * Bit fields (src/hostapd-2.5/src/utils/bitfield.c)

    A bit field of [max_bits] bits stored in bytes.  [size_t] has 64 bits and
    [int] 32; the allocator is the argument [zalloc].  Refined by a set of
    integers. *)

From stdpp Require Import gmap sets.
From S2P Require Import Prelude.

Record bitfield : Type := { bits : list Z; max_bits : Z }.

Definition BIT (x : Z) : Z := u32 (Z.shiftl 1 x).

(** the number of bytes of [max_bits] bits *)
Definition bit_bytes (max_bits : Z) : Z := u64 (max_bits + 7) / 8.

(** [None] is NULL; the header of the structure takes 16 bytes *)
Definition bitfield_alloc (zalloc : Z -> bool) (max_bits : Z) : option bitfield :=
  if zalloc (u64 (16 + bit_bytes max_bits))
  then Some {| bits := replicate (Z.to_nat (bit_bytes max_bits)) 0; max_bits := max_bits |}
  else None.

Definition bitfield_set (bf : bitfield) (bit : Z) : M bitfield :=
  if bit >=? max_bits bf then Ok bf
  else
    b ← rd (bits bf) (bit / 8);
    bs ← wr (bits bf) (bit / 8) (u8 (Z.lor b (BIT (bit mod 8))));
    Ok {| bits := bs; max_bits := max_bits bf |}.

Definition bitfield_clear (bf : bitfield) (bit : Z) : M bitfield :=
  if bit >=? max_bits bf then Ok bf
  else
    b ← rd (bits bf) (bit / 8);
    bs ← wr (bits bf) (bit / 8) (u8 (Z.land b (u32 (Z.lnot (BIT (bit mod 8))))));
    Ok {| bits := bs; max_bits := max_bits bf |}.

Definition bitfield_is_set (bf : bitfield) (bit : Z) : M Z :=
  if bit >=? max_bits bf then Ok 0
  else
    b ← rd (bits bf) (bit / 8);
    Ok (if Z.land b (BIT (bit mod 8)) =? 0 then 0 else 1).

(** the loop of first_zero, [8 - i] rounds from its end *)
Fixpoint first_zero_loop (rounds : nat) (i val : Z) : Z :=
  match rounds with
  | O => -1
  | S rounds => if Z.land val 0x01 =? 0 then i else first_zero_loop rounds (i + 1) (u8 (Z.shiftr val 1))
  end.

Definition first_zero (val : Z) : Z := first_zero_loop 8 0 val.

(** the first loop of bitfield_get_first_zero: the index of the first byte that is not full *)
Fixpoint skip_full (fuel : nat) (bf : bitfield) (i : Z) : M Z :=
  match fuel with
  | O => Err OutOfFuel
  | S fuel =>
      if i <? bit_bytes (max_bits bf) then
        b ← rd (bits bf) i;
        if negb (b =? 0xff) then Ok i else skip_full fuel bf (i + 1)
      else Ok i
  end.

Definition bitfield_get_first_zero (bf : bitfield) : M Z :=
  i ← skip_full (S (Z.to_nat (bit_bytes (max_bits bf)))) bf 0;
  if i =? bit_bytes (max_bits bf) then Ok (-1)
  else
    b ← rd (bits bf) i;
    let i := u64 (u64 (i * 8) + first_zero b) in
    if i >=? max_bits bf then Ok (-1) else Ok (i32 i).

(** ** The abstract set *)

Inductive op : Type :=
| Set_bit (bit : Z)
| Clear_bit (bit : Z).

Definition op_arg (o : op) : Z := match o with Set_bit b | Clear_bit b => b end.

Definition run_op (bf : bitfield) (o : op) : M bitfield :=
  match o with Set_bit b => bitfield_set bf b | Clear_bit b => bitfield_clear bf b end.

Fixpoint run_ops (bf : bitfield) (os : list op) : M bitfield :=
  match os with
  | [] => Ok bf
  | o :: os => bf ← run_op bf o; run_ops bf os
  end.

(** what the operations do to the set of bits of a field of [n] bits *)
Definition spec_op (n : Z) (s : gset Z) (o : op) : gset Z :=
  match o with
  | Set_bit b => if decide (b < n) then {[b]} ∪ s else s
  | Clear_bit b => s ∖ {[b]}
  end.

(** ** Bytes, bit by bit *)

Definition bit_checks (b : Z) : bool :=
  forallb (fun j =>
    Bool.eqb (Z.land b (BIT j) =? 0) (negb (Z.testbit b j)) &&
    forallb (fun k =>
      Bool.eqb (Z.testbit (u8 (Z.lor b (BIT j))) k) ((k =? j) || Z.testbit b k) &&
      Bool.eqb (Z.testbit (u8 (Z.land b (u32 (Z.lnot (BIT j))))) k) (negb (k =? j) && Z.testbit b k))
      (seqZ 0 8)) (seqZ 0 8).

Lemma bit_ops b j k : is_byte b -> 0 <= j < 8 -> 0 <= k < 8 ->
  (Z.land b (BIT j) =? 0) = negb (Z.testbit b j) /\
  Z.testbit (u8 (Z.lor b (BIT j))) k = (k =? j) || Z.testbit b k /\
  Z.testbit (u8 (Z.land b (u32 (Z.lnot (BIT j))))) k = negb (k =? j) && Z.testbit b k.
Proof.
  intros Hb Hj Hk. assert (bit_checks b = true) as H by (by apply byte_forall; [vm_compute|]).
  unfold bit_checks in H. rewrite forallb_forall in H. specialize (H j).
  rewrite <- list_elem_of_In, elem_of_seqZ in H. specialize (H ltac:(lia)).
  apply andb_prop in H as [H1 H]. rewrite forallb_forall in H. specialize (H k).
  rewrite <- list_elem_of_In, elem_of_seqZ in H. specialize (H ltac:(lia)).
  apply andb_prop in H as [H2 H3]. split_and!; by apply Bool.eqb_prop.
Qed.

Definition first_zero_check (b : Z) : bool :=
  if b =? 255 then first_zero b =? -1
  else let z := first_zero b in
       (0 <=? z) && (z <? 8) && negb (Z.testbit b z) && forallb (Z.testbit b) (seqZ 0 z).

Lemma first_zero_spec b : is_byte b -> b <> 255 ->
  0 <= first_zero b < 8 /\ Z.testbit b (first_zero b) = false /\
  forall k, 0 <= k < first_zero b -> Z.testbit b k = true.
Proof.
  intros Hb Hn. assert (first_zero_check b = true) as H by (by apply byte_forall; [vm_compute|]).
  unfold first_zero_check in H. replace (b =? 255) with false in H by lia.
  rewrite !andb_true_iff, forallb_forall in H. destruct H as (((H1 & H2) & H3) & H).
  split; [lia|]. split; [by apply negb_true_iff|].
  intros k Hk. apply H. rewrite <- list_elem_of_In, elem_of_seqZ. lia.
Qed.

Lemma testbit_255 k : 0 <= k < 8 -> Z.testbit 255 k = true.
Proof. intros. change 255 with (Z.ones 8). by apply Z.ones_spec_low. Qed.

(** ** The invariant *)

Definition bit_of (bf : bitfield) (k : Z) : bool :=
  Z.testbit (nth (Z.to_nat (k / 8)) (bits bf) 0) (k mod 8).

Record wf (n : Z) (bf : bitfield) : Prop := {
  wf_max : max_bits bf = n;
  wf_size : 0 <= n < 2 ^ 31;
  wf_len : zlen (bits bf) = (n + 7) / 8;
  wf_bytes : bytes (bits bf) }.

(** [bf] stores the set [s] *)
Definition repr (n : Z) (bf : bitfield) (s : gset Z) : Prop :=
  wf n bf /\ (forall k, 0 <= k < n -> bit_of bf k = bool_decide (k ∈ s)) /\ (forall k, k ∈ s -> 0 <= k < n).

Lemma bit_bytes_small n : 0 <= n < 2 ^ 31 -> bit_bytes n = (n + 7) / 8.
Proof. intros. unfold bit_bytes. by rewrite u64_small by lia. Qed.

Lemma alloc_repr zalloc n bf :
  0 <= n < 2 ^ 31 -> bitfield_alloc zalloc n = Some bf -> repr n bf ∅.
Proof.
  intros Hn. unfold bitfield_alloc. destruct (zalloc _); [|done]. intros [= <-].
  rewrite bit_bytes_small by done. assert (0 <= (n + 7) / 8) by (apply Z.div_pos; lia).
  split; [|split; [|set_solver]].
  - split; [done|done| |].
    + unfold zlen. simpl. rewrite length_replicate. lia.
    + simpl. apply Forall_replicate. unfold is_byte. lia.
  - intros k Hk. rewrite bool_decide_eq_false_2 by set_solver. unfold bit_of. cbn [bits].
    rewrite nth_lookup. destruct (_ !! _) eqn:E; [apply lookup_replicate in E as [-> _]|]; apply Z.testbit_0_l.
Qed.

Lemma wf_index n bf k : wf n bf -> 0 <= k < n -> 0 <= k / 8 < zlen (bits bf) /\ 0 <= k mod 8 < 8.
Proof. intros [? ? -> _] Hk. split; Z.div_mod_to_equations; lia. Qed.

Lemma wf_rd n bf i : wf n bf -> 0 <= i < zlen (bits bf) ->
  rd (bits bf) i = Ok (nth (Z.to_nat i) (bits bf) 0) /\ is_byte (nth (Z.to_nat i) (bits bf) 0).
Proof.
  intros Hw Hi. pose proof (rd_nth (bits bf) i 0 Hi) as E. split; [done|]. by eapply bytes_rd; [apply Hw|].
Qed.

Lemma is_set_spec n bf k : wf n bf -> 0 <= k ->
  bitfield_is_set bf k = Ok (Z.b2z ((k <? n) && bit_of bf k)).
Proof.
  intros Hw Hk. unfold bitfield_is_set. rewrite (wf_max _ _ Hw).
  destruct (Z.geb_spec k n); [by replace (k <? n) with false by lia|]. replace (k <? n) with true by lia.
  destruct (wf_index n bf k) as [Hi Hj]; [done|lia|]. destruct (wf_rd n bf (k / 8)) as [E Hb]; [done|done|].
  rewrite E, bind_ok. destruct (bit_ops _ (k mod 8) 0 Hb Hj) as (-> & _); [lia|]. unfold bit_of.
  by destruct (Z.testbit _ _).
Qed.

(** a byte of the field replaced by one with the bits [f] *)
Lemma update_repr n bf s s' bit b' :
  repr n bf s -> 0 <= bit < n -> is_byte b' ->
  (forall k, 0 <= k < 8 -> Z.testbit b' k = if k =? bit mod 8 then bool_decide (bit ∈ s')
     else Z.testbit (nth (Z.to_nat (bit / 8)) (bits bf) 0) k) ->
  (forall k, k <> bit -> k ∈ s' <-> k ∈ s) ->
  (forall k, k ∈ s' -> 0 <= k < n) ->
  exists bs, wr (bits bf) (bit / 8) b' = Ok bs /\ repr n {| bits := bs; max_bits := max_bits bf |} s'.
Proof.
  intros (Hw & Hb & Hs) Hbit Hb' Hf Hss Hs'. destruct (wf_index n bf bit Hw Hbit) as [Hi Hj].
  exists (<[Z.to_nat (bit / 8) := b']> (bits bf)). split; [by apply wr_ok|].
  destruct Hw as [Hm Hn Hl Hbs]. split; [split; cbn [bits max_bits]; autorewrite with arr; [done..|by apply Forall_insert]|].
  split; [|done]. intros k Hk. unfold bit_of; cbn [bits].
  assert (0 <= k mod 8 < 8) by (apply Z.mod_pos_bound; lia).
  rewrite nth_lookup. destruct (decide (k / 8 = bit / 8)) as [Ek|Ek].
  - rewrite Ek, list_lookup_insert_eq by (unfold zlen in Hi; lia). cbn [default from_option]. rewrite Hf by done.
    destruct (Z.eqb_spec (k mod 8) (bit mod 8)).
    + by replace k with bit by (Z.div_mod_to_equations; lia).
    + rewrite <- Ek. etrans; [by apply Hb|]. apply bool_decide_ext. rewrite Hss; [done|congruence].
  - rewrite list_lookup_insert_ne by (assert (0 <= k / 8) by (apply Z.div_pos; lia); lia). rewrite <- nth_lookup.
    etrans; [by apply Hb|]. apply bool_decide_ext. rewrite Hss; [done|congruence].
Qed.

Lemma run_op_repr n bf s o : repr n bf s -> 0 <= op_arg o ->
  exists bf', run_op bf o = Ok bf' /\ repr n bf' (spec_op n s o).
Proof.
  intros Hr Ho. pose proof Hr as (Hw & Hb & Hs).
  destruct o as [bit|bit]; cbn in *; unfold bitfield_set, bitfield_clear; rewrite (wf_max _ _ Hw) in *.
  - destruct (Z.geb_spec bit n); [rewrite decide_False by lia; by exists bf|]. rewrite decide_True by lia.
    destruct (wf_index n bf bit) as [Hi Hj]; [done|lia|]. destruct (wf_rd n bf (bit / 8)) as [E Hby]; [done|done|].
    rewrite E, bind_ok.
    edestruct (update_repr n bf s ({[bit]} ∪ s) bit) as (bs & Ew & Hr'); [done|lia|apply u8_range| | | |].
    4: { rewrite Ew, bind_ok. eexists; split; [reflexivity|]. by rewrite (wf_max _ _ Hw) in Hr'. }
    + intros k Hk. destruct (bit_ops _ (bit mod 8) k Hby Hj Hk) as (_ & -> & _).
      rewrite bool_decide_eq_true_2 by set_solver. by destruct (k =? bit mod 8).
    + set_solver.
    + intros k [->%elem_of_singleton|]%elem_of_union; [lia|auto].
  - destruct (Z.geb_spec bit n).
    + exists bf. split; [done|]. replace (s ∖ {[bit]}) with s; [done|]. apply set_eq.
      intros k. rewrite elem_of_difference, elem_of_singleton. split; [|tauto]. intros Hk. split; [done|].
      intros ->. specialize (Hs _ Hk). lia.
    + destruct (wf_index n bf bit) as [Hi Hj]; [done|lia|]. destruct (wf_rd n bf (bit / 8)) as [E Hby]; [done|done|].
      rewrite E, bind_ok.
      edestruct (update_repr n bf s (s ∖ {[bit]}) bit) as (bs & Ew & Hr'); [done|lia|apply u8_range| | | |].
      4: { rewrite Ew, bind_ok. eexists; split; [reflexivity|]. by rewrite (wf_max _ _ Hw) in Hr'. }
      * intros k Hk. destruct (bit_ops _ (bit mod 8) k Hby Hj Hk) as (_ & _ & ->).
        rewrite bool_decide_eq_false_2 by set_solver. by destruct (k =? bit mod 8).
      * set_solver.
      * intros k Hk%elem_of_difference. apply Hs. tauto.
Qed.

Lemma run_ops_repr n bf s os : repr n bf s -> Forall (fun o => 0 <= op_arg o) os ->
  exists bf', run_ops bf os = Ok bf' /\ repr n bf' (fold_left (spec_op n) os s).
Proof.
  intros Hr Ho. revert bf s Hr. induction Ho as [|o os Ho _ IH]; intros bf s Hr; cbn; [by exists bf|].
  destruct (run_op_repr n bf s o Hr Ho) as (bf' & -> & Hr'). rewrite bind_ok. by apply IH.
Qed.

(** *** The first zero bit *)

Lemma skip_full_spec n bf i fuel : wf n bf -> 0 <= i <= zlen (bits bf) ->
  zlen (bits bf) - i < Z.of_nat fuel ->
  exists j, skip_full fuel bf i = Ok j /\ i <= j <= zlen (bits bf) /\
    (forall k, i <= k < j -> nth (Z.to_nat k) (bits bf) 0 = 255) /\
    (j < zlen (bits bf) -> nth (Z.to_nat j) (bits bf) 0 <> 255).
Proof.
  intros Hw. assert (bit_bytes (max_bits bf) = zlen (bits bf)) as Hbb
    by (rewrite (wf_max _ _ Hw), (wf_len _ _ Hw); apply bit_bytes_small, Hw).
  revert i. induction fuel as [|fuel IH]; intros i Hi Hf; [lia|]. cbn [skip_full]. rewrite Hbb.
  destruct (Z.ltb_spec i (zlen (bits bf))).
  - destruct (wf_rd n bf i) as [E _]; [done|lia|]. rewrite E, bind_ok.
    destruct (Z.eqb_spec (nth (Z.to_nat i) (bits bf) 0) 255) as [E1|E1]; cbn [negb].
    + destruct (IH (i + 1)) as (j & Ej & Hj & Hfull & Hnot); [lia|lia|]. exists j. split_and!; [done|lia|lia| |done].
      intros k Hk. destruct (decide (k = i)) as [->|]; [done|]. apply Hfull. lia.
    + exists i. split_and!; [done|lia|lia|lia|done].
  - exists i. split_and!; [done|lia|lia|lia|lia].
Qed.

Lemma first_zero_repr n bf s : repr n bf s ->
  exists r, bitfield_get_first_zero bf = Ok r /\
    ((r = -1 /\ forall k, 0 <= k < n -> k ∈ s) \/
     (0 <= r < n /\ (r ∉ s) /\ forall k, 0 <= k < r -> k ∈ s)).
Proof.
  intros (Hw & Hb & Hs). unfold bitfield_get_first_zero.
  pose proof (wf_len _ _ Hw) as Hl. pose proof (wf_size _ _ Hw) as Hn. rewrite (wf_max _ _ Hw), bit_bytes_small by done.
  rewrite <- Hl. pose proof (zlen_nonneg (bits bf)).
  destruct (skip_full_spec n bf 0 (S (Z.to_nat (zlen (bits bf)))) Hw) as (j & -> & Hj & Hfull & Hnot); [lia|lia|].
  rewrite bind_ok.
  assert (forall k, 0 <= k < n -> k / 8 < j -> k ∈ s) as Hlow.
  { intros k Hk Hkj. specialize (Hb k Hk). apply (bool_decide_eq_true_1 (k ∈ s)). rewrite <- Hb.
    unfold bit_of. rewrite Hfull by (split; [apply Z.div_pos|]; lia). apply testbit_255, Z.mod_pos_bound. lia. }
  destruct (Z.eqb_spec j (zlen (bits bf))) as [->|Hne].
  - exists (-1). split; [done|]. left. split; [done|]. intros k Hk. apply Hlow; [done|]. Z.div_mod_to_equations; lia.
  - destruct (wf_rd n bf j) as [E Hby]; [done|lia|]. rewrite E, bind_ok. specialize (Hnot ltac:(lia)).
    destruct (first_zero_spec _ Hby Hnot) as (Hz & Hz0 & Hz1).
    revert Hz Hz0 Hz1. generalize (first_zero (nth (Z.to_nat j) (bits bf) 0)). intros z Hz Hz0 Hz1.
    assert (j * 8 < n) by (Z.div_mod_to_equations; lia).
    rewrite (u64_small (j * 8)), u64_small by lia.
    assert (forall k, 0 <= k < j * 8 + z -> 0 <= k < n -> k ∈ s) as Hall.
    { intros k Hk Hkn. destruct (decide (k / 8 < j)); [by apply Hlow|].
      assert (k / 8 = j /\ k mod 8 < z) as [Ek Em] by (Z.div_mod_to_equations; lia).
      specialize (Hb k Hkn). apply (bool_decide_eq_true_1 (k ∈ s)). rewrite <- Hb.
      unfold bit_of. rewrite Ek. apply Hz1. split; [apply Z.mod_pos_bound|]; lia. }
    destruct (Z.geb_spec (j * 8 + z) n).
    + exists (-1). split; [done|]. left. split; [done|]. intros k Hk. apply Hall; lia.
    + exists (j * 8 + z). rewrite i32_small by lia. split; [done|]. right. split; [lia|]. split; [|intros; apply Hall; lia].
      specialize (Hb (j * 8 + z) ltac:(lia)). apply (bool_decide_eq_false_1 (j * 8 + z ∈ s)). rewrite <- Hb.
      unfold bit_of. replace ((j * 8 + z) / 8) with j by (Z.div_mod_to_equations; lia).
      by replace ((j * 8 + z) mod 8) with z by (Z.div_mod_to_equations; lia).
Qed.

(** ** Properties *)

(** A bit field is a set: after any sequence of bitfield_set and
    bitfield_clear on a fresh field of [n] bits no access has left the
    allocation, bitfield_is_set is membership in the set the operations build
    (operations on bits past the end are ignored), and bitfield_get_first_zero
    is the least missing bit, or -1 when the field is full. *)
Theorem bitfield_refines_set zalloc n bf0 os :
  0 <= n < 2 ^ 31 -> bitfield_alloc zalloc n = Some bf0 -> Forall (fun o => 0 <= op_arg o) os ->
  let s := fold_left (spec_op n) os ∅ in
  exists bf, run_ops bf0 os = Ok bf /\
    (forall k, 0 <= k -> bitfield_is_set bf k = Ok (Z.b2z (bool_decide (k ∈ s)))) /\
    exists r, bitfield_get_first_zero bf = Ok r /\
      ((r = -1 /\ forall k, 0 <= k < n -> k ∈ s) \/
       (0 <= r < n /\ (r ∉ s) /\ forall k, 0 <= k < r -> k ∈ s)).
Proof.
  intros Hn Ha Ho s.
  destruct (run_ops_repr n bf0 ∅ os) as (bf & E & Hr); [by eapply alloc_repr|done|]. fold s in Hr.
  exists bf. split; [done|]. split; [|by apply first_zero_repr].
  intros k Hk. destruct Hr as (Hw & Hb & Hs). rewrite (is_set_spec n) by done. do 2 f_equal.
  destruct (Z.ltb_spec k n); cbn [andb]; [by apply Hb|].
  rewrite bool_decide_eq_false_2; [done|]. intros Hin. specialize (Hs _ Hin). lia.
Qed.

Lemma bitfield_refines_set_witness :
  exists bf bf1, bitfield_alloc (fun _ => true) 10 = Some bf /\
    run_ops bf [Set_bit 0; Set_bit 1; Set_bit 3; Set_bit 40; Clear_bit 3; Set_bit 2] = Ok bf1 /\
    bitfield_get_first_zero bf1 = Ok 3.
Proof.
  eexists. edestruct (bitfield_refines_set (fun _ => true) 10) as (bf1 & E & _ & r & Er & _);
    [lia|reflexivity| |].
  2: { exists bf1. split; [reflexivity|]. split; [exact E|]. revert E. intros [= <-]. vm_compute. reflexivity. }
  repeat constructor; cbn; lia.
Defined.
