(* ===== verification/HexText.v ===== *)
(** * Hexadecimal text, MAC addresses, UUIDs (src/hostapd-2.5/src/utils/common.c, uuid.c)

    A [char *] that is read is the list of bytes from the pointer on, the
    terminating NUL included: reading past the list is an error.  Buffers that
    are written are byte lists of their allocated size. *)

From S2P Require Import Prelude CText.

Definition ETH_ALEN : Z := 6.
Definition UUID_LEN : Z := 16.

(** *** Reading hexadecimal digits *)

Definition hex2num (c : Z) : Z :=
  if (48 <=? c) && (c <=? 57) then c - 48
  else if (97 <=? c) && (c <=? 102) then c - 97 + 10
  else if (65 <=? c) && (c <=? 70) then c - 65 + 10
  else -1.

Definition hex2byte (hex : list Z) : M Z :=
  c ← rd hex 0;
  let a := hex2num c in
  if a <? 0 then Ok (-1)
  else
    c ← rd hex 1;
    let b := hex2num c in
    if b <? 0 then Ok (-1) else Ok (Z.lor (Z.shiftl a 4) b).

(** [rounds] rounds from [i = 6 - rounds]; [None] is NULL *)
Fixpoint hwaddr_parse_loop (rounds : nat) (txt addr : list Z) : M (option (list Z) * list Z) :=
  match rounds with
  | O => Ok (Some txt, addr)
  | S rounds =>
      let i := ETH_ALEN - 1 - Z.of_nat rounds in
      a ← hex2byte txt;
      if a <? 0 then Ok (None, addr)
      else
        let txt := drop 2 txt in
        addr ← wr addr i (u8 a);
        if i <? ETH_ALEN - 1 then
          c ← rd txt 0;
          let txt := drop 1 txt in
          if negb (c =? 58) then Ok (None, addr) else hwaddr_parse_loop rounds txt addr
        else hwaddr_parse_loop rounds txt addr
  end.

Definition hwaddr_parse (txt addr : list Z) : M (option (list Z) * list Z) :=
  hwaddr_parse_loop (Z.to_nat ETH_ALEN) txt addr.

Definition hwaddr_aton (txt addr : list Z) : M (Z * list Z) :=
  '(r, addr) ← hwaddr_parse txt addr;
  Ok (match r with Some _ => 0 | None => -1 end, addr).

Definition hwaddr_masked_aton (txt addr mask : list Z) (maskable : Z) : M (Z * list Z * list Z) :=
  '(r, addr) ← hwaddr_parse txt addr;
  match r with
  | None => Ok (-1, addr, mask)
  | Some r =>
      c ← rd r 0;
      if (c =? 0) || is_space c then
        mask ← blit mask 0 (replicate (Z.to_nat ETH_ALEN) 0xff);
        Ok (0, addr, mask)
      else if negb (maskable =? 0) && (c =? 47) then
        '(r, mask) ← hwaddr_parse (drop 1 r) mask;
        Ok (match r with Some _ => 0 | None => -1 end, addr, mask)
      else Ok (-1, addr, mask)
  end.

Fixpoint hwaddr_compact_loop (rounds : nat) (i : Z) (txt addr : list Z) : M (Z * list Z) :=
  match rounds with
  | O => Ok (0, addr)
  | S rounds =>
      c ← rd txt 0;
      let a := hex2num c in
      if a <? 0 then Ok (-1, addr)
      else
        c ← rd txt 1;
        let b := hex2num c in
        if b <? 0 then Ok (-1, addr)
        else
          addr ← wr addr i (u8 (Z.lor (Z.shiftl a 4) b));
          hwaddr_compact_loop rounds (i + 1) (drop 2 txt) addr
  end.

Definition hwaddr_compact_aton (txt addr : list Z) : M (Z * list Z) :=
  hwaddr_compact_loop 6 0 txt addr.

(** [while ( *pos == ':' || *pos == '.' || *pos == '-') pos++] *)
Fixpoint skip_separators (pos : list Z) : M (list Z) :=
  match pos with
  | [] => Err OutOfBounds
  | c :: pos' => if (c =? 58) || (c =? 46) || (c =? 45) then skip_separators pos' else Ok pos
  end.

(** the value returned is the number of characters used, here the difference
    of the lengths before and after *)
Fixpoint hwaddr_aton2_loop (rounds : nat) (i : Z) (txt pos addr : list Z) : M (Z * list Z) :=
  match rounds with
  | O => Ok (zlen txt - zlen pos, addr)
  | S rounds =>
      pos ← skip_separators pos;
      c ← rd pos 0;
      let a := hex2num c in
      if a <? 0 then Ok (-1, addr)
      else
        c ← rd pos 1;
        let b := hex2num c in
        if b <? 0 then Ok (-1, addr)
        else
          addr ← wr addr i (u8 (Z.lor (Z.shiftl a 4) b));
          hwaddr_aton2_loop rounds (i + 1) txt (drop 2 pos) addr
  end.

Definition hwaddr_aton2 (txt addr : list Z) : M (Z * list Z) := hwaddr_aton2_loop 6 0 txt txt addr.

Fixpoint hexstr2bin_loop (rounds : nat) (i : Z) (hex buf : list Z) : M (Z * list Z) :=
  match rounds with
  | O => Ok (0, buf)
  | S rounds =>
      a ← hex2byte hex;
      if a <? 0 then Ok (-1, buf)
      else
        buf ← wr buf i (u8 a);
        hexstr2bin_loop rounds (i + 1) (drop 2 hex) buf
  end.

(** [buf] from the pointer [opos = buf + off] on *)
Definition hexstr2bin_at (hex buf : list Z) (off len : Z) : M (Z * list Z) :=
  hexstr2bin_loop (Z.to_nat len) off hex buf.

Definition hexstr2bin (hex buf : list Z) (len : Z) : M (Z * list Z) := hexstr2bin_at hex buf 0 len.

(** the digits of one field of a UUID, preceded by a dash but for the first *)
Fixpoint uuid_fields (fields : list (Z * Z)) (pos bin : list Z) : M (Z * list Z) :=
  match fields with
  | [] => Ok (0, bin)
  | (off, len) :: fields =>
      c ← rd pos 0;
      if negb (c =? 45) then Ok (-1, bin)
      else
        let pos := drop 1 pos in
        '(r, bin) ← hexstr2bin_at pos bin off len;
        if negb (r =? 0) then Ok (-1, bin)
        else uuid_fields fields (drop (Z.to_nat (2 * len)) pos) bin
  end.

Definition uuid_str2bin (str bin : list Z) : M (Z * list Z) :=
  '(r, bin) ← hexstr2bin_at str bin 0 4;
  if negb (r =? 0) then Ok (-1, bin)
  else uuid_fields [(4, 2); (6, 2); (8, 2); (10, 6)] (drop 8 str) bin.

Fixpoint is_nil_uuid (uuid : list Z) : Z :=
  match uuid with
  | [] => 1
  | b :: uuid => if negb (b =? 0) then 0 else is_nil_uuid uuid
  end.

(** *** Printing *)

(** [%02x:%02x:...] *)
Fixpoint MACSTR (addr : list Z) : list Z :=
  match addr with
  | [] => []
  | [b] => hex2 b
  | b :: addr => hex2 b ++ 58 :: MACSTR addr
  end.

(** [os_snprintf(buf + pos, size, ...)] of the expansion [text]: the buffer after it *)
Definition snprintf_at (buf : list Z) (pos size : Z) (text : list Z) : M (list Z) :=
  if size =? 0 then Ok buf else blit buf pos ((snprintf size text).1 ++ [0]).

Definition os_snprintf_error (size res : Z) : bool := (res <? 0) || (size <=? u32 res).

(** [len] is the size of [buf] *)
Definition hwaddr_mask_txt (buf : list Z) (len : Z) (addr mask : list Z) : M (Z * list Z) :=
  let print_mask := existsb (fun b => negb (b =? 0xff)) (take (Z.to_nat ETH_ALEN) mask) in
  let text := if print_mask then MACSTR addr ++ 47 :: MACSTR mask else MACSTR addr in
  buf ← snprintf_at buf 0 len text;
  let res := zlen text in
  Ok (if os_snprintf_error len res then -1 else res, buf).

Definition uuid_bin2str (bin : list Z) (str : list Z) (max_len : Z) : M (Z * list Z) :=
  let text := concat (map hex2 (take 4 bin)) ++ 45 :: concat (map hex2 (slice 4 2 bin)) ++
              45 :: concat (map hex2 (slice 6 2 bin)) ++ 45 :: concat (map hex2 (slice 8 2 bin)) ++
              45 :: concat (map hex2 (slice 10 6 bin)) in
  str ← snprintf_at str 0 max_len text;
  Ok (if os_snprintf_error max_len (zlen text) then -1 else 0, str).

Definition hex_upper (d : Z) : Z := if d <? 10 then 48 + d else 55 + d.
(** [%02X] and [%02x] of a byte *)
Definition hex2_case (uppercase : Z) (b : Z) : list Z :=
  if negb (uppercase =? 0) then [hex_upper (b / 16); hex_upper (b mod 16)] else hex2 b.

(** the loop of the two printers: [print b] is the expansion for one byte *)
Fixpoint hex_loop (print : Z -> list Z) (buf_size : Z) (buf : list Z) (pos : Z) (data : list Z)
    : M (bool * list Z * Z) :=
  match data with
  | [] => Ok (true, buf, pos)
  | b :: data =>
      let text := print b in
      buf ← snprintf_at buf pos (buf_size - pos) text;
      if os_snprintf_error (buf_size - pos) (zlen text) then
        buf ← wr buf (buf_size - 1) 0; Ok (false, buf, pos)
      else hex_loop print buf_size buf (pos + zlen text) data
  end.

Definition wpa_snprintf_hex_sep (buf : list Z) (buf_size : Z) (data : list Z) (sep : Z) : M (Z * list Z) :=
  if buf_size =? 0 then Ok (0, buf)
  else
    '(done, buf, pos) ← hex_loop (fun b => hex2 b ++ [sep]) buf_size buf 0 data;
    if done : bool then buf ← wr buf (pos - 1) 0; Ok (pos, buf) else Ok (pos, buf).

Definition _wpa_snprintf_hex (buf : list Z) (buf_size : Z) (data : list Z) (uppercase : Z) : M (Z * list Z) :=
  if buf_size =? 0 then Ok (0, buf)
  else
    '(done, buf, pos) ← hex_loop (hex2_case uppercase) buf_size buf 0 data;
    if done : bool then buf ← wr buf (buf_size - 1) 0; Ok (pos, buf) else Ok (pos, buf).

Definition wpa_snprintf_hex (buf : list Z) (buf_size : Z) (data : list Z) : M (Z * list Z) :=
  _wpa_snprintf_hex buf buf_size data 0.

Definition wpa_snprintf_hex_uppercase (buf : list Z) (buf_size : Z) (data : list Z) : M (Z * list Z) :=
  _wpa_snprintf_hex buf buf_size data 1.

(** *** Counters *)

(** from the last byte down to [pos] *)
Fixpoint inc_loop (rounds : nat) (counter : list Z) : M (list Z) :=
  match rounds with
  | O => Ok counter
  | S rounds =>
      let pos := Z.of_nat rounds in
      c ← rd counter pos;
      counter ← wr counter pos (u8 (c + 1));
      c ← rd counter pos;
      if negb (c =? 0) then Ok counter else inc_loop rounds counter
  end.

Definition inc_byte_array (counter : list Z) (len : Z) : M (list Z) := inc_loop (Z.to_nat len) counter.

(** ** Digits and bytes *)

Lemma hex2num_range c : -1 <= hex2num c < 16.
Proof. unfold hex2num. repeat case_match; lia. Qed.

Lemma hex2num_digit d : 0 <= d < 16 -> hex2num (hex_digit d) = d /\ hex2num (hex_upper d) = d.
Proof.
  intros. unfold hex2num, hex_digit, hex_upper. destruct (Z.ltb_spec d 10).
  - replace ((48 <=? 48 + d) && (48 + d <=? 57)) with true by lia. lia.
  - replace ((48 <=? 87 + d) && (87 + d <=? 57)) with false by lia.
    replace ((97 <=? 87 + d) && (87 + d <=? 102)) with true by lia.
    replace ((48 <=? 55 + d) && (55 + d <=? 57)) with false by lia.
    replace ((97 <=? 55 + d) && (55 + d <=? 102)) with false by lia.
    replace ((65 <=? 55 + d) && (55 + d <=? 70)) with true by lia. lia.
Qed.

Lemma digits_byte a b : 0 <= a < 16 -> 0 <= b < 16 -> Z.lor (Z.shiftl a 4) b = a * 16 + b.
Proof. intros. rewrite Z.shiftl_mul_pow2, lor_disjoint by (change (2 ^ 4) with 16; lia). done. Qed.

(** [print] writes a byte as two characters that hex2byte reads back *)
Definition hex_printer (print : Z -> list Z) : Prop :=
  forall b, is_byte b -> exists c d, print b = [c; d] /\ hex2num c = b / 16 /\ hex2num d = b mod 16.

Lemma hex2_case_printer u : hex_printer (hex2_case u).
Proof.
  intros b Hb. unfold is_byte in Hb.
  assert (0 <= b / 16 < 16) by (Z.div_mod_to_equations; lia). pose proof (Z.mod_pos_bound b 16 ltac:(lia)).
  unfold hex2_case, hex2. destruct (negb (u =? 0)); do 2 eexists; (split; [reflexivity|]);
    split; apply hex2num_digit; done.
Qed.

Lemma hex2_printer : hex_printer hex2.
Proof. apply (hex2_case_printer 0). Qed.

Lemma hex2byte_digits c d b rest : is_byte b -> hex2num c = b / 16 -> hex2num d = b mod 16 ->
  hex2byte (c :: d :: rest) = Ok b.
Proof.
  intros Hb Hc Hd. unfold is_byte in Hb. unfold hex2byte.
  change (rd (c :: d :: rest) 0) with (Ok c). change (rd (c :: d :: rest) 1) with (Ok d).
  rewrite !bind_ok, Hc, Hd. assert (0 <= b / 16 < 16) by (Z.div_mod_to_equations; lia).
  pose proof (Z.mod_pos_bound b 16 ltac:(lia)). replace (b / 16 <? 0) with false by lia.
  replace (b mod 16 <? 0) with false by lia. rewrite digits_byte by done. f_equal. Z.div_mod_to_equations; lia.
Qed.

Lemma hex2byte_print print b rest : hex_printer print -> is_byte b -> hex2byte (print b ++ rest) = Ok b.
Proof. intros Hp Hb. destruct (Hp b Hb) as (c & d & -> & Hc & Hd). by apply hex2byte_digits. Qed.

Lemma zlen_print print b : hex_printer print -> is_byte b -> zlen (print b) = 2.
Proof. intros Hp Hb. by destruct (Hp b Hb) as (c & d & -> & _). Qed.

Lemma drop_print print b rest : hex_printer print -> is_byte b -> drop 2 (print b ++ rest) = rest.
Proof. intros Hp Hb. by destruct (Hp b Hb) as (c & d & -> & _). Qed.

Lemma wr_splice (buf : list Z) i x : 0 <= i < zlen buf ->
  wr buf i x = Ok (take (Z.to_nat i) buf ++ x :: drop (Z.to_nat (i + 1)) buf).
Proof.
  intros. rewrite wr_ok by done. f_equal. unfold zlen in *. rewrite insert_take_drop by lia.
  do 3 f_equal. lia.
Qed.

(** reading back printed bytes into a buffer *)
Lemma hexstr2bin_loop_print print data i buf rest :
  hex_printer print -> bytes data -> 0 <= i -> i + zlen data <= zlen buf ->
  hexstr2bin_loop (length data) i (concat (map print data) ++ rest) buf =
  Ok (0, take (Z.to_nat i) buf ++ data ++ drop (Z.to_nat (i + zlen data)) buf).
Proof.
  intros Hp Hb. revert i buf. induction Hb as [|b data Hb _ IH]; intros i buf Hi Hl; cbn [length hexstr2bin_loop map concat app].
  - change (zlen (@nil Z)) with 0. rewrite Z.add_0_r. by rewrite take_drop.
  - rewrite zlen_cons in *. pose proof (zlen_nonneg data). rewrite <- app_assoc, hex2byte_print, bind_ok by done.
    unfold is_byte in Hb. replace (b <? 0) with false by lia. rewrite wr_ok, bind_ok, u8_small by lia.
    rewrite drop_print by done. rewrite IH by (autorewrite with arr; lia). do 2 f_equal.
    unfold zlen in *. replace (Z.to_nat (i + 1)) with (S (Z.to_nat i)) by lia.
    rewrite (take_S_r _ (Z.to_nat i) b) by (apply list_lookup_insert_eq; lia).
    rewrite take_insert_ge, <- app_assoc by lia. cbn [app]. do 3 f_equal.
    rewrite drop_insert_lt by lia. f_equal. lia.
Qed.

(** *** snprintf into the middle of a buffer *)

Lemma blit_ok (buf src : list Z) off : 0 <= off -> off + zlen src <= zlen buf ->
  exists b, blit buf off src = Ok b /\ zlen b = zlen buf /\
    take (Z.to_nat (off + zlen src)) b = take (Z.to_nat off) buf ++ src.
Proof.
  intros H1 H2. unfold blit. pose proof (zlen_nonneg src). replace (_ && _) with true by lia.
  eexists. split; [reflexivity|]. unfold zlen in *.
  split; [rewrite !length_app, length_take, length_drop; lia|].
  rewrite app_assoc. apply take_app_length'. rewrite length_app, length_take. lia.
Qed.

Lemma take_prefix_le (a : list Z) (n m : nat) p q : take n a = p ++ q -> m = length p -> (m <= n)%nat -> take m a = p.
Proof.
  intros E -> Hl. assert (take (length p) (take n a) = p) as Ht by (rewrite E; apply take_app_length).
  rewrite take_take in Ht. by rewrite Nat.min_l in Ht by lia.
Qed.

Lemma snprintf_at_fits (buf : list Z) pos size text :
  0 <= pos -> pos + size <= zlen buf -> zlen text < size ->
  exists b, snprintf_at buf pos size text = Ok b /\ zlen b = zlen buf /\
    take (Z.to_nat (pos + zlen text + 1)) b = take (Z.to_nat pos) buf ++ text ++ [0].
Proof.
  intros Hp Hs Ht. pose proof (zlen_nonneg text). unfold snprintf_at, snprintf. replace (size =? 0) with false by lia.
  cbn [fst]. rewrite take_ge by (unfold zlen in *; lia).
  destruct (blit_ok buf (text ++ [0]) pos) as (b & E & Hl & Ht'); [lia|autorewrite with arr; lia|].
  exists b. split; [done|]. split; [done|]. rewrite <- Ht'. f_equal. autorewrite with arr. lia.
Qed.

Lemma snprintf_at_any (buf : list Z) pos size text :
  0 <= pos -> 0 < size -> pos + size <= zlen buf ->
  exists b, snprintf_at buf pos size text = Ok b /\ zlen b = zlen buf /\ take (Z.to_nat pos) b = take (Z.to_nat pos) buf.
Proof.
  intros Hp Hs Hl. unfold snprintf_at, snprintf. replace (size =? 0) with false by lia. cbn [fst].
  assert (zlen (take (Z.to_nat (size - 1)) text ++ [0]) <= size) as Hsz
    by (autorewrite with arr; unfold zlen; rewrite length_take; lia).
  destruct (blit_ok buf (take (Z.to_nat (size - 1)) text ++ [0]) pos) as (b & E & Hbl & Ht); [lia|lia|].
  exists b. split; [done|]. split; [done|]. pose proof (zlen_nonneg (take (Z.to_nat (size - 1)) text ++ [0])).
  eapply (take_prefix_le b); [exact Ht| |lia]. unfold zlen in *. rewrite length_take. lia.
Qed.

Lemma wr_prefix (buf : list Z) i x (n : nat) : 0 <= i < zlen buf -> Z.of_nat n <= i ->
  exists b, wr buf i x = Ok b /\ zlen b = zlen buf /\ take n b = take n buf.
Proof.
  intros Hi Hn. rewrite wr_ok by done. eexists. split; [done|]. split; [apply zlen_insert|].
  apply take_insert_ge. lia.
Qed.

(** how many of [len] bytes a buffer of [n] has room for, and what is printed of them *)
Definition room (n pos len : Z) : Z := Z.min len ((n - pos - 1) / 2).

Lemma hex_loop_spec print n data (buf : list Z) pos :
  hex_printer print -> bytes data -> zlen buf = n -> 0 <= pos < n ->
  let k := room n pos (zlen data) in
  exists all buf', hex_loop print n buf pos data = Ok (all, buf', pos + 2 * k) /\ zlen buf' = n /\
    take (Z.to_nat (pos + 2 * k)) buf' = take (Z.to_nat pos) buf ++ concat (map print (take (Z.to_nat k) data)).
Proof.
  intros Hp Hb. revert buf pos. induction Hb as [|b data Hb _ IH]; intros buf pos Hl Hpos; cbn [hex_loop].
  - unfold room. rewrite zlen_nil, Z.min_l by (apply Z.div_pos; lia). exists true, buf.
    rewrite Z.mul_0_r, Z.add_0_r, take_nil. cbn. by rewrite app_nil_r.
  - pose proof (zlen_print print b Hp Hb) as H2. rewrite H2. rewrite zlen_cons. pose proof (zlen_nonneg data).
    unfold os_snprintf_error. rewrite (u32_small 2) by lia. cbn [Z.ltb Z.compare orb].
    destruct (Z.leb_spec (n - pos) 2).
    + destruct (snprintf_at_any buf pos (n - pos) (print b)) as (b1 & -> & Hl1 & Ht1); [lia..|]. rewrite bind_ok.
      destruct (wr_prefix b1 (n - 1) 0 (Z.to_nat pos)) as (b2 & -> & Hl2 & Ht2); [lia..|]. rewrite bind_ok.
      assert (room n pos (1 + zlen data) = 0) as -> by (unfold room; Z.div_mod_to_equations; lia).
      exists false, b2. rewrite Z.mul_0_r, Z.add_0_r. change (Z.to_nat 0) with 0%nat. cbn [take map concat]. rewrite app_nil_r.
      split; [done|]. split; [lia|congruence].
    + destruct (snprintf_at_fits buf pos (n - pos) (print b)) as (b1 & -> & Hl1 & Ht1); [lia..|]. rewrite bind_ok.
      rewrite H2 in Ht1. destruct (IH b1 (pos + 2)) as (all & buf' & E & Hl' & Ht'); [lia..|].
      assert (room n pos (1 + zlen data) = 1 + room n (pos + 2) (zlen data)) as -> by (unfold room; Z.div_mod_to_equations; lia).
      assert (0 <= room n (pos + 2) (zlen data)) by (unfold room; Z.div_mod_to_equations; lia).
      exists all, buf'. rewrite E. split; [do 2 f_equal; lia|]. split; [done|].
      replace (Z.to_nat (1 + room n (pos + 2) (zlen data))) with (S (Z.to_nat (room n (pos + 2) (zlen data)))) by lia.
      cbn [take map concat]. replace (pos + 2 * (1 + room n (pos + 2) (zlen data))) with (pos + 2 + 2 * room n (pos + 2) (zlen data)) by lia.
      rewrite Ht', app_assoc. f_equal. eapply (take_prefix_le b1); [rewrite <- app_assoc; exact Ht1| |lia].
      unfold zlen in *. rewrite length_app, length_take. lia.
Qed.

Lemma wpa_snprintf_hex_prefix (buf data : list Z) u : bytes data -> 0 < zlen buf ->
  let k := room (zlen buf) 0 (zlen data) in
  exists buf', _wpa_snprintf_hex buf (zlen buf) data u = Ok (2 * k, buf') /\ zlen buf' = zlen buf /\
    take (Z.to_nat (2 * k)) buf' = concat (map (hex2_case u) (take (Z.to_nat k) data)).
Proof.
  intros Hb Hn k. unfold _wpa_snprintf_hex. replace (zlen buf =? 0) with false by lia.
  destruct (hex_loop_spec (hex2_case u) (zlen buf) data buf 0) as (all & b & E & Hl & Ht); [apply hex2_case_printer|done|done|lia|].
  fold k in E, Ht. rewrite E, bind_ok. rewrite !Z.add_0_l in *. destruct all; [|by exists b].
  assert (0 <= k /\ 2 * k <= zlen buf - 1) as [Hk0 Hk]
    by (unfold k, room; pose proof (zlen_nonneg data); Z.div_mod_to_equations; lia).
  destruct (wr_prefix b (zlen buf - 1) 0 (Z.to_nat (2 * k))) as (b2 & -> & Hl2 & Ht2); [lia..|]. rewrite bind_ok.
  exists b2. split; [done|]. split; [lia|]. by rewrite Ht2.
Qed.

(** *** MAC addresses *)

Ltac six l H :=
  let x := fresh "x" in
  do 6 (destruct l as [|? l]; [exfalso; unfold zlen in H; simpl in H; lia|]);
  destruct l; [|exfalso; unfold zlen in H; simpl in H; lia].

Lemma hwaddr_parse_step r b rest addr : is_byte b -> zlen addr = 6 -> (r < 6)%nat ->
  hwaddr_parse_loop (S r) (hex2 b ++ (match r with O => rest | _ => 58 :: rest end)) addr =
  hwaddr_parse_loop r rest (<[(5 - r)%nat := b]> addr).
Proof.
  intros Hb Hl Hr. cbn [hwaddr_parse_loop]. rewrite (hex2byte_print hex2), bind_ok by (first [done | apply hex2_printer]).
  unfold is_byte in Hb. replace (b <? 0) with false by lia. unfold ETH_ALEN.
  rewrite wr_ok, bind_ok, u8_small, (drop_print hex2) by (first [apply hex2_printer | unfold is_byte; lia]).
  replace (Z.to_nat (6 - 1 - Z.of_nat r)) with (5 - r)%nat by lia.
  destruct r as [|r]; [done|]. by replace (6 - 1 - Z.of_nat (S r) <? 6 - 1) with true by lia.
Qed.

Lemma hwaddr_parse_macstr addr out rest :
  bytes addr -> zlen addr = 6 -> zlen out = 6 ->
  hwaddr_parse (MACSTR addr ++ rest) out = Ok (Some rest, addr).
Proof.
  intros Hb Hl Ho. six addr Hl. six out Ho.
  repeat match goal with H : bytes (_ :: _) |- _ => apply Forall_cons_1 in H as [? H] end.
  unfold hwaddr_parse. change (Z.to_nat ETH_ALEN) with 6%nat. cbn [MACSTR].
  repeat (rewrite <- app_assoc || rewrite <- app_comm_cons).
  etrans; [apply (hwaddr_parse_step 5); [done|done|lia]|]. etrans; [apply (hwaddr_parse_step 4); [done|done|lia]|].
  etrans; [apply (hwaddr_parse_step 3); [done|done|lia]|]. etrans; [apply (hwaddr_parse_step 2); [done|done|lia]|].
  etrans; [apply (hwaddr_parse_step 1); [done|done|lia]|]. etrans; [apply (hwaddr_parse_step 0); [done|done|lia]|].
  reflexivity.
Qed.

Lemma hwaddr_mask_txt_fits buf addr mask :
  zlen buf < 2 ^ 31 ->
  let text := if existsb (fun b => negb (b =? 0xff)) (take 6 mask) then MACSTR addr ++ 47 :: MACSTR mask else MACSTR addr in
  zlen text < 36 ->
  if zlen text <? zlen buf
  then exists b rest, hwaddr_mask_txt buf (zlen buf) addr mask = Ok (zlen text, b) /\ b = text ++ 0 :: rest
  else exists b, hwaddr_mask_txt buf (zlen buf) addr mask = Ok (-1, b).
Proof.
  intros Hn text Ht. pose proof (zlen_nonneg text). pose proof (zlen_nonneg buf).
  unfold hwaddr_mask_txt. change (Z.to_nat ETH_ALEN) with 6%nat. fold text. unfold os_snprintf_error. rewrite u32_small by lia.
  replace (zlen text <? 0) with false by lia. destruct (Z.ltb_spec (zlen text) (zlen buf)).
  - destruct (snprintf_at_fits buf 0 (zlen buf) text) as (b & -> & Hl & Hb); [lia..|]. rewrite bind_ok.
    replace (zlen buf <=? zlen text) with false by lia. rewrite <- (take_drop (Z.to_nat (0 + zlen text + 1)) b).
    rewrite Hb. change (Z.to_nat 0) with 0%nat. rewrite take_0, app_nil_l, <- app_assoc. do 2 eexists. split; reflexivity.
  - replace (zlen buf <=? zlen text) with true by lia. destruct (decide (zlen buf = 0)) as [E|].
    + rewrite E. unfold snprintf_at. cbn. by exists buf.
    + destruct (snprintf_at_any buf 0 (zlen buf) text) as (b & -> & _); [lia..|]. rewrite bind_ok. by exists b.
Qed.

(** *** No parser reads past the terminator of its text *)

Definition terminated (txt : list Z) : Prop := 0 ∈ txt.

Lemma terminated_cons c txt : terminated (c :: txt) -> c <> 0 -> terminated txt.
Proof. unfold terminated. rewrite elem_of_cons. intros [|]; [congruence|done]. Qed.

Lemma terminated_nonempty txt : terminated txt -> exists c rest, txt = c :: rest.
Proof. destruct txt; [by intros ?%elem_of_nil|eauto]. Qed.

Lemma hex2num_0 c : hex2num c < 0 \/ c <> 0.
Proof. destruct (decide (c = 0)) as [->|]; [left; by vm_compute|by right]. Qed.

(** two digits are consumed, or none *)
Lemma hex_digit_pair txt : terminated txt ->
  (exists c rest, txt = c :: rest /\ hex2num c < 0) \/
  (exists c d rest, txt = c :: d :: rest /\ 0 <= hex2num c /\ (hex2num d < 0 \/ terminated rest)).
Proof.
  intros Ht. destruct (terminated_nonempty txt Ht) as (c & rest & ->).
  destruct (Z.ltb_spec (hex2num c) 0); [left; eauto|right].
  destruct (hex2num_0 c); [lia|]. apply terminated_cons in Ht; [|done].
  destruct (terminated_nonempty rest Ht) as (d & rest' & ->). exists c, d, rest'. split; [done|]. split; [done|].
  destruct (hex2num_0 d); [by left|right]. by eapply terminated_cons.
Qed.

Lemma hex2byte_safe txt : terminated txt ->
  exists r, hex2byte txt = Ok r /\ (0 <= r -> is_byte r /\ terminated (drop 2 txt)).
Proof.
  intros Ht. unfold hex2byte. destruct (hex_digit_pair txt Ht) as [(c & rest & -> & Hc)|(c & d & rest & -> & Hc & Hd)].
  - exists (-1). change (rd (c :: rest) 0) with (Ok c). rewrite bind_ok. replace (hex2num c <? 0) with true by lia. split; [done|lia].
  - change (rd (c :: d :: rest) 0) with (Ok c). change (rd (c :: d :: rest) 1) with (Ok d). rewrite !bind_ok.
    replace (hex2num c <? 0) with false by lia. pose proof (hex2num_range c). pose proof (hex2num_range d).
    destruct (Z.ltb_spec (hex2num d) 0).
    + exists (-1). split; [done|lia].
    + exists (hex2num c * 16 + hex2num d). rewrite digits_byte by lia. split; [done|]. intros _. unfold is_byte. split; [lia|].
      cbn. destruct Hd; [lia|done].
Qed.

Lemma wr_six (addr : list Z) i x : zlen addr = 6 -> 0 <= i < 6 -> exists a, wr addr i x = Ok a /\ zlen a = 6.
Proof. intros. rewrite wr_ok by lia. eexists. split; [done|]. by rewrite zlen_insert. Qed.

Lemma hwaddr_parse_loop_safe rounds txt addr : terminated txt -> zlen addr = 6 -> (rounds <= 6)%nat ->
  exists r a, hwaddr_parse_loop rounds txt addr = Ok (r, a) /\ zlen a = 6 /\ (forall t, r = Some t -> terminated t).
Proof.
  revert txt addr. induction rounds as [|rounds IH]; intros txt addr Ht Hl Hr; cbn [hwaddr_parse_loop].
  - exists (Some txt), addr. split_and!; [done|done|]. by intros t [= <-].
  - destruct (hex2byte_safe txt Ht) as (v & -> & Hv). rewrite bind_ok. destruct (Z.ltb_spec v 0).
    + by exists None, addr.
    + destruct (Hv ltac:(done)) as [Hb Ht']. unfold ETH_ALEN.
      destruct (wr_six addr (6 - 1 - Z.of_nat rounds) (u8 v) Hl) as (a & -> & Ha); [lia|]. rewrite bind_ok.
      destruct (Z.ltb_spec (6 - 1 - Z.of_nat rounds) (6 - 1)); [|by apply IH; [..|lia]].
      destruct (terminated_nonempty _ Ht') as (c & rest & E). rewrite E in *.
      change (rd (c :: rest) 0) with (Ok c). rewrite bind_ok. cbn [drop skipn].
      destruct (Z.eqb_spec c 58) as [->|]; cbn [negb]; [|by exists None, a].
      apply IH; [by eapply terminated_cons|done|lia].
Qed.

Lemma hwaddr_compact_loop_safe rounds i txt addr : terminated txt -> zlen addr = 6 -> 0 <= i -> i + Z.of_nat rounds <= 6 ->
  exists r, hwaddr_compact_loop rounds i txt addr = Ok r.
Proof.
  revert i txt addr. induction rounds as [|rounds IH]; intros i txt addr Ht Hl Hi Hr; cbn [hwaddr_compact_loop]; [eauto|].
  destruct (hex_digit_pair txt Ht) as [(c & rest & -> & Hc)|(c & d & rest & -> & Hc & Hd)];
    change (rd (c :: ?l) 0) with (Ok c); rewrite bind_ok.
  - replace (hex2num c <? 0) with true by lia. eauto.
  - replace (hex2num c <? 0) with false by lia. change (rd (c :: d :: rest) 1) with (Ok d). rewrite bind_ok.
    destruct (Z.ltb_spec (hex2num d) 0); [eauto|]. destruct Hd as [|Hd]; [lia|].
    destruct (wr_six addr i (u8 (Z.lor (Z.shiftl (hex2num c) 4) (hex2num d))) Hl) as (a & -> & Ha); [lia|].
    rewrite bind_ok. apply IH; [done|done|lia|lia].
Qed.

Lemma skip_separators_safe txt : terminated txt -> exists t, skip_separators txt = Ok t /\ terminated t.
Proof.
  induction txt as [|c txt IH]; intros Ht; cbn [skip_separators]; [by apply elem_of_nil in Ht|].
  destruct ((c =? 58) || (c =? 46) || (c =? 45)) eqn:E; [|eauto]. apply IH. eapply terminated_cons; [done|lia].
Qed.

Lemma hwaddr_aton2_loop_safe rounds i txt pos addr : terminated pos -> zlen addr = 6 -> 0 <= i -> i + Z.of_nat rounds <= 6 ->
  exists r, hwaddr_aton2_loop rounds i txt pos addr = Ok r.
Proof.
  revert i pos addr. induction rounds as [|rounds IH]; intros i pos addr Ht Hl Hi Hr; cbn [hwaddr_aton2_loop]; [eauto|].
  destruct (skip_separators_safe pos Ht) as (t & -> & Ht'). rewrite bind_ok.
  destruct (hex_digit_pair t Ht') as [(c & rest & -> & Hc)|(c & d & rest & -> & Hc & Hd)];
    change (rd (c :: ?l) 0) with (Ok c); rewrite bind_ok.
  - replace (hex2num c <? 0) with true by lia. eauto.
  - replace (hex2num c <? 0) with false by lia. change (rd (c :: d :: rest) 1) with (Ok d). rewrite bind_ok.
    destruct (Z.ltb_spec (hex2num d) 0); [eauto|]. destruct Hd as [|Hd]; [lia|].
    destruct (wr_six addr i (u8 (Z.lor (Z.shiftl (hex2num c) 4) (hex2num d))) Hl) as (a & -> & Ha); [lia|].
    rewrite bind_ok. apply IH; [done|done|lia|lia].
Qed.

(** after a success the text continues behind the digits *)
Lemma hexstr2bin_loop_safe rounds i hex buf : terminated hex -> 0 <= i -> i + Z.of_nat rounds <= zlen buf ->
  exists r b, hexstr2bin_loop rounds i hex buf = Ok (r, b) /\ zlen b = zlen buf /\
    (r = 0 -> terminated (drop (2 * rounds) hex)).
Proof.
  revert i hex buf. induction rounds as [|rounds IH]; intros i hex buf Ht Hi Hr; cbn [hexstr2bin_loop].
  - exists 0, buf. by rewrite Nat.mul_0_r, drop_0.
  - destruct (hex2byte_safe hex Ht) as (v & -> & Hv). rewrite bind_ok. destruct (Z.ltb_spec v 0).
    + exists (-1), buf. done.
    + destruct (Hv ltac:(done)) as [_ Ht']. rewrite wr_ok, bind_ok by lia.
      destruct (IH (i + 1) (drop 2 hex) (<[Z.to_nat i := u8 v]> buf)) as (r & b & E & Hl & Hd);
        [done|lia|rewrite zlen_insert; lia|]. rewrite zlen_insert in Hl.
      exists r, b. split; [done|]. split; [done|]. intros Hr0. specialize (Hd Hr0).
      rewrite drop_drop in Hd. by replace (2 * S rounds)%nat with (2 + 2 * rounds)%nat by lia.
Qed.

Lemma uuid_fields_safe fields pos bin : terminated pos -> zlen bin = 16 ->
  Forall (fun f => 0 <= f.1 /\ 0 <= f.2 /\ f.1 + f.2 <= 16) fields -> exists r, uuid_fields fields pos bin = Ok r.
Proof.
  intros Ht Hl Hf. revert pos bin Ht Hl. induction Hf as [|[off len] fields (Ho & Hn & Hf) _ IH]; intros pos bin Ht Hl;
    cbn [uuid_fields]; [eauto|]. cbn in Ho, Hn, Hf.
  destruct (terminated_nonempty pos Ht) as (c & rest & ->). change (rd (c :: rest) 0) with (Ok c). rewrite bind_ok.
  destruct (Z.eqb_spec c 45) as [->|]; cbn [negb]; [|eauto]. change (drop 1 (45 :: rest)) with rest. apply terminated_cons in Ht; [|done].
  unfold hexstr2bin_at. destruct (hexstr2bin_loop_safe (Z.to_nat len) off rest bin) as (r & b & -> & Hb & Hd); [done|lia|lia|].
  rewrite bind_ok. destruct (Z.eqb_spec r 0) as [->|]; cbn [negb]; [|eauto]. apply IH; [|lia].
  replace (Z.to_nat (2 * len)) with (2 * Z.to_nat len)%nat by lia. by apply Hd.
Qed.

(** *** Round trips of UUIDs and counters *)

Lemma is_byte_u8 x : is_byte (u8 x).
Proof. apply u8_range. Qed.

(** a big-endian number *)
Definition be (bs : list Z) : Z := fold_left (fun v b => v * 256 + b) bs 0.

Lemma be_snoc bs b : be (bs ++ [b]) = be bs * 256 + b.
Proof. unfold be. by rewrite fold_left_app. Qed.

Lemma be_range bs : bytes bs -> 0 <= be bs < 256 ^ zlen bs.
Proof.
  intros H. induction bs as [|b bs IH] using rev_ind; [done|]. apply Forall_app in H as [H [Hb _]%Forall_cons_1].
  rewrite be_snoc. autorewrite with arr. rewrite Z.add_0_r, Z.pow_add_r by (try apply zlen_nonneg; lia). change (256 ^ 1) with 256.
  specialize (IH H). unfold is_byte in Hb. lia.
Qed.

(** adding one modulo the width *)
Lemma inc_loop_spec cs rest : bytes cs ->
  exists cs', inc_loop (length cs) (cs ++ rest) = Ok (cs' ++ rest) /\ bytes cs' /\ length cs' = length cs /\
    be cs' = (be cs + 1) mod 256 ^ zlen cs.
Proof.
  revert rest. induction cs as [|b cs IH] using rev_ind; intros rest Hb.
  - exists []. cbn. done.
  - apply Forall_app in Hb as [Hb [Hbb _]%Forall_cons_1]. rewrite length_app. cbn [length]. rewrite Nat.add_1_r. cbn [inc_loop].
    rewrite <- app_assoc. cbn [app]. pose proof (zlen_nonneg cs). pose proof (zlen_nonneg rest).
    assert (forall x l, rd (cs ++ x :: l) (Z.of_nat (length cs)) = Ok x) as Hrd.
    { intros x l. apply rd_lookup; [lia|]. by rewrite Nat2Z.id, lookup_app_r, Nat.sub_diag by lia. }
    rewrite Hrd, bind_ok, wr_ok by (autorewrite with arr; unfold zlen in *; lia).
    rewrite bind_ok, Nat2Z.id, insert_app_r_alt, Nat.sub_diag by lia. cbn [insert list_insert]. rewrite Hrd, bind_ok.
    destruct (IH (u8 (b + 1) :: rest) Hb) as (cs' & E & Hb' & Hl' & Hv).
    pose proof (be_range cs Hb) as Hr. unfold is_byte in Hbb.
    assert (zlen (cs ++ [b]) = zlen cs + 1) as Hz by (autorewrite with arr; lia).
    rewrite be_snoc, Hz, Z.pow_add_r by lia. change (256 ^ 1) with 256.
    destruct (Z.eqb_spec (u8 (b + 1)) 0) as [E0|E0]; cbn [negb].
    + assert (b = 255) as -> by (unfold u8 in E0; change (2 ^ 8) with 256 in E0; Z.div_mod_to_equations; lia).
      change (u8 (255 + 1)) with 0 in *. exists (cs' ++ [0]). rewrite E, <- app_assoc. split; [done|].
      split; [apply Forall_app_2; [done|by repeat constructor]|]. split; [rewrite length_app; cbn; lia|].
      rewrite be_snoc, Hv. replace (be cs * 256 + 255 + 1) with (256 * (be cs + 1)) by lia.
      rewrite (Z.mul_comm (256 ^ zlen cs)), Z.mul_mod_distr_l by (try apply Z.pow_nonzero; lia). lia.
    + assert (b < 255) by (destruct (decide (b = 255)); [subst; done|lia]).
      rewrite u8_small in * by (unfold u8 in E0; destruct (decide (b = 255)); [subst; done|lia]).
      exists (cs ++ [b + 1]). rewrite <- app_assoc. split; [done|].
      split; [apply Forall_app_2; [done|apply Forall_cons_2; [unfold is_byte; lia|done]]|]. split; [rewrite length_app; cbn; lia|].
      rewrite be_snoc, Z.mod_small by lia. lia.
Qed.

(** a text and the buffer it is read back from agree on a prefix *)
Lemma hexstr2bin_prefix print data txt buf :
  hex_printer print -> bytes data -> zlen data <= zlen buf ->
  take (Z.to_nat (2 * zlen data)) txt = concat (map print data) ->
  hexstr2bin txt buf (zlen data) = Ok (0, data ++ drop (length data) buf).
Proof.
  intros Hp Hb Hl Ht. unfold hexstr2bin, hexstr2bin_at. rewrite <- (take_drop (Z.to_nat (2 * zlen data)) txt), Ht.
  replace (Z.to_nat (zlen data)) with (length data) by (unfold zlen; lia).
  rewrite (hexstr2bin_loop_print print) by (first [done | lia]).
  change (Z.to_nat 0) with 0%nat. rewrite take_0, app_nil_l, Z.add_0_l. unfold zlen. by rewrite Nat2Z.id.
Qed.

Lemma length_print_concat print data : hex_printer print -> bytes data ->
  length (concat (map print data)) = (2 * length data)%nat.
Proof.
  intros Hp. induction 1 as [|b data Hb _ IH]; [done|]. cbn [map concat length].
  pose proof (zlen_print print b Hp Hb). unfold zlen in *. rewrite length_app, IH. lia.
Qed.

(** a field of a UUID is read back into its place *)
Lemma uuid_field_print data (len : Z) off fields rest bin :
  bytes data -> len = zlen data -> 0 <= off -> off + len <= zlen bin ->
  uuid_fields ((off, len) :: fields) (45 :: concat (map hex2 data) ++ rest) bin =
  uuid_fields fields rest (take (Z.to_nat off) bin ++ data ++ drop (Z.to_nat (off + len)) bin).
Proof.
  intros Hb -> Ho Hl. cbn [uuid_fields]. change (rd (45 :: ?l) 0) with (Ok 45). rewrite bind_ok. cbn [Z.eqb Pos.eqb negb].
  change (drop 1 (45 :: ?l)) with l. unfold hexstr2bin_at.
  replace (Z.to_nat (zlen data)) with (length data) by (unfold zlen; lia).
  rewrite (hexstr2bin_loop_print hex2), bind_ok by (first [done | apply hex2_printer]). cbn [Z.eqb negb].
  f_equal. apply drop_app_length'. rewrite length_print_concat by (first [done | apply hex2_printer]). unfold zlen. lia.
Qed.

Ltac sixteen l H :=
  do 16 (destruct l as [|? l]; [exfalso; unfold zlen in H; simpl in H; lia|]);
  destruct l; [|exfalso; unfold zlen in H; simpl in H; lia].

Lemma uuid_roundtrip bin out str : bytes bin -> zlen bin = 16 -> zlen out = 16 -> 36 < zlen str < 2 ^ 31 ->
  exists b, uuid_bin2str bin str (zlen str) = Ok (0, b) /\ uuid_str2bin b out = Ok (0, bin).
Proof.
  intros Hb Hl Ho Hs. sixteen bin Hl. sixteen out Ho.
  repeat match goal with H : bytes (_ :: _) |- _ => apply Forall_cons_1 in H as [? H] end.
  unfold uuid_bin2str. set (text := concat _ ++ _). assert (zlen text = 36) as Ht by reflexivity.
  destruct (snprintf_at_fits str 0 (zlen str) text) as (b & -> & Hbl & Hbt); [lia..|]. rewrite bind_ok, Ht.
  unfold os_snprintf_error. rewrite u32_small by lia. replace (zlen str <=? 36) with false by lia. cbn [Z.ltb Z.compare orb].
  exists b. split; [done|]. rewrite <- (take_drop (Z.to_nat (0 + zlen text + 1)) b), Hbt. change (Z.to_nat 0) with 0%nat.
  rewrite take_0, app_nil_l, <- app_assoc. generalize ([0] ++ drop (Z.to_nat (0 + zlen text + 1)) b). intros rest.
  unfold text. clear text Ht Hbt. unfold uuid_str2bin. cbn [take slice drop firstn skipn].
  repeat (rewrite <- app_assoc || rewrite <- app_comm_cons).
  unfold hexstr2bin_at. change (Z.to_nat 4) with (length [z; z0; z1; z2]).
  rewrite (hexstr2bin_loop_print hex2), bind_ok by (first [done | apply hex2_printer | by repeat apply Forall_cons_2]).
  change (negb (0 =? 0)) with false. cbv iota.
  change (drop 8 (concat (map hex2 [z; z0; z1; z2]) ++ ?l)) with l.
  rewrite !uuid_field_print by (first [reflexivity | by repeat apply Forall_cons_2 | by vm_compute]).
  reflexivity.
Qed.

(** ** Properties *)

(** Printing bytes in hexadecimal into a buffer of any size, in either
    case, writes nothing outside it and returns twice the number of bytes that
    leave room for a terminator; hexstr2bin reads exactly those bytes back. *)
Theorem hex_roundtrip buf data u out :
  bytes data -> 0 < zlen buf ->
  let k := Z.min (zlen data) ((zlen buf - 1) / 2) in
  k <= zlen out ->
  exists buf', _wpa_snprintf_hex buf (zlen buf) data u = Ok (2 * k, buf') /\ zlen buf' = zlen buf /\
    hexstr2bin buf' out k = Ok (0, take (Z.to_nat k) data ++ drop (Z.to_nat k) out).
Proof.
  intros Hb Hn k Hk. destruct (wpa_snprintf_hex_prefix buf data u Hb Hn) as (buf' & E & Hl & Ht).
  replace (room (zlen buf) 0 (zlen data)) with k in * by (unfold room, k; do 2 f_equal; lia).
  exists buf'. split; [done|]. split; [done|].
  assert (0 <= k) by (unfold k; pose proof (zlen_nonneg data); Z.div_mod_to_equations; lia).
  assert (zlen (take (Z.to_nat k) data) = k) as Hkl by (unfold zlen in *; rewrite length_take; lia).
  pose proof (hexstr2bin_prefix (hex2_case u) (take (Z.to_nat k) data) buf' out) as Hr. rewrite Hkl in Hr.
  rewrite Hr; [|apply hex2_case_printer|by apply Forall_take|done|done].
  do 3 f_equal. f_equal. unfold zlen in Hkl. lia.
Qed.

Lemma hex_roundtrip_witness :
  exists buf', _wpa_snprintf_hex (replicate 6 7) 6 [0xde; 0xad; 0xbe] 1 = Ok (4, buf') /\
    hexstr2bin buf' [9; 9; 9] 2 = Ok (0, [0xde; 0xad; 9]).
Proof.
  destruct (hex_roundtrip (replicate 6 7) [0xde; 0xad; 0xbe] 1 [9; 9; 9]) as (b & E & _ & Er);
    [by apply (bool_decide_unpack _); vm_compute|done|by vm_compute|].
  exists b. split; [exact E|exact Er].
Defined.

(** Hwaddr_mask_txt prints an address, and its mask unless all bits are
    set, when the buffer has room for the text and a terminator and returns -1
    otherwise; hwaddr_masked_aton reads both back, the omitted mask included. *)
Theorem mac_mask_roundtrip buf addr mask :
  bytes addr -> bytes mask -> zlen addr = 6 -> zlen mask = 6 -> zlen buf < 2 ^ 31 ->
  let n := if bool_decide (mask = replicate 6 0xff) then 17 else 35 in
  exists r b, hwaddr_mask_txt buf (zlen buf) addr mask = Ok (r, b) /\ r = (if n <? zlen buf then n else -1) /\
    (0 <= r -> forall a m, zlen a = 6 -> zlen m = 6 -> hwaddr_masked_aton b a m 1 = Ok (0, addr, mask)).
Proof.
  intros Hab Hmb Ha Hm Hn n. pose proof (hwaddr_mask_txt_fits buf addr mask Hn) as H. cbv zeta in H.
  assert (forall l, zlen l = 6 -> zlen (MACSTR l) = 17) as Hlen by (intros l Hl; six l Hl; reflexivity).
  assert (existsb (fun b => negb (b =? 0xff)) (take 6 mask) = negb (bool_decide (mask = replicate 6 0xff))) as Hex.
  { clear H. six mask Hm. destruct (bool_decide_reflect ([z; z0; z1; z2; z3; z4] = replicate 6 0xff)) as [E|Hne]; cbn [negb].
    - injection E as -> -> -> -> -> ->. reflexivity.
    - destruct (existsb _ _) eqn:E; [done|]. exfalso. apply Hne. cbn in E.
      rewrite !orb_false_iff, !negb_false_iff, !Z.eqb_eq in E. destruct_and!. by subst. }
  rewrite Hex in H. destruct (bool_decide_reflect (mask = replicate 6 0xff)) as [Em|Em]; cbn [negb] in H; unfold n; clear n.
  - rewrite Hlen in H by done. specialize (H ltac:(lia)). destruct (Z.ltb_spec 17 (zlen buf)).
    + destruct H as (b & rest & -> & ->). do 2 eexists. split; [done|]. split; [done|]. intros _ a m Hal Hml.
      unfold hwaddr_masked_aton. rewrite hwaddr_parse_macstr, bind_ok by done.
      change (rd (0 :: rest) 0) with (Ok 0). rewrite bind_ok. cbn [Z.eqb orb]. change (Z.to_nat ETH_ALEN) with 6%nat.
      rewrite blit_whole, bind_ok by (rewrite Hml; done). by rewrite Em.
    + destruct H as (b & ->). do 2 eexists. split; [done|]. split; [done|lia].
  - autorewrite with arr in H. rewrite !Hlen in H by done. specialize (H ltac:(lia)).
    change (17 + (1 + 17)) with 35 in H. destruct (Z.ltb_spec 35 (zlen buf)).
    + destruct H as (b & rest & -> & ->). do 2 eexists. split; [done|]. split; [done|]. intros _ a m Hal Hml.
      unfold hwaddr_masked_aton. rewrite <- app_assoc, <- app_comm_cons. rewrite hwaddr_parse_macstr, bind_ok by done.
      change (rd (47 :: ?l) 0) with (Ok 47). rewrite bind_ok. change ((47 =? 0) || is_space 47) with false.
      cbn [Z.eqb Pos.eqb negb andb]. change (drop 1 (47 :: ?l)) with l.
      by rewrite hwaddr_parse_macstr, bind_ok by done.
    + destruct H as (b & ->). do 2 eexists. split; [done|]. split; [done|lia].
Qed.

Lemma mac_mask_roundtrip_witness :
  exists b, hwaddr_mask_txt (replicate 36 1) 36 (seqZ 1 6) (seqZ 250 6) = Ok (35, b) /\
    hwaddr_masked_aton b (replicate 6 0) (replicate 6 0) 1 = Ok (0, seqZ 1 6, seqZ 250 6).
Proof.
  destruct (mac_mask_roundtrip (replicate 36 1) (seqZ 1 6) (seqZ 250 6)) as (r & b & E & -> & Hr);
    [by apply (bool_decide_unpack _); vm_compute|by apply (bool_decide_unpack _); vm_compute|done|done|done|].
  exists b. split; [exact E|]. by apply Hr.
Defined.

(** None of the parsers of addresses, UUIDs and hexadecimal strings reads
    past the terminator of its text or writes outside its buffers, whatever the
    text is. *)
Theorem text_parsers_safe txt addr mask bin buf maskable len :
  0 ∈ txt -> zlen addr = 6 -> zlen mask = 6 -> zlen bin = 16 -> 0 <= len <= zlen buf ->
  is_ok (hwaddr_aton txt addr) = true /\ is_ok (hwaddr_masked_aton txt addr mask maskable) = true /\
  is_ok (hwaddr_compact_aton txt addr) = true /\ is_ok (hwaddr_aton2 txt addr) = true /\
  is_ok (hexstr2bin txt buf len) = true /\ is_ok (uuid_str2bin txt bin) = true.
Proof.
  intros Ht Ha Hm Hb Hl. destruct (hwaddr_parse_loop_safe 6 txt addr Ht Ha ltac:(lia)) as (r & a & E & Hal & Hr).
  change (hwaddr_parse_loop 6 txt addr) with (hwaddr_parse txt addr) in E.
  split_and!.
  - unfold hwaddr_aton. by rewrite E.
  - unfold hwaddr_masked_aton. rewrite E, bind_ok. destruct r as [t|]; [|done]. specialize (Hr t eq_refl).
    destruct (terminated_nonempty t Hr) as (c & rest & ->). change (rd (c :: rest) 0) with (Ok c). rewrite bind_ok.
    destruct ((c =? 0) || is_space c) eqn:Ec; [by rewrite blit_whole by (rewrite Hm; done)|].
    destruct (negb (maskable =? 0) && (c =? 47)) eqn:E47; [|done].
    destruct (hwaddr_parse_loop_safe 6 rest mask) as (r2 & m2 & E2 & _); [eapply terminated_cons; [done|lia]|done|lia|].
    change (drop 1 (c :: rest)) with rest. unfold hwaddr_parse. change (Z.to_nat ETH_ALEN) with 6%nat. by rewrite E2.
  - unfold hwaddr_compact_aton. by destruct (hwaddr_compact_loop_safe 6 0 txt addr) as (? & ->); [..|lia|].
  - unfold hwaddr_aton2. by destruct (hwaddr_aton2_loop_safe 6 0 txt txt addr) as (? & ->); [..|lia|].
  - unfold hexstr2bin, hexstr2bin_at.
    by destruct (hexstr2bin_loop_safe (Z.to_nat len) 0 txt buf) as (? & ? & -> & _); [..|lia|].
  - unfold uuid_str2bin, hexstr2bin_at.
    destruct (hexstr2bin_loop_safe (Z.to_nat 4) 0 txt bin) as (r4 & b4 & -> & Hl4 & Hd4); [done|lia|rewrite Hb; done|].
    rewrite bind_ok. destruct (Z.eqb_spec r4 0) as [->|]; cbn [negb]; [|done].
    by destruct (uuid_fields_safe [(4, 2); (6, 2); (8, 2); (10, 6)] (drop 8 txt) b4) as (? & ->);
      [by apply Hd4|lia|repeat (apply Forall_cons_2; [cbn; lia|]); done|].
Qed.

Lemma text_parsers_safe_witness : is_ok (hwaddr_masked_aton (str "02:00:0" ++ [0]) (replicate 6 0) (replicate 6 0) 1) = true.
Proof.
  destruct (text_parsers_safe (str "02:00:0" ++ [0]) (replicate 6 0) (replicate 6 0) (replicate 16 0) [] 1 0)
    as (_ & H & _); [|done|done|done|done|exact H].
  apply list_elem_of_In. vm_compute. tauto.
Defined.
