(* ===== verification/BlockCipher.v ===== *)
(** * Block ciphers

    The interface between the crypto backends and the modes built on them
    (src/hostapd-2.5/src/crypto/aes.h): the operations aes_encrypt_init,
    aes_encrypt, aes_decrypt_init and aes_decrypt, each implemented by several
    backends of which the build selects one, and the laws of a block cipher on
    16-byte blocks.  The components that use AES are proved against the laws;
    a concrete instance shows that the laws can hold. *)

From S2P Require Import Prelude.

Class BlockCipher (ctx : Type) : Type := {
  aes_encrypt_init : list Z -> option ctx;
  aes_encrypt : ctx -> list Z -> list Z;
  aes_decrypt_init : list Z -> option ctx;
  aes_decrypt : ctx -> list Z -> list Z }.

(** decryption and encryption with the contexts of one key invert each other
    on blocks of 16 bytes *)
Class BlockCipherLaws (ctx : Type) `{BlockCipher ctx} : Prop := {
  encrypt_block c b : zlen b = 16 -> bytes b -> zlen (aes_encrypt c b) = 16 /\ bytes (aes_encrypt c b);
  decrypt_block c b : zlen b = 16 -> bytes b -> zlen (aes_decrypt c b) = 16 /\ bytes (aes_decrypt c b);
  decrypt_encrypt k ce cd b :
    aes_encrypt_init k = Some ce -> aes_decrypt_init k = Some cd ->
    zlen b = 16 -> bytes b -> aes_decrypt cd (aes_encrypt ce b) = b;
  encrypt_decrypt k ce cd b :
    aes_encrypt_init k = Some ce -> aes_decrypt_init k = Some cd ->
    zlen b = 16 -> bytes b -> aes_encrypt ce (aes_decrypt cd b) = b }.

(** ** Exclusive or of bytes *)

Ltac bytes_cons := repeat match goal with H : bytes (_ :: _) |- _ => apply Forall_cons_1 in H as [? H] end.

Lemma u8_lxor b v : is_byte b -> u8 (Z.lxor b v) = Z.lxor b (v mod 256).
Proof.
  intros Hb. unfold u8. change 256 with (2 ^ 8). rewrite <- !Z.land_ones by lia.
  apply Z.bits_inj'. intros k Hk. rewrite !Z.land_spec, !Z.lxor_spec, Z.land_spec, Z.testbit_ones by lia.
  replace (0 <=? k) with true by lia. destruct (Z.ltb_spec k 8); cbn [andb]; rewrite ?andb_true_r, ?andb_false_r; [done|].
  rewrite xorb_false_r. symmetry. unfold is_byte in Hb. destruct (decide (b = 0)) as [->|]; [apply Z.testbit_0_l|].
  apply Z.bits_above_log2; [lia|]. apply Z.lt_le_trans with 8; [|lia]. apply Z.log2_lt_pow2; lia.
Qed.

Lemma lxor_byte b v : is_byte b -> is_byte (Z.lxor b (v mod 256)).
Proof. intros. rewrite <- u8_lxor by done. apply u8_range. Qed.

(** [for (j = 0; j < n; j++) dst[j] ^= src[j];] *)
Fixpoint xor_into (n : nat) (dst src : list Z) : M (list Z) :=
  match n with
  | O => Ok dst
  | S n =>
      match dst, src with
      | d :: dst, s :: src => rest ← xor_into n dst src; Ok (Z.lxor d s :: rest)
      | _, _ => Err OutOfBounds
      end
  end.

Abbreviation xors := (zip_with Z.lxor).

Lemma xor_into_ok n dst src : (n <= length dst)%nat -> (n <= length src)%nat ->
  xor_into n dst src = Ok (xors (take n dst) (take n src) ++ drop n dst).
Proof.
  revert dst src. induction n as [|n IH]; intros dst src Hd Hs; [done|].
  destruct dst as [|d dst], src as [|s src]; cbn in Hd, Hs; try lia. cbn [xor_into].
  by rewrite IH, bind_ok by lia.
Qed.

Lemma xor_into_whole dst src : length dst = length src -> xor_into (length dst) dst src = Ok (xors dst src).
Proof.
  intros E. rewrite xor_into_ok by lia. rewrite !take_ge, drop_ge by lia. by rewrite app_nil_r.
Qed.

Lemma lxor_is_byte a b : is_byte a -> is_byte b -> is_byte (Z.lxor a b).
Proof.
  intros Ha Hb. replace b with (b mod 256) by (unfold is_byte in Hb; apply Z.mod_small; lia). by apply lxor_byte.
Qed.

Lemma xors_bytes a b : bytes a -> bytes b -> bytes (xors a b).
Proof.
  intros Ha. revert b. induction Ha as [|x a Hx _ IH]; intros b Hb; [by destruct b|].
  destruct Hb as [|y b Hy Hb]; [done|]. cbn. apply Forall_cons_2; [by apply lxor_is_byte|by apply IH].
Qed.

Lemma xors_involutive a b : length a = length b -> xors (xors a b) b = a.
Proof.
  revert b. induction a as [|x a IH]; intros [|y b] E; cbn in *; try done; try lia.
  rewrite Z.lxor_assoc, Z.lxor_nilpotent, Z.lxor_0_r. f_equal. apply IH. lia.
Qed.

Lemma xors_comm a b : xors a b = xors b a.
Proof. revert b. induction a as [|x a IH]; intros [|y b]; cbn; [done..|]. by rewrite Z.lxor_comm, IH. Qed.

Lemma length_xors a b : length (xors a b) = Nat.min (length a) (length b).
Proof. apply length_zip_with. Qed.

(** ** A concrete cipher: byte reversal and a key byte *)

#[export] Instance toy_cipher : BlockCipher Z := {
  aes_encrypt_init k := match k with b :: _ => Some (u8 b) | [] => None end;
  aes_encrypt c b := rev (map (fun x => Z.lxor x (c mod 256)) b);
  aes_decrypt_init k := match k with b :: _ => Some (u8 b) | [] => None end;
  aes_decrypt c b := map (fun x => Z.lxor x (c mod 256)) (rev b) }.

Lemma toy_bytes (c : Z) b : bytes b -> bytes (map (fun x => Z.lxor x (c mod 256)) b).
Proof. intros H. apply Forall_map. eapply Forall_impl; [|exact H]. intros x Hx. by apply lxor_byte. Qed.

Lemma toy_involution (c : Z) b : map (fun x => Z.lxor x (c mod 256)) (map (fun x => Z.lxor x (c mod 256)) b) = b.
Proof.
  rewrite map_map. rewrite <- (map_id b) at 2. apply map_ext. intros x.
  by rewrite Z.lxor_assoc, Z.lxor_nilpotent, Z.lxor_0_r.
Qed.

#[export] Instance toy_laws : BlockCipherLaws Z.
Proof.
  split; cbn [aes_encrypt aes_decrypt aes_encrypt_init aes_decrypt_init toy_cipher].
  - intros c b Hl Hb. unfold zlen in *. rewrite length_rev, length_map. split; [done|]. by apply Forall_rev, toy_bytes.
  - intros c b Hl Hb. unfold zlen in *. rewrite length_map, length_rev. split; [done|]. by apply toy_bytes, Forall_rev.
  - intros k ce cd b He Hd Hl Hb. assert (cd = ce) as -> by congruence. by rewrite rev_involutive, toy_involution.
  - intros k ce cd b He Hd Hl Hb. assert (cd = ce) as -> by congruence. by rewrite toy_involution, rev_involutive.
Qed.
