(* ===== verification/AesWrap.v ===== *)
(** * AES key wrap (src/hostapd-2.5/src/crypto/aes-wrap.c, aes-unwrap.c)

    Over the interface [BlockCipher].  Buffers are byte lists with pointers as
    offsets. *)

From S2P Require Import Prelude BlockCipher.

(** [buf[i] ^= v] on unsigned bytes *)
Definition xor_at (buf : list Z) (i v : Z) : M (list Z) :=
  b ← rd buf i; wr buf i (u8 (Z.lxor b v)).

(** the four lines that fold the round counter into bytes 7 to 4 *)
Definition xor_counter (a : list Z) (t : Z) : M (list Z) :=
  a ← xor_at a 7 t;
  a ← xor_at a 6 (Z.shiftr t 8);
  a ← xor_at a 5 (Z.shiftr t 16);
  xor_at a 4 (Z.shiftr t 24).

(** [t = n * j + i], computed in [int] *)
Definition counter (n j i : Z) : M Z :=
  if n * j + i <? 2 ^ 31 then Ok (n * j + i) else Err SignedOverflow.

Section Wrap.
Context {ctx : Type} {BC : BlockCipher ctx}.

(** one round of the inner loop on [cipher], whose first eight bytes are [a] *)
Definition wrap_body (c : ctx) (n j i : Z) (s : list Z * Z) : M (list Z * Z) :=
  let '(cipher, r) := s in
  b0 ← get cipher 0 8;
  b1 ← get cipher r 8;
  let b := aes_encrypt c (b0 ++ b1) in
  a ← get b 0 8;
  cipher ← blit cipher 0 a;
  t ← counter n j i;
  cipher ← xor_counter cipher t;
  b1 ← get b 8 8;
  cipher ← blit cipher r b1;
  Ok (cipher, r + 8).

Definition wrap_row (c : ctx) (n j : Z) (cipher : list Z) : M (list Z) :=
  '(cipher, _) ← cfor (S (Z.to_nat n)) (fun i => i + 1) (fun i => i <=? n) (wrap_body c n j) 1 (cipher, 8);
  Ok cipher.

(** the return value and the output buffer *)
Definition aes_wrap (kek : list Z) (n : Z) (plain cipher : list Z) : M (Z * list Z) :=
  cipher ← blit cipher 0 (replicate 8 0xa6);
  p ← get plain 0 (8 * n);
  cipher ← blit cipher 8 p;
  match aes_encrypt_init kek with
  | None => Ok (-1, cipher)
  | Some c =>
      cipher ← cfor 7 (fun j => j + 1) (fun j => j <=? 5) (fun j => wrap_row c n j) 0 cipher;
      Ok (0, cipher)
  end.

Definition unwrap_body (c : ctx) (n j i : Z) (s : list Z * list Z * Z) : M (list Z * list Z * Z) :=
  let '(a, plain, r) := s in
  t ← counter n j i;
  b0 ← xor_counter a t;
  b1 ← get plain r 8;
  let b := aes_decrypt c (b0 ++ b1) in
  a ← get b 0 8;
  b1 ← get b 8 8;
  plain ← blit plain r b1;
  Ok (a, plain, r - 8).

(** the inner loop counts [i] down from [n] to 1 *)
Fixpoint unwrap_cells (rounds : nat) (c : ctx) (n j i : Z) (s : list Z * list Z * Z) : M (list Z * list Z) :=
  match rounds with
  | O => Ok s.1
  | S rounds => s ← unwrap_body c n j i s; unwrap_cells rounds c n j (i - 1) s
  end.

(** the outer loop counts [j] down from [rows - 1] to 0 *)
Fixpoint unwrap_rows (rows : nat) (c : ctx) (n : Z) (s : list Z * list Z) : M (list Z * list Z) :=
  match rows with
  | O => Ok s
  | S rows =>
      let '(a, plain) := s in
      s ← unwrap_cells (Z.to_nat n) c n (Z.of_nat rows) n (a, plain, (n - 1) * 8);
      unwrap_rows rows c n s
  end.

Fixpoint check_iv (a : list Z) : bool :=
  match a with
  | [] => true
  | x :: a => if negb (x =? 0xa6) then false else check_iv a
  end.

Definition aes_unwrap (kek : list Z) (n : Z) (cipher plain : list Z) : M (Z * list Z) :=
  a ← get cipher 0 8;
  p ← get cipher 8 (8 * n);
  plain ← blit plain 0 p;
  match aes_decrypt_init kek with
  | None => Ok (-1, plain)
  | Some c =>
      '(a, plain) ← unwrap_rows 6 c n (a, plain);
      Ok (if check_iv a then 0 else -1, plain)
  end.

(** ** RFC 3394 on 64-bit blocks *)

(** the counter as a 64-bit mask *)
Definition mask (t : Z) (a : list Z) : list Z :=
  match a with
  | a0 :: a1 :: a2 :: a3 :: a4 :: a5 :: a6 :: a7 :: _ =>
      [a0; a1; a2; a3; Z.lxor a4 (t / 2 ^ 24 mod 256); Z.lxor a5 (t / 2 ^ 16 mod 256);
       Z.lxor a6 (t / 2 ^ 8 mod 256); Z.lxor a7 (t mod 256)]
  | _ => a
  end.

Definition wrap_step (c : ctx) (n : nat) (s : list Z * list (list Z)) (t : nat) : list Z * list (list Z) :=
  let '(a, R) := s in
  let p := ((t - 1) mod n)%nat in
  let b := aes_encrypt c (a ++ default [] (R !! p)) in
  (mask (Z.of_nat t) (take 8 b), <[p := drop 8 b]> R).

Definition unwrap_step (c : ctx) (n : nat) (s : list Z * list (list Z)) (t : nat) : list Z * list (list Z) :=
  let '(a, R) := s in
  let p := ((t - 1) mod n)%nat in
  let b := aes_decrypt c (mask (Z.of_nat t) a ++ default [] (R !! p)) in
  (take 8 b, <[p := drop 8 b]> R).

Definition rfc_wrap (c : ctx) (R : list (list Z)) : list Z * list (list Z) :=
  fold_left (wrap_step c (length R)) (seq 1 (6 * length R)) (replicate 8 0xa6, R).

Definition rfc_unwrap (c : ctx) (s : list Z * list (list Z)) : list Z * list (list Z) :=
  fold_left (unwrap_step c (length s.2)) (rev (seq 1 (6 * length s.2))) s.

(** ** Lemmas *)

Definition block8 (x : list Z) : Prop := zlen x = 8 /\ bytes x.

(** a state of the algorithm with [n] blocks *)
Definition good (n : nat) (s : list Z * list (list Z)) : Prop :=
  block8 s.1 /\ length s.2 = n /\ Forall block8 s.2.

(** how the code stores a state *)
Definition flat (s : list Z * list (list Z)) : list Z := s.1 ++ concat s.2.

Lemma block8_zlen R : Forall block8 R -> Forall (fun x => zlen x = 8) R.
Proof. apply Forall_impl. by intros x []. Qed.

Lemma block8_inv x : block8 x -> exists a0 a1 a2 a3 a4 a5 a6 a7, x = [a0; a1; a2; a3; a4; a5; a6; a7].
Proof.
  intros [Hl _]. unfold zlen in Hl. do 8 (destruct x as [|? x]; [simpl in Hl; lia|]).
  destruct x; [|simpl in Hl; lia]. by repeat eexists.
Qed.

Lemma mask_block8 t a : block8 a -> block8 (mask t a).
Proof.
  intros Ha. destruct (block8_inv a Ha) as (a0 & a1 & a2 & a3 & a4 & a5 & a6 & a7 & ->). destruct Ha as [_ Hb].
  split; [done|]. bytes_cons. cbn [mask].
  repeat (apply Forall_cons_2; [first [assumption | by apply lxor_byte]|]). apply Forall_nil_2.
Qed.

Lemma mask_mask t a : block8 a -> mask t (mask t a) = a.
Proof.
  intros Ha. destruct (block8_inv a Ha) as (a0 & a1 & a2 & a3 & a4 & a5 & a6 & a7 & ->). cbn [mask].
  by rewrite !Z.lxor_assoc, !Z.lxor_nilpotent, !Z.lxor_0_r.
Qed.

Lemma xor_at_lookup buf i v b : is_byte b -> buf !! Z.to_nat i = Some b -> 0 <= i ->
  xor_at buf i v = Ok (<[Z.to_nat i := Z.lxor b (v mod 256)]> buf).
Proof.
  intros Hb Hi H0. unfold xor_at. rewrite (proj2 (rd_lookup _ _ _ H0) Hi), bind_ok, u8_lxor by done.
  apply wr_ok. apply lookup_lt_Some in Hi. unfold zlen. lia.
Qed.

Lemma xor_counter_spec a rest t : block8 a -> xor_counter (a ++ rest) t = Ok (mask t a ++ rest).
Proof.
  intros Ha. destruct (block8_inv a Ha) as (a0 & a1 & a2 & a3 & a4 & a5 & a6 & a7 & ->). destruct Ha as [_ Hb].
  bytes_cons. unfold xor_counter. rewrite !Z.shiftr_div_pow2 by lia.
  rewrite (xor_at_lookup _ 7 _ a7) by done. rewrite bind_ok.
  rewrite (xor_at_lookup _ 6 _ a6) by done. rewrite bind_ok.
  rewrite (xor_at_lookup _ 5 _ a5) by done. rewrite bind_ok.
  by rewrite (xor_at_lookup _ 4 _ a4) by done.
Qed.

Lemma counter_ok n j i : n * j + i < 2 ^ 31 -> counter n j i = Ok (n * j + i).
Proof. intros. unfold counter. by replace (_ <? _) with true by lia. Qed.

(** the halves of a cipher block *)
Lemma halves b : zlen b = 16 -> bytes b ->
  block8 (take 8 b) /\ block8 (drop 8 b) /\ get b 0 8 = Ok (take 8 b) /\ get b 8 8 = Ok (drop 8 b).
Proof.
  intros Hl Hb. assert (zlen (take 8 b) = 8 /\ zlen (drop 8 b) = 8) as [H1 H2]
    by (unfold zlen in *; rewrite length_take, length_drop; lia).
  split; [split; [done|by apply Forall_take]|]. split; [split; [done|by apply Forall_drop]|].
  pose proof (take_drop 8 b) as E. split.
  - rewrite <- E at 1. by apply (get_app [] (take 8 b) (drop 8 b)).
  - rewrite <- E at 1. rewrite <- (app_nil_r (drop 8 b)) at 1. by apply (get_app (take 8 b) (drop 8 b) []).
Qed.

Lemma join_halves (b : list Z) : take 8 b ++ drop 8 b = b.
Proof. apply take_drop. Qed.

Lemma split_pair a x : block8 a -> block8 x ->
  zlen (a ++ x) = 16 /\ bytes (a ++ x) /\ take 8 (a ++ x) = a /\ drop 8 (a ++ x) = x.
Proof.
  intros [Ha Hab] [Hx Hxb]. autorewrite with arr. split; [lia|]. split; [by apply Forall_app_2|].
  unfold zlen in Ha. split; [apply take_app_length'|apply drop_app_length']; lia.
Qed.

Lemma index_mod n j i : (1 <= i <= n)%nat -> ((n * j + i - 1) mod n = i - 1)%nat.
Proof.
  intros. replace (n * j + i - 1)%nat with (i - 1 + j * n)%nat by lia.
  rewrite Nat.Div0.mod_add. apply Nat.mod_small. lia.
Qed.

Context {BCL : BlockCipherLaws ctx}.

Lemma wrap_step_good c n s t : good n s -> (0 < n)%nat -> good n (wrap_step c n s t).
Proof.
  destruct s as [a R]. intros (Ha & Hn & HR) Hpos. cbn in *. unfold wrap_step.
  assert ((t - 1) mod n < n)%nat as Hp by (apply Nat.mod_upper_bound; lia).
  destruct (lookup_lt_is_Some_2 R ((t - 1) mod n)) as [x Hx]; [lia|]. rewrite Hx. cbn [default from_option].
  assert (block8 x) as Hxb by (by eapply Forall_lookup_1 in HR).
  destruct (split_pair a x Ha Hxb) as (Hl & Hb & _). destruct (encrypt_block c _ Hl Hb) as [Hel Heb].
  destruct (halves _ Hel Heb) as (H1 & H2 & _). unfold good. cbn [fst snd].
  split; [by apply mask_block8|]. split; [by rewrite length_insert|]. by apply Forall_insert.
Qed.

Lemma unwrap_step_good c n s t : good n s -> (0 < n)%nat -> good n (unwrap_step c n s t).
Proof.
  destruct s as [a R]. intros (Ha & Hn & HR) Hpos. cbn in *. unfold unwrap_step.
  assert ((t - 1) mod n < n)%nat as Hp by (apply Nat.mod_upper_bound; lia).
  destruct (lookup_lt_is_Some_2 R ((t - 1) mod n)) as [x Hx]; [lia|]. rewrite Hx. cbn [default from_option].
  assert (block8 x) as Hxb by (by eapply Forall_lookup_1 in HR).
  destruct (split_pair (mask (Z.of_nat t) a) x) as (Hl & Hb & _); [by apply mask_block8|done|].
  destruct (decrypt_block c _ Hl Hb) as [Hel Heb].
  destruct (halves _ Hel Heb) as (H1 & H2 & _). unfold good. cbn [fst snd].
  split; [done|]. split; [by rewrite length_insert|]. by apply Forall_insert.
Qed.

Lemma steps_good {T} (f : list Z * list (list Z) -> T -> list Z * list (list Z)) n ts s :
  (forall s t, List.In t ts -> good n s -> good n (f s t)) -> good n s -> good n (fold_left f ts s).
Proof.
  revert s. induction ts as [|t ts IH]; intros s Hf Hs; cbn; [done|].
  apply IH; [intros s' t' Hin; apply Hf; by right|]. apply Hf; [by left|done].
Qed.

(** *** The code computes the steps *)

Lemma wrap_body_step c n j i s :
  good (Z.to_nat n) s -> 1 <= i <= n -> 0 <= j <= 5 -> 6 * n < 2 ^ 31 ->
  wrap_body c n j i (flat s, 8 * i) =
  Ok (flat (wrap_step c (Z.to_nat n) s (Z.to_nat (n * j + i))), 8 * i + 8).
Proof.
  destruct s as [a R]. intros (Ha & Hn & HR) Hi Hj Hs. cbn [fst snd] in *. unfold flat, wrap_body, wrap_step. cbn [fst snd].
  replace (Z.to_nat (n * j + i)) with (Z.to_nat n * Z.to_nat j + Z.to_nat i)%nat by nia.
  rewrite index_mod by lia. set (p := (Z.to_nat i - 1)%nat).
  destruct (lookup_lt_is_Some_2 R p) as [x Hx]; [lia|]. rewrite Hx. cbn [default from_option id].
  assert (block8 x) as Hxb by (by eapply Forall_lookup_1 in HR).
  pose proof (block8_zlen R HR) as HR8. destruct Ha as [Hal Hab].
  assert (8 * i = zlen a + 8 * Z.of_nat p) as Eoff by lia. rewrite Eoff.
  rewrite get_head, bind_ok by lia.
  rewrite get_shift by lia. rewrite (get_concat R 8 p x) by done. rewrite bind_ok.
  destruct (split_pair a x) as (Hl & Hb & _); [done..|]. destruct (encrypt_block c _ Hl Hb) as [Hel Heb].
  destruct (halves _ Hel Heb) as (H1 & H2 & -> & ->). rewrite bind_ok.
  rewrite blit_head, bind_ok by (rewrite (proj1 H1); lia).
  rewrite counter_ok, bind_ok by nia. rewrite xor_counter_spec, !bind_ok by done.
  destruct (mask_block8 (n * j + i) _ H1) as [Hml Hmb].
  replace (zlen a) with (zlen (mask (n * j + i) (take 8 (aes_encrypt c (a ++ x))))) by lia.
  rewrite blit_shift by lia. rewrite blit_concat, !bind_ok by (first [done | lia | apply H2]).
  do 3 f_equal. f_equal. nia.
Qed.

Definition flat_state (i : Z) (s : list Z * list (list Z)) : list Z * Z := (flat s, 8 * i).

Lemma seq_shift n j k : seq 1 (n * j) ++ seq (n * j + 1) k = seq 1 (n * j + k).
Proof. rewrite seq_app. do 2 f_equal. lia. Qed.

Lemma wrap_row_spec c n j s :
  good (Z.to_nat n) s -> 0 <= n -> 0 <= j <= 5 -> 6 * n < 2 ^ 31 ->
  wrap_row c n j (flat s) =
  Ok (flat (fold_left (wrap_step c (Z.to_nat n)) (seq (Z.to_nat n * Z.to_nat j + 1) (Z.to_nat n)) s)).
Proof.
  intros Hs Hn Hj Hb. unfold wrap_row.
  pose (P := fun i (st : list Z * Z) =>
    st = flat_state i (fold_left (wrap_step c (Z.to_nat n)) (seq (Z.to_nat n * Z.to_nat j + 1) (Z.to_nat (i - 1))) s)).
  edestruct (cfor_inv P (fun i => i + 1) (fun i => i <=? n) (wrap_body c n j) (n + 1)) as (st & -> & E); cycle -1.
  - rewrite bind_ok. unfold P in E. rewrite E. unfold flat_state. cbv iota. do 5 f_equal. lia.
  - lia.
  - lia.
  - done.
  - intros; lia.
  - intros i st Hi ->. eexists. split.
    + unfold flat_state. apply wrap_body_step; [|lia..]. apply steps_good; [|done]. intros s' t _ ?. apply wrap_step_good; [done|lia].
    + unfold P, flat_state. f_equal; [|lia]. f_equal.
      replace (Z.to_nat (i + 1 - 1)) with (S (Z.to_nat (i - 1))) by lia.
      rewrite seq_S, fold_left_app. cbn [fold_left]. f_equal. nia.
  - unfold P, flat_state. by replace (Z.to_nat (1 - 1)) with 0%nat by lia.
Qed.

Lemma wrap_rows_spec c n s :
  good (Z.to_nat n) s -> 0 <= n -> 6 * n < 2 ^ 31 ->
  cfor 7 (fun j => j + 1) (fun j => j <=? 5) (fun j => wrap_row c n j) 0 (flat s) =
  Ok (flat (fold_left (wrap_step c (Z.to_nat n)) (seq 1 (6 * Z.to_nat n)) s)).
Proof.
  intros Hs Hn Hb.
  pose (P := fun j st => st = flat (fold_left (wrap_step c (Z.to_nat n)) (seq 1 (Z.to_nat n * Z.to_nat j)) s)).
  edestruct (cfor_inv P (fun j => j + 1) (fun j => j <=? 5) (fun j => wrap_row c n j) 6 7 0 (flat s)) as (st & -> & E); cycle -1.
  - unfold P in E. rewrite E. do 4 f_equal. lia.
  - lia.
  - lia.
  - done.
  - intros; lia.
  - intros j st Hj ->. eexists. split.
    + apply wrap_row_spec; [|lia..]. apply steps_good; [|done].
      intros s' t [? ?]%in_seq ?. apply wrap_step_good; [done|nia].
    + unfold P. rewrite <- fold_left_app, seq_shift. do 3 f_equal. lia.
  - unfold P. by rewrite Nat.mul_0_r.
Qed.

Lemma unwrap_body_step c n j i s :
  good (Z.to_nat n) s -> 1 <= i <= n -> 0 <= j <= 5 -> 6 * n < 2 ^ 31 ->
  let s' := unwrap_step c (Z.to_nat n) s (Z.to_nat (n * j + i)) in
  unwrap_body c n j i (s.1, concat s.2, 8 * (i - 1)) = Ok (s'.1, concat s'.2, 8 * (i - 1) - 8).
Proof.
  destruct s as [a R]. intros (Ha & Hn & HR) Hi Hj Hs. cbn [fst snd] in *. unfold unwrap_body, unwrap_step. cbn [fst snd].
  replace (Z.to_nat (n * j + i)) with (Z.to_nat n * Z.to_nat j + Z.to_nat i)%nat by nia.
  rewrite index_mod by lia. set (p := (Z.to_nat i - 1)%nat).
  destruct (lookup_lt_is_Some_2 R p) as [x Hx]; [lia|]. rewrite Hx. cbn [default from_option id].
  assert (block8 x) as Hxb by (by eapply Forall_lookup_1 in HR).
  pose proof (block8_zlen R HR) as HR8.
  assert (8 * (i - 1) = 8 * Z.of_nat p) as -> by lia.
  replace (Z.of_nat (Z.to_nat n * Z.to_nat j + Z.to_nat i)) with (n * j + i) by nia.
  rewrite counter_ok, bind_ok by nia.
  pose proof (xor_counter_spec a [] (n * j + i) Ha) as E. rewrite !app_nil_r in E. rewrite E, bind_ok. clear E.
  rewrite (get_concat R 8 p x) by done. rewrite bind_ok.
  destruct (split_pair (mask (n * j + i) a) x) as (Hl & Hb & _); [by apply mask_block8|done|].
  destruct (decrypt_block c _ Hl Hb) as [Hel Heb].
  destruct (halves _ Hel Heb) as (H1 & H2 & -> & ->). rewrite !bind_ok.
  by rewrite blit_concat, bind_ok by (first [done | lia | apply H2]).
Qed.

Lemma unwrap_cells_spec c n j k s :
  good (Z.to_nat n) s -> (k <= Z.to_nat n)%nat -> 0 <= j <= 5 -> 6 * n < 2 ^ 31 ->
  let s' := fold_left (unwrap_step c (Z.to_nat n)) (rev (seq (Z.to_nat n * Z.to_nat j + 1) k)) s in
  unwrap_cells k c n j (Z.of_nat k) (s.1, concat s.2, 8 * (Z.of_nat k - 1)) = Ok (s'.1, concat s'.2).
Proof.
  intros Hs Hk Hj Hb. revert s Hs. induction k as [|k IH]; intros s Hs; [done|]. cbn [unwrap_cells].
  rewrite unwrap_body_step, bind_ok by (first [done | lia]).
  rewrite seq_S, rev_app_distr. cbn [rev app fold_left].
  replace (Z.to_nat (n * j + Z.of_nat (S k))) with (Z.to_nat n * Z.to_nat j + 1 + k)%nat by nia.
  replace (8 * (Z.of_nat (S k) - 1) - 8) with (8 * (Z.of_nat k - 1)) by lia.
  replace (Z.of_nat (S k) - 1) with (Z.of_nat k) by lia.
  apply IH; [lia|]. apply unwrap_step_good; [done|lia].
Qed.

Lemma unwrap_rows_spec c n rows s :
  good (Z.to_nat n) s -> 0 <= n -> (rows <= 6)%nat -> 6 * n < 2 ^ 31 ->
  let s' := fold_left (unwrap_step c (Z.to_nat n)) (rev (seq 1 (Z.to_nat n * rows))) s in
  unwrap_rows rows c n (s.1, concat s.2) = Ok (s'.1, concat s'.2).
Proof.
  intros Hs Hn Hr Hb. revert s Hs. induction rows as [|rows IH]; intros s Hs; cbn [unwrap_rows].
  - by rewrite Nat.mul_0_r.
  - replace ((n - 1) * 8) with (8 * (Z.of_nat (Z.to_nat n) - 1)) by lia.
    replace (unwrap_cells (Z.to_nat n) c n (Z.of_nat rows) n) with
      (unwrap_cells (Z.to_nat n) c n (Z.of_nat rows) (Z.of_nat (Z.to_nat n))) by (f_equal; lia).
    rewrite unwrap_cells_spec, bind_ok by (first [done | lia]). rewrite Nat2Z.id.
    replace (Z.to_nat n * S rows)%nat with (Z.to_nat n * rows + Z.to_nat n)%nat by lia.
    rewrite <- seq_shift, rev_app_distr, fold_left_app.
    apply IH; [lia|]. apply steps_good; [|done].
    intros s' t Hin%in_rev%in_seq ?. apply unwrap_step_good; [done|lia].
Qed.

(** *** Unwrapping inverts wrapping *)

Section Inverse.
Context (kek : list Z) (ce cd : ctx)
  (Hce : aes_encrypt_init kek = Some ce) (Hcd : aes_decrypt_init kek = Some cd).

Lemma unwrap_wrap_step n s t : good n s -> (0 < n)%nat -> unwrap_step cd n (wrap_step ce n s t) t = s.
Proof.
  destruct s as [a R]. intros (Ha & Hn & HR) Hpos. cbn in *. unfold wrap_step, unwrap_step.
  assert ((t - 1) mod n < n)%nat as Hp by (apply Nat.mod_upper_bound; lia).
  destruct (lookup_lt_is_Some_2 R ((t - 1) mod n)) as [x Hx]; [lia|]. rewrite Hx. cbn [default from_option id].
  assert (block8 x) as Hxb by (by eapply Forall_lookup_1 in HR).
  destruct (split_pair a x Ha Hxb) as (Hl & Hb & E1 & E2). destruct (encrypt_block ce _ Hl Hb) as [Hel Heb].
  destruct (halves _ Hel Heb) as (H1 & H2 & _).
  rewrite list_lookup_insert_eq by lia. cbn [default from_option id]. rewrite mask_mask, join_halves by done.
  rewrite (decrypt_encrypt kek) by done. rewrite E1, E2, list_insert_insert_eq. by rewrite list_insert_id.
Qed.

Lemma wrap_unwrap_step n s t : good n s -> (0 < n)%nat -> wrap_step ce n (unwrap_step cd n s t) t = s.
Proof.
  destruct s as [a R]. intros (Ha & Hn & HR) Hpos. cbn in *. unfold wrap_step, unwrap_step.
  assert ((t - 1) mod n < n)%nat as Hp by (apply Nat.mod_upper_bound; lia).
  destruct (lookup_lt_is_Some_2 R ((t - 1) mod n)) as [x Hx]; [lia|]. rewrite Hx. cbn [default from_option id].
  assert (block8 x) as Hxb by (by eapply Forall_lookup_1 in HR).
  destruct (split_pair (mask (Z.of_nat t) a) x) as (Hl & Hb & E1 & E2); [by apply mask_block8|done|].
  destruct (decrypt_block cd _ Hl Hb) as [Hel Heb]. destruct (halves _ Hel Heb) as (H1 & H2 & _).
  rewrite list_lookup_insert_eq by lia. cbn [default from_option id]. rewrite join_halves.
  rewrite (encrypt_decrypt kek) by done. rewrite E1, E2, mask_mask, list_insert_insert_eq by done. by rewrite list_insert_id.
Qed.

(** undoing a list of steps in the reverse order *)
Lemma undo_steps {S T} (Inv : S -> Prop) (f g : S -> T -> S) ts s :
  (forall s t, List.In t ts -> Inv s -> Inv (f s t) /\ g (f s t) t = s) -> Inv s ->
  fold_left g (rev ts) (fold_left f ts s) = s.
Proof.
  revert s. induction ts as [|t ts IH]; intros s Hf Hs; cbn; [done|].
  rewrite fold_left_app. cbn [fold_left]. destruct (Hf s t) as [Hi E]; [by left|done|].
  rewrite IH; [done|intros s' t' Hin; apply Hf; by right|done].
Qed.

Lemma rfc_unwrap_wrap n s : good n s -> 
  fold_left (unwrap_step cd n) (rev (seq 1 (n * 6))) (fold_left (wrap_step ce n) (seq 1 (6 * n)) s) = s.
Proof.
  intros Hs. rewrite Nat.mul_comm. apply (undo_steps (good n)); [|done]. intros s' t [? ?]%in_seq Hg. split.
  - apply wrap_step_good; [done|lia].
  - apply unwrap_wrap_step; [done|lia].
Qed.

Lemma rfc_wrap_unwrap n s : good n s ->
  fold_left (wrap_step ce n) (seq 1 (6 * n)) (fold_left (unwrap_step cd n) (rev (seq 1 (n * 6))) s) = s.
Proof.
  intros Hs. rewrite Nat.mul_comm. rewrite <- (rev_involutive (seq 1 (n * 6))) at 1.
  apply (undo_steps (good n)); [|done]. intros s' t Hin%in_rev%in_seq Hg. split.
  - apply unwrap_step_good; [done|lia].
  - apply wrap_unwrap_step; [done|lia].
Qed.
End Inverse.

(** *** Buffers as blocks *)

Fixpoint chunks (n : nat) (l : list Z) : list (list Z) :=
  match n with O => [] | S n => take 8 l :: chunks n (drop 8 l) end.

Lemma chunks_spec n l : zlen l = 8 * Z.of_nat n -> bytes l ->
  concat (chunks n l) = l /\ length (chunks n l) = n /\ Forall block8 (chunks n l).
Proof.
  revert l. induction n as [|n IH]; intros l Hl Hb; cbn [chunks concat length].
  - split; [|done]. destruct l; [done|]. rewrite zlen_cons in Hl. pose proof (zlen_nonneg l). lia.
  - assert (zlen (take 8 l) = 8 /\ zlen (drop 8 l) = 8 * Z.of_nat n) as [H1 H2]
      by (unfold zlen in *; rewrite length_take, length_drop; lia).
    destruct (IH (drop 8 l)) as (E & Hn & HR); [done|by apply Forall_drop|].
    rewrite E, Hn. split; [apply take_drop|]. split; [done|]. apply Forall_cons_2; [|done].
    split; [done|by apply Forall_take].
Qed.

Lemma chunks_concat R : Forall block8 R -> chunks (length R) (concat R) = R.
Proof.
  induction 1 as [|x R [Hx _] _ IH]; cbn [length chunks concat]; [done|]. unfold zlen in Hx.
  rewrite take_app_length', drop_app_length' by lia. by rewrite IH.
Qed.

Lemma iv_block8 : block8 (replicate 8 0xa6).
Proof. split; [done|]. apply Forall_replicate. unfold is_byte. lia. Qed.

Lemma check_iv_spec a : zlen a = 8 -> check_iv a = true <-> a = replicate 8 0xa6.
Proof.
  intros Hl. assert (length a = 8%nat) as <- by (unfold zlen in Hl; lia). clear Hl.
  induction a as [|x a IH]; cbn; [done|]. destruct (Z.eqb_spec x 0xa6) as [->|]; cbn; [|split; [done|congruence]].
  rewrite IH. split; [by intros <-|]. by intros [= <-].
Qed.

Lemma good_start n a l : block8 a -> zlen l = 8 * n -> bytes l -> 0 <= n -> good (Z.to_nat n) (a, chunks (Z.to_nat n) l).
Proof.
  intros Ha Hl Hb Hn. destruct (chunks_spec (Z.to_nat n) l) as (_ & Hc & HR); [lia|done|]. done.
Qed.

Lemma aes_wrap_rounds kek c n plain cipher :
  aes_encrypt_init kek = Some c -> 0 <= n -> 6 * n < 2 ^ 31 ->
  zlen plain = 8 * n -> bytes plain -> zlen cipher = 8 * (n + 1) ->
  aes_wrap kek n plain cipher =
  Ok (0, flat (fold_left (wrap_step c (Z.to_nat n)) (seq 1 (6 * Z.to_nat n)) (replicate 8 0xa6, chunks (Z.to_nat n) plain))).
Proof.
  intros Hc Hn Hs Hp Hb Hl. unfold aes_wrap. rewrite <- (take_drop 8 cipher).
  assert (zlen (take 8 cipher) = 8 /\ zlen (drop 8 cipher) = 8 * n) as [H1 H2]
    by (unfold zlen in *; rewrite length_take, length_drop; lia).
  rewrite blit_head, bind_ok by (rewrite H1; reflexivity).
  rewrite get_whole, bind_ok by done.
  rewrite blit_last, bind_ok by (first [done | lia]). rewrite Hc.
  destruct (chunks_spec (Z.to_nat n) plain) as (E & _); [lia|done|]. rewrite <- E at 1.
  change (replicate 8 0xa6 ++ concat ?R) with (flat (replicate 8 0xa6, R)).
  rewrite wrap_rows_spec; [by rewrite bind_ok|by apply good_start; [apply iv_block8|..]|done|done].
Qed.

Lemma aes_unwrap_rounds kek c n cipher plain :
  aes_decrypt_init kek = Some c -> 0 <= n -> 6 * n < 2 ^ 31 ->
  zlen cipher = 8 * (n + 1) -> bytes cipher -> zlen plain = 8 * n ->
  let s := fold_left (unwrap_step c (Z.to_nat n)) (rev (seq 1 (Z.to_nat n * 6)))
             (take 8 cipher, chunks (Z.to_nat n) (drop 8 cipher)) in
  aes_unwrap kek n cipher plain = Ok (if check_iv s.1 then 0 else -1, concat s.2).
Proof.
  intros Hc Hn Hs Hl Hb Hp s. unfold aes_unwrap. rewrite <- (take_drop 8 cipher).
  assert (zlen (take 8 cipher) = 8 /\ zlen (drop 8 cipher) = 8 * n) as [H1 H2]
    by (unfold zlen in *; rewrite length_take, length_drop; lia).
  rewrite get_head, bind_ok by done.
  rewrite get_last, bind_ok by lia. rewrite blit_whole, bind_ok by (first [done | lia]). rewrite Hc.
  destruct (chunks_spec (Z.to_nat n) (drop 8 cipher)) as (E & _); [lia|by apply Forall_drop|]. rewrite <- E at 1.
  pose proof (unwrap_rows_spec c n 6 (take 8 cipher, chunks (Z.to_nat n) (drop 8 cipher))) as Hu. cbn [fst snd] in Hu.
  rewrite Hu; [by rewrite bind_ok| |done|lia|done].
  apply good_start; [|done|by apply Forall_drop|done]. split; [done|by apply Forall_take].
Qed.

Lemma Ok_snd {A B} (a a' : A) (b b' : B) : Ok (a, b) = Ok (a', b') -> b = b'.
Proof. congruence. Qed.

Lemma flat_inj n s s' : good n s -> good n s' -> flat s = flat s' -> s = s'.
Proof.
  destruct s as [a R], s' as [a' R']. intros ([Ha _] & Hn & HR) ([Ha' _] & Hn' & HR') E. unfold flat in E. cbn in *.
  apply app_inj_1 in E as [-> E]; [|unfold zlen in *; lia].
  rewrite <- (chunks_concat R), <- (chunks_concat R') by done. by rewrite E, Hn, Hn'.
Qed.

(** the two directions together *)
Lemma aes_unwrap_spec kek ce cd n cipher plain buf :
  aes_encrypt_init kek = Some ce -> aes_decrypt_init kek = Some cd ->
  0 <= n -> 6 * n < 2 ^ 31 ->
  zlen cipher = 8 * (n + 1) -> bytes cipher -> zlen plain = 8 * n -> zlen buf = 8 * (n + 1) ->
  exists r p, aes_unwrap kek n cipher plain = Ok (r, p) /\ (r = 0 \/ r = -1) /\
    (r = 0 <-> aes_wrap kek n p buf = Ok (0, cipher)) /\
    (forall p', zlen p' = 8 * n -> bytes p' -> aes_wrap kek n p' buf = Ok (0, cipher) -> r = 0 /\ p = p').
Proof.
  intros Hce Hcd Hn Hs Hl Hb Hp Hbuf.
  pose proof (aes_unwrap_rounds kek cd n cipher plain Hcd Hn Hs Hl Hb Hp) as E. cbv zeta in E.
  assert (zlen (take 8 cipher) = 8 /\ zlen (drop 8 cipher) = 8 * n) as [H1 H2]
    by (unfold zlen in *; rewrite length_take, length_drop; lia).
  assert (good (Z.to_nat n) (take 8 cipher, chunks (Z.to_nat n) (drop 8 cipher))) as Hg
    by (apply good_start; [split; [done|by apply Forall_take]|done|by apply Forall_drop|done]).
  assert (flat (take 8 cipher, chunks (Z.to_nat n) (drop 8 cipher)) = cipher) as Hflat.
  { unfold flat. cbn. destruct (chunks_spec (Z.to_nat n) (drop 8 cipher)) as (-> & _); [lia|by apply Forall_drop|].
    apply take_drop. }
  revert E Hg Hflat. generalize (take 8 cipher, chunks (Z.to_nat n) (drop 8 cipher)). intros s0 E Hg Hflat.
  pose proof (rfc_wrap_unwrap kek ce cd Hce Hcd (Z.to_nat n) s0 Hg) as Hinv.
  assert (good (Z.to_nat n) (fold_left (unwrap_step cd (Z.to_nat n)) (rev (seq 1 (Z.to_nat n * 6))) s0)) as Hg'.
  { apply steps_good; [|done]. intros s' t Hin%in_rev%in_seq ?. apply unwrap_step_good; [done|lia]. }
  revert E Hinv Hg'. destruct (fold_left (unwrap_step cd _) _ s0) as [a R] eqn:Es. cbn [fst snd]. intros E Hinv (Ha & HRn & HR).
  assert (zlen (concat R) = 8 * n) as HRl by (rewrite (zlen_concat R 8) by (by apply block8_zlen); unfold zlen; cbn in HRn; lia).
  assert (bytes (concat R)) as HRb by (apply Forall_concat; eapply Forall_impl; [|exact HR]; by intros x []).
  assert (forall p', zlen p' = 8 * n -> bytes p' -> aes_wrap kek n p' buf = Ok (0, cipher) ->
    a = replicate 8 0xa6 /\ concat R = p') as Huniq.
  { intros p' Hp' Hb'. rewrite (aes_wrap_rounds kek ce) by done. intros Hw%Ok_snd.
    assert (good (Z.to_nat n) (replicate 8 0xa6, chunks (Z.to_nat n) p')) as Hgp by (by apply good_start; [apply iv_block8|..]).
    pose proof (rfc_unwrap_wrap kek ce cd Hce Hcd (Z.to_nat n) _ Hgp) as Hinv'.
    rewrite <- Hflat in Hw. apply (flat_inj (Z.to_nat n)) in Hw; [|apply steps_good; [|done]|done].
    - rewrite Hw, Es in Hinv'. injection Hinv' as -> ->. split; [done|]. apply chunks_spec; [lia|done].
    - intros s' t [? ?]%in_seq ?. apply wrap_step_good; [done|lia]. }
  exists (if check_iv a then 0 else -1), (concat R). split; [done|]. split; [destruct (check_iv a); auto|].
  assert (check_iv a = true <-> a = replicate 8 0xa6) as Hiv by (apply check_iv_spec, Ha).
  split; [split|].
  - destruct (check_iv a) eqn:Ec; [|lia]. intros _. rewrite (aes_wrap_rounds kek ce) by done.
    replace (chunks (Z.to_nat n) (concat R)) with R by (cbn in HRn; rewrite <- HRn; symmetry; by apply chunks_concat).
    rewrite <- (proj1 Hiv eq_refl), Hinv. by rewrite Hflat.
  - intros Hw. destruct (Huniq _ HRl HRb Hw) as [Eiv _]. by rewrite (proj2 Hiv Eiv).
  - intros p' Hp' Hb' Hw. destruct (Huniq _ Hp' Hb' Hw) as [Eiv <-]. by rewrite (proj2 Hiv Eiv).
Qed.
Lemma wrap_then_unwrap kek ce n plain buf :
  aes_encrypt_init kek = Some ce -> 0 <= n -> 6 * n < 2 ^ 31 ->
  zlen plain = 8 * n -> bytes plain -> zlen buf = 8 * (n + 1) ->
  exists cipher, aes_wrap kek n plain buf = Ok (0, cipher) /\ zlen cipher = 8 * (n + 1) /\ bytes cipher /\
    forall cd out, aes_decrypt_init kek = Some cd -> zlen out = 8 * n -> aes_unwrap kek n cipher out = Ok (0, plain).
Proof.
  intros Hce Hn Hs Hp Hb Hbuf. pose proof (aes_wrap_rounds kek ce n plain buf Hce Hn Hs Hp Hb Hbuf) as E.
  assert (good (Z.to_nat n) (fold_left (wrap_step ce (Z.to_nat n)) (seq 1 (6 * Z.to_nat n))
    (replicate 8 0xa6, chunks (Z.to_nat n) plain))) as Hg.
  { apply steps_good; [|by apply good_start; [apply iv_block8|..]]. intros s' t [? ?]%in_seq ?. apply wrap_step_good; [done|lia]. }
  revert E Hg. destruct (fold_left _ _ _) as [a R]. intros E ([Ha Hab] & HRn & HR). cbn [fst snd] in *.
  assert (zlen (a ++ concat R) = 8 * (n + 1)) as Hl.
  { rewrite zlen_app, (zlen_concat R 8) by (by apply block8_zlen). unfold zlen in *. lia. }
  assert (bytes (a ++ concat R)) as Hcb.
  { apply Forall_app_2; [done|]. apply Forall_concat. eapply Forall_impl; [|exact HR]. by intros x []. }
  exists (a ++ concat R). split; [done|]. split; [done|]. split; [done|]. intros cd out Hcd Hout.
  destruct (aes_unwrap_spec kek ce cd n (a ++ concat R) out buf) as (r & p & Eu & _ & _ & Hu); [done..|].
  destruct (Hu plain Hp Hb E) as [-> ->]. done.
Qed.

(** ** Properties *)

(** C24: for every block cipher, aes_wrap computes in place what RFC 3394
    defines on 64-bit blocks, inside the output buffer, and fails only when
    the cipher refuses the key, leaving the plaintext behind the initial value. *)
Theorem aes_wrap_correct kek n plain cipher :
  0 <= n -> 6 * n < 2 ^ 31 -> zlen plain = 8 * n -> bytes plain -> zlen cipher = 8 * (n + 1) ->
  aes_wrap kek n plain cipher =
  Ok (match aes_encrypt_init kek with
      | Some c => (0, flat (rfc_wrap c (chunks (Z.to_nat n) plain)))
      | None => (-1, replicate 8 0xa6 ++ plain)
      end).
Proof.
  intros Hn Hs Hp Hb Hl. destruct (aes_encrypt_init kek) as [c|] eqn:Hc.
  - rewrite (aes_wrap_rounds kek c) by done. unfold rfc_wrap.
    destruct (chunks_spec (Z.to_nat n) plain) as (_ & E & _); [lia|done|]. by rewrite E.
  - unfold aes_wrap. rewrite Hc, <- (take_drop 8 cipher).
    assert (zlen (take 8 cipher) = 8 /\ zlen (drop 8 cipher) = 8 * n) as [H1 H2]
      by (unfold zlen in *; rewrite length_take, length_drop; lia).
    rewrite blit_head, bind_ok by (rewrite H1; reflexivity).
    rewrite get_whole, bind_ok by done. by rewrite blit_last, bind_ok by (first [done | lia]).
Qed.

(** C25: aes_unwrap always ends inside its buffers; it reports success exactly
    when its input is what aes_wrap makes of the plaintext it returns, so that
    it undoes aes_wrap and accepts nothing else. *)
Theorem aes_unwrap_correct kek ce cd n cipher plain buf :
  aes_encrypt_init kek = Some ce -> aes_decrypt_init kek = Some cd ->
  0 <= n -> 6 * n < 2 ^ 31 ->
  zlen cipher = 8 * (n + 1) -> bytes cipher -> zlen plain = 8 * n -> zlen buf = 8 * (n + 1) ->
  exists r p, aes_unwrap kek n cipher plain = Ok (r, p) /\ (r = 0 \/ r = -1) /\
    (r = 0 <-> aes_wrap kek n p buf = Ok (0, cipher)) /\
    (forall p', zlen p' = 8 * n -> bytes p' -> aes_wrap kek n p' buf = Ok (0, cipher) -> r = 0 /\ p = p').
Proof. apply aes_unwrap_spec. Qed.
End Wrap.

Definition sample_key : list Z := seqZ 0 16.

Lemma aes_wrap_correct_witness :
  exists cipher, aes_wrap (ctx := Z) [0x42] 2 sample_key (replicate 24 0) = Ok (0, cipher) /\
    zlen cipher = 24.
Proof.
  eexists. split.
  - rewrite (aes_wrap_correct (ctx := Z)); [vm_compute; reflexivity|done|done|done|by apply (bool_decide_unpack _); vm_compute|done].
  - vm_compute. reflexivity.
Defined.

Lemma aes_unwrap_correct_witness :
  exists r p, aes_unwrap (ctx := Z) [0x42] 2 (replicate 24 7) (replicate 16 0) = Ok (r, p) /\ r = -1.
Proof.
  destruct (aes_unwrap_correct (ctx := Z) [0x42] 0x42 0x42 2 (replicate 24 7) (replicate 16 0) (replicate 24 0))
    as (r & p & E & _ & _ & _); [done|done|done|done|done|by apply (bool_decide_unpack _); vm_compute|done|done|].
  exists r, p. split; [exact E|]. vm_compute in E. by injection E.
Defined.
