(* ===== verification/AesCtr.v ===== *)
(** * AES counter and CBC modes (src/hostapd-2.5/src/crypto/aes-ctr.c, aes-cbc.c, aes-encblock.c)

    Over the interface [BlockCipher]; keys and nonces are byte lists from which
    sixteen bytes are read, [data] is changed in place. *)

From S2P Require Import Prelude BlockCipher HexText.

Section Modes.
Context {ctx : Type} {BC : BlockCipher ctx}.

Definition aes_128_encrypt_block (key inp : list Z) : M (Z * list Z) :=
  k ← get key 0 16;
  match aes_encrypt_init k with
  | None => Ok (-1, [])
  | Some c => b ← get inp 0 16; Ok (0, aes_encrypt c b)
  end.

(** the while loop on the bytes from [pos] on, [left] of which are to be changed *)
Fixpoint ctr_loop (fuel : nat) (c : ctx) (counter pos : list Z) (left : Z) : M (list Z) :=
  match fuel with
  | O => Err OutOfFuel
  | S fuel =>
      if 0 <? left then
        let buf := aes_encrypt c counter in
        let len := if left <? 16 then left else 16 in
        pos ← xor_into (Z.to_nat len) pos buf;
        counter ← inc_loop 16 counter;
        rest ← ctr_loop fuel c counter (drop (Z.to_nat len) pos) (left - len);
        Ok (take (Z.to_nat len) pos ++ rest)
      else Ok pos
  end.

Definition aes_128_ctr_encrypt (key nonce data : list Z) (data_len : Z) : M (Z * list Z) :=
  k ← get key 0 16;
  match aes_encrypt_init k with
  | None => Ok (-1, data)
  | Some c =>
      counter ← get nonce 0 16;
      data ← ctr_loop (S (Z.to_nat data_len)) c counter data data_len;
      Ok (0, data)
  end.

Fixpoint cbc_encrypt_loop (blocks : nat) (c : ctx) (cbc pos : list Z) : M (list Z) :=
  match blocks with
  | O => Ok pos
  | S blocks =>
      cbc ← xor_into 16 cbc pos;
      let cbc := aes_encrypt c cbc in
      pos ← blit pos 0 cbc;
      rest ← cbc_encrypt_loop blocks c cbc (drop 16 pos);
      Ok (take 16 pos ++ rest)
  end.

Definition aes_128_cbc_encrypt (key iv data : list Z) (data_len : Z) : M (Z * list Z) :=
  k ← get key 0 16;
  match aes_encrypt_init k with
  | None => Ok (-1, data)
  | Some c =>
      cbc ← get iv 0 16;
      data ← cbc_encrypt_loop (Z.to_nat (i32 (data_len / 16))) c cbc data;
      Ok (0, data)
  end.

Fixpoint cbc_decrypt_loop (blocks : nat) (c : ctx) (cbc pos : list Z) : M (list Z) :=
  match blocks with
  | O => Ok pos
  | S blocks =>
      tmp ← get pos 0 16;
      pos ← blit pos 0 (aes_decrypt c tmp);
      pos ← xor_into 16 pos cbc;
      rest ← cbc_decrypt_loop blocks c tmp (drop 16 pos);
      Ok (take 16 pos ++ rest)
  end.

Definition aes_128_cbc_decrypt (key iv data : list Z) (data_len : Z) : M (Z * list Z) :=
  k ← get key 0 16;
  match aes_decrypt_init k with
  | None => Ok (-1, data)
  | Some c =>
      cbc ← get iv 0 16;
      data ← cbc_decrypt_loop (Z.to_nat (i32 (data_len / 16))) c cbc data;
      Ok (0, data)
  end.

(** ** The key stream *)

(** [n] bytes of [v], most significant first *)
Definition to_be (n : nat) (v : Z) : list Z := rev (to_le n v).

Fixpoint keystream (c : ctx) (n : nat) (v : Z) : list Z :=
  match n with
  | O => []
  | S n => aes_encrypt c (to_be 16 v) ++ keystream c n (v + 1)
  end.

(** ** Lemmas *)

Lemma be_rev l : be (rev l) = le l.
Proof. induction l as [|b l IH]; [done|]. cbn [rev le]. rewrite be_snoc, IH. lia. Qed.

Lemma to_be_be bs : bytes bs -> to_be (length bs) (be bs) = bs.
Proof.
  intros H. unfold to_be. rewrite <- (rev_involutive bs) at 2. rewrite be_rev, <- length_rev.
  rewrite to_le_le by (by apply Forall_rev). apply rev_involutive.
Qed.

Lemma to_le_mod n v : to_le n (v mod 256 ^ Z.of_nat n) = to_le n v.
Proof.
  revert v. induction n as [|n IH]; intros v; [done|]. cbn [to_le].
  rewrite Nat2Z.inj_succ, Z.pow_succ_r by lia. assert (0 < 256 ^ Z.of_nat n) by (apply Z.pow_pos_nonneg; lia).
  rewrite Z.rem_mul_r by lia. f_equal.
  - rewrite Z.mul_comm, Z_mod_plus_full. apply Z.mod_mod. lia.
  - rewrite Z.mul_comm, Z.div_add by lia. rewrite (Z.div_small (v mod 256)) by (apply Z.mod_pos_bound; lia).
    rewrite Z.add_0_l. apply IH.
Qed.

Lemma length_to_be n v : length (to_be n v) = n.
Proof. unfold to_be. rewrite length_rev. apply length_to_le. Qed.

Lemma to_be_bytes n v : bytes (to_be n v).
Proof. apply Forall_rev, to_le_bytes. Qed.

(** the counter loop steps from one counter block to the next *)
Lemma inc_counter v : inc_loop 16 (to_be 16 v) = Ok (to_be 16 (v + 1)).
Proof.
  destruct (inc_loop_spec (to_be 16 v) [] (to_be_bytes 16 v)) as (cs & E & Hb & Hl & Hv).
  rewrite !app_nil_r in E. rewrite length_to_be in E, Hl. rewrite E. f_equal.
  rewrite <- (to_be_be cs Hb), Hl, Hv. unfold to_be. f_equal.
  unfold zlen. rewrite length_rev, length_to_le.
  rewrite be_rev, le_to_le, Z.add_mod_idemp_l by (apply Z.pow_nonzero; lia). apply to_le_mod.
Qed.

Context {BCL : BlockCipherLaws ctx}.

Lemma length_encrypt c b : zlen b = 16 -> bytes b -> length (aes_encrypt c b) = 16%nat.
Proof. intros Hl Hb. destruct (encrypt_block c b Hl Hb) as [E _]. unfold zlen in E. lia. Qed.

Lemma to_be_block v : zlen (to_be 16 v) = 16.
Proof. unfold zlen. by rewrite length_to_be. Qed.

Lemma length_keystream c n v : length (keystream c n v) = (16 * n)%nat.
Proof.
  revert v. induction n as [|n IH]; intros v; [done|]. cbn [keystream].
  rewrite length_app, IH, length_encrypt by (first [apply to_be_block | apply to_be_bytes]). lia.
Qed.

(** the number of 16-byte blocks that hold [n] bytes *)
Definition nblocks (n : nat) : nat := ((n + 15) / 16)%nat.

Lemma nblocks_small n : (0 < n <= 16)%nat -> nblocks n = 1%nat.
Proof. unfold nblocks. pose proof (Nat.div_mod_eq (n + 15) 16). pose proof (Nat.mod_upper_bound (n + 15) 16). lia. Qed.

Lemma nblocks_add n : nblocks (16 + n) = S (nblocks n).
Proof. unfold nblocks. replace (16 + n + 15)%nat with (n + 15 + 1 * 16)%nat by lia. rewrite Nat.div_add by lia. lia. Qed.

Lemma nblocks_bound n : (n <= 16 * nblocks n)%nat.
Proof. unfold nblocks. pose proof (Nat.div_mod_eq (n + 15) 16). pose proof (Nat.mod_upper_bound (n + 15) 16). lia. Qed.

Lemma xors_app_l a b k : (length a <= length k)%nat -> xors a (k ++ b) = xors a k.
Proof.
  revert k. induction a as [|x a IH]; intros [|y k] H; cbn in *; [done..|lia|]. rewrite IH by lia. done.
Qed.

(** the loop adds the key stream to the bytes it is given *)
Lemma ctr_loop_spec c fuel v pos :
  (length pos < fuel)%nat ->
  ctr_loop fuel c (to_be 16 v) pos (zlen pos) = Ok (xors pos (keystream c (nblocks (length pos)) v)).
Proof.
  revert v pos. induction fuel as [|fuel IH]; intros v pos Hf; [lia|]. cbn [ctr_loop]. unfold zlen.
  destruct (Z.ltb_spec 0 (Z.of_nat (length pos))) as [Hpos|Hpos]; [|by destruct pos; [|cbn in Hpos; lia]].
  pose proof (length_encrypt c (to_be 16 v) (to_be_block v) (to_be_bytes 16 v)) as He.
  destruct (decide (length pos <= 16)%nat) as [Hs|Hs].
  - assert ((if Z.of_nat (length pos) <? 16 then Z.of_nat (length pos) else 16) = Z.of_nat (length pos)) as ->
      by (destruct (Z.ltb_spec (Z.of_nat (length pos)) 16); lia).
    rewrite Nat2Z.id, xor_into_ok by lia. rewrite bind_ok, inc_counter, bind_ok, Z.sub_diag.
    rewrite (take_ge pos), (drop_ge pos), app_nil_r by lia. rewrite nblocks_small by lia. cbn [keystream]. rewrite app_nil_r.
    assert (xors pos (take (length pos) (aes_encrypt c (to_be 16 v))) = xors pos (aes_encrypt c (to_be 16 v))) as ->.
    { rewrite <- (take_drop (length pos) (aes_encrypt c (to_be 16 v))) at 2. rewrite xors_app_l; [done|].
      rewrite length_take. lia. }
    assert (length (xors pos (aes_encrypt c (to_be 16 v))) = length pos) as Hx by (rewrite length_xors; lia).
    rewrite drop_ge, take_ge by lia. destruct fuel as [|fuel]; [lia|]. cbn [ctr_loop Z.ltb Z.compare]. rewrite bind_ok, app_nil_r. done.
  - replace (Z.of_nat (length pos) <? 16) with false by lia. change (Z.to_nat 16) with 16%nat.
    rewrite xor_into_ok by lia. rewrite bind_ok, inc_counter, bind_ok. rewrite (take_ge (aes_encrypt c _)) by lia.
    assert (length (xors (take 16 pos) (aes_encrypt c (to_be 16 v))) = 16%nat) as Hx by (rewrite length_xors, length_take; lia).
    rewrite drop_app_length', take_app_length' by lia.
    replace (Z.of_nat (length pos) - 16) with (zlen (drop 16 pos)) by (unfold zlen; rewrite length_drop; lia).
    rewrite IH, bind_ok by (rewrite length_drop; lia). f_equal.
    assert (nblocks (length pos) = S (nblocks (length (drop 16 pos)))) as ->
      by (rewrite length_drop, <- nblocks_add; f_equal; lia).
    cbn [keystream]. rewrite <- zip_with_app by (rewrite length_take, He; lia). by rewrite take_drop.
Qed.

Lemma aes_128_ctr_spec key nonce data k c :
  get key 0 16 = Ok k -> aes_encrypt_init k = Some c -> zlen nonce = 16 -> bytes nonce ->
  aes_128_ctr_encrypt key nonce data (zlen data) =
  Ok (0, xors data (keystream c (nblocks (length data)) (be nonce))).
Proof.
  intros Hk Hc Hn Hb. unfold aes_128_ctr_encrypt. rewrite Hk, bind_ok, Hc, get_whole, bind_ok by done.
  replace nonce with (to_be 16 (be nonce)) at 1 by (replace 16%nat with (length nonce) by (unfold zlen in Hn; lia); by apply to_be_be).
  by rewrite ctr_loop_spec, bind_ok by (unfold zlen; lia).
Qed.

Lemma keystream_bytes c n v : bytes (keystream c n v).
Proof.
  revert v. induction n as [|n IH]; intros v; [done|]. cbn [keystream].
  apply Forall_app_2; [|apply IH]. apply encrypt_block; [apply to_be_block|apply to_be_bytes].
Qed.

(** the key stream of a nonce, added to as many bytes as there are *)
Definition add_stream (c : ctx) (v data : list Z) : list Z :=
  xors data (keystream c (nblocks (length data)) (be v)).

Lemma length_add_stream c v data : length (add_stream c v data) = length data.
Proof.
  unfold add_stream. rewrite length_xors, length_keystream. pose proof (nblocks_bound (length data)). lia.
Qed.

Lemma zlen_add_stream c v data : zlen (add_stream c v data) = zlen data.
Proof. unfold zlen. by rewrite length_add_stream. Qed.

Lemma add_stream_bytes c v data : bytes data -> bytes (add_stream c v data).
Proof. intros. apply xors_bytes; [done|]. apply keystream_bytes. Qed.

Lemma add_stream_involutive c v data : add_stream c v (add_stream c v data) = data.
Proof.
  pose proof (length_add_stream c v data) as Hl. unfold add_stream at 1. rewrite Hl. unfold add_stream.
  pose proof (nblocks_bound (length data)).
  rewrite <- (take_drop (length data) (keystream c _ _)).
  assert (length (take (length data) (keystream c (nblocks (length data)) (be v))) = length data) as Ht
    by (rewrite length_take, length_keystream; lia).
  rewrite !xors_app_l by (rewrite ?length_xors; lia). apply xors_involutive. lia.
Qed.
(** *** CBC *)

Section Inverse.
Context (k : list Z) (ce cd : ctx) (Hce : aes_encrypt_init k = Some ce) (Hcd : aes_decrypt_init k = Some cd).

Lemma cbc_inverse blocks cbc pos :
  zlen cbc = 16 -> bytes cbc -> bytes pos -> (16 * blocks <= length pos)%nat ->
  exists out, cbc_encrypt_loop blocks ce cbc pos = Ok out /\ length out = length pos /\ bytes out /\
    drop (16 * blocks) out = drop (16 * blocks) pos /\ cbc_decrypt_loop blocks cd cbc out = Ok pos.
Proof.
  revert cbc pos. induction blocks as [|blocks IH]; intros cbc pos Hc Hcb Hp Hl; [by exists pos|].
  assert (length cbc = 16%nat) as Hcl by (unfold zlen in Hc; lia).
  cbn [cbc_encrypt_loop cbc_decrypt_loop].
  replace (xor_into 16 cbc pos) with (Ok (xors cbc (take 16 pos)))
    by (rewrite xor_into_ok, (take_ge cbc), drop_ge, app_nil_r by lia; done).
  rewrite bind_ok. set (x := xors cbc (take 16 pos)).
  assert (zlen x = 16) as Hx by (unfold zlen, x; rewrite length_xors, length_take; lia).
  assert (bytes x) as Hxb by (apply xors_bytes; [done|by apply Forall_take]).
  destruct (encrypt_block ce x Hx Hxb) as [Hel Heb]. set (y := aes_encrypt ce x) in *.
  assert (length y = 16%nat) as Hyl by (unfold zlen in Hel; lia).
  replace (blit pos 0 y) with (Ok (y ++ drop 16 pos))
    by (rewrite <- (take_drop 16 pos) at 2; symmetry; apply blit_head; unfold zlen; rewrite length_take; lia).
  rewrite bind_ok.
  rewrite drop_app_length', take_app_length' by lia.
  destruct (IH y (drop 16 pos)) as (out & -> & Hol & Hob & Hod & Ho); [done|done|by apply Forall_drop|rewrite length_drop; lia|].
  rewrite bind_ok. exists (y ++ out). split; [done|]. rewrite length_app, Hol, length_drop. split; [lia|].
  split; [by apply Forall_app_2|]. split.
  - replace (16 * S blocks)%nat with (length y + 16 * blocks)%nat by lia. rewrite <- drop_drop, drop_app_length, Hod, drop_drop.
    f_equal. lia.
  - assert (aes_decrypt cd y = x) as Hdy by (by apply (decrypt_encrypt k)).
    rewrite get_head, bind_ok, Hdy, blit_head, bind_ok by lia.
    assert (length x = 16%nat) as Hxl by (unfold zlen in Hx; lia).
    rewrite xor_into_ok, bind_ok by (rewrite ?length_app; lia). rewrite (take_app_length' x out), (take_ge cbc), (drop_app_length' x out) by lia.
    rewrite drop_app_length', take_app_length' by (rewrite length_xors; lia). rewrite Ho, bind_ok.
    unfold x. rewrite (xors_comm cbc), xors_involutive by (rewrite length_take; lia). by rewrite take_drop.
Qed.
End Inverse.

(** ** Properties *)

(** Aes_128_ctr_encrypt adds to the data the encryptions of the 128-bit
    counters that follow the nonce, wrapping around, whatever the length of the
    data is; applied twice it gives the data back. *)
Theorem aes_ctr_correct key nonce data k c :
  get key 0 16 = Ok k -> aes_encrypt_init k = Some c -> zlen nonce = 16 -> bytes nonce ->
  let out := xors data (keystream c (nblocks (length data)) (be nonce)) in
  aes_128_ctr_encrypt key nonce data (zlen data) = Ok (0, out) /\ zlen out = zlen data /\
  aes_128_ctr_encrypt key nonce out (zlen out) = Ok (0, data).
Proof.
  intros Hk Hc Hn Hb out. pose proof (nblocks_bound (length data)).
  assert (length out = length data) as Hl by (unfold out; rewrite length_xors, length_keystream; lia).
  split; [by apply (aes_128_ctr_spec key nonce data k)|]. split; [unfold zlen; lia|].
  rewrite (aes_128_ctr_spec key nonce out k c) by done. fold (add_stream c nonce out).
  by rewrite (add_stream_involutive c nonce data : add_stream c nonce out = data).
Qed.

(** Aes_128_cbc_decrypt undoes aes_128_cbc_encrypt, which changes the
    whole blocks of the data and nothing behind them. *)
Theorem aes_cbc_roundtrip key iv data k ce cd :
  get key 0 16 = Ok k -> aes_encrypt_init k = Some ce -> aes_decrypt_init k = Some cd ->
  zlen iv = 16 -> bytes iv -> bytes data -> zlen data / 16 < 2 ^ 31 ->
  exists out, aes_128_cbc_encrypt key iv data (zlen data) = Ok (0, out) /\ zlen out = zlen data /\
    drop (16 * Z.to_nat (zlen data / 16)) out = drop (16 * Z.to_nat (zlen data / 16)) data /\
    aes_128_cbc_decrypt key iv out (zlen out) = Ok (0, data).
Proof.
  intros Hk Hce Hcd Hi Hib Hb Hl. assert (0 <= zlen data / 16) by (apply Z.div_pos; [apply zlen_nonneg|lia]).
  destruct (cbc_inverse k ce cd Hce Hcd (Z.to_nat (zlen data / 16)) iv data) as (out & E & Hol & Hob & Hd & Ho);
    [done|done|done|unfold zlen; Z.div_mod_to_equations; lia|].
  assert (zlen out = zlen data) as Hz by (unfold zlen; lia).
  exists out. unfold aes_128_cbc_encrypt, aes_128_cbc_decrypt. rewrite Hz, Hk, !bind_ok, Hce, Hcd, get_whole, !bind_ok by done.
  rewrite i32_small by lia. rewrite E, Ho, !bind_ok. done.
Qed.
End Modes.

Lemma aes_ctr_correct_witness :
  exists out, aes_128_ctr_encrypt (ctx := Z) (replicate 16 3) (replicate 16 255) (seqZ 0 40) 40 = Ok (0, out) /\
    aes_128_ctr_encrypt (ctx := Z) (replicate 16 3) (replicate 16 255) out (zlen out) = Ok (0, seqZ 0 40).
Proof.
  destruct (aes_ctr_correct (ctx := Z) (replicate 16 3) (replicate 16 255) (seqZ 0 40) (replicate 16 3) 3)
    as (E & _ & E2); [done|done|done|by apply (bool_decide_unpack _); vm_compute|].
  eexists. split; [exact E|exact E2].
Defined.

Lemma aes_cbc_roundtrip_witness :
  exists out, aes_128_cbc_encrypt (ctx := Z) (replicate 16 3) (seqZ 7 16) (seqZ 0 40) 40 = Ok (0, out) /\
    aes_128_cbc_decrypt (ctx := Z) (replicate 16 3) (seqZ 7 16) out (zlen out) = Ok (0, seqZ 0 40).
Proof.
  destruct (aes_cbc_roundtrip (ctx := Z) (replicate 16 3) (seqZ 7 16) (seqZ 0 40) (replicate 16 3) 3 3)
    as (out & E & _ & _ & E2);
    [done|done|done|done|by apply (bool_decide_unpack _); vm_compute|by apply (bool_decide_unpack _); vm_compute|done|].
  exists out. split; [exact E|exact E2].
Defined.
