(* ===== verification/AesOmac.v ===== *)
(** * OMAC1 (CMAC) over a vector of elements (src/hostapd-2.5/src/crypto/aes-omac1.c)

    Each element of the vector is a byte list of its length; reading past the
    end of an element is an error. *)

From S2P Require Import Prelude BlockCipher HexText AesCtr.

(** [pad[i] = (pad[i] << 1) | (pad[i + 1] >> 7)] for all but the last byte *)
Fixpoint shift_left_one (pad : list Z) : list Z :=
  match pad with
  | [] => []
  | [b] => [u8 (Z.shiftl b 1)]
  | b :: (b' :: _) as pad' => u8 (Z.lor (Z.shiftl b 1) (Z.shiftr b' 7)) :: shift_left_one pad'
  end.

Definition gf_mulx (pad : list Z) : M (list Z) :=
  b ← rd pad 0;
  let carry := Z.land b 0x80 in
  let pad := shift_left_one pad in
  if negb (carry =? 0) then
    l ← rd pad 15; wr pad 15 (Z.lxor l 0x87)
  else Ok pad.

(** what is left of the current element, and the elements behind it *)
Record reader : Type := { pos : list Z; more : list (list Z) }.

(** [rounds] rounds of an inner loop from index [i]: [stop] says whether the
    last round may end at the end of the vector *)
Fixpoint absorb (rounds : nat) (stop : bool) (i : Z) (cbc : list Z) (r : reader) : M (list Z * reader) :=
  match rounds with
  | O => Ok (cbc, r)
  | S rounds =>
      b ← rd (pos r) 0;
      let p := drop 1 (pos r) in
      c ← rd cbc i;
      cbc ← wr cbc i (Z.lxor c b);
      if zlen p =? 0 then
        if (Z.of_nat rounds =? 0) && stop then Ok (cbc, {| pos := p; more := more r |})
        else
          p ← rd (more r) 0;
          absorb rounds stop (i + 1) cbc {| pos := p; more := drop 1 (more r) |}
      else absorb rounds stop (i + 1) cbc {| pos := p; more := more r |}
  end.

Section Omac.
Context {ctx : Type} {BC : BlockCipher ctx}.

(** [while (left >= AES_BLOCK_SIZE)] *)
Fixpoint omac_blocks (fuel : nat) (c : ctx) (left : Z) (cbc : list Z) (r : reader) : M (Z * list Z * reader) :=
  match fuel with
  | O => Err OutOfFuel
  | S fuel =>
      if 16 <=? left then
        '(cbc, r) ← absorb 16 (left =? 16) 0 cbc r;
        let cbc := if 16 <? left then aes_encrypt c cbc else cbc in
        omac_blocks fuel c (left - 16) cbc r
      else Ok (left, cbc, r)
  end.

Definition total_length (elems : list (list Z)) : Z := fold_left (fun t e => t + zlen e) elems 0.

(** the value returned and [mac] *)
Definition omac1_aes_vector (key : list Z) (key_len : Z) (elems : list (list Z)) : M (Z * list Z) :=
  k ← get key 0 key_len;
  match aes_encrypt_init k with
  | None => Ok (-1, [])
  | Some c =>
      let total_len := total_length elems in
      p ← rd elems 0;
      '(left', cbc, r) ← omac_blocks (S (Z.to_nat total_len)) c total_len (replicate 16 0)
                          {| pos := p; more := drop 1 elems |};
      pad ← gf_mulx (aes_encrypt c (replicate 16 0));
      '(cbc, pad) ← (if negb (left' =? 0) || (total_len =? 0) then
                       '(cbc, _) ← absorb (Z.to_nat left') true 0 cbc r;
                       b ← rd cbc left';
                       cbc ← wr cbc left' (Z.lxor b 0x80);
                       pad ← gf_mulx pad;
                       Ok (cbc, pad)
                     else Ok (cbc, pad));
      pad ← xor_into 16 pad cbc;
      Ok (0, aes_encrypt c pad)
  end.

Definition omac1_aes_128_vector (key : list Z) (elems : list (list Z)) : M (Z * list Z) :=
  omac1_aes_vector key 16 elems.
Definition omac1_aes_128 (key data : list Z) : M (Z * list Z) := omac1_aes_128_vector key [data].
Definition omac1_aes_256 (key data : list Z) : M (Z * list Z) := omac1_aes_vector key 32 [data].

(** ** CMAC, from NIST SP 800-38B *)

(** doubling in GF(2^128), on the number the block denotes *)
Definition dbl_block (b : list Z) : list Z :=
  let v := be b in
  to_be 16 (if v <? 2 ^ 127 then 2 * v else Z.lxor (2 * v - 2 ^ 128) 0x87).

Fixpoint cbc_chain (n : nat) (c : ctx) (x msg : list Z) : list Z :=
  match n with
  | O => x
  | S n => cbc_chain n c (aes_encrypt c (xors x (take 16 msg))) (drop 16 msg)
  end.

Definition cmac (c : ctx) (msg : list Z) : list Z :=
  let K1 := dbl_block (aes_encrypt c (replicate 16 0)) in
  let K2 := dbl_block K1 in
  let n := (nblocks (length msg) - 1)%nat in
  let x := cbc_chain n c (replicate 16 0) msg in
  let last := drop (16 * n) msg in
  if decide (length last = 16%nat) then aes_encrypt c (xors K1 (xors x last))
  else aes_encrypt c (xors K2 (xors x (last ++ 0x80 :: replicate (15 - length last) 0))).

(** ** Doubling *)

Lemma be_cons b l : be (b :: l) = b * 256 ^ zlen l + be l.
Proof.
  induction l as [|c l IH] using rev_ind; [change (b = b * 1 + 0); lia|].
  rewrite app_comm_cons, !be_snoc, IH. autorewrite with arr. rewrite Z.add_0_r, Z.pow_add_r by (try apply zlen_nonneg; lia). lia.
Qed.

Lemma shift_pair b b' : is_byte b -> is_byte b' -> u8 (Z.lor (Z.shiftl b 1) (Z.shiftr b' 7)) = (2 * b + b' / 128) mod 256.
Proof.
  unfold is_byte. intros. rewrite Z.shiftl_mul_pow2, Z.shiftr_div_pow2 by lia. change (2 ^ 7) with 128.
  rewrite lor_disjoint by (change (2 ^ 1) with 2; Z.div_mod_to_equations; lia). unfold u8. f_equal; lia.
Qed.

Lemma length_shift l : length (shift_left_one l) = length l.
Proof. induction l as [|b [|b' l] IH]; [done..|]. cbn [shift_left_one length] in *. by rewrite IH. Qed.

Lemma shift_bytes l : bytes (shift_left_one l).
Proof.
  induction l as [|b [|b' l] IH]; [done|..]; (apply Forall_cons_2; [apply is_byte_u8|]); [done|exact IH].
Qed.

Lemma shift_be l : bytes l -> be (shift_left_one l) = (2 * be l) mod 256 ^ zlen l.
Proof.
  induction l as [|b [|b' l] IH]; intros Hb; [done|..].
  - apply Forall_cons_1 in Hb as [Hb _].
    change (be (shift_left_one [b])) with (u8 (Z.shiftl b 1)). change (be [b]) with b. change (256 ^ zlen [b]) with 256.
    rewrite Z.shiftl_mul_pow2 by lia. unfold u8. change (2 ^ 8) with 256. change (2 ^ 1) with 2. f_equal. lia.
  - apply Forall_cons_1 in Hb as [Hb Hl]. specialize (IH Hl).
    pose proof Hl as Hl'. apply Forall_cons_1 in Hl' as [Hb' Hbl].
    change (shift_left_one (b :: b' :: l)) with (u8 (Z.lor (Z.shiftl b 1) (Z.shiftr b' 7)) :: shift_left_one (b' :: l)).
    rewrite shift_pair by done. rewrite (be_cons _ (shift_left_one _)), IH, (be_cons b (b' :: l)).
    assert (zlen (shift_left_one (b' :: l)) = zlen (b' :: l)) as -> by (unfold zlen; by rewrite length_shift).
    rewrite (zlen_cons b). pose proof (zlen_nonneg l). set (n := zlen (b' :: l)). assert (0 <= n) by apply zlen_nonneg.
    rewrite Z.pow_add_r by lia. change (256 ^ 1) with 256.
    assert (2 * be (b' :: l) / 256 ^ n = b' / 128) as Hd.
    { rewrite be_cons. unfold n. rewrite zlen_cons, Z.pow_add_r by lia. change (256 ^ 1) with 256.
      pose proof (be_range l Hbl) as Hr. set (P := 256 ^ zlen l) in *.
      assert (0 < P) by (apply Z.pow_pos_nonneg; [lia|done]).
      rewrite (Z.mul_comm 256 P), <- Z.div_div by lia.
      replace (2 * (b' * P + be l)) with (2 * be l + (2 * b') * P) by lia. rewrite Z.div_add by lia.
      assert (2 * be l / P = 0 \/ 2 * be l / P = 1) as [->| ->];
        [|unfold is_byte in Hb'; Z.div_mod_to_equations; lia..].
      assert (0 <= 2 * be l / P < 2); [|lia]. split; [apply Z.div_pos; lia|apply Z.div_lt_upper_bound; lia]. }
    assert (0 < 256 ^ n) by (apply Z.pow_pos_nonneg; lia).
    rewrite (Z.mul_comm 256 (256 ^ n)), Z.rem_mul_r by lia.
    replace (2 * (b * 256 ^ n + be (b' :: l))) with (2 * be (b' :: l) + (2 * b) * 256 ^ n) by lia.
    rewrite Z_mod_plus_full, Z.div_add, Hd by lia. replace (b' / 128 + 2 * b) with (2 * b + b' / 128) by lia. lia.
Qed.

Lemma lxor_low v x y : is_byte x -> is_byte y -> Z.lxor (v * 256 + x) y = v * 256 + Z.lxor x y.
Proof.
  intros Hx Hy. pose proof (lxor_is_byte x y Hx Hy) as Hxy. unfold is_byte in *. change 256 with (2 ^ 8) in *.
  rewrite <- !lor_disjoint by lia. apply Z.bits_inj'. intros k Hk. rewrite Z.lxor_spec, !Z.lor_spec, Z.lxor_spec.
  destruct (Z.ltb_spec k 8).
  - by rewrite Z.mul_pow2_bits_low by lia.
  - assert (Z.testbit y k = false) as ->; [|by destruct (Z.testbit _ k), (Z.testbit x k)].
    destruct (decide (y = 0)) as [->|]; [apply Z.testbit_0_l|]. apply Z.bits_above_log2; [lia|].
    apply Z.lt_le_trans with 8; [apply Z.log2_lt_pow2; lia|lia].
Qed.

Definition block16 (b : list Z) : Prop := zlen b = 16 /\ bytes b.

Lemma length_block16 b : block16 b -> length b = 16%nat.
Proof. intros [H _]. unfold zlen in H. lia. Qed.

Lemma dbl_block16 b : block16 (dbl_block b).
Proof. split; [apply to_be_block|apply to_be_bytes]. Qed.

Definition carry_check (b : Z) : bool := Bool.eqb (Z.land b 0x80 =? 0) (b <? 128).

Lemma carry_spec b : is_byte b -> (Z.land b 0x80 =? 0) = (b <? 128).
Proof.
  intros Hb. assert (carry_check b = true) as H by (by apply byte_forall; [vm_compute|]). by apply Bool.eqb_prop.
Qed.

(** gf_mulx doubles a block in the field *)
Lemma gf_mulx_spec pad : block16 pad -> gf_mulx pad = Ok (dbl_block pad).
Proof.
  intros Hp. pose proof (length_block16 pad Hp) as Hlen. destruct Hp as [Hl Hb].
  pose proof (shift_be pad Hb) as Hs. rewrite Hl in Hs. pose proof (be_range pad Hb) as Hr. rewrite Hl in Hr.
  pose proof (shift_bytes pad) as Hsb. pose proof (length_shift pad) as Hsl.
  unfold gf_mulx, dbl_block. destruct pad as [|b0 pad']; [done|].
  change (rd (b0 :: pad') 0) with (Ok b0). rewrite bind_ok.
  assert (be (b0 :: pad') = b0 * 256 ^ 15 + be pad' /\ 0 <= be pad' < 256 ^ 15) as [Ebe Hr'].
  { rewrite be_cons. rewrite zlen_cons in Hl. replace (zlen pad') with 15 by lia. split; [done|].
    apply Forall_cons_1 in Hb as [_ Hb]. pose proof (be_range pad' Hb). by replace (zlen pad') with 15 in * by lia. }
  assert (is_byte b0) as Hb0 by (by apply Forall_cons_1 in Hb as [? _]). rewrite carry_spec by done.
  assert ((b0 <? 128) = (be (b0 :: pad') <? 2 ^ 127)) as ->.
  { rewrite Ebe. change (2 ^ 127) with (128 * 256 ^ 15). unfold is_byte in Hb0.
    destruct (Z.ltb_spec b0 128), (Z.ltb_spec (b0 * 256 ^ 15 + be pad') (128 * 256 ^ 15)); lia. }
  change (256 ^ 16) with (2 ^ 128) in *. revert Hs Hsb Hsl Hr. generalize (be (b0 :: pad')). intros v Hs Hsb Hsl Hr.
  set (sh := shift_left_one (b0 :: pad')) in *. clearbody sh.
  change (2 ^ 127) with (2 ^ 128 / 2) in *. change (2 ^ 128) with 340282366920938463463374607431768211456 in *.
  destruct (Z.ltb_spec v (340282366920938463463374607431768211456 / 2)) as [Hv|Hv]; cbn [negb].
  - f_equal. rewrite <- (to_be_be sh Hsb), Hs, Hsl, Hlen. f_equal. apply Z.mod_small. Z.div_mod_to_equations; lia.
  - destruct sh as [|x lo _] using rev_ind; [cbn in Hsl; lia|].
    rewrite length_app in Hsl. cbn [length] in Hsl, Hlen.
    rewrite rd_app_r by (unfold zlen; lia). replace (15 - zlen lo) with 0 by (unfold zlen; lia).
    change (rd [x] 0) with (Ok x). rewrite bind_ok, wr_ok by (autorewrite with arr; unfold zlen; lia). f_equal.
    replace (Z.to_nat 15) with (length lo + 0)%nat by lia. rewrite insert_app_r. cbn [insert list_insert].
    apply Forall_app in Hsb as [Hlo [Hx _]%Forall_cons_1].
    assert (bytes (lo ++ [Z.lxor x 0x87])) as Hb' by (apply Forall_app_2; [done|apply Forall_cons_2; [by apply lxor_is_byte|done]]).
    rewrite <- (to_be_be _ Hb'), length_app. cbn [length]. replace (length lo + 1)%nat with 16%nat by lia. f_equal.
    rewrite be_snoc in Hs |- *. rewrite <- lxor_low by done. rewrite Hs. f_equal.
    symmetry. apply Z.mod_unique with 1; Z.div_mod_to_equations; lia.
Qed.

(** ** The reader *)

(** the bytes still to be read *)
Definition stream (r : reader) : list Z := pos r ++ concat (more r).

(** no element that is still to be read from is empty *)
Definition ready (r : reader) : Prop := pos r <> [] /\ Forall (fun e => e <> []) (more r).

Lemma absorb_spec rounds (stop : bool) (seen todo : list Z) r :
  (rounds <= length todo)%nat -> (rounds <= length (stream r))%nat ->
  (if stop then True else (rounds < length (stream r))%nat) -> ((0 < rounds)%nat -> ready r) ->
  exists r', absorb rounds stop (zlen seen) (seen ++ todo) r =
    Ok (seen ++ xors (take rounds todo) (take rounds (stream r)) ++ drop rounds todo, r') /\
    stream r' = drop rounds (stream r) /\ (stop = false -> (0 < rounds)%nat -> ready r').
Proof.
  revert seen todo r. induction rounds as [|rounds IH]; intros seen todo r Ht Hs Hstop Hr; [by exists r|].
  destruct r as [p m]. destruct (Hr ltac:(lia)) as [Hp Hm]. cbn [pos more] in Hp, Hm. cbn [absorb pos more].
  destruct p as [|b p]; [done|]. destruct todo as [|c todo]; cbn [length] in Ht; [lia|].
  change (rd (b :: p) 0) with (Ok b). change (drop 1 (b :: p)) with p. rewrite bind_ok.
  assert (rd (seen ++ c :: todo) (zlen seen) = Ok c) as -> by (rewrite rd_app_r, Z.sub_diag by lia; done). rewrite bind_ok.
  assert (wr (seen ++ c :: todo) (zlen seen) (Z.lxor c b) = Ok ((seen ++ [Z.lxor c b]) ++ todo)) as ->.
  { pose proof (zlen_nonneg seen). pose proof (zlen_nonneg todo).
    rewrite wr_ok by (autorewrite with arr; lia). f_equal. unfold zlen. rewrite Nat2Z.id.
    replace (length seen) with (length seen + 0)%nat by lia. rewrite insert_app_r, <- app_assoc. done. }
  rewrite bind_ok. replace (zlen seen + 1) with (zlen (seen ++ [Z.lxor c b])) by (autorewrite with arr; lia).
  change (stream {| pos := b :: p; more := m |}) with ((b :: p) ++ concat m) in *. cbn [app length] in Hs, Hstop.
  assert (forall r', ready r' -> stream r' = p ++ concat m ->
    exists r'', absorb rounds stop (zlen (seen ++ [Z.lxor c b])) ((seen ++ [Z.lxor c b]) ++ todo) r' =
      Ok (seen ++ xors (take (S rounds) (c :: todo)) (take (S rounds) ((b :: p) ++ concat m)) ++ drop (S rounds) (c :: todo), r'') /\
      stream r'' = drop (S rounds) ((b :: p) ++ concat m) /\ (stop = false -> (0 < S rounds)%nat -> ready r'')) as Hnext.
  { intros r' Hready Hst.
    destruct (IH (seen ++ [Z.lxor c b]) todo r') as (r'' & E & Hst' & Hr''); [lia|rewrite Hst; lia|rewrite Hst; destruct stop; [done|lia]|done|].
    rewrite E, Hst. exists r''. cbn [app take drop firstn skipn]. rewrite Hst in Hst'. split; [by rewrite <- app_assoc|]. split; [done|].
    intros Hsf _. destruct rounds as [|rounds]; [|by apply Hr''; [|lia]].
    cbn [absorb] in E. by assert (r' = r'') as <- by congruence. }
  destruct p as [|b1 p].
  - change (zlen [] =? 0) with true. cbv iota. destruct m as [|e m]; cbn [concat app length] in *.
    + assert (rounds = 0)%nat as -> by lia. destruct stop; [|lia]. cbn [Z.of_nat Z.eqb andb].
      exists {| pos := []; more := [] |}. split; [|split; [done|discriminate]]. cbn. by rewrite <- app_assoc.
    + apply Forall_cons_1 in Hm as [He Hm].
      destruct (Z.eqb_spec (Z.of_nat rounds) 0) as [E0|E0]; destruct stop; cbn [andb];
        try (change (rd (e :: m) 0) with (Ok e); change (drop 1 (e :: m)) with m; rewrite bind_ok; by apply Hnext).
      assert (rounds = 0)%nat as -> by lia. exists {| pos := []; more := e :: m |}.
      split; [|split; [done|discriminate]]. cbn. by rewrite <- app_assoc.
  - replace (zlen (b1 :: p) =? 0) with false by (rewrite zlen_cons; pose proof (zlen_nonneg p); lia).
    by apply Hnext.
Qed.

Context {BCL : BlockCipherLaws ctx}.

(** the blocks before the last one, and the last one if it is whole *)
Lemma omac_blocks_spec c fuel cbc r :
  (length (stream r) < fuel)%nat -> length cbc = 16%nat -> bytes cbc -> bytes (stream r) -> (stream r <> [] -> ready r) ->
  let msg := stream r in
  let n := (nblocks (length msg) - 1)%nat in
  exists left x r', omac_blocks fuel c (zlen msg) cbc r = Ok (left, x, r') /\ length x = 16%nat /\
    if decide (length (drop (16 * n) msg) = 16%nat)
    then left = 0 /\ x = xors (cbc_chain n c cbc msg) (drop (16 * n) msg)
    else left = zlen (drop (16 * n) msg) /\ left < 16 /\ x = cbc_chain n c cbc msg /\
         stream r' = drop (16 * n) msg /\ (stream r' <> [] -> ready r').
Proof.
  revert cbc r. induction fuel as [|fuel IH]; intros cbc r Hf Hc Hcb Hsb Hr msg n; [lia|]. cbn [omac_blocks].
  assert (length (stream r) = length msg) as Hlm by done.
  destruct (Z.leb_spec 16 (zlen msg)) as [H16|H16].
  - assert (16 <= length msg)%nat as Hlen by (unfold zlen in H16; lia).
    assert (msg <> []) as Hne by (intros E; rewrite E in Hlen; cbn in Hlen; lia).
    destruct (absorb_spec 16 (zlen msg =? 16) [] cbc r) as (r' & E & Hst & Hready); [lia|done| |auto|].
    { destruct (Z.eqb_spec (zlen msg) 16); [done|]. unfold zlen, msg in *. lia. }
    change (zlen []) with 0 in E. rewrite !app_nil_l in E. fold msg in E, Hst. rewrite E, bind_ok. clear E.
    rewrite (take_ge cbc), (drop_ge cbc), app_nil_r by lia.
    assert (bytes msg) as Hmb by done.
    assert (length (xors cbc (take 16 msg)) = 16%nat) as Hx by (rewrite length_xors, length_take; lia).
    assert (bytes (xors cbc (take 16 msg))) as Hxb by (apply xors_bytes; [done|by apply Forall_take]).
    replace (zlen msg - 16) with (zlen (stream r')) by (rewrite Hst; unfold zlen; rewrite length_drop; lia).
    destruct (decide (length msg = 16%nat)) as [Hl|Hl].
    + replace (16 <? zlen msg) with false by (unfold zlen; lia).
      assert (n = 0%nat) as -> by (unfold n; rewrite Hl; done). rewrite Nat.mul_0_r, drop_0.
      destruct (decide (length msg = 16%nat)) as [_|]; [|done].
      assert (stream r' = []) as Hst0 by (rewrite Hst; apply drop_ge; lia). rewrite Hst0. change (zlen []) with 0.
      destruct fuel as [|fuel]; [lia|]. cbn [omac_blocks]. change (16 <=? 0) with false. cbv iota.
      do 3 eexists. split; [reflexivity|]. split; [done|]. split; [done|]. cbn [cbc_chain]. by rewrite (take_ge msg) by lia.
    + replace (16 <? zlen msg) with true by (unfold zlen; lia).
      destruct (encrypt_block c (xors cbc (take 16 msg))) as [Hel Heb]; [unfold zlen; lia|done|].
      destruct (IH (aes_encrypt c (xors cbc (take 16 msg))) r') as (left & x & r2 & E2 & Hx2 & Hcase);
        [rewrite Hst, length_drop; lia|unfold zlen in Hel; lia|done|rewrite Hst; by apply Forall_drop| |].
      { intros _. apply Hready; [|lia]. unfold zlen. lia. }
      rewrite E2. exists left, x, r2. split; [done|]. split; [done|]. rewrite Hst in Hcase.
      assert (n = S (nblocks (length (drop 16 msg)) - 1)) as ->.
      { unfold n. replace (length msg) with (16 + length (drop 16 msg))%nat by (rewrite length_drop; lia).
        rewrite nblocks_add. assert (nblocks (length (drop 16 msg)) <> 0)%nat; [|lia].
        pose proof (nblocks_bound (length (drop 16 msg))). rewrite length_drop in *. lia. }
      cbn [cbc_chain]. rewrite drop_drop in Hcase.
      replace (16 * S (nblocks (length (drop 16 msg)) - 1))%nat with (16 + 16 * (nblocks (length (drop 16 msg)) - 1))%nat by lia.
      exact Hcase.
  - assert (length msg < 16)%nat as Hlen by (unfold zlen in H16; lia).
    assert (n = 0%nat) as ->.
    { unfold n. destruct (decide (length msg = 0%nat)) as [->|]; [done|]. rewrite nblocks_small by lia. done. }
    rewrite Nat.mul_0_r, drop_0. destruct (decide (length msg = 16%nat)) as [|_]; [lia|]. exists (zlen msg), cbc, r. done.
Qed.

Lemma total_length_concat elems : total_length elems = zlen (concat elems).
Proof.
  unfold total_length. rewrite <- (Z.add_0_l (zlen (concat elems))). generalize 0.
  induction elems as [|e elems IH]; intros t; cbn [fold_left concat]; [rewrite zlen_nil; lia|].
  rewrite IH, zlen_app. lia.
Qed.

(** the sixteen bytes of [x], with [last] and the padding added *)
Lemma pad_last x last : length x = 16%nat -> (length last < 16)%nat -> bytes x ->
  exists b, rd (xors (take (length last) x) last ++ drop (length last) x) (zlen last) = Ok b /\
    wr (xors (take (length last) x) last ++ drop (length last) x) (zlen last) (Z.lxor b 0x80) =
    Ok (xors x (last ++ 0x80 :: replicate (15 - length last) 0)).
Proof.
  intros Hx Hl Hb. set (n := length last) in *.
  destruct (lookup_lt_is_Some_2 x n) as [b Hxn]; [lia|].
  assert (length (xors (take n x) last) = n) as Hn by (rewrite length_xors, length_take; lia).
  exists b. rewrite (drop_S x b n Hxn). rewrite rd_app_r by (unfold zlen; lia).
  replace (zlen last - zlen (xors (take n x) last)) with 0 by (unfold zlen; lia). split; [done|].
  rewrite wr_ok by (autorewrite with arr; unfold zlen; rewrite ?length_drop; lia). f_equal.
  replace (Z.to_nat (zlen last)) with (length (xors (take n x) last) + 0)%nat by (unfold zlen; lia).
  rewrite insert_app_r. cbn [insert list_insert]. rewrite <- (take_drop_middle x n b Hxn) at 3.
  rewrite zip_with_app by (rewrite length_take; lia). f_equal. cbn [zip_with]. f_equal.
  assert (length (drop (S n) x) = 15 - n)%nat as <- by (rewrite length_drop; lia).
  induction (drop (S n) x) as [|y l IH]; [done|]. cbn. by rewrite Z.lxor_0_r, <- IH.
Qed.

Lemma zeros_block16 : block16 (replicate 16 0).
Proof. split; [done|]. apply Forall_replicate. unfold is_byte. lia. Qed.

Lemma chain_block16 n c x msg : length x = 16%nat -> bytes x -> bytes msg -> (16 * n <= length msg)%nat ->
  length (cbc_chain n c x msg) = 16%nat /\ bytes (cbc_chain n c x msg).
Proof.
  revert x msg. induction n as [|n IH]; intros x msg Hx Hxb Hm Hl; cbn [cbc_chain]; [done|].
  assert (length (xors x (take 16 msg)) = 16%nat) as Hy by (rewrite length_xors, length_take; lia).
  destruct (encrypt_block c (xors x (take 16 msg))) as [He Heb];
    [unfold zlen; lia|apply xors_bytes; [done|by apply Forall_take]|].
  apply IH; [unfold zlen in He; lia|done|by apply Forall_drop|rewrite length_drop; lia].
Qed.

Definition vector_ok (elems : list (list Z)) : Prop :=
  elems <> [] /\ (concat elems <> [] -> Forall (fun e => e <> []) elems) /\ Forall (fun e => bytes e) elems.

Lemma omac1_spec key key_len k c elems :
  get key 0 key_len = Ok k -> aes_encrypt_init k = Some c -> vector_ok elems ->
  omac1_aes_vector key key_len elems = Ok (0, cmac c (concat elems)).
Proof.
  intros Hk Hc (Hne & Hnon & Hb). unfold omac1_aes_vector. rewrite Hk, bind_ok, Hc, total_length_concat.
  destruct elems as [|e elems]; [done|]. change (rd (e :: elems) 0) with (Ok e). change (drop 1 (e :: elems)) with elems.
  rewrite bind_ok. set (msg := concat (e :: elems)) in *. set (r0 := {| pos := e; more := elems |}).
  assert (stream r0 = msg) as Hst by done. assert (bytes msg) as Hmb by (by apply Forall_concat).
  assert (stream r0 <> [] -> ready r0) as Hready.
  { intros H. specialize (Hnon H). by apply Forall_cons_1 in Hnon. }
  destruct zeros_block16 as [Hz Hzb].
  destruct (omac_blocks_spec c (S (Z.to_nat (zlen msg))) (replicate 16 0) r0) as (left' & x & r & E & Hx & Hcase);
    [rewrite Hst; unfold zlen; lia|done|done|by rewrite Hst|done|].
  rewrite Hst in E, Hcase. rewrite E, bind_ok. clear E.
  destruct (encrypt_block c (replicate 16 0) Hz Hzb) as [Hel Heb].
  rewrite gf_mulx_spec, bind_ok by done. unfold cmac. set (K1 := dbl_block (aes_encrypt c (replicate 16 0))).
  pose proof (dbl_block16 (aes_encrypt c (replicate 16 0))) as HK1. fold K1 in HK1.
  set (n := (nblocks (length msg) - 1)%nat) in *. set (last := drop (16 * n) msg) in *.
  assert (length last <= 16)%nat as Hlast.
  { unfold last, n. rewrite length_drop. pose proof (nblocks_bound (length msg)). lia. }
  assert (length (cbc_chain n c (replicate 16 0) msg) = 16%nat /\ bytes (cbc_chain n c (replicate 16 0) msg)) as [Hchl Hchb].
  { apply chain_block16; [done|done|done|]. unfold n, nblocks.
    pose proof (Nat.div_mod_eq (length msg + 15) 16). pose proof (Nat.mod_upper_bound (length msg + 15) 16). lia. }
  destruct (decide (length last = 16%nat)) as [Hl16|Hl16].
  - destruct Hcase as [-> ->]. assert (zlen msg <> 0) by (intros E; unfold last, zlen in *; rewrite length_drop in Hl16; lia).
    replace (negb (0 =? 0) || (zlen msg =? 0)) with false by lia. rewrite bind_ok.
    assert (length (xors (cbc_chain n c (replicate 16 0) msg) last) = 16%nat) as Hxl by (rewrite length_xors; lia).
    rewrite <- (length_block16 K1 HK1) at 1. rewrite xor_into_whole by (rewrite (length_block16 K1 HK1); lia). by rewrite bind_ok.
  - destruct Hcase as (-> & Hlt & -> & Hst' & Hr').
    assert (negb (zlen last =? 0) || (zlen msg =? 0) = true) as ->.
    { destruct (decide (length last = 0%nat)) as [E|]; [|unfold zlen; lia]. unfold last in E. rewrite length_drop in E.
      pose proof (nblocks_bound (length msg)). unfold n, nblocks in *.
      pose proof (Nat.div_mod_eq (length msg + 15) 16). pose proof (Nat.mod_upper_bound (length msg + 15) 16). unfold zlen. lia. }
    destruct (absorb_spec (Z.to_nat (zlen last)) true [] (cbc_chain n c (replicate 16 0) msg) r) as (r' & E & _ & _);
      [unfold zlen; lia|rewrite Hst'; unfold zlen; lia|done| |].
    { intros Hpos. apply Hr'. rewrite Hst'. intros E.
      apply (f_equal length) in E. unfold zlen in Hpos. cbn [length] in E. lia. }
    change (zlen []) with 0 in E. rewrite !app_nil_l, Hst' in E. rewrite E, bind_ok. clear E.
    replace (Z.to_nat (zlen last)) with (length last) by (unfold zlen; lia). rewrite (take_ge last) by lia.
    destruct (pad_last (cbc_chain n c (replicate 16 0) msg) last Hchl ltac:(lia) Hchb) as (b & -> & Ew).
    rewrite bind_ok, Ew, bind_ok.
    rewrite gf_mulx_spec, bind_ok, bind_ok by done.
    pose proof (dbl_block16 K1) as HK2. rewrite <- (length_block16 _ HK2) at 1.
    rewrite xor_into_whole; [by rewrite bind_ok|]. rewrite (length_block16 _ HK2), length_xors, length_app. cbn [length].
    rewrite length_replicate. lia.
Qed.

Lemma absorb_empty rounds stop i cbc m : (0 < rounds)%nat -> absorb rounds stop i cbc {| pos := []; more := m |} = Err OutOfBounds.
Proof. destruct rounds; [lia|]. done. Qed.

(** ** Properties *)

(** Omac1_aes_vector computes the CMAC of the concatenation of its
    elements, block boundaries and all, if none of them is empty or all are;
    an empty element in front of data is read past its end. *)
Theorem omac1_vector_correct key key_len k c :
  get key 0 key_len = Ok k -> aes_encrypt_init k = Some c ->
  (forall elems, vector_ok elems -> omac1_aes_vector key key_len elems = Ok (0, cmac c (concat elems))) /\
  (forall rest, concat rest <> [] -> omac1_aes_vector key key_len ([] :: rest) = Err OutOfBounds).
Proof.
  intros Hk Hc. split; [by intros; apply (omac1_spec _ _ k)|].
  intros rest Hr. unfold omac1_aes_vector. rewrite Hk, bind_ok, Hc, total_length_concat. cbn [concat app].
  change (rd ([] :: rest) 0) with (Ok (@nil Z)). change (drop 1 ([] :: rest)) with rest. rewrite bind_ok.
  assert (0 < zlen (concat rest)) as Hpos by (destruct (concat rest); [done|rewrite zlen_cons; pose proof (zlen_nonneg l); lia]).
  cbn [omac_blocks]. destruct (Z.leb_spec 16 (zlen (concat rest))).
  - by rewrite absorb_empty by lia.
  - rewrite bind_ok. destruct zeros_block16 as [Hz Hzb]. destruct (encrypt_block c _ Hz Hzb) as [Hel Heb].
    rewrite gf_mulx_spec, bind_ok by done. replace (zlen (concat rest) =? 0) with false by lia. cbn [negb orb].
    by rewrite absorb_empty by lia.
Qed.
End Omac.

Lemma omac1_vector_correct_witness :
  exists mac, omac1_aes_vector (ctx := Z) (replicate 16 3) 16 [seqZ 0 9; seqZ 5 20] = Ok (0, mac) /\
    mac = cmac (ctx := Z) 3 (seqZ 0 9 ++ seqZ 5 20).
Proof.
  destruct (omac1_vector_correct (ctx := Z) (replicate 16 3) 16 (replicate 16 3) 3) as [H _]; [done|done|].
  eexists. split; [apply H|].
  - split; [done|]. split; [intros _; repeat constructor; done|].
    apply Forall_cons_2; [by apply (bool_decide_unpack _); vm_compute|].
    apply Forall_cons_2; [by apply (bool_decide_unpack _); vm_compute|done].
  - cbn [concat]. by rewrite app_nil_r.
Defined.
