(* ===== verification/AesEax.v ===== *)
(** * Authenticated modes on OMAC1: EAX and SIV (src/hostapd-2.5/src/crypto/aes-eax.c, aes-siv.c)

    [os_malloc] is a parameter: it fails, or gives a buffer of the size asked
    for with arbitrary contents.  Lengths are those of the lists, below 2^62. *)

From S2P Require Import Prelude BlockCipher HexText AesCtr AesOmac.

Section Authenticated.
Context {ctx : Type} {BC : BlockCipher ctx} (os_malloc : Z -> option (list Z)).

(** ** EAX *)

(** [buf[15] = t; memcpy(buf + 16, data); omac1_aes_128(key, buf, 16 + len)]:
    the value returned, the MAC and [buf] *)
Definition eax_mac (key buf : list Z) (t : Z) (data : list Z) : M (Z * list Z * list Z) :=
  buf ← wr buf 15 t;
  buf ← blit buf 16 data;
  m ← get buf 0 (16 + zlen data);
  '(r, mac) ← omac1_aes_128 key m;
  Ok (r, mac, buf).

Definition eax_buf_len (nonce hdr data : list Z) : Z :=
  let buf_len := if zlen data <? zlen nonce then zlen nonce else zlen data in
  let buf_len := if buf_len <? zlen hdr then zlen hdr else buf_len in
  buf_len + 16.

(** [nonce_mac[i] ^ data_mac[i] ^ hdr_mac[i]] *)
Definition eax_tag_of (nonce_mac data_mac hdr_mac : list Z) : M (list Z) :=
  t ← xor_into 16 nonce_mac data_mac; xor_into 16 t hdr_mac.

(** the value returned, [data] and [tag] *)
Definition aes_128_eax_encrypt (key nonce hdr data tag : list Z) : M (Z * list Z * list Z) :=
  match os_malloc (eax_buf_len nonce hdr data) with
  | None => Ok (-1, data, tag)
  | Some buf =>
      buf ← blit buf 0 (replicate 15 0);
      '(r, nonce_mac, buf) ← eax_mac key buf 0 nonce;
      if negb (r =? 0) then Ok (-1, data, tag) else
      '(r, hdr_mac, buf) ← eax_mac key buf 1 hdr;
      if negb (r =? 0) then Ok (-1, data, tag) else
      '(r, data) ← aes_128_ctr_encrypt key nonce_mac data (zlen data);
      if negb (r =? 0) then Ok (-1, data, tag) else
      '(r, data_mac, buf) ← eax_mac key buf 2 data;
      if negb (r =? 0) then Ok (-1, data, tag) else
      t ← eax_tag_of nonce_mac data_mac hdr_mac;
      tag ← blit tag 0 t;
      Ok (0, data, tag)
  end.

Definition aes_128_eax_decrypt (key nonce hdr data tag : list Z) : M (Z * list Z) :=
  match os_malloc (eax_buf_len nonce hdr data) with
  | None => Ok (-1, data)
  | Some buf =>
      buf ← blit buf 0 (replicate 15 0);
      '(r, nonce_mac, buf) ← eax_mac key buf 0 nonce;
      if negb (r =? 0) then Ok (-1, data) else
      '(r, hdr_mac, buf) ← eax_mac key buf 1 hdr;
      if negb (r =? 0) then Ok (-1, data) else
      '(r, data_mac, _) ← eax_mac key buf 2 data;
      if negb (r =? 0) then Ok (-1, data) else
      t ← eax_tag_of nonce_mac data_mac hdr_mac;
      tag ← get tag 0 16;
      if negb (bool_decide (tag = t)) then Ok (-2, data)
      else aes_128_ctr_encrypt key nonce_mac data (zlen data)
  end.

(** ** SIV *)

(** aes-siv.c has its own copy of the doubling of aes-omac1.c *)
Definition dbl (pad : list Z) : M (list Z) := gf_mulx pad.

Definition xorend (a b : list Z) : M (list Z) :=
  if zlen a <? zlen b then Ok a
  else
    t ← xor_into (length b) (drop (length a - length b) a) b;
    Ok (take (length a - length b) a ++ t).

(** the block [pad], whatever it held before *)
Definition pad_block (addr : list Z) : M (list Z) :=
  pad ← blit (replicate 16 0) 0 addr;
  if zlen addr <? 16 then wr pad (zlen addr) 0x80 else Ok pad.

(** the loop over all elements but the last: [inl] returns the value of the
    failed call, [inr] goes on with [tmp] and the last element *)
Fixpoint s2v_loop (key tmp : list Z) (elems : list (list Z)) : M (Z + list Z * list Z) :=
  match elems with
  | [] => Err OutOfBounds
  | [last] => Ok (inr (tmp, last))
  | e :: elems =>
      '(ret, tmp2) ← omac1_aes_128 key e;
      if negb (ret =? 0) then Ok (inl ret)
      else
        tmp ← dbl tmp;
        tmp ← xor_into 16 tmp tmp2;
        s2v_loop key tmp elems
  end.

Definition ENOMEM : Z := 12.

Definition aes_s2v (key : list Z) (elems : list (list Z)) : M (Z * list Z) :=
  if zlen elems =? 0 then omac1_aes_128 key (replicate 15 0 ++ [1])
  else
    '(ret, tmp) ← omac1_aes_128 key (replicate 16 0);
    if negb (ret =? 0) then Ok (ret, [])
    else
      s ← s2v_loop key tmp elems;
      match s with
      | inl ret => Ok (ret, [])
      | inr (tmp, last) =>
          if 16 <=? zlen last then
            match os_malloc (zlen last) with
            | None => Ok (- ENOMEM, [])
            | Some buf =>
                buf ← blit buf 0 last;
                buf ← xorend buf tmp;
                omac1_aes_128 key buf
            end
          else
            tmp ← dbl tmp;
            tmp2 ← pad_block last;
            tmp ← xor_into 16 tmp tmp2;
            omac1_aes_128 key tmp
      end.

(** clear bits 63 and 31 of the counter *)
Definition siv_counter (v : list Z) : M (list Z) :=
  b ← rd v 8; v ← wr v 8 (Z.land b 0x7f);
  b ← rd v 12; wr v 12 (Z.land b 0x7f).

Definition aes_siv_encrypt (key pw : list Z) (addr : list (list Z)) (out : list Z) : M (Z * list Z) :=
  if 5 <? zlen addr then Ok (-1, out)
  else
    '(r, v) ← aes_s2v key (addr ++ [pw]);
    if negb (r =? 0) then Ok (-1, out)
    else
      out ← blit out 0 v;
      out ← blit out 16 pw;
      v ← siv_counter v;
      '(r, crypt) ← aes_128_ctr_encrypt (drop 16 key) v (drop 16 out) (zlen pw);
      Ok (r, take 16 out ++ crypt).

Definition aes_siv_decrypt (key iv_crypt : list Z) (addr : list (list Z)) (out : list Z) : M (Z * list Z) :=
  if (zlen iv_crypt <? 16) || (5 <? zlen addr) then Ok (-1, out)
  else
    let crypt_len := zlen iv_crypt - 16 in
    iv ← get iv_crypt 0 16;
    crypt ← get iv_crypt 16 crypt_len;
    out ← blit out 0 crypt;
    v ← siv_counter iv;
    '(ret, out) ← aes_128_ctr_encrypt (drop 16 key) v out crypt_len;
    if negb (ret =? 0) then Ok (ret, out)
    else
      p ← get out 0 crypt_len;
      '(ret, check) ← aes_s2v key (addr ++ [p]);
      if negb (ret =? 0) then Ok (ret, out)
      else Ok (if bool_decide (check = iv) then 0 else -1, out).

(** ** The modes as functions of the message *)

Definition omac_t (c : ctx) (t : Z) (data : list Z) : list Z := cmac c (replicate 15 0 ++ t :: data).

Definition eax_tag (c : ctx) (nonce hdr crypt : list Z) : list Z :=
  xors (xors (omac_t c 0 nonce) (omac_t c 2 crypt)) (omac_t c 1 hdr).

Definition eax_stream (c : ctx) (nonce data : list Z) : list Z :=
  add_stream c (omac_t c 0 nonce) data.

(** RFC 5297 *)
Definition s2v_last (c : ctx) (d last : list Z) : list Z :=
  if decide (16 <= length last)%nat
  then cmac c (take (length last - 16) last ++ xors (drop (length last - 16) last) d)
  else cmac c (xors (dbl_block d) (last ++ 0x80 :: replicate (15 - length last) 0)).

Fixpoint s2v_chain (c : ctx) (d : list Z) (elems : list (list Z)) : list Z :=
  match elems with
  | [] => d
  | [last] => s2v_last c d last
  | e :: elems => s2v_chain c (xors (dbl_block d) (cmac c e)) elems
  end.

Definition s2v (c : ctx) (elems : list (list Z)) : list Z := s2v_chain c (cmac c (replicate 16 0)) elems.

Definition clear_bits (v : list Z) : list Z :=
  <[8%nat := Z.land (nth 8 v 0) 0x7f]> (<[12%nat := Z.land (nth 12 v 0) 0x7f]> v).

Definition siv_stream (c : ctx) (v data : list Z) : list Z :=
  add_stream c (clear_bits v) data.
(** ** Lemmas *)

Context {BCL : BlockCipherLaws ctx}.

Lemma omac1_128_spec key k c data :
  get key 0 16 = Ok k -> aes_encrypt_init k = Some c -> bytes data ->
  omac1_aes_128 key data = Ok (0, cmac c data).
Proof.
  intros Hk Hc Hb. unfold omac1_aes_128, omac1_aes_128_vector.
  rewrite (omac1_spec key 16 k c) by (first [done | split; [done|]; split; [|by apply Forall_cons_2]; cbn; rewrite app_nil_r;
    intros; by apply Forall_cons_2]).
  cbn [concat]. by rewrite app_nil_r.
Qed.

Lemma cmac_block16 c msg : bytes msg -> block16 (cmac c msg).
Proof.
  intros Hb. unfold cmac. set (n := (nblocks (length msg) - 1)%nat).
  destruct zeros_block16 as [Hz Hzb].
  assert (16 * n <= length msg)%nat as Hn.
  { unfold n, nblocks. pose proof (Nat.div_mod_eq (length msg + 15) 16). pose proof (Nat.mod_upper_bound (length msg + 15) 16). lia. }
  destruct (chain_block16 n c (replicate 16 0) msg) as [Hl Hxb]; [done|done|done|done|].
  assert (bytes (drop (16 * n) msg)) as Hlb by (by apply Forall_drop).
  assert (length (drop (16 * n) msg) <= 16)%nat as Hll.
  { rewrite length_drop. pose proof (nblocks_bound (length msg)). lia. }
  destruct (decide (length (drop (16 * n) msg) = 16%nat)) as [E|E]; apply encrypt_block.
  - unfold zlen. rewrite !length_xors, (length_block16 _ (dbl_block16 _)). lia.
  - apply xors_bytes; [apply dbl_block16|by apply xors_bytes].
  - unfold zlen. rewrite !length_xors, (length_block16 _ (dbl_block16 _)), length_app. cbn [length]. rewrite length_replicate. lia.
  - apply xors_bytes; [apply dbl_block16|]. apply xors_bytes; [done|]. apply Forall_app_2; [done|].
    apply Forall_cons_2; [done|]. apply Forall_replicate. done.
Qed.

Lemma omac_t_block16 c t data : is_byte t -> bytes data -> block16 (omac_t c t data).
Proof.
  intros. apply cmac_block16, Forall_app_2; [by apply Forall_replicate|by apply Forall_cons_2].
Qed.

Lemma eax_mac_spec key k c x rest t data :
  get key 0 16 = Ok k -> aes_encrypt_init k = Some c -> is_byte t -> bytes data -> zlen data <= zlen rest ->
  eax_mac key (replicate 15 0 ++ x :: rest) t data =
  Ok (0, omac_t c t data, replicate 15 0 ++ t :: (data ++ drop (length data) rest)).
Proof.
  intros Hk Hc Ht Hb Hl. unfold eax_mac. pose proof (zlen_nonneg data).
  assert (wr (replicate 15 0 ++ x :: rest) 15 t = Ok ((replicate 15 0 ++ [t]) ++ rest)) as ->.
  { rewrite wr_ok by (change (replicate 15 0 ++ x :: rest) with ((replicate 15 0 ++ [x]) ++ rest); rewrite zlen_app;
      change (zlen (replicate 15 0 ++ [x])) with 16; lia). done. }
  rewrite bind_ok. rewrite <- (take_drop (length data) rest) at 1.
  assert (zlen data = zlen (take (length data) rest)) as Hz by (unfold zlen in *; rewrite length_take; lia).
  rewrite (blit_app (replicate 15 0 ++ [t]) (take (length data) rest)) by done. rewrite bind_ok.
  rewrite app_assoc, get_head by (rewrite zlen_app; done). rewrite bind_ok.
  rewrite (omac1_128_spec key k c), bind_ok; [|done|done|].
  - rewrite <- !app_assoc. done.
  - apply Forall_app_2; [|done]. apply Forall_app_2; [by apply Forall_replicate|by apply Forall_cons_2].
Qed.

Lemma eax_tag_of_spec n d h : block16 n -> block16 d -> block16 h -> eax_tag_of n d h = Ok (xors (xors n d) h).
Proof.
  intros Hn Hd Hh. pose proof (length_block16 n Hn) as En. pose proof (length_block16 d Hd). pose proof (length_block16 h Hh).
  unfold eax_tag_of. rewrite <- En at 1. rewrite xor_into_whole, bind_ok by lia.
  replace 16%nat with (length (xors n d)) at 1 by (rewrite length_xors; lia).
  apply xor_into_whole. rewrite length_xors. lia.
Qed.


Lemma ctr_spec key nonce data k c :
  get key 0 16 = Ok k -> aes_encrypt_init k = Some c -> block16 nonce ->
  aes_128_ctr_encrypt key nonce data (zlen data) = Ok (0, add_stream c nonce data).
Proof. intros Hk Hc [Hn Hb]. by apply (aes_128_ctr_spec key nonce data k). Qed.

Definition malloc_law : Prop := forall n b, os_malloc n = Some b -> zlen b = n.

Lemma eax_tag_zlen c nonce hdr crypt : bytes nonce -> bytes hdr -> bytes crypt -> zlen (eax_tag c nonce hdr crypt) = 16.
Proof.
  intros Hn Hh Hc. unfold eax_tag, zlen. rewrite !length_xors.
  rewrite !length_block16 by (apply omac_t_block16; [unfold is_byte; lia|done]). done.
Qed.

(** the buffer after the leading zeros are written *)
Lemma eax_buffer nonce hdr data buf :
  zlen buf = eax_buf_len nonce hdr data ->
  exists x rest, blit buf 0 (replicate 15 0) = Ok (replicate 15 0 ++ x :: rest) /\
    zlen nonce <= zlen rest /\ zlen hdr <= zlen rest /\ zlen data <= zlen rest.
Proof.
  intros Hl. assert (zlen buf - 16 >= zlen nonce /\ zlen buf - 16 >= zlen hdr /\ zlen buf - 16 >= zlen data) as (H1 & H2 & H3).
  { rewrite Hl. unfold eax_buf_len. destruct (Z.ltb_spec (zlen data) (zlen nonce)).
    - destruct (Z.ltb_spec (zlen nonce) (zlen hdr)); lia.
    - destruct (Z.ltb_spec (zlen data) (zlen hdr)); lia. }
  pose proof (zlen_nonneg data). rewrite <- (take_drop 15 buf). destruct (drop 15 buf) as [|x rest] eqn:E.
  { apply (f_equal length) in E. rewrite length_drop in E. cbn in E. unfold zlen in *. lia. }
  exists x, rest. assert (zlen (take 15 buf) = 15) as Ht by (unfold zlen in *; rewrite length_take; lia).
  rewrite blit_head by (rewrite Ht; done). split; [done|].
  apply (f_equal length) in E. rewrite length_drop in E. cbn [length] in E. unfold zlen in *. lia.
Qed.

(** the two MACs that do not depend on the text, and the third *)
Lemma eax_macs key k c x rest nonce hdr :
  get key 0 16 = Ok k -> aes_encrypt_init k = Some c -> bytes nonce -> bytes hdr ->
  zlen nonce <= zlen rest -> zlen hdr <= zlen rest ->
  exists buf1 buf2, eax_mac key (replicate 15 0 ++ x :: rest) 0 nonce = Ok (0, omac_t c 0 nonce, buf1) /\
    eax_mac key buf1 1 hdr = Ok (0, omac_t c 1 hdr, buf2) /\
    (forall data, bytes data -> zlen data <= zlen rest ->
      exists buf3, eax_mac key buf2 2 data = Ok (0, omac_t c 2 data, buf3)).
Proof.
  intros Hk Hc Hn Hh Hln Hlh. do 2 eexists.
  split; [apply (eax_mac_spec key k c); try done; unfold is_byte; lia|].
  assert (zlen (nonce ++ drop (length nonce) rest) = zlen rest) as Hl1
    by (unfold zlen in *; rewrite length_app, length_drop; lia).
  split; [apply (eax_mac_spec key k c); try done; lia|].
  intros data Hd Hld. eexists. apply (eax_mac_spec key k c); try done.
  unfold zlen in *. rewrite length_app, length_drop. lia.
Qed.

Lemma eax_decrypt_spec key k c nonce hdr data tag buf :
  get key 0 16 = Ok k -> aes_encrypt_init k = Some c -> malloc_law ->
  bytes nonce -> bytes hdr -> bytes data -> zlen tag = 16 ->
  os_malloc (eax_buf_len nonce hdr data) = Some buf ->
  aes_128_eax_decrypt key nonce hdr data tag =
  Ok (if bool_decide (tag = eax_tag c nonce hdr data) then (0, eax_stream c nonce data) else (-2, data)).
Proof.
  intros Hk Hc Hm Hn Hh Hd Ht Hbuf. unfold aes_128_eax_decrypt. rewrite Hbuf.
  destruct (eax_buffer nonce hdr data buf (Hm _ _ Hbuf)) as (x & rest & -> & Hln & Hlh & Hld). rewrite bind_ok.
  destruct (eax_macs key k c x rest nonce hdr) as (b1 & b2 & -> & E2 & E3); [done..|].
  destruct (E3 data Hd Hld) as (b3 & E3'). rewrite bind_ok, E2, bind_ok, E3', bind_ok. cbn [Z.eqb negb].
  assert (forall t m, is_byte t -> bytes m -> block16 (omac_t c t m)) as Hb by (intros; by apply omac_t_block16).
  rewrite eax_tag_of_spec, bind_ok by (apply Hb; [unfold is_byte; lia|done]). rewrite get_whole, bind_ok by done.
  fold (eax_tag c nonce hdr data). destruct (bool_decide_reflect (tag = eax_tag c nonce hdr data)); [|done].
  cbn [negb]. rewrite (ctr_spec key _ _ k c) by (first [done|apply Hb; [unfold is_byte; lia|done]]). done.
Qed.

Lemma eax_encrypt_spec key k c nonce hdr data tag buf :
  get key 0 16 = Ok k -> aes_encrypt_init k = Some c -> malloc_law ->
  bytes nonce -> bytes hdr -> bytes data -> zlen tag = 16 ->
  os_malloc (eax_buf_len nonce hdr data) = Some buf ->
  aes_128_eax_encrypt key nonce hdr data tag =
  Ok (0, eax_stream c nonce data, eax_tag c nonce hdr (eax_stream c nonce data)).
Proof.
  intros Hk Hc Hm Hn Hh Hd Ht Hbuf. unfold aes_128_eax_encrypt. rewrite Hbuf.
  destruct (eax_buffer nonce hdr data buf (Hm _ _ Hbuf)) as (x & rest & -> & Hln & Hlh & Hld). rewrite bind_ok.
  destruct (eax_macs key k c x rest nonce hdr) as (b1 & b2 & -> & E2 & E3); [done..|].
  assert (forall t m, is_byte t -> bytes m -> block16 (omac_t c t m)) as Hb by (intros; by apply omac_t_block16).
  rewrite bind_ok, E2, bind_ok. cbn [Z.eqb negb].
  rewrite (ctr_spec key _ _ k c), bind_ok by (first [done|apply Hb; [unfold is_byte; lia|done]]).
  fold (eax_stream c nonce data). cbn [Z.eqb negb].
  assert (bytes (eax_stream c nonce data)) as Hs by (by apply add_stream_bytes).
  assert (zlen (eax_stream c nonce data) = zlen data) as Hsl by apply zlen_add_stream.
  destruct (E3 (eax_stream c nonce data)) as (b3 & E3'); [done|lia|]. rewrite E3', bind_ok. cbn [Z.eqb negb].
  rewrite eax_tag_of_spec, bind_ok by (apply Hb; [unfold is_byte; lia|done]).
  fold (eax_tag c nonce hdr (eax_stream c nonce data)).
  rewrite blit_whole, bind_ok by (rewrite eax_tag_zlen by done; lia). done.
Qed.

(** *** SIV *)

Lemma xor_blocks a b : block16 a -> block16 b -> xor_into 16 a b = Ok (xors a b) /\ block16 (xors a b).
Proof.
  intros Ha Hb. pose proof (length_block16 a Ha) as La. pose proof (length_block16 b Hb) as Lb.
  split; [rewrite <- La; apply xor_into_whole; lia|].
  split; [unfold zlen; rewrite length_xors; lia|]. apply xors_bytes; [apply Ha|apply Hb].
Qed.

Lemma s2v_loop_spec key k c d elems last :
  get key 0 16 = Ok k -> aes_encrypt_init k = Some c -> block16 d -> Forall (fun e => bytes e) elems ->
  exists tmp, s2v_loop key d (elems ++ [last]) = Ok (inr (tmp, last)) /\ block16 tmp /\
    s2v_chain c d (elems ++ [last]) = s2v_last c tmp last.
Proof.
  intros Hk Hc. revert d. induction elems as [|e elems IH]; intros d Hd He; [by exists d|].
  apply Forall_cons_1 in He as [He Hes]. cbn [app]. destruct (elems ++ [last]) as [|e' elems'] eqn:E.
  { by destruct elems. }
  change (s2v_chain c d (e :: e' :: elems')) with (s2v_chain c (xors (dbl_block d) (cmac c e)) (e' :: elems')).
  change (s2v_loop key d (e :: e' :: elems')) with
    ('(ret, tmp2) ← omac1_aes_128 key e;
     if negb (ret =? 0) then Ok (inl ret)
     else tmp ← dbl d; tmp ← xor_into 16 tmp tmp2; s2v_loop key tmp (e' :: elems')).
  rewrite (omac1_128_spec key k c), bind_ok by done. cbn [Z.eqb negb].
  unfold dbl. rewrite gf_mulx_spec, bind_ok by done.
  destruct (xor_blocks (dbl_block d) (cmac c e)) as [-> Hx]; [apply dbl_block16|by apply cmac_block16|]. rewrite bind_ok.
  by apply IH.
Qed.

Lemma xorend_spec a b : (length b <= length a)%nat ->
  xorend a b = Ok (take (length a - length b) a ++ xors (drop (length a - length b) a) b).
Proof.
  intros Hl. unfold xorend, zlen. replace (Z.of_nat (length a) <? Z.of_nat (length b)) with false by lia.
  assert (length (drop (length a - length b) a) = length b) as Hd by (rewrite length_drop; lia).
  rewrite <- Hd at 1. rewrite xor_into_whole by lia. by rewrite bind_ok.
Qed.

Lemma pad_block_spec l : (length l < 16)%nat -> bytes l ->
  pad_block l = Ok (l ++ 0x80 :: replicate (15 - length l) 0) /\ block16 (l ++ 0x80 :: replicate (15 - length l) 0).
Proof.
  intros Hl Hb. split.
  - unfold pad_block. replace 16%nat with (length l + S (15 - length l))%nat at 1 by lia. rewrite replicate_add.
    rewrite blit_head by (unfold zlen; rewrite length_replicate; done). rewrite bind_ok.
    replace (zlen l <? 16) with true by (unfold zlen; lia). rewrite wr_ok by (autorewrite with arr; unfold zlen; rewrite length_replicate; lia).
    f_equal. replace (Z.to_nat (zlen l)) with (length l + 0)%nat by (unfold zlen; lia). by rewrite insert_app_r.
  - split; [unfold zlen; rewrite length_app; cbn [length]; rewrite length_replicate; lia|].
    apply Forall_app_2; [done|]. apply Forall_cons_2; [done|]. by apply Forall_replicate.
Qed.

Lemma s2v_last_block16 c d l : block16 d -> bytes l -> block16 (s2v_last c d l).
Proof.
  intros Hd Hb. unfold s2v_last. destruct (decide _) as [H|H]; apply cmac_block16.
  - apply Forall_app_2; [by apply Forall_take|]. apply xors_bytes; [by apply Forall_drop|apply Hd].
  - apply xors_bytes; [apply dbl_block16|]. apply pad_block_spec; [lia|done].
Qed.

(** the memory that the last element needs, if it needs any *)
Definition memory_for (last : list Z) : Prop := 16 <= zlen last -> exists buf, os_malloc (zlen last) = Some buf.

Lemma aes_s2v_spec key k c elems last :
  get key 0 16 = Ok k -> aes_encrypt_init k = Some c -> malloc_law ->
  Forall (fun e => bytes e) elems -> bytes last ->
  (memory_for last -> aes_s2v key (elems ++ [last]) = Ok (0, s2v c (elems ++ [last]))) /\
  (16 <= zlen last -> os_malloc (zlen last) = None -> aes_s2v key (elems ++ [last]) = Ok (-12, [])) /\
  block16 (s2v c (elems ++ [last])).
Proof.
  intros Hk Hc Hm He Hl. unfold aes_s2v, s2v.
  replace (zlen (elems ++ [last]) =? 0) with false by (autorewrite with arr; pose proof (zlen_nonneg elems); lia).
  rewrite (omac1_128_spec key k c), bind_ok by (first [done|apply zeros_block16]). cbn [Z.eqb negb].
  destruct (s2v_loop_spec key k c (cmac c (replicate 16 0)) elems last) as (tmp & -> & Ht & ->);
    [done|done|apply cmac_block16, zeros_block16|done|]. rewrite bind_ok.
  pose proof (length_block16 tmp Ht) as Lt. pose proof (s2v_last_block16 c tmp last Ht Hl) as Hs. split; [|split; [|done]].
  - intros Hmem. unfold s2v_last in *. destruct (Z.leb_spec 16 (zlen last)) as [H16|H16].
    + destruct (Hmem H16) as [buf Hbuf]. rewrite Hbuf, blit_whole, bind_ok by (by rewrite (Hm _ _ Hbuf)).
      rewrite xorend_spec, bind_ok, Lt by (unfold zlen in H16; lia).
      destruct (decide (16 <= length last)%nat); [|unfold zlen in *; lia].
      apply (omac1_128_spec key k); [done|done|]. apply Forall_app_2; [by apply Forall_take|].
      apply xors_bytes; [by apply Forall_drop|apply Ht].
    + destruct (decide (16 <= length last)%nat); [unfold zlen in *; lia|].
      unfold dbl. rewrite gf_mulx_spec, bind_ok by done.
      destruct (pad_block_spec last) as [-> Hp]; [lia|done|]. rewrite bind_ok.
      destruct (xor_blocks (dbl_block tmp) _ (dbl_block16 tmp) Hp) as [-> Hx]. rewrite bind_ok.
      apply (omac1_128_spec key k); [done|done|apply Hx].
  - intros H16 Hnone. replace (16 <=? zlen last) with true by lia. by rewrite Hnone.
Qed.

Lemma siv_counter_spec v : block16 v -> siv_counter v = Ok (clear_bits v) /\ block16 (clear_bits v).
Proof.
  intros [Hl Hb]. unfold siv_counter.
  destruct v as [|v0 [|v1 [|v2 [|v3 [|v4 [|v5 [|v6 [|v7 [|v8 [|v9 [|v10 [|v11 [|v12 [|v13 [|v14 [|v15 [|]]]]]]]]]]]]]]]]]; try discriminate Hl.
  2: { exfalso. rewrite !zlen_cons in Hl. pose proof (zlen_nonneg l). lia. }
  split; [done|]. split; [done|]. unfold clear_bits. bytes_cons.
  assert (forall b, is_byte b -> is_byte (Z.land b 127)) as Hand.
  { intros b _. unfold is_byte. change 127 with (Z.ones 7). rewrite Z.land_ones by lia.
    pose proof (Z.mod_pos_bound b (2 ^ 7)). lia. }
  repeat apply Forall_cons_2; try done; by apply Hand.
Qed.

Section Siv.
Context (key k1 k2 : list Z) (c1 c2 : ctx) (addr : list (list Z)).
Context (Hk1 : get key 0 16 = Ok k1) (Hc1 : aes_encrypt_init k1 = Some c1).
Context (Hk2 : get (drop 16 key) 0 16 = Ok k2) (Hc2 : aes_encrypt_init k2 = Some c2).
Context (Hm : malloc_law) (Ha : Forall (fun e => bytes e) addr) (Hn : zlen addr <= 5).

Lemma siv_encrypt_spec pw out : bytes pw -> memory_for pw -> zlen out = 16 + zlen pw ->
  aes_siv_encrypt key pw addr out =
    Ok (0, s2v c1 (addr ++ [pw]) ++ siv_stream c2 (s2v c1 (addr ++ [pw])) pw) /\ block16 (s2v c1 (addr ++ [pw])).
Proof.
  intros Hb Hmem Hout. destruct (aes_s2v_spec key k1 c1 addr pw) as (E & _ & Hv); [done..|]. split; [|done].
  unfold aes_siv_encrypt. replace (5 <? zlen addr) with false by lia. rewrite (E Hmem), bind_ok. cbn [Z.eqb negb].
  set (v := s2v c1 (addr ++ [pw])) in *. pose proof (length_block16 v Hv) as Lv. pose proof (zlen_nonneg pw).
  rewrite <- (take_drop 16 out).
  assert (length (take 16 out) = 16%nat) as Lt by (unfold zlen in *; rewrite length_take; lia).
  assert (zlen (drop 16 out) = zlen pw) as Ld by (unfold zlen in *; rewrite length_drop; lia).
  rewrite blit_head, bind_ok by (unfold zlen; lia). rewrite blit_last, bind_ok by (unfold zlen in *; lia).
  destruct (siv_counter_spec v Hv) as [-> Hcv]. rewrite bind_ok, drop_app_length', take_app_length' by lia.
  rewrite (ctr_spec _ _ _ k2 c2) by done. by rewrite bind_ok.
Qed.

Lemma siv_decrypt_spec iv crypt out : block16 iv -> bytes crypt -> memory_for crypt -> zlen out = zlen crypt ->
  aes_siv_decrypt key (iv ++ crypt) addr out =
    Ok (if bool_decide (s2v c1 (addr ++ [siv_stream c2 iv crypt]) = iv) then 0 else -1, siv_stream c2 iv crypt).
Proof.
  intros Hiv Hb Hmem Hout. pose proof (zlen_nonneg crypt). pose proof Hiv as [Liv Hib].
  unfold aes_siv_decrypt. rewrite zlen_app. replace ((zlen iv + zlen crypt <? 16) || (5 <? zlen addr)) with false by lia.
  rewrite get_head, bind_ok, get_last, bind_ok by lia. rewrite blit_whole, bind_ok by lia.
  destruct (siv_counter_spec iv Hiv) as [-> Hcv]. rewrite bind_ok.
  replace (zlen iv + zlen crypt - 16) with (zlen crypt) by lia.
  rewrite (ctr_spec _ _ _ k2 c2), bind_ok by done. cbn [Z.eqb negb]. fold (siv_stream c2 iv crypt).
  assert (zlen (siv_stream c2 iv crypt) = zlen crypt) as Hz by apply zlen_add_stream.
  rewrite get_whole, bind_ok by lia.
  destruct (aes_s2v_spec key k1 c1 addr (siv_stream c2 iv crypt)) as (E & _ & _); [done..|by apply add_stream_bytes|].
  rewrite E by (unfold memory_for; by rewrite Hz). by rewrite bind_ok.
Qed.
End Siv.

(** ** Properties *)

(** Aes_128_eax_encrypt encrypts with the counter that starts at the MAC of
    the nonce and puts the exclusive or of the three MACs in [tag];
    aes_128_eax_decrypt changes its data only if the tag is the one of the
    ciphertext, and then gives the plaintext back; without memory both
    return -1 and change nothing. *)
Theorem eax_correct key k c nonce hdr data tag0 buf :
  get key 0 16 = Ok k -> aes_encrypt_init k = Some c -> malloc_law ->
  bytes nonce -> bytes hdr -> bytes data -> zlen tag0 = 16 ->
  os_malloc (eax_buf_len nonce hdr data) = Some buf ->
  let crypt := eax_stream c nonce data in
  let tag := eax_tag c nonce hdr crypt in
  aes_128_eax_encrypt key nonce hdr data tag0 = Ok (0, crypt, tag) /\
  aes_128_eax_decrypt key nonce hdr crypt tag = Ok (0, data) /\
  (forall tag', zlen tag' = 16 -> tag' <> tag -> aes_128_eax_decrypt key nonce hdr crypt tag' = Ok (-2, crypt)) /\
  (forall data' tag', os_malloc (eax_buf_len nonce hdr data') = None ->
    aes_128_eax_encrypt key nonce hdr data' tag' = Ok (-1, data', tag') /\
    aes_128_eax_decrypt key nonce hdr data' tag' = Ok (-1, data')).
Proof.
  intros Hk Hc Hm Hn Hh Hd Ht Hbuf crypt tag.
  assert (bytes crypt) as Hcb by (by apply add_stream_bytes).
  assert (os_malloc (eax_buf_len nonce hdr crypt) = Some buf) as Hbuf'.
  { unfold eax_buf_len, crypt, eax_stream. by rewrite zlen_add_stream. }
  split; [by apply (eax_encrypt_spec key k c nonce hdr data tag0 buf)|].
  split; [|split].
  - rewrite (eax_decrypt_spec key k c nonce hdr crypt tag buf); try done; [|by apply eax_tag_zlen].
    fold tag. rewrite bool_decide_eq_true_2 by done. unfold crypt, eax_stream. by rewrite add_stream_involutive.
  - intros tag' Ht' Hne. rewrite (eax_decrypt_spec key k c nonce hdr crypt tag' buf) by done.
    fold tag. by rewrite bool_decide_eq_false_2.
  - intros data' tag' Hnone. unfold aes_128_eax_encrypt, aes_128_eax_decrypt. by rewrite Hnone.
Qed.

(** With at most five associated elements aes_siv_encrypt writes the
    synthetic IV (RFC 5297, S2V of the elements and the plaintext) and the
    plaintext under the counter stream of that IV; aes_siv_decrypt returns 0
    exactly on what encryption makes of the plaintext it leaves in [out], and
    -1 otherwise; more than five elements are refused. *)
Theorem siv_correct key k1 k2 c1 c2 addr :
  get key 0 16 = Ok k1 -> aes_encrypt_init k1 = Some c1 ->
  get (drop 16 key) 0 16 = Ok k2 -> aes_encrypt_init k2 = Some c2 ->
  malloc_law -> Forall (fun e => bytes e) addr ->
  (zlen addr <= 5 -> forall pw out, bytes pw -> memory_for pw -> zlen out = 16 + zlen pw ->
    let v := s2v c1 (addr ++ [pw]) in
    aes_siv_encrypt key pw addr out = Ok (0, v ++ siv_stream c2 v pw) /\
    forall out', zlen out' = zlen pw -> aes_siv_decrypt key (v ++ siv_stream c2 v pw) addr out' = Ok (0, pw)) /\
  (zlen addr <= 5 -> forall iv crypt out, block16 iv -> bytes crypt -> memory_for crypt -> zlen out = zlen crypt ->
    exists p, zlen p = zlen crypt /\
      ((aes_siv_decrypt key (iv ++ crypt) addr out = Ok (0, p) /\
        forall out', zlen out' = 16 + zlen p -> aes_siv_encrypt key p addr out' = Ok (0, iv ++ crypt)) \/
       (aes_siv_decrypt key (iv ++ crypt) addr out = Ok (-1, p) /\
        forall out', zlen out' = 16 + zlen p -> aes_siv_encrypt key p addr out' <> Ok (0, iv ++ crypt)))) /\
  (5 < zlen addr -> forall text out,
    aes_siv_encrypt key text addr out = Ok (-1, out) /\ aes_siv_decrypt key text addr out = Ok (-1, out)).
Proof.
  intros Hk1 Hc1 Hk2 Hc2 Hm Ha.
  pose proof (siv_encrypt_spec key k1 k2 c1 c2 addr Hk1 Hc1 Hk2 Hc2 Hm Ha) as Henc.
  pose proof (siv_decrypt_spec key k1 k2 c1 c2 addr Hk1 Hc1 Hk2 Hc2 Hm Ha) as Hdec.
  split; [|split].
  - intros Hn pw out Hb Hmem Hout v. specialize (Henc Hn). specialize (Hdec Hn). destruct (Henc pw out) as [E Hv]; [done..|]. split; [done|].
    intros out' Hout'. fold v in E, Hv. rewrite Hdec; try done.
    + unfold siv_stream. rewrite add_stream_involutive. fold v. by rewrite bool_decide_eq_true_2.
    + by apply add_stream_bytes.
    + unfold memory_for, siv_stream. by rewrite zlen_add_stream.
    + unfold siv_stream. by rewrite zlen_add_stream.
  - intros Hn iv crypt out Hiv Hb Hmem Hout. specialize (Henc Hn). specialize (Hdec Hn). exists (siv_stream c2 iv crypt).
    assert (zlen (siv_stream c2 iv crypt) = zlen crypt) as Hz by apply zlen_add_stream. split; [done|].
    rewrite Hdec by done. set (p := siv_stream c2 iv crypt) in *.
    assert (bytes p) as Hp by (by apply add_stream_bytes).
    assert (memory_for p) as Hmp by (unfold memory_for; by rewrite Hz).
    assert (siv_stream c2 iv p = crypt) as Hinv by apply add_stream_involutive.
    destruct (bool_decide_reflect (s2v c1 (addr ++ [p]) = iv)) as [E|E]; [left|right]; (split; [done|]); intros out' Ho.
    + destruct (Henc p out') as [-> _]; [done..|]. by rewrite E, Hinv.
    + destruct (Henc p out') as [-> Hv]; [done..|]. intros Heq. apply E.
      assert (s2v c1 (addr ++ [p]) ++ siv_stream c2 (s2v c1 (addr ++ [p])) p = iv ++ crypt) as Happ by congruence.
      apply app_inj_1 in Happ; [by destruct Happ|]. by rewrite !length_block16.
  - intros H text out. unfold aes_siv_encrypt, aes_siv_decrypt. replace (5 <? zlen addr) with true by lia.
    by rewrite orb_true_r.
Qed.
End Authenticated.

(** an allocator that fails on requests above a kilobyte *)
Definition small_malloc (n : Z) : option (list Z) := if (0 <=? n) && (n <=? 1024) then Some (replicate (Z.to_nat n) 165) else None.

Lemma small_malloc_law : malloc_law small_malloc.
Proof.
  intros n b. unfold small_malloc. destruct (Z.leb_spec 0 n); [|discriminate].
  destruct (n <=? 1024); [|discriminate]. intros [= <-]. unfold zlen. rewrite length_replicate. lia.
Qed.

Lemma eax_correct_witness :
  exists crypt tag, aes_128_eax_encrypt (ctx := Z) small_malloc (replicate 16 3) (seqZ 0 9) (seqZ 7 20) (seqZ 40 33) (replicate 16 0)
      = Ok (0, crypt, tag) /\
    aes_128_eax_decrypt (ctx := Z) small_malloc (replicate 16 3) (seqZ 0 9) (seqZ 7 20) crypt tag = Ok (0, seqZ 40 33).
Proof.
  edestruct (eax_correct (ctx := Z) small_malloc (replicate 16 3) (replicate 16 3) 3 (seqZ 0 9) (seqZ 7 20) (seqZ 40 33) (replicate 16 0))
    as (E & E2 & _); [done|done| |by apply (bool_decide_unpack _); vm_compute..|done|vm_compute; reflexivity|].
  - apply small_malloc_law.
  - do 2 eexists. split; [exact E|exact E2].
Defined.

Lemma siv_correct_witness :
  exists out, aes_siv_encrypt (ctx := Z) small_malloc (seqZ 3 32) (seqZ 40 21) [seqZ 0 9; []] (replicate 37 0) = Ok (0, out) /\
    aes_siv_decrypt (ctx := Z) small_malloc (seqZ 3 32) out [seqZ 0 9; []] (replicate 21 0) = Ok (0, seqZ 40 21).
Proof.
  edestruct (siv_correct (ctx := Z) small_malloc (seqZ 3 32) (seqZ 3 16) (seqZ 19 16) 3 19 [seqZ 0 9; []]) as (H & _ & _);
    [done|done|done|done|apply small_malloc_law| |].
  - apply Forall_cons_2; [by apply (bool_decide_unpack _); vm_compute|by apply Forall_cons_2].
  - edestruct (H ltac:(done) (seqZ 40 21) (replicate 37 0)) as [E E2];
      [by apply (bool_decide_unpack _); vm_compute|intros _; eexists; vm_compute; reflexivity|done|].
    eexists. split; [exact E|]. apply E2. done.
Defined.
