(* ===== verification/AesCcm.v ===== *)
(** * Counter with CBC-MAC (src/hostapd-2.5/src/crypto/aes-ccm.c)

    [out] is the whole buffer the output is written to: the last, partial
    block is encrypted as a whole block in that buffer, so it is longer than
    the message, and the bytes behind the message are changed. *)

From S2P Require Import Prelude BlockCipher HexText AesCtr AesOmac.

(** [a[0] = val >> 8; a[1] = val & 0xff] for a 16-bit [val], at [off] *)
Definition WPA_PUT_BE16 (buf : list Z) (off val : Z) : M (list Z) :=
  buf ← wr buf off (Z.shiftr (u16 val) 8);
  wr buf (off + 1) (Z.land (u16 val) 0xff).

Definition xor_aes_block (dst src : list Z) : M (list Z) := xor_into 16 dst src.

Section Ccm.
Context {ctx : Type} {BC : BlockCipher ctx}.

(** the block B_0; [L] is 2 in every call, so that every byte is written *)
Definition ccm_b0 (Mlen L : Z) (nonce : list Z) (aad_len plain_len : Z) : M (list Z) :=
  let b0 := if negb (aad_len =? 0) then 0x40 else 0 in
  let b0 := u8 (Z.lor b0 (u64 (Z.shiftl (u64 (Mlen - 2) / 2) 3))) in
  let b0 := u8 (Z.lor b0 (u64 (L - 1))) in
  b ← wr (replicate 16 0) 0 b0;
  n ← get nonce 0 (15 - L);
  b ← blit b 1 n;
  WPA_PUT_BE16 b (16 - L) plain_len.

Definition aes_ccm_auth_start (aes : ctx) (Mlen L : Z) (nonce aad : list Z) (plain_len : Z) : M (list Z) :=
  let aad_len := zlen aad in
  b ← ccm_b0 Mlen L nonce aad_len plain_len;
  let x := aes_encrypt aes b in
  if aad_len =? 0 then Ok x
  else
    aad_buf ← WPA_PUT_BE16 (replicate 32 0) 0 aad_len;
    aad_buf ← blit aad_buf 2 aad;
    aad_buf ← blit aad_buf (2 + aad_len) (replicate (Z.to_nat (32 - 2 - aad_len)) 0);
    aad_buf ← xor_aes_block aad_buf x;
    b ← get aad_buf 0 16;
    let x := aes_encrypt aes b in
    if 14 <? aad_len then
      tail ← xor_aes_block (drop 16 aad_buf) x;
      b ← get tail 0 16;
      Ok (aes_encrypt aes b)
    else Ok x.

(** the whole blocks of [data], then the [last] bytes of a partial one *)
Fixpoint auth_loop (blocks : nat) (aes : ctx) (last : nat) (data x : list Z) : M (list Z) :=
  match blocks with
  | O =>
      if (last =? 0)%nat then Ok x
      else x ← xor_into last x data; Ok (aes_encrypt aes x)
  | S blocks =>
      x ← xor_aes_block x data;
      auth_loop blocks aes last (drop 16 data) (aes_encrypt aes x)
  end.

Definition aes_ccm_auth (aes : ctx) (data : list Z) (len : Z) (x : list Z) : M (list Z) :=
  auth_loop (Z.to_nat (len / 16)) aes (Z.to_nat (len mod 16)) data x.

Definition aes_ccm_encr_start (L : Z) (nonce a : list Z) : M (list Z) :=
  a ← wr a 0 (u8 (u64 (L - 1)));
  n ← get nonce 0 (15 - L);
  blit a 1 n.

(** [in] and [out] from the block [i] on; [out] and [a] *)
Fixpoint encr_loop (blocks : nat) (aes : ctx) (last : nat) (i : Z) (inp out a : list Z) : M (list Z * list Z) :=
  match blocks with
  | O =>
      if (last =? 0)%nat then Ok (out, a)
      else
        a ← WPA_PUT_BE16 a (16 - 2) i;
        out ← blit out 0 (aes_encrypt aes a);
        out ← xor_into last out inp;
        Ok (out, a)
  | S blocks =>
      a ← WPA_PUT_BE16 a (16 - 2) i;
      out ← blit out 0 (aes_encrypt aes a);
      out ← xor_aes_block out inp;
      '(rest, a) ← encr_loop blocks aes last (i + 1) (drop 16 inp) (drop 16 out) a;
      Ok (take 16 out ++ rest, a)
  end.

Definition aes_ccm_encr (aes : ctx) (inp : list Z) (len : Z) (out a : list Z) : M (list Z * list Z) :=
  encr_loop (Z.to_nat (len / 16)) aes (Z.to_nat (len mod 16)) 1 inp out a.

(** [auth[i] = x[i] ^ tmp[i]] for [M] bytes, and [a] *)
Definition ccm_mask (aes : ctx) (Mlen : Z) (x a : list Z) : M (list Z * list Z) :=
  a ← WPA_PUT_BE16 a (16 - 2) 0;
  x ← get x 0 Mlen;
  u ← xor_into (Z.to_nat Mlen) x (aes_encrypt aes a);
  Ok (u, a).

Definition aes_ccm_encr_auth (aes : ctx) (Mlen : Z) (x a auth : list Z) : M (list Z * list Z) :=
  '(u, a) ← ccm_mask aes Mlen x a;
  auth ← blit auth 0 u;
  Ok (auth, a).

Definition aes_ccm_decr_auth (aes : ctx) (Mlen : Z) (a auth t : list Z) : M (list Z * list Z) :=
  '(u, a) ← ccm_mask aes Mlen auth a;
  t ← blit t 0 u;
  Ok (t, a).

(** the value returned, [crypt] and [auth] *)
Definition aes_ccm_ae (key : list Z) (key_len : Z) (nonce : list Z) (Mlen : Z) (plain aad crypt auth : list Z) :
    M (Z * list Z * list Z) :=
  let L := 2 in
  if (30 <? zlen aad) || (16 <? Mlen) then Ok (-1, crypt, auth)
  else
    k ← get key 0 key_len;
    match aes_encrypt_init k with
    | None => Ok (-1, crypt, auth)
    | Some aes =>
        x ← aes_ccm_auth_start aes Mlen L nonce aad (zlen plain);
        x ← aes_ccm_auth aes plain (zlen plain) x;
        a ← aes_ccm_encr_start L nonce (replicate 16 0);
        '(crypt, a) ← aes_ccm_encr aes plain (zlen plain) crypt a;
        '(auth, _) ← aes_ccm_encr_auth aes Mlen x a auth;
        Ok (0, crypt, auth)
    end.

(** [crypt] holds [crypt_len] bytes; the value returned and [plain] *)
Definition aes_ccm_ad (key : list Z) (key_len : Z) (nonce : list Z) (Mlen : Z) (crypt aad auth plain : list Z) :
    M (Z * list Z) :=
  let L := 2 in
  if (30 <? zlen aad) || (16 <? Mlen) then Ok (-1, plain)
  else
    k ← get key 0 key_len;
    match aes_encrypt_init k with
    | None => Ok (-1, plain)
    | Some aes =>
        a ← aes_ccm_encr_start L nonce (replicate 16 0);
        '(t, a) ← aes_ccm_decr_auth aes Mlen a auth (replicate 16 0);
        '(plain, _) ← aes_ccm_encr aes crypt (zlen crypt) plain a;
        x ← aes_ccm_auth_start aes Mlen L nonce aad (zlen crypt);
        x ← aes_ccm_auth aes plain (zlen crypt) x;
        x ← get x 0 Mlen;
        t ← get t 0 Mlen;
        if negb (bool_decide (x = t)) then Ok (-1, plain) else Ok (0, plain)
    end.

(** ** CCM, from NIST SP 800-38C with a 2-byte length *)

Definition be16 (v : Z) : list Z := to_be 2 v.

(** zeros up to a whole number of blocks *)
Definition pad16 (l : list Z) : list Z := l ++ replicate (16 * nblocks (length l) - length l) 0.

Definition ccm_flags (Mlen : Z) (aad : list Z) : Z := (if decide (aad = []) then 0 else 64) + 8 * ((Mlen - 2) / 2) + 1.

(** the blocks B_0, B_1, ... *)
Definition ccm_format (Mlen : Z) (nonce aad plain : list Z) : list Z :=
  (ccm_flags Mlen aad :: nonce ++ be16 (zlen plain)) ++
  (if decide (aad = []) then [] else pad16 (be16 (zlen aad) ++ aad)) ++ pad16 plain.

Definition ccm_mac (c : ctx) (Mlen : Z) (nonce aad plain : list Z) : list Z :=
  let msg := ccm_format Mlen nonce aad plain in cbc_chain (nblocks (length msg)) c (replicate 16 0) msg.

(** the counter block A_i *)
Definition ccm_a (nonce : list Z) (i : Z) : list Z := 1 :: nonce ++ be16 i.

Fixpoint ccm_blocks (c : ctx) (nonce : list Z) (n : nat) (i : Z) : list Z :=
  match n with
  | O => []
  | S n => aes_encrypt c (ccm_a nonce i) ++ ccm_blocks c nonce n (i + 1)
  end.

Definition ccm_crypt (c : ctx) (nonce data : list Z) : list Z :=
  xors data (ccm_blocks c nonce (nblocks (length data)) 1).

Definition ccm_tag (c : ctx) (Mlen : Z) (nonce aad plain : list Z) : list Z :=
  xors (take (Z.to_nat Mlen) (ccm_mac c Mlen nonce aad plain)) (aes_encrypt c (ccm_a nonce 0)).

(** ** Lemmas *)

Lemma be16_eq v : be16 v = [(v / 256) mod 256; v mod 256].
Proof. done. Qed.

Lemma put_be16 l1 p q l2 off v : off = zlen l1 -> WPA_PUT_BE16 (l1 ++ p :: q :: l2) off v = Ok (l1 ++ be16 v ++ l2).
Proof.
  intros ->. unfold WPA_PUT_BE16. pose proof (zlen_nonneg l1). pose proof (zlen_nonneg l2).
  assert (Z.shiftr (u16 v) 8 = (v / 256) mod 256) as ->.
  { unfold u16. rewrite Z.shiftr_div_pow2 by lia. change (2 ^ 16) with (256 * 256). change (2 ^ 8) with 256.
    Z.div_mod_to_equations. lia. }
  assert (Z.land (u16 v) 0xff = v mod 256) as ->.
  { change 0xff with (Z.ones 8). rewrite Z.land_ones by lia. unfold u16. change (2 ^ 16) with (256 * 256).
    change (2 ^ 8) with 256. Z.div_mod_to_equations. lia. }
  assert (Z.to_nat (zlen l1) = (length l1 + 0)%nat /\ Z.to_nat (zlen l1 + 1) = (length l1 + 1)%nat) as [E0 E1]
    by (unfold zlen; lia).
  rewrite wr_ok by (autorewrite with arr; lia). rewrite bind_ok, E0, insert_app_r. cbn [insert list_insert].
  rewrite wr_ok by (autorewrite with arr; lia). by rewrite E1, insert_app_r.
Qed.

Lemma be16_block v : zlen (be16 v) = 2 /\ bytes (be16 v).
Proof. split; [done|]. apply to_be_bytes. Qed.

Lemma xors_zeros b : length b = 16%nat -> xors (replicate 16 0) b = b.
Proof.
  intros <-. induction b as [|x b IH]; [done|]. cbn [length replicate zip_with]. by rewrite IH.
Qed.

(** adding fewer bytes than there are is adding zeros behind them *)
Lemma xors_pad x d : (length d <= length x)%nat ->
  xors (take (length d) x) d ++ drop (length d) x = xors x (d ++ replicate (length x - length d) 0).
Proof.
  revert x. induction d as [|b d IH]; intros x H; cbn [length].
  - rewrite take_0, drop_0, Nat.sub_0_r. cbn [app]. clear. induction x as [|a x IH]; [done|].
    cbn [length replicate zip_with]. rewrite Z.lxor_0_r. cbn in IH. by rewrite <- IH.
  - destruct x as [|a x]; cbn [length] in *; [lia|]. cbn. by rewrite IH by lia.
Qed.

Lemma cbc_chain_app (c : ctx) n m x a b : length a = (16 * n)%nat ->
  cbc_chain (n + m) c x (a ++ b) = cbc_chain m c (cbc_chain n c x a) b.
Proof.
  revert x a. induction n as [|n IH]; intros x a Hl.
  - apply nil_length_inv in Hl as ->. done.
  - cbn [Nat.add cbc_chain]. rewrite take_app_le, drop_app_le by lia. apply IH. rewrite length_drop. lia.
Qed.

Lemma length_pad16 l : length (pad16 l) = (16 * nblocks (length l))%nat.
Proof. unfold pad16. rewrite length_app, length_replicate. pose proof (nblocks_bound (length l)). lia. Qed.

Lemma blit_block (e out : list Z) : length e = 16%nat -> (16 <= length out)%nat -> blit out 0 e = Ok (e ++ drop 16 out).
Proof.
  intros He Ho. rewrite <- (take_drop 16 out) at 1. apply blit_head. unfold zlen. rewrite length_take. lia.
Qed.

Lemma pad16_step l : (16 <= length l)%nat -> take 16 (pad16 l) = take 16 l /\ drop 16 (pad16 l) = pad16 (drop 16 l).
Proof.
  intros H. unfold pad16. rewrite take_app_le, drop_app_le by lia. split; [done|]. f_equal. f_equal.
  rewrite length_drop. assert (nblocks (length l) = S (nblocks (length l - 16))) as -> by (rewrite <- nblocks_add; f_equal; lia).
  lia.
Qed.

Context {BCL : BlockCipherLaws ctx}.

Lemma encrypt_length c b : block16 b -> length (aes_encrypt c b) = 16%nat.
Proof. intros [Hl Hb]. by apply length_encrypt. Qed.

Lemma encrypt_block16 c b : block16 b -> block16 (aes_encrypt c b).
Proof. intros [Hl Hb]. by apply encrypt_block. Qed.

Lemma auth_loop_spec c blocks last data rest x :
  block16 x -> bytes data -> length data = (16 * blocks + last)%nat -> (last < 16)%nat ->
  auth_loop blocks c last (data ++ rest) x = Ok (cbc_chain (nblocks (length data)) c x (pad16 data)) /\
  block16 (cbc_chain (nblocks (length data)) c x (pad16 data)).
Proof.
  revert data x. induction blocks as [|blocks IH]; intros data x Hx Hd Hl Hlast; pose proof (length_block16 x Hx) as Lx;
    cbn [auth_loop].
  - destruct (Nat.eqb_spec last 0) as [->|Hn].
    { destruct data; [|done]. done. }
    assert (length data = last) as El by lia. rewrite El, nblocks_small by lia. cbn [cbc_chain].
    rewrite take_ge by (rewrite length_pad16, El, nblocks_small; lia).
    rewrite xor_into_ok, bind_ok by (rewrite ?length_app; lia). rewrite take_app_length' by lia.
    assert (xors (take last x) data ++ drop last x = xors x (pad16 data)) as ->.
    { rewrite <- El, xors_pad by lia. unfold pad16. rewrite El, nblocks_small, Lx by lia. done. }
    split; [done|]. apply encrypt_block16. split; [unfold zlen; rewrite length_xors, length_pad16, El, nblocks_small; lia|].
    apply xors_bytes; [apply Hx|]. apply Forall_app_2; [done|]. by apply Forall_replicate.
  - destruct (pad16_step data) as [Et Ed]; [lia|].
    assert (nblocks (length data) = S (nblocks (length (drop 16 data)))) as ->
      by (rewrite length_drop, <- nblocks_add; f_equal; lia).
    cbn [cbc_chain]. rewrite Et, Ed. unfold xor_aes_block. rewrite xor_into_ok, bind_ok by (rewrite ?length_app; lia).
    rewrite (take_ge x), (drop_ge x), app_nil_r, take_app_le, drop_app_le by lia.
    apply IH; [|by apply Forall_drop|rewrite length_drop; lia|done].
    apply encrypt_block16. split; [unfold zlen; rewrite length_xors, length_take; lia|].
    apply xors_bytes; [apply Hx|by apply Forall_take].
Qed.

Lemma aes_ccm_auth_spec c data rest x : block16 x -> bytes data ->
  aes_ccm_auth c (data ++ rest) (zlen data) x = Ok (cbc_chain (nblocks (length data)) c x (pad16 data)) /\
  block16 (cbc_chain (nblocks (length data)) c x (pad16 data)).
Proof.
  intros Hx Hd. unfold aes_ccm_auth. apply auth_loop_spec; [done|done|..]; unfold zlen; Z.div_mod_to_equations; lia.
Qed.

Section Nonce.
Context (nonce : list Z) (Hn : zlen nonce = 13) (Hnb : bytes nonce).

Lemma ccm_a_block16 i : block16 (ccm_a nonce i).
Proof.
  destruct (be16_block i) as [Hl Hb]. split; [unfold ccm_a; autorewrite with arr; lia|].
  apply Forall_cons_2; [unfold is_byte; lia|]. by apply Forall_app_2.
Qed.

Lemma length_ccm_blocks c n i : length (ccm_blocks c nonce n i) = (16 * n)%nat.
Proof.
  revert i. induction n as [|n IH]; intros i; [done|]. cbn [ccm_blocks].
  rewrite length_app, IH, (encrypt_length c _ (ccm_a_block16 i)). lia.
Qed.

Lemma put_counter p q i : WPA_PUT_BE16 (1 :: nonce ++ [p; q]) (16 - 2) i = Ok (ccm_a nonce i).
Proof.
  rewrite (put_be16 (1 :: nonce) p q []); [by rewrite app_nil_r|]. autorewrite with arr. lia.
Qed.

Lemma put_again i j : WPA_PUT_BE16 (ccm_a nonce i) (16 - 2) j = Ok (ccm_a nonce j).
Proof. unfold ccm_a at 1. rewrite be16_eq. apply put_counter. Qed.

Lemma encr_start_spec : aes_ccm_encr_start 2 nonce (replicate 16 0) = Ok (ccm_a nonce 0).
Proof.
  unfold aes_ccm_encr_start. change (wr (replicate 16 0) 0 (u8 (u64 (2 - 1)))) with (Ok ([1] ++ replicate 13 0 ++ [0; 0])).
  rewrite bind_ok, get_whole, bind_ok by (by rewrite Hn). by rewrite blit_app.
Qed.

Lemma encr_loop_spec c blocks last i inp out j :
  length inp = (16 * blocks + last)%nat -> (last < 16)%nat -> (16 * nblocks (length inp) <= length out)%nat ->
  exists j', encr_loop blocks c last i inp out (ccm_a nonce j) =
    Ok (xors inp (ccm_blocks c nonce (nblocks (length inp)) i) ++
        drop (length inp) (ccm_blocks c nonce (nblocks (length inp)) i) ++ drop (16 * nblocks (length inp)) out,
        ccm_a nonce j').
Proof.
  revert i inp out j. induction blocks as [|blocks IH]; intros i inp out j Hl Hlast Hout; cbn [encr_loop].
  - destruct (Nat.eqb_spec last 0) as [->|Hz]; [by destruct inp; [exists j|]|].
    assert (length inp = last) as El by lia. rewrite El, nblocks_small in * by lia. cbn [ccm_blocks]. rewrite app_nil_r.
    rewrite put_again, bind_ok. pose proof (encrypt_length c _ (ccm_a_block16 i)) as He. set (e := aes_encrypt c (ccm_a nonce i)) in *.
    rewrite blit_block, bind_ok by lia.
    rewrite xor_into_ok, bind_ok by (rewrite ?length_app; lia). exists i.
    rewrite take_app_le, drop_app_le, (take_ge inp) by lia. f_equal. f_equal.
    assert (xors inp e = xors (take last e) inp) as ->; [|done].
    rewrite <- (take_drop last e) at 1. rewrite xors_app_l by (rewrite length_take; lia). apply xors_comm.
  - assert (nblocks (length inp) = S (nblocks (length (drop 16 inp)))) as En
      by (rewrite length_drop, <- nblocks_add; f_equal; lia).
    rewrite En in Hout |- *. cbn [ccm_blocks]. pose proof (encrypt_length c _ (ccm_a_block16 i)) as He.
    rewrite put_again, bind_ok. set (e := aes_encrypt c (ccm_a nonce i)) in *.
    rewrite blit_block, bind_ok by lia.
    unfold xor_aes_block. rewrite xor_into_ok, bind_ok by (rewrite ?length_app; lia).
    rewrite (take_app_length' e (drop 16 out)), (drop_app_length' e (drop 16 out)) by lia.
    assert (length (xors e (take 16 inp)) = 16%nat) as Hx by (rewrite length_xors, length_take; lia).
    rewrite drop_app_length', take_app_length' by lia.
    destruct (IH (i + 1) (drop 16 inp) (drop 16 out) i) as (j' & E);
      [rewrite length_drop; lia|done|rewrite (length_drop out 16); lia|].
    rewrite E, bind_ok. exists j'. f_equal. f_equal. rewrite drop_drop.
    replace (16 + 16 * nblocks (length (drop 16 inp)))%nat with (16 * S (nblocks (length (drop 16 inp))))%nat by lia.
    rewrite app_assoc. f_equal.
    + rewrite <- (take_drop 16 inp) at 4. rewrite zip_with_app by (rewrite length_take; lia). by rewrite (xors_comm e).
    + f_equal. rewrite drop_app_ge by lia. f_equal. rewrite length_drop. lia.
Qed.

(** the buffer [out] after a message of which [inp] are the bytes *)
Definition ccm_out (c : ctx) (inp out : list Z) : list Z :=
  ccm_crypt c nonce inp ++ drop (length inp) (ccm_blocks c nonce (nblocks (length inp)) 1) ++
  drop (16 * nblocks (length inp)) out.

Lemma encr_spec c inp out j : (16 * nblocks (length inp) <= length out)%nat ->
  exists j', aes_ccm_encr c inp (zlen inp) out (ccm_a nonce j) = Ok (ccm_out c inp out, ccm_a nonce j').
Proof. intros. apply encr_loop_spec; [unfold zlen; Z.div_mod_to_equations; lia..|done]. Qed.

Lemma length_ccm_crypt c inp : length (ccm_crypt c nonce inp) = length inp.
Proof. unfold ccm_crypt. rewrite length_xors, length_ccm_blocks. pose proof (nblocks_bound (length inp)). lia. Qed.

Lemma ccm_crypt_involutive c inp : ccm_crypt c nonce (ccm_crypt c nonce inp) = inp.
Proof.
  pose proof (length_ccm_crypt c inp) as Hl. unfold ccm_crypt at 1. rewrite Hl. unfold ccm_crypt.
  pose proof (nblocks_bound (length inp)). rewrite <- (take_drop (length inp) (ccm_blocks c nonce _ 1)).
  assert (length (take (length inp) (ccm_blocks c nonce (nblocks (length inp)) 1)) = length inp) as Ht
    by (rewrite length_take, length_ccm_blocks; lia).
  rewrite !xors_app_l by (rewrite ?length_xors; lia). apply xors_involutive. lia.
Qed.

Lemma ccm_blocks_bytes c n i : bytes (ccm_blocks c nonce n i).
Proof.
  revert i. induction n as [|n IH]; intros i; [done|]. cbn [ccm_blocks].
  apply Forall_app_2; [|apply IH]. apply encrypt_block16, ccm_a_block16.
Qed.

Lemma ccm_crypt_bytes c inp : bytes inp -> bytes (ccm_crypt c nonce inp).
Proof. intros. apply xors_bytes; [done|apply ccm_blocks_bytes]. Qed.

Lemma ccm_mask_spec c Mlen x j : 0 <= Mlen <= 16 -> Mlen <= zlen x ->
  ccm_mask c Mlen x (ccm_a nonce j) =
  Ok (xors (take (Z.to_nat Mlen) x) (aes_encrypt c (ccm_a nonce 0)), ccm_a nonce 0).
Proof.
  intros HM Hx. unfold ccm_mask. rewrite put_again, bind_ok.
  pose proof (encrypt_length c _ (ccm_a_block16 0)) as He. set (e := aes_encrypt c (ccm_a nonce 0)) in *.
  assert (length (take (Z.to_nat Mlen) x) = Z.to_nat Mlen) as Hl by (rewrite length_take; unfold zlen in Hx; lia).
  rewrite <- (take_drop (Z.to_nat Mlen) x) at 1. rewrite get_head, bind_ok by (unfold zlen; lia).
  rewrite xor_into_ok, bind_ok by lia. rewrite (take_ge (take _ x)), (drop_ge (take _ x)), app_nil_r by lia.
  rewrite <- (take_drop (Z.to_nat Mlen) e) at 2. rewrite xors_app_l by (rewrite !length_take; unfold zlen in Hx; lia). done.
Qed.

(** *** Authentication *)

Lemma ccm_b0_spec Mlen aad plain_len : 2 <= Mlen <= 16 ->
  ccm_b0 Mlen 2 nonce (zlen aad) plain_len = Ok (ccm_flags Mlen aad :: nonce ++ be16 plain_len) /\
  block16 (ccm_flags Mlen aad :: nonce ++ be16 plain_len).
Proof.
  intros HM. destruct (be16_block plain_len) as [Hl Hb]. assert (is_byte (ccm_flags Mlen aad)) as Hf.
  { unfold ccm_flags, is_byte. destruct (decide _); Z.div_mod_to_equations; lia. }
  split; [|split; [autorewrite with arr; lia|apply Forall_cons_2; [done|by apply Forall_app_2]]].
  unfold ccm_b0.
  set (f := u8 (Z.lor (u8 (Z.lor (if negb (zlen aad =? 0) then 0x40 else 0) (u64 (Z.shiftl (u64 (Mlen - 2) / 2) 3)))) (u64 (2 - 1)))).
  assert (f = ccm_flags Mlen aad) as ->.
  { unfold f, ccm_flags. clear f. replace (u64 (Mlen - 2) / 2) with ((Mlen - 2) / 2) by (unfold u64; rewrite Z.mod_small by lia; done).
    assert (0 <= (Mlen - 2) / 2 < 8) as Hm by (Z.div_mod_to_equations; lia).
    assert ((if negb (zlen aad =? 0) then 64 else 0) = (if decide (aad = []) then 0 else 64)) as ->.
    { destruct (decide (aad = [])) as [->|Ha]; [done|]. destruct aad; [done|]. rewrite zlen_cons.
      pose proof (zlen_nonneg aad). by replace (1 + zlen aad =? 0) with false by lia. }
    generalize dependent ((Mlen - 2) / 2). intros m Hm.
    assert (m = 0 \/ m = 1 \/ m = 2 \/ m = 3 \/ m = 4 \/ m = 5 \/ m = 6 \/ m = 7) as Hcases by lia.
    destruct (decide (aad = [])); repeat (destruct Hcases as [->|Hcases]; [done|]); by subst. }
  change (wr (replicate 16 0) 0 (ccm_flags Mlen aad)) with (Ok ([ccm_flags Mlen aad] ++ replicate 13 0 ++ [0; 0])).
  rewrite bind_ok, get_whole, bind_ok by (by rewrite Hn). rewrite blit_app, bind_ok by (first [done|by rewrite Hn]).
  change ([ccm_flags Mlen aad] ++ nonce ++ [0; 0]) with ((ccm_flags Mlen aad :: nonce) ++ 0 :: 0 :: []).
  rewrite put_be16 by (autorewrite with arr; lia). by rewrite app_nil_r.
Qed.

(** *** The associated data *)

Definition aad_block (aad : list Z) : list Z := be16 (zlen aad) ++ aad ++ replicate (30 - length aad) 0.

Lemma aad_buffer aad : zlen aad <= 30 ->
  exists b1 b2, WPA_PUT_BE16 (replicate 32 0) 0 (zlen aad) = Ok b1 /\ blit b1 2 aad = Ok b2 /\
   blit b2 (2 + zlen aad) (replicate (Z.to_nat (32 - 2 - zlen aad)) 0) = Ok (aad_block aad).
Proof.
  intros Hl. unfold zlen in Hl. exists (be16 (zlen aad) ++ replicate 30 0).
  exists (be16 (zlen aad) ++ aad ++ replicate (30 - length aad) 0). split; [|split].
  - by apply (put_be16 [] 0 0 (replicate 30 0)).
  - replace 30%nat with (length aad + (30 - length aad))%nat at 1 by lia. rewrite replicate_add.
    apply blit_app; [done|]. unfold zlen. by rewrite length_replicate.
  - rewrite !app_assoc. unfold aad_block. rewrite app_assoc.
    rewrite blit_last; [|rewrite zlen_app; done|unfold zlen; rewrite !length_replicate; lia].
    do 2 f_equal. unfold zlen. f_equal. lia.
Qed.

Lemma aad_block_length aad : zlen aad <= 30 -> length (aad_block aad) = 32%nat.
Proof. intros. unfold aad_block. rewrite !length_app, length_replicate, be16_eq. cbn [length]. unfold zlen in *. lia. Qed.

Lemma aad_block_bytes aad : bytes aad -> bytes (aad_block aad).
Proof. intros. apply Forall_app_2; [apply be16_block|]. apply Forall_app_2; [done|]. by apply Forall_replicate. Qed.

Lemma aad_padded aad : zlen aad <= 30 ->
  pad16 (be16 (zlen aad) ++ aad) = if decide (14 < zlen aad) then aad_block aad else take 16 (aad_block aad).
Proof.
  intros Hl. assert (length (be16 (zlen aad) ++ aad) = (2 + length aad)%nat) as Lh by (rewrite length_app, be16_eq; done).
  unfold pad16, aad_block. rewrite Lh, app_assoc. destruct (decide _) as [H|H]; unfold zlen in H, Hl.
  - f_equal. f_equal. replace (2 + length aad)%nat with (16 + (length aad - 14))%nat by lia.
    rewrite nblocks_add, nblocks_small by lia. lia.
  - rewrite nblocks_small, take_app_ge by (rewrite ?Lh; lia). f_equal. rewrite take_replicate, Lh. f_equal. lia.
Qed.

Lemma chain_step x a : block16 x -> bytes a -> length a = 16%nat -> block16 (xors x a).
Proof.
  intros Hx Ha Hl. split; [unfold zlen; rewrite length_xors, (length_block16 x Hx); lia|].
  apply xors_bytes; [apply Hx|done].
Qed.

(** one step of the chain, on a buffer whose first block it takes *)
Lemma xor_head buf x : block16 x -> (16 <= length buf)%nat ->
  xor_aes_block buf x = Ok (xors x (take 16 buf) ++ drop 16 buf) /\ length (xors x (take 16 buf)) = 16%nat.
Proof.
  intros Hx Hl. pose proof (length_block16 x Hx) as Lx.
  split; [|rewrite length_xors, length_take; lia]. unfold xor_aes_block. rewrite xor_into_ok by lia.
  by rewrite (take_ge x), xors_comm by lia.
Qed.

Lemma auth_aad_spec c aad x1 : zlen aad <= 30 -> bytes aad -> block16 x1 ->
  exists b1 b2 b3 b4 x2, WPA_PUT_BE16 (replicate 32 0) 0 (zlen aad) = Ok b1 /\ blit b1 2 aad = Ok b2 /\
    blit b2 (2 + zlen aad) (replicate (Z.to_nat (32 - 2 - zlen aad)) 0) = Ok b3 /\
    xor_aes_block b3 x1 = Ok b4 /\
    (b ← get b4 0 16;
     let x := aes_encrypt c b in
     if 14 <? zlen aad then
       tail ← xor_aes_block (drop 16 b4) x; b ← get tail 0 16; Ok (aes_encrypt c b)
     else Ok x) = Ok x2 /\ block16 x2 /\
    x2 = cbc_chain (if decide (14 < zlen aad) then 2 else 1) c x1 (pad16 (be16 (zlen aad) ++ aad)).
Proof.
  intros Hl Hb Hx. destruct (aad_buffer aad Hl) as (b1 & b2 & E1 & E2 & E3). rewrite (aad_padded aad Hl).
  pose proof (aad_block_length aad Hl) as LA. pose proof (aad_block_bytes aad Hb) as HA. set (A := aad_block aad) in *.
  destruct (xor_head A x1 Hx) as [E4 L4]; [lia|]. do 4 eexists.
  exists (cbc_chain (if decide (14 < zlen aad) then 2 else 1) c x1 (if decide (14 < zlen aad) then A else take 16 A)).
  split; [done|]. split; [done|]. split; [done|]. split; [done|].
  rewrite get_head, bind_ok by (unfold zlen; lia). cbv zeta.
  assert (block16 (aes_encrypt c (xors x1 (take 16 A)))) as H2.
  { apply encrypt_block16, chain_step; [done|by apply Forall_take|rewrite length_take; lia]. }
  destruct (decide (14 < zlen aad)) as [Hlong|Hshort].
  - replace (14 <? zlen aad) with true by lia. rewrite drop_app_length' by lia.
    destruct (xor_head (drop 16 A) _ H2) as [-> L5]; [rewrite length_drop; lia|].
    rewrite bind_ok, get_head, bind_ok by (unfold zlen; lia). split; [reflexivity|]. split; [|done].
    apply encrypt_block16, chain_step; [done|by apply Forall_take, Forall_drop|rewrite length_take, length_drop; lia].
  - replace (14 <? zlen aad) with false by lia.
    cbn [cbc_chain]. rewrite take_take, Nat.min_id. by split.
Qed.

Lemma auth_start_spec c Mlen aad plain_len : 2 <= Mlen <= 16 -> zlen aad <= 30 -> bytes aad ->
  let B := (ccm_flags Mlen aad :: nonce ++ be16 plain_len) ++
    (if decide (aad = []) then [] else pad16 (be16 (zlen aad) ++ aad)) in
  exists k x, length B = (16 * k)%nat /\ aes_ccm_auth_start c Mlen 2 nonce aad plain_len = Ok x /\
    x = cbc_chain k c (replicate 16 0) B /\ block16 x.
Proof.
  intros HM Hl Hb B. unfold B. clear B. unfold aes_ccm_auth_start.
  destruct (ccm_b0_spec Mlen aad plain_len HM) as [-> H0]. rewrite bind_ok.
  set (b0 := ccm_flags Mlen aad :: nonce ++ be16 plain_len) in *. pose proof (length_block16 b0 H0) as L0.
  assert (cbc_chain 1 c (replicate 16 0) b0 = aes_encrypt c b0) as Hfirst.
  { cbn [cbc_chain]. by rewrite take_ge, xors_zeros by lia. }
  pose proof (encrypt_block16 c b0 H0) as H1.
  destruct (decide (aad = [])) as [->|Hne].
  { exists 1%nat, (aes_encrypt c b0). change (zlen [] =? 0) with true. rewrite app_nil_r.
    split; [lia|]. split; [done|]. by split. }
  assert (zlen aad <> 0) as Hz by (destruct aad; [done|]; rewrite zlen_cons; pose proof (zlen_nonneg aad); lia).
  replace (zlen aad =? 0) with false by lia.
  destruct (auth_aad_spec c aad (aes_encrypt c b0) Hl Hb H1) as (b1 & b2 & b3 & b4 & x2 & -> & E2 & E3 & E4 & E5 & H2 & Ex).
  cbv zeta in E5 |- *. rewrite bind_ok, E2, bind_ok, E3, bind_ok, E4, bind_ok, E5.
  exists (1 + (if decide ((14 < zlen aad)%Z) then 2 else 1))%nat, x2. split; [|split; [done|split; [|done]]].
  - rewrite length_app, (aad_padded aad Hl), L0. pose proof (aad_block_length aad Hl).
    destruct (decide _); rewrite ?length_take; lia.
  - by rewrite cbc_chain_app, Hfirst by lia.
Qed.

(** the MAC of a message at the beginning of a buffer *)
Lemma ccm_mac_spec c Mlen aad plain rest : 2 <= Mlen <= 16 -> zlen aad <= 30 -> bytes aad -> bytes plain ->
  exists x, aes_ccm_auth_start c Mlen 2 nonce aad (zlen plain) = Ok x /\
    aes_ccm_auth c (plain ++ rest) (zlen plain) x = Ok (ccm_mac c Mlen nonce aad plain) /\
    block16 (ccm_mac c Mlen nonce aad plain).
Proof.
  intros HM Hl Ha Hp. destruct (auth_start_spec c Mlen aad (zlen plain) HM Hl Ha) as (k & x & Hk & E & Hx & Hxb).
  exists x. split; [done|]. destruct (aes_ccm_auth_spec c plain rest x Hxb Hp) as [Ea Hm].
  unfold ccm_mac, ccm_format. rewrite app_assoc.
  set (B := (ccm_flags Mlen aad :: nonce ++ be16 (zlen plain)) ++ _) in *.
  assert (nblocks (length (B ++ pad16 plain)) = (k + nblocks (length plain))%nat) as ->.
  { rewrite length_app, Hk, length_pad16. clear. unfold nblocks at 1.
    replace (16 * k + 16 * nblocks (length plain) + 15)%nat with (15 + (k + nblocks (length plain)) * 16)%nat by lia.
    rewrite Nat.div_add by lia. done. }
  rewrite cbc_chain_app by done. by rewrite <- Hx.
Qed.

(** *** The two operations *)

Lemma mask_involutive (e a : list Z) : length e = 16%nat -> (length a <= 16)%nat -> xors (xors a e) e = a.
Proof.
  intros He Ha. rewrite <- (take_drop (length a) e).
  rewrite !xors_app_l by (rewrite ?length_xors, length_take; lia). apply xors_involutive. rewrite length_take. lia.
Qed.

Lemma length_ccm_tag c Mlen aad plain : 0 <= Mlen <= 16 -> block16 (ccm_mac c Mlen nonce aad plain) ->
  zlen (ccm_tag c Mlen nonce aad plain) = Mlen.
Proof.
  intros HM Hm. unfold ccm_tag, zlen. rewrite length_xors, length_take, (length_block16 _ Hm), (encrypt_length c _ (ccm_a_block16 0)).
  lia.
Qed.

Context (key k : list Z) (key_len : Z) (c : ctx) (Hk : get key 0 key_len = Ok k) (Hc : aes_encrypt_init k = Some c).
Context (Mlen : Z) (HM : 2 <= Mlen <= 16) (aad : list Z) (Hl : zlen aad <= 30) (Ha : bytes aad).

Lemma ccm_ae_spec plain crypt auth :
  bytes plain -> (16 * nblocks (length plain) <= length crypt)%nat -> zlen auth = Mlen ->
  aes_ccm_ae key key_len nonce Mlen plain aad crypt auth =
  Ok (0, ccm_out c plain crypt, ccm_tag c Mlen nonce aad plain).
Proof.
  intros Hp Ho Hauth. unfold aes_ccm_ae. replace ((30 <? zlen aad) || (16 <? Mlen)) with false by lia.
  rewrite Hk, bind_ok, Hc. destruct (ccm_mac_spec c Mlen aad plain [] HM Hl Ha Hp) as (x & -> & E & Hm).
  rewrite app_nil_r in E. rewrite bind_ok, E, bind_ok, encr_start_spec, bind_ok.
  destruct (encr_spec c plain crypt 0 Ho) as (j & ->). rewrite bind_ok. unfold aes_ccm_encr_auth.
  rewrite ccm_mask_spec, bind_ok by (unfold zlen; rewrite ?(length_block16 _ Hm); lia).
  rewrite blit_whole, !bind_ok; [done|]. rewrite Hauth. by apply length_ccm_tag; [lia|].
Qed.

Lemma ccm_ad_spec crypt auth plain :
  bytes crypt -> (16 * nblocks (length crypt) <= length plain)%nat -> zlen auth = Mlen ->
  aes_ccm_ad key key_len nonce Mlen crypt aad auth plain =
  Ok (if bool_decide (auth = ccm_tag c Mlen nonce aad (ccm_crypt c nonce crypt)) then 0 else -1, ccm_out c crypt plain).
Proof.
  intros Hp Ho Hauth. unfold aes_ccm_ad. replace ((30 <? zlen aad) || (16 <? Mlen)) with false by lia.
  rewrite Hk, bind_ok, Hc, encr_start_spec, bind_ok. unfold aes_ccm_decr_auth.
  pose proof (encrypt_length c _ (ccm_a_block16 0)) as He. set (e := aes_encrypt c (ccm_a nonce 0)) in *.
  rewrite ccm_mask_spec, bind_ok by lia. fold e. rewrite (take_ge auth) by (unfold zlen in Hauth; lia).
  assert (zlen (xors auth e) = Mlen) as Hx by (unfold zlen in *; rewrite length_xors; lia).
  assert (blit (replicate 16 0) 0 (xors auth e) = Ok (xors auth e ++ replicate (16 - length auth) 0)) as ->.
  { unfold zlen in *. replace 16%nat with (length auth + (16 - length auth))%nat at 1 by lia. rewrite replicate_add. apply blit_head.
    unfold zlen. rewrite length_replicate. lia. }
  rewrite !bind_ok. destruct (encr_spec c crypt plain 0 Ho) as (j & ->). rewrite bind_ok.
  assert (zlen (ccm_crypt c nonce crypt) = zlen crypt) as Hz by (unfold zlen; by rewrite length_ccm_crypt).
  destruct (ccm_mac_spec c Mlen aad (ccm_crypt c nonce crypt) (drop (length crypt) (ccm_blocks c nonce (nblocks (length crypt)) 1) ++
    drop (16 * nblocks (length crypt)) plain) HM Hl Ha (ccm_crypt_bytes c crypt Hp)) as (x & Ex & E & Hm).
  fold (ccm_out c crypt plain) in E. rewrite Hz in Ex, E. rewrite Ex, bind_ok, E, bind_ok. pose proof (length_block16 _ Hm) as Lm.
  unfold ccm_tag. fold e. set (mac := ccm_mac c Mlen nonce aad (ccm_crypt c nonce crypt)) in *. set (m := take (Z.to_nat Mlen) mac).
  assert (length m = Z.to_nat Mlen) as Lmm by (unfold m; rewrite length_take; lia).
  assert (get mac 0 Mlen = Ok m) as ->.
  { rewrite <- (take_drop (Z.to_nat Mlen) mac). apply get_head. unfold zlen. fold m. lia. }
  rewrite bind_ok, get_head, bind_ok by done.
  destruct (bool_decide_reflect (m = xors auth e)) as [Em|Em]; cbn [negb].
  - rewrite bool_decide_eq_true_2; [done|]. rewrite Em. symmetry. apply mask_involutive; [done|unfold zlen in *; lia].
  - rewrite bool_decide_eq_false_2; [done|]. intros ->. apply Em. symmetry. apply mask_involutive; lia.
Qed.
End Nonce.

(** ** Properties *)

(** With a 13-byte nonce, at most 30 bytes of associated data and a MAC of
    2 to 16 bytes aes_ccm_ae writes the ciphertext and the MAC of NIST SP
    800-38C; aes_ccm_ad gives the plaintext back and returns 0 exactly if the
    MAC is the one of what it decrypts.  Both write the output in whole
    blocks, the end of the last one behind the message. *)
Theorem ccm_correct key k key_len c nonce Mlen aad :
  get key 0 key_len = Ok k -> aes_encrypt_init k = Some c -> zlen nonce = 13 -> bytes nonce ->
  2 <= Mlen <= 16 -> zlen aad <= 30 -> bytes aad ->
  (forall plain crypt auth, bytes plain -> (16 * nblocks (length plain) <= length crypt)%nat -> zlen auth = Mlen ->
    exists crypt', aes_ccm_ae key key_len nonce Mlen plain aad crypt auth =
        Ok (0, crypt', ccm_tag c Mlen nonce aad plain) /\
      take (length plain) crypt' = ccm_crypt c nonce plain /\ zlen crypt' = zlen crypt /\
      drop (16 * nblocks (length plain)) crypt' = drop (16 * nblocks (length plain)) crypt /\
      forall out, (16 * nblocks (length plain) <= length out)%nat ->
        exists out', aes_ccm_ad key key_len nonce Mlen (ccm_crypt c nonce plain) aad (ccm_tag c Mlen nonce aad plain) out =
          Ok (0, out') /\ take (length plain) out' = plain) /\
  (forall crypt auth out, bytes crypt -> (16 * nblocks (length crypt) <= length out)%nat -> zlen auth = Mlen ->
    auth <> ccm_tag c Mlen nonce aad (ccm_crypt c nonce crypt) ->
    exists out', aes_ccm_ad key key_len nonce Mlen crypt aad auth out = Ok (-1, out')).
Proof.
  intros Hk Hc Hn Hnb HM Hl Ha. split.
  - intros plain crypt auth Hp Ho Hauth. eexists. split; [by apply (ccm_ae_spec nonce Hn Hnb key k)|].
    pose proof (length_ccm_crypt nonce Hn Hnb c plain) as Lc. pose proof (length_ccm_blocks nonce Hn Hnb c) as Lb.
    pose proof (nblocks_bound (length plain)). unfold ccm_out.
    split; [by rewrite take_app_length' by done|]. split; [|split].
    + unfold zlen. rewrite !length_app, Lc, !length_drop, Lb. lia.
    + rewrite app_assoc, drop_app_length'; [done|]. rewrite length_app, Lc, length_drop, Lb. lia.
    + intros out Hout. eexists. rewrite (ccm_ad_spec nonce Hn Hnb key k key_len c) by (first [done|by apply ccm_crypt_bytes|by rewrite Lc|
        apply length_ccm_tag; [done|done|lia|by destruct (ccm_mac_spec nonce Hn Hnb c Mlen aad plain [] HM Hl Ha Hp) as (? & _ & _ & ?)]]).
      rewrite (ccm_crypt_involutive nonce Hn Hnb), bool_decide_eq_true_2 by done. split; [done|].
      unfold ccm_out. rewrite (ccm_crypt_involutive nonce Hn Hnb). by apply take_app_length'.
  - intros crypt auth out Hb Ho Hauth Hne. eexists. rewrite (ccm_ad_spec nonce Hn Hnb key k key_len c) by done.
    by rewrite bool_decide_eq_false_2.
Qed.
End Ccm.

Lemma ccm_correct_witness :
  exists crypt, aes_ccm_ae (ctx := Z) (replicate 16 3) 16 (seqZ 1 13) 8 (seqZ 40 37) (seqZ 0 22) (replicate 48 0) (replicate 8 0) =
    Ok (0, crypt, ccm_tag (ctx := Z) 3 8 (seqZ 1 13) (seqZ 0 22) (seqZ 40 37)) /\ zlen crypt = 48.
Proof.
  destruct (ccm_correct (ctx := Z) (replicate 16 3) (replicate 16 3) 16 3 (seqZ 1 13) 8 (seqZ 0 22)) as [H _];
    [done|done|done|by apply (bool_decide_unpack _); vm_compute|done|done|by apply (bool_decide_unpack _); vm_compute|].
  destruct (H (seqZ 40 37) (replicate 48 0) (replicate 8 0)) as (crypt & E & _ & Hz & _);
    [by apply (bool_decide_unpack _); vm_compute|by vm_compute; lia|done|].
  exists crypt. split; [exact E|exact Hz].
Defined.
