(* ===== verification/Rc4.v ===== *)
(** * RC4 (src/hostapd-2.5/src/crypto/rc4.c)

    The state [S] is a list of 256 bytes; reading the key or the data past its
    end is an error. *)

From S2P Require Import Prelude BlockCipher.

Record rc4_state : Type := mkRc4 { rc4_S : list Z; rc4_i : Z; rc4_j : Z }.

Definition S_SWAP (s : list Z) (a b : Z) : M (list Z) :=
  t ← rd s a; u ← rd s b; s ← wr s a u; wr s b t.

(** one round of the set-up loop on [S], [j] and [kpos] *)
Definition rc4_setup_round (key : list Z) (keylen : Z) (i : Z) (st : list Z * Z * Z) : M (list Z * Z * Z) :=
  let '(s, j, kpos) := st in
  si ← rd s i;
  k ← rd key kpos;
  let j := Z.land (u32 (j + si + k)) 0xff in
  let kpos := kpos + 1 in
  let kpos := if keylen <=? kpos then 0 else kpos in
  s ← S_SWAP s i j;
  Ok (s, j, kpos).

Definition rc4_setup (key : list Z) (keylen : Z) : M (list Z) :=
  '(s, _, _) ← cfor 257 (fun i => i + 1) (fun i => i <? 256) (rc4_setup_round key keylen) 0 (seqZ 0 256, 0, 0);
  Ok s.

Definition rc4_round (st : rc4_state) : M rc4_state :=
  let i := Z.land (rc4_i st + 1) 0xff in
  si ← rd (rc4_S st) i;
  let j := Z.land (rc4_j st + si) 0xff in
  s ← S_SWAP (rc4_S st) i j;
  Ok (mkRc4 s i j).

Fixpoint rc4_skip_loop (rounds : nat) (st : rc4_state) : M rc4_state :=
  match rounds with
  | O => Ok st
  | S rounds => st ← rc4_round st; rc4_skip_loop rounds st
  end.

Fixpoint rc4_apply (data_len : nat) (st : rc4_state) (pos : list Z) : M (list Z) :=
  match data_len with
  | O => Ok pos
  | S data_len =>
      st ← rc4_round st;
      si ← rd (rc4_S st) (rc4_i st);
      sj ← rd (rc4_S st) (rc4_j st);
      k ← rd (rc4_S st) (Z.land (si + sj) 0xff);
      d ← rd pos 0;
      rest ← rc4_apply data_len st (drop 1 pos);
      Ok (Z.lxor d k :: rest)
  end.

(** the value returned and [data] *)
Definition rc4_skip (key : list Z) (keylen skip : Z) (data : list Z) (data_len : Z) : M (Z * list Z) :=
  s ← rc4_setup key keylen;
  st ← rc4_skip_loop (Z.to_nat skip) (mkRc4 s 0 0);
  data ← rc4_apply (Z.to_nat data_len) st data;
  Ok (0, data).

(** ** Lemmas *)

Lemma land_255 v : 0 <= Z.land v 0xff < 256.
Proof. change 0xff with (Z.ones 8). rewrite Z.land_ones by lia. apply Z.mod_pos_bound. lia. Qed.

Definition rc4_table (s : list Z) : Prop := zlen s = 256 /\ bytes s.

Lemma table_rd s i : rc4_table s -> 0 <= i < 256 -> exists b, rd s i = Ok b /\ is_byte b.
Proof.
  intros [Hl Hb] Hi. destruct (rd_in_range s i) as [b E]; [lia|]. exists b. split; [done|].
  apply rd_lookup in E; [|lia]. by eapply Forall_lookup_1.
Qed.

Lemma swap_ok s a b : rc4_table s -> 0 <= a < 256 -> 0 <= b < 256 -> exists s', S_SWAP s a b = Ok s' /\ rc4_table s'.
Proof.
  intros Hs Ha Hb. unfold S_SWAP. destruct (table_rd s a Hs Ha) as (t & -> & Ht). rewrite bind_ok.
  destruct (table_rd s b Hs Hb) as (u & -> & Hu). rewrite bind_ok. destruct Hs as [Hl Hbs].
  rewrite wr_ok, bind_ok by lia. rewrite wr_ok by (unfold zlen in *; rewrite length_insert; lia).
  eexists. split; [done|]. split; [unfold zlen in *; rewrite !length_insert; lia|].
  by apply Forall_insert, Ht; apply Forall_insert.
Qed.

Definition rc4_wf (st : rc4_state) : Prop := rc4_table (rc4_S st) /\ 0 <= rc4_i st < 256 /\ 0 <= rc4_j st < 256.

Lemma rc4_round_ok st : rc4_table (rc4_S st) -> exists st', rc4_round st = Ok st' /\ rc4_wf st'.
Proof.
  intros Hs. unfold rc4_round. destruct (table_rd (rc4_S st) _ Hs (land_255 (rc4_i st + 1))) as (si & -> & _). rewrite bind_ok.
  destruct (swap_ok _ _ (Z.land (rc4_j st + si) 0xff) Hs (land_255 (rc4_i st + 1))) as (s' & -> & Hs'); [apply land_255|].
  rewrite bind_ok. eexists. split; [done|]. split; [done|]. split; apply land_255.
Qed.

Lemma rc4_skip_ok n st : rc4_table (rc4_S st) -> exists st', rc4_skip_loop n st = Ok st' /\ rc4_table (rc4_S st').
Proof.
  revert st. induction n as [|n IH]; intros st Hs; [by exists st|]. cbn [rc4_skip_loop].
  destruct (rc4_round_ok st Hs) as (st' & -> & Hs' & _). rewrite bind_ok. by apply IH.
Qed.

(** the key stream does not depend on the data *)
Lemma rc4_apply_spec n st : rc4_table (rc4_S st) ->
  exists ks, length ks = n /\ bytes ks /\
    forall data, (n <= length data)%nat -> rc4_apply n st data = Ok (xors (take n data) ks ++ drop n data).
Proof.
  revert st. induction n as [|n IH]; intros st Hs; [by exists []|]. cbn [rc4_apply].
  destruct (rc4_round_ok st Hs) as (st' & E1 & Hs' & Hi & Hj).
  destruct (table_rd _ _ Hs' Hi) as (si & E2 & _).
  destruct (table_rd _ _ Hs' Hj) as (sj & E3 & _).
  destruct (table_rd _ _ Hs' (land_255 (si + sj))) as (k & E4 & Hk).
  destruct (IH st' Hs') as (ks & Hl & Hb & E). exists (k :: ks). cbn [length]. split; [lia|].
  split; [by apply Forall_cons_2|]. intros [|d data] Hd; cbn [length] in Hd; [lia|].
  rewrite E1, bind_ok, E2, bind_ok, E3, bind_ok, E4, bind_ok. change (rd (d :: data) 0) with (Ok d). rewrite bind_ok.
  cbn [drop]. by rewrite drop_0, E, bind_ok by lia.
Qed.

Lemma rc4_setup_ok key keylen : 0 < keylen <= zlen key -> exists s, rc4_setup key keylen = Ok s /\ rc4_table s.
Proof.
  intros Hk. unfold rc4_setup.
  destruct (cfor_inv (fun _ (st : list Z * Z * Z) => rc4_table st.1.1 /\ 0 <= st.2 < keylen)
    (fun i => i + 1) (fun i => i <? 256) (rc4_setup_round key keylen) 256 257 0 (seqZ 0 256, 0, 0))
    as ([[s j] kpos] & -> & Hs & _); [lia|lia|done|done| | |].
  - intros i [[s j] kpos] Hi [Hs Hp]. cbn [fst snd] in *. unfold rc4_setup_round.
    destruct (table_rd s i Hs) as (si & -> & _); [lia|]. rewrite bind_ok.
    destruct (rd_in_range key kpos) as [k ->]; [lia|]. rewrite bind_ok.
    destruct (swap_ok s i (Z.land (u32 (j + si + k)) 0xff) Hs) as (s' & -> & Hs'); [lia|apply land_255|]. rewrite bind_ok.
    eexists. split; [done|]. cbn [fst snd]. split; [done|]. destruct (Z.leb_spec keylen (kpos + 1)); lia.
  - cbn [fst snd]. split; [split; [done|by apply (bool_decide_unpack _); vm_compute]|lia].
  - rewrite bind_ok. by exists s.
Qed.

(** rc4_skip adds a key stream that depends on the key, [skip] and the length only *)
Lemma rc4_skip_spec key keylen skip n : 0 < keylen <= zlen key ->
  exists ks, length ks = n /\ bytes ks /\
    forall data, (n <= length data)%nat ->
      rc4_skip key keylen skip data (Z.of_nat n) = Ok (0, xors (take n data) ks ++ drop n data).
Proof.
  intros Hk. destruct (rc4_setup_ok key keylen Hk) as (s & E1 & Hs).
  destruct (rc4_skip_ok (Z.to_nat skip) (mkRc4 s 0 0) Hs) as (st & E2 & Hst).
  destruct (rc4_apply_spec n st Hst) as (ks & Hl & Hb & E). exists ks. split; [done|]. split; [done|].
  intros data Hd. unfold rc4_skip. by rewrite E1, bind_ok, E2, bind_ok, Nat2Z.id, E, bind_ok.
Qed.

Lemma rc4_involutive key keylen skip data : 0 < keylen <= zlen key ->
  exists out, rc4_skip key keylen skip data (zlen data) = Ok (0, out) /\ zlen out = zlen data /\
    rc4_skip key keylen skip out (zlen out) = Ok (0, data).
Proof.
  intros Hk. destruct (rc4_skip_spec key keylen skip (length data) Hk) as (ks & Hl & Hb & E).
  assert (length (xors data ks) = length data) as Hx by (rewrite length_xors; lia).
  exists (xors data ks). unfold zlen. rewrite Hx, !E by lia. rewrite !take_ge, !drop_ge, !app_nil_r by lia.
  split; [done|]. split; [done|]. by rewrite xors_involutive by lia.
Qed.
