(* ===== verification/EapolKey.v ===== *)
(** * EAPOL-Key frames (src/hostapd-2.5/src/ap/wpa_auth.c, wpa_auth_ie.c, src/common/wpa_common.c, defs.h)

    Building, authenticating and parsing the frames of the WPA handshakes, as
    bytes.  The build configured in hostapd/.config has CONFIG_IEEE80211W and
    CONFIG_PEERKEY, and neither CONFIG_IEEE80211R nor the Suite B, HS 2.0 and
    P2P options.  AES is the interface [BlockCipher]; the HMACs are the
    interface [Digests].  What the allocator gives for a size is the argument
    [alloc]. *)

From stdpp Require Import functions.
From S2P Require Import Prelude BlockCipher HexText AesWrap AesCtr AesOmac AesCcm Rc4.

(** ** Constants of wpa_common.h, defs.h, ieee802_11_defs.h and eapol_common.h *)

Definition WPA_KEY_MGMT_IEEE8021X : Z := 2 ^ 0.
Definition WPA_KEY_MGMT_PSK : Z := 2 ^ 1.
Definition WPA_KEY_MGMT_FT_IEEE8021X : Z := 2 ^ 5.
Definition WPA_KEY_MGMT_FT_PSK : Z := 2 ^ 6.
Definition WPA_KEY_MGMT_IEEE8021X_SHA256 : Z := 2 ^ 7.
Definition WPA_KEY_MGMT_PSK_SHA256 : Z := 2 ^ 8.
Definition WPA_KEY_MGMT_SAE : Z := 2 ^ 10.
Definition WPA_KEY_MGMT_FT_SAE : Z := 2 ^ 11.
Definition WPA_KEY_MGMT_CCKM : Z := 2 ^ 14.
Definition WPA_KEY_MGMT_OSEN : Z := 2 ^ 15.
Definition WPA_KEY_MGMT_IEEE8021X_SUITE_B : Z := 2 ^ 16.
Definition WPA_KEY_MGMT_IEEE8021X_SUITE_B_192 : Z := 2 ^ 17.

Definition WPA_CIPHER_TKIP : Z := 2 ^ 3.
Definition WPA_CIPHER_CCMP : Z := 2 ^ 4.
Definition WPA_CIPHER_AES_128_CMAC : Z := 2 ^ 5.
Definition WPA_CIPHER_GCMP : Z := 2 ^ 6.
Definition WPA_CIPHER_GCMP_256 : Z := 2 ^ 8.
Definition WPA_CIPHER_CCMP_256 : Z := 2 ^ 9.
Definition WPA_CIPHER_BIP_GMAC_128 : Z := 2 ^ 11.
Definition WPA_CIPHER_BIP_GMAC_256 : Z := 2 ^ 12.
Definition WPA_CIPHER_BIP_CMAC_256 : Z := 2 ^ 13.

Definition any_of (akm mask : Z) : bool := negb (Z.land akm mask =? 0).

Definition wpa_key_mgmt_wpa_ieee8021x (akm : Z) : bool :=
  any_of akm (WPA_KEY_MGMT_IEEE8021X + WPA_KEY_MGMT_FT_IEEE8021X + WPA_KEY_MGMT_CCKM + WPA_KEY_MGMT_OSEN +
              WPA_KEY_MGMT_IEEE8021X_SHA256 + WPA_KEY_MGMT_IEEE8021X_SUITE_B + WPA_KEY_MGMT_IEEE8021X_SUITE_B_192).
Definition wpa_key_mgmt_wpa_psk (akm : Z) : bool :=
  any_of akm (WPA_KEY_MGMT_PSK + WPA_KEY_MGMT_FT_PSK + WPA_KEY_MGMT_PSK_SHA256 + WPA_KEY_MGMT_SAE + WPA_KEY_MGMT_FT_SAE).
Definition wpa_key_mgmt_sha256 (akm : Z) : bool :=
  any_of akm (WPA_KEY_MGMT_PSK_SHA256 + WPA_KEY_MGMT_IEEE8021X_SHA256 + WPA_KEY_MGMT_OSEN + WPA_KEY_MGMT_IEEE8021X_SUITE_B).
Definition wpa_key_mgmt_suite_b (akm : Z) : bool :=
  any_of akm (WPA_KEY_MGMT_IEEE8021X_SUITE_B + WPA_KEY_MGMT_IEEE8021X_SUITE_B_192).

Definition WPA_KEY_INFO_TYPE_AKM_DEFINED : Z := 0.
Definition WPA_KEY_INFO_TYPE_HMAC_MD5_RC4 : Z := 1.
Definition WPA_KEY_INFO_TYPE_HMAC_SHA1_AES : Z := 2.
Definition WPA_KEY_INFO_TYPE_AES_128_CMAC : Z := 3.
Definition WPA_KEY_INFO_TYPE_MASK : Z := 7.
Definition WPA_KEY_INFO_KEY_TYPE : Z := 2 ^ 3.
Definition WPA_KEY_INFO_KEY_INDEX_SHIFT : Z := 4.
Definition WPA_KEY_INFO_INSTALL : Z := 2 ^ 6.
Definition WPA_KEY_INFO_ACK : Z := 2 ^ 7.
Definition WPA_KEY_INFO_MIC : Z := 2 ^ 8.
Definition WPA_KEY_INFO_SECURE : Z := 2 ^ 9.
Definition WPA_KEY_INFO_ERROR : Z := 2 ^ 10.
Definition WPA_KEY_INFO_REQUEST : Z := 2 ^ 11.
Definition WPA_KEY_INFO_ENCR_KEY_DATA : Z := 2 ^ 12.
Definition WPA_KEY_INFO_SMK_MESSAGE : Z := 2 ^ 13.

Definition WPA_VERSION_WPA : Z := 1.
Definition WPA_VERSION_WPA2 : Z := 2.
Definition EAPOL_KEY_TYPE_RSN : Z := 2.
Definition EAPOL_KEY_TYPE_WPA : Z := 254.
Definition IEEE802_1X_TYPE_EAPOL_KEY : Z := 3.

(** big endian *)
Definition RSN_SELECTOR (a b c d : Z) : Z := Z.lor (Z.lor (Z.lor (Z.shiftl a 24) (Z.shiftl b 16)) (Z.shiftl c 8)) d.
Definition RSN_KEY_DATA_GROUPKEY : Z := RSN_SELECTOR 0x00 0x0f 0xac 1.
Definition RSN_KEY_DATA_MAC_ADDR : Z := RSN_SELECTOR 0x00 0x0f 0xac 3.
Definition RSN_KEY_DATA_PMKID : Z := RSN_SELECTOR 0x00 0x0f 0xac 4.
Definition RSN_KEY_DATA_SMK : Z := RSN_SELECTOR 0x00 0x0f 0xac 5.
Definition RSN_KEY_DATA_NONCE : Z := RSN_SELECTOR 0x00 0x0f 0xac 6.
Definition RSN_KEY_DATA_LIFETIME : Z := RSN_SELECTOR 0x00 0x0f 0xac 7.
Definition RSN_KEY_DATA_ERROR : Z := RSN_SELECTOR 0x00 0x0f 0xac 8.
Definition RSN_KEY_DATA_IGTK : Z := RSN_SELECTOR 0x00 0x0f 0xac 9.
Definition WPA_OUI_TYPE : Z := RSN_SELECTOR 0x00 0x50 0xf2 1.
Definition OSEN_IE_VENDOR_TYPE : Z := 0x506f9a12.

Definition wpa_cipher_key_len (cipher : Z) : Z :=
  if (cipher =? WPA_CIPHER_CCMP_256) || (cipher =? WPA_CIPHER_GCMP_256) || (cipher =? WPA_CIPHER_BIP_GMAC_256) ||
     (cipher =? WPA_CIPHER_BIP_CMAC_256) then 32
  else if (cipher =? WPA_CIPHER_CCMP) || (cipher =? WPA_CIPHER_GCMP) || (cipher =? WPA_CIPHER_AES_128_CMAC) ||
     (cipher =? WPA_CIPHER_BIP_GMAC_128) then 16
  else if cipher =? WPA_CIPHER_TKIP then 32
  else 0.

Definition wpa_mic_len (akmp : Z) : Z := if akmp =? WPA_KEY_MGMT_IEEE8021X_SUITE_B_192 then 24 else 16.

Definition wpa_use_aes_cmac (key_mgmt : Z) : bool :=
  wpa_key_mgmt_sha256 key_mgmt || (key_mgmt =? WPA_KEY_MGMT_OSEN).

(** ** struct ieee802_1x_hdr and struct wpa_eapol_key, by offsets *)

Definition HDR : Z := 4.
Definition o_type : Z := 4.
Definition o_key_info : Z := 5.
Definition o_key_length : Z := 7.
Definition o_replay_counter : Z := 9.
Definition o_key_nonce : Z := 17.
Definition o_key_iv : Z := 49.
Definition o_key_rsc : Z := 65.
Definition o_key_mic : Z := 81.
(** sizeof(struct wpa_eapol_key) is 95, with the 24-byte MIC 103 *)
Definition keyhdrlen (mic_len : Z) : Z := 79 + mic_len.
Definition o_key_data_length (mic_len : Z) : Z := HDR + keyhdrlen mic_len - 2.

Definition WPA_GET_BE16 (buf : list Z) (off : Z) : M Z :=
  a ← rd buf off; b ← rd buf (off + 1); Ok (Z.lor (Z.shiftl a 8) b).
Definition WPA_GET_BE32 (buf : list Z) (off : Z) : M Z :=
  a ← rd buf off; b ← rd buf (off + 1); c ← rd buf (off + 2); d ← rd buf (off + 3);
  Ok (Z.lor (Z.lor (Z.lor (Z.shiftl a 24) (Z.shiftl b 16)) (Z.shiftl c 8)) d).

Record wpa_ptk : Type := mkPtk { kck : list Z; kek : list Z; tk : list Z }.

(** the keyed digests of the crypto backends; [None] is a failure *)
Class Digests : Type := {
  hmac_md5 : list Z -> list Z -> option (list Z);
  hmac_sha1 : list Z -> list Z -> option (list Z);
  hmac_sha256 : list Z -> list Z -> option (list Z) }.

Class DigestsLaws `{Digests} : Prop := {
  hmac_md5_16 k d m : hmac_md5 k d = Some m -> zlen m = 16 /\ bytes m;
  hmac_sha1_20 k d m : hmac_sha1 k d = Some m -> zlen m = 20 /\ bytes m;
  hmac_sha256_32 k d m : hmac_sha256 k d = Some m -> zlen m = 32 /\ bytes m }.

(** crypto/md5.h *)
Definition MD5_MAC_LEN : Z := 16.
(** the digest itself *)
Class Md5 : Type := { md5_vector : list Z -> option (list Z) }.
Class Md5Laws `{Md5} : Prop := { md5_16 d h : md5_vector d = Some h -> zlen h = 16 /\ bytes h }.

Section Frames.
Context {ctx : Type} {BC : BlockCipher ctx} {DG : Digests}.

(** 16 bytes, or [None] for -1 *)
Definition wpa_eapol_key_mic (key : list Z) (ver : Z) (buf : list Z) : M (option (list Z)) :=
  if ver =? WPA_KEY_INFO_TYPE_HMAC_MD5_RC4 then Ok (hmac_md5 key buf)
  else if ver =? WPA_KEY_INFO_TYPE_HMAC_SHA1_AES then
    match hmac_sha1 key buf with
    | None => Ok None
    | Some hash => m ← get hash 0 16; Ok (Some m)
    end
  else if ver =? WPA_KEY_INFO_TYPE_AES_128_CMAC then
    '(r, m) ← omac1_aes_128 key buf;
    Ok (if r =? 0 then Some m else None)
  else Ok None.

(** the value returned, and [data], in which the MIC is put back *)
Definition wpa_verify_key_mic (akmp : Z) (PTK : wpa_ptk) (data : list Z) : M (Z * list Z) :=
  let mic_len := wpa_mic_len akmp in
  if zlen data <? HDR + 95 then Ok (-1, data)
  else
    key_info ← WPA_GET_BE16 data o_key_info;
    mic ← get data o_key_mic mic_len;
    data ← blit data o_key_mic (replicate (Z.to_nat mic_len) 0);
    m ← wpa_eapol_key_mic (kck PTK) (Z.land key_info WPA_KEY_INFO_TYPE_MASK) data;
    match m with
    | None => data ← blit data o_key_mic mic; Ok (-1, data)
    | Some m =>
        data ← blit data o_key_mic m;
        m ← get data o_key_mic mic_len;
        data ← blit data o_key_mic mic;
        Ok (if bool_decide (mic = m) then 0 else -1, data)
    end.

(** *** __wpa_send_eapol: the frame *)

(** the members of the station and of the configuration that are read *)
Record key_sender : Type := mkSender {
  ks_wpa : Z; ks_key_mgmt : Z; ks_pairwise : Z; ks_PTK : wpa_ptk; ks_PTK_valid : bool;
  ks_eapol_version : Z; ks_wpa_group : Z }.

Definition send_version (s : key_sender) (force_version : Z) : Z :=
  if negb (force_version =? 0) then force_version
  else if (ks_key_mgmt s =? WPA_KEY_MGMT_OSEN) || wpa_key_mgmt_suite_b (ks_key_mgmt s) then WPA_KEY_INFO_TYPE_AKM_DEFINED
  else if wpa_use_aes_cmac (ks_key_mgmt s) then WPA_KEY_INFO_TYPE_AES_128_CMAC
  else if negb (ks_pairwise s =? WPA_CIPHER_TKIP) then WPA_KEY_INFO_TYPE_HMAC_SHA1_AES
  else WPA_KEY_INFO_TYPE_HMAC_MD5_RC4.

(** the key data is wrapped with AES *)
Definition wraps (s : key_sender) (version : Z) : bool :=
  (version =? WPA_KEY_INFO_TYPE_HMAC_SHA1_AES) || (ks_key_mgmt s =? WPA_KEY_MGMT_OSEN) ||
  wpa_key_mgmt_suite_b (ks_key_mgmt s) || (version =? WPA_KEY_INFO_TYPE_AES_128_CMAC).

Definition pad_len (kde_len : Z) : Z := if kde_len mod 8 =? 0 then 0 else 8 - kde_len mod 8.

Definition send_key_info (s : key_sender) (key_info version keyidx : Z) (encr : bool) : Z :=
  let key_info := Z.lor key_info version in
  let key_info := if encr && (ks_wpa s =? WPA_VERSION_WPA2) then Z.lor key_info WPA_KEY_INFO_ENCR_KEY_DATA else key_info in
  if negb (ks_wpa s =? WPA_VERSION_WPA2) then Z.lor key_info (Z.shiftl keyidx WPA_KEY_INFO_KEY_INDEX_SHIFT) else key_info.

(** the header up to the key data, all zero before *)
Definition send_header (s : key_sender) (key_info version keyidx : Z) (encr : bool)
    (counter : list Z) (nonce key_rsc : option (list Z)) (f : list Z) : M (list Z) :=
  f ← wr f 0 (ks_eapol_version s);
  f ← wr f 1 IEEE802_1X_TYPE_EAPOL_KEY;
  f ← WPA_PUT_BE16 f 2 (zlen f - HDR);
  f ← wr f o_type (if ks_wpa s =? WPA_VERSION_WPA2 then EAPOL_KEY_TYPE_RSN else EAPOL_KEY_TYPE_WPA);
  f ← WPA_PUT_BE16 f o_key_info (send_key_info s key_info version keyidx encr);
  let alg := if any_of key_info WPA_KEY_INFO_KEY_TYPE then ks_pairwise s else ks_wpa_group s in
  f ← WPA_PUT_BE16 f o_key_length (wpa_cipher_key_len alg);
  f ← (if any_of (send_key_info s key_info version keyidx encr) WPA_KEY_INFO_SMK_MESSAGE then WPA_PUT_BE16 f o_key_length 0 else Ok f);
  f ← blit f o_replay_counter counter;
  f ← (match nonce with Some n => blit f o_key_nonce n | None => Ok f end);
  match key_rsc with Some r => blit f o_key_rsc r | None => Ok f end.

(** the encrypted key data: the frame, [None] when a call fails, and the group's [Counter] *)
Definition send_encrypted (alloc : Z -> bool) (s : key_sender) (version : Z) (kde : list Z) (key_data_len : Z)
    (Counter f : list Z) : M (option (list Z) * list Z) :=
  let mic_len := wpa_mic_len (ks_key_mgmt s) in
  let key_data := HDR + keyhdrlen mic_len in
  if negb (alloc key_data_len) then Ok (None, Counter)
  else
    buf ← blit (replicate (Z.to_nat key_data_len) 0) 0 kde;
    buf ← (if wraps s version && negb (pad_len (zlen kde) =? 0) then wr buf (zlen kde) 0xdd else Ok buf);
    if wraps s version then
      '(r, c) ← aes_wrap (kek (ks_PTK s)) ((key_data_len - 8) / 8) buf (drop (Z.to_nat key_data) f);
      if negb (r =? 0) then Ok (None, Counter)
      else
        f ← WPA_PUT_BE16 (take (Z.to_nat key_data) f ++ c) (o_key_data_length mic_len) key_data_len;
        Ok (Some f, Counter)
    else if zlen (kek (ks_PTK s)) =? 16 then
      iv ← get Counter (32 - 16) 16;
      f ← blit f o_key_iv iv;
      Counter ← inc_byte_array Counter 32;
      f ← blit f key_data buf;
      '(_, c) ← rc4_skip (iv ++ kek (ks_PTK s)) 32 256 (drop (Z.to_nat key_data) f) key_data_len;
      f ← WPA_PUT_BE16 (take (Z.to_nat key_data) f ++ c) (o_key_data_length mic_len) key_data_len;
      Ok (Some f, Counter)
    else Ok (None, Counter).

(** the frame to send, or [None], and the group's [Counter] *)
Definition eapol_key_frame (alloc : Z -> bool) (s : key_sender) (counter Counter : list Z)
    (key_info : Z) (key_rsc nonce kde : option (list Z)) (keyidx : Z) (encr : bool) (force_version : Z) :
    M (option (list Z) * list Z) :=
  let mic_len := wpa_mic_len (ks_key_mgmt s) in
  let version := send_version s force_version in
  let kde_len := match kde with Some k => zlen k | None => 0 end in
  let key_data_len := if wraps s version && encr then kde_len + pad_len kde_len + 8 else kde_len in
  let len := HDR + keyhdrlen mic_len + key_data_len in
  if negb (alloc len) then Ok (None, Counter)
  else
    f ← send_header s key_info version keyidx encr counter nonce key_rsc (replicate (Z.to_nat len) 0);
    '(f, Counter) ← (match kde with
                      | None => Ok (Some f, Counter)
                      | Some k =>
                          if negb encr then
                            f ← blit f (HDR + keyhdrlen mic_len) k;
                            f ← WPA_PUT_BE16 f (o_key_data_length mic_len) kde_len;
                            Ok (Some f, Counter)
                          else send_encrypted alloc s version k key_data_len Counter f
                      end);
    match f with
    | None => Ok (None, Counter)
    | Some f =>
        if any_of (send_key_info s key_info version keyidx encr) WPA_KEY_INFO_MIC then
          if negb (ks_PTK_valid s) then Ok (None, Counter)
          else
            m ← wpa_eapol_key_mic (kck (ks_PTK s)) version f;
            match m with
            | None => Ok (Some f, Counter)
            | Some m => f ← blit f o_key_mic m; Ok (Some f, Counter)
            end
        else Ok (Some f, Counter)
    end.
End Frames.

(** ** Key Data: the information elements and KDEs in a frame *)

(** the members of struct wpa_eapol_ie_parse: pointers into the key data with
    lengths, or NULL *)
Inductive ie_field : Type :=
| wpa_ie | rsn_ie | osen | pmkid | gtk | mac_addr | smk | nonce | lifetime | error | igtk.

#[export] Instance ie_field_eq_dec : EqDecision ie_field. Proof. solve_decision. Defined.

Abbreviation wpa_eapol_ie_parse := (ie_field -> option (Z * Z)).

Definition RSN_SELECTOR_LEN : Z := 4.
Definition PMKID_LEN : Z := 16.

(** a KDE longer than its selector and two bytes *)
Definition kde_after_selector (pos len : Z) : Z * Z := (pos + 2 + RSN_SELECTOR_LEN, len - RSN_SELECTOR_LEN).

(** the chain of comparisons with the KDE selectors *)
Fixpoint parse_selector (table : list (Z * ie_field)) (sel pos len : Z) (ie : wpa_eapol_ie_parse) : wpa_eapol_ie_parse :=
  match table with
  | [] => ie
  | (s, f) :: table =>
      if (RSN_SELECTOR_LEN + 2 <? len) && (sel =? s) then <[f := Some (kde_after_selector pos len)]> ie
      else parse_selector table sel pos len ie
  end.

Definition kde_table : list (Z * ie_field) :=
  [(RSN_KEY_DATA_GROUPKEY, gtk); (RSN_KEY_DATA_MAC_ADDR, mac_addr); (RSN_KEY_DATA_SMK, smk);
   (RSN_KEY_DATA_NONCE, nonce); (RSN_KEY_DATA_LIFETIME, lifetime); (RSN_KEY_DATA_ERROR, error);
   (RSN_KEY_DATA_IGTK, igtk)].

(** the value returned (0, or 1 at the end mark) and [ie] *)
Definition wpa_parse_generic (buf : list Z) (pos end_ : Z) (ie : wpa_eapol_ie_parse) : M (Z * wpa_eapol_ie_parse) :=
  len ← rd buf (pos + 1);
  if len =? 0 then Ok (1, ie)
  else
    wpa ← (if 6 <=? len then
             sel ← WPA_GET_BE32 buf (pos + 2);
             if sel =? WPA_OUI_TYPE then
               a ← rd buf (pos + 2 + 4);
               if a =? 1 then b ← rd buf (pos + 2 + 4 + 1); Ok (b =? 0) else Ok false
             else Ok false
           else Ok false);
    if (wpa : bool) then Ok (0, <[wpa_ie := Some (pos, len + 2)]> ie)
    else
      sel ← (if 4 <=? len then WPA_GET_BE32 buf (pos + 2) else Ok (-1));
      if sel =? OSEN_IE_VENDOR_TYPE then Ok (0, <[osen := Some (pos, len + 2)]> ie)
      else if (pos + 1 + RSN_SELECTOR_LEN <? end_) && (RSN_SELECTOR_LEN + PMKID_LEN <=? len) && (sel =? RSN_KEY_DATA_PMKID)
      then Ok (0, <[pmkid := Some (pos + 2 + RSN_SELECTOR_LEN, PMKID_LEN)]> ie)
      else Ok (0, parse_selector kde_table sel pos len ie).

Fixpoint parse_kde_loop (fuel : nat) (buf : list Z) (pos len : Z) (ie : wpa_eapol_ie_parse) : M (Z * wpa_eapol_ie_parse) :=
  match fuel with
  | O => Err OutOfFuel
  | S fuel =>
      if pos + 1 <? len then
        id ← rd buf pos;
        l ← rd buf (pos + 1);
        if (id =? 0xdd) && ((pos =? len - 1) || (l =? 0)) then Ok (0, ie)
        else if len <? pos + 2 + l then Ok (-1, ie)
        else if id =? 48 then parse_kde_loop fuel buf (pos + 2 + l) len (<[rsn_ie := Some (pos, l + 2)]> ie)
        else if id =? 221 then
          '(ret, ie) ← wpa_parse_generic buf pos len ie;
          if ret <? 0 then Ok (ret, ie)
          else if 0 <? ret then Ok (0, ie)
          else parse_kde_loop fuel buf (pos + 2 + l) len ie
        else parse_kde_loop fuel buf (pos + 2 + l) len ie
      else Ok (0, ie)
  end.

Definition wpa_parse_kde_ies (buf : list Z) (len : Z) : M (Z * wpa_eapol_ie_parse) :=
  parse_kde_loop (S (Z.to_nat len)) buf 0 len (fun _ => None).

(** the buffer and [pos] behind the KDE *)
Definition wpa_add_kde (buf : list Z) (pos kde : Z) (data : list Z) (data2 : option (list Z)) : M (list Z * Z) :=
  let len2 := match data2 with Some d => zlen d | None => 0 end in
  buf ← wr buf pos 221;
  buf ← wr buf (pos + 1) (u8 (RSN_SELECTOR_LEN + zlen data + len2));
  buf ← blit buf (pos + 2) (to_be 4 kde);
  buf ← blit buf (pos + 2 + RSN_SELECTOR_LEN) data;
  let pos := pos + 2 + RSN_SELECTOR_LEN + zlen data in
  match data2 with
  | Some d => buf ← blit buf pos d; Ok (buf, pos + zlen d)
  | None => Ok (buf, pos)
  end.

(** *** The parser stays inside the key data *)

Definition inside (len : Z) (ie : wpa_eapol_ie_parse) : Prop :=
  forall f p n, ie f = Some (p, n) -> 0 <= p /\ 0 <= n /\ p + n <= len.

Lemma inside_insert len ie f p n : inside len ie -> 0 <= p -> 0 <= n -> p + n <= len -> inside len (<[f := Some (p, n)]> ie).
Proof.
  intros H Hp Hn Hl g p' n' E. destruct (decide (f = g)) as [->|Hne].
  - rewrite fn_lookup_insert in E. by injection E as <- <-.
  - rewrite fn_lookup_insert_ne in E by done. by apply H in E.
Qed.

Lemma parse_selector_inside table sel pos l len ie : 0 <= pos -> pos + 2 + l <= len -> inside len ie ->
  inside len (parse_selector table sel pos l ie).
Proof.
  intros Hp Hl Hi. induction table as [|[s f] table IH]; [done|]. cbn [parse_selector]. unfold RSN_SELECTOR_LEN in *.
  destruct (Z.ltb_spec (4 + 2) l); [|done]. destruct (sel =? s); [|done]. cbn [andb].
  apply inside_insert; unfold RSN_SELECTOR_LEN; try done; lia.
Qed.

Lemma get_be32_ok buf off : 0 <= off -> off + 4 <= zlen buf -> exists v, WPA_GET_BE32 buf off = Ok v.
Proof.
  intros H0 H1. unfold WPA_GET_BE32. destruct (rd_in_range buf off) as [a ->]; [lia|].
  destruct (rd_in_range buf (off + 1)) as [b ->]; [lia|]. destruct (rd_in_range buf (off + 2)) as [c ->]; [lia|].
  destruct (rd_in_range buf (off + 3)) as [d ->]; [lia|]. by eexists.
Qed.

Lemma parse_generic_inside buf pos l ie :
  0 <= pos -> rd buf (pos + 1) = Ok l -> 0 <= l -> pos + 2 + l <= zlen buf -> inside (zlen buf) ie ->
  exists ret ie', wpa_parse_generic buf pos (zlen buf) ie = Ok (ret, ie') /\ inside (zlen buf) ie' /\ 0 <= ret <= 1.
Proof.
  intros Hp Hl Hl0 Hend Hi. unfold wpa_parse_generic. rewrite Hl, bind_ok.
  destruct (Z.eqb_spec l 0); [exists 1, ie; split; [done|split; [done|lia]]|].
  assert (exists wpa, (if 6 <=? l then sel ← WPA_GET_BE32 buf (pos + 2);
      if sel =? WPA_OUI_TYPE then a ← rd buf (pos + 2 + 4);
        if a =? 1 then b ← rd buf (pos + 2 + 4 + 1); Ok (b =? 0) else Ok false else Ok false else Ok false) = Ok (wpa : bool))
    as [wpa ->].
  { destruct (Z.leb_spec 6 l); [|by eexists]. destruct (get_be32_ok buf (pos + 2)) as [v ->]; [lia..|]. rewrite bind_ok.
    destruct (v =? WPA_OUI_TYPE); [|by eexists]. destruct (rd_in_range buf (pos + 2 + 4)) as [a ->]; [lia|]. rewrite bind_ok.
    destruct (a =? 1); [|by eexists]. destruct (rd_in_range buf (pos + 2 + 4 + 1)) as [b ->]; [lia|]. by eexists. }
  rewrite bind_ok. destruct wpa.
  { do 2 eexists. split; [done|]. split; [apply inside_insert; try done; lia|lia]. }
  assert (exists sel, (if 4 <=? l then WPA_GET_BE32 buf (pos + 2) else Ok (-1)) = Ok sel) as [sel ->].
  { destruct (Z.leb_spec 4 l); [apply get_be32_ok; lia|by eexists]. }
  rewrite bind_ok. destruct (sel =? OSEN_IE_VENDOR_TYPE).
  { do 2 eexists. split; [done|]. split; [apply inside_insert; try done; lia|lia]. }
  unfold RSN_SELECTOR_LEN, PMKID_LEN. destruct (Z.leb_spec (4 + 16) l); rewrite ?andb_true_r, ?andb_false_r; cbn [andb].
  - destruct ((pos + 1 + 4 <? zlen buf) && (sel =? RSN_KEY_DATA_PMKID)).
    + do 2 eexists. split; [done|]. split; [apply inside_insert; try done; lia|lia].
    + do 2 eexists. split; [done|]. split; [by apply parse_selector_inside|lia].
  - do 2 eexists. split; [done|]. split; [by apply parse_selector_inside|lia].
Qed.

Lemma parse_kde_loop_inside fuel buf pos ie : (Z.to_nat (zlen buf - pos) < fuel)%nat -> 0 <= pos -> bytes buf ->
  inside (zlen buf) ie ->
  exists ret ie', parse_kde_loop fuel buf pos (zlen buf) ie = Ok (ret, ie') /\ inside (zlen buf) ie' /\ (ret = 0 \/ ret = -1).
Proof.
  revert pos ie. induction fuel as [|fuel IH]; intros pos ie Hf Hp Hb Hi; [lia|]. cbn [parse_kde_loop].
  destruct (Z.ltb_spec (pos + 1) (zlen buf)) as [Hlt|]; [|exists 0, ie; auto].
  destruct (rd_in_range buf pos) as [id Hid]; [lia|]. destruct (rd_in_range buf (pos + 1)) as [l Hl]; [lia|].
  rewrite Hid, bind_ok, Hl, bind_ok.
  assert (is_byte l) as Hlb by (apply rd_lookup in Hl; [|lia]; by eapply Forall_lookup_1).
  unfold is_byte in Hlb.
  destruct ((id =? 0xdd) && ((pos =? zlen buf - 1) || (l =? 0))); [exists 0, ie; auto|].
  destruct (Z.ltb_spec (zlen buf) (pos + 2 + l)); [exists (-1), ie; auto|].
  destruct (id =? 48); [apply IH; try done; [lia|lia|apply inside_insert; try done; lia]|].
  destruct (id =? 221); [|apply IH; try done; lia].
  destruct (parse_generic_inside buf pos l ie) as (ret & ie' & -> & Hi' & Hr); [done..|lia|lia|done|]. rewrite bind_ok.
  replace (ret <? 0) with false by lia. destruct (Z.ltb_spec 0 ret); [exists 0, ie'; auto|]. apply IH; try done; lia.
Qed.

Lemma parse_kde_ies_inside buf : bytes buf ->
  exists ret ie, wpa_parse_kde_ies buf (zlen buf) = Ok (ret, ie) /\ inside (zlen buf) ie /\ (ret = 0 \/ ret = -1).
Proof. intros Hb. apply parse_kde_loop_inside; [lia|lia|done|done]. Qed.

(** ** The frame as a list of fields *)

(** *** Writing and reading one field of a concatenation *)

Lemma split_field (R : list (list Z)) p : (p < length R)%nat ->
  R = take p R ++ nth p R [] :: drop (S p) R.
Proof.
  intros Hp. destruct (lookup_lt_is_Some_2 R p Hp) as [x Hx].
  rewrite <- (take_drop_middle R p x Hx) at 1. do 2 f_equal. symmetry. by apply nth_lookup_Some.
Qed.

Lemma blit_field (R : list (list Z)) p off y :
  (p < length R)%nat -> off = zlen (concat (take p R)) -> zlen y = zlen (nth p R []) ->
  blit (concat R) off y = Ok (concat (<[p := y]> R)).
Proof.
  intros Hp -> Hy. rewrite insert_take_drop by done.
  rewrite (split_field R p Hp) at 1. rewrite !concat_app. cbn [concat]. by apply blit_app.
Qed.

Lemma get_field (R : list (list Z)) p off n :
  (p < length R)%nat -> off = zlen (concat (take p R)) -> n = zlen (nth p R []) ->
  get (concat R) off n = Ok (nth p R []).
Proof.
  intros Hp -> Hn. rewrite (split_field R p Hp) at 1. rewrite concat_app. cbn [concat]. by apply get_app.
Qed.

Lemma wr_field (R : list (list Z)) p off v :
  (p < length R)%nat -> off = zlen (concat (take p R)) -> zlen (nth p R []) = 1 ->
  wr (concat R) off v = Ok (concat (<[p := [v]]> R)).
Proof.
  intros Hp -> Hy. rewrite insert_take_drop by done.
  rewrite (split_field R p Hp) at 1. rewrite !concat_app. cbn [concat].
  destruct (nth p R []) as [|x [|]]; try discriminate Hy; [|rewrite !zlen_cons in Hy; pose proof (zlen_nonneg l); lia].
  pose proof (zlen_nonneg (concat (take p R))). pose proof (zlen_nonneg (concat (drop (S p) R))).
  rewrite wr_ok by (autorewrite with arr; lia). f_equal.
  replace (Z.to_nat (zlen (concat (take p R)))) with (length (concat (take p R)) + 0)%nat by (unfold zlen; lia).
  by rewrite insert_app_r.
Qed.

Lemma put_field (R : list (list Z)) p off v :
  (p < length R)%nat -> off = zlen (concat (take p R)) -> zlen (nth p R []) = 2 ->
  WPA_PUT_BE16 (concat R) off v = Ok (concat (<[p := be16 v]> R)).
Proof.
  intros Hp -> Hy. rewrite insert_take_drop by done.
  rewrite (split_field R p Hp) at 1. rewrite !concat_app. cbn [concat].
  destruct (nth p R []) as [|x [|y [|]]]; try discriminate Hy; [|rewrite !zlen_cons in Hy; pose proof (zlen_nonneg l); lia].
  by apply (put_be16 (concat (take p R)) x y).
Qed.

Lemma rd_0 {A} (a : A) l : rd (a :: l) 0 = Ok a. Proof. done. Qed.
Lemma rd_1 {A} (a b : A) l : rd (a :: b :: l) 1 = Ok b. Proof. done. Qed.

Lemma get_be16_field (R : list (list Z)) p off v :
  (p < length R)%nat -> off = zlen (concat (take p R)) -> nth p R [] = be16 v ->
  WPA_GET_BE16 (concat R) off = Ok (u16 v).
Proof.
  intros Hp -> Hv. rewrite (split_field R p Hp) at 1. rewrite concat_app, Hv. cbn [concat]. unfold WPA_GET_BE16.
  rewrite be16_eq. set (l1 := concat (take p R)). cbn [app].
  rewrite (rd_app_r l1 _ (zlen l1)) by lia. replace (zlen l1 - zlen l1) with 0 by lia. rewrite rd_0, bind_ok.
  rewrite (rd_app_r l1 _ (zlen l1 + 1)) by lia. replace (zlen l1 + 1 - zlen l1) with 1 by lia. rewrite rd_1, bind_ok.
  f_equal. unfold u16. rewrite Z.shiftl_mul_pow2 by lia.
  pose proof (Z.mod_pos_bound v 256). rewrite lor_disjoint by (change (2 ^ 8) with 256; lia).
  change (2 ^ 16) with (256 * 256). rewrite Z.rem_mul_r by lia. change (2 ^ 8) with 256. lia.
Qed.

Lemma concat_zeros (ns : list nat) : concat (map (fun n => replicate n 0) ns) = replicate (sum_list ns) 0.
Proof. induction ns as [|n ns IH]; [done|]. cbn. by rewrite IH, replicate_add. Qed.

(** side conditions about offsets *)
Ltac field_side :=
  first [ done
        | cbn [take concat nth length firstn app];
          unfold o_type, o_key_info, o_key_length, o_replay_counter, o_key_nonce, o_key_iv, o_key_rsc, o_key_mic,
            o_key_data_length, keyhdrlen, HDR;
          autorewrite with arr; change (zlen (replicate 8 0)) with 8; change (zlen (replicate 16 0)) with 16;
          change (zlen (replicate 32 0)) with 32; change (zlen (@nil Z)) with 0; lia ].

Record key_fields : Type := mkFields {
  k_version : Z; k_length : list Z; k_type : Z; k_info : Z; k_keylen : Z; k_counter : list Z; k_nonce : list Z;
  k_iv : list Z; k_rsc : list Z; k_mic : list Z; k_datalen : list Z; k_data : list Z }.

Definition fields_of (k : key_fields) : list (list Z) :=
  [[k_version k]; [IEEE802_1X_TYPE_EAPOL_KEY]; k_length k; [k_type k]; be16 (k_info k); be16 (k_keylen k); k_counter k;
   k_nonce k; k_iv k; k_rsc k; replicate 8 0; k_mic k; k_datalen k; k_data k].

Definition frame_of (k : key_fields) : list Z := concat (fields_of k).

(** the sizes of the fields *)
Record sized (ml : Z) (k : key_fields) : Prop := {
  sz_length : zlen (k_length k) = 2; sz_counter : zlen (k_counter k) = 8; sz_nonce : zlen (k_nonce k) = 32;
  sz_iv : zlen (k_iv k) = 16; sz_rsc : zlen (k_rsc k) = 8; sz_mic : zlen (k_mic k) = ml; sz_datalen : zlen (k_datalen k) = 2 }.

Lemma zlen_be16 v : zlen (be16 v) = 2.
Proof. done. Qed.

#[export] Hint Rewrite zlen_be16 : arr.

Ltac sized_side H := destruct H as [? ? ? ? ? ? ?]; unfold fields_of; field_side.

Lemma zlen_frame_of ml k : sized ml k -> zlen (frame_of k) = HDR + keyhdrlen ml + zlen (k_data k).
Proof.
  intros H. unfold frame_of, fields_of, HDR, keyhdrlen. cbn [concat]. destruct H. autorewrite with arr.
  change (zlen (replicate 8 0)) with 8. change (zlen []) with 0. lia.
Qed.

(** replacing the MIC, the key data and its length *)
Definition with_mic (m : list Z) (k : key_fields) : key_fields :=
  mkFields (k_version k) (k_length k) (k_type k) (k_info k) (k_keylen k) (k_counter k) (k_nonce k) (k_iv k) (k_rsc k) m
    (k_datalen k) (k_data k).
Definition with_iv (i : list Z) (k : key_fields) : key_fields :=
  mkFields (k_version k) (k_length k) (k_type k) (k_info k) (k_keylen k) (k_counter k) (k_nonce k) i (k_rsc k) (k_mic k)
    (k_datalen k) (k_data k).
Definition with_data (n : Z) (d : list Z) (k : key_fields) : key_fields :=
  mkFields (k_version k) (k_length k) (k_type k) (k_info k) (k_keylen k) (k_counter k) (k_nonce k) (k_iv k) (k_rsc k) (k_mic k)
    (be16 n) d.

Lemma blit_mic ml k m : sized ml k -> zlen m = ml -> blit (frame_of k) o_key_mic m = Ok (frame_of (with_mic m k)).
Proof.
  intros H Hm. unfold frame_of. rewrite (blit_field (fields_of k) 11); [done|cbn; lia|sized_side H|destruct H; cbn; lia].
Qed.

Lemma get_mic ml k : sized ml k -> get (frame_of k) o_key_mic ml = Ok (k_mic k).
Proof.
  intros H. unfold frame_of. rewrite (get_field (fields_of k) 11); [done|cbn; lia|sized_side H|destruct H; cbn; lia].
Qed.

Lemma get_info ml k : sized ml k -> WPA_GET_BE16 (frame_of k) o_key_info = Ok (u16 (k_info k)).
Proof.
  intros H. unfold frame_of. rewrite (get_be16_field (fields_of k) 4 _ (k_info k)); [done|cbn; lia|sized_side H|done].
Qed.

Lemma get_counter ml k : sized ml k -> get (frame_of k) o_replay_counter 8 = Ok (k_counter k).
Proof.
  intros H. unfold frame_of. rewrite (get_field (fields_of k) 6); [done|cbn; lia|sized_side H|destruct H; cbn; lia].
Qed.

Lemma with_mic_sized ml k m : sized ml k -> zlen m = ml -> sized ml (with_mic m k).
Proof. intros [] ?. by split. Qed.

(** the key data is the rest of the frame *)
Lemma frame_split ml k : sized ml k ->
  exists head, frame_of k = head ++ k_data k /\ zlen head = HDR + keyhdrlen ml /\
    (forall n d, WPA_PUT_BE16 (head ++ d) (o_key_data_length ml) n = Ok (frame_of (with_data n d k))).
Proof.
  intros H. exists (concat (take 13 (fields_of k))). assert (frame_of k = concat (take 13 (fields_of k)) ++ k_data k) as E.
  { unfold frame_of. rewrite <- (take_drop 13 (fields_of k)) at 1. rewrite concat_app. f_equal. cbn. by rewrite app_nil_r. }
  split; [done|]. split.
  - pose proof (zlen_frame_of ml k H) as Hl. rewrite E, zlen_app in Hl. lia.
  - intros n d. assert (concat (take 13 (fields_of k)) ++ d = concat (take 13 (fields_of k) ++ [d])) as ->.
    { rewrite concat_app. cbn [concat]. by rewrite app_nil_r. }
    rewrite (put_field (take 13 (fields_of k) ++ [d]) 12); [done|cbn; lia|sized_side H|destruct H; cbn; lia].
Qed.

Section Sent.
Context {ctx : Type} {BC : BlockCipher ctx} {DG : Digests}.

Lemma verify_frame akmp PTK k m : wpa_mic_len akmp = 16 -> sized 16 k ->
  wpa_eapol_key_mic (kck PTK) (Z.land (u16 (k_info k)) WPA_KEY_INFO_TYPE_MASK) (frame_of (with_mic (replicate 16 0) k)) = Ok (Some m) ->
  zlen m = 16 ->
  wpa_verify_key_mic akmp PTK (frame_of k) = Ok (if bool_decide (k_mic k = m) then 0 else -1, frame_of k).
Proof.
  intros Hml H Hm Hlm. unfold wpa_verify_key_mic. rewrite Hml.
  pose proof (zlen_frame_of 16 k H) as Hl. pose proof (zlen_nonneg (k_data k)). unfold HDR, keyhdrlen in Hl.
  replace (zlen (frame_of k) <? HDR + 95) with false by (unfold HDR; lia).
  rewrite (get_info 16), bind_ok, (get_mic 16), bind_ok by done. change (Z.to_nat 16) with 16%nat.
  rewrite (blit_mic 16), bind_ok, Hm, bind_ok by done.
  rewrite (blit_mic 16), bind_ok by (first [done|by apply with_mic_sized]).
  rewrite (get_mic 16), bind_ok by (apply with_mic_sized; [by apply with_mic_sized|done]).
  rewrite (blit_mic 16); [by rewrite bind_ok; destruct k|apply with_mic_sized; [by apply with_mic_sized|done]|apply H].
Qed.

(** the flags of the caller stay set *)
Lemma any_of_lor a b m : any_of a m = true -> any_of (Z.lor a b) m = true.
Proof.
  unfold any_of. intros H. apply negb_true_iff, Z.eqb_neq. intros E. rewrite Z.land_lor_distr_l in E.
  apply Z.lor_eq_0_iff in E as [E _]. by rewrite E in H.
Qed.
Lemma send_key_info_any s key_info version keyidx encr m : any_of key_info m = true ->
  any_of (send_key_info s key_info version keyidx encr) m = true.
Proof. intros H. unfold send_key_info. repeat case_match; by repeat apply any_of_lor. Qed.

Definition header_fields (s : key_sender) (key_info version keyidx : Z) (encr : bool)
    (counter : list Z) (nonce key_rsc : option (list Z)) (ml : Z) (data : list Z) : key_fields :=
  mkFields (ks_eapol_version s) (be16 (keyhdrlen ml + zlen data))
    (if ks_wpa s =? WPA_VERSION_WPA2 then EAPOL_KEY_TYPE_RSN else EAPOL_KEY_TYPE_WPA)
    (send_key_info s key_info version keyidx encr)
    (if any_of (send_key_info s key_info version keyidx encr) WPA_KEY_INFO_SMK_MESSAGE then 0
     else wpa_cipher_key_len (if any_of key_info WPA_KEY_INFO_KEY_TYPE then ks_pairwise s else ks_wpa_group s))
    counter (default (replicate 32 0) nonce) (replicate 16 0) (default (replicate 8 0) key_rsc)
    (replicate (Z.to_nat ml) 0) (be16 0) data.

Definition optional_size (n : Z) (o : option (list Z)) : Prop := match o with Some l => zlen l = n | None => True end.

Lemma header_sized s key_info version keyidx encr counter nonce key_rsc ml data :
  0 <= ml -> zlen counter = 8 -> optional_size 32 nonce -> optional_size 8 key_rsc ->
  sized ml (header_fields s key_info version keyidx encr counter nonce key_rsc ml data).
Proof.
  intros Hm Hc Hn Hr. split; try done; cbn.
  - by destruct nonce.
  - by destruct key_rsc.
  - unfold zlen. rewrite length_replicate. lia.
Qed.

Lemma send_header_spec s key_info version keyidx encr counter nonce key_rsc ml (kd : nat) :
  0 <= ml -> zlen counter = 8 -> optional_size 32 nonce -> optional_size 8 key_rsc ->
  send_header s key_info version keyidx encr counter nonce key_rsc
    (replicate (Z.to_nat (HDR + keyhdrlen ml + Z.of_nat kd)) 0) =
  Ok (frame_of (header_fields s key_info version keyidx encr counter nonce key_rsc ml (replicate kd 0))).
Proof.
  intros Hm Hc Hn Hr.
  assert (replicate (Z.to_nat (HDR + keyhdrlen ml + Z.of_nat kd)) 0 =
    concat [[0]; [0]; [0; 0]; [0]; [0; 0]; [0; 0]; replicate 8 0; replicate 32 0; replicate 16 0; replicate 8 0; replicate 8 0;
      replicate (Z.to_nat ml) 0; [0; 0]; replicate kd 0]) as ->.
  { trans (concat (map (fun n => replicate n 0) [1; 1; 2; 1; 2; 2; 8; 32; 16; 8; 8; Z.to_nat ml; 2; kd]%nat)); [|done].
    rewrite concat_zeros. f_equal. unfold HDR, keyhdrlen. simpl. lia. }
  assert (zlen (replicate (Z.to_nat ml) 0) = ml) as Hml by (unfold zlen; rewrite length_replicate; lia).
  assert (zlen (replicate kd 0) = Z.of_nat kd) as Hkd by (unfold zlen; by rewrite length_replicate).
  assert (forall a b, zlen (concat [[a]; [b]; [0; 0]; [0]; [0; 0]; [0; 0]; replicate 8 0; replicate 32 0; replicate 16 0;
    replicate 8 0; replicate 8 0; replicate (Z.to_nat ml) 0; [0; 0]; replicate kd 0]) - HDR =
    keyhdrlen ml + zlen (replicate kd 0)) as Hlen.
  { intros a b. field_side. }
  unfold send_header.
  rewrite (wr_field _ 0), bind_ok by field_side. cbn [insert list_insert].
  rewrite (wr_field _ 1), bind_ok by field_side. cbn [insert list_insert].
  rewrite (put_field _ 2), bind_ok, Hlen by field_side. cbn [insert list_insert].
  rewrite (wr_field _ 3), bind_ok by field_side. cbn [insert list_insert].
  rewrite (put_field _ 4), bind_ok by field_side. cbn [insert list_insert].
  rewrite (put_field _ 5), bind_ok by field_side. cbn [insert list_insert].
  unfold header_fields. destruct (any_of (send_key_info s key_info version keyidx encr) WPA_KEY_INFO_SMK_MESSAGE);
    rewrite ?(put_field _ 5) by field_side; rewrite bind_ok; cbn [insert list_insert];
    rewrite (blit_field _ 6), bind_ok by field_side; cbn [insert list_insert];
    (destruct nonce as [n|]; cbn [optional_size] in Hn; [rewrite (blit_field _ 7) by field_side|]; rewrite bind_ok; cbn [insert list_insert];
     (destruct key_rsc as [r|]; cbn [optional_size] in Hr; [rewrite (blit_field _ 9) by field_side|]; cbn [insert list_insert])).
  all: done.
Qed.

(** what the holder of the KEK gets out of the key data [d] *)
Definition opens (s : key_sender) (version : Z) (encr : bool) (iv d kde : list Z) : Prop :=
  if negb encr then d = kde
  else if wraps s version then
    exists pad, aes_unwrap (kek (ks_PTK s)) (zlen d / 8 - 1) d (replicate (Z.to_nat (zlen d - 8)) 0) = Ok (0, kde ++ pad) /\
      zlen pad < 8 /\ pad = take (length pad) [0xdd; 0; 0; 0; 0; 0; 0]
  else rc4_skip (iv ++ kek (ks_PTK s)) 32 256 d (zlen d) = Ok (0, kde).

Lemma length_repl (n : Z) : 0 <= n -> zlen (replicate (Z.to_nat n) 0) = n.
Proof. intros. unfold zlen. rewrite length_replicate. lia. Qed.

Lemma repl_Z (n : Z) : bytes (replicate (Z.to_nat n) 0).
Proof. by apply Forall_replicate. Qed.

(** the padding *)
Lemma pad_spec kde : bytes kde ->
  let n := zlen kde + pad_len (zlen kde) in
  exists pad buf, blit (replicate (Z.to_nat (n + 8)) 0) 0 kde = Ok buf /\
    (if negb (pad_len (zlen kde) =? 0) then wr buf (zlen kde) 0xdd else Ok buf) = Ok ((kde ++ pad) ++ replicate 8 0) /\
    zlen (kde ++ pad) = n /\ n mod 8 = 0 /\ bytes (kde ++ pad) /\
    zlen pad < 8 /\ pad = take (length pad) [0xdd; 0; 0; 0; 0; 0; 0].
Proof.
  intros Hb n. pose proof (zlen_nonneg kde). unfold pad_len in *. pose proof (Z.mod_pos_bound (zlen kde) 8) as Hr.
  assert (blit (replicate (Z.to_nat (n + 8)) 0) 0 kde = Ok (kde ++ replicate (Z.to_nat (n + 8 - zlen kde)) 0)) as E.
  { replace (Z.to_nat (n + 8)) with (length kde + Z.to_nat (n + 8 - zlen kde))%nat
      by (unfold n, zlen in *; destruct (Z.of_nat (length kde) mod 8 =? 0); lia).
    rewrite replicate_add. apply blit_head. unfold zlen. by rewrite length_replicate. }
  destruct (Z.eqb_spec (zlen kde mod 8) 0) as [E0|E0]; cbn [negb].
  - exists [], (kde ++ replicate (Z.to_nat (n + 8 - zlen kde)) 0). split; [done|].
    replace (Z.to_nat (n + 8 - zlen kde)) with 8%nat by (unfold n; lia). rewrite app_nil_r. cbn [Z.eqb negb].
    split; [done|]. split; [unfold n; lia|]. split; [unfold n; rewrite Z.add_0_r; done|]. done.
  - set (p := 8 - zlen kde mod 8) in *. exists (0xdd :: replicate (Z.to_nat (p - 1)) 0), (kde ++ replicate (Z.to_nat (n + 8 - zlen kde)) 0).
    split; [done|]. replace (negb (p =? 0)) with true by lia.
    replace (Z.to_nat (n + 8 - zlen kde)) with (S (Z.to_nat (p - 1) + 8))%nat by (unfold n; lia).
    split; [|split; [|split; [|split; [|split]]]].
    + cbn [replicate]. rewrite replicate_add. rewrite wr_ok by (autorewrite with arr; unfold zlen; rewrite ?length_replicate; lia).
      f_equal. replace (Z.to_nat (zlen kde)) with (length kde + 0)%nat by (unfold zlen; lia). rewrite insert_app_r.
      cbn [insert list_insert]. by rewrite <- app_assoc.
    + autorewrite with arr. rewrite length_repl by lia. unfold n. lia.
    + unfold n, p. replace (zlen kde + (8 - zlen kde mod 8)) with (8 * (1 + zlen kde / 8)) by (pose proof (Z.div_mod (zlen kde) 8); lia).
      rewrite Z.mul_comm. apply Z_mod_mult.
    + apply Forall_app_2; [done|]. apply Forall_cons_2; [done|apply repl_Z].
    + autorewrite with arr. rewrite length_repl by lia. lia.
    + cbn [length]. rewrite length_replicate. assert (exists m, p - 1 = m /\ (m = 0 \/ m = 1 \/ m = 2 \/ m = 3 \/ m = 4 \/ m = 5 \/ m = 6)) as (m & -> & Hm)
        by (eexists; split; [reflexivity|lia]).
      repeat (destruct Hm as [->|Hm]; [done|]); by subst.
Qed.
Lemma aes_wrap_prefix key n plain rest cipher : zlen plain = 8 * n ->
  aes_wrap key n (plain ++ rest) cipher = aes_wrap key n plain cipher.
Proof.
  intros Hp. unfold aes_wrap. destruct (blit cipher 0 (replicate 8 0xa6)) as [c|]; [|done]. rewrite !bind_ok.
  by rewrite get_head, get_whole by done.
Qed.

(** replacing the data and its length at the end of the frame *)
Lemma put_data k d n : sized 16 k ->
  exists head, take 99 (frame_of k) = head /\ drop 99 (frame_of k) = k_data k /\
    WPA_PUT_BE16 (head ++ d) (o_key_data_length 16) n = Ok (frame_of (with_data n d k)).
Proof.
  intros H. destruct (frame_split 16 k H) as (head & E & Hl & Hput). exists head. rewrite E.
  assert (length head = 99%nat) as Lh by (unfold zlen, HDR, keyhdrlen in Hl; lia).
  split; [by apply take_app_length'|]. split; [by apply drop_app_length'|]. apply Hput.
Qed.

Lemma blit_iv k i : sized 16 k -> zlen i = 16 -> blit (frame_of k) o_key_iv i = Ok (frame_of (with_iv i k)).
Proof.
  intros H Hm. unfold frame_of. rewrite (blit_field (fields_of k) 8); [done|cbn; lia|sized_side H|destruct H; cbn; lia].
Qed.

(** the keys that the sender needs for encrypted key data *)
Definition can_encrypt (s : key_sender) (version : Z) (Counter : list Z) : Prop :=
  if wraps s version then
    exists ce cd, aes_encrypt_init (kek (ks_PTK s)) = Some ce /\ aes_decrypt_init (kek (ks_PTK s)) = Some cd
  else zlen (kek (ks_PTK s)) = 16 /\ zlen Counter = 32 /\ bytes Counter.

(** without the means to decrypt *)
Definition can_wrap (s : key_sender) (version : Z) (Counter : list Z) : Prop :=
  if wraps s version then exists ce, aes_encrypt_init (kek (ks_PTK s)) = Some ce
  else zlen (kek (ks_PTK s)) = 16 /\ zlen Counter = 32 /\ bytes Counter.

Lemma can_encrypt_wrap s version Counter : can_encrypt s version Counter -> can_wrap s version Counter.
Proof. unfold can_encrypt, can_wrap. destruct (wraps s version); [|done]. intros (ce & _ & H & _). by exists ce. Qed.

Context {BCL : BlockCipherLaws ctx}.

Lemma send_encrypted_spec alloc s version kde n Counter k :
  wpa_mic_len (ks_key_mgmt s) = 16 -> sized 16 k -> bytes kde -> 6 * zlen kde < 2 ^ 31 - 96 ->
  n = (if wraps s version then zlen kde + pad_len (zlen kde) + 8 else zlen kde) -> k_data k = replicate (Z.to_nat n) 0 ->
  alloc n = true -> can_wrap s version Counter ->
  exists iv d Counter', send_encrypted alloc s version kde n Counter (frame_of k) =
      Ok (Some (frame_of (with_data n d (with_iv iv k))), Counter') /\
    zlen d = n /\ bytes d /\ zlen iv = 16 /\ (iv = k_iv k \/ bytes iv) /\
    (can_encrypt s version Counter -> opens s version true iv d kde) /\ (Counter' = Counter \/ zlen Counter' = 32 /\ bytes Counter').
Proof.
  intros Hml Hk Hb Hbound -> Hdata Halloc Hkeys. pose proof (zlen_nonneg kde) as H0.
  unfold send_encrypted, can_wrap, can_encrypt, opens in *. rewrite Hml, Halloc. cbn [negb].
  change (Z.to_nat (HDR + keyhdrlen 16)) with 99%nat. destruct (wraps s version) eqn:Hw.
  - destruct Hkeys as (ce & Hce). cbn [andb].
    destruct (pad_spec kde Hb) as (pad & buf & -> & Epad & Hl & Hm & Hpb & Hpl & Hpe). rewrite bind_ok, Epad, bind_ok. clear Epad.
    set (plain := kde ++ pad) in *. replace ((zlen kde + pad_len (zlen kde) + 8 - 8) / 8) with (zlen plain / 8) by (rewrite Hl; f_equal; lia).
    assert (zlen plain = 8 * (zlen plain / 8)) as H8 by (pose proof (Z.div_mod (zlen plain) 8); rewrite Hl in *; lia).
    assert (pad_len (zlen kde) <= 8) as Hp8 by (unfold pad_len; pose proof (Z.mod_pos_bound (zlen kde) 8); destruct (zlen kde mod 8 =? 0); lia).
    assert (0 <= zlen plain / 8) as Hd0 by (apply Z.div_pos; [apply zlen_nonneg|lia]).
    destruct (put_data k [] 0 Hk) as (_ & _ & -> & _). rewrite Hdata.
    destruct (wrap_then_unwrap (kek (ks_PTK s)) ce (zlen plain / 8) plain (replicate (Z.to_nat (zlen kde + pad_len (zlen kde) + 8)) 0))
      as (c & E & Hcl & Hcb & Eu); [done|done|lia|done|done|rewrite length_repl by lia; lia|].
    rewrite aes_wrap_prefix, E, bind_ok by done. cbn [Z.eqb negb].
    destruct (put_data k c (zlen kde + pad_len (zlen kde) + 8) Hk) as (head & -> & _ & ->). rewrite bind_ok.
    exists (k_iv k), c, Counter. split; [by destruct k|]. split; [lia|]. split; [done|]. split; [apply Hk|]. split; [by left|].
    split; [|by left]. intros (ce' & cd & _ & Hcd). cbn [negb]. exists pad. replace (zlen c / 8 - 1) with (zlen plain / 8) by (rewrite Hcl, Z.mul_comm, Z.div_mul by lia; lia).
    replace (zlen c - 8) with (zlen plain) by lia. split; [|done]. apply (Eu cd); [done|rewrite length_repl; [lia|apply zlen_nonneg]].
  - destruct Hkeys as (Hkek & HC & HCb). cbn [andb].
    rewrite blit_whole by (rewrite length_repl; lia). rewrite !bind_ok. rewrite Hkek. change (16 =? 16) with true. cbv iota.
    set (iv := drop 16 Counter).
    assert (zlen (take 16 Counter) = 16 /\ zlen iv = 16) as [HC1 HC2] by (unfold zlen, iv in *; rewrite length_take, length_drop; lia).
    assert (get Counter (32 - 16) 16 = Ok iv) as -> by (rewrite <- (take_drop 16 Counter); apply get_last; unfold iv in *; lia).
    rewrite bind_ok, blit_iv, bind_ok by done.
    destruct (inc_loop_spec Counter [] HCb) as (C' & EC & HbC & HlC & _). rewrite !app_nil_r in EC.
    unfold inc_byte_array. replace (Z.to_nat 32) with (length Counter) by (unfold zlen in HC; lia). rewrite EC, bind_ok.
    assert (sized 16 (with_iv iv k)) as Hk' by (destruct Hk; by split).
    destruct (frame_split 16 _ Hk') as (head & Ef & Hhl & Hput). rewrite Ef. change (k_data (with_iv iv k)) with (k_data k).
    assert (length head = 99%nat) as Lh by (unfold zlen, HDR, keyhdrlen in Hhl; lia).
    rewrite blit_last, bind_ok by (first [done|rewrite Hdata, length_repl by lia; done]).
    rewrite drop_app_length', take_app_length' by lia.
    destruct (rc4_skip_spec (iv ++ kek (ks_PTK s)) 32 256 (length kde)) as (ks & Lks & Hksb & E); [autorewrite with arr; lia|].
    assert (length (xors kde ks) = length kde) as Lx by (rewrite length_xors; lia).
    unfold zlen at 1. rewrite E, bind_ok by lia. rewrite take_ge, drop_ge, app_nil_r by lia. rewrite Hput, bind_ok.
    exists iv, (xors kde ks), C'. split; [done|]. split; [unfold zlen; lia|]. split; [by apply xors_bytes|]. split; [done|].
    split; [right; by apply Forall_drop|]. split; [|right; split; [unfold zlen in *; lia|done]]. intros _. cbn [negb]. unfold zlen. rewrite Lx, E by lia.
    rewrite take_ge, drop_ge, app_nil_r by lia. by rewrite xors_involutive by lia.
Qed.
(** the MIC function of [version] works with the station's KCK *)
Definition can_sign (s : key_sender) (version : Z) : Prop :=
  forall f, bytes f -> exists m, wpa_eapol_key_mic (kck (ks_PTK s)) version f = Ok (Some m) /\ zlen m = 16.

Definition optional_bytes (o : option (list Z)) : Prop := match o with Some l => bytes l | None => True end.

Lemma version_bits s key_info version keyidx encr :
  0 <= key_info -> 0 <= version < 8 -> 0 <= keyidx -> Z.land key_info 7 = 0 ->
  Z.land (u16 (send_key_info s key_info version keyidx encr)) WPA_KEY_INFO_TYPE_MASK = version.
Proof.
  intros Hk Hv Hi H7. unfold u16, WPA_KEY_INFO_TYPE_MASK.
  assert (forall x, Z.land (x mod 2 ^ 16) 7 = Z.land x 7) as ->.
  { intros x. rewrite <- Z.land_ones, <- Z.land_assoc by lia. done. }
  assert (Z.land version 7 = version) as Hv7 by (change 7 with (Z.ones 3); rewrite Z.land_ones by lia; by apply Z.mod_small).
  unfold send_key_info. assert (Z.land (Z.lor key_info version) 7 = version) as H1 by (by rewrite Z.land_lor_distr_l, H7, Hv7).
  assert (forall e : bool, Z.land (if e then Z.lor (Z.lor key_info version) WPA_KEY_INFO_ENCR_KEY_DATA else Z.lor key_info version) 7 = version) as H2.
  { intros [|]; [|done]. by rewrite Z.land_lor_distr_l, H1, Z.lor_0_r. }
  destruct (ks_wpa s =? WPA_VERSION_WPA2); cbn [negb]; [apply H2|].
  rewrite Z.land_lor_distr_l, H2. unfold WPA_KEY_INFO_KEY_INDEX_SHIFT.
  assert (Z.land (Z.shiftl keyidx 4) 7 = 0) as ->; [|apply Z.lor_0_r].
  change 7 with (Z.ones 3). rewrite Z.land_ones, Z.shiftl_mul_pow2 by lia. change (2 ^ 4) with (2 * 2 ^ 3).
  by rewrite Z.mul_assoc, Z_mod_mult.
Qed.

(** *** From the sender's fields to the frame *)

Section Compose.
Context (alloc : Z -> bool) (s : key_sender) (counter Counter : list Z) (key_info : Z).
Context (key_rsc nonce : option (list Z)) (kde : list Z) (keyidx : Z) (encr : bool).
Local Abbreviation version := (send_version s 0).
Context (Halloc : forall n, alloc n = true) (Hml : wpa_mic_len (ks_key_mgmt s) = 16).
Context (Hc : zlen counter = 8) (Hcb : bytes counter) (Hn : optional_size 32 nonce) (Hnb : optional_bytes nonce).
Context (Hr : optional_size 8 key_rsc) (Hrb : optional_bytes key_rsc).
Context (Hk : bytes kde) (Hlen : 6 * zlen kde < 2 ^ 31 - 96) (Hkeys : encr = true -> can_wrap s version Counter).

(** the frame before the MIC is computed *)
Lemma unsigned_frame (Hev : is_byte (ks_eapol_version s)) :
  exists iv d Counter',
    let k := with_data (zlen d) d (with_iv iv (header_fields s key_info version keyidx encr counter nonce key_rsc 16 d)) in
    eapol_key_frame alloc s counter Counter key_info key_rsc nonce (Some kde) keyidx encr 0 =
      (if any_of (send_key_info s key_info version keyidx encr) WPA_KEY_INFO_MIC then
         if negb (ks_PTK_valid s) then Ok (None, Counter')
         else
           m ← wpa_eapol_key_mic (kck (ks_PTK s)) version (frame_of k);
           match m with
           | None => Ok (Some (frame_of k), Counter')
           | Some m => f ← blit (frame_of k) o_key_mic m; Ok (Some f, Counter')
           end
       else Ok (Some (frame_of k), Counter')) /\
    sized 16 k /\ bytes (frame_of k) /\ ((encr = true -> can_encrypt s version Counter) -> opens s version encr iv d kde) /\
    zlen d <= zlen kde + 16 /\ (Counter' = Counter \/ zlen Counter' = 32 /\ bytes Counter').
Proof.
  pose proof (zlen_nonneg kde) as H0.
  assert (pad_len (zlen kde) <= 8 /\ 0 <= pad_len (zlen kde)) as [Hp8 Hp0]
    by (unfold pad_len; pose proof (Z.mod_pos_bound (zlen kde) 8); destruct (zlen kde mod 8 =? 0); lia).
  set (n := if wraps s version && encr then zlen kde + pad_len (zlen kde) + 8 else zlen kde).
  assert (zlen kde <= n <= zlen kde + 16) as Hnb2 by (unfold n; destruct (wraps s version && encr); lia).
  set (h := header_fields s key_info version keyidx encr counter nonce key_rsc 16 (replicate (Z.to_nat n) 0)).
  assert (sized 16 h) as Hh by (apply header_sized; [lia|done|done|done]).
  assert (forall iv d k, sized 16 k -> zlen iv = 16 -> sized 16 (with_data (zlen d) d (with_iv iv k))) as Hsz
    by (intros iv d k [] ?; by split).
  assert (forall iv d, zlen iv = 16 -> bytes iv -> bytes d ->
    bytes (frame_of (with_data (zlen d) d (with_iv iv (header_fields s key_info version keyidx encr counter nonce key_rsc 16 d))))) as Hbytes.
  { intros iv d Hi Hib Hd. unfold frame_of. apply Forall_concat.
    cbn [fields_of with_data with_iv header_fields k_version k_length k_type k_info k_keylen k_counter k_nonce k_iv k_rsc k_mic k_datalen k_data].
    repeat apply Forall_cons_2; try done; try apply be16_block; try (by apply Forall_replicate); try (apply Z.mod_pos_bound; lia).
    - cbn. by destruct (ks_wpa s =? WPA_VERSION_WPA2).
    - destruct nonce; [done|]. by apply (bool_decide_unpack _).
    - destruct key_rsc; [done|]. by apply (bool_decide_unpack _). }
  unfold eapol_key_frame. rewrite Hml, !Halloc. cbn [negb]. fold n.
  replace (Z.to_nat (HDR + keyhdrlen 16 + n)) with (Z.to_nat (HDR + keyhdrlen 16 + Z.of_nat (Z.to_nat n))) by (f_equal; lia).
  rewrite (send_header_spec s key_info version keyidx encr counter nonce key_rsc 16 (Z.to_nat n)) by (first [done|lia]).
  rewrite bind_ok. fold h. assert (k_data h = replicate (Z.to_nat n) 0) as Hd by done.
  destruct encr; cbn [negb].
  - specialize (Hkeys eq_refl).
    assert (n = if wraps s version then zlen kde + pad_len (zlen kde) + 8 else zlen kde) as En by (unfold n; by rewrite andb_true_r).
    destruct (send_encrypted_spec alloc s version kde n Counter h) as (iv & d & C' & -> & Hdl & Hdb & Hivl & Hivb & Hopen & HC'); try done.
    rewrite bind_ok. exists iv, d, C'. assert (bytes iv) as Hib by (destruct Hivb as [->|]; [by apply Forall_replicate|done]).
    assert (with_data n d (with_iv iv h) =
      with_data (zlen d) d (with_iv iv (header_fields s key_info version keyidx true counter nonce key_rsc 16 d))) as ->.
    { unfold h, header_fields, with_data, with_iv. cbn [k_version k_length k_type k_info k_keylen k_counter k_nonce k_iv k_rsc k_mic].
      rewrite Hdl. do 2 f_equal. f_equal. f_equal. rewrite length_repl by lia. done. }
    split; [done|]. split; [|split; [by apply Hbytes|split; [intros Hce; by apply Hopen, Hce|split; [lia|done]]]].
    apply Hsz; [apply header_sized; [lia|done..]|done].
  - assert (n = zlen kde) as En by (unfold n; by rewrite andb_false_r).
    destruct (frame_split 16 h Hh) as (head & -> & Hhl & Hput). rewrite Hd.
    rewrite blit_last by (rewrite ?Hhl, ?length_repl by lia; done). rewrite bind_ok, Hput, !bind_ok.
    exists (replicate 16 0), kde, Counter.
    assert (with_data (zlen kde) kde h = with_data (zlen kde) kde (with_iv (replicate 16 0)
      (header_fields s key_info version keyidx false counter nonce key_rsc 16 kde))) as ->.
    { unfold h, header_fields, with_data, with_iv. cbn [k_version k_length k_type k_info k_keylen k_counter k_nonce k_iv k_rsc k_mic].
      by rewrite length_repl, En by lia. }
    split; [done|]. split; [|split; [apply Hbytes; [done|by apply Forall_replicate|done]|split; [done|split; [lia|by left]]]].
    apply Hsz; [apply header_sized; [lia|done..]|done].
Qed.
End Compose.
(** ** Properties *)

(** C26: every EAPOL-Key frame the authenticator builds with a MIC and a valid
    PTK passes the MIC check of a peer with the same PTK, which leaves it
    unchanged; it carries the replay counter and the length of the key data at
    their places, and the holder of the KEK gets the key data back, through AES
    key unwrap (with padding) or RC4; without a valid PTK nothing is sent. *)
Theorem eapol_key_roundtrip (alloc : Z -> bool) (s : key_sender) (counter Counter : list Z) (key_info : Z)
    (key_rsc nonce : option (list Z)) (kde : list Z) (keyidx : Z) (encr : bool) :
  (forall n, alloc n = true) -> wpa_mic_len (ks_key_mgmt s) = 16 -> is_byte (ks_eapol_version s) ->
  zlen counter = 8 -> bytes counter -> optional_size 32 nonce -> optional_bytes nonce ->
  optional_size 8 key_rsc -> optional_bytes key_rsc -> bytes kde -> zlen kde < 2 ^ 16 - 16 ->
  any_of key_info WPA_KEY_INFO_MIC = true -> 0 <= key_info -> Z.land key_info 7 = 0 -> 0 <= keyidx ->
  let version := send_version s 0 in
  (encr = true -> can_encrypt s version Counter) -> can_sign s version ->
  if ks_PTK_valid s then
    exists f Counter' iv d,
      eapol_key_frame alloc s counter Counter key_info key_rsc nonce (Some kde) keyidx encr 0 = Ok (Some f, Counter') /\
      wpa_verify_key_mic (ks_key_mgmt s) (ks_PTK s) f = Ok (0, f) /\
      get f o_replay_counter 8 = Ok counter /\
      WPA_GET_BE16 f (o_key_data_length 16) = Ok (zlen d) /\ drop 99 f = d /\ get f o_key_iv 16 = Ok iv /\
      opens s version encr iv d kde
  else
    exists Counter', eapol_key_frame alloc s counter Counter key_info key_rsc nonce (Some kde) keyidx encr 0 = Ok (None, Counter').
Proof.
  intros Halloc Hml Hev Hc Hcb Hn Hnb Hr Hrb Hk Hlen Hmic Hki H7 Hidx version Henc Hsign.
  destruct (unsigned_frame alloc s counter Counter key_info key_rsc nonce kde keyidx encr) as (iv & d & C' & Ef & Hsz & Hfb & Hopen & Hdl & _);
    [done..|lia|intros; by apply can_encrypt_wrap, Henc|done|]. rewrite (send_key_info_any _ _ _ _ _ _ Hmic) in Ef. specialize (Hopen Henc).
  destruct (ks_PTK_valid s); [|by exists C']. cbn [negb] in Ef.
  set (k := with_data (zlen d) d (with_iv iv _)) in *. destruct (Hsign (frame_of k) Hfb) as (m & Em & Hm).
  fold version in Ef. rewrite Em, bind_ok, (blit_mic 16), bind_ok in Ef by done.
  assert (sized 16 (with_mic m k)) as Hsz' by (by apply with_mic_sized).
  exists (frame_of (with_mic m k)), C', iv, d. split; [done|]. split; [|split; [|split; [|split; [|split; [|done]]]]].
  - rewrite (verify_frame _ _ _ m); [by rewrite bool_decide_eq_true_2|done|done| |done].
    assert (0 <= version < 8) as Hv.
    { unfold version, send_version. cbn [Z.eqb negb]. repeat case_match; done. }
    change (k_info (with_mic m k)) with (send_key_info s key_info version keyidx encr).
    rewrite version_bits by done. assert (with_mic (replicate 16 0) (with_mic m k) = k) as ->; [|done].
    unfold k. done.
  - by rewrite (get_counter 16).
  - unfold frame_of. rewrite (get_be16_field _ 12 _ (zlen d)); [|cbn; lia|sized_side Hsz'|done].
    f_equal. unfold u16. apply Z.mod_small. pose proof (zlen_nonneg d). lia.
  - destruct (put_data (with_mic m k) [] 0 Hsz') as (_ & _ & -> & _). done.
  - unfold frame_of. rewrite (get_field (fields_of (with_mic m k)) 8); [done|cbn; lia|sized_side Hsz'|]. by destruct Hsz'.
Qed.
End Sent.

(** toy digests, for a concrete instance *)
#[export] Instance toy_digests : Digests := {
  hmac_md5 k d := Some (to_be 16 (fold_left (fun v b => v * 31 + b) (k ++ d) 7));
  hmac_sha1 k d := Some (to_be 20 (fold_left (fun v b => v * 37 + b) (k ++ d) 11));
  hmac_sha256 k d := Some (to_be 32 (fold_left (fun v b => v * 41 + b) (k ++ d) 13)) }.

#[export] Instance toy_digests_laws : DigestsLaws.
Proof. split; intros k d m E; injection E as <-; (split; [unfold zlen; by rewrite length_to_be|apply to_be_bytes]). Qed.

#[export] Instance toy_md5 : Md5 := { md5_vector d := Some (to_be 16 (fold_left (fun v b => v * 41 + b) d 7)) }.
#[export] Instance toy_md5_laws : Md5Laws.
Proof. split; intros d h E; injection E as <-; (split; [unfold zlen; by rewrite length_to_be|apply to_be_bytes]). Qed.

Definition sample_sender : key_sender :=
  mkSender WPA_VERSION_WPA2 WPA_KEY_MGMT_PSK WPA_CIPHER_CCMP (mkPtk (seqZ 0 16) (seqZ 16 16) (seqZ 32 16)) true 2 WPA_CIPHER_CCMP.

Lemma eapol_key_roundtrip_witness :
  exists f C' iv d,
    eapol_key_frame (ctx := Z) (fun _ => true) sample_sender (to_be 8 5) (replicate 32 1)
      (WPA_KEY_INFO_MIC + WPA_KEY_INFO_ACK + WPA_KEY_INFO_INSTALL + WPA_KEY_INFO_KEY_TYPE)
      (Some (replicate 8 0)) (Some (seqZ 0 32)) (Some (seqZ 48 22)) 1 true 0 = Ok (Some f, C') /\
    wpa_verify_key_mic (ctx := Z) WPA_KEY_MGMT_PSK (ks_PTK sample_sender) f = Ok (0, f) /\
    opens (ctx := Z) sample_sender 2 true iv d (seqZ 48 22).
Proof.
  destruct (eapol_key_roundtrip (ctx := Z) (fun _ => true) sample_sender (to_be 8 5) (replicate 32 1)
      (WPA_KEY_INFO_MIC + WPA_KEY_INFO_ACK + WPA_KEY_INFO_INSTALL + WPA_KEY_INFO_KEY_TYPE)
      (Some (replicate 8 0)) (Some (seqZ 0 32)) (seqZ 48 22) 1 true) as (f & C' & iv & d & E & Ev & _ & _ & _ & _ & Ho);
    [done|done|by apply (bool_decide_unpack _)|done|apply to_be_bytes|done|by apply (bool_decide_unpack _); vm_compute|done|
     by apply (bool_decide_unpack _); vm_compute|by apply (bool_decide_unpack _); vm_compute|done|done|done|done|done| | |].
  - intros _. exists 16, 16. done.
  - intros g _. eexists. split; [done|]. apply to_be_block.
  - exists f, C', iv, d. split; [exact E|]. split; [exact Ev|exact Ho].
Defined.
