(* ===== verification/EapCommon.v ===== *)
(** * EAP packets (src/hostapd-2.5/src/utils/wpabuf.c, wpabuf.h, eap_common/eap_common.c, eap_defs.h)

    The growing buffer every message is built in, the EAP header's checks and
    its allocation, and the TLVs of the re-authentication protocol.  A [wpabuf]
    is the size it was allocated with and the bytes put in it so far; putting
    more than fits aborts the program and is an error here.  An allocation takes
    whether it succeeds. *)

From S2P Require Import Prelude AesCtr EapolKey.

(** ** wpabuf *)

Record wpabuf := mkBuf { wpabuf_size : Z; wpabuf_head : list Z }.

Definition wpabuf_len (b : wpabuf) : Z := zlen (wpabuf_head b).
Definition wpabuf_tailroom (b : wpabuf) : Z := wpabuf_size b - wpabuf_len b.

Definition wpabuf_alloc (ok : bool) (len : Z) : option wpabuf := if ok then Some (mkBuf len []) else None.

(** wpabuf_put, and what the caller writes there; [wpabuf_overflow] aborts *)
Definition wpabuf_put_data (b : wpabuf) (d : list Z) : M wpabuf :=
  if wpabuf_len b + zlen d <=? wpabuf_size b then Ok (mkBuf (wpabuf_size b) (wpabuf_head b ++ d)) else Err OutOfBounds.

Definition wpabuf_put_u8 (b : wpabuf) (v : Z) : M wpabuf := wpabuf_put_data b [u8 v].
Definition wpabuf_put_be16 (b : wpabuf) (v : Z) : M wpabuf := wpabuf_put_data b (to_be 2 v).
Definition wpabuf_put_be24 (b : wpabuf) (v : Z) : M wpabuf := wpabuf_put_data b (to_be 3 v).
Definition wpabuf_put_be32 (b : wpabuf) (v : Z) : M wpabuf := wpabuf_put_data b (to_be 4 v).
Definition wpabuf_put_le16 (b : wpabuf) (v : Z) : M wpabuf := wpabuf_put_data b (to_le 2 v).
Definition wpabuf_put_le32 (b : wpabuf) (v : Z) : M wpabuf := wpabuf_put_data b (to_le 4 v).
Definition wpabuf_put_buf (dst src : wpabuf) : M wpabuf := wpabuf_put_data dst (wpabuf_head src).

Definition wpabuf_alloc_copy (ok : bool) (d : list Z) : M (option wpabuf) :=
  match wpabuf_alloc ok (zlen d) with
  | None => Ok None
  | Some b => b ← wpabuf_put_data b d; Ok (Some b)
  end.
Definition wpabuf_dup (ok : bool) (src : wpabuf) : M (option wpabuf) := wpabuf_alloc_copy ok (wpabuf_head src).

(** the buffer and the return value; a failing realloc leaves the old one *)
Definition wpabuf_resize (ok : bool) (buf : option wpabuf) (add_len : Z) : option wpabuf * Z :=
  match buf with
  | None => match wpabuf_alloc ok add_len with None => (None, -1) | Some b => (Some b, 0) end
  | Some b =>
      if wpabuf_size b <? wpabuf_len b + add_len then
        if ok then (Some (mkBuf (wpabuf_len b + add_len) (wpabuf_head b)), 0) else (Some b, -1)
      else (Some b, 0)
  end.

Definition wpabuf_concat (ok : bool) (a b : option wpabuf) : M (option wpabuf) :=
  match b with
  | None => Ok a
  | Some b =>
      match wpabuf_alloc ok ((if a is Some a then wpabuf_len a else 0) + wpabuf_len b) with
      | None => Ok None
      | Some n =>
          n ← (if a is Some a then wpabuf_put_buf n a else Ok n);
          n ← wpabuf_put_buf n b;
          Ok (Some n)
      end
  end.

Definition wpabuf_zeropad (ok : bool) (buf : option wpabuf) (len : Z) : M (option wpabuf) :=
  match buf with
  | None => Ok None
  | Some b =>
      if len <=? wpabuf_len b then Ok (Some b)
      else match wpabuf_alloc ok len with
           | None => Ok None
           | Some ret =>
               ret ← wpabuf_put_data ret (replicate (Z.to_nat (len - wpabuf_len b)) 0);
               ret ← wpabuf_put_buf ret b;
               Ok (Some ret)
           end
  end.

(** ** eap_defs.h *)

Definition EAP_CODE_REQUEST : Z := 1.
Definition EAP_CODE_RESPONSE : Z := 2.
Definition EAP_CODE_SUCCESS : Z := 3.
Definition EAP_CODE_FAILURE : Z := 4.
Definition EAP_CODE_INITIATE : Z := 5.
Definition EAP_CODE_FINISH : Z := 6.

Definition EAP_TYPE_NONE : Z := 0.
Definition EAP_TYPE_IDENTITY : Z := 1.
Definition EAP_TYPE_NOTIFICATION : Z := 2.
Definition EAP_TYPE_NAK : Z := 3.
Definition EAP_TYPE_MD5 : Z := 4.
Definition EAP_TYPE_GTC : Z := 6.
Definition EAP_TYPE_EXPANDED : Z := 254.
Definition EAP_VENDOR_IETF : Z := 0.

Definition EAP_ERP_TYPE_REAUTH_START : Z := 1.
Definition EAP_ERP_TYPE_REAUTH : Z := 2.
Definition EAP_ERP_TLV_KEYNAME_NAI : Z := 1.
Definition EAP_ERP_TV_RRK_LIFETIME : Z := 2.
Definition EAP_ERP_TV_RMSK_LIFETIME : Z := 3.
Definition EAP_ERP_TLV_DOMAIN_NAME : Z := 4.
Definition EAP_ERP_TLV_CRYPTOSUITES : Z := 5.
Definition EAP_ERP_TLV_AUTHORIZATION_INDICATION : Z := 6.
(** CALLED_STATION_ID, CALLING_STATION_ID, NAS_IDENTIFIER, NAS_IP_ADDRESS, NAS_IPV6_ADDRESS *)
Definition EAP_ERP_STATION_TLVS : list Z := [128; 129; 130; 131; 132].
Definition EAP_ERP_CS_HMAC_SHA256_128 : Z := 2.
Definition EAP_ERP_CS_HMAC_SHA256_256 : Z := 3.

(** ** eap_common.c *)

Definition WPA_GET_BE24 (l : list Z) (i : Z) : M Z :=
  a ← rd l i; b ← rd l (i + 1); c ← rd l (i + 2); Ok (Z.lor (Z.lor (Z.shiftl a 16) (Z.shiftl b 8)) c).

(** the code, the identifier and the length of [struct eap_hdr] *)
Definition eap_hdr_size : Z := 4.
Definition hdr_length (msg : list Z) : M Z := WPA_GET_BE16 msg 2.

Definition eap_hdr_len_valid (msg : option (list Z)) (min_payload : Z) : M bool :=
  match msg with
  | None => Ok false
  | Some msg =>
      if zlen msg <? eap_hdr_size then Ok false
      else len ← hdr_length msg;
           Ok (negb ((len <? eap_hdr_size + min_payload) || (zlen msg <? len)))
  end.

(** the offset of the payload in the message, and its length *)
Definition eap_hdr_validate (vendor eap_type : Z) (msg : option (list Z)) : M (option (Z * Z)) :=
  valid ← eap_hdr_len_valid msg 1;
  match msg with
  | Some msg =>
      if negb valid then Ok None
      else
        len ← hdr_length msg;
        t ← rd msg eap_hdr_size;
        if t =? EAP_TYPE_EXPANDED then
          if len <? eap_hdr_size + 8 then Ok None
          else
            exp_vendor ← WPA_GET_BE24 msg (eap_hdr_size + 1);
            exp_type ← WPA_GET_BE32 msg (eap_hdr_size + 4);
            if negb (exp_vendor =? vendor) || negb (exp_type =? u32 eap_type) then Ok None
            else Ok (Some (eap_hdr_size + 8, len - eap_hdr_size - 8))
        else if negb (vendor =? EAP_VENDOR_IETF) || negb (t =? eap_type) then Ok None
        else Ok (Some (eap_hdr_size + 1, len - eap_hdr_size - 1))
  | None => Ok None
  end.

Definition eap_msg_alloc (ok : bool) (vendor type payload_len code identifier : Z) : M (option wpabuf) :=
  let len := eap_hdr_size + (if vendor =? EAP_VENDOR_IETF then 1 else 8) + payload_len in
  match wpabuf_alloc ok len with
  | None => Ok None
  | Some buf =>
      buf ← wpabuf_put_data buf ([u8 code; u8 identifier] ++ to_be 2 len);
      buf ← (if vendor =? EAP_VENDOR_IETF then wpabuf_put_u8 buf type
             else
               buf ← wpabuf_put_u8 buf EAP_TYPE_EXPANDED;
               buf ← wpabuf_put_be24 buf vendor;
               wpabuf_put_be32 buf type);
      Ok (Some buf)
  end.

Definition eap_update_len (msg : wpabuf) : M wpabuf :=
  if wpabuf_len msg <? eap_hdr_size then Ok msg
  else h ← blit (wpabuf_head msg) 2 (to_be 2 (wpabuf_len msg)); Ok (mkBuf (wpabuf_size msg) h).

Definition eap_get_id (msg : list Z) : Z := if zlen msg <? eap_hdr_size then 0 else nth 1 msg 0.
Definition eap_get_type (msg : list Z) : Z :=
  if zlen msg <? eap_hdr_size + 1 then EAP_TYPE_NONE else nth (Z.to_nat eap_hdr_size) msg 0.

(** *** erp_parse_tlvs: the offsets and lengths of the names, or [None] for -1 *)

Record erp_tlvs := mkTlvs { keyname : option (Z * Z); domain : option (Z * Z) }.

Definition four_octet_tv (t : Z) : bool := (t =? EAP_ERP_TV_RRK_LIFETIME) || (t =? EAP_ERP_TV_RMSK_LIFETIME).
Definition known_tlv (t : Z) : bool :=
  existsb (Z.eqb t) ([EAP_ERP_TLV_DOMAIN_NAME; EAP_ERP_TLV_KEYNAME_NAI; EAP_ERP_TLV_CRYPTOSUITES;
                      EAP_ERP_TLV_AUTHORIZATION_INDICATION] ++ EAP_ERP_STATION_TLVS).

Inductive tlvs_step := TlvsStop (result : option erp_tlvs) | TlvsNext (tlvs : erp_tlvs) (pos : Z).

(** one round of the loop *)
Definition erp_parse_tlv (buf : list Z) (pos end_ : Z) (tlvs : erp_tlvs) (stop_at_keyname : bool) : M tlvs_step :=
  tlv_type ← rd buf pos;
  let pos := pos + 1 in
  if four_octet_tv tlv_type then
    if end_ <? pos + 4 then Ok (TlvsStop None) else Ok (TlvsNext tlvs (pos + 4))
  else if known_tlv tlv_type then
    if end_ <=? pos then Ok (TlvsStop None)
    else
      tlv_len ← rd buf pos;
      let pos := pos + 1 in
      if end_ - pos <? tlv_len then Ok (TlvsStop None)
      else if tlv_type =? EAP_ERP_TLV_KEYNAME_NAI then
        match keyname tlvs with
        | Some _ => Ok (TlvsStop None)
        | None =>
            let tlvs := mkTlvs (Some (pos, tlv_len)) (domain tlvs) in
            if stop_at_keyname then Ok (TlvsStop (Some tlvs)) else Ok (TlvsNext tlvs (pos + tlv_len))
        end
      else if tlv_type =? EAP_ERP_TLV_DOMAIN_NAME then
        Ok (TlvsNext (mkTlvs (keyname tlvs) (Some (pos, tlv_len))) (pos + tlv_len))
      else Ok (TlvsNext tlvs (pos + tlv_len))
  else if (128 <=? tlv_type) && (tlv_type <=? 191) then
    if end_ <=? pos then Ok (TlvsStop None)
    else
      tlv_len ← rd buf pos;
      let pos := pos + 1 in
      if end_ - pos <? tlv_len then Ok (TlvsStop None) else Ok (TlvsNext tlvs (pos + tlv_len))
  else Ok (TlvsNext tlvs end_).

Fixpoint erp_parse_tlvs_loop (fuel : nat) (buf : list Z) (pos end_ : Z) (tlvs : erp_tlvs) (stop_at_keyname : bool)
    : M (option erp_tlvs) :=
  match fuel with
  | O => Err OutOfFuel
  | S fuel =>
      if pos <? end_ then
        step ← erp_parse_tlv buf pos end_ tlvs stop_at_keyname;
        match step with
        | TlvsStop r => Ok r
        | TlvsNext tlvs pos => erp_parse_tlvs_loop fuel buf pos end_ tlvs stop_at_keyname
        end
      else Ok (Some tlvs)
  end.

Definition erp_parse_tlvs (buf : list Z) (pos end_ : Z) (stop_at_keyname : bool) : M (option erp_tlvs) :=
  erp_parse_tlvs_loop (S (Z.to_nat (end_ - pos))) buf pos end_ (mkTlvs None None) stop_at_keyname.

(** ** Words, most significant byte first *)

Lemma lor_bytes a b c d : is_byte a -> is_byte b -> is_byte c -> is_byte d ->
  Z.lor (Z.lor (Z.lor (Z.shiftl a 24) (Z.shiftl b 16)) (Z.shiftl c 8)) d = ((a * 256 + b) * 256 + c) * 256 + d.
Proof.
  unfold is_byte. intros. rewrite !Z.shiftl_mul_pow2 by lia. rewrite (lor_disjoint a) by lia.
  replace (a * 2 ^ 24 + b * 2 ^ 16) with ((a * 256 + b) * 2 ^ 16) by lia. rewrite lor_disjoint by lia.
  replace ((a * 256 + b) * 2 ^ 16 + c * 2 ^ 8) with (((a * 256 + b) * 256 + c) * 2 ^ 8) by lia. rewrite lor_disjoint; lia.
Qed.

Lemma lor_bytes_3 a b c : is_byte a -> is_byte b -> is_byte c ->
  Z.lor (Z.lor (Z.shiftl a 16) (Z.shiftl b 8)) c = (a * 256 + b) * 256 + c.
Proof. intros. pose proof (lor_bytes 0 a b c) as H3. rewrite Z.shiftl_0_l, Z.lor_0_l in H3. rewrite H3; unfold is_byte in *; lia. Qed.

Lemma lor_bytes_2 a b : is_byte a -> is_byte b -> Z.lor (Z.shiftl a 8) b = a * 256 + b.
Proof. intros. pose proof (lor_bytes_3 0 a b) as H2. rewrite Z.shiftl_0_l, Z.lor_0_l in H2. rewrite H2; unfold is_byte in *; lia. Qed.

Lemma mod_byte x : is_byte (x mod 256).
Proof. apply Z.mod_pos_bound. lia. Qed.

Lemma rd_2 (a b c : Z) l : rd (a :: b :: c :: l) 2 = Ok c. Proof. done. Qed.
Lemma rd_3 (a b c d : Z) l : rd (a :: b :: c :: d :: l) 3 = Ok d. Proof. done. Qed.

Lemma get_be16_at l v r : 0 <= v < 2 ^ 16 -> WPA_GET_BE16 (l ++ to_be 2 v ++ r) (zlen l) = Ok v.
Proof.
  intros Hv. unfold WPA_GET_BE16. rewrite (rd_app_r l _ (zlen l)), (rd_app_r l _ (zlen l + 1)) by lia.
  rewrite Z.sub_diag, !Z.add_simpl_l. cbn [to_be to_le rev app].
  rewrite rd_0, bind_ok, rd_1, bind_ok, lor_bytes_2 by apply mod_byte. f_equal. lia.
Qed.

Lemma get_be24_at l v r : 0 <= v < 2 ^ 24 -> WPA_GET_BE24 (l ++ to_be 3 v ++ r) (zlen l) = Ok v.
Proof.
  intros Hv. unfold WPA_GET_BE24.
  rewrite (rd_app_r l _ (zlen l)), (rd_app_r l _ (zlen l + 1)), (rd_app_r l _ (zlen l + 2)) by lia.
  rewrite Z.sub_diag, !Z.add_simpl_l. cbn [to_be to_le rev app].
  rewrite rd_0, bind_ok, rd_1, bind_ok, rd_2, bind_ok, lor_bytes_3 by apply mod_byte. f_equal. lia.
Qed.

Lemma get_be32_at l v r : 0 <= v < 2 ^ 32 -> WPA_GET_BE32 (l ++ to_be 4 v ++ r) (zlen l) = Ok v.
Proof.
  intros Hv. unfold WPA_GET_BE32.
  rewrite (rd_app_r l _ (zlen l)), (rd_app_r l _ (zlen l + 1)), (rd_app_r l _ (zlen l + 2)), (rd_app_r l _ (zlen l + 3)) by lia.
  rewrite Z.sub_diag, !Z.add_simpl_l. cbn [to_be to_le rev app].
  rewrite rd_0, bind_ok, rd_1, bind_ok, rd_2, bind_ok, rd_3, bind_ok, lor_bytes by apply mod_byte. f_equal. lia.
Qed.

Lemma get_be16_ok l i : bytes l -> 0 <= i -> i + 2 <= zlen l -> exists v, WPA_GET_BE16 l i = Ok v /\ 0 <= v < 2 ^ 16.
Proof.
  intros Hl H0 H1. unfold WPA_GET_BE16. destruct (rd_in_range l i) as [a Ea]; [lia|].
  destruct (rd_in_range l (i + 1)) as [b Eb]; [lia|]. rewrite Ea, Eb, !bind_ok.
  pose proof (bytes_rd l _ _ Hl Ea) as Ha. pose proof (bytes_rd l _ _ Hl Eb) as Hb.
  eexists; split; [done|]. rewrite lor_bytes_2 by done. unfold is_byte in *. lia.
Qed.

Lemma get_be24_ok l i : 0 <= i -> i + 3 <= zlen l -> exists v, WPA_GET_BE24 l i = Ok v.
Proof.
  intros H0 H1. unfold WPA_GET_BE24. destruct (rd_in_range l i) as [a ->]; [lia|].
  destruct (rd_in_range l (i + 1)) as [b ->]; [lia|]. destruct (rd_in_range l (i + 2)) as [c ->]; [lia|]. by eexists.
Qed.

(** ** The header *)

(** what the header says fits the message *)
Definition len_valid (msg : list Z) (min_payload : Z) : Prop :=
  exists len, WPA_GET_BE16 msg 2 = Ok len /\ eap_hdr_size + min_payload <= len <= zlen msg.

Lemma eap_hdr_len_valid_ok msg n : bytes msg -> 0 <= n ->
  exists b, eap_hdr_len_valid (Some msg) n = Ok b /\ (b = true <-> len_valid msg n).
Proof.
  intros Hm Hn. unfold eap_hdr_len_valid, hdr_length, eap_hdr_size. destruct (Z.ltb_spec (zlen msg) 4).
  - exists false. split; [done|]. split; [done|]. intros (len & _ & H1 & H2). unfold eap_hdr_size in *. lia.
  - destruct (get_be16_ok msg 2) as (len & E & Hl); [done|lia..|]. rewrite E, bind_ok. eexists; split; [done|].
    unfold len_valid, eap_hdr_size. rewrite E. split.
    + intros [H1 H2]%negb_true_iff%orb_false_iff. exists len. split; [done|]. lia.
    + intros (len' & [= <-] & H1 & H2). lia.
Qed.

(** a payload inside the message *)
Definition payload_in (msg : list Z) (r : option (Z * Z)) : Prop :=
  match r with None => True | Some (off, len) => 5 <= off /\ 0 <= len /\ off + len <= zlen msg end.

Lemma eap_hdr_validate_safe vendor t msg : bytes msg ->
  safe (eap_hdr_validate vendor t (Some msg)) (fun r => payload_in msg r /\ (is_Some r -> len_valid msg 1)).
Proof.
  intros Hm. unfold eap_hdr_validate. destruct (eap_hdr_len_valid_ok msg 1 Hm) as (b & -> & Hb); [lia|]. rewrite bind_ok.
  destruct b; [|by split; [|intros []]]. pose proof (proj1 Hb eq_refl) as Hv. pose proof Hv as (len & E & H1 & H2).
  cbn [negb]. unfold hdr_length. rewrite E, bind_ok. unfold eap_hdr_size in *.
  destruct (rd_in_range msg 4) as [v ->]; [lia|]. rewrite bind_ok. destruct (v =? EAP_TYPE_EXPANDED).
  - change (4 + 1) with 5. change (4 + 4) with 8. destruct (Z.ltb_spec len (4 + 8)); [by split|]. destruct (get_be24_ok msg 5) as [x ->]; [lia..|].
    destruct (get_be32_ok msg 8) as [y ->]; [lia..|]. rewrite !bind_ok. destruct (_ || _); [by split|].
    split; [|done]. cbn. lia.
  - destruct (_ || _); [by split|]. split; [|done]. cbn. lia.
Qed.

(** ** Building a message and reading it back *)

Lemma put_ok_app size d e : zlen d + zlen e <= size -> wpabuf_put_data (mkBuf size d) e = Ok (mkBuf size (d ++ e)).
Proof. intros H. unfold wpabuf_put_data, wpabuf_len. cbn [wpabuf_head wpabuf_size]. by replace (_ <=? _) with true by lia. Qed.

(** the header and the type, as they stand in the message *)
Definition eap_type_bytes (vendor type : Z) : list Z :=
  if vendor =? EAP_VENDOR_IETF then [u8 type] else u8 EAP_TYPE_EXPANDED :: to_be 3 vendor ++ to_be 4 type.
Definition eap_message (vendor type code identifier : Z) (payload : list Z) : list Z :=
  [u8 code; u8 identifier] ++ to_be 2 (eap_hdr_size + zlen (eap_type_bytes vendor type) + zlen payload)
  ++ eap_type_bytes vendor type ++ payload.

Lemma zlen_to_be n v : zlen (to_be n v) = Z.of_nat n.
Proof. unfold to_be, zlen. by rewrite length_rev, length_to_le. Qed.

Lemma zlen_type_bytes vendor type : zlen (eap_type_bytes vendor type) = if vendor =? EAP_VENDOR_IETF then 1 else 8.
Proof. unfold eap_type_bytes. destruct (_ =? _); [done|]. by rewrite zlen_cons, zlen_app, !zlen_to_be. Qed.

Lemma zlen_eap_message vendor type code id payload :
  zlen (eap_message vendor type code id payload) = eap_hdr_size + zlen (eap_type_bytes vendor type) + zlen payload.
Proof. unfold eap_message, eap_hdr_size. rewrite !zlen_app, !zlen_cons, zlen_nil, zlen_to_be. lia. Qed.

Lemma bytes_to_be n v : bytes (to_be n v).
Proof. apply Forall_rev, to_le_bytes. Qed.

Lemma bytes_eap_message vendor type code id payload : bytes payload -> bytes (eap_message vendor type code id payload).
Proof.
  intros Hp. unfold eap_message. apply Forall_app_2; [apply Forall_cons; [apply u8_range|apply Forall_singleton, u8_range]|].
  apply Forall_app_2; [apply bytes_to_be|]. apply Forall_app_2; [|done]. unfold eap_type_bytes.
  destruct (_ =? _); [apply Forall_singleton, u8_range|].
  apply Forall_cons; [apply u8_range|]. apply Forall_app_2; apply bytes_to_be.
Qed.

(** a buffer from [eap_msg_alloc] takes exactly the payload announced *)
Lemma eap_msg_alloc_ok vendor type code id n : 0 <= n ->
  eap_msg_alloc true vendor type n code id =
    Ok (Some (mkBuf (eap_hdr_size + zlen (eap_type_bytes vendor type) + n)
      ([u8 code; u8 id] ++ to_be 2 (eap_hdr_size + zlen (eap_type_bytes vendor type) + n) ++ eap_type_bytes vendor type))).
Proof.
  intros Hn. unfold eap_msg_alloc, wpabuf_alloc. rewrite zlen_type_bytes. unfold eap_type_bytes, eap_hdr_size.
  destruct (vendor =? EAP_VENDOR_IETF).
  - rewrite put_ok_app, bind_ok by (rewrite ?zlen_app, ?zlen_to_be, ?zlen_cons, ?zlen_nil; lia).
    unfold wpabuf_put_u8. rewrite put_ok_app, bind_ok by (rewrite ?zlen_app, ?zlen_to_be, ?zlen_cons, ?zlen_nil; lia). by rewrite <- app_assoc.
  - rewrite put_ok_app, bind_ok by (rewrite ?zlen_app, ?zlen_to_be, ?zlen_cons, ?zlen_nil; lia).
    unfold wpabuf_put_u8, wpabuf_put_be24, wpabuf_put_be32.
    rewrite put_ok_app, bind_ok by (rewrite ?zlen_app, ?zlen_to_be, ?zlen_cons, ?zlen_nil; lia).
    rewrite put_ok_app, bind_ok by (rewrite ?zlen_app, ?zlen_to_be, ?zlen_cons, ?zlen_nil; lia).
    rewrite put_ok_app, bind_ok by (rewrite ?zlen_app, ?zlen_to_be, ?zlen_cons, ?zlen_nil; lia). by rewrite <- !app_assoc.
Qed.

Definition eap_build (ok : bool) (vendor type code id : Z) (payload : list Z) : M (option (list Z)) :=
  buf ← eap_msg_alloc ok vendor type (zlen payload) code id;
  match buf with None => Ok None | Some buf => buf ← wpabuf_put_data buf payload; Ok (Some (wpabuf_head buf)) end.

Lemma eap_build_ok vendor type code id payload :
  eap_build true vendor type code id payload = Ok (Some (eap_message vendor type code id payload)).
Proof.
  unfold eap_build. rewrite eap_msg_alloc_ok by auto. rewrite bind_ok, put_ok_app.
  - rewrite bind_ok. unfold eap_message. cbn [wpabuf_head]. by rewrite <- !app_assoc.
  - rewrite !zlen_app, zlen_to_be, !zlen_cons, zlen_nil. unfold eap_hdr_size. lia.
Qed.

Lemma message_length vendor type code id payload : zlen (eap_message vendor type code id payload) < 2 ^ 16 ->
  WPA_GET_BE16 (eap_message vendor type code id payload) 2 = Ok (zlen (eap_message vendor type code id payload)).
Proof.
  intros H. rewrite zlen_eap_message in *. unfold eap_message. apply (get_be16_at [u8 code; u8 id]).
  pose proof (zlen_nonneg payload). pose proof (zlen_nonneg (eap_type_bytes vendor type)). unfold eap_hdr_size in *. lia.
Qed.

(** the types a message can carry *)
Definition type_fits (vendor type : Z) : Prop :=
  if vendor =? EAP_VENDOR_IETF then 0 <= type < 256 /\ type <> EAP_TYPE_EXPANDED
  else 0 < vendor < 2 ^ 24 /\ 0 <= type < 2 ^ 32.

Definition payload_offset (vendor : Z) : Z := eap_hdr_size + (if vendor =? EAP_VENDOR_IETF then 1 else 8).

Lemma message_valid vendor type code id payload : zlen (eap_message vendor type code id payload) < 2 ^ 16 ->
  eap_hdr_len_valid (Some (eap_message vendor type code id payload)) 1 = Ok true.
Proof.
  intros H. unfold eap_hdr_len_valid, hdr_length. rewrite message_length, bind_ok by done.
  rewrite zlen_eap_message, zlen_type_bytes in *. unfold eap_hdr_size in *. pose proof (zlen_nonneg payload).
  destruct (_ =? _); replace (_ <? 4) with false by lia; f_equal; apply negb_true_iff, orb_false_iff; lia.
Qed.

Lemma rd_at {A} (l : list A) x r i : i = zlen l -> rd (l ++ x :: r) i = Ok x.
Proof. intros ->. rewrite rd_app_r, Z.sub_diag by lia. done. Qed.

Lemma message_validates vendor type code id payload v t :
  type_fits vendor type -> type_fits v t -> zlen (eap_message vendor type code id payload) < 2 ^ 16 ->
  eap_hdr_validate v t (Some (eap_message vendor type code id payload)) =
    Ok (if (vendor =? v) && (type =? t) then Some (payload_offset vendor, zlen payload) else None).
Proof.
  intros Hf Hf' Hz. unfold eap_hdr_validate. rewrite message_valid, bind_ok by done. cbn [negb].
  unfold hdr_length. rewrite message_length, bind_ok by done. rewrite zlen_eap_message, zlen_type_bytes.
  unfold type_fits, payload_offset, eap_hdr_size in *. pose proof (zlen_nonneg payload) as Hp.
  unfold eap_message, eap_type_bytes.
  set (len := to_be 2 _). set (h := [u8 code; u8 id] ++ len).
  assert (zlen h = 4) as Hl by (unfold h, len; by rewrite zlen_app, zlen_to_be).
  rewrite (app_assoc _ len). fold h. unfold EAP_VENDOR_IETF in *. destruct (Z.eqb_spec vendor 0) as [->|Hv].
  - cbn [app]. rewrite (rd_at h), bind_ok by lia. rewrite u8_small by lia.
    replace (type =? EAP_TYPE_EXPANDED) with false by lia. rewrite (Z.eqb_sym v 0).
    replace (4 + 1 + zlen payload - 4 - 1) with (zlen payload) by lia. by destruct (0 =? v), (type =? t).
  - cbn [app]. rewrite (rd_at h), bind_ok by lia. change (u8 EAP_TYPE_EXPANDED) with EAP_TYPE_EXPANDED. rewrite Z.eqb_refl.
    replace (_ <? 4 + 8) with false by lia.
    replace (WPA_GET_BE24 _ _) with (Ok vendor); [|symmetry; rewrite <- get_be24_at with (l := h ++ [EAP_TYPE_EXPANDED])
      (r := to_be 4 type ++ payload) by lia; rewrite zlen_app, Hl; f_equal; by rewrite <- !app_assoc].
    replace (WPA_GET_BE32 _ _) with (Ok type); [|symmetry; rewrite <- get_be32_at with (l := h ++ EAP_TYPE_EXPANDED :: to_be 3 vendor)
      (r := payload) by lia; rewrite zlen_app, zlen_cons, zlen_to_be, Hl; f_equal; by rewrite <- !app_assoc].
    rewrite !bind_ok. replace (4 + 8 + zlen payload - 4 - 8) with (zlen payload) by lia.
    replace (type =? u32 t) with (type =? t); [by destruct (vendor =? v), (type =? t)|].
    rewrite u32_small; [done|]. destruct (v =? 0); lia.
Qed.

Lemma message_payload vendor type code id payload :
  get (eap_message vendor type code id payload) (payload_offset vendor) (zlen payload) = Ok payload.
Proof.
  unfold eap_message. rewrite !app_assoc. apply get_last; [|done].
  rewrite !zlen_app, zlen_to_be, zlen_type_bytes, !zlen_cons, zlen_nil. unfold payload_offset, eap_hdr_size. destruct (_ =? _); lia.
Qed.

(** ** TLVs *)

Definition name_in (lo hi : Z) (r : option (Z * Z)) : Prop :=
  match r with None => True | Some (off, len) => lo <= off /\ 0 <= len < 256 /\ off + len <= hi end.
Definition names_in (lo hi : Z) (t : erp_tlvs) : Prop := name_in lo hi (keyname t) /\ name_in lo hi (domain t).

Definition step_in (lo pos hi : Z) (s : tlvs_step) : Prop :=
  match s with
  | TlvsStop None => True
  | TlvsStop (Some t) => names_in lo hi t
  | TlvsNext t p => pos < p <= hi /\ names_in lo hi t
  end.

Lemma erp_parse_tlv_safe buf lo pos end_ t stop :
  bytes buf -> 0 <= lo <= pos -> pos < end_ <= zlen buf -> names_in lo end_ t ->
  safe (erp_parse_tlv buf pos end_ t stop) (step_in lo pos end_).
Proof.
  intros Hb Hlo Hpos [Hk Hd]. unfold erp_parse_tlv. destruct (rd_in_range buf pos) as [ty ->]; [lia|]. rewrite bind_ok. cbv zeta.
  destruct (four_octet_tv ty).
  { destruct (Z.ltb_spec end_ (pos + 1 + 4)); cbn; [done|]. split; [lia|done]. }
  destruct (known_tlv ty).
  - destruct (Z.leb_spec end_ (pos + 1)); [done|]. destruct (rd_in_range buf (pos + 1)) as [l E]; [lia|].
    pose proof (bytes_rd buf _ _ Hb E) as Hl. unfold is_byte in Hl. rewrite E, bind_ok. cbv zeta.
    destruct (Z.ltb_spec (end_ - (pos + 1 + 1)) l); [done|].
    destruct (ty =? EAP_ERP_TLV_KEYNAME_NAI).
    { destruct (keyname t); [done|]. destruct stop; cbn; [split; cbn; [lia|done]|]. split; [lia|]. split; cbn; [lia|done]. }
    destruct (ty =? EAP_ERP_TLV_DOMAIN_NAME); cbn; (split; [lia|]); split; cbn; first [done|lia].
  - destruct (_ && _); [|cbn; split; [lia|done]]. destruct (Z.leb_spec end_ (pos + 1)); [done|].
    destruct (rd_in_range buf (pos + 1)) as [l E]; [lia|]. pose proof (bytes_rd buf _ _ Hb E) as Hl. unfold is_byte in Hl.
    rewrite E, bind_ok. cbv zeta. destruct (Z.ltb_spec (end_ - (pos + 1 + 1)) l); [done|]. cbn. split; [lia|done].
Qed.

Lemma erp_parse_tlvs_loop_safe fuel buf lo pos end_ t stop :
  bytes buf -> 0 <= lo <= pos -> pos <= end_ <= zlen buf -> end_ - pos < Z.of_nat fuel -> names_in lo end_ t ->
  safe (erp_parse_tlvs_loop fuel buf pos end_ t stop) (fun r => if r is Some t then names_in lo end_ t else True).
Proof.
  intros Hb. revert pos t. induction fuel as [|fuel IH]; intros pos t Hlo Hpos Hf Ht; [lia|]. cbn [erp_parse_tlvs_loop].
  destruct (Z.ltb_spec pos end_); [|done].
  apply (safe_bind (step_in lo pos end_)); [apply erp_parse_tlv_safe; [done|lia|lia|done]|].
  intros [[]|t' p] Hs; [done..|]. destruct Hs as [Hp Ht']. apply IH; [lia|lia|lia|done].
Qed.

Lemma erp_parse_tlvs_safe buf pos end_ stop : bytes buf -> 0 <= pos <= end_ -> end_ <= zlen buf ->
  safe (erp_parse_tlvs buf pos end_ stop) (fun r => if r is Some t then names_in pos end_ t else True).
Proof. intros Hb Hp He. apply erp_parse_tlvs_loop_safe; [done|lia|lia|lia|done]. Qed.

(** the attributes of a message, and their encoding *)
Inductive erp_attr := Tv (type : Z) (value : list Z) | Tlv (type : Z) (value : list Z).

Definition attr_ok (a : erp_attr) : Prop :=
  match a with
  | Tv t v => four_octet_tv t = true /\ zlen v = 4
  | Tlv t v => four_octet_tv t = false /\ (known_tlv t = true \/ 128 <= t <= 191) /\ zlen v < 256
  end.
Definition attr_bytes (a : erp_attr) : list Z := match a with Tv t v => t :: v | Tlv t v => t :: zlen v :: v end.
Definition attrs_bytes (l : list erp_attr) : list Z := concat (map attr_bytes l).

Definition note_attr (pos : Z) (a : erp_attr) (t : erp_tlvs) : erp_tlvs :=
  match a with
  | Tv _ _ => t
  | Tlv ty v =>
      if ty =? EAP_ERP_TLV_KEYNAME_NAI then mkTlvs (Some (pos + 2, zlen v)) (domain t)
      else if ty =? EAP_ERP_TLV_DOMAIN_NAME then mkTlvs (keyname t) (Some (pos + 2, zlen v)) else t
  end.

(** the names a list of attributes carries; a second keyName-NAI is refused *)
Fixpoint names_of (pos : Z) (l : list erp_attr) (t : erp_tlvs) : option erp_tlvs :=
  match l with
  | [] => Some t
  | a :: l =>
      if (if a is Tlv 1 _ then bool_decide (is_Some (keyname t)) else false) then None
      else names_of (pos + zlen (attr_bytes a)) l (note_attr pos a t)
  end.

Lemma tlv_1 {A} ty (v : list Z) (x y : A) : (if Tlv ty v is Tlv 1 _ then x else y) = if ty =? 1 then x else y.
Proof. destruct (Z.eqb_spec ty 1) as [->|]; [done|]. by destruct ty as [|[]|]. Qed.

Lemma erp_parse_attr l a r t end_ : attr_ok a -> zlen l + zlen (attr_bytes a) <= end_ ->
  erp_parse_tlv (l ++ attr_bytes a ++ r) (zlen l) end_ t false =
    Ok (if (if a is Tlv 1 _ then bool_decide (is_Some (keyname t)) else false) then TlvsStop None
        else TlvsNext (note_attr (zlen l) a t) (zlen l + zlen (attr_bytes a))).
Proof.
  intros Ha He. unfold erp_parse_tlv. destruct a as [ty v|ty v]; cbn [attr_bytes attr_ok] in *.
  - destruct Ha as [Hty Hv]. rewrite zlen_cons in *. cbn [app]. rewrite (rd_at l _ _ (zlen l)), bind_ok, Hty by done. cbv zeta.
    replace (_ <? _) with false by lia. do 2 f_equal. lia.
  - destruct Ha as (Hty & Hk & Hv). rewrite !zlen_cons in He |- *. pose proof (zlen_nonneg v). cbn [app].
    rewrite (rd_at l _ _ (zlen l)), bind_ok, Hty by done. cbv zeta. rewrite (tlv_1 ty v).
    assert (rd (l ++ ty :: zlen v :: v ++ r) (zlen l + 1) = Ok (zlen v)) as Hl
      by (change (l ++ ty :: zlen v :: v ++ r) with (l ++ [ty] ++ zlen v :: v ++ r); rewrite app_assoc; apply rd_at;
          rewrite zlen_app, zlen_cons, zlen_nil; lia).
    replace (zlen l + (1 + (1 + zlen v))) with (zlen l + 1 + 1 + zlen v) by lia.
    destruct (known_tlv ty) eqn:Eb.
    + replace (end_ <=? zlen l + 1) with false by lia. rewrite Hl, bind_ok. cbv zeta. replace (_ <? _) with false by lia.
      unfold note_attr, EAP_ERP_TLV_KEYNAME_NAI. replace (zlen l + 2) with (zlen l + 1 + 1) by lia.
      destruct (ty =? 1); [|by destruct (ty =? EAP_ERP_TLV_DOMAIN_NAME)].
      destruct (keyname t); [by rewrite bool_decide_true by (by eexists)|].
      by rewrite bool_decide_false by (by intros [? ?]).
    + destruct Hk as [|Hk]; [done|]. replace ((128 <=? ty) && (ty <=? 191)) with true by lia.
      replace (end_ <=? zlen l + 1) with false by lia. rewrite Hl, bind_ok. cbv zeta. replace (_ <? _) with false by lia.
      unfold note_attr, EAP_ERP_TLV_KEYNAME_NAI, EAP_ERP_TLV_DOMAIN_NAME.
      replace (ty =? 1) with false by lia. by replace (ty =? 4) with false by lia.
Qed.

Lemma attr_nonempty a : 0 < zlen (attr_bytes a).
Proof. destruct a as [t v|t v]; cbn [attr_bytes]; rewrite ?zlen_cons; pose proof (zlen_nonneg v); lia. Qed.

Lemma erp_parse_tlvs_loop_encoded fuel l attrs r t : Forall attr_ok attrs -> (length (attrs_bytes attrs) < fuel)%nat ->
  erp_parse_tlvs_loop fuel (l ++ attrs_bytes attrs ++ r) (zlen l) (zlen l + zlen (attrs_bytes attrs)) t false =
    Ok (names_of (zlen l) attrs t).
Proof.
  revert fuel l t. induction attrs as [|a attrs IH]; intros [|fuel] l t Ha Hf; try lia.
  - cbn [erp_parse_tlvs_loop]. cbn. rewrite Z.add_0_r. by rewrite Z.ltb_irrefl.
  - apply Forall_cons_1 in Ha as [Ha Hr]. pose proof (attr_nonempty a) as Hpos.
    unfold attrs_bytes in *. cbn [map concat] in *. rewrite length_app in Hf. cbn [erp_parse_tlvs_loop names_of].
    rewrite zlen_app. pose proof (zlen_nonneg (concat (map attr_bytes attrs))). replace (_ <? _) with true by lia.
    rewrite <- app_assoc, erp_parse_attr by (done || lia). rewrite bind_ok.
    set (two := if a is Tlv 1 _ then _ else _). destruct two; [done|].
    specialize (IH fuel (l ++ attr_bytes a) (note_attr (zlen l) a t) Hr). rewrite zlen_app, <- !app_assoc, <- Z.add_assoc in IH.
    apply IH. unfold zlen in Hpos. lia.
Qed.

Lemma erp_parse_tlvs_encoded l attrs r : Forall attr_ok attrs ->
  erp_parse_tlvs (l ++ attrs_bytes attrs ++ r) (zlen l) (zlen l + zlen (attrs_bytes attrs)) false =
    Ok (names_of (zlen l) attrs (mkTlvs None None)).
Proof. intros Ha. apply erp_parse_tlvs_loop_encoded; [done|]. unfold zlen. lia. Qed.

Definition is_keyname (a : erp_attr) : bool := match a with Tlv t _ => t =? EAP_ERP_TLV_KEYNAME_NAI | Tv _ _ => false end.

Lemma names_of_app pos l1 l2 t :
  names_of pos (l1 ++ l2) t = match names_of pos l1 t with Some t => names_of (pos + zlen (attrs_bytes l1)) l2 t | None => None end.
Proof.
  revert pos t. induction l1 as [|a l1 IH]; intros pos t; [cbn; by rewrite Z.add_0_r|]. cbn [app names_of].
  set (two := if a is Tlv 1 _ then _ else _). destruct two; [done|]. rewrite IH. destruct (names_of _ l1 _); [|done]. f_equal.
  unfold attrs_bytes. cbn [map concat]. rewrite zlen_app. lia.
Qed.

Lemma names_of_others pos l t : Forall (fun a => is_keyname a = false) l ->
  exists d, names_of pos l t = Some (mkTlvs (keyname t) d).
Proof.
  revert pos t. induction l as [|a l IH]; intros pos t Hl; [exists (domain t); by destruct t|].
  apply Forall_cons_1 in Hl as [Ha Hl]. cbn [names_of].
  assert ((if a is Tlv 1 _ then bool_decide (is_Some (keyname t)) else false) = false) as ->
    by (destruct a as [|ty v]; [done|]; rewrite (tlv_1 ty v); cbn in Ha; unfold EAP_ERP_TLV_KEYNAME_NAI in Ha; by rewrite Ha).
  destruct (IH (pos + zlen (attr_bytes a)) (note_attr pos a t) Hl) as [d ->]. exists d. do 2 f_equal.
  destruct a as [|ty v]; [done|]. cbn in *. rewrite Ha. by destruct (ty =? EAP_ERP_TLV_DOMAIN_NAME).
Qed.

(** one keyName-NAI among other attributes is found where it stands *)
Lemma keyname_found l before nai after r : Forall attr_ok (before ++ Tlv EAP_ERP_TLV_KEYNAME_NAI nai :: after) ->
  Forall (fun a => is_keyname a = false) (before ++ after) ->
  let body := attrs_bytes (before ++ Tlv EAP_ERP_TLV_KEYNAME_NAI nai :: after) in
  exists off d, erp_parse_tlvs (l ++ body ++ r) (zlen l) (zlen l + zlen body) false =
      Ok (Some (mkTlvs (Some (off, zlen nai)) d)) /\ get (l ++ body ++ r) off (zlen nai) = Ok nai.
Proof.
  cbv zeta. intros Ha Hk. apply Forall_app in Hk as [Hk1 Hk2].
  set (off := zlen l + zlen (attrs_bytes before) + 2). exists off. rewrite erp_parse_tlvs_encoded by done.
  rewrite names_of_app. destruct (names_of_others (zlen l) before (mkTlvs None None) Hk1) as [d ->].
  cbn [names_of keyname]. change (bool_decide (is_Some (@None (Z * Z)))) with false.
  replace (if Tlv EAP_ERP_TLV_KEYNAME_NAI nai is Tlv 1 _ then false else false) with false by done.
  destruct (names_of_others (zlen l + zlen (attrs_bytes before) + zlen (attr_bytes (Tlv EAP_ERP_TLV_KEYNAME_NAI nai))) after
    (note_attr (zlen l + zlen (attrs_bytes before)) (Tlv EAP_ERP_TLV_KEYNAME_NAI nai) (mkTlvs None d)) Hk2) as [d' ->].
  exists d'. split; [done|].
  replace (l ++ _ ++ r) with ((l ++ attrs_bytes before ++ [EAP_ERP_TLV_KEYNAME_NAI; zlen nai]) ++ nai ++ attrs_bytes after ++ r).
  - apply get_app; [|done]. rewrite !zlen_app. unfold off. rewrite !zlen_cons, zlen_nil. lia.
  - unfold attrs_bytes. rewrite map_app, concat_app. cbn [map concat attr_bytes]. by rewrite <- !app_assoc.
Qed.

(** ** Property *)

(** A message built with [eap_msg_alloc] and filled with the payload it was
    allocated for is read back: [eap_hdr_validate] finds the payload exactly when
    it is asked for the vendor and type the message was built with, for legacy
    and for expanded types, and nothing is put past the buffer. *)
Theorem eap_message_roundtrip (vendor type code id : Z) (payload : list Z) (v t : Z)
    (Hfits : type_fits vendor type) (Hasked : type_fits v t)
    (Hsize : zlen payload + eap_hdr_size + 8 < 2 ^ 16) :
  exists msg, eap_build true vendor type code id payload = Ok (Some msg) /\
    eap_hdr_validate v t (Some msg) =
      Ok (if (vendor =? v) && (type =? t) then Some (payload_offset vendor, zlen payload) else None) /\
    get msg (payload_offset vendor) (zlen payload) = Ok payload /\ eap_get_id msg = u8 id.
Proof.
  exists (eap_message vendor type code id payload).
  assert (zlen (eap_message vendor type code id payload) < 2 ^ 16) as Hz
    by (rewrite zlen_eap_message, zlen_type_bytes; destruct (_ =? _); lia).
  split; [apply eap_build_ok|]. split; [by apply message_validates|]. split; [apply message_payload|].
  unfold eap_get_id. rewrite zlen_eap_message, zlen_type_bytes. pose proof (zlen_nonneg payload). unfold eap_hdr_size.
  by replace (_ <? 4) with false by (destruct (_ =? _); lia).
Qed.

Lemma eap_message_roundtrip_witness :
  exists msg, eap_build true 0 4 1 7 [16; 1; 2] = Ok (Some msg) /\ eap_hdr_validate 0 4 (Some msg) = Ok (Some (5, 3)).
Proof.
  destruct (eap_message_roundtrip 0 4 1 7 [16; 1; 2] 0 4) as (msg & H1 & H2 & _); [split; [lia|discriminate]|split; [lia|discriminate]|reflexivity|].
  exists msg. split; [exact H1|exact H2].
Defined.
