(* ===== verification/EapolAuth.v ===== *)
(** * hostapd: the IEEE 802.1X authenticator's state machines

    Models src/eapol_auth/eapol_auth_sm.c, eapol_auth_sm_i.h and the macros of
    src/utils/state_machine.h: the six machines of a port, their joint stepping,
    the timers, and what the access point writes into the structure from outside.

    The structure's Boolean and integer members are the constructors of [flag]
    and [num]; [isset f sm] and [val n sm] read them.  What the machines do to
    the outside is recorded in [trace], newest first.  The EAP server and the
    access point's callbacks are the interface [Environment]. *)

From stdpp Require Import functions.
From S2P Require Import Prelude CText EapCommon.

(** ** eapol_auth_sm_i.h *)

Inductive PortTypes := ForceUnauthorized | ForceAuthorized | Auto.
Inductive PortState := Unauthorized | Authorized.
Inductive ControlledDirection := Both | In.

Inductive auth_pae :=
| AUTH_PAE_INITIALIZE | AUTH_PAE_DISCONNECTED | AUTH_PAE_CONNECTING | AUTH_PAE_AUTHENTICATING
| AUTH_PAE_AUTHENTICATED | AUTH_PAE_ABORTING | AUTH_PAE_HELD | AUTH_PAE_FORCE_AUTH
| AUTH_PAE_FORCE_UNAUTH | AUTH_PAE_RESTART.
Inductive be_auth :=
| BE_AUTH_REQUEST | BE_AUTH_RESPONSE | BE_AUTH_SUCCESS | BE_AUTH_FAIL | BE_AUTH_TIMEOUT
| BE_AUTH_IDLE | BE_AUTH_INITIALIZE | BE_AUTH_IGNORE.
Inductive reauth_timer := REAUTH_TIMER_INITIALIZE | REAUTH_TIMER_REAUTHENTICATE.
Inductive auth_key_tx := AUTH_KEY_TX_NO_KEY_TRANSMIT | AUTH_KEY_TX_KEY_TRANSMIT.
Inductive key_rx := KEY_RX_NO_KEY_RECEIVE | KEY_RX_KEY_RECEIVE.
Inductive ctrl_dir := CTRL_DIR_FORCE_BOTH | CTRL_DIR_IN_OR_BOTH.

(** the Boolean members *)
Inductive flag :=
| authAbort | authFail | authStart | authTimeout | authSuccess | eapolEap | initialize | keyDone
| keyRun | keyTxEnabled | portValid | reAuthenticate | eapolLogoff | eapolStart | reAuthEnabled
| rxKey | operEdge | initializing | changed.

(** the integer members: timers ([int]), constants and counters ([unsigned]), and the rest *)
Inductive num :=
| aWhile | quietWhile | reAuthWhen
| reAuthCount | quietPeriod | reAuthMax | serverTimeout | reAuthPeriod
| authEntersConnecting | authEapLogoffsWhileConnecting | authAuthSuccessesWhileAuthenticating
| authAuthTimeoutsWhileAuthenticating | authAuthFailWhileAuthenticating
| authAuthEapStartsWhileAuthenticating | authAuthEapLogoffWhileAuthenticating
| authAuthReauthsWhileAuthenticated | authAuthEapStartsWhileAuthenticated
| authAuthEapLogoffWhileAuthenticated
| backendResponses | backendAccessChallenges | backendOtherRequestsToSupplicant
| backendAuthSuccesses | backendAuthFails
| dot1xAuthEapolFramesTx | dot1xAuthEapolReqIdFramesTx | dot1xAuthEapolReqFramesTx
| dot1xAuthEapolStartFramesRx | dot1xAuthEapolLogoffFramesRx | dot1xAuthEapolRespFramesRx
| sm_flags | last_eap_id | remediation.

(** the members of [struct eap_eapol_interface] these machines use *)
Inductive eflag :=
| eapResp | portEnabled | eapRestart | eapReq | eapNoReq | eapSuccess | eapFail | eapTimeout
| eapKeyAvailable | aaaEapResp.

#[export] Instance PortTypes_eq_dec : EqDecision PortTypes. Proof. solve_decision. Defined.
#[export] Instance PortState_eq_dec : EqDecision PortState. Proof. solve_decision. Defined.
#[export] Instance ControlledDirection_eq_dec : EqDecision ControlledDirection. Proof. solve_decision. Defined.
#[export] Instance auth_pae_eq_dec : EqDecision auth_pae. Proof. solve_decision. Defined.
#[export] Instance be_auth_eq_dec : EqDecision be_auth. Proof. solve_decision. Defined.
#[export] Instance reauth_timer_eq_dec : EqDecision reauth_timer. Proof. solve_decision. Defined.
#[export] Instance auth_key_tx_eq_dec : EqDecision auth_key_tx. Proof. solve_decision. Defined.
#[export] Instance key_rx_eq_dec : EqDecision key_rx. Proof. solve_decision. Defined.
#[export] Instance ctrl_dir_eq_dec : EqDecision ctrl_dir. Proof. solve_decision. Defined.
#[export] Instance flag_eq_dec : EqDecision flag. Proof. solve_decision. Defined.
#[export] Instance num_eq_dec : EqDecision num. Proof. solve_decision. Defined.
#[export] Instance eflag_eq_dec : EqDecision eflag. Proof. solve_decision. Defined.

Definition EAPOL_SM_PREAUTH : Z := 0.
Definition EAPOL_SM_WAIT_START : Z := 1.
Definition EAPOL_SM_USES_WPA : Z := 2.

(** what the machines do that the outside sees *)
Inductive event :=
| SetPortAuthorized (authorized : bool)
| Finished (success preauth : bool) (remediation : Z)
| EapolSend (eap : list Z)
| AbortAuth
| TxKey
| ReauthenticateEvent
| SmChangeEvent
| AaaSend (data : list Z)
| RegisterStep          (* eloop: run the machines from a timeout *)
| RegisterTick | CancelTick.

Record eap_eapol_interface := mkEapIf {
  eflag_of : eflag -> bool;
  retransWhile : Z;
  eapReqData : option (list Z);
  aaaEapRespData : option (list Z)
}.

Record eapol_state_machine {EAP : Type} := mkSm {
  flag_of : flag -> bool;
  num_of : num -> Z;
  authPortStatus : option PortState;     (* [None]: the 0 of a fresh structure *)
  portControl : PortTypes;
  portMode : option PortTypes;           (* [None]: 0 *)
  auth_pae_state : auth_pae;
  be_auth_state : be_auth;
  reauth_timer_state : reauth_timer;
  auth_key_tx_state : auth_key_tx;
  key_rx_state : key_rx;
  ctrl_dir_state : ctrl_dir;
  adminControlledDirections : ControlledDirection;
  operControlledDirections : ControlledDirection;
  eap_if : eap_eapol_interface;
  eap : EAP;
  trace : list event
}.
Arguments eapol_state_machine : clear implicits.
Arguments mkSm {EAP}.

(** what a callback of the access point may write back into the structure:
    WPA_EAPOL_* of wpa_auth_glue.c and the port's enabling by ieee802_1x.c *)
Record cb_effect := mkEffect {
  cb_portEnabled : option bool; cb_portValid : option bool; cb_keyRun : option bool;
  cb_keyDone : option bool; cb_keyAvailable : option bool; cb_portControl_Auto : bool
}.

(** [eap_server_sm_step] returns whether its state changed; it works on the
    shared interface and, asking for the user, may set [remediation] *)
Class Environment (EAP : Type) := {
  eap_server_sm_step : EAP -> eap_eapol_interface -> bool * EAP * eap_eapol_interface * bool;
  sta_entry_alive : list event -> bool;
  callback : list event -> cb_effect
}.

Section Machine.
Context {EAP : Type}.
Implicit Types sm : eapol_state_machine EAP.

(** *** Members *)

Definition isset (f : flag) sm : bool := flag_of sm f.
Definition val (n : num) sm : Z := num_of sm n.
Definition eisset (f : eflag) sm : bool := eflag_of (eap_if sm) f.

Definition setf (f : flag) (b : bool) sm : eapol_state_machine EAP :=
  mkSm (<[f := b]> (flag_of sm)) (num_of sm) (authPortStatus sm) (portControl sm) (portMode sm)
    (auth_pae_state sm) (be_auth_state sm) (reauth_timer_state sm) (auth_key_tx_state sm) (key_rx_state sm)
    (ctrl_dir_state sm) (adminControlledDirections sm) (operControlledDirections sm) (eap_if sm) (eap sm)
    (trace sm).
Definition setn (n : num) (v : Z) sm : eapol_state_machine EAP :=
  mkSm (flag_of sm) (<[n := v]> (num_of sm)) (authPortStatus sm) (portControl sm) (portMode sm)
    (auth_pae_state sm) (be_auth_state sm) (reauth_timer_state sm) (auth_key_tx_state sm) (key_rx_state sm)
    (ctrl_dir_state sm) (adminControlledDirections sm) (operControlledDirections sm) (eap_if sm) (eap sm)
    (trace sm).
Definition set_eap_if (i : eap_eapol_interface) sm : eapol_state_machine EAP :=
  mkSm (flag_of sm) (num_of sm) (authPortStatus sm) (portControl sm) (portMode sm) (auth_pae_state sm)
    (be_auth_state sm) (reauth_timer_state sm) (auth_key_tx_state sm) (key_rx_state sm) (ctrl_dir_state sm)
    (adminControlledDirections sm) (operControlledDirections sm) i (eap sm) (trace sm).
Definition sete (f : eflag) (b : bool) sm : eapol_state_machine EAP :=
  let i := eap_if sm in
  set_eap_if (mkEapIf (<[f := b]> (eflag_of i)) (retransWhile i) (eapReqData i) (aaaEapRespData i)) sm.
Definition set_retransWhile (v : Z) sm : eapol_state_machine EAP :=
  let i := eap_if sm in set_eap_if (mkEapIf (eflag_of i) v (eapReqData i) (aaaEapRespData i)) sm.
Definition set_authPortStatus (p : PortState) sm : eapol_state_machine EAP :=
  mkSm (flag_of sm) (num_of sm) (Some p) (portControl sm) (portMode sm) (auth_pae_state sm)
    (be_auth_state sm) (reauth_timer_state sm) (auth_key_tx_state sm) (key_rx_state sm) (ctrl_dir_state sm)
    (adminControlledDirections sm) (operControlledDirections sm) (eap_if sm) (eap sm) (trace sm).
Definition set_portControl (p : PortTypes) sm : eapol_state_machine EAP :=
  mkSm (flag_of sm) (num_of sm) (authPortStatus sm) p (portMode sm) (auth_pae_state sm) (be_auth_state sm)
    (reauth_timer_state sm) (auth_key_tx_state sm) (key_rx_state sm) (ctrl_dir_state sm)
    (adminControlledDirections sm) (operControlledDirections sm) (eap_if sm) (eap sm) (trace sm).
Definition set_portMode (p : PortTypes) sm : eapol_state_machine EAP :=
  mkSm (flag_of sm) (num_of sm) (authPortStatus sm) (portControl sm) (Some p) (auth_pae_state sm)
    (be_auth_state sm) (reauth_timer_state sm) (auth_key_tx_state sm) (key_rx_state sm) (ctrl_dir_state sm)
    (adminControlledDirections sm) (operControlledDirections sm) (eap_if sm) (eap sm) (trace sm).
Definition set_auth_pae (s : auth_pae) sm : eapol_state_machine EAP :=
  mkSm (flag_of sm) (num_of sm) (authPortStatus sm) (portControl sm) (portMode sm) s (be_auth_state sm)
    (reauth_timer_state sm) (auth_key_tx_state sm) (key_rx_state sm) (ctrl_dir_state sm)
    (adminControlledDirections sm) (operControlledDirections sm) (eap_if sm) (eap sm) (trace sm).
Definition set_be_auth (s : be_auth) sm : eapol_state_machine EAP :=
  mkSm (flag_of sm) (num_of sm) (authPortStatus sm) (portControl sm) (portMode sm) (auth_pae_state sm) s
    (reauth_timer_state sm) (auth_key_tx_state sm) (key_rx_state sm) (ctrl_dir_state sm)
    (adminControlledDirections sm) (operControlledDirections sm) (eap_if sm) (eap sm) (trace sm).
Definition set_reauth_timer (s : reauth_timer) sm : eapol_state_machine EAP :=
  mkSm (flag_of sm) (num_of sm) (authPortStatus sm) (portControl sm) (portMode sm) (auth_pae_state sm)
    (be_auth_state sm) s (auth_key_tx_state sm) (key_rx_state sm) (ctrl_dir_state sm)
    (adminControlledDirections sm) (operControlledDirections sm) (eap_if sm) (eap sm) (trace sm).
Definition set_auth_key_tx (s : auth_key_tx) sm : eapol_state_machine EAP :=
  mkSm (flag_of sm) (num_of sm) (authPortStatus sm) (portControl sm) (portMode sm) (auth_pae_state sm)
    (be_auth_state sm) (reauth_timer_state sm) s (key_rx_state sm) (ctrl_dir_state sm)
    (adminControlledDirections sm) (operControlledDirections sm) (eap_if sm) (eap sm) (trace sm).
Definition set_key_rx (s : key_rx) sm : eapol_state_machine EAP :=
  mkSm (flag_of sm) (num_of sm) (authPortStatus sm) (portControl sm) (portMode sm) (auth_pae_state sm)
    (be_auth_state sm) (reauth_timer_state sm) (auth_key_tx_state sm) s (ctrl_dir_state sm)
    (adminControlledDirections sm) (operControlledDirections sm) (eap_if sm) (eap sm) (trace sm).
Definition set_ctrl_dir (s : ctrl_dir) sm : eapol_state_machine EAP :=
  mkSm (flag_of sm) (num_of sm) (authPortStatus sm) (portControl sm) (portMode sm) (auth_pae_state sm)
    (be_auth_state sm) (reauth_timer_state sm) (auth_key_tx_state sm) (key_rx_state sm) s
    (adminControlledDirections sm) (operControlledDirections sm) (eap_if sm) (eap sm) (trace sm).
Definition set_adminDirections (d : ControlledDirection) sm : eapol_state_machine EAP :=
  mkSm (flag_of sm) (num_of sm) (authPortStatus sm) (portControl sm) (portMode sm) (auth_pae_state sm)
    (be_auth_state sm) (reauth_timer_state sm) (auth_key_tx_state sm) (key_rx_state sm) (ctrl_dir_state sm)
    d (operControlledDirections sm) (eap_if sm) (eap sm) (trace sm).
Definition set_operDirections (d : ControlledDirection) sm : eapol_state_machine EAP :=
  mkSm (flag_of sm) (num_of sm) (authPortStatus sm) (portControl sm) (portMode sm) (auth_pae_state sm)
    (be_auth_state sm) (reauth_timer_state sm) (auth_key_tx_state sm) (key_rx_state sm) (ctrl_dir_state sm)
    (adminControlledDirections sm) d (eap_if sm) (eap sm) (trace sm).
Definition set_eap (e : EAP) sm : eapol_state_machine EAP :=
  mkSm (flag_of sm) (num_of sm) (authPortStatus sm) (portControl sm) (portMode sm) (auth_pae_state sm)
    (be_auth_state sm) (reauth_timer_state sm) (auth_key_tx_state sm) (key_rx_state sm) (ctrl_dir_state sm)
    (adminControlledDirections sm) (operControlledDirections sm) (eap_if sm) e (trace sm).
Definition log_event (e : event) sm : eapol_state_machine EAP :=
  mkSm (flag_of sm) (num_of sm) (authPortStatus sm) (portControl sm) (portMode sm) (auth_pae_state sm)
    (be_auth_state sm) (reauth_timer_state sm) (auth_key_tx_state sm) (key_rx_state sm) (ctrl_dir_state sm)
    (adminControlledDirections sm) (operControlledDirections sm) (eap_if sm) (eap sm) (e :: trace sm).

(** [counter++] on an [unsigned int] *)
Definition incr (n : num) sm : eapol_state_machine EAP := setn n (u32 (val n sm + 1)) sm.
Definition when (c : bool) (f : eapol_state_machine EAP -> eapol_state_machine EAP) sm :=
  if c then f sm else sm.
End Machine.

Declare Scope sm_scope.
Delimit Scope sm_scope with sm.
Notation "sm |> f" := (f sm) (at level 69, left associativity, only parsing) : sm_scope.
Open Scope sm_scope.

Section Machines.
Context {EAP : Type} `{!Environment EAP}.
Implicit Types sm : eapol_state_machine EAP.

(** *** Callbacks *)

Definition apply_effect (e : cb_effect) sm : eapol_state_machine EAP :=
  sm |> sete portEnabled (default (eisset portEnabled sm) (cb_portEnabled e))
     |> setf portValid (default (isset portValid sm) (cb_portValid e))
     |> setf keyRun (default (isset keyRun sm) (cb_keyRun e))
     |> setf keyDone (default (isset keyDone sm) (cb_keyDone e))
     |> sete eapKeyAvailable (default (eisset eapKeyAvailable sm) (cb_keyAvailable e))
     |> set_portControl (if cb_portControl_Auto e then Auto else portControl sm).

(** an effect on the outside, and what the callback writes back *)
Definition emit (ev : event) sm : eapol_state_machine EAP :=
  let sm := log_event ev sm in apply_effect (callback (trace sm)) sm.

Definition setPortAuthorized := emit (SetPortAuthorized true).
Definition setPortUnauthorized := emit (SetPortAuthorized false).
Definition finished (success : bool) sm : eapol_state_machine EAP :=
  emit (Finished success (Z.testbit (val sm_flags sm) EAPOL_SM_PREAUTH) (val remediation sm)) sm.

Definition eapol_auth_tx_canned_eap (success : bool) sm : eapol_state_machine EAP :=
  let id := u8 (val last_eap_id sm + 1) in
  sm |> setn last_eap_id id
     |> emit (EapolSend [if success then 3 else 4; id; 0; 4])
     |> incr dot1xAuthEapolFramesTx.

Definition eapol_auth_tx_req sm : eapol_state_machine EAP :=
  match eapReqData (eap_if sm) with
  | None => sm
  | Some msg =>
      if zlen msg <? 4 then sm
      else if Z.testbit (val sm_flags sm) EAPOL_SM_WAIT_START then sm
      else sm |> setn last_eap_id (eap_get_id msg)
              |> emit (EapolSend msg)
              |> incr dot1xAuthEapolFramesTx
              |> (if eap_get_type msg =? 1 then incr dot1xAuthEapolReqIdFramesTx
                  else incr dot1xAuthEapolReqFramesTx)
  end.

(** *** SM_ENTRY_MA: [changed] records a state change, or any non-global entry *)

Definition entry {S} `{EqDecision S} (global : bool) (cur new : S)
    (set : S -> eapol_state_machine EAP -> eapol_state_machine EAP) sm : eapol_state_machine EAP :=
  sm |> when (negb global || negb (bool_decide (cur = new))) (setf changed true) |> set new.

(** *** Authenticator PAE state machine *)

Definition enter_auth_pae (global : bool) (s : auth_pae) sm : eapol_state_machine EAP :=
  entry global (auth_pae_state sm) s set_auth_pae sm.
Definition in_auth_pae (s : auth_pae) sm : bool := bool_decide (auth_pae_state sm = s).

Definition AUTH_PAE_INITIALIZE_Enter (global : bool) sm : eapol_state_machine EAP :=
  sm |> enter_auth_pae global AUTH_PAE_INITIALIZE |> set_portMode Auto |> setf keyRun false.

Definition AUTH_PAE_DISCONNECTED_Enter (global : bool) sm : eapol_state_machine EAP :=
  let from_initialize := in_auth_pae AUTH_PAE_INITIALIZE sm in
  sm |> when (isset eapolLogoff sm)
          (fun sm => if in_auth_pae AUTH_PAE_CONNECTING sm then incr authEapLogoffsWhileConnecting sm
                     else if in_auth_pae AUTH_PAE_AUTHENTICATED sm then incr authAuthEapLogoffWhileAuthenticated sm
                     else sm)
     |> enter_auth_pae global AUTH_PAE_DISCONNECTED
     |> set_authPortStatus Unauthorized
     |> setPortUnauthorized
     |> setn reAuthCount 0
     |> setf eapolLogoff false
     |> when (negb from_initialize) (finished false).

Definition AUTH_PAE_RESTART_Enter (global : bool) sm : eapol_state_machine EAP :=
  sm |> when (in_auth_pae AUTH_PAE_AUTHENTICATED sm)
          (fun sm => sm |> when (isset reAuthenticate sm) (incr authAuthReauthsWhileAuthenticated)
                        |> when (isset eapolStart sm) (incr authAuthEapStartsWhileAuthenticated)
                        |> when (isset eapolLogoff sm) (incr authAuthEapLogoffWhileAuthenticated))
     |> enter_auth_pae global AUTH_PAE_RESTART
     |> sete eapRestart true.

Definition AUTH_PAE_CONNECTING_Enter (global : bool) sm : eapol_state_machine EAP :=
  sm |> when (negb (in_auth_pae AUTH_PAE_CONNECTING sm)) (incr authEntersConnecting)
     |> enter_auth_pae global AUTH_PAE_CONNECTING
     |> setf reAuthenticate false
     |> incr reAuthCount.

Definition AUTH_PAE_HELD_Enter (global : bool) sm : eapol_state_machine EAP :=
  sm |> when (in_auth_pae AUTH_PAE_AUTHENTICATING sm && isset authFail sm) (incr authAuthFailWhileAuthenticating)
     |> enter_auth_pae global AUTH_PAE_HELD
     |> set_authPortStatus Unauthorized
     |> setPortUnauthorized
     |> (fun sm => setn quietWhile (i32 (val quietPeriod sm)) sm)
     |> setf eapolLogoff false
     |> finished false.

Definition AUTH_PAE_AUTHENTICATED_Enter (global : bool) sm : eapol_state_machine EAP :=
  sm |> when (in_auth_pae AUTH_PAE_AUTHENTICATING sm && isset authSuccess sm) (incr authAuthSuccessesWhileAuthenticating)
     |> enter_auth_pae global AUTH_PAE_AUTHENTICATED
     |> set_authPortStatus Authorized
     |> setPortAuthorized
     |> setn reAuthCount 0
     |> finished true.

Definition AUTH_PAE_AUTHENTICATING_Enter (global : bool) sm : eapol_state_machine EAP :=
  sm |> enter_auth_pae global AUTH_PAE_AUTHENTICATING
     |> setf eapolStart false |> setf authSuccess false |> setf authFail false |> setf authTimeout false
     |> setf authStart true |> setf keyRun false |> setf keyDone false.

Definition AUTH_PAE_ABORTING_Enter (global : bool) sm : eapol_state_machine EAP :=
  sm |> when (in_auth_pae AUTH_PAE_AUTHENTICATING sm)
          (fun sm => sm |> when (isset authTimeout sm) (incr authAuthTimeoutsWhileAuthenticating)
                        |> when (isset eapolStart sm) (incr authAuthEapStartsWhileAuthenticating)
                        |> when (isset eapolLogoff sm) (incr authAuthEapLogoffWhileAuthenticating))
     |> enter_auth_pae global AUTH_PAE_ABORTING
     |> setf authAbort true |> setf keyRun false |> setf keyDone false.

Definition AUTH_PAE_FORCE_AUTH_Enter (global : bool) sm : eapol_state_machine EAP :=
  sm |> enter_auth_pae global AUTH_PAE_FORCE_AUTH
     |> set_authPortStatus Authorized
     |> setPortAuthorized
     |> set_portMode ForceAuthorized
     |> setf eapolStart false
     |> eapol_auth_tx_canned_eap true.

Definition AUTH_PAE_FORCE_UNAUTH_Enter (global : bool) sm : eapol_state_machine EAP :=
  sm |> enter_auth_pae global AUTH_PAE_FORCE_UNAUTH
     |> set_authPortStatus Unauthorized
     |> setPortUnauthorized
     |> set_portMode ForceUnauthorized
     |> setf eapolStart false
     |> eapol_auth_tx_canned_eap false.

(** [portMode != portControl] *)
Definition mode_differs sm : bool := negb (bool_decide (portMode sm = Some (portControl sm))).

Definition AUTH_PAE_Step sm : eapol_state_machine EAP :=
  if (bool_decide (portControl sm = Auto) && mode_differs sm) || isset initialize sm || negb (eisset portEnabled sm)
  then AUTH_PAE_INITIALIZE_Enter true sm
  else if bool_decide (portControl sm = ForceAuthorized) && mode_differs sm &&
          negb (isset initialize sm || negb (eisset portEnabled sm))
  then AUTH_PAE_FORCE_AUTH_Enter true sm
  else if bool_decide (portControl sm = ForceUnauthorized) && mode_differs sm &&
          negb (isset initialize sm || negb (eisset portEnabled sm))
  then AUTH_PAE_FORCE_UNAUTH_Enter true sm
  else match auth_pae_state sm with
       | AUTH_PAE_INITIALIZE => AUTH_PAE_DISCONNECTED_Enter false sm
       | AUTH_PAE_DISCONNECTED => AUTH_PAE_RESTART_Enter false sm
       | AUTH_PAE_RESTART => if negb (eisset eapRestart sm) then AUTH_PAE_CONNECTING_Enter false sm else sm
       | AUTH_PAE_HELD => if val quietWhile sm =? 0 then AUTH_PAE_RESTART_Enter false sm else sm
       | AUTH_PAE_CONNECTING =>
           if isset eapolLogoff sm || (val reAuthMax sm <? val reAuthCount sm)
           then AUTH_PAE_DISCONNECTED_Enter false sm
           else if (eisset eapReq sm && (val reAuthCount sm <=? val reAuthMax sm)) ||
                   eisset eapSuccess sm || eisset eapFail sm
           then AUTH_PAE_AUTHENTICATING_Enter false sm else sm
       | AUTH_PAE_AUTHENTICATED =>
           if isset eapolStart sm || isset reAuthenticate sm then AUTH_PAE_RESTART_Enter false sm
           else if isset eapolLogoff sm || negb (isset portValid sm) then AUTH_PAE_DISCONNECTED_Enter false sm
           else sm
       | AUTH_PAE_AUTHENTICATING =>
           if isset authSuccess sm && isset portValid sm then AUTH_PAE_AUTHENTICATED_Enter false sm
           else if isset authFail sm || (isset keyDone sm && negb (isset portValid sm))
           then AUTH_PAE_HELD_Enter false sm
           else if isset eapolStart sm || isset eapolLogoff sm || isset authTimeout sm
           then AUTH_PAE_ABORTING_Enter false sm else sm
       | AUTH_PAE_ABORTING =>
           if isset eapolLogoff sm && negb (isset authAbort sm) then AUTH_PAE_DISCONNECTED_Enter false sm
           else if negb (isset eapolLogoff sm) && negb (isset authAbort sm) then AUTH_PAE_RESTART_Enter false sm
           else sm
       | AUTH_PAE_FORCE_AUTH => if isset eapolStart sm then AUTH_PAE_FORCE_AUTH_Enter false sm else sm
       | AUTH_PAE_FORCE_UNAUTH => if isset eapolStart sm then AUTH_PAE_FORCE_UNAUTH_Enter false sm else sm
       end.

(** *** Backend Authentication state machine *)

Definition enter_be_auth (global : bool) (s : be_auth) sm : eapol_state_machine EAP :=
  entry global (be_auth_state sm) s set_be_auth sm.

Definition BE_AUTH_INITIALIZE_Enter (global : bool) sm : eapol_state_machine EAP :=
  sm |> enter_be_auth global BE_AUTH_INITIALIZE |> emit AbortAuth |> sete eapNoReq false |> setf authAbort false.
Definition BE_AUTH_REQUEST_Enter (global : bool) sm : eapol_state_machine EAP :=
  sm |> enter_be_auth global BE_AUTH_REQUEST |> eapol_auth_tx_req |> sete eapReq false
     |> incr backendOtherRequestsToSupplicant |> setf eapolEap false.
Definition BE_AUTH_RESPONSE_Enter (global : bool) sm : eapol_state_machine EAP :=
  sm |> enter_be_auth global BE_AUTH_RESPONSE |> setf authTimeout false |> setf eapolEap false
     |> sete eapNoReq false |> (fun sm => setn aWhile (i32 (val serverTimeout sm)) sm)
     |> sete eapResp true |> incr backendResponses.
Definition BE_AUTH_SUCCESS_Enter (global : bool) sm : eapol_state_machine EAP :=
  sm |> enter_be_auth global BE_AUTH_SUCCESS |> eapol_auth_tx_req |> setf authSuccess true |> setf keyRun true.
Definition BE_AUTH_FAIL_Enter (global : bool) sm : eapol_state_machine EAP :=
  sm |> enter_be_auth global BE_AUTH_FAIL |> eapol_auth_tx_req |> setf authFail true.
Definition BE_AUTH_TIMEOUT_Enter (global : bool) sm : eapol_state_machine EAP :=
  sm |> enter_be_auth global BE_AUTH_TIMEOUT |> setf authTimeout true.
Definition BE_AUTH_IDLE_Enter (global : bool) sm : eapol_state_machine EAP :=
  sm |> enter_be_auth global BE_AUTH_IDLE |> setf authStart false.
Definition BE_AUTH_IGNORE_Enter (global : bool) sm : eapol_state_machine EAP :=
  sm |> enter_be_auth global BE_AUTH_IGNORE |> sete eapNoReq false.

(** REQUEST and IGNORE wait for the same three events *)
Definition be_auth_wait sm : eapol_state_machine EAP :=
  if isset eapolEap sm then BE_AUTH_RESPONSE_Enter false sm
  else if eisset eapReq sm then BE_AUTH_REQUEST_Enter false sm
  else if eisset eapTimeout sm then BE_AUTH_TIMEOUT_Enter false sm else sm.

Definition BE_AUTH_Step sm : eapol_state_machine EAP :=
  if negb (bool_decide (portControl sm = Auto)) || isset initialize sm || isset authAbort sm
  then BE_AUTH_INITIALIZE_Enter true sm
  else match be_auth_state sm with
       | BE_AUTH_INITIALIZE => BE_AUTH_IDLE_Enter false sm
       | BE_AUTH_REQUEST => be_auth_wait sm
       | BE_AUTH_RESPONSE =>
           let sm := when (eisset eapNoReq sm) (BE_AUTH_IGNORE_Enter false) sm in
           if eisset eapReq sm then sm |> incr backendAccessChallenges |> BE_AUTH_REQUEST_Enter false
           else if val aWhile sm =? 0 then BE_AUTH_TIMEOUT_Enter false sm
           else if eisset eapFail sm then sm |> incr backendAuthFails |> BE_AUTH_FAIL_Enter false
           else if eisset eapSuccess sm then sm |> incr backendAuthSuccesses |> BE_AUTH_SUCCESS_Enter false
           else sm
       | BE_AUTH_SUCCESS => BE_AUTH_IDLE_Enter false sm
       | BE_AUTH_FAIL => BE_AUTH_IDLE_Enter false sm
       | BE_AUTH_TIMEOUT => BE_AUTH_IDLE_Enter false sm
       | BE_AUTH_IDLE =>
           if eisset eapFail sm && isset authStart sm then BE_AUTH_FAIL_Enter false sm
           else if eisset eapReq sm && isset authStart sm then BE_AUTH_REQUEST_Enter false sm
           else if eisset eapSuccess sm && isset authStart sm then BE_AUTH_SUCCESS_Enter false sm
           else sm
       | BE_AUTH_IGNORE => be_auth_wait sm
       end.

(** *** Reauthentication Timer state machine *)

Definition REAUTH_TIMER_INITIALIZE_Enter (global : bool) sm : eapol_state_machine EAP :=
  sm |> entry global (reauth_timer_state sm) REAUTH_TIMER_INITIALIZE set_reauth_timer
     |> (fun sm => setn reAuthWhen (i32 (val reAuthPeriod sm)) sm).
Definition REAUTH_TIMER_REAUTHENTICATE_Enter (global : bool) sm : eapol_state_machine EAP :=
  sm |> entry global (reauth_timer_state sm) REAUTH_TIMER_REAUTHENTICATE set_reauth_timer
     |> setf reAuthenticate true |> emit ReauthenticateEvent.

Definition REAUTH_TIMER_Step sm : eapol_state_machine EAP :=
  if negb (bool_decide (portControl sm = Auto)) || isset initialize sm ||
     bool_decide (authPortStatus sm = Some Unauthorized) || negb (isset reAuthEnabled sm)
  then REAUTH_TIMER_INITIALIZE_Enter true sm
  else match reauth_timer_state sm with
       | REAUTH_TIMER_INITIALIZE =>
           if val reAuthWhen sm =? 0 then REAUTH_TIMER_REAUTHENTICATE_Enter false sm else sm
       | REAUTH_TIMER_REAUTHENTICATE => REAUTH_TIMER_INITIALIZE_Enter false sm
       end.

(** *** Authenticator Key Transmit, Key Receive, Controlled Directions *)

Definition NO_KEY_TRANSMIT_Enter (global : bool) sm : eapol_state_machine EAP :=
  entry global (auth_key_tx_state sm) AUTH_KEY_TX_NO_KEY_TRANSMIT set_auth_key_tx sm.
Definition KEY_TRANSMIT_Enter (global : bool) sm : eapol_state_machine EAP :=
  sm |> entry global (auth_key_tx_state sm) AUTH_KEY_TX_KEY_TRANSMIT set_auth_key_tx
     |> emit TxKey |> sete eapKeyAvailable false |> setf keyDone true.

Definition AUTH_KEY_TX_Step sm : eapol_state_machine EAP :=
  if isset initialize sm || negb (bool_decide (portControl sm = Auto)) then NO_KEY_TRANSMIT_Enter true sm
  else match auth_key_tx_state sm with
       | AUTH_KEY_TX_NO_KEY_TRANSMIT =>
           if isset keyTxEnabled sm && eisset eapKeyAvailable sm && isset keyRun sm &&
              negb (Z.testbit (val sm_flags sm) EAPOL_SM_USES_WPA)
           then KEY_TRANSMIT_Enter false sm else sm
       | AUTH_KEY_TX_KEY_TRANSMIT =>
           if negb (isset keyTxEnabled sm) || negb (isset keyRun sm) then NO_KEY_TRANSMIT_Enter false sm
           else if eisset eapKeyAvailable sm then KEY_TRANSMIT_Enter false sm else sm
       end.

Definition NO_KEY_RECEIVE_Enter (global : bool) sm : eapol_state_machine EAP :=
  entry global (key_rx_state sm) KEY_RX_NO_KEY_RECEIVE set_key_rx sm.
Definition KEY_RECEIVE_Enter (global : bool) sm : eapol_state_machine EAP :=
  sm |> entry global (key_rx_state sm) KEY_RX_KEY_RECEIVE set_key_rx |> setf rxKey false.

Definition KEY_RX_Step sm : eapol_state_machine EAP :=
  if isset initialize sm || negb (eisset portEnabled sm) then NO_KEY_RECEIVE_Enter true sm
  else match key_rx_state sm with
       | KEY_RX_NO_KEY_RECEIVE => if isset rxKey sm then KEY_RECEIVE_Enter false sm else sm
       | KEY_RX_KEY_RECEIVE => if isset rxKey sm then KEY_RECEIVE_Enter false sm else sm
       end.

Definition FORCE_BOTH_Enter (global : bool) sm : eapol_state_machine EAP :=
  sm |> entry global (ctrl_dir_state sm) CTRL_DIR_FORCE_BOTH set_ctrl_dir |> set_operDirections Both.
Definition IN_OR_BOTH_Enter (global : bool) sm : eapol_state_machine EAP :=
  sm |> entry global (ctrl_dir_state sm) CTRL_DIR_IN_OR_BOTH set_ctrl_dir
     |> (fun sm => set_operDirections (adminControlledDirections sm) sm).

Definition CTRL_DIR_Step sm : eapol_state_machine EAP :=
  if isset initialize sm then IN_OR_BOTH_Enter true sm
  else match ctrl_dir_state sm with
       | CTRL_DIR_FORCE_BOTH =>
           if eisset portEnabled sm && isset operEdge sm then IN_OR_BOTH_Enter false sm else sm
       | CTRL_DIR_IN_OR_BOTH =>
           sm |> when (negb (bool_decide (operControlledDirections sm = adminControlledDirections sm)))
                   (IN_OR_BOTH_Enter false)
              |> (fun sm => when (negb (eisset portEnabled sm) || negb (isset operEdge sm)) (FORCE_BOTH_Enter false) sm)
       end.

(** *** Running the machines together *)

(** the state variables whose change asks for another round *)
Definition states sm :=
  (auth_pae_state sm, be_auth_state sm, reauth_timer_state sm, auth_key_tx_state sm,
   key_rx_state sm, ctrl_dir_state sm).

Definition guarded (step : eapol_state_machine EAP -> eapol_state_machine EAP) sm : eapol_state_machine EAP :=
  if isset initializing sm || sta_entry_alive (trace sm) then step sm else sm.

Definition machines_round sm : eapol_state_machine EAP :=
  sm |> AUTH_PAE_Step |> guarded BE_AUTH_Step |> guarded REAUTH_TIMER_Step |> guarded AUTH_KEY_TX_Step
     |> guarded KEY_RX_Step |> guarded CTRL_DIR_Step.

Definition eap_step sm : bool * eapol_state_machine EAP :=
  let '(ch, e, i, rem) := eap_server_sm_step (eap sm) (eap_if sm) in
  (ch, sm |> set_eap e |> set_eap_if i |> when rem (setn remediation 1)).

Definition notify_change sm : eapol_state_machine EAP :=
  when (sta_entry_alive (trace sm)) (emit SmChangeEvent) sm.

(** after a quiet round in which the EAP server did nothing either *)
Definition step_end sm : eapol_state_machine EAP :=
  if eisset aaaEapResp sm then
    let sm := sete aaaEapResp false sm in
    match aaaEapRespData (eap_if sm) with
    | None => sm
    | Some d => sm |> emit (AaaSend d) |> notify_change
    end
  else notify_change sm.

(** eapol_auth_step: from a timeout *)
Definition eapol_auth_step sm : eapol_state_machine EAP := log_event RegisterStep sm.

(** the restart loop, with [max_steps] rounds to go *)
Fixpoint step_rounds (max_steps : nat) sm : eapol_state_machine EAP :=
  match max_steps with
  | O => sm
  | S more =>
      let again sm := match more with O => eapol_auth_step sm | S _ => step_rounds more sm end in
      let sm' := machines_round sm in
      if negb (bool_decide (states sm' = states sm)) then again sm'
      else if sta_entry_alive (trace sm') then
        let '(ch, sm') := eap_step sm' in
        if ch then again sm' else step_end sm'
      else notify_change sm'
  end.

Definition eapol_sm_step_run : eapol_state_machine EAP -> eapol_state_machine EAP := step_rounds 100.

(** *** Timers, initialization and configuration *)

Definition dec_timer (n : num) sm : eapol_state_machine EAP :=
  when (0 <? val n sm) (setn n (val n sm - 1)) sm.

Definition eapol_port_timers_tick sm : eapol_state_machine EAP :=
  sm |> dec_timer aWhile |> dec_timer quietWhile |> dec_timer reAuthWhen
     |> (fun sm => when (0 <? retransWhile (eap_if sm)) (set_retransWhile (retransWhile (eap_if sm) - 1)) sm)
     |> eapol_sm_step_run
     |> log_event RegisterTick.

Definition eapol_auth_initialize sm : eapol_state_machine EAP :=
  sm |> setf initializing true |> setf initialize true |> eapol_sm_step_run
     |> setf initialize false |> eapol_sm_step_run |> setf initializing false
     |> log_event CancelTick |> log_event RegisterTick.

(** a structure from [os_zalloc] *)
Definition sm_zero (e : EAP) (i : eap_eapol_interface) : eapol_state_machine EAP :=
  mkSm (fun _ => false) (fun _ => 0) None Auto None AUTH_PAE_INITIALIZE BE_AUTH_REQUEST
    REAUTH_TIMER_INITIALIZE AUTH_KEY_TX_NO_KEY_TRANSMIT KEY_RX_NO_KEY_RECEIVE CTRL_DIR_FORCE_BOTH
    Both Both i e [].

Record eapol_auth_config := mkConf {
  eap_reauth_period : Z; wpa : Z; individual_wep_key_len : Z; default_wep_key : bool
}.

(** the structure as eapol_auth_alloc fills it, before it initializes the machines *)
Definition fresh (conf : eapol_auth_config) (flags : Z) (e : EAP) (i : eap_eapol_interface)
    : eapol_state_machine EAP :=
  sm_zero e i
    |> setn sm_flags flags |> set_auth_pae AUTH_PAE_INITIALIZE |> setn quietPeriod 60 |> setn reAuthMax 2
    |> set_be_auth BE_AUTH_INITIALIZE |> setn serverTimeout 30 |> set_reauth_timer REAUTH_TIMER_INITIALIZE
    |> setn reAuthPeriod (u32 (eap_reauth_period conf)) |> setf reAuthEnabled (0 <? eap_reauth_period conf)
    |> set_auth_key_tx AUTH_KEY_TX_NO_KEY_TRANSMIT |> set_key_rx KEY_RX_NO_KEY_RECEIVE
    |> set_ctrl_dir CTRL_DIR_IN_OR_BOTH |> set_portControl Auto
    |> setf keyTxEnabled ((wpa conf =? 0) && (default_wep_key conf || (0 <? individual_wep_key_len conf)))
    |> setf portValid (wpa conf =? 0).

(** eapol_auth_alloc, once the EAP server is there ([e], [i]) *)
Definition eapol_auth_alloc (conf : eapol_auth_config) (flags : Z) (e : EAP) (i : eap_eapol_interface)
    : eapol_state_machine EAP :=
  eapol_auth_initialize (fresh conf flags e i).

Definition eapol_auth_reauthenticate sm : eapol_state_machine EAP :=
  sm |> setf reAuthenticate true |> eapol_auth_step.
End Machines.

(** *** eapol_auth_set_conf *)

Definition tolower (c : Z) : Z := if (65 <=? c) && (c <=? 90) then c + 32 else c.
Definition os_strcasecmp_eq (a b : list Z) : bool := bool_decide ((tolower <$> a) = (tolower <$> b)).
Definition os_strcmp_eq (a b : list Z) : bool := bool_decide (a = b).

Section Inputs.
Context {EAP : Type} `{!Environment EAP}.
Implicit Types sm : eapol_state_machine EAP.

(** the new structure and the return value; [atoi]'s result is converted to [unsigned] *)
Definition eapol_auth_set_conf (param value : list Z) sm : M (eapol_state_machine EAP * Z) :=
  if os_strcasecmp_eq param (str "AdminControlledDirections") then
    if os_strcmp_eq value (str "Both") then Ok (sm |> set_adminDirections Both |> eapol_auth_step, 0)
    else if os_strcmp_eq value (str "In") then Ok (sm |> set_adminDirections In |> eapol_auth_step, 0)
    else Ok (sm, -1)
  else if os_strcasecmp_eq param (str "AdminControlledPortControl") then
    if os_strcmp_eq value (str "ForceAuthorized") then
      Ok (sm |> set_portControl ForceAuthorized |> eapol_auth_step, 0)
    else if os_strcmp_eq value (str "ForceUnauthorized") then
      Ok (sm |> set_portControl ForceUnauthorized |> eapol_auth_step, 0)
    else if os_strcmp_eq value (str "Auto") then Ok (sm |> set_portControl Auto |> eapol_auth_step, 0)
    else Ok (sm, -1)
  else if os_strcasecmp_eq param (str "quietPeriod") then
    n ← atoi value; Ok (setn quietPeriod (u32 n) sm, 0)
  else if os_strcasecmp_eq param (str "serverTimeout") then
    n ← atoi value; Ok (setn serverTimeout (u32 n) sm, 0)
  else if os_strcasecmp_eq param (str "reAuthPeriod") then
    n ← atoi value; Ok (setn reAuthPeriod (u32 n) sm, 0)
  else if os_strcasecmp_eq param (str "reAuthEnabled") then
    if os_strcmp_eq value (str "TRUE") then Ok (sm |> setf reAuthEnabled true |> eapol_auth_step, 0)
    else if os_strcmp_eq value (str "FALSE") then Ok (sm |> setf reAuthEnabled false |> eapol_auth_step, 0)
    else Ok (sm, -1)
  else if os_strcasecmp_eq param (str "KeyTransmissionEnabled") then
    if os_strcmp_eq value (str "TRUE") then Ok (sm |> setf keyTxEnabled true |> eapol_auth_step, 0)
    else if os_strcmp_eq value (str "FALSE") then Ok (sm |> setf keyTxEnabled false |> eapol_auth_step, 0)
    else Ok (sm, -1)
  else Ok (sm, -1).

(** ** What the access point does to a port between steps

    The writes of src/ap/ieee802_1x.c and src/ap/wpa_auth_glue.c; [CachedKey]
    is a station that returns with a cached PMKSA (or an FT key), for which the
    access point puts the machines straight into AUTHENTICATING with
    [authSuccess]. *)

Inductive input :=
| Tick                                     (* the one-second timer *)
| StepTimeout                              (* eapol_sm_step_cb *)
| Reauthenticate                           (* eapol_auth_reauthenticate *)
| SetConf (param value : list Z)
| EapolStart | EapolLogoff | EapolEap      (* frames from the station *)
| PortEnabled (b : bool) | PortValid (b : bool) | KeyRun (b : bool)
| KeyAvailable (b : bool) | KeyDone (b : bool)
| PreAuth (b : bool)
| RadiusReject                             (* no usable VLAN in an Access-Accept *)
| NewStation (wait_start reassoc : bool)   (* without a cached key *)
| CachedKey (wait_start : bool).

Definition set_flag_bit (bit : Z) (b : bool) sm : eapol_state_machine EAP :=
  setn sm_flags (if b then Z.setbit (val sm_flags sm) bit else Z.clearbit (val sm_flags sm) bit) sm.

Definition handle_eapol_start sm : eapol_state_machine EAP :=
  sm |> set_flag_bit EAPOL_SM_WAIT_START false |> setf eapolStart true
     |> incr dot1xAuthEapolStartFramesRx |> eapol_auth_step.

Definition handle_eapol_logoff sm : eapol_state_machine EAP :=
  sm |> setf eapolLogoff true |> incr dot1xAuthEapolLogoffFramesRx |> eapol_auth_step.

Definition new_station (wait_start reassoc cached : bool) sm : eapol_state_machine EAP :=
  let sm := sm |> set_flag_bit EAPOL_SM_WAIT_START wait_start |> sete portEnabled true in
  if cached then
    sm |> setf keyRun true |> sete eapKeyAvailable true |> set_auth_pae AUTH_PAE_AUTHENTICATING
       |> set_be_auth BE_AUTH_SUCCESS |> setf authSuccess true |> setf authFail false
  else sm |> when reassoc (setf reAuthenticate true) |> eapol_auth_step.

Definition handle (i : input) sm : M (eapol_state_machine EAP) :=
  match i with
  | Tick => Ok (eapol_port_timers_tick sm)
  | StepTimeout => Ok (eapol_sm_step_run sm)
  | Reauthenticate => Ok (eapol_auth_reauthenticate sm)
  | SetConf param value => '(sm, _) ← eapol_auth_set_conf param value sm; Ok sm
  | EapolStart => Ok (handle_eapol_start sm)
  | EapolLogoff => Ok (handle_eapol_logoff sm)
  | EapolEap => Ok (sm |> incr dot1xAuthEapolRespFramesRx |> setf eapolEap true |> eapol_auth_step)
  | PortEnabled b => Ok (sm |> sete portEnabled b |> eapol_auth_step)
  | PortValid b => Ok (sm |> setf portValid b |> eapol_auth_step)
  | KeyRun b => Ok (setf keyRun b sm)
  | KeyAvailable b => Ok (sete eapKeyAvailable b sm)
  | KeyDone b => Ok (setf keyDone b sm)
  | PreAuth b => Ok (set_flag_bit EAPOL_SM_PREAUTH b sm)
  | RadiusReject => Ok (setf authFail true sm)
  | NewStation w r => Ok (new_station w r false sm)
  | CachedKey w => Ok (new_station w false true sm)
  end.

(** the states a port reaches from its allocation through inputs that are [ok] *)
Inductive reachable (ok : input -> Prop) (conf : eapol_auth_config) (flags : Z) (e : EAP)
    (i : eap_eapol_interface) : eapol_state_machine EAP -> Prop :=
| reach_alloc : reachable ok conf flags e i (eapol_auth_alloc conf flags e i)
| reach_step sm inp sm' : reachable ok conf flags e i sm -> ok inp -> handle inp sm = Ok sm' ->
    reachable ok conf flags e i sm'.

End Inputs.

(** ** Invariants *)

(** the status the access point was last told *)
Fixpoint port_of (tr : list event) : option PortState :=
  match tr with
  | [] => None
  | SetPortAuthorized true :: _ => Some Authorized
  | SetPortAuthorized false :: _ => Some Unauthorized
  | _ :: tr => port_of tr
  end.

(** what a state of the PAE machine says about the port *)
Definition pae_port (s : auth_pae) (p : option PortState) : Prop :=
  match s with
  | AUTH_PAE_DISCONNECTED | AUTH_PAE_HELD | AUTH_PAE_FORCE_UNAUTH => p = Some Unauthorized
  | AUTH_PAE_AUTHENTICATED | AUTH_PAE_FORCE_AUTH => p = Some Authorized
  | _ => True
  end.

Create HintDb sm.
#[export] Hint Unfold AUTH_PAE_INITIALIZE_Enter AUTH_PAE_DISCONNECTED_Enter AUTH_PAE_RESTART_Enter
  AUTH_PAE_CONNECTING_Enter AUTH_PAE_HELD_Enter AUTH_PAE_AUTHENTICATED_Enter AUTH_PAE_AUTHENTICATING_Enter
  AUTH_PAE_ABORTING_Enter AUTH_PAE_FORCE_AUTH_Enter AUTH_PAE_FORCE_UNAUTH_Enter
  BE_AUTH_INITIALIZE_Enter BE_AUTH_REQUEST_Enter BE_AUTH_RESPONSE_Enter BE_AUTH_SUCCESS_Enter
  BE_AUTH_FAIL_Enter BE_AUTH_TIMEOUT_Enter BE_AUTH_IDLE_Enter BE_AUTH_IGNORE_Enter be_auth_wait
  REAUTH_TIMER_INITIALIZE_Enter REAUTH_TIMER_REAUTHENTICATE_Enter NO_KEY_TRANSMIT_Enter KEY_TRANSMIT_Enter
  NO_KEY_RECEIVE_Enter KEY_RECEIVE_Enter FORCE_BOTH_Enter IN_OR_BOTH_Enter
  enter_auth_pae enter_be_auth entry when finished eapol_auth_tx_req notify_change : sm.

(** a member just written, and one left alone *)
Create Rewrite HintDb sm.
#[export] Hint Rewrite @fn_lookup_insert : sm.
#[export] Hint Rewrite @fn_lookup_insert_ne using (by discriminate) : sm.

(** run a step symbolically: unfold, compute the members asked for, split on conditions *)
Ltac sm_run := repeat first [done | progress (autounfold with sm; simpl) | progress autorewrite with sm | case_match].

Section Invariants.
Context {EAP : Type} `{!Environment EAP}.
Implicit Types sm : eapol_state_machine EAP.

(** *** What every step, callback and EAP step keeps, a run of the machines keeps *)

Definition not_port (ev : event) : Prop := match ev with SetPortAuthorized _ => False | _ => True end.

Record step_inv (P : eapol_state_machine EAP -> Prop) : Prop := {
  si_pae sm : P sm -> P (AUTH_PAE_Step sm);
  si_be sm : P sm -> P (BE_AUTH_Step sm);
  si_reauth sm : P sm -> P (REAUTH_TIMER_Step sm);
  si_key_tx sm : P sm -> P (AUTH_KEY_TX_Step sm);
  si_key_rx sm : P sm -> P (KEY_RX_Step sm);
  si_ctrl sm : P sm -> P (CTRL_DIR_Step sm);
  si_eap sm : P sm -> P (snd (eap_step sm));
  si_emit ev sm : not_port ev -> P sm -> P (emit ev sm);
  si_log ev sm : not_port ev -> P sm -> P (log_event ev sm);
  si_resp sm : P sm -> P (sete aaaEapResp false sm)
}.

Lemma machines_round_inv P sm : step_inv P -> P sm -> P (machines_round sm).
Proof.
  intros [Hpae Hbe Hre Htx Hrx Hct _ _ _ _] H. unfold machines_round.
  assert (forall step sm, (forall sm, P sm -> P (step sm)) -> P sm -> P (guarded step sm)) as Hg
    by (intros step sm' Hs H'; unfold guarded; destruct (_ || _); auto).
  auto 10.
Qed.

Lemma notify_change_inv P sm : step_inv P -> P sm -> P (notify_change sm).
Proof. intros HP H. unfold notify_change, when. destruct (sta_entry_alive _); [by apply si_emit|done]. Qed.

Lemma step_end_inv P sm : step_inv P -> P sm -> P (step_end sm).
Proof.
  intros HP H. unfold step_end. destruct (eisset _ _); [|by apply notify_change_inv].
  destruct (aaaEapRespData _); [|by apply si_resp].
  apply notify_change_inv; [done|]. apply si_emit; [done|done|]. by apply si_resp.
Qed.

Lemma step_rounds_inv P n sm : step_inv P -> P sm -> P (step_rounds n sm).
Proof.
  intros HP. revert sm. induction n as [|n IH]; intros sm H; [done|]. cbn [step_rounds].
  pose proof (machines_round_inv P sm HP H) as H1.
  assert (forall sm', P sm' -> P (match n with O => eapol_auth_step sm' | S _ => step_rounds n sm' end)) as Hagain.
  { intros sm' H'. destruct n; [by apply (si_log P HP RegisterStep)|by apply IH]. }
  destruct (negb _); [by apply Hagain|]. destruct (sta_entry_alive _); [|by apply notify_change_inv].
  pose proof (si_eap P HP _ H1) as H2. destruct (eap_step (machines_round sm)) as [[] sm2];
    [by apply Hagain|by apply step_end_inv].
Qed.

Lemma step_run_inv P sm : step_inv P -> P sm -> P (eapol_sm_step_run sm).
Proof. apply step_rounds_inv. Qed.

(** *** The port's status *)

(** [port_of] is what [authPortStatus] says, and the PAE state agrees *)
Definition port_inv sm : Prop :=
  port_of (trace sm) = authPortStatus sm /\ pae_port (auth_pae_state sm) (authPortStatus sm).

Lemma port_inv_steps : step_inv port_inv.
Proof.
  unfold port_inv. split.
  1-6: intros sm [H1 H2]; unfold AUTH_PAE_Step, BE_AUTH_Step, REAUTH_TIMER_Step, AUTH_KEY_TX_Step,
    KEY_RX_Step, CTRL_DIR_Step; split; sm_run; match goal with H : auth_pae_state _ = _ |- _ => by rewrite H end.
  - intros sm [H1 H2]. unfold eap_step. destruct (eap_server_sm_step _ _) as [[[ch e] i] rem].
    destruct rem; simpl; by split.
  - intros [] sm Hev [H1 H2]; simpl in *; by try split.
  - intros [] sm Hev [H1 H2]; simpl in *; by try split.
  - intros sm [H1 H2]. by split.
Qed.

(** the initialization first steps with [initialize] set: both runs keep [P] *)
Lemma initialize_inv P sm :
  step_inv P -> (forall f b sm, f = initializing \/ f = initialize -> P sm -> P (setf f b sm)) ->
  P sm -> P (eapol_auth_initialize sm).
Proof.
  intros HP Hf H. unfold eapol_auth_initialize.
  do 2 (apply si_log; [done|done|]). apply Hf; [auto|]. apply step_run_inv; [done|].
  apply Hf; [auto|]. apply step_run_inv; [done|]. apply Hf; [auto|]. apply Hf; [auto|]. done.
Qed.

Lemma tick_inv P sm :
  step_inv P ->
  (forall n v sm, n = aWhile \/ n = quietWhile \/ n = reAuthWhen -> P sm -> P (setn n v sm)) ->
  (forall v sm, P sm -> P (set_retransWhile v sm)) ->
  P sm -> P (eapol_port_timers_tick sm).
Proof.
  intros HP Hn Hr H. unfold eapol_port_timers_tick, dec_timer, when. apply si_log; [done|done|].
  apply step_run_inv; [done|].
  repeat match goal with |- context [if ?c then _ else _] => destruct c end; auto 10.
Qed.

Lemma handle_inv P (harmless : input -> Prop) sm i sm' :
  step_inv P ->
  (forall f b sm, List.In f [authFail; eapolStart; eapolLogoff; eapolEap; reAuthenticate; portValid; keyRun; keyDone;
                        reAuthEnabled; keyTxEnabled] -> P sm -> P (setf f b sm)) ->
  (forall n v sm, n <> reAuthCount /\ n <> reAuthMax -> P sm -> P (setn n v sm)) ->
  (forall f b sm, f = portEnabled \/ f = eapKeyAvailable -> P sm -> P (sete f b sm)) ->
  (forall v sm, P sm -> P (set_retransWhile v sm)) ->
  (forall d sm, P sm -> P (set_adminDirections d sm)) ->
  (forall param value c sm, harmless (SetConf param value) ->
     os_strcasecmp_eq param (str "AdminControlledPortControl") = true -> P sm -> P (set_portControl c sm)) ->
  (forall w sm, harmless (CachedKey w) -> P sm -> P (new_station w false true sm)) ->
  harmless i -> P sm -> handle i sm = Ok sm' -> P sm'.
Proof.
  intros HP Hf Hn He Hr Hd Hc Hk Hi H E.
  assert (forall sm, P sm -> P (eapol_auth_step sm)) as Hstep by (intros; by apply (si_log P HP RegisterStep)).
  assert (forall n sm, n <> reAuthCount /\ n <> reAuthMax -> P sm -> P (incr n sm)) as Hincr
    by (intros; by apply Hn).
  destruct i; simpl in E; try (injection E as <-).
  all: unfold eapol_auth_reauthenticate, handle_eapol_start, handle_eapol_logoff, set_flag_bit.
  all: try (repeat first [done | apply Hstep | apply Hincr | apply Hf; [simpl; tauto|] | apply Hn; [done|]
                         | apply He; [auto|]]; fail).
  - apply tick_inv; [done| |done|done]. intros n v sm1 Hv. apply Hn. intuition congruence.
  - by apply step_run_inv.
  - apply bind_ok_inv in E as ([sm1 ret] & E & [= <-]). unfold eapol_auth_set_conf in E.
    repeat case_match; try (injection E as <- <-); auto.
    all: try (apply bind_ok_inv in E as (v & _ & [= <- <-]); by apply Hn).
    all: apply Hstep; eauto.
    all: apply Hf; [simpl; tauto|done].
  - unfold new_station, when. apply Hstep. destruct reassoc; [apply Hf; [simpl; tauto|]|];
      apply He; auto; by apply Hn.
  - by apply Hk.
Qed.

(** *** An invariant of the fresh structure, kept by runs and inputs, holds everywhere *)

Lemma reachable_inv P (ok : input -> Prop) conf flags e i sm :
  step_inv P ->
  (forall f b sm, f <> authSuccess -> f <> authAbort -> P sm -> P (setf f b sm)) ->
  (forall n v sm, n <> reAuthCount /\ n <> reAuthMax -> P sm -> P (setn n v sm)) ->
  (forall f b sm, f = portEnabled \/ f = eapKeyAvailable -> P sm -> P (sete f b sm)) ->
  (forall v sm, P sm -> P (set_retransWhile v sm)) ->
  (forall d sm, P sm -> P (set_adminDirections d sm)) ->
  (forall param value c sm, ok (SetConf param value) ->
     os_strcasecmp_eq param (str "AdminControlledPortControl") = true -> P sm -> P (set_portControl c sm)) ->
  (forall w sm, ok (CachedKey w) -> P sm -> P (new_station w false true sm)) ->
  P (fresh conf flags e i) -> reachable ok conf flags e i sm -> P sm.
Proof.
  intros HP Hf Hn He Hr Hd Hc Hk H0 Hsm. induction Hsm as [|sm inp sm' _ IH Hok E].
  - unfold eapol_auth_alloc. apply initialize_inv; [done| |done]. intros f b sm1 [->| ->]; by apply Hf.
  - apply (handle_inv P ok sm inp); try done. intros f b sm1 Hin. simpl in Hin.
    apply Hf; intuition congruence.
Qed.

(** *** The reauthentication counter *)

Definition count_bound (s : auth_pae) : Z :=
  match s with
  | AUTH_PAE_CONNECTING | AUTH_PAE_INITIALIZE | AUTH_PAE_FORCE_AUTH | AUTH_PAE_FORCE_UNAUTH => 3
  | _ => 2
  end.

Definition count_inv sm : Prop :=
  val reAuthMax sm = 2 /\ 0 <= val reAuthCount sm <= count_bound (auth_pae_state sm).

(** keep the comparison of the counter, drop the other conditions *)
Ltac count_bounds sm :=
  try match goal with H : _ || (num_of sm reAuthMax <? num_of sm reAuthCount) = false |- _ =>
    apply orb_false_iff in H as [_ H%Z.ltb_ge] end;
  repeat match goal with H : @eq bool _ _ |- _ => clear H end.

Lemma count_inv_steps : step_inv count_inv.
Proof.
  unfold count_inv, val. split.
  1: { intros sm [H1 H2]. unfold AUTH_PAE_Step, isset, eisset, val.
    assert (count_bound (auth_pae_state sm) <= 3) as H3 by (by destruct (auth_pae_state sm)).
    split; sm_run; unfold val; count_bounds sm;
      try match goal with H : auth_pae_state sm = _ |- _ => rewrite ?H in * end;
      simpl in *; rewrite ?u32_small; lia. }
  1-5: intros sm [H1 H2]; unfold BE_AUTH_Step, REAUTH_TIMER_Step, AUTH_KEY_TX_Step,
    KEY_RX_Step, CTRL_DIR_Step; split; sm_run.
  - intros sm [H1 H2]. unfold eap_step. destruct (eap_server_sm_step _ _) as [[[ch e] i] rem].
    destruct rem; simpl; autorewrite with sm; by split.
  - done.
  - done.
  - done.
Qed.

(** *** Without an EAP success nothing authorizes the port *)

Fixpoint ever_authorized (tr : list event) : bool :=
  match tr with
  | [] => false
  | SetPortAuthorized true :: _ => true
  | _ :: tr => ever_authorized tr
  end.

Definition unauth_inv sm : Prop :=
  portControl sm = Auto /\ isset authSuccess sm = false /\ eisset eapSuccess sm = false /\
  authPortStatus sm <> Some Authorized /\ ever_authorized (trace sm) = false /\
  auth_pae_state sm <> AUTH_PAE_FORCE_AUTH.

(** the EAP server never reports success *)
Definition server_never_succeeds : Prop :=
  forall e i, eflag_of i eapSuccess = false ->
    let '(_, _, i', _) := eap_server_sm_step e i in eflag_of i' eapSuccess = false.

Lemma bool_decide_refl {A} `{EqDecision A} (x : A) : bool_decide (x = x) = true.
Proof. by apply bool_decide_eq_true. Qed.

(** the invariant survives every write but the few it is about *)
Lemma unauth_setf f b sm : (f = authSuccess -> b = false) -> unauth_inv sm -> unauth_inv (setf f b sm).
Proof.
  intros Hf (H1 & H2 & H). split; [exact H1|]. split; [|exact H]. unfold isset; simpl.
  destruct (decide (f = authSuccess)) as [->|]; [by rewrite fn_lookup_insert; auto|].
  by rewrite fn_lookup_insert_ne.
Qed.
Lemma unauth_sete f b sm : (f = eapSuccess -> b = false) -> unauth_inv sm -> unauth_inv (sete f b sm).
Proof.
  intros Hf (H1 & H2 & H3 & H). split; [exact H1|]. split; [exact H2|]. split; [|exact H]. unfold eisset; simpl.
  destruct (decide (f = eapSuccess)) as [->|]; [by rewrite fn_lookup_insert; auto|].
  by rewrite fn_lookup_insert_ne.
Qed.
Lemma unauth_setn n v sm : unauth_inv sm -> unauth_inv (setn n v sm).
Proof. done. Qed.
Lemma unauth_incr n sm : unauth_inv sm -> unauth_inv (incr n sm).
Proof. done. Qed.
Lemma unauth_set_auth_pae s sm : s <> AUTH_PAE_FORCE_AUTH -> unauth_inv sm -> unauth_inv (set_auth_pae s sm).
Proof. intros Hs (H1 & H2 & H3 & H4 & H5 & _). by split_and!. Qed.
Lemma unauth_set_portMode m sm : unauth_inv sm -> unauth_inv (set_portMode m sm).
Proof. done. Qed.
Lemma unauth_set_authPortStatus sm : unauth_inv sm -> unauth_inv (set_authPortStatus Unauthorized sm).
Proof. intros (H1 & H2 & H3 & _ & H5 & H6). by split_and!. Qed.
Lemma unauth_set_retransWhile v sm : unauth_inv sm -> unauth_inv (set_retransWhile v sm).
Proof. done. Qed.
Lemma unauth_set_states s2 s3 s4 s5 s6 d d' sm : unauth_inv sm ->
  unauth_inv (set_be_auth s2 sm) /\ unauth_inv (set_reauth_timer s3 sm) /\ unauth_inv (set_auth_key_tx s4 sm) /\
  unauth_inv (set_key_rx s5 sm) /\ unauth_inv (set_ctrl_dir s6 sm) /\ unauth_inv (set_operDirections d sm) /\
  unauth_inv (set_adminDirections d' sm).
Proof. done. Qed.
Lemma unauth_log ev sm : ev <> SetPortAuthorized true -> unauth_inv sm -> unauth_inv (log_event ev sm).
Proof.
  intros Hev (H1 & H2 & H3 & H4 & H5 & H6). split_and!; try done. by destruct ev as [[]| | | | | | | | | |].
Qed.
Lemma unauth_emit ev sm : ev <> SetPortAuthorized true -> unauth_inv sm -> unauth_inv (emit ev sm).
Proof.
  intros Hev H. apply (unauth_log ev) in H; [|done]. unfold emit, apply_effect.
  repeat first [apply unauth_setf; [done|] | apply unauth_sete; [done|]].
  destruct H as (H1 & H). split; [|exact H]. simpl in *. by destruct (cb_portControl_Auto _).
Qed.

Create HintDb unauth.
#[local] Hint Resolve unauth_setf unauth_sete unauth_setn unauth_incr unauth_set_auth_pae unauth_set_portMode
  unauth_set_authPortStatus unauth_set_retransWhile unauth_log unauth_emit : unauth.
#[local] Hint Extern 1 (_ <> _) => discriminate : unauth.
#[local] Hint Extern 1 (_ = _ -> _ = _) => discriminate : unauth.
#[local] Hint Extern 2 (unauth_inv (set_be_auth _ _)) => apply unauth_set_states : unauth.
#[local] Hint Extern 2 (unauth_inv (set_reauth_timer _ _)) => apply unauth_set_states : unauth.
#[local] Hint Extern 2 (unauth_inv (set_auth_key_tx _ _)) => apply unauth_set_states : unauth.
#[local] Hint Extern 2 (unauth_inv (set_key_rx _ _)) => apply unauth_set_states : unauth.
#[local] Hint Extern 2 (unauth_inv (set_ctrl_dir _ _)) => apply unauth_set_states : unauth.
#[local] Hint Extern 2 (unauth_inv (set_operDirections _ _)) => apply unauth_set_states : unauth.
#[local] Hint Constants Opaque : unauth.

Ltac unauth_keep :=
  autounfold with sm; unfold eapol_auth_tx_canned_eap, setPortUnauthorized;
  repeat match goal with |- context [if ?c then _ else _] => destruct c
                       | |- context [match eapReqData ?i with _ => _ end] => destruct (eapReqData i) end;
  auto 20 with unauth.

Lemma unauth_pae_enter g sm : unauth_inv sm ->
  unauth_inv (AUTH_PAE_INITIALIZE_Enter g sm) /\ unauth_inv (AUTH_PAE_DISCONNECTED_Enter g sm) /\
  unauth_inv (AUTH_PAE_RESTART_Enter g sm) /\ unauth_inv (AUTH_PAE_CONNECTING_Enter g sm) /\
  unauth_inv (AUTH_PAE_HELD_Enter g sm) /\ unauth_inv (AUTH_PAE_AUTHENTICATING_Enter g sm) /\
  unauth_inv (AUTH_PAE_ABORTING_Enter g sm).
Proof. intros H. split_and!; unauth_keep. Qed.

Lemma unauth_be_enter g sm : unauth_inv sm ->
  unauth_inv (BE_AUTH_INITIALIZE_Enter g sm) /\ unauth_inv (BE_AUTH_REQUEST_Enter g sm) /\
  unauth_inv (BE_AUTH_RESPONSE_Enter g sm) /\ unauth_inv (BE_AUTH_FAIL_Enter g sm) /\
  unauth_inv (BE_AUTH_TIMEOUT_Enter g sm) /\ unauth_inv (BE_AUTH_IDLE_Enter g sm) /\
  unauth_inv (BE_AUTH_IGNORE_Enter g sm).
Proof. intros H. split_and!; unauth_keep. Qed.

Lemma unauth_pae_step sm : unauth_inv sm -> unauth_inv (AUTH_PAE_Step sm).
Proof.
  intros H. destruct (unauth_pae_enter true sm H) as (Hg & _).
  destruct (unauth_pae_enter false sm H) as (Hi & Hd & Hr & Hc & Hh & Ha & Hab).
  pose proof H as (H1 & H2 & H3 & _ & _ & H6). unfold AUTH_PAE_Step. rewrite H1, H2, H3.
  change (bool_decide (Auto = ForceAuthorized)) with false.
  change (bool_decide (Auto = ForceUnauthorized)) with false. cbn [andb].
  destruct (_ || _); [exact Hg|].
  destruct (auth_pae_state sm) eqn:Es; try done;
    repeat match goal with |- context [if ?c then _ else _] => destruct c end; try assumption.
  unauth_keep.
Qed.

Lemma unauth_be_step sm : unauth_inv sm -> unauth_inv (BE_AUTH_Step sm).
Proof.
  intros H. destruct (unauth_be_enter true sm H) as (Hg & _).
  destruct (unauth_be_enter false sm H) as (_ & Hreq & Hresp & Hfail & Hto & Hidle & Hign).
  pose proof H as (H1 & _ & H3 & _). unfold BE_AUTH_Step. destruct (_ || _); [exact Hg|].
  destruct (be_auth_state sm); try exact Hidle; try (unfold be_auth_wait;
    repeat match goal with |- context [if ?c then _ else _] => destruct c end; assumption).
  - assert (unauth_inv (when (eisset eapNoReq sm) (BE_AUTH_IGNORE_Enter false) sm)) as Hw
      by (unfold when; destruct (eisset eapNoReq sm); assumption).
    cbv zeta. set (sm' := when _ _ sm) in *. clearbody sm'.
    assert (eisset eapSuccess sm' = false) as -> by apply Hw.
    destruct (eisset eapReq sm'); [unauth_keep|]. destruct (_ =? 0); [unauth_keep|].
    destruct (eisset eapFail sm'); [unauth_keep|done].
  - rewrite H3. destruct (eisset eapFail sm && isset authStart sm); [done|].
    destruct (eisset eapReq sm && isset authStart sm); done.
Qed.

Lemma unauth_inv_steps : server_never_succeeds -> step_inv unauth_inv.
Proof.
  intros Hserver. split.
  - apply unauth_pae_step.
  - apply unauth_be_step.
  - intros sm H. unfold REAUTH_TIMER_Step. destruct (reauth_timer_state sm); unauth_keep.
  - intros sm H. unfold AUTH_KEY_TX_Step. destruct (auth_key_tx_state sm); unauth_keep.
  - intros sm H. unfold KEY_RX_Step. destruct (key_rx_state sm); unauth_keep.
  - intros sm H. unfold CTRL_DIR_Step. destruct (ctrl_dir_state sm); unauth_keep.
  - intros sm (H1 & H2 & H3 & H4 & H5 & H6). pose proof (Hserver (eap sm) (eap_if sm) H3) as Hs. unfold eap_step.
    destruct (eap_server_sm_step _ _) as [[[ch e] i] rem]. destruct rem; by split_and!.
  - intros ev sm Hev H. apply unauth_emit; [by intros ->|done].
  - intros ev sm Hev H. apply unauth_log; [by intros ->|done].
  - intros sm H. by apply unauth_sete.
Qed.

(** *** The held state *)

(** the callbacks and the EAP server leave the port enabled *)
Definition port_stays_enabled : Prop :=
  (forall tr, cb_portEnabled (callback tr) <> Some false) /\
  forall e i, eflag_of i portEnabled = true ->
    let '(_, _, i', _) := eap_server_sm_step e i in eflag_of i' portEnabled = true.

Definition held (q : Z) sm : Prop :=
  auth_pae_state sm = AUTH_PAE_HELD /\ val quietWhile sm = q /\ portControl sm = Auto /\
  portMode sm = Some Auto /\ isset initialize sm = false /\ eisset portEnabled sm = true.

Lemma held_setf q f b sm : f <> initialize -> held q sm -> held q (setf f b sm).
Proof.
  intros Hf (H1 & H2 & H3 & H4 & H5 & H6). split_and!; try done.
  unfold isset; simpl. by rewrite fn_lookup_insert_ne.
Qed.
Lemma held_sete q f b sm : (f = portEnabled -> b = true) -> held q sm -> held q (sete f b sm).
Proof.
  intros Hf (H1 & H2 & H3 & H4 & H5 & H6). split_and!; try done. unfold eisset; simpl.
  destruct (decide (f = portEnabled)) as [->|]; [by rewrite fn_lookup_insert; auto|].
  by rewrite fn_lookup_insert_ne.
Qed.
Lemma held_setn q n v sm : n <> quietWhile -> held q sm -> held q (setn n v sm).
Proof.
  intros Hn (H1 & H2 & H3 & H4 & H5 & H6). split_and!; try done.
  unfold val; simpl. by rewrite fn_lookup_insert_ne.
Qed.
Lemma held_incr q n sm : n <> quietWhile -> held q sm -> held q (incr n sm).
Proof. apply held_setn. Qed.
Lemma held_set_states q s2 s3 s4 s5 s6 d d' v sm : held q sm ->
  held q (set_be_auth s2 sm) /\ held q (set_reauth_timer s3 sm) /\ held q (set_auth_key_tx s4 sm) /\
  held q (set_key_rx s5 sm) /\ held q (set_ctrl_dir s6 sm) /\ held q (set_operDirections d sm) /\
  held q (set_adminDirections d' sm) /\ held q (set_retransWhile v sm).
Proof. done. Qed.
Lemma held_log q ev sm : held q sm -> held q (log_event ev sm).
Proof. done. Qed.
Lemma held_emit q ev sm : port_stays_enabled -> held q sm -> held q (emit ev sm).
Proof.
  intros [Hcb _] H. apply (held_log q ev) in H. unfold emit, apply_effect.
  specialize (Hcb (trace (log_event ev sm))). set (sm1 := log_event ev sm) in *. set (cb := callback _) in *.
  pose proof H as (_ & _ & H3 & _ & _ & H6).
  assert (held q (sm1 |> sete portEnabled (default (eisset portEnabled sm1) (cb_portEnabled cb))
     |> setf portValid (default (isset portValid sm1) (cb_portValid cb))
     |> setf keyRun (default (isset keyRun sm1) (cb_keyRun cb))
     |> setf keyDone (default (isset keyDone sm1) (cb_keyDone cb))
     |> sete eapKeyAvailable (default (eisset eapKeyAvailable sm1) (cb_keyAvailable cb)))) as Hh.
  { apply held_sete; [done|]. do 3 (apply held_setf; [done|]). apply held_sete; [|done].
    intros _. rewrite H6. by destruct (cb_portEnabled cb) as [[]|]. }
  destruct Hh as (G1 & G2 & _ & G4 & G5 & G6). split_and!; try done. simpl.
  destruct (cb_portControl_Auto cb); [done|exact H3].
Qed.

Create HintDb held.
#[local] Hint Resolve held_setf held_sete held_setn held_incr held_log held_emit : held.
#[local] Hint Extern 1 (_ <> _) => discriminate : held.
#[local] Hint Extern 1 (_ = _ -> _ = _) => discriminate : held.
#[local] Hint Extern 2 (held _ (set_be_auth _ _)) => apply held_set_states : held.
#[local] Hint Extern 2 (held _ (set_reauth_timer _ _)) => apply held_set_states : held.
#[local] Hint Extern 2 (held _ (set_auth_key_tx _ _)) => apply held_set_states : held.
#[local] Hint Extern 2 (held _ (set_key_rx _ _)) => apply held_set_states : held.
#[local] Hint Extern 2 (held _ (set_ctrl_dir _ _)) => apply held_set_states : held.
#[local] Hint Extern 2 (held _ (set_operDirections _ _)) => apply held_set_states : held.
#[local] Hint Constants Opaque : held.

Ltac held_keep :=
  autounfold with sm;
  repeat match goal with |- context [if ?c then _ else _] => destruct c
                       | |- context [match eapReqData ?i with _ => _ end] => destruct (eapReqData i) end;
  auto 20 with held.

Lemma held_pae_step q sm : q <> 0 -> held q sm -> AUTH_PAE_Step sm = sm.
Proof.
  intros Hq (H1 & H2 & H3 & H4 & H5 & H6). unfold AUTH_PAE_Step, mode_differs. rewrite H1, H2, H3, H4, H5, H6.
  rewrite (bool_decide_eq_true_2 (Some Auto = Some Auto)) by done.
  change (bool_decide (Auto = Auto)) with true. simpl. by replace (q =? 0) with false by lia.
Qed.

Lemma held_steps q : port_stays_enabled -> q <> 0 -> step_inv (held q).
Proof.
  intros Hen Hq. split.
  - intros sm H. by rewrite (held_pae_step q).
  - intros sm H. unfold BE_AUTH_Step. destruct (be_auth_state sm); held_keep.
  - intros sm H. unfold REAUTH_TIMER_Step. destruct (reauth_timer_state sm); held_keep.
  - intros sm H. unfold AUTH_KEY_TX_Step. destruct (auth_key_tx_state sm); held_keep.
  - intros sm H. unfold KEY_RX_Step. destruct (key_rx_state sm); held_keep.
  - intros sm H. unfold CTRL_DIR_Step. destruct (ctrl_dir_state sm); held_keep.
  - intros sm (H1 & H2 & H3 & H4 & H5 & H6). pose proof (proj2 Hen (eap sm) (eap_if sm) H6) as Hs. unfold eap_step.
    destruct (eap_server_sm_step _ _) as [[[ch e] i] rem]. destruct rem; [apply held_setn; [done|]|]; by split_and!.
  - intros ev sm _ H. by apply held_emit.
  - done.
  - intros sm H. by apply held_sete.
Qed.

(** a tick that does not end the quiet period *)
Lemma held_tick q sm :
  port_stays_enabled -> q <> 0 -> q <> 1 -> held q sm ->
  held (if 0 <? q then q - 1 else q) (eapol_port_timers_tick sm).
Proof.
  intros Hen Hq0 Hq1 H. set (q' := if 0 <? q then q - 1 else q).
  assert (q' <> 0) as Hq' by (unfold q'; destruct (Z.ltb_spec 0 q); lia).
  unfold eapol_port_timers_tick. apply held_log, step_run_inv; [by apply held_steps|].
  assert (forall n sm, n <> quietWhile -> held q' sm -> held q' (dec_timer n sm)) as Hdec
    by (intros n sm' Hn H'; unfold dec_timer, when; destruct (0 <? val n sm'); auto with held).
  assert (held q' (dec_timer reAuthWhen (dec_timer quietWhile (dec_timer aWhile sm)))) as Hd.
  { apply Hdec; [done|].
    assert (held q (dec_timer aWhile sm)) as (H1 & H2 & H3 & H4 & H5 & H6)
      by (unfold dec_timer, when; destruct (0 <? val aWhile sm); auto with held).
    unfold q', dec_timer at 1, when. rewrite H2. destruct (0 <? q); by split_and!. }
  unfold when. destruct (0 <? retransWhile _); exact Hd.
Qed.

Lemma held_ticks q n sm :
  port_stays_enabled -> (Z.of_nat n < q \/ q < 0) -> held q sm ->
  held (if 0 <? q then q - Z.of_nat n else q) (Nat.iter n eapol_port_timers_tick sm).
Proof.
  intros Hen Hn H. induction n as [|n IH]; [simpl; rewrite Z.sub_0_r; by destruct (0 <? q)|].
  rewrite Nat.iter_succ. specialize (IH ltac:(lia)).
  pose proof (held_tick (if 0 <? q then q - Z.of_nat n else q) (Nat.iter n eapol_port_timers_tick sm) Hen) as Ht.
  destruct (Z.ltb_spec 0 q).
  - specialize (Ht ltac:(lia) ltac:(lia) IH). replace (0 <? q - Z.of_nat n) with true in Ht by lia.
    by replace (q - Z.of_nat (S n)) with (q - Z.of_nat n - 1) by lia.
  - specialize (Ht ltac:(lia) ltac:(lia) IH). by replace (0 <? q) with false in Ht by lia.
Qed.

(** *** Entering HELD; what the other machines leave alone *)

Lemma held_enter global sm :
  portControl sm = Auto -> portMode sm = Some Auto -> isset initialize sm = false ->
  eisset portEnabled sm = true -> port_stays_enabled ->
  held (i32 (val quietPeriod sm)) (AUTH_PAE_HELD_Enter global sm).
Proof.
  intros H1 H2 H3 H4 Hen. unfold AUTH_PAE_HELD_Enter, finished, setPortUnauthorized.
  apply held_emit; [done|]. apply held_setf; [done|].
  set (sm1 := when _ _ sm).
  assert (portControl sm1 = Auto /\ portMode sm1 = Some Auto /\ isset initialize sm1 = false /\
          eisset portEnabled sm1 = true /\ val quietPeriod sm1 = val quietPeriod sm) as (G1 & G2 & G3 & G4 & G5)
    by (unfold sm1, when; by destruct (_ && _)).
  set (sm2 := set_authPortStatus Unauthorized (enter_auth_pae global AUTH_PAE_HELD sm1)).
  assert (held (val quietWhile sm2) sm2 /\ val quietPeriod sm2 = val quietPeriod sm) as [Hh Hp]
    by (unfold sm2, enter_auth_pae, entry, when; by destruct (_ || _); split_and!).
  apply (held_emit _ (SetPortAuthorized false) _ Hen) in Hh as (E1 & _ & E3 & E4 & E5 & E6).
  split_and!; try done. unfold val; simpl. rewrite fn_lookup_insert. f_equal. exact Hp.
Qed.

Lemma machines_round_port sm : authPortStatus (machines_round sm) = authPortStatus (AUTH_PAE_Step sm).
Proof.
  unfold machines_round. set (sm1 := AUTH_PAE_Step sm). clearbody sm1.
  assert (forall step sm, (forall sm, authPortStatus (step sm) = authPortStatus sm) ->
    authPortStatus (guarded step sm) = authPortStatus sm) as Hg
    by (intros step sm' Hs; unfold guarded; by destruct (_ || _)).
  rewrite !Hg; first done; intros sm'; unfold BE_AUTH_Step, REAUTH_TIMER_Step, AUTH_KEY_TX_Step,
    KEY_RX_Step, CTRL_DIR_Step; sm_run.
Qed.

Lemma pae_enter_keeps_port g sm :
  authPortStatus (AUTH_PAE_INITIALIZE_Enter g sm) = authPortStatus sm /\
  authPortStatus (AUTH_PAE_RESTART_Enter g sm) = authPortStatus sm /\
  authPortStatus (AUTH_PAE_CONNECTING_Enter g sm) = authPortStatus sm /\
  authPortStatus (AUTH_PAE_AUTHENTICATING_Enter g sm) = authPortStatus sm /\
  authPortStatus (AUTH_PAE_ABORTING_Enter g sm) = authPortStatus sm.
Proof. split_and!; sm_run. Qed.

Lemma pae_enter_closes_port g sm :
  authPortStatus (AUTH_PAE_DISCONNECTED_Enter g sm) = Some Unauthorized /\
  authPortStatus (AUTH_PAE_HELD_Enter g sm) = Some Unauthorized /\
  authPortStatus (AUTH_PAE_FORCE_UNAUTH_Enter g sm) = Some Unauthorized.
Proof. split_and!; sm_run. Qed.

Lemma pae_step_authorizes sm :
  pae_port (auth_pae_state sm) (authPortStatus sm) ->
  authPortStatus sm <> Some Authorized -> authPortStatus (AUTH_PAE_Step sm) = Some Authorized ->
  (auth_pae_state sm = AUTH_PAE_AUTHENTICATING /\ isset authSuccess sm = true /\ isset portValid sm = true /\
   auth_pae_state (AUTH_PAE_Step sm) = AUTH_PAE_AUTHENTICATED) \/
  (portControl sm = ForceAuthorized /\ auth_pae_state (AUTH_PAE_Step sm) = AUTH_PAE_FORCE_AUTH).
Proof.
  intros Hp Hb. destruct (pae_enter_keeps_port true sm) as (K1 & _).
  destruct (pae_enter_keeps_port false sm) as (_ & K2 & K3 & K4 & K5).
  destruct (pae_enter_closes_port true sm) as (_ & _ & C0).
  destruct (pae_enter_closes_port false sm) as (C1 & C2 & C3). unfold AUTH_PAE_Step.
  destruct (_ || negb _); [congruence|]. destruct (_ && _ && negb _) eqn:F.
  { intros _. right. apply andb_true_iff in F as [[F _]%andb_true_iff _].
    by apply bool_decide_eq_true in F. }
  destruct (_ && _ && negb _); [congruence|].
  destruct (auth_pae_state sm) eqn:Es; simpl in Hp; try congruence;
    repeat match goal with |- context [if ?c then _ else _] => destruct c eqn:? end; try congruence.
  intros _. left. by repeat match goal with H : _ && _ = true |- _ => apply andb_true_iff in H as [? ?] end.
Qed.
End Invariants.

(** ** Properties *)

Section Properties.
Context {EAP : Type} `{!Environment EAP}.

(** C21: whatever happens to a port (any sequence of frames, timer ticks,
    configuration commands, cached keys, and any EAP server and callbacks), the
    status the access point was last told is [authPortStatus]; the port is
    unauthorized in DISCONNECTED, HELD and FORCE_UNAUTH and authorized in
    AUTHENTICATED and FORCE_AUTH. *)
Theorem port_status_agrees (conf : eapol_auth_config) (flags : Z) (e : EAP) (i : eap_eapol_interface)
    (sm : eapol_state_machine EAP) (Hsm : reachable (fun _ => True) conf flags e i sm) :
  port_of (trace sm) = authPortStatus sm /\ pae_port (auth_pae_state sm) (authPortStatus sm).
Proof.
  revert Hsm. apply (reachable_inv port_inv); try done; [apply port_inv_steps|].
  intros w sm1 _ [H1 H2]. by split.
Qed.

(** A port is authorized by the Authenticator PAE machine alone, and by it
    only on entering AUTHENTICATED, from AUTHENTICATING with [authSuccess] and
    [portValid], or on being forced by the management's [portControl]. *)
Theorem authorized_only_after_success (sm : eapol_state_machine EAP)
    (Hpae : pae_port (auth_pae_state sm) (authPortStatus sm))
    (Hbefore : authPortStatus sm <> Some Authorized)
    (Hafter : authPortStatus (machines_round sm) = Some Authorized) :
  (auth_pae_state sm = AUTH_PAE_AUTHENTICATING /\ isset authSuccess sm = true /\ isset portValid sm = true /\
   auth_pae_state (AUTH_PAE_Step sm) = AUTH_PAE_AUTHENTICATED) \/
  (portControl sm = ForceAuthorized /\ auth_pae_state (AUTH_PAE_Step sm) = AUTH_PAE_FORCE_AUTH).
Proof.
  rewrite machines_round_port in Hafter. by apply pae_step_authorizes.
Qed.

(** C22: no authorization without authentication: as long as the EAP server
    never reports success, no sequence of inputs other than a cached key or a
    change of the administrative port control gets the port authorized, and the
    access point is never told that it is. *)
Theorem no_authorization_without_success (conf : eapol_auth_config) (flags : Z) (e : EAP)
    (i : eap_eapol_interface) (sm : eapol_state_machine EAP)
    (Hserver : server_never_succeeds) (Hi : eflag_of i eapSuccess = false)
    (Hsm : reachable (fun inp => match inp with
                                 | CachedKey _ => False
                                 | SetConf param _ => os_strcasecmp_eq param (str "AdminControlledPortControl") = false
                                 | _ => True
                                 end) conf flags e i sm) :
  authPortStatus sm <> Some Authorized /\ ever_authorized (trace sm) = false.
Proof.
  enough (unauth_inv sm) as (_ & _ & _ & H4 & H5 & _) by done. revert Hsm.
  apply (reachable_inv unauth_inv); try done; [by apply unauth_inv_steps| | |].
  - intros f b sm1 Hf _. by apply unauth_setf.
  - intros f b sm1 Hf. apply unauth_sete. intros ->. by destruct Hf.
  - intros param value c sm1 Hok Hc. congruence.
Qed.

(** The reauthentication counter is bounded: without cached keys it never
    exceeds [reAuthMax] + 1 = 3, and is at most [reAuthMax] outside CONNECTING,
    INITIALIZE and the forced states, so its [unsigned int] never wraps. *)
Theorem reauth_count_bounded (conf : eapol_auth_config) (flags : Z) (e : EAP) (i : eap_eapol_interface)
    (sm : eapol_state_machine EAP)
    (Hsm : reachable (fun inp => match inp with CachedKey _ => False | _ => True end) conf flags e i sm) :
  val reAuthMax sm = 2 /\ 0 <= val reAuthCount sm <= count_bound (auth_pae_state sm).
Proof.
  revert Hsm. apply (reachable_inv count_inv); try done; [apply count_inv_steps|].
  intros n v sm1 [H1 H2] [H3 H4]. split; unfold val; simpl; by rewrite fn_lookup_insert_ne.
Qed.

(** C23: a failed authentication is held back for the quiet period: a port that
    enters HELD under automatic control stays there, [quietWhile] counting down
    from [quietPeriod], through every tick but the last; and a period of 2^31 or
    more (what the configuration value -1 is converted to) is never over. *)
Theorem held_lasts (q : Z) (n : nat) (global : bool) (sm : eapol_state_machine EAP)
    (Hcontrol : portControl sm = Auto) (Hmode : portMode sm = Some Auto)
    (Hinit : isset initialize sm = false) (Hport : eisset portEnabled sm = true)
    (Hen : port_stays_enabled) (Hq : q = i32 (val quietPeriod sm)) (Hn : Z.of_nat n < q \/ q < 0) :
  let sm' := Nat.iter n eapol_port_timers_tick (AUTH_PAE_HELD_Enter global sm) in
  auth_pae_state sm' = AUTH_PAE_HELD /\ val quietWhile sm' = if 0 <? q then q - Z.of_nat n else q.
Proof.
  cbv zeta. destruct (held_ticks q n (AUTH_PAE_HELD_Enter global sm) Hen Hn) as (H1 & H2 & _); [|done].
  subst q. by apply held_enter.
Qed.
End Properties.

(** ** The properties on concrete runs: a station that is always there, an EAP
    server that does nothing, callbacks that write nothing back *)

#[export] Instance idle_environment : Environment unit := {
  eap_server_sm_step e i := (false, e, i, false);
  sta_entry_alive _ := true;
  callback _ := mkEffect None None None None None false
}.

Definition sample_conf : eapol_auth_config := mkConf 3600 0 0 false.
Definition sample_if : eap_eapol_interface := mkEapIf (fun _ => false) 0 None None.

(** run the inputs; a failing one leaves the state *)
Definition run_inputs (inputs : list input) (sm : eapol_state_machine unit) : eapol_state_machine unit :=
  fold_left (fun sm i => match handle i sm with Ok sm' => sm' | Err _ => sm end) inputs sm.

Lemma run_inputs_reachable ok conf flags i inputs sm :
  Forall ok inputs -> reachable ok conf flags tt i sm -> reachable ok conf flags tt i (run_inputs inputs sm).
Proof.
  intros H. revert sm. induction H as [|inp inputs Hok _ IH]; intros sm Hsm; [done|]. simpl. apply IH.
  destruct (handle inp sm) eqn:E; [by eapply reach_step|done].
Qed.

Definition sample_alloc : eapol_state_machine unit := eapol_auth_alloc sample_conf 0 tt sample_if.

(** a returning station with a cached key is authorized by the next step *)
Lemma port_status_agrees_witness :
  port_of (trace (run_inputs [CachedKey false; StepTimeout] sample_alloc)) = Some Authorized.
Proof.
  destruct (port_status_agrees sample_conf 0 tt sample_if
    (run_inputs [CachedKey false; StepTimeout] sample_alloc)) as [H _].
  - apply run_inputs_reachable; [repeat constructor|apply reach_alloc].
  - rewrite H. vm_compute. reflexivity.
Defined.

Lemma authorized_only_after_success_witness :
  auth_pae_state (run_inputs [CachedKey false] sample_alloc) = AUTH_PAE_AUTHENTICATING.
Proof.
  destruct (authorized_only_after_success (run_inputs [CachedKey false] sample_alloc)) as [[H _]|[H _]];
    [vm_compute; exact I|vm_compute; discriminate|vm_compute; reflexivity|exact H|vm_compute in H; discriminate H].
Defined.

(** a new station that only sends EAPOL-Start stays unauthorized *)
Lemma no_authorization_without_success_witness :
  authPortStatus (run_inputs [NewStation false false; EapolStart; StepTimeout] sample_alloc) <> Some Authorized /\
  auth_pae_state (run_inputs [NewStation false false; EapolStart; StepTimeout] sample_alloc) = AUTH_PAE_RESTART.
Proof.
  split; [|vm_compute; reflexivity].
  apply (no_authorization_without_success sample_conf 0 tt sample_if); [intros e i Hi; exact Hi|reflexivity|].
  apply run_inputs_reachable; [repeat constructor|apply reach_alloc].
Defined.

Lemma reauth_count_bounded_witness :
  0 <= val reAuthCount (run_inputs [NewStation false false; StepTimeout] sample_alloc) <= 2.
Proof.
  destruct (reauth_count_bounded sample_conf 0 tt sample_if
    (run_inputs [NewStation false false; StepTimeout] sample_alloc)) as [_ H].
  - apply run_inputs_reachable; [repeat constructor|apply reach_alloc].
  - exact H.
Defined.

(** 59 ticks of the default quiet period, and 100 of the period -1 *)
Lemma held_lasts_witness :
  auth_pae_state (Nat.iter 59 eapol_port_timers_tick
    (AUTH_PAE_HELD_Enter false (run_inputs [PortEnabled true] sample_alloc))) = AUTH_PAE_HELD /\
  auth_pae_state (Nat.iter 100 eapol_port_timers_tick
    (AUTH_PAE_HELD_Enter false (run_inputs [PortEnabled true; SetConf (str "quietPeriod") (str "-1")] sample_alloc)))
  = AUTH_PAE_HELD.
Proof.
  split.
  - apply (held_lasts 60 59 false (run_inputs [PortEnabled true] sample_alloc));
      [reflexivity|reflexivity|reflexivity|reflexivity|split; [discriminate|intros e i Hi; exact Hi]|reflexivity|lia].
  - apply (held_lasts (-1) 100 false
      (run_inputs [PortEnabled true; SetConf (str "quietPeriod") (str "-1")] sample_alloc));
      [reflexivity|reflexivity|reflexivity|reflexivity|split; [discriminate|intros e i Hi; exact Hi]|reflexivity|lia].
Defined.
