(* ===== verification/Prf.v ===== *)
(** * Key derivation (src/hostapd-2.5/src/crypto/sha1-prf.c, sha256-prf.c, src/common/wpa_common.c)

    The pseudo-random functions over the HMACs of [Digests], and the pairwise
    keys and the PMK identifier derived with them.  A label is the list of its
    characters.  The callers ignore a failing HMAC; the key they then copy out
    of their stack is an error here. *)

From S2P Require Import Prelude BlockCipher HexText AesCtr AesOmac EapolKey.

Definition SHA1_MAC_LEN : Z := 20.
Definition SHA256_MAC_LEN : Z := 32.
Definition ETH_ALEN : Z := 6.
Definition WPA_NONCE_LEN : Z := 32.
Definition PMK_LEN : Z := 32.

Section Prf.
Context {DG : Digests}.

(** *** sha1_prf: the value returned and the buffer *)

Fixpoint sha1_prf_loop (fuel : nat) (key msg : list Z) (counter pos buf_len : Z) (buf : list Z) : M (Z * list Z) :=
  match fuel with
  | O => Err OutOfFuel
  | S fuel =>
      if pos <? buf_len then
        let plen := buf_len - pos in
        match hmac_sha1 key (msg ++ [counter]) with
        | None => Ok (-1, buf)
        | Some hash =>
            if SHA1_MAC_LEN <=? plen then
              buf ← blit buf pos hash;
              sha1_prf_loop fuel key msg (u8 (counter + 1)) (pos + SHA1_MAC_LEN) buf_len buf
            else
              h ← get hash 0 plen;
              buf ← blit buf pos h;
              Ok (0, buf)
        end
      else Ok (0, buf)
  end.

Definition sha1_prf (key label data buf : list Z) (buf_len : Z) : M (Z * list Z) :=
  sha1_prf_loop (S (Z.to_nat buf_len)) key (label ++ [0] ++ data) 0 0 buf_len buf.

(** *** sha256_prf: the buffer *)

Fixpoint sha256_prf_loop (fuel : nat) (key msg length_le : list Z) (counter pos buf_len : Z) (buf : list Z) : M (list Z * Z) :=
  match fuel with
  | O => Err OutOfFuel
  | S fuel =>
      if pos <? buf_len then
        let plen := buf_len - pos in
        match hmac_sha256 key (to_le 2 counter ++ msg ++ length_le) with
        | None => Err Uninitialised
        | Some hash =>
            if SHA256_MAC_LEN <=? plen then
              buf ← blit buf pos hash;
              sha256_prf_loop fuel key msg length_le (u16 (counter + 1)) (pos + SHA256_MAC_LEN) buf_len buf
            else
              h ← get hash 0 plen;
              buf ← blit buf pos h;
              Ok (buf, pos + plen)
        end
      else Ok (buf, pos)
  end.

Definition sha256_prf_bits (key label data buf : list Z) (buf_len_bits : Z) : M (list Z) :=
  let buf_len := (buf_len_bits + 7) / 8 in
  '(buf, pos) ← sha256_prf_loop (S (Z.to_nat buf_len)) key (label ++ data) (to_le 2 buf_len_bits) 1 0 buf_len buf;
  if negb (buf_len_bits mod 8 =? 0) then
    b ← rd buf (pos - 1);
    wr buf (pos - 1) (Z.land b (u8 (Z.shiftl 0xff (8 - buf_len_bits mod 8))))
  else Ok buf.

Definition sha256_prf (key label data buf : list Z) (buf_len : Z) : M (list Z) :=
  sha256_prf_bits key label data buf (buf_len * 8).

(** *** wpa_pmk_to_ptk and rsn_pmkid *)

Definition wpa_kck_len (akmp : Z) : Z := if akmp =? WPA_KEY_MGMT_IEEE8021X_SUITE_B_192 then 24 else 16.
Definition wpa_kek_len (akmp : Z) : Z := if akmp =? WPA_KEY_MGMT_IEEE8021X_SUITE_B_192 then 32 else 16.

(** [os_memcmp(a, b, n) < 0] for arrays of [n] bytes *)
Fixpoint memcmp_lt (a b : list Z) : bool :=
  match a, b with
  | x :: a, y :: b => if x =? y then memcmp_lt a b else x <? y
  | _, _ => false
  end.

Definition min_max (a b : list Z) : list Z := if memcmp_lt a b then a ++ b else b ++ a.

Definition wpa_pmk_to_ptk (pmk label addr1 addr2 nonce1 nonce2 : list Z) (akmp cipher : Z) : M wpa_ptk :=
  let data := min_max addr1 addr2 ++ min_max nonce1 nonce2 in
  let ptk_len := wpa_kck_len akmp + wpa_kek_len akmp + wpa_cipher_key_len cipher in
  let tmp := replicate 88 0 in
  tmp ← (if wpa_key_mgmt_sha256 akmp then sha256_prf pmk label data tmp ptk_len
         else
           '(r, tmp) ← sha1_prf pmk label data tmp ptk_len;
           if r =? 0 then Ok tmp else Err Uninitialised);
  k1 ← get tmp 0 (wpa_kck_len akmp);
  k2 ← get tmp (wpa_kck_len akmp) (wpa_kek_len akmp);
  k3 ← get tmp (wpa_kck_len akmp + wpa_kek_len akmp) (wpa_cipher_key_len cipher);
  Ok (mkPtk k1 k2 k3).

(** "PMK Name" *)
Definition pmk_name : list Z := [80; 77; 75; 32; 78; 97; 109; 101].

Definition rsn_pmkid (pmk aa spa : list Z) (use_sha256 : bool) : M (list Z) :=
  match (if use_sha256 then hmac_sha256 else hmac_sha1) pmk (pmk_name ++ aa ++ spa) with
  | None => Err Uninitialised
  | Some hash => get hash 0 PMKID_LEN
  end.

(** ** Reference: the bytes of a pseudo-random function *)

Definition the_hash (h : list Z -> list Z -> option (list Z)) (key msg : list Z) : list Z := default [] (h key msg).

(** the first [n] bytes of the blocks with the numbers [c], [c + 1], ... *)
Definition prf_bytes (block : Z -> list Z) (c n : Z) : list Z := take (Z.to_nat n) (concat (map block (seqZ c n))).

Definition sha1_block (key label data : list Z) (i : Z) : list Z := the_hash hmac_sha1 key (label ++ [0] ++ data ++ [i]).
Definition sha256_block (key label data : list Z) (bits i : Z) : list Z :=
  the_hash hmac_sha256 key (to_le 2 i ++ label ++ data ++ to_le 2 bits).

(** the key derivation the code chooses for an AKM *)
Definition kdf (akmp : Z) (key label data : list Z) (n : Z) : list Z :=
  if wpa_key_mgmt_sha256 akmp then prf_bytes (sha256_block key label data (n * 8)) 1 n
  else prf_bytes (sha1_block key label data) 0 n.

(** *** IEEE 802.11: the hierarchy of pairwise keys *)

(** PRF of 11.6.1.2 with counter octets from 0, and KDF of 11.6.1.7.2 with 16-bit counters from 1 *)
Inductive akm_hash := PRF_SHA1 | KDF_SHA256.
Definition standard_kdf (h : akm_hash) (key label data : list Z) (n : Z) : list Z :=
  match h with
  | PRF_SHA1 => prf_bytes (sha1_block key label data) 0 n
  | KDF_SHA256 => prf_bytes (sha256_block key label data (n * 8)) 1 n
  end.
End Prf.

#[export] Instance akm_hash_eq_dec : EqDecision akm_hash. Proof. solve_decision. Defined.

(** the key derivation and the bits of KCK and KEK of an AKM (tables 8-101 and 11-9, Hotspot 2.0 for OSEN);
    these are the AKMs of the build: Suite B at 192 bits, SAE and fast transition are not compiled in *)
Definition akm_table : list (Z * (akm_hash * Z * Z)) :=
  [ (WPA_KEY_MGMT_IEEE8021X, (PRF_SHA1, 128, 128));
    (WPA_KEY_MGMT_PSK, (PRF_SHA1, 128, 128));
    (WPA_KEY_MGMT_IEEE8021X_SHA256, (KDF_SHA256, 128, 128));
    (WPA_KEY_MGMT_PSK_SHA256, (KDF_SHA256, 128, 128));
    (WPA_KEY_MGMT_OSEN, (KDF_SHA256, 128, 128));
    (WPA_KEY_MGMT_IEEE8021X_SUITE_B, (KDF_SHA256, 128, 128)) ].
(** the bits of the temporal key of a pairwise cipher (table 11-4) *)
Definition tk_table : list (Z * Z) :=
  [ (WPA_CIPHER_TKIP, 256); (WPA_CIPHER_CCMP, 128); (WPA_CIPHER_GCMP, 128); (WPA_CIPHER_CCMP_256, 256); (WPA_CIPHER_GCMP_256, 256) ].
(** Min and Max of addresses and nonces, compared as numbers whose first octet is the most significant *)
Definition octets_min (a b : list Z) : list Z := if be a <=? be b then a else b.
Definition octets_max (a b : list Z) : list Z := if be a <=? be b then b else a.

(** no HMAC fails *)
Class DigestsTotal `{Digests} : Prop := {
  hmac_md5_total k d : is_Some (hmac_md5 k d);
  hmac_sha1_total k d : is_Some (hmac_sha1 k d);
  hmac_sha256_total k d : is_Some (hmac_sha256 k d) }.

(** ** Lemmas *)

Lemma prf_bytes_block block c n k : 0 < k <= n -> (forall i, zlen (block i) = k) ->
  prf_bytes block c n = block c ++ prf_bytes block (c + 1) (n - k).
Proof.
  intros Hk Hb. unfold prf_bytes. rewrite (seqZ_cons c n) by lia. cbn [map concat].
  assert (length (block c) = Z.to_nat k) as L by (specialize (Hb c); unfold zlen in Hb; lia).
  replace (Z.to_nat n) with (length (block c) + Z.to_nat (n - k))%nat by lia. rewrite take_app_add. f_equal.
  replace (Z.pred n) with ((n - k) + (k - 1)) by lia. rewrite seqZ_app by lia. replace (Z.succ c) with (c + 1) by lia.
  rewrite map_app, concat_app. assert (forall l, length (concat (map block l)) = (Z.to_nat k * length l)%nat) as Hl.
  { induction l as [|x l IH]; [simpl; lia|]. cbn [map concat length]. rewrite length_app, IH.
    specialize (Hb x). unfold zlen in Hb. lia. }
  rewrite take_app_le; [done|]. rewrite Hl, length_seqZ. nia.
Qed.

Lemma prf_bytes_last block c n k : 0 < n <= k -> (forall i, zlen (block i) = k) ->
  prf_bytes block c n = take (Z.to_nat n) (block c).
Proof.
  intros Hn Hb. unfold prf_bytes. rewrite (seqZ_cons c n) by lia. cbn [map concat]. apply take_app_le.
  specialize (Hb c). unfold zlen in Hb. lia.
Qed.

Lemma prf_bytes_0 block c n : n <= 0 -> prf_bytes block c n = [].
Proof. intros. unfold prf_bytes. by replace (Z.to_nat n) with 0%nat by lia. Qed.

Lemma length_prf block c n k : 0 < k -> (forall i, zlen (block i) = k) -> length (prf_bytes block c n) = Z.to_nat n.
Proof.
  intros Hk Hb. unfold prf_bytes. rewrite length_take. assert (forall l, length (concat (map block l)) = (Z.to_nat k * length l)%nat) as Hl.
  { induction l as [|x l IH]; [simpl; lia|]. cbn [map concat length]. rewrite length_app, IH.
    specialize (Hb x). unfold zlen in Hb. lia. }
  rewrite Hl, length_seqZ. nia.
Qed.

Lemma blit_mid (head mid tail y : list Z) n : n = zlen head -> zlen y = zlen mid ->
  blit (head ++ mid ++ tail) n y = Ok (head ++ y ++ tail).
Proof. intros. by apply blit_app. Qed.

(** write a block in front of what is left of the buffer *)
Lemma blit_front (head mid tail y : list Z) n : n = zlen head -> zlen y <= zlen mid ->
  blit (head ++ mid ++ tail) n y = Ok ((head ++ y) ++ drop (length y) mid ++ tail).
Proof.
  intros -> Hy. assert (mid = take (length y) mid ++ drop (length y) mid) as Em by (by rewrite take_drop).
  rewrite Em at 1. rewrite <- (app_assoc (take _ _)). rewrite blit_app; [by rewrite <- app_assoc|done|].
  unfold zlen in *. rewrite length_take. lia.
Qed.

Section Laws.
Context {DG : Digests} {DL : DigestsLaws} {DT : DigestsTotal}.

Lemma sha1_block_20 key label data i : zlen (sha1_block key label data i) = 20.
Proof.
  unfold sha1_block, the_hash. destruct (hmac_sha1_total key (label ++ [0] ++ data ++ [i])) as [m E].
  rewrite E. by apply hmac_sha1_20 in E as [].
Qed.

Lemma sha256_block_32 key label data bits i : zlen (sha256_block key label data bits i) = 32.
Proof.
  unfold sha256_block, the_hash. destruct (hmac_sha256_total key (to_le 2 i ++ label ++ data ++ to_le 2 bits)) as [m E].
  rewrite E. by apply hmac_sha256_32 in E as [].
Qed.

Lemma sha1_prf_loop_spec fuel key label data head mid tail c pos n :
  pos = zlen head -> n = pos + zlen mid -> pos = 20 * c -> 0 <= c -> n < 20 * 256 -> (Z.to_nat (zlen mid) < fuel)%nat ->
  sha1_prf_loop fuel key (label ++ [0] ++ data) c pos n (head ++ mid ++ tail) =
    Ok (0, head ++ prf_bytes (sha1_block key label data) c (zlen mid) ++ tail).
Proof.
  revert head mid c pos. induction fuel as [|fuel IH]; intros head mid c pos Hp Hn Hc H0 H256 Hf; [lia|].
  pose proof (zlen_nonneg mid). cbn [sha1_prf_loop]. destruct (Z.ltb_spec pos n).
  2: { rewrite prf_bytes_0 by lia. destruct mid; [done|autorewrite with arr in *; pose proof (zlen_nonneg mid); lia]. }
  pose proof (sha1_block_20 key label data) as H20.
  assert (hmac_sha1 key ((label ++ [0] ++ data) ++ [c]) = Some (sha1_block key label data c)) as ->.
  { unfold sha1_block, the_hash. rewrite <- !app_assoc. destruct (hmac_sha1_total key (label ++ [0] ++ data ++ [c])) as [m E]. by rewrite E. }
  unfold SHA1_MAC_LEN. destruct (Z.leb_spec 20 (n - pos)).
  - rewrite blit_front, bind_ok by (rewrite ?H20; lia). specialize (H20 c). unfold zlen in H20. unfold u8. rewrite Z.mod_small by lia.
    rewrite IH; unfold zlen in *; rewrite ?length_app, ?length_drop; try lia.
    rewrite (prf_bytes_block _ c (Z.of_nat (length mid)) 20); [|lia|intros; apply sha1_block_20].
    rewrite <- !app_assoc. do 5 f_equal. f_equal. lia.
  - rewrite <- (take_drop (Z.to_nat (n - pos)) (sha1_block key label data c)) at 1. specialize (H20 c). unfold zlen in H20.
    rewrite get_head by (unfold zlen; rewrite length_take; lia). rewrite bind_ok, blit_mid, bind_ok by (unfold zlen in *; rewrite ?length_take; lia).
    rewrite (prf_bytes_last _ c (zlen mid) 20); [|unfold zlen in *; lia|intros; apply sha1_block_20]. do 5 f_equal. lia.
Qed.

Lemma sha256_prf_loop_spec fuel key label data bits head mid tail c pos n :
  pos = zlen head -> n = pos + zlen mid -> pos = 32 * (c - 1) -> 1 <= c -> n < 32 * 256 -> (Z.to_nat (zlen mid) < fuel)%nat ->
  sha256_prf_loop fuel key (label ++ data) (to_le 2 bits) c pos n (head ++ mid ++ tail) =
    Ok (head ++ prf_bytes (sha256_block key label data bits) c (zlen mid) ++ tail, n).
Proof.
  revert head mid c pos. induction fuel as [|fuel IH]; intros head mid c pos Hp Hn Hc H0 H256 Hf; [lia|].
  pose proof (zlen_nonneg mid). cbn [sha256_prf_loop]. destruct (Z.ltb_spec pos n).
  2: { rewrite prf_bytes_0 by lia. replace pos with n by lia. destruct mid; [done|autorewrite with arr in *; pose proof (zlen_nonneg mid); lia]. }
  pose proof (sha256_block_32 key label data bits) as H32.
  assert (hmac_sha256 key (to_le 2 c ++ (label ++ data) ++ to_le 2 bits) = Some (sha256_block key label data bits c)) as ->.
  { unfold sha256_block, the_hash. rewrite <- !app_assoc.
    destruct (hmac_sha256_total key (to_le 2 c ++ label ++ data ++ to_le 2 bits)) as [m E]. by rewrite E. }
  unfold SHA256_MAC_LEN. destruct (Z.leb_spec 32 (n - pos)).
  - rewrite blit_front, bind_ok by (rewrite ?H32; lia). specialize (H32 c). unfold zlen in H32. unfold u16. rewrite Z.mod_small by lia.
    rewrite IH; unfold zlen in *; rewrite ?length_app, ?length_drop; try lia.
    rewrite (prf_bytes_block _ c (Z.of_nat (length mid)) 32); [|lia|intros; apply sha256_block_32].
    rewrite <- !app_assoc. do 5 f_equal. f_equal. lia.
  - rewrite <- (take_drop (Z.to_nat (n - pos)) (sha256_block key label data bits c)) at 1. specialize (H32 c). unfold zlen in H32.
    rewrite get_head by (unfold zlen; rewrite length_take; lia). rewrite bind_ok, blit_mid, bind_ok by (unfold zlen in *; rewrite ?length_take; lia).
    rewrite (prf_bytes_last _ c (zlen mid) 32); [|unfold zlen in *; lia|intros; apply sha256_block_32]. do 4 f_equal; [do 2 f_equal; lia|lia].
Qed.

Lemma sha1_prf_spec key label data buf tail n : n = zlen buf -> n < 20 * 256 ->
  sha1_prf key label data (buf ++ tail) n = Ok (0, prf_bytes (sha1_block key label data) 0 n ++ tail).
Proof. intros -> Hn. unfold sha1_prf. apply (sha1_prf_loop_spec _ _ _ _ [] buf tail); try done; lia. Qed.

Lemma sha256_prf_spec key label data buf tail n : n = zlen buf -> n < 32 * 256 ->
  sha256_prf key label data (buf ++ tail) n = Ok (prf_bytes (sha256_block key label data (n * 8)) 1 n ++ tail).
Proof.
  intros -> Hn. unfold sha256_prf, sha256_prf_bits.
  assert ((zlen buf * 8 + 7) / 8 = zlen buf) as -> by (symmetry; apply Z.div_unique with 7; lia).
  assert (zlen buf * 8 mod 8 = 0) as -> by (apply Z.mod_mul; lia). cbn [Z.eqb negb].
  rewrite (sha256_prf_loop_spec _ _ _ _ _ [] buf tail); [done|done|done|done|lia..].
Qed.

Lemma length_kdf akmp key label data n : zlen (kdf akmp key label data n) = Z.max 0 n.
Proof.
  unfold kdf, zlen. destruct (wpa_key_mgmt_sha256 akmp).
  - rewrite (length_prf _ _ _ 32); [lia|lia|apply sha256_block_32].
  - rewrite (length_prf _ _ _ 20); [lia|lia|apply sha1_block_20].
Qed.

Lemma key_lengths akmp cipher : 16 <= wpa_kck_len akmp <= 24 /\ 16 <= wpa_kek_len akmp <= 32 /\ 0 <= wpa_cipher_key_len cipher <= 32.
Proof. unfold wpa_kck_len, wpa_kek_len, wpa_cipher_key_len. repeat case_match; lia. Qed.

Lemma split3 (l : list Z) a b c : zlen l = a + b + c -> 0 <= a -> 0 <= b -> 0 <= c ->
  exists l1 l2 l3, l = l1 ++ l2 ++ l3 /\ zlen l1 = a /\ zlen l2 = b /\ zlen l3 = c.
Proof.
  intros. exists (take (Z.to_nat a) l), (take (Z.to_nat b) (drop (Z.to_nat a) l)), (drop (Z.to_nat b) (drop (Z.to_nat a) l)).
  rewrite !take_drop. split; [done|]. unfold zlen in *. rewrite !length_take, !length_drop. lia.
Qed.

(** the PTK as the parts of what the KDF gives *)
Lemma wpa_pmk_to_ptk_spec pmk label a1 a2 n1 n2 akmp cipher :
  exists k1 k2 k3, wpa_pmk_to_ptk pmk label a1 a2 n1 n2 akmp cipher = Ok (mkPtk k1 k2 k3) /\
    zlen k1 = wpa_kck_len akmp /\ zlen k2 = wpa_kek_len akmp /\ zlen k3 = wpa_cipher_key_len cipher /\
    k1 ++ k2 ++ k3 = kdf akmp pmk label (min_max a1 a2 ++ min_max n1 n2)
      (wpa_kck_len akmp + wpa_kek_len akmp + wpa_cipher_key_len cipher).
Proof.
  unfold wpa_pmk_to_ptk. destruct (key_lengths akmp cipher) as (H1 & H2 & H3).
  set (data := min_max a1 a2 ++ min_max n1 n2). set (n := wpa_kck_len akmp + wpa_kek_len akmp + wpa_cipher_key_len cipher).
  assert (n = wpa_kck_len akmp + wpa_kek_len akmp + wpa_cipher_key_len cipher) as En by done. clearbody n.
  set (K := kdf akmp pmk label data n). assert (zlen K = n) as HK by (unfold K; rewrite length_kdf; lia).
  assert (replicate 88 0 = replicate (Z.to_nat n) 0 ++ replicate (88 - Z.to_nat n) 0) as -> by (rewrite <- replicate_add; f_equal; lia).
  assert (zlen (replicate (Z.to_nat n) 0) = n) as Hr by (unfold zlen; rewrite length_replicate; lia).
  assert ((if wpa_key_mgmt_sha256 akmp then sha256_prf pmk label data (replicate (Z.to_nat n) 0 ++ replicate (88 - Z.to_nat n) 0) n
    else '(r, tmp) ← sha1_prf pmk label data (replicate (Z.to_nat n) 0 ++ replicate (88 - Z.to_nat n) 0) n;
         if r =? 0 then Ok tmp else Err Uninitialised) = Ok (K ++ replicate (88 - Z.to_nat n) 0)) as ->.
  { unfold K, kdf. destruct (wpa_key_mgmt_sha256 akmp); [apply sha256_prf_spec; lia|]. by rewrite sha1_prf_spec by lia. }
  rewrite bind_ok.
  destruct (split3 K _ _ _ (eq_trans HK En)) as (k1 & k2 & k3 & EK & L1 & L2 & L3); [lia..|].
  exists k1, k2, k3. rewrite EK, <- !app_assoc. rewrite (get_head k1), bind_ok by lia. rewrite (get_app k1 k2 _ (wpa_kck_len akmp)), bind_ok by lia.
  rewrite (app_assoc k1 k2), (get_app (k1 ++ k2) k3), bind_ok by (rewrite ?zlen_app; lia). done.
Qed.

Lemma memcmp_lt_swap a b : length a = length b -> memcmp_lt a b = false -> memcmp_lt b a = false -> a = b.
Proof.
  revert b. induction a as [|x a IH]; intros [|y b] Hl H1 H2; cbn in *; try done. rewrite Z.eqb_sym in H2.
  destruct (Z.eqb_spec x y) as [->|]; [f_equal; apply IH; [lia|done|done]|lia].
Qed.

Lemma memcmp_lt_asym a b : memcmp_lt a b = true -> memcmp_lt b a = false.
Proof.
  revert b. induction a as [|x a IH]; intros [|y b]; cbn; try done. rewrite (Z.eqb_sym y x).
  destruct (Z.eqb_spec x y); [apply IH|lia].
Qed.

Lemma min_max_comm a b : length a = length b -> min_max a b = min_max b a.
Proof.
  intros Hl. unfold min_max. destruct (memcmp_lt a b) eqn:E1; [by rewrite (memcmp_lt_asym a b E1)|].
  destruct (memcmp_lt b a) eqn:E2; [done|]. by rewrite (memcmp_lt_swap a b Hl E1 E2).
Qed.

(** the lexical order is the order of the numbers *)
Lemma memcmp_lt_be a b : bytes a -> bytes b -> length a = length b -> memcmp_lt a b = (be a <? be b).
Proof.
  intros Ha. revert b. induction Ha as [|x a Hx Ha IH]; intros [|y b] Hb Hl; try done. apply Forall_cons_1 in Hb as [Hy Hb].
  cbn [memcmp_lt]. rewrite !be_cons. injection Hl as Hl. assert (zlen a = zlen b) as Hz by (unfold zlen; by rewrite Hl). rewrite Hz.
  pose proof (be_range a Ha) as R1. pose proof (be_range b Hb) as R2. rewrite Hz in R1.
  destruct (Z.eqb_spec x y) as [->|Hne].
  - rewrite IH by done. destruct (Z.ltb_spec (be a) (be b)); destruct (Z.ltb_spec (y * 256 ^ zlen b + be a) (y * 256 ^ zlen b + be b)); lia.
  - destruct (Z.ltb_spec x y); destruct (Z.ltb_spec (x * 256 ^ zlen b + be a) (y * 256 ^ zlen b + be b)); nia.
Qed.

Lemma be_inj a b : bytes a -> bytes b -> length a = length b -> be a = be b -> a = b.
Proof.
  intros Ha Hb Hl E. apply memcmp_lt_swap; [done| |]; rewrite memcmp_lt_be by done; lia.
Qed.

Lemma min_max_standard a b : bytes a -> bytes b -> length a = length b -> min_max a b = octets_min a b ++ octets_max a b.
Proof.
  intros Ha Hb Hl. unfold min_max, octets_min, octets_max. rewrite memcmp_lt_be by done.
  destruct (Z.ltb_spec (be a) (be b)); destruct (Z.leb_spec (be a) (be b)); try lia; try done.
  by rewrite (be_inj a b Ha Hb Hl) by lia.
Qed.

Lemma akm_standard akmp h kck_bits kek_bits : (akmp, (h, kck_bits, kek_bits)) ∈ akm_table ->
  wpa_kck_len akmp * 8 = kck_bits /\ wpa_kek_len akmp * 8 = kek_bits /\ kdf akmp = standard_kdf h.
Proof.
  intros Hin. unfold akm_table in Hin. repeat (apply elem_of_cons in Hin as [[= -> -> -> ->]|Hin]; [done|]). by apply not_elem_of_nil in Hin.
Qed.
Lemma tk_standard cipher tk_bits : (cipher, tk_bits) ∈ tk_table -> wpa_cipher_key_len cipher * 8 = tk_bits.
Proof.
  intros Hin. unfold tk_table in Hin. repeat (apply elem_of_cons in Hin as [[= -> ->]|Hin]; [done|]). by apply not_elem_of_nil in Hin.
Qed.

(** C27: both ends of the handshake derive the same PTK, and it is the one of
    IEEE 802.11: for every AKM and cipher wpa_pmk_to_ptk gives the same keys for
    (AA, SPA, ANonce, SNonce) and (SPA, AA, SNonce, ANonce); for the AKMs of the
    build (802.1X and PSK with SHA-1 or SHA-256, OSEN, Suite B at 128 bits) and
    the ciphers of the standard they have the lengths of its tables and are, one
    after the other, the output of the AKM's key derivation function on
    Min(AA, SPA), Max(AA, SPA), Min(ANonce, SNonce), Max(ANonce, SNonce). *)
Theorem ptk_agreement (pmk label aa spa anonce snonce : list Z) (akmp cipher : Z) :
  bytes aa -> bytes spa -> bytes anonce -> bytes snonce ->
  length aa = length spa -> length anonce = length snonce ->
  exists ptk,
    wpa_pmk_to_ptk pmk label aa spa anonce snonce akmp cipher = Ok ptk /\
    wpa_pmk_to_ptk pmk label spa aa snonce anonce akmp cipher = Ok ptk /\
    forall h kck_bits kek_bits tk_bits,
      (akmp, (h, kck_bits, kek_bits)) ∈ akm_table -> (cipher, tk_bits) ∈ tk_table ->
      zlen (kck ptk) * 8 = kck_bits /\ zlen (kek ptk) * 8 = kek_bits /\ zlen (tk ptk) * 8 = tk_bits /\
      kck ptk ++ kek ptk ++ tk ptk =
        standard_kdf h pmk label
          (octets_min aa spa ++ octets_max aa spa ++ octets_min anonce snonce ++ octets_max anonce snonce)
          ((kck_bits + kek_bits + tk_bits) / 8).
Proof.
  intros B1 B2 B3 B4 Ha Hn.
  destruct (wpa_pmk_to_ptk_spec pmk label aa spa anonce snonce akmp cipher) as (k1 & k2 & k3 & E & H1 & H2 & H3 & HK).
  exists (mkPtk k1 k2 k3). split; [done|]. split.
  - revert E. unfold wpa_pmk_to_ptk. by rewrite (min_max_comm aa spa Ha), (min_max_comm anonce snonce Hn).
  - intros h b1 b2 b3 Hakm Htk. apply akm_standard in Hakm as (<- & <- & <-). apply tk_standard in Htk as <-.
    cbn [kck kek tk]. rewrite H1, H2, H3, HK. split; [done|]. split; [done|]. split; [done|].
    rewrite !min_max_standard, <- !app_assoc by done. f_equal. rewrite <- !Z.mul_add_distr_r. by rewrite Z.div_mul by lia.
Qed.
End Laws.

#[export] Instance toy_digests_total : DigestsTotal.
Proof. split; intros; by eexists. Qed.

(** the station has the smaller address and the larger nonce *)
Lemma ptk_agreement_witness :
  exists ptk,
    wpa_pmk_to_ptk (replicate 32 7) pmk_name (seqZ 10 6) (seqZ 0 6) (seqZ 0 32) (seqZ 50 32) WPA_KEY_MGMT_PSK_SHA256 WPA_CIPHER_CCMP = Ok ptk /\
    wpa_pmk_to_ptk (replicate 32 7) pmk_name (seqZ 0 6) (seqZ 10 6) (seqZ 50 32) (seqZ 0 32) WPA_KEY_MGMT_PSK_SHA256 WPA_CIPHER_CCMP = Ok ptk /\
    zlen (tk ptk) * 8 = 128 /\
    kck ptk ++ kek ptk ++ tk ptk =
      standard_kdf KDF_SHA256 (replicate 32 7) pmk_name (seqZ 0 6 ++ seqZ 10 6 ++ seqZ 0 32 ++ seqZ 50 32) 48.
Proof.
  destruct (ptk_agreement (replicate 32 7) pmk_name (seqZ 10 6) (seqZ 0 6) (seqZ 0 32) (seqZ 50 32)
    WPA_KEY_MGMT_PSK_SHA256 WPA_CIPHER_CCMP) as (ptk & E1 & E2 & H);
    [by apply (bool_decide_unpack _)..|reflexivity|reflexivity|].
  destruct (H KDF_SHA256 128 128 128) as (_ & _ & Et & EK); [by apply (bool_decide_unpack _)..|].
  exists ptk. split; [exact E1|]. split; [exact E2|]. split; [exact Et|]. exact EK.
Defined.
