(* ===== verification/WpaState.v ===== *)
(** * The WPA authenticator: one station and the group

    Models the state of src/hostapd-2.5/src/ap/wpa_auth_i.h and, from wpa_auth.c, sending,
    the replay counters, the group keys, the PTK derivation and what the 4-way
    and the group key state machines do on entering a state and in one step.
    WpaAuth.v adds what visits several stations.

    There is one group: stations of other VLANs are not modelled, nor is
    PeerKey (conf.peerkey is 0).  [st] is a station with what it shares.  The
    members are the constructors of [wflag], [wnum], ...; [isset f s] and
    [val n s] read them.  The calls out ([WpaEnv]) answer by the number of
    calls made before, [tick]; what a station's machines do to the outside,
    and the frames it receives, are recorded in [slog], newest first. *)

From stdpp Require Import functions.
From S2P Require Import Prelude BlockCipher CText HexText AesCtr AesCcm EapolKey Prf.

(** ** wpa_auth_i.h *)

Inductive ptk_state :=
| WPA_PTK_INITIALIZE | WPA_PTK_DISCONNECT | WPA_PTK_DISCONNECTED | WPA_PTK_AUTHENTICATION | WPA_PTK_AUTHENTICATION2
| WPA_PTK_INITPMK | WPA_PTK_INITPSK | WPA_PTK_PTKSTART | WPA_PTK_PTKCALCNEGOTIATING | WPA_PTK_PTKCALCNEGOTIATING2
| WPA_PTK_PTKINITNEGOTIATING | WPA_PTK_PTKINITDONE.
Inductive ptk_group_state :=
| WPA_PTK_GROUP_IDLE | WPA_PTK_GROUP_REKEYNEGOTIATING | WPA_PTK_GROUP_REKEYESTABLISHED | WPA_PTK_GROUP_KEYERROR.
Inductive group_state :=
| WPA_GROUP_GTK_INIT | WPA_GROUP_SETKEYS | WPA_GROUP_SETKEYSDONE | WPA_GROUP_FATAL_FAILURE.

(** the Boolean and one-bit members, and two variables of the EAPOL machines
    that the callbacks read and write *)
Inductive wflag :=
| Init | DeauthenticationRequest | AuthenticationRequest | ReAuthenticationRequest | Disconnect | TimeoutEvt
| EAPOLKeyReceived | EAPOLKeyPairwise | EAPOLKeyRequest | MICVerified | GUpdateStationKeys | PTK_valid | pairwise_set
| Pair | PInitAKeys | PTKRequest | has_GTK | PtkGroupInit | changed | in_step_loop | pending_deinit | started
| mgmt_frame_prot | rx_eapol_key_secure | update_snonce | alt_snonce_valid | is_wnmsleep | req_replay_counter_used
| pending_1_of_4_timeout | keyRun | keyAvailable.
Inductive wnum := TimeoutCtr | GTimeoutCtr | keycount | wpa | pairwise | wpa_key_mgmt | RemoteMICFailures.
Inductive wstr := ANonce | SNonce | alt_SNonce | alt_replay_counter | PMK | req_replay_counter.
Inductive gflag := GInit | GTKReKey | GTKAuthenticator | gchanged | first_sta_seen | reject_4way_hs_for_entropy.
Inductive gnum := GKeyDoneStations | GTK_len | GN | GM | GN_igtk | GM_igtk | HandshakeFailures | AuthRemoteMICFailures.
Inductive gstr := Counter | GMK | GNonce.

#[export] Instance ptk_state_eq_dec : EqDecision ptk_state. Proof. solve_decision. Defined.
#[export] Instance ptk_group_state_eq_dec : EqDecision ptk_group_state. Proof. solve_decision. Defined.
#[export] Instance group_state_eq_dec : EqDecision group_state. Proof. solve_decision. Defined.
#[export] Instance wflag_eq_dec : EqDecision wflag. Proof. solve_decision. Defined.
#[export] Instance wnum_eq_dec : EqDecision wnum. Proof. solve_decision. Defined.
#[export] Instance wstr_eq_dec : EqDecision wstr. Proof. solve_decision. Defined.
#[export] Instance gflag_eq_dec : EqDecision gflag. Proof. solve_decision. Defined.
#[export] Instance gnum_eq_dec : EqDecision gnum. Proof. solve_decision. Defined.
#[export] Instance gstr_eq_dec : EqDecision gstr. Proof. solve_decision. Defined.

(** wpa_eapol_variable *)
Inductive eapol_var := WPA_EAPOL_portEnabled | WPA_EAPOL_portValid | WPA_EAPOL_authorized | WPA_EAPOL_portControl_Auto
| WPA_EAPOL_keyRun | WPA_EAPOL_keyAvailable | WPA_EAPOL_keyDone | WPA_EAPOL_inc_EapolFramesTx.

(** what the outside does and sees *)
Inductive output :=
| ReceivedEapol (data : list Z)
| SetEapol (v : eapol_var) (value : Z)
| SendEapol (frame : list Z) (encrypt : bool)
| SetPairwiseKey (ptk : wpa_ptk) (key : list Z) (result : Z)
| RemovePairwiseKey
| DisconnectSta
| PskFailureReport
| EapolTimer (ms : Z) | CancelEapolTimer | RekeyPtkTimer (s : Z) | CancelRekeyPtkTimer.

Inductive group_output := SetGroupKey (idx : Z) (key : list Z) (result : Z).

Record key_replay_counter : Type := mkReplay { rc_counter : list Z; rc_valid : bool }.

(** what the station has from its association and the authentication server *)
Record association : Type := mkAssoc {
  sta_addr : list Z;
  assoc_wpa_ie : option (list Z);              (* sm->wpa_ie *)
  pmksa : option (list Z * list Z);            (* the PMK and the PMKID of the cache entry *)
  psks : list (list Z);                        (* what get_psk returns, in order *)
  msk : option (list Z) }.                     (* what get_msk returns *)

Record station : Type := mkStation {
  flag_of : wflag -> bool;
  num_of : wnum -> Z;
  str_of : wstr -> list Z;
  PTK : wpa_ptk;
  key_replay : list key_replay_counter;
  prev_key_replay : list key_replay_counter;
  last_rx_eapol_key : option (list Z);
  wpa_ptk_state : ptk_state;
  wpa_ptk_group_state : ptk_group_state;
  assoc : association;
  slog : list output }.

Record shared : Type := mkShared {
  gflag_of : gflag -> bool;
  gnum_of : gnum -> Z;
  gstr_of : gstr -> list Z;
  GTK : list (list Z);
  IGTK : list (list Z);
  wpa_group_state : group_state;
  tick : nat;
  glog : list group_output }.

Record st : Type := mkSt { sta : station; sh : shared }.

(** ** Members *)

Definition isset (f : wflag) (s : st) : bool := flag_of (sta s) f.
Definition val (n : wnum) (s : st) : Z := num_of (sta s) n.
Definition str (x : wstr) (s : st) : list Z := str_of (sta s) x.
Definition gisset (f : gflag) (x : shared) : bool := gflag_of x f.
Definition gval (n : gnum) (x : shared) : Z := gnum_of x n.
Definition gstr_val (y : gstr) (x : shared) : list Z := gstr_of x y.

Definition with_sta (f : station -> station) (s : st) : st := mkSt (f (sta s)) (sh s).
Definition with_sh (f : shared -> shared) (s : st) : st := mkSt (sta s) (f (sh s)).
(** an operation on the shared part *)
Definition on_sh {A} (f : shared -> M (A * shared)) (s : st) : M (A * st) := '(a, x) ← f (sh s); Ok (a, mkSt (sta s) x).

Definition sta_setf (f : wflag) (b : bool) (x : station) : station :=
  mkStation (<[f := b]> (flag_of x)) (num_of x) (str_of x) (PTK x) (key_replay x) (prev_key_replay x) (last_rx_eapol_key x) (wpa_ptk_state x) (wpa_ptk_group_state x) (assoc x) (slog x).
Definition sta_setn (n : wnum) (v : Z) (x : station) : station :=
  mkStation (flag_of x) (<[n := v]> (num_of x)) (str_of x) (PTK x) (key_replay x) (prev_key_replay x) (last_rx_eapol_key x) (wpa_ptk_state x) (wpa_ptk_group_state x) (assoc x) (slog x).
Definition sta_sets (y : wstr) (v : list Z) (x : station) : station :=
  mkStation (flag_of x) (num_of x) (<[y := v]> (str_of x)) (PTK x) (key_replay x) (prev_key_replay x) (last_rx_eapol_key x) (wpa_ptk_state x) (wpa_ptk_group_state x) (assoc x) (slog x).
Definition sta_set_PTK (p : wpa_ptk) (x : station) : station :=
  mkStation (flag_of x) (num_of x) (str_of x) (p) (key_replay x) (prev_key_replay x) (last_rx_eapol_key x) (wpa_ptk_state x) (wpa_ptk_group_state x) (assoc x) (slog x).
Definition sta_set_key_replay (k : list key_replay_counter) (x : station) : station :=
  mkStation (flag_of x) (num_of x) (str_of x) (PTK x) (k) (prev_key_replay x) (last_rx_eapol_key x) (wpa_ptk_state x) (wpa_ptk_group_state x) (assoc x) (slog x).
Definition sta_set_prev_key_replay (k : list key_replay_counter) (x : station) : station :=
  mkStation (flag_of x) (num_of x) (str_of x) (PTK x) (key_replay x) (k) (last_rx_eapol_key x) (wpa_ptk_state x) (wpa_ptk_group_state x) (assoc x) (slog x).
Definition sta_set_last_rx (d : option (list Z)) (x : station) : station :=
  mkStation (flag_of x) (num_of x) (str_of x) (PTK x) (key_replay x) (prev_key_replay x) (d) (wpa_ptk_state x) (wpa_ptk_group_state x) (assoc x) (slog x).
Definition sta_set_ptk_state (p : ptk_state) (x : station) : station :=
  mkStation (flag_of x) (num_of x) (str_of x) (PTK x) (key_replay x) (prev_key_replay x) (last_rx_eapol_key x) (p) (wpa_ptk_group_state x) (assoc x) (slog x).
Definition sta_set_ptk_group_state (p : ptk_group_state) (x : station) : station :=
  mkStation (flag_of x) (num_of x) (str_of x) (PTK x) (key_replay x) (prev_key_replay x) (last_rx_eapol_key x) (wpa_ptk_state x) (p) (assoc x) (slog x).
Definition sta_set_assoc (a : association) (x : station) : station :=
  mkStation (flag_of x) (num_of x) (str_of x) (PTK x) (key_replay x) (prev_key_replay x) (last_rx_eapol_key x) (wpa_ptk_state x) (wpa_ptk_group_state x) (a) (slog x).
Definition sta_emit (o : output) (x : station) : station :=
  mkStation (flag_of x) (num_of x) (str_of x) (PTK x) (key_replay x) (prev_key_replay x) (last_rx_eapol_key x) (wpa_ptk_state x) (wpa_ptk_group_state x) (assoc x) (o :: slog x).

Definition setf (f : wflag) (b : bool) : st -> st := with_sta (sta_setf f b).
Definition setn (n : wnum) (v : Z) : st -> st := with_sta (sta_setn n v).
Definition sets (y : wstr) (v : list Z) : st -> st := with_sta (sta_sets y v).
Definition set_PTK (p : wpa_ptk) : st -> st := with_sta (sta_set_PTK p).
Definition set_key_replay (k : list key_replay_counter) : st -> st := with_sta (sta_set_key_replay k).
Definition set_prev_key_replay (k : list key_replay_counter) : st -> st := with_sta (sta_set_prev_key_replay k).
Definition set_last_rx (d : option (list Z)) : st -> st := with_sta (sta_set_last_rx d).
Definition set_ptk_state (p : ptk_state) : st -> st := with_sta (sta_set_ptk_state p).
Definition set_ptk_group_state (p : ptk_group_state) : st -> st := with_sta (sta_set_ptk_group_state p).
Definition emit (o : output) : st -> st := with_sta (sta_emit o).

Definition gsetf (f : gflag) (b : bool) (x : shared) : shared :=
  mkShared (<[f := b]> (gflag_of x)) (gnum_of x) (gstr_of x) (GTK x) (IGTK x) (wpa_group_state x) (tick x) (glog x).
Definition gsetn (n : gnum) (v : Z) (x : shared) : shared :=
  mkShared (gflag_of x) (<[n := v]> (gnum_of x)) (gstr_of x) (GTK x) (IGTK x) (wpa_group_state x) (tick x) (glog x).
Definition gsets (y : gstr) (v : list Z) (x : shared) : shared :=
  mkShared (gflag_of x) (gnum_of x) (<[y := v]> (gstr_of x)) (GTK x) (IGTK x) (wpa_group_state x) (tick x) (glog x).
Definition gset_GTK (g : list (list Z)) (x : shared) : shared :=
  mkShared (gflag_of x) (gnum_of x) (gstr_of x) (g) (IGTK x) (wpa_group_state x) (tick x) (glog x).
Definition gset_IGTK (g : list (list Z)) (x : shared) : shared :=
  mkShared (gflag_of x) (gnum_of x) (gstr_of x) (GTK x) (g) (wpa_group_state x) (tick x) (glog x).
Definition gset_state (g : group_state) (x : shared) : shared :=
  mkShared (gflag_of x) (gnum_of x) (gstr_of x) (GTK x) (IGTK x) (g) (tick x) (glog x).
Definition gtick (x : shared) : shared :=
  mkShared (gflag_of x) (gnum_of x) (gstr_of x) (GTK x) (IGTK x) (wpa_group_state x) (S (tick x)) (glog x).
Definition gemit (o : group_output) (x : shared) : shared :=
  mkShared (gflag_of x) (gnum_of x) (gstr_of x) (GTK x) (IGTK x) (wpa_group_state x) (tick x) (o :: glog x).

(** [s |> f] is [f s]: the operations in the order of the code *)
Declare Scope wpa_scope.
Delimit Scope wpa_scope with wpa.
Notation "s |> f" := (f s) (at level 69, left associativity, only parsing) : wpa_scope.
Open Scope wpa_scope.

Definition when {A} (c : bool) (f : A -> A) (s : A) : A := if c then f s else s.

(** the members of struct wpa_auth_config and struct wpa_authenticator that are read *)
Record wpa_auth_config : Type := mkConf {
  conf_wpa : Z; conf_wpa_group : Z; conf_eapol_version : Z; conf_tx_status : bool; conf_disable_gtk : bool;
  conf_wpa_ptk_rekey : Z; conf_ieee80211w : bool; conf_group_mgmt_cipher : Z; conf_wpa_ie : list Z; conf_addr : list Z }.

(** the calls out of the authenticator: random numbers, the clock, the driver
    and the allocator.  A call that fails may have written its buffer. *)
Class WpaEnv : Type := {
  random_get_bytes : nat -> Z -> Z * list Z;
  random_pool_ready : nat -> bool;
  wpa_get_ntp_timestamp : nat -> list Z;
  group_address : list Z;                          (* the bytes of the pointer to the group *)
  wpa_auth_set_key : nat -> Z;
  wpa_auth_get_seqnum : nat -> Z -> option (list Z);
  wpa_auth_mic_failure_report : nat -> Z;
  os_malloc_ok : nat -> Z -> bool;
  frame_copy_ok : nat -> Z -> bool }.              (* os_malloc for the copy of a received frame *)

Definition dot11RSNAConfigGroupUpdateCount : Z := 4.
Definition dot11RSNAConfigPairwiseUpdateCount : Z := 4.
Definition eapol_key_timeout_first : Z := 100.
Definition eapol_key_timeout_subseq : Z := 1000.
Definition eapol_key_timeout_first_group : Z := 500.
Definition RSNA_MAX_EAPOL_RETRIES : Z := 4.
Definition WPA_REPLAY_COUNTER_LEN : Z := 8.
Definition WPA_KEY_RSC_LEN : Z := 8.
Definition WPA_GMK_LEN : Z := 32.
Definition WPA_IGTK_KDE_PREFIX_LEN : Z := 2 + 6.
Definition WPA_PROTO_RSN : Z := 2.
Definition WLAN_EID_RSN : Z := 48.
Definition WLAN_EID_MOBILITY_DOMAIN : Z := 54.

(** the PTK after os_memset *)
Definition no_ptk : wpa_ptk := mkPtk [] [] [].

(** wpa_common.c *)
Definition wpa_compare_rsn_ie (ie1 ie2 : option (list Z)) : Z :=
  match ie1, ie2 with
  | Some a, Some b => if bool_decide (a = b) then 0 else -1
  | _, _ => -1
  end.

Section Authenticator.
Context {ctx : Type} {BC : BlockCipher ctx} {DG : Digests} {ENV : WpaEnv} (conf : wpa_auth_config).
Implicit Types (s : st) (x : shared).

(** ** The group *)

(** the value returned; the buffer is left alone in the model when random_get_bytes fails *)
Definition wpa_gmk_to_gtk (gmk label gnonce gtk : list Z) (gtk_len : Z) x : M (Z * list Z * shared) :=
  let '(r, rnd) := random_get_bytes (tick x) 16 in
  let data := conf_addr conf ++ gnonce ++ wpa_get_ntp_timestamp (tick x) ++ rnd in
  gtk ← sha256_prf gmk label data gtk gtk_len;
  Ok (if r <? 0 then -1 else 0, gtk, gtick x).

(** GNonce is Counter, which is incremented, and [K[idx]] is derived *)
Definition derive_group_key (label : list Z) (K : list (list Z)) (idx len : Z) x : M (Z * list (list Z) * shared) :=
  let x := gsets GNonce (gstr_val Counter x) x in
  c ← inc_byte_array (gstr_val Counter x) WPA_NONCE_LEN;
  let x := gsets Counter c x in
  gtk ← rd K idx;
  '(r, gtk, x) ← wpa_gmk_to_gtk (gstr_val GMK x) label (gstr_val GNonce x) gtk len x;
  K ← wr K idx gtk;
  Ok (r, K, x).

Definition wpa_gtk_update x : M (Z * shared) :=
  '(r1, g, x) ← derive_group_key (CText.str "Group key expansion") (GTK x) (gval GN x - 1) (gval GTK_len x) x;
  let x := gset_GTK g x in
  if conf_ieee80211w conf then
    let len := wpa_cipher_key_len (conf_group_mgmt_cipher conf) in
    '(r2, g, x) ← derive_group_key (CText.str "IGTK key expansion") (IGTK x) (gval GN_igtk x - 4) len x;
    Ok (if (r1 <? 0) || (r2 <? 0) then -1 else 0, gset_IGTK g x)
  else Ok (r1, x).

(** wpa_auth_set_key for a group key *)
Definition set_group_key (K : list (list Z)) (base idx len : Z) x : M (Z * shared) :=
  k ← rd K (idx - base);
  k ← get k 0 len;
  let r := wpa_auth_set_key (tick x) in
  Ok (r, x |> gtick |> gemit (SetGroupKey idx k r)).

Definition wpa_group_config_group_keys x : M (Z * shared) :=
  '(r, x) ← set_group_key (GTK x) 1 (gval GN x) (gval GTK_len x) x;
  if r <? 0 then Ok (-1, x)
  else if conf_ieee80211w conf then
    '(r, x) ← set_group_key (IGTK x) 4 (gval GN_igtk x) (wpa_cipher_key_len (conf_group_mgmt_cipher conf)) x;
    Ok (if r <? 0 then -1 else 0, x)
  else Ok (0, x).

Definition wpa_group_init_gmk_and_counter x : M (Z * shared) :=
  let '(r, gmk) := random_get_bytes (tick x) WPA_GMK_LEN in
  let x := x |> gsets GMK gmk |> gtick in
  if r <? 0 then Ok (-1, x)
  else
    let buf := conf_addr conf ++ wpa_get_ntp_timestamp (tick x) ++ group_address in
    let '(r, rkey) := random_get_bytes (tick x) 32 in
    let x := gtick x in
    if r <? 0 then Ok (-1, x)
    else
      '(r, c) ← sha1_prf rkey (CText.str "Init Counter") buf (gstr_val Counter x) WPA_NONCE_LEN;
      Ok (if r <? 0 then -1 else 0, gsets Counter c x).

(** [f() < 0 || g() < 0] *)
Definition or_fails (f g : shared -> M (Z * shared)) x : M (Z * shared) :=
  '(r, x) ← f x; if r <? 0 then Ok (-1, x) else g x.

Definition wpa_group_ensure_init x : M shared :=
  if gisset first_sta_seen x then Ok x
  else
    let ready := random_pool_ready (tick x) in
    let x := gtick x in
    let x := if negb ready then gsetf reject_4way_hs_for_entropy true x
             else x |> gsetf first_sta_seen true |> gsetf reject_4way_hs_for_entropy false in
    '(r, x) ← or_fails wpa_group_init_gmk_and_counter (or_fails wpa_gtk_update wpa_group_config_group_keys) x;
    Ok (if r <? 0 then x |> gsetf first_sta_seen false |> gsetf reject_4way_hs_for_entropy true else x).

Definition wpa_group_gtk_init x : M shared :=
  let x := x |> gsetf gchanged false |> gset_state WPA_GROUP_GTK_INIT
             |> gset_GTK (replicate 2 (replicate 32 0)) |> gsetn GN 1 |> gsetn GM 2 |> gsetn GN_igtk 4 |> gsetn GM_igtk 5 in
  '(_, x) ← wpa_gtk_update x;
  Ok x.

(** [tmp = GM; GM = GN; GN = tmp], also for the IGTK *)
Definition swap_keys x : shared :=
  x |> gsetn GM (gval GN x) |> gsetn GN (gval GM x)
    |> gsetn GM_igtk (gval GN_igtk x) |> gsetn GN_igtk (gval GM_igtk x).

(** wpa_group_setkeys before it visits the stations *)
Definition setkeys_start x : M shared :=
  let x := x |> gsetf gchanged true |> gset_state WPA_GROUP_SETKEYS |> gsetf GTKReKey false |> swap_keys in
  '(_, x) ← wpa_gtk_update x;
  Ok (gsetn GKeyDoneStations 0 x).

(** one round of wpa_gtk_rekey *)
Definition gtk_rekey_round x : M shared :=
  '(_, x) ← wpa_gtk_update (swap_keys x);
  '(_, x) ← wpa_group_config_group_keys x;
  Ok x.

(** ** Callbacks *)

Definition set_eapol (v : eapol_var) (value : Z) s : st :=
  s |> emit (SetEapol v value)
    |> match v with
       | WPA_EAPOL_keyRun => setf keyRun (negb (value =? 0))
       | WPA_EAPOL_keyAvailable => setf keyAvailable (negb (value =? 0))
       | _ => fun s => s
       end.

(** ** Replay counters *)

Fixpoint wpa_replay_counter_valid (ctr : list key_replay_counter) (replay_counter : list Z) : bool :=
  match ctr with
  | [] => false
  | c :: ctr =>
      if negb (rc_valid c) then false
      else if bool_decide (replay_counter = rc_counter c) then true
      else wpa_replay_counter_valid ctr replay_counter
  end.

Definition wpa_replay_counter_mark_invalid (ctr : list key_replay_counter) (replay_counter : option (list Z)) :
    list key_replay_counter :=
  map (fun c =>
    if rc_valid c && (match replay_counter with None => true | Some r => bool_decide (r = rc_counter c) end)
    then mkReplay (rc_counter c) false else c) ctr.

Definition no_replay : list key_replay_counter := replicate 4 (mkReplay (replicate 8 0) false).

(** the counters move up by one, and the first is incremented *)
Definition next_replay_counter (ctr : list key_replay_counter) : M (list key_replay_counter) :=
  c ← rd ctr 0;
  counter ← inc_byte_array (rc_counter c) WPA_REPLAY_COUNTER_LEN;
  Ok (mkReplay counter true :: take 3 ctr).

(** ** Sending *)

Definition sender s : key_sender :=
  mkSender (val wpa s) (val wpa_key_mgmt s) (val pairwise s) (PTK (sta s)) (isset PTK_valid s)
    (conf_eapol_version conf) (conf_wpa_group conf).

Definition __wpa_send_eapol (key_info : Z) (key_rsc nonce kde : option (list Z)) (keyidx : Z) (encr : bool)
    (force_version : Z) s : M st :=
  let t := tick (sh s) in
  let s := with_sh gtick s in
  let mic_len := wpa_mic_len (val wpa_key_mgmt s) in
  let kde_len := match kde with Some k => zlen k | None => 0 end in
  let key_data_len :=
    if wraps (sender s) (send_version (sender s) force_version) && encr then kde_len + pad_len kde_len + 8 else kde_len in
  if negb (os_malloc_ok t (HDR + keyhdrlen mic_len + key_data_len)) then Ok s
  else
    ctr ← next_replay_counter (key_replay (sta s));
    let s := set_key_replay ctr s in
    c ← rd ctr 0;
    '(f, Counter') ← eapol_key_frame (os_malloc_ok t) (sender s) (rc_counter c) (gstr_val Counter (sh s)) key_info
                       key_rsc nonce kde keyidx encr force_version;
    let s := with_sh (gsets Counter Counter') s in
    match f with
    | None => Ok s
    | Some f => Ok (s |> set_eapol WPA_EAPOL_inc_EapolFramesTx 1 |> emit (SendEapol f (isset pairwise_set s)))
    end.

Definition wpa_send_eapol (key_info : Z) (key_rsc nonce kde : option (list Z)) (keyidx : Z) (encr : bool) s : M st :=
  s ← __wpa_send_eapol key_info key_rsc nonce kde keyidx encr 0 s;
  let pairwise_key := any_of key_info WPA_KEY_INFO_KEY_TYPE in
  let ctr := if pairwise_key then val TimeoutCtr s else val GTimeoutCtr s in
  let timeout_ms :=
    if (ctr =? 1) && conf_tx_status conf then
      if pairwise_key then eapol_key_timeout_first else eapol_key_timeout_first_group
    else eapol_key_timeout_subseq in
  Ok (s |> when (pairwise_key && (ctr =? 1) && negb (any_of key_info WPA_KEY_INFO_MIC)) (setf pending_1_of_4_timeout true)
        |> emit (EapolTimer timeout_ms)).

(** ** Events *)

Definition wpa_request_new_ptk s : st := s |> setf PTKRequest true |> setf PTK_valid false.

Definition wpa_remove_ptk s : st :=
  s |> setf PTK_valid false |> set_PTK no_ptk |> emit RemovePairwiseKey |> setf pairwise_set false |> emit CancelRekeyPtkTimer.

Inductive wpa_event := WPA_AUTH | WPA_ASSOC | WPA_DISASSOC | WPA_DEAUTH | WPA_REAUTH | WPA_REAUTH_EAPOL | WPA_ASSOC_FT.

#[export] Instance wpa_event_eq_dec : EqDecision wpa_event. Proof. solve_decision. Defined.

(** the end of wpa_auth_sm_event, up to the step *)
Definition event_end (event : wpa_event) s : st :=
  let remove_ptk := negb (isset mgmt_frame_prot s && bool_decide (event = WPA_AUTH)) in
  s |> when remove_ptk (fun s =>
         s |> setf PTK_valid false |> set_PTK no_ptk
           |> when (negb (bool_decide (event = WPA_REAUTH_EAPOL))) wpa_remove_ptk).

(** the callback deauthenticates the station and calls wpa_auth_sm_event
    (ap_sta_disconnect), which in the step loop only marks the change *)
Definition deauth_event s : st := s |> setf DeauthenticationRequest true |> event_end WPA_DEAUTH.
Definition wpa_sta_disconnect s : st := s |> emit DisconnectSta |> deauth_event |> setf changed true.

(** [if (sm->GUpdateStationKeys) sm->group->GKeyDoneStations--; sm->GUpdateStationKeys = FALSE] *)
Definition clear_update s : st :=
  s |> when (isset GUpdateStationKeys s) (with_sh (fun x => gsetn GKeyDoneStations (gval GKeyDoneStations x - 1) x))
    |> setf GUpdateStationKeys false.

(** [dot11RSNA4WayHandshakeFailures++] *)
Definition count_failure s : st :=
  with_sh (fun x => gsetn HandshakeFailures (u32 (gval HandshakeFailures x + 1)) x) s.
End Authenticator.
