(* ===== verification/WpaPtk.v ===== *)
(** * The WPA authenticator: the state machines of a station and received frames

    The states of the 4-way handshake (WPA_PTK) and of the group key handshake
    (WPA_PTK_GROUP) of src/hostapd-2.5/src/ap/wpa_auth.c, their steps, and
    wpa_receive up to the step loop.  In a step the station is in the step
    loop, so the disconnect callback only marks it. *)

From stdpp Require Import functions.
From S2P Require Import Prelude BlockCipher CText HexText AesCtr AesCcm EapolKey Prf WpaState.

Section Machines.
Context {ctx : Type} {BC : BlockCipher ctx} {DG : Digests} {ENV : WpaEnv} (conf : wpa_auth_config).
Implicit Types s : st.

(** ** The states of WPA_PTK *)

(** SM_ENTRY_MA: SM_ENTER passes [global] 0 *)
Definition enter_ptk (p : ptk_state) s : st := s |> setf changed true |> set_ptk_state p.

Definition PTK_INITIALIZE s : st :=
  s |> enter_ptk WPA_PTK_INITIALIZE
    |> (fun s => when (isset Init s) (setf changed false) s)
    |> setn keycount 0
    |> clear_update
    |> (fun s => when (val wpa s =? WPA_VERSION_WPA) (setf PInitAKeys false) s)
    |> setf Pair true
    |> set_eapol WPA_EAPOL_portEnabled 0
    |> wpa_remove_ptk
    |> set_eapol WPA_EAPOL_portValid 0
    |> setn TimeoutCtr 0
    |> (fun s => when (wpa_key_mgmt_wpa_psk (val wpa_key_mgmt s)) (set_eapol WPA_EAPOL_authorized 0) s).

Definition PTK_DISCONNECT s : st :=
  s |> enter_ptk WPA_PTK_DISCONNECT |> setf Disconnect false |> wpa_sta_disconnect.

Definition PTK_DISCONNECTED s : st :=
  s |> enter_ptk WPA_PTK_DISCONNECTED |> setf DeauthenticationRequest false.

Definition PTK_AUTHENTICATION s : st :=
  s |> enter_ptk WPA_PTK_AUTHENTICATION |> set_PTK no_ptk |> setf PTK_valid false
    |> set_eapol WPA_EAPOL_portControl_Auto 1 |> set_eapol WPA_EAPOL_portEnabled 1
    |> setf AuthenticationRequest false.

Definition PTK_AUTHENTICATION2 s : M st :=
  let s := enter_ptk WPA_PTK_AUTHENTICATION2 s in
  x ← wpa_group_ensure_init conf (sh s);
  let s := with_sh (fun _ => x) s |> setf ReAuthenticationRequest false in
  let '(r, rnd) := random_get_bytes (tick (sh s)) WPA_NONCE_LEN in
  let s := s |> with_sh gtick |> sets ANonce rnd in
  Ok (if negb (r =? 0) then setf Disconnect true s else setn TimeoutCtr 0 s).

Definition PTK_INITPMK s : st :=
  let s := enter_ptk WPA_PTK_INITPMK s in
  let pmk := match pmksa (assoc (sta s)) with
             | Some (pmk, _) => Some pmk
             | None => match msk (assoc (sta s)) with Some m => Some (take 32 m) | None => None end
             end in
  match pmk with
  | None => setf Disconnect true s
  | Some p => s |> sets PMK p |> setf req_replay_counter_used false |> set_eapol WPA_EAPOL_keyRun 0
  end.

Definition PTK_INITPSK s : st :=
  s |> enter_ptk WPA_PTK_INITPSK
    |> match psks (assoc (sta s)) with psk :: _ => sets PMK psk | [] => fun s => s end
    |> setf req_replay_counter_used false.

(** the PMKID KDE of message 1 *)
Definition pmkid_kde s : M (option (list Z)) :=
  let akm := val wpa_key_mgmt s in
  if (val wpa s =? WPA_VERSION_WPA2) && wpa_key_mgmt_wpa_ieee8021x akm && negb (akm =? WPA_KEY_MGMT_OSEN) then
    let kde id := [221; RSN_SELECTOR_LEN + PMKID_LEN] ++ to_be 4 RSN_KEY_DATA_PMKID ++ id in
    match pmksa (assoc (sta s)) with
    | Some (_, id) => Ok (Some (kde id))
    | None =>
        if wpa_key_mgmt_suite_b akm then Ok None
        else
          id ← rsn_pmkid (str PMK s) (conf_addr conf) (sta_addr (assoc (sta s))) (wpa_key_mgmt_sha256 akm);
          Ok (Some (kde id))
    end
  else Ok None.

Definition PTK_PTKSTART s : M st :=
  let s := s |> enter_ptk WPA_PTK_PTKSTART |> setf PTKRequest false |> setf TimeoutEvt false |> setf alt_snonce_valid false in
  let s := setn TimeoutCtr (val TimeoutCtr s + 1) s in
  if dot11RSNAConfigPairwiseUpdateCount <? val TimeoutCtr s then Ok s
  else
    kde ← pmkid_kde s;
    wpa_send_eapol conf (WPA_KEY_INFO_ACK + WPA_KEY_INFO_KEY_TYPE) None (Some (str ANonce s)) kde 0 false s.

Definition wpa_derive_ptk s (snonce pmk : list Z) : M wpa_ptk :=
  wpa_pmk_to_ptk pmk (CText.str "Pairwise key expansion") (conf_addr conf) (sta_addr (assoc (sta s))) (str ANonce s) snonce
    (val wpa_key_mgmt s) (val pairwise s).

(** the PMKs tried, in order *)
Definition candidates s : list (list Z) :=
  if wpa_key_mgmt_wpa_psk (val wpa_key_mgmt s) then psks (assoc (sta s)) else [str PMK s].

(** the first candidate whose PTK verifies the frame: the PMK and the PTK *)
Fixpoint try_pmks s (cands : list (list Z)) (snonce data : list Z) : M (option (list Z * wpa_ptk)) :=
  match cands with
  | [] => Ok None
  | pmk :: cands =>
      ptk ← wpa_derive_ptk s snonce pmk;
      '(r, data) ← wpa_verify_key_mic (val wpa_key_mgmt s) ptk data;
      if r =? 0 then Ok (Some (pmk, ptk)) else try_pmks s cands snonce data
  end.

Definition PTK_PTKCALCNEGOTIATING s : M st :=
  let s := s |> enter_ptk WPA_PTK_PTKCALCNEGOTIATING |> setf EAPOLKeyReceived false |> setf update_snonce false in
  found ← (match last_rx_eapol_key (sta s), candidates s with
           | _, [] => Ok None
           | None, _ => Err NullDeref
           | Some data, cands => try_pmks s cands (str SNonce s) data
           end);
  let psk := wpa_key_mgmt_wpa_psk (val wpa_key_mgmt s) in
  match found with
  | None => Ok (when (psk && negb (bool_decide (candidates s = []))) (emit PskFailureReport) s)
  | Some (pmk, ptk) =>
      Ok (s |> setf pending_1_of_4_timeout false |> emit CancelEapolTimer |> when psk (sets PMK pmk)
            |> setf MICVerified true |> set_PTK ptk |> setf PTK_valid true)
  end.

Definition PTK_PTKCALCNEGOTIATING2 s : st := s |> enter_ptk WPA_PTK_PTKCALCNEGOTIATING2 |> setn TimeoutCtr 0.

Definition igtk_len : Z := wpa_cipher_key_len (conf_group_mgmt_cipher conf).

Definition ieee80211w_kde_len s : Z :=
  if isset mgmt_frame_prot s then 2 + RSN_SELECTOR_LEN + WPA_IGTK_KDE_PREFIX_LEN + igtk_len else 0.

(** the buffer, the position and the state *)
Definition ieee80211w_kde_add s (buf : list Z) (pos : Z) : M (list Z * Z * st) :=
  if negb (isset mgmt_frame_prot s) then Ok (buf, pos, s)
  else
    let x := sh s in
    '(pn, s) ← (if negb (bool_decide (wpa_group_state x = WPA_GROUP_SETKEYSDONE)) then Ok (replicate 6 0, s)
                else match wpa_auth_get_seqnum (tick x) (gval GN_igtk x) with
                     | None => Ok (replicate 6 0, with_sh gtick s)
                     | Some rsc => pn ← get rsc 0 6; Ok (pn, with_sh gtick s)
                     end);
    k ← rd (IGTK x) (gval GN_igtk x - 4);
    k ← get k 0 igtk_len;
    let '(r, k, s) := if conf_disable_gtk conf
                      then let '(r, rnd) := random_get_bytes (tick (sh s)) igtk_len in (r, rnd, with_sh gtick s)
                      else (0, k, s) in
    if r <? 0 then Ok (buf, pos, s)
    else
      '(buf, pos) ← wpa_add_kde buf pos RSN_KEY_DATA_IGTK ([u8 (gval GN_igtk x); 0] ++ pn ++ k) None;
      Ok (buf, pos, s).

(** the group key for the station, [None] when there is no random one *)
Definition gtk_for s : M (option (list Z) * st) :=
  let x := sh s in
  if conf_disable_gtk conf then
    let '(r, rnd) := random_get_bytes (tick x) (gval GTK_len x) in
    Ok (if r <? 0 then None else Some rnd, with_sh gtick s)
  else
    g ← rd (GTK x) (gval GN x - 1);
    g ← get g 0 (gval GTK_len x);
    Ok (Some g, s).

(** the receive sequence counter of the group key, zero when it is not known *)
Definition group_rsc s : list Z * st :=
  (default (replicate 8 0) (wpa_auth_get_seqnum (tick (sh s)) (gval GN (sh s))), with_sh gtick s).

(** the elements of message 3: all of them, or the WPA element behind the RSN element *)
Definition ie_for s : M (list Z) :=
  let ie := conf_wpa_ie conf in
  if (val wpa s =? WPA_VERSION_WPA) && any_of (conf_wpa conf) WPA_PROTO_RSN then
    l ← rd ie 1;
    id ← rd ie 0;
    if (l + 2 <? zlen ie) && (id =? WLAN_EID_RSN) then
      let ie := drop (Z.to_nat (l + 2)) ie in
      id ← rd ie 0;
      l ← rd ie 1;
      let ie := if id =? WLAN_EID_MOBILITY_DOMAIN then drop (Z.to_nat (l + 2)) ie else ie in
      l ← rd ie 1;
      get ie 0 (l + 2)
    else Ok ie
  else Ok ie.

(** the Key Data of message 3, [None] when it cannot be allocated *)
Definition message3_kde (ie : list Z) (gtk : option (list Z)) (keyidx : Z) s : M (option (list Z) * st) :=
  let kde_len := zlen ie + ieee80211w_kde_len s + match gtk with Some g => 2 + RSN_SELECTOR_LEN + 2 + zlen g | None => 0 end in
  let t := tick (sh s) in
  let s := with_sh gtick s in
  if negb (os_malloc_ok t kde_len) then Ok (None, s)
  else
    kde ← blit (replicate (Z.to_nat kde_len) 0) 0 ie;
    '(kde, pos) ← (match gtk with
                   | Some g => wpa_add_kde kde (zlen ie) RSN_KEY_DATA_GROUPKEY [Z.land keyidx 0x03; 0] (Some g)
                   | None => Ok (kde, zlen ie)
                   end);
    '(kde, pos, s) ← ieee80211w_kde_add s kde pos;
    kde ← get kde 0 pos;
    Ok (Some kde, s).

Definition PTK_PTKINITNEGOTIATING s : M st :=
  let s := s |> enter_ptk WPA_PTK_PTKINITNEGOTIATING |> setf TimeoutEvt false in
  let s := setn TimeoutCtr (val TimeoutCtr s + 1) s in
  if dot11RSNAConfigPairwiseUpdateCount <? val TimeoutCtr s then Ok s
  else
    let '(rsc, s) := group_rsc s in
    ie ← ie_for s;
    let rsn := val wpa s =? WPA_VERSION_WPA2 in
    '(gk, s) ← (if rsn then gtk_for s else Ok (Some [], s));
    match gk with
    | None => Ok s
    | Some g =>
        let keyidx := if rsn then gval GN (sh s) else 0 in
        '(kde, s) ← message3_kde ie (if rsn then Some g else None) keyidx s;
        match kde with
        | None => Ok s
        | Some kde =>
            let secure := rsn || isset rx_eapol_key_secure s in
            wpa_send_eapol conf ((if secure then WPA_KEY_INFO_SECURE else 0) + WPA_KEY_INFO_MIC + WPA_KEY_INFO_ACK +
                WPA_KEY_INFO_INSTALL + WPA_KEY_INFO_KEY_TYPE)
              (if rsn then Some rsc else None) (Some (str ANonce s)) (Some kde) keyidx rsn s
        end
    end.

(** the first [len] bytes of the array PTK.tk, zero behind tk_len *)
Definition tk_bytes (ptk : wpa_ptk) (len : Z) : list Z := take (Z.to_nat len) (tk ptk ++ replicate 32 0).

Definition PTK_PTKINITDONE s : st :=
  let s := s |> enter_ptk WPA_PTK_PTKINITDONE |> setf EAPOLKeyReceived false in
  let t := tick (sh s) in
  let r := wpa_auth_set_key t in
  let s := when (isset Pair s) (fun s =>
    s |> with_sh gtick |> emit (SetPairwiseKey (PTK (sta s)) (tk_bytes (PTK (sta s)) (wpa_cipher_key_len (val pairwise s))) r)) s in
  if isset Pair s && negb (r =? 0) then wpa_sta_disconnect s
  else
    s |> when (isset Pair s) (fun s =>
           s |> setf pairwise_set true
             |> when (negb (conf_wpa_ptk_rekey conf =? 0)) (fun s =>
                  s |> emit CancelRekeyPtkTimer |> emit (RekeyPtkTimer (conf_wpa_ptk_rekey conf)))
             |> when (wpa_key_mgmt_wpa_psk (val wpa_key_mgmt s)) (set_eapol WPA_EAPOL_authorized 1))
      |> set_eapol WPA_EAPOL_portValid 1
      |> set_eapol WPA_EAPOL_keyAvailable 0
      |> set_eapol WPA_EAPOL_keyDone 1
      |> (if val wpa s =? WPA_VERSION_WPA then setf PInitAKeys true else setf has_GTK true).

(** a frame of the pairwise handshake that is not a request is waiting *)
Definition pairwise_frame s : bool := isset EAPOLKeyReceived s && negb (isset EAPOLKeyRequest s) && isset EAPOLKeyPairwise s.

Definition PTK_step s : M st :=
  if isset Init s then Ok (PTK_INITIALIZE s)
  else if isset Disconnect s then Ok (PTK_DISCONNECT s)
  else if isset DeauthenticationRequest s then Ok (PTK_DISCONNECTED s)
  else if isset AuthenticationRequest s then Ok (PTK_AUTHENTICATION s)
  else if isset ReAuthenticationRequest s then PTK_AUTHENTICATION2 s
  else if isset PTKRequest s then PTK_PTKSTART s
  else
    match wpa_ptk_state (sta s) with
    | WPA_PTK_INITIALIZE => Ok s
    | WPA_PTK_DISCONNECT => Ok (PTK_DISCONNECTED s)
    | WPA_PTK_DISCONNECTED => Ok (PTK_INITIALIZE s)
    | WPA_PTK_AUTHENTICATION => PTK_AUTHENTICATION2 s
    | WPA_PTK_AUTHENTICATION2 =>
        if wpa_key_mgmt_wpa_ieee8021x (val wpa_key_mgmt s) && isset keyRun s then Ok (PTK_INITPMK s)
        else if wpa_key_mgmt_wpa_psk (val wpa_key_mgmt s) then Ok (PTK_INITPSK s)
        else Ok s
    | WPA_PTK_INITPMK =>
        if isset keyAvailable s then PTK_PTKSTART s else Ok (PTK_DISCONNECT (count_failure s))
    | WPA_PTK_INITPSK =>
        if negb (bool_decide (psks (assoc (sta s)) = [])) then PTK_PTKSTART s else Ok (PTK_DISCONNECT (count_failure s))
    | WPA_PTK_PTKSTART =>
        if pairwise_frame s then PTK_PTKCALCNEGOTIATING s
        else if dot11RSNAConfigPairwiseUpdateCount <? val TimeoutCtr s then Ok (PTK_DISCONNECT (count_failure s))
        else if isset TimeoutEvt s then PTK_PTKSTART s
        else Ok s
    | WPA_PTK_PTKCALCNEGOTIATING =>
        if isset MICVerified s then Ok (PTK_PTKCALCNEGOTIATING2 s)
        else if pairwise_frame s then PTK_PTKCALCNEGOTIATING s
        else if isset TimeoutEvt s then PTK_PTKSTART s
        else Ok s
    | WPA_PTK_PTKCALCNEGOTIATING2 => PTK_PTKINITNEGOTIATING s
    | WPA_PTK_PTKINITNEGOTIATING =>
        if isset update_snonce s then PTK_PTKCALCNEGOTIATING s
        else if pairwise_frame s && isset MICVerified s then Ok (PTK_PTKINITDONE s)
        else if dot11RSNAConfigPairwiseUpdateCount <? val TimeoutCtr s then Ok (PTK_DISCONNECT (count_failure s))
        else if isset TimeoutEvt s then PTK_PTKINITNEGOTIATING s
        else Ok s
    | WPA_PTK_PTKINITDONE => Ok s
    end.

(** ** The states of WPA_PTK_GROUP *)

Definition enter_group (p : ptk_group_state) s : st := s |> setf changed true |> set_ptk_group_state p.

Definition GROUP_IDLE s : st :=
  s |> enter_group WPA_PTK_GROUP_IDLE
    |> (fun s => when (isset Init s) (setf changed false) s)
    |> setn GTimeoutCtr 0.

(** the Key Data of message 1 of the group key handshake *)
Definition group_kde (gtk : list Z) s : M (option (list Z) * st) :=
  if val wpa s =? WPA_VERSION_WPA2 then
    let kde_len := 2 + RSN_SELECTOR_LEN + 2 + gval GTK_len (sh s) + ieee80211w_kde_len s in
    let t := tick (sh s) in
    let s := with_sh gtick s in
    if negb (os_malloc_ok t kde_len) then Ok (None, s)
    else
      '(kde, pos) ← wpa_add_kde (replicate (Z.to_nat kde_len) 0) 0 RSN_KEY_DATA_GROUPKEY
                      [Z.land (gval GN (sh s)) 0x03; 0] (Some gtk);
      '(kde, pos, s) ← ieee80211w_kde_add s kde pos;
      kde ← get kde 0 pos;
      Ok (Some kde, s)
  else Ok (Some gtk, s).

Definition GROUP_REKEYNEGOTIATING s : M st :=
  let s := enter_group WPA_PTK_GROUP_REKEYNEGOTIATING s in
  let s := setn GTimeoutCtr (val GTimeoutCtr s + 1) s in
  if dot11RSNAConfigGroupUpdateCount <? val GTimeoutCtr s then Ok s
  else
    let s := s |> when (val wpa s =? WPA_VERSION_WPA) (setf PInitAKeys false) |> setf TimeoutEvt false in
    let '(rsc, s) := if bool_decide (wpa_group_state (sh s) = WPA_GROUP_SETKEYSDONE) then group_rsc s
                     else (replicate 8 0, s) in
    '(gk, s) ← gtk_for s;
    match gk with
    | None => Ok s
    | Some g =>
        '(kde, s) ← group_kde g s;
        match kde with
        | None => Ok s
        | Some kde =>
            wpa_send_eapol conf (WPA_KEY_INFO_SECURE + WPA_KEY_INFO_MIC + WPA_KEY_INFO_ACK +
                (if negb (isset Pair s) then WPA_KEY_INFO_INSTALL else 0))
              (Some rsc) (Some (gstr_val GNonce (sh s))) (Some kde) (gval GN (sh s)) true s
        end
    end.

Definition GROUP_REKEYESTABLISHED s : st :=
  s |> enter_group WPA_PTK_GROUP_REKEYESTABLISHED |> setf EAPOLKeyReceived false |> clear_update
    |> setn GTimeoutCtr 0 |> setf has_GTK true.

Definition GROUP_KEYERROR s : st :=
  s |> enter_group WPA_PTK_GROUP_KEYERROR |> clear_update |> setf Disconnect true.

Definition GROUP_step s : M st :=
  if isset Init s || isset PtkGroupInit s then Ok (s |> GROUP_IDLE |> setf PtkGroupInit false)
  else
    match wpa_ptk_group_state (sta s) with
    | WPA_PTK_GROUP_IDLE =>
        if isset GUpdateStationKeys s || ((val wpa s =? WPA_VERSION_WPA) && isset PInitAKeys s)
        then GROUP_REKEYNEGOTIATING s else Ok s
    | WPA_PTK_GROUP_REKEYNEGOTIATING =>
        if isset EAPOLKeyReceived s && negb (isset EAPOLKeyRequest s) && negb (isset EAPOLKeyPairwise s) && isset MICVerified s
        then Ok (GROUP_REKEYESTABLISHED s)
        else if dot11RSNAConfigGroupUpdateCount <? val GTimeoutCtr s then Ok (GROUP_KEYERROR s)
        else if isset TimeoutEvt s then GROUP_REKEYNEGOTIATING s
        else Ok s
    | WPA_PTK_GROUP_KEYERROR => Ok (GROUP_IDLE s)
    | WPA_PTK_GROUP_REKEYESTABLISHED => Ok (GROUP_IDLE s)
    end.

(** ** wpa_receive *)

Inductive eapol_msg := PAIRWISE_2 | PAIRWISE_4 | GROUP_2 | REQUEST | SMK_M1 | SMK_M3 | SMK_ERROR.

#[export] Instance eapol_msg_eq_dec : EqDecision eapol_msg. Proof. solve_decision. Defined.

Definition classify (key_info key_data_length : Z) : eapol_msg :=
  let smk := any_of key_info WPA_KEY_INFO_SMK_MESSAGE in
  let request := any_of key_info WPA_KEY_INFO_REQUEST in
  if smk && request then if any_of key_info WPA_KEY_INFO_ERROR then SMK_ERROR else SMK_M1
  else if smk then SMK_M3
  else if request then REQUEST
  else if negb (any_of key_info WPA_KEY_INFO_KEY_TYPE) then GROUP_2
  else if key_data_length =? 0 then PAIRWISE_4
  else PAIRWISE_2.

(** the type of the key descriptor fits the station *)
Definition type_ok (type : Z) s : bool :=
  if val wpa s =? WPA_VERSION_WPA2 then (type =? EAPOL_KEY_TYPE_WPA) || (type =? EAPOL_KEY_TYPE_RSN)
  else type =? EAPOL_KEY_TYPE_WPA.

(** the key descriptor version fits the cipher and the AKM *)
Definition version_ok (msg : eapol_msg) (key_info : Z) s : bool :=
  if bool_decide (msg ∈ [REQUEST; PAIRWISE_2; PAIRWISE_4; GROUP_2]) then
    let ver := Z.land key_info WPA_KEY_INFO_TYPE_MASK in
    let akm := val wpa_key_mgmt s in
    let aes := (val pairwise s =? WPA_CIPHER_CCMP) || (val pairwise s =? WPA_CIPHER_GCMP) in
    if aes && wpa_use_aes_cmac akm && negb (akm =? WPA_KEY_MGMT_OSEN) && negb (wpa_key_mgmt_suite_b akm) &&
       negb (ver =? WPA_KEY_INFO_TYPE_AES_128_CMAC) then false
    else if aes && negb (wpa_use_aes_cmac akm) && negb (ver =? WPA_KEY_INFO_TYPE_HMAC_SHA1_AES) then false
    else if wpa_key_mgmt_suite_b akm && negb (ver =? WPA_KEY_INFO_TYPE_AKM_DEFINED) then false
    else true
  else true.

(** the replay counter: [None] to drop the frame *)
Definition check_replay (msg : eapol_msg) (key_info : Z) (counter key_nonce : list Z) s : M (option st) :=
  if any_of key_info WPA_KEY_INFO_REQUEST then
    if isset req_replay_counter_used s && negb (memcmp_lt (str req_replay_counter s) counter) then Ok None
    else Ok (Some s)
  else if wpa_replay_counter_valid (key_replay (sta s)) counter then Ok (Some s)
  else
    let negotiating := bool_decide (wpa_ptk_state (sta s) = WPA_PTK_PTKINITNEGOTIATING) in
    if bool_decide (msg = PAIRWISE_2) && wpa_replay_counter_valid (prev_key_replay (sta s)) counter && negotiating &&
       negb (bool_decide (str SNonce s = key_nonce)) then
      c ← rd (key_replay (sta s)) 0;
      Ok (Some (s |> setf update_snonce true |> sets alt_SNonce (str SNonce s) |> setf alt_snonce_valid true
                  |> sets alt_replay_counter (rc_counter c)))
    else if bool_decide (msg = PAIRWISE_4) && isset alt_snonce_valid s && negotiating &&
            bool_decide (counter = str alt_replay_counter s) then Ok (Some s)
    else Ok None.

(** what wpa_receive does with a frame: drop it, drop it and disconnect the
    station, drop it because the station was removed, or take it, and whether
    it rekeys the group *)
Inductive rx_result := RDrop | RDisconnect | RRemoved | RAccept (rekey_gtk : bool).

(** the element of message 2 that is compared with the association's *)
Definition message2_ie (key_data : list Z) (ie : wpa_eapol_ie_parse) : M (option (list Z)) :=
  match (match ie rsn_ie with Some p => Some p | None => match ie osen with Some p => Some p | None => ie wpa_ie end end) with
  | None => Ok None
  | Some (pos, len) => e ← get key_data pos len; Ok (Some e)
  end.

(** the switch on the message: [None] to go on *)
Definition check_state (msg : eapol_msg) (key_data : list Z) s : M (option rx_result) :=
  match msg with
  | PAIRWISE_2 =>
      let p := wpa_ptk_state (sta s) in
      if negb (bool_decide (p = WPA_PTK_PTKSTART)) && negb (bool_decide (p = WPA_PTK_PTKCALCNEGOTIATING)) &&
         (negb (isset update_snonce s) || negb (bool_decide (p = WPA_PTK_PTKINITNEGOTIATING))) then Ok (Some RDrop)
      else if gisset reject_4way_hs_for_entropy (sh s) then Ok (Some RDisconnect)
      else
        '(r, ie) ← wpa_parse_kde_ies key_data (zlen key_data);
        if r <? 0 then Ok (Some RDrop)
        else
          e ← message2_ie key_data ie;
          Ok (if wpa_compare_rsn_ie (assoc_wpa_ie (assoc (sta s))) e =? 0 then None else Some RDisconnect)
  | PAIRWISE_4 =>
      Ok (if negb (bool_decide (wpa_ptk_state (sta s) = WPA_PTK_PTKINITNEGOTIATING)) || negb (isset PTK_valid s)
          then Some RDrop else None)
  | GROUP_2 =>
      Ok (if negb (bool_decide (wpa_ptk_group_state (sta s) = WPA_PTK_GROUP_REKEYNEGOTIATING)) || negb (isset PTK_valid s)
          then Some RDrop else None)
  | SMK_M1 | SMK_M3 | SMK_ERROR => Ok (Some RDrop)
  | REQUEST => Ok None
  end.

(** the value returned, the frame and the state *)
Definition wpa_try_alt_snonce (data : list Z) s : M (Z * st) :=
  found ← try_pmks s (candidates s) (str alt_SNonce s) data;
  match found with
  | None => Ok (-1, s)
  | Some (_, ptk) =>
      Ok (0, s |> setf alt_snonce_valid false |> sets SNonce (str alt_SNonce s) |> set_PTK ptk |> setf PTK_valid true)
  end.

(** the MIC: whether to go on, and the state *)
Definition check_mic (msg : eapol_msg) (data : list Z) s : M (bool * st) :=
  let s := setf MICVerified false s in
  if isset PTK_valid s && negb (isset update_snonce s) then
    '(r, data) ← wpa_verify_key_mic (val wpa_key_mgmt s) (PTK (sta s)) data;
    '(bad, s) ← (if r =? 0 then Ok (false, s)
                 else if negb (bool_decide (msg = PAIRWISE_4)) || negb (isset alt_snonce_valid s) then Ok (true, s)
                 else '(r, s) ← wpa_try_alt_snonce data s; Ok (negb (r =? 0), s));
    if (bad : bool) then Ok (false, s)
    else Ok (true, s |> setf MICVerified true |> emit CancelEapolTimer |> setf pending_1_of_4_timeout false)
  else Ok (true, s).

(** the value returned and the state *)
Definition wpa_receive_error_report (group : bool) s : Z * st :=
  let ignore := if group then negb (conf_wpa_group conf =? WPA_CIPHER_TKIP) else negb (val pairwise s =? WPA_CIPHER_TKIP) in
  if ignore then (0, wpa_request_new_ptk s)
  else
    let r := wpa_auth_mic_failure_report (tick (sh s)) in
    let s := with_sh gtick s in
    if 0 <? r then (1, s)
    else
      (0, s |> setn RemoteMICFailures (u32 (val RemoteMICFailures s + 1))
            |> with_sh (fun x => gsetn AuthRemoteMICFailures (u32 (gval AuthRemoteMICFailures x + 1)) x)
            |> wpa_request_new_ptk).

(** a request with a verified MIC *)
Definition receive_request (key_info : Z) (counter key_data : list Z) s : M (rx_result * st) :=
  if negb (isset MICVerified s) then Ok (RDrop, s)
  else
    let s := s |> setf req_replay_counter_used true |> sets req_replay_counter counter in
    if any_of key_info WPA_KEY_INFO_ERROR then
      let '(r, s) := wpa_receive_error_report (negb (any_of key_info WPA_KEY_INFO_KEY_TYPE)) s in
      Ok (if 0 <? r then RRemoved else RAccept false, s)
    else if any_of key_info WPA_KEY_INFO_KEY_TYPE then Ok (RAccept false, wpa_request_new_ptk s)
    else
      mac ← (if 0 <? zlen key_data then
               '(r, ie) ← wpa_parse_kde_ies key_data (zlen key_data);
               Ok ((r =? 0) && negb (bool_decide (ie mac_addr = None)))
             else Ok false);
      Ok (RAccept (negb mac), s).

(** no replay counter is accepted a second time *)
Definition consume_counters (msg : eapol_msg) (counter : list Z) s : st :=
  let ctr := wpa_replay_counter_mark_invalid (key_replay (sta s)) (Some counter) in
  s |> set_prev_key_replay (if bool_decide (msg = PAIRWISE_2) then ctr else no_replay)
    |> set_key_replay (wpa_replay_counter_mark_invalid ctr None).

(** wpa_receive up to the rekeying of the group *)
Definition receive_check (data : list Z) s : M (rx_result * st) :=
  let mic_len := wpa_mic_len (val wpa_key_mgmt s) in
  if (conf_wpa conf =? 0) || (zlen data <? HDR + keyhdrlen mic_len) then Ok (RDrop, s)
  else
    key_info ← WPA_GET_BE16 data o_key_info;
    key_data_length ← WPA_GET_BE16 data (o_key_data_length mic_len);
    type ← rd data o_type;
    if (zlen data - HDR - keyhdrlen mic_len <? key_data_length) || negb (type_ok type s) then Ok (RDrop, s)
    else
      key_data ← get data (HDR + keyhdrlen mic_len) key_data_length;
      counter ← get data o_replay_counter WPA_REPLAY_COUNTER_LEN;
      key_nonce ← get data o_key_nonce WPA_NONCE_LEN;
      let msg := classify key_info key_data_length in
      if negb (version_ok msg key_info s) then Ok (RDrop, s)
      else
        r ← check_replay msg key_info counter key_nonce s;
        match r with
        | None => Ok (RDrop, s)
        | Some s =>
            r ← check_state msg key_data s;
            match r with
            | Some r => Ok (r, s)
            | None =>
                if any_of key_info WPA_KEY_INFO_ACK || negb (any_of key_info WPA_KEY_INFO_MIC) then Ok (RDrop, s)
                else
                  '(go_on, s) ← check_mic msg data s;
                  if negb go_on then Ok (RDrop, s)
                  else if any_of key_info WPA_KEY_INFO_REQUEST then receive_request key_info counter key_data s
                  else Ok (RAccept false, consume_counters msg counter s)
            end
        end.

(** the end of wpa_receive before the step: whether to step, and the state *)
Definition receive_store (data : list Z) s : M (bool * st) :=
  let t := tick (sh s) in
  let s := with_sh gtick s in
  if negb (frame_copy_ok t (zlen data)) then Ok (false, set_last_rx None s)
  else
    key_info ← WPA_GET_BE16 data o_key_info;
    key_nonce ← get data o_key_nonce WPA_NONCE_LEN;
    Ok (true, s |> set_last_rx (Some data)
                |> setf rx_eapol_key_secure (any_of key_info WPA_KEY_INFO_SECURE)
                |> setf EAPOLKeyReceived true
                |> setf EAPOLKeyPairwise (any_of key_info WPA_KEY_INFO_KEY_TYPE)
                |> setf EAPOLKeyRequest (any_of key_info WPA_KEY_INFO_REQUEST)
                |> sets SNonce key_nonce).
End Machines.
