(* ===== verification/WpaSafe.v ===== *)
(** * The WPA authenticator: frames and keys of every size stay in their arrays

    Sending, checking a MIC, deriving and configuring the group keys, and the
    Key Data of messages 3 and 1 never read or write outside an array, for all
    answers of the environment that have the sizes asked for. *)

From stdpp Require Import functions.
From S2P Require Import Prelude BlockCipher CText HexText AesWrap AesCtr AesOmac AesEax AesCcm Rc4 EapolKey Prf WpaState WpaPtk.

(** one step of [safe] through a bind *)
Ltac safe_to Q := apply (safe_bind Q).

Definition arr (n : Z) (l : list Z) : Prop := zlen l = n /\ bytes l.

Lemma arr_replicate n : 0 <= n -> arr n (replicate (Z.to_nat n) 0).
Proof. intros. split; [by apply length_repl|apply repl_Z]. Qed.

Lemma rd_safe (l : list (list Z)) (P : list Z -> Prop) i : Forall P l -> 0 <= i < zlen l -> safe (rd l i) P.
Proof.
  intros HP Hi. destruct (rd_in_range l i Hi) as [x E]. rewrite E. apply rd_lookup in E; [|lia]. cbn.
  by eapply Forall_lookup_1.
Qed.

Lemma rd_safe_any {A} (l : list A) i : 0 <= i < zlen l -> safe (rd l i) (fun _ => True).
Proof. intros Hi. by destruct (rd_in_range l i Hi) as [x ->]. Qed.

Lemma get_safe l off n : bytes l -> 0 <= off -> 0 <= n -> off + n <= zlen l -> safe (get l off n) (arr n).
Proof.
  intros Hb H1 H2 H3. destruct (get l off n) as [x|e] eqn:E; cbn.
  - split; [by apply get_Ok_inv in E as (_ & _ & ? & _)|]. revert E. unfold get. case_match; [|done]. intros [= <-]. by apply Forall_take, Forall_drop.
  - revert E. unfold get. replace ((0 <=? off) && (0 <=? n) && (off + n <=? zlen l)) with true by lia. done.
Qed.

Lemma blit_safe l off y : bytes l -> bytes y -> 0 <= off -> off + zlen y <= zlen l -> safe (blit l off y) (arr (zlen l)).
Proof.
  intros Hb Hy H0 H1. unfold blit. replace ((0 <=? off) && (off + zlen y <=? zlen l)) with true by lia. cbn.
  pose proof (zlen_nonneg y). split.
  - unfold zlen in *. rewrite !length_app, length_take, length_drop. lia.
  - repeat apply Forall_app_2; [by apply Forall_take|done|by apply Forall_drop].
Qed.

Lemma rd_byte l i : bytes l -> 0 <= i < zlen l -> safe (rd l i) is_byte.
Proof.
  intros Hb Hi. destruct (rd_in_range l i Hi) as [x E]. rewrite E. apply rd_lookup in E; [|lia].
  exact (Forall_lookup_1 _ _ _ _ Hb E).
Qed.

Lemma be16_safe l off : bytes l -> 0 <= off -> off + 2 <= zlen l -> safe (WPA_GET_BE16 l off) (fun v => 0 <= v < 2 ^ 16).
Proof.
  intros Hb H0 H1. unfold WPA_GET_BE16. safe_to is_byte; [apply rd_byte; [done|lia]|intros a Ha].
  safe_to is_byte; [apply rd_byte; [done|lia]|intros b Hb']. cbn. unfold is_byte in *.
  rewrite Z.shiftl_mul_pow2, lor_disjoint by lia. lia.
Qed.

Lemma inc_safe c n : arr n c -> safe (inc_byte_array c n) (arr n).
Proof.
  intros [Hl Hb]. destruct (inc_loop_spec c [] Hb) as (c' & E & Hb' & Hl' & _). rewrite !app_nil_r in E.
  unfold inc_byte_array. assert (Z.to_nat n = length c) as -> by (unfold zlen in Hl; lia). rewrite E. cbn.
  split; [unfold zlen in *; lia|done].
Qed.

(** ** Frames *)

Lemma send_encrypted_cannot {ctx} `{BlockCipher ctx} alloc s version kde n Counter f :
  wpa_mic_len (ks_key_mgmt s) = 16 -> bytes kde -> 6 * zlen kde < 2 ^ 31 - 96 ->
  n = (if wraps s version then zlen kde + pad_len (zlen kde) + 8 else zlen kde) -> zlen f = 99 + n -> arr 32 Counter ->
  (alloc n = true -> ~ can_wrap s version Counter) ->
  send_encrypted alloc s version kde n Counter f = Ok (None, Counter).
Proof.
  intros Hml Hb Hbound -> Hf HC Hcan. pose proof (zlen_nonneg kde). unfold send_encrypted. rewrite Hml.
  destruct (alloc _); [|done]. specialize (Hcan eq_refl). unfold can_wrap in Hcan. cbn [negb].
  change (Z.to_nat (HDR + keyhdrlen 16)) with 99%nat. destruct (wraps s version); cbn [andb].
  - destruct (pad_spec kde Hb) as (pad & buf & -> & Epad & Hl & Hm & Hpb & Hpl & Hpe). rewrite bind_ok, Epad, bind_ok. clear Epad.
    set (p := zlen kde + pad_len (zlen kde)) in *. replace (p + 8 - 8) with p by lia.
    assert (p = 8 * (p / 8)) as H8 by (pose proof (Z.div_mod p 8); lia).
    assert (zlen (drop 99 f) = 8 * (p / 8 + 1)) as Hd by (unfold zlen in *; rewrite length_drop; lia).
    assert (0 <= p / 8) as Hp0 by (apply Z.div_pos; [|lia]; rewrite <- Hl; apply zlen_nonneg).
    destruct (aes_encrypt_init (kek (ks_PTK s))) as [c|] eqn:Hc; [by destruct Hcan; exists c|].
    unfold aes_wrap. rewrite Hc, <- (take_drop 8 (drop 99 f)).
    assert (zlen (take 8 (drop 99 f)) = 8 /\ zlen (drop 8 (drop 99 f)) = p) as [H1 H2]
      by (unfold zlen in *; rewrite length_take, !length_drop in *; lia).
    rewrite blit_head, bind_ok by (rewrite H1; reflexivity). rewrite get_head, bind_ok by lia.
    rewrite blit_last, bind_ok by (rewrite ?H1; first [reflexivity|lia]). by rewrite bind_ok.
  - rewrite blit_whole by (rewrite length_repl; lia). rewrite !bind_ok.
    destruct (Z.eqb_spec (zlen (kek (ks_PTK s))) 16); [|done]. destruct HC. by destruct Hcan.
Qed.

Section Frames.
Context {ctx : Type} {BC : BlockCipher ctx} {BCL : BlockCipherLaws ctx} {DG : Digests} {DL : DigestsLaws}.

Lemma mic_safe key ver f : 16 <= zlen key -> bytes key -> bytes f ->
  safe (wpa_eapol_key_mic key ver f) (fun m => forall x, m = Some x -> arr 16 x).
Proof.
  intros Hk Hkb Hf. unfold wpa_eapol_key_mic. destruct (ver =? _).
  { cbn. intros x E. by apply hmac_md5_16 in E. }
  destruct (ver =? _).
  { destruct (hmac_sha1 key f) as [h|] eqn:E; [|done]. apply hmac_sha1_20 in E as [Hl Hb].
    safe_to (arr 16); [apply get_safe; [done|lia..]|]. cbn. by intros a Ha x [= <-]. }
  destruct (ver =? _); [|done].
  pose proof (get_safe key 0 16 Hkb) as Hg. apply safe_exists in Hg as (k & Ek & _); [|lia..].
  destruct (aes_encrypt_init k) as [c|] eqn:Hc.
  - rewrite (omac1_128_spec key k c) by done. cbn. intros x [= <-]. by destruct (cmac_block16 (fun _ => None) c f Hf).
  - unfold omac1_aes_128, omac1_aes_128_vector, omac1_aes_vector. by rewrite Ek, bind_ok, Hc.
Qed.

(** whatever [data] is, wpa_verify_key_mic leaves it as it was *)
Lemma verify_safe akmp ptk data : wpa_mic_len akmp = 16 -> 16 <= zlen (kck ptk) -> bytes (kck ptk) -> bytes data ->
  exists r, wpa_verify_key_mic akmp ptk data = Ok (r, data).
Proof.
  intros Hml Hk Hkb Hb. unfold wpa_verify_key_mic. rewrite Hml. unfold HDR.
  destruct (Z.ltb_spec (zlen data) (4 + 95)) as [|Hl]; [by eexists|].
  pose proof (be16_safe data o_key_info Hb) as Hi. apply safe_exists in Hi as (ki & -> & _); [|unfold o_key_info; lia..].
  rewrite bind_ok. destruct (split3 data 81 16 (zlen data - 97)) as (d1 & mic & d2 & -> & L1 & L2 & L3); [lia..|].
  apply Forall_app in Hb as [Hb1 [Hb2 Hb3]%Forall_app]. change (Z.to_nat 16) with 16%nat.
  assert (zlen (replicate 16 0) = 16) as Hz by done.
  rewrite (get_app d1 mic d2), bind_ok by (rewrite ?L1; done). rewrite (blit_app d1 mic d2), bind_ok by (rewrite ?L1, ?L2; done).
  assert (bytes (d1 ++ replicate 16 0 ++ d2)) as Hb' by (repeat apply Forall_app_2; try done; by apply Forall_replicate).
  pose proof (mic_safe (kck ptk) (Z.land ki WPA_KEY_INFO_TYPE_MASK) _ Hk Hkb Hb') as Hm.
  apply safe_exists in Hm as (m & -> & Hm). rewrite bind_ok. destruct m as [m|].
  - destruct (Hm m eq_refl) as [Lm _]. rewrite (blit_app d1 _ d2 _ m), bind_ok by (rewrite ?L1, ?Lm; done).
    rewrite (get_app d1 m d2), bind_ok by (rewrite ?L1, ?Lm; done).
    rewrite (blit_app d1 m d2), bind_ok by (rewrite ?L1, ?Lm, ?L2; done). by eexists.
  - rewrite (blit_app d1 _ d2 _ mic), bind_ok by (rewrite ?L1, ?L2; done). by eexists.
Qed.

(** the allocator is asked for the frame and for the copy of the Key Data *)
Lemma frame_alloc alloc s counter Counter key_info key_rsc nonce kde keyidx encr :
  let version := send_version s 0 in
  let kd := match kde with Some k => zlen k | None => 0 end in
  let n := if wraps s version && encr then kd + pad_len kd + 8 else kd in
  alloc (HDR + keyhdrlen (wpa_mic_len (ks_key_mgmt s)) + n) = true -> (encr = true -> kde <> None -> alloc n = true) ->
  eapol_key_frame alloc s counter Counter key_info key_rsc nonce kde keyidx encr 0 =
  eapol_key_frame (fun _ => true) s counter Counter key_info key_rsc nonce kde keyidx encr 0.
Proof.
  intros version kd n Ha Hn. unfold eapol_key_frame. fold version kd n. rewrite Ha. cbn [negb].
  destruct (send_header _ _ _ _ _ _ _ _ _) as [f|]; [|done]. rewrite !bind_ok. destruct kde as [k|]; [|done].
  destruct encr; cbn [negb]; [|done]. unfold send_encrypted. by rewrite Hn.
Qed.

Lemma no_kde alloc s counter Counter key_info key_rsc nonce keyidx :
  wpa_mic_len (ks_key_mgmt s) = 16 -> zlen counter = 8 -> optional_size 32 nonce -> optional_size 8 key_rsc ->
  eapol_key_frame alloc s counter Counter key_info key_rsc nonce None keyidx false 0 =
  eapol_key_frame alloc s counter Counter key_info key_rsc nonce (Some []) keyidx false 0.
Proof.
  intros Hml Hc Hn Hr. unfold eapol_key_frame. rewrite Hml, !andb_false_r. change (zlen (@nil Z)) with 0.
  destruct (alloc _); [|done]. cbn [negb]. change (Z.to_nat (HDR + keyhdrlen 16 + 0)) with (Z.to_nat (HDR + keyhdrlen 16 + Z.of_nat 0)).
  rewrite (send_header_spec s key_info _ keyidx false counter nonce key_rsc 16 0) by (first [done|lia]). rewrite !bind_ok.
  set (h := header_fields _ _ _ _ _ _ _ _ _ _). assert (sized 16 h) as Hh by (by apply header_sized).
  destruct (frame_split 16 h Hh) as (head & E & Hhl & Hput). rewrite E. change (k_data h) with (@nil Z).
  rewrite (blit_last head [] _ []), bind_ok by (by rewrite ?Hhl). rewrite (Hput 0 []), !bind_ok.
  assert (frame_of (with_data 0 [] h) = head ++ []) as ->; [|done]. transitivity (frame_of h); [done|exact E].
Qed.

Definition opt_arr (n : Z) (o : option (list Z)) : Prop := match o with Some l => arr n l | None => True end.

Lemma opt_arr_parts n o : opt_arr n o -> optional_size n o /\ optional_bytes o.
Proof. destruct o; [by intros []|done]. Qed.

Lemma can_wrap_dec s version Counter : arr 32 Counter -> can_wrap s version Counter \/ ~ can_wrap s version Counter.
Proof.
  intros [Hl Hb]. unfold can_wrap. destruct (wraps s version).
  - destruct (aes_encrypt_init (kek (ks_PTK s))) as [c|]; [left; by exists c|right; by intros []].
  - destruct (decide (zlen (kek (ks_PTK s)) = 16)); [by left|right; by intros []].
Qed.

(** the MIC is put into the frame *)
Lemma sign_safe (b : bool) s version k C : sized 16 k -> bytes (frame_of k) -> arr 32 C ->
  (ks_PTK_valid s = true -> 16 <= zlen (kck (ks_PTK s)) /\ bytes (kck (ks_PTK s))) ->
  safe (if b then
          if negb (ks_PTK_valid s) then Ok (None, C)
          else m ← wpa_eapol_key_mic (kck (ks_PTK s)) version (frame_of k);
               match m with
               | None => Ok (Some (frame_of k), C)
               | Some m => f ← blit (frame_of k) o_key_mic m; Ok (Some f, C)
               end
        else Ok (Some (frame_of k), C)) (fun r => arr 32 r.2).
Proof.
  intros Hk Hb HC HP. destruct b; [|done]. destruct (ks_PTK_valid s); [|done]. destruct (HP eq_refl) as [H1 H2]. cbn [negb].
  eapply safe_bind; [by apply mic_safe|]. intros [m|] Hm; [|done]. destruct (Hm m eq_refl) as [Hl _].
  by rewrite (blit_mic 16).
Qed.

(** __wpa_send_eapol builds its frame inside its buffers *)
Lemma frame_safe alloc s counter Counter key_info key_rsc nonce kde keyidx encr :
  wpa_mic_len (ks_key_mgmt s) = 16 -> is_byte (ks_eapol_version s) -> arr 8 counter -> arr 32 Counter ->
  opt_arr 32 nonce -> opt_arr 8 key_rsc -> (forall k, kde = Some k -> bytes k /\ zlen k < 2 ^ 16) -> (kde = None -> encr = false) ->
  (ks_PTK_valid s = true -> 16 <= zlen (kck (ks_PTK s)) /\ bytes (kck (ks_PTK s))) ->
  safe (eapol_key_frame alloc s counter Counter key_info key_rsc nonce kde keyidx encr 0) (fun r => arr 32 r.2).
Proof.
  intros Hml Hev [Hc Hcb] HC [Hn Hnb]%opt_arr_parts [Hr Hrb]%opt_arr_parts Hk He HP.
  assert (exists k, eapol_key_frame alloc s counter Counter key_info key_rsc nonce kde keyidx encr 0 =
    eapol_key_frame alloc s counter Counter key_info key_rsc nonce (Some k) keyidx encr 0 /\ bytes k /\ zlen k < 2 ^ 16) as (k & -> & Hkb & Hkl).
  { destruct kde as [k|]; [exists k; by destruct (Hk k eq_refl)|]. rewrite He by done. exists []. split; [by apply no_kde|done]. }
  clear Hk He kde. pose proof (zlen_nonneg k) as Hk0.
  assert (pad_len (zlen k) <= 8 /\ 0 <= pad_len (zlen k)) as [Hp8 Hp0]
    by (unfold pad_len; pose proof (Z.mod_pos_bound (zlen k) 8); destruct (zlen k mod 8 =? 0); lia).
  set (n := if wraps s (send_version s 0) && encr then zlen k + pad_len (zlen k) + 8 else zlen k).
  assert (0 <= n) as Hn0 by (unfold n; destruct (wraps _ _ && encr); lia).
  destruct (alloc (HDR + keyhdrlen (wpa_mic_len (ks_key_mgmt s)) + n)) eqn:Ha.
  2: { unfold eapol_key_frame. fold n. by rewrite Ha. }
  destruct (can_wrap_dec s (send_version s 0) Counter HC) as [Hw|Hw]; [destruct encr; [destruct (alloc n) eqn:Han|]|destruct encr].
  2, 4: unfold eapol_key_frame; fold n; rewrite Ha; cbn [negb]; rewrite Hml;
    replace (Z.to_nat (HDR + keyhdrlen 16 + n)) with (Z.to_nat (HDR + keyhdrlen 16 + Z.of_nat (Z.to_nat n))) by (f_equal; lia);
    rewrite (send_header_spec s key_info (send_version s 0) keyidx true counter nonce key_rsc 16 (Z.to_nat n)) by (first [done|lia]);
    rewrite !bind_ok; rewrite send_encrypted_cannot; try done; try lia; try (unfold n; by rewrite andb_true_r); try congruence;
    rewrite (zlen_frame_of 16) by (apply header_sized; first [done|lia]); cbn [k_data header_fields]; rewrite length_repl by done;
    unfold HDR, keyhdrlen; lia.
  all: rewrite frame_alloc by done;
    match goal with |- safe (eapol_key_frame _ _ _ _ _ _ _ _ _ ?e _) _ =>
      destruct (unsigned_frame (fun _ => true) s counter Counter key_info key_rsc nonce k keyidx e)
        as (iv & d & C' & -> & Hsz & Hfb & _ & _ & HC'); [done..|lia|done|done|] end;
    (assert (arr 32 C') as HC2 by (destruct HC' as [->|]; done)); apply sign_safe; done.
Qed.
End Frames.

(** ** Keys *)

Section Keys.
Context {DG : Digests} {DL : DigestsLaws} {DT : DigestsTotal}.

Lemma sha1_block_arr key label data i : arr 20 (sha1_block key label data i).
Proof.
  unfold sha1_block, the_hash. destruct (hmac_sha1_total key (label ++ [0] ++ data ++ [i])) as [m E].
  rewrite E. by apply hmac_sha1_20 in E.
Qed.

Lemma sha256_block_arr key label data bits i : arr 32 (sha256_block key label data bits i).
Proof.
  unfold sha256_block, the_hash. destruct (hmac_sha256_total key (to_le 2 i ++ label ++ data ++ to_le 2 bits)) as [m E].
  rewrite E. by apply hmac_sha256_32 in E.
Qed.

Lemma prf_bytes_arr block c n k : 0 < k -> 0 <= n -> (forall i, arr k (block i)) -> arr n (prf_bytes block c n).
Proof.
  intros Hk Hn Hb. split.
  - unfold zlen. rewrite (length_prf _ _ _ k); [lia|done|apply Hb].
  - apply Forall_take, Forall_concat, Forall_map, Forall_forall. intros i _. apply Hb.
Qed.

Lemma kdf_arr akmp key label data n : 0 <= n -> arr n (kdf akmp key label data n).
Proof.
  intros. unfold kdf. destruct (wpa_key_mgmt_sha256 akmp).
  - apply (prf_bytes_arr _ _ _ 32); [done|done|apply sha256_block_arr].
  - apply (prf_bytes_arr _ _ _ 20); [done|done|apply sha1_block_arr].
Qed.

Lemma sha256_prf_safe key label data buf n : arr 32 buf -> 0 <= n <= 32 -> safe (sha256_prf key label data buf n) (arr 32).
Proof.
  intros [Hl Hb] Hn. rewrite <- (take_drop (Z.to_nat n) buf).
  rewrite sha256_prf_spec by (unfold zlen in *; rewrite ?length_take; lia). cbn.
  destruct (prf_bytes_arr (sha256_block key label data (n * 8)) 1 n 32) as [Hpl Hpb]; [done|lia|apply sha256_block_arr|].
  split; [|apply Forall_app_2; [done|by apply Forall_drop]]. unfold zlen in *. rewrite length_app, length_drop. lia.
Qed.

Lemma sha1_prf_safe key label data buf : arr 32 buf -> safe (sha1_prf key label data buf 32) (fun r => arr 32 r.2).
Proof.
  intros [Hl Hb]. rewrite <- (app_nil_r buf), sha1_prf_spec by (rewrite ?Hl; done). cbn. rewrite app_nil_r.
  apply (prf_bytes_arr _ _ _ 20); [done|done|apply sha1_block_arr].
Qed.

(** a PTK that can sign *)
Definition ptk_ok (p : wpa_ptk) : Prop := 16 <= zlen (kck p) /\ bytes (kck p).

Lemma pmk_to_ptk_safe pmk label a1 a2 n1 n2 akmp cipher :
  safe (wpa_pmk_to_ptk pmk label a1 a2 n1 n2 akmp cipher) ptk_ok.
Proof.
  destruct (wpa_pmk_to_ptk_spec pmk label a1 a2 n1 n2 akmp cipher) as (k1 & k2 & k3 & -> & H1 & _ & _ & HK). cbn.
  destruct (key_lengths akmp cipher) as (L1 & L2 & L3). split; [cbn; lia|].
  assert (bytes (k1 ++ k2 ++ k3)) as Hb by (rewrite HK; apply kdf_arr; lia). by apply Forall_app in Hb as [].
Qed.

Lemma rsn_pmkid_safe pmk aa spa b : safe (rsn_pmkid pmk aa spa b) (arr 16).
Proof.
  unfold rsn_pmkid, PMKID_LEN. destruct b.
  - destruct (hmac_sha256_total pmk (pmk_name ++ aa ++ spa)) as [h E]. rewrite E. apply hmac_sha256_32 in E as [Hl Hb].
    apply get_safe; [done|lia..].
  - destruct (hmac_sha1_total pmk (pmk_name ++ aa ++ spa)) as [h E]. rewrite E. apply hmac_sha1_20 in E as [Hl Hb].
    apply get_safe; [done|lia..].
Qed.
End Keys.

(** ** The environment and the configuration *)

Class EnvLaws `{WpaEnv} : Prop := {
  random_arr t n : 0 <= n -> arr n (random_get_bytes t n).2;
  seqnum_arr t i rsc : wpa_auth_get_seqnum t i = Some rsc -> arr 8 rsc }.

(** an information element *)
Definition element (id : Z) (body : list Z) : list Z := id :: zlen body :: body.

(** wpa_auth_gen_wpa_ie writes an RSN element, a WPA element, or both *)
Record conf_ok (conf : wpa_auth_config) : Prop := {
  ok_version : is_byte (conf_eapol_version conf);
  ok_ie : exists id body rest, conf_wpa_ie conf = element id body ++ rest /\
    (rest = [] \/ exists id' body', rest = element id' body' /\ id' <> WLAN_EID_MOBILITY_DOMAIN);
  ok_ie_bytes : bytes (conf_wpa_ie conf);
  ok_ie_len : zlen (conf_wpa_ie conf) <= 128 }.

(** ** The group *)

(** the members after a chain of setters *)
Ltac mem := unfold gisset, gval, gstr_val, isset, val, str;
  cbn [gsetf gsetn gsets gset_GTK gset_IGTK gset_state gtick gemit
       gflag_of gnum_of gstr_of GTK IGTK wpa_group_state tick glog sta sh with_sh with_sta fst snd];
  repeat first [rewrite fn_lookup_insert | rewrite fn_lookup_insert_ne by discriminate].

Definition keys_ok (K : list (list Z)) : Prop := zlen K = 2 /\ Forall (arr 32) K.

(** what holds before the keys are first set *)
Record sh_pre (x : shared) : Prop := {
  pre_Counter : arr 32 (gstr_of x Counter);
  pre_GNonce : arr 32 (gstr_of x GNonce);
  pre_GTK : keys_ok (GTK x);
  pre_IGTK : keys_ok (IGTK x);
  pre_len : 0 <= gnum_of x GTK_len <= 32 }.

(** the key indices *)
Definition indices_ok (n : gnum -> Z) : Prop :=
  1 <= n GN <= 2 /\ n GM = 3 - n GN /\ 4 <= n GN_igtk <= 5 /\ n GM_igtk = 9 - n GN_igtk.

Definition sh_ok (x : shared) : Prop := sh_pre x /\ indices_ok (gnum_of x).

(** the members that drive the group state machine are the same *)
Definition same_group (x y : shared) : Prop :=
  wpa_group_state y = wpa_group_state x /\ gflag_of y GInit = gflag_of x GInit /\ gflag_of y GTKReKey = gflag_of x GTKReKey /\
  gflag_of y gchanged = gflag_of x gchanged.

Lemma same_group_refl x : same_group x x.
Proof. done. Qed.

Lemma same_group_trans x y z : same_group x y -> same_group y z -> same_group x z.
Proof. unfold same_group. intros (-> & -> & -> & ->). done. Qed.

Section Group.
Context {DG : Digests} {DL : DigestsLaws} {DT : DigestsTotal} {ENV : WpaEnv} {EL : EnvLaws} (conf : wpa_auth_config).

Lemma cipher_len c : 0 <= wpa_cipher_key_len c <= 32.
Proof. by destruct (key_lengths 0 c) as (_ & _ & H). Qed.

(** an operation that keeps the types and the group state machine *)
Definition keeps (x y : shared) : Prop := sh_ok y /\ same_group x y.

Lemma keeps_tick x y : keeps x y -> keeps x (gtick y).
Proof. intros [[Hp Hi] Hs]. split; [split; [destruct Hp; by split|done]|done]. Qed.

Lemma keeps_emit o x y : keeps x y -> keeps x (gemit o y).
Proof. intros [[Hp Hi] Hs]. split; [split; [destruct Hp; by split|done]|done]. Qed.

Lemma keeps_refl x : sh_ok x -> keeps x x.
Proof. done. Qed.

Lemma gmk_to_gtk_safe gmk label gnonce gtk len x : arr 32 gtk -> 0 <= len <= 32 ->
  safe (wpa_gmk_to_gtk conf gmk label gnonce gtk len x) (fun r => arr 32 r.1.2 /\ r.2 = gtick x).
Proof.
  intros Hg Hl. unfold wpa_gmk_to_gtk. destruct (random_get_bytes (tick x) 16) as [r rnd].
  safe_to (arr 32); [by apply sha256_prf_safe|]. by intros g Hg'.
Qed.

Lemma derive_safe label K idx len x : sh_pre x -> keys_ok K -> 0 <= idx < 2 -> 0 <= len <= 32 ->
  safe (derive_group_key conf label K idx len x) (fun r =>
    keys_ok r.1.2 /\ sh_pre r.2 /\ same_group x r.2 /\ gnum_of r.2 = gnum_of x).
Proof.
  intros [HC HN HG HI Hl] [HK HKa] Hi Hlen. unfold derive_group_key.
  safe_to (arr 32); [apply inc_safe; by mem|intros c Hc].
  safe_to (arr 32); [apply rd_safe; [done|lia]|intros g Hg].
  eapply safe_bind; [by apply gmk_to_gtk_safe|]. intros [[r g'] x'] [Hg' E]. cbn [fst snd] in *. subst x'.
  rewrite wr_ok by lia. rewrite bind_ok. cbn. split; [|split; [|done]].
  - split; [rewrite zlen_insert by done; done|by apply Forall_insert].
  - split; mem; done.
Qed.

Lemma gtk_update_safe x : sh_ok x -> safe (wpa_gtk_update conf x) (fun r => keeps x r.2).
Proof.
  intros [Hp (H1 & H2 & H3 & H4)]. unfold wpa_gtk_update. eapply safe_bind.
  - apply derive_safe; [done|apply Hp|mem; lia|apply Hp].
  - intros [[r1 g] x1] (Hg & Hp1 & Hs1 & Hn1). cbn [fst snd] in *.
    assert (sh_pre (gset_GTK g x1)) as Hp2 by (destruct Hp1; split; mem; done).
    destruct (conf_ieee80211w conf).
    + eapply safe_bind.
      * apply derive_safe; [exact Hp2|apply Hp2|mem; rewrite Hn1; lia|apply cipher_len].
      * intros [[r2 g2] x2] (Hg2 & Hp3 & Hs3 & Hn3). cbn [fst snd] in *. cbn. split; [split|].
        -- destruct Hp3. split; mem; done.
        -- mem. rewrite Hn3. mem. by rewrite Hn1.
        -- apply (same_group_trans _ _ _ Hs1). exact Hs3.
    + cbn. split; [split; [done|]|]; [mem; by rewrite Hn1|exact Hs1].
Qed.

Lemma set_group_key_safe K base idx len x : sh_ok x -> keys_ok K -> base <= idx < base + 2 -> 0 <= len <= 32 ->
  safe (set_group_key K base idx len x) (fun r => keeps x r.2).
Proof.
  intros Hx [HK HKa] Hi Hl. unfold set_group_key. safe_to (arr 32); [apply rd_safe; [done|lia]|intros k [Hkl Hkb]].
  safe_to (arr len); [apply get_safe; [done|lia..]|]. intros k' _. cbn. by apply keeps_emit, keeps_tick.
Qed.

Lemma config_keys_safe x : sh_ok x -> safe (wpa_group_config_group_keys conf x) (fun r => keeps x r.2).
Proof.
  intros Hx. pose proof Hx as [Hp (H1 & H2 & H3 & H4)]. unfold wpa_group_config_group_keys.
  eapply safe_bind; [apply set_group_key_safe; [done|apply Hp|mem; lia|apply Hp]|]. intros [r y] [Hy Hs]. cbn [fst snd] in *.
  destruct (r <? 0); [done|]. destruct (conf_ieee80211w conf); [|done].
  pose proof Hy as [Hpy (H1y & H2y & H3y & H4y)]. eapply safe_bind.
  - apply set_group_key_safe; [done|apply Hpy|mem; lia|apply cipher_len].
  - intros [r2 z] [Hz Hs2]. cbn. split; [done|by apply (same_group_trans _ _ _ Hs)].
Qed.

Lemma init_counter_safe x : arr 32 (gstr_of x Counter) ->
  safe (wpa_group_init_gmk_and_counter conf x) (fun r => arr 32 (gstr_of r.2 Counter) /\ same_group x r.2 /\
    gstr_of r.2 GNonce = gstr_of x GNonce /\ GTK r.2 = GTK x /\ IGTK r.2 = IGTK x /\ gnum_of r.2 = gnum_of x /\
    gflag_of r.2 = gflag_of x).
Proof.
  intros Hp. unfold wpa_group_init_gmk_and_counter. destruct (random_get_bytes _ _) as [r gmk].
  destruct (r <? 0); [cbn; mem; done|]. destruct (random_get_bytes _ _) as [r2 rkey]. destruct (r2 <? 0); [cbn; mem; done|].
  eapply safe_bind; [apply sha1_prf_safe; by mem|]. intros [r3 c] Hc. cbn. mem. done.
Qed.

Lemma init_safe x : sh_ok x -> safe (wpa_group_init_gmk_and_counter conf x) (fun r => keeps x r.2).
Proof.
  intros [[HC HN HG HI Hl] Hi]. eapply safe_mono; [by apply init_counter_safe|].
  intros [r y] (HC' & Hs & HN' & HG' & HI' & Hn & _). cbn [snd] in *.
  split; [split; [split|]|done]; rewrite ?HN', ?HG', ?HI', ?Hn; done.
Qed.

Lemma or_fails_safe f g x : safe (f x) (fun r => keeps x r.2) -> (forall y, sh_ok y -> safe (g y) (fun r => keeps y r.2)) ->
  safe (or_fails f g x) (fun r => keeps x r.2).
Proof.
  intros Hf Hg. unfold or_fails. eapply safe_bind; [exact Hf|]. intros [r y] [Hy Hs]. cbn [fst snd] in *.
  destruct (r <? 0); [done|]. eapply safe_mono; [by apply Hg|]. intros z [Hz Hs2]. split; [done|by apply (same_group_trans _ _ _ Hs)].
Qed.

(** flags that do not matter here *)
Lemma keeps_flag f b x y : f <> GInit -> f <> GTKReKey -> f <> gchanged -> keeps x y -> keeps x (gsetf f b y).
Proof.
  intros H1 H2 H3 [[Hp Hi] Hs]. split; [split; [destruct Hp; by split|done]|].
  destruct Hs as (E1 & E2 & E3 & E4). unfold same_group. mem. rewrite !fn_lookup_insert_ne by done. done.
Qed.

Lemma ensure_init_safe x : sh_ok x -> safe (wpa_group_ensure_init conf x) (keeps x).
Proof.
  intros Hx. unfold wpa_group_ensure_init. destruct (gisset first_sta_seen x); [done|].
  set (y := if negb (random_pool_ready (tick x)) then _ else _).
  assert (keeps x y) as [Hy Hs] by (unfold y; destruct (negb _); repeat apply keeps_flag; try done; by apply keeps_tick).
  eapply safe_bind.
  - apply or_fails_safe; [by apply init_safe|]. intros z Hz. apply or_fails_safe; [by apply gtk_update_safe|].
    intros; by apply config_keys_safe.
  - intros [r z] [Hz Hs2]. cbn [fst snd] in *. assert (keeps x z) as Hk by (split; [done|by apply (same_group_trans _ _ _ Hs)]).
    destruct (r <? 0); [|done]. by repeat apply keeps_flag.
Qed.

(** the first key: only [sh_pre] holds before *)
Lemma gtk_init_safe x : sh_pre x -> safe (wpa_group_gtk_init conf x) (fun y =>
  sh_ok y /\ wpa_group_state y = WPA_GROUP_GTK_INIT /\ gflag_of y gchanged = false /\
  gflag_of y GInit = gflag_of x GInit /\ gflag_of y GTKReKey = gflag_of x GTKReKey).
Proof.
  intros [HC HN HG HI Hl]. unfold wpa_group_gtk_init. eapply safe_bind.
  - apply gtk_update_safe. split; [split; mem; try done|unfold indices_ok; mem; lia].
    split; [done|]. by repeat (apply Forall_cons_2; [by apply arr_replicate|]).
  - intros [r y] [Hy (E1 & E2 & E3 & E4)]. cbn [snd] in *. cbn. rewrite E1, E2, E3, E4. mem. done.
Qed.

Lemma swap_keys_ok x : sh_ok x -> sh_ok (swap_keys x).
Proof. intros [[HC HN HG HI Hl] (H1 & H2 & H3 & H4)]. split; [split; unfold swap_keys; mem; done|unfold indices_ok, swap_keys; mem; lia]. Qed.

Lemma setkeys_start_safe x : sh_ok x -> safe (setkeys_start conf x) (fun y =>
  sh_ok y /\ wpa_group_state y = WPA_GROUP_SETKEYS /\ gflag_of y GTKReKey = false /\ gflag_of y GInit = gflag_of x GInit).
Proof.
  intros Hx. unfold setkeys_start. eapply safe_bind.
  - apply gtk_update_safe, swap_keys_ok. destruct Hx as [[HC HN HG HI Hl] Hi]. split; [split; mem; done|exact Hi].
  - intros [r y] [[[HC HN HG HI Hl] (H1 & H2 & H3 & H4)] (E1 & E2 & E3 & E4)]. cbn [snd] in *. cbn. mem.
    rewrite E1, E2, E3. unfold swap_keys. mem. split; [|done]. split; [split; mem; done|unfold indices_ok; mem; lia].
Qed.

Lemma rekey_round_safe x : sh_ok x -> safe (gtk_rekey_round conf x) (keeps x).
Proof.
  intros Hx. unfold gtk_rekey_round. eapply safe_bind; [by apply gtk_update_safe, swap_keys_ok|].
  intros [r y] [Hy Hs]. cbn [snd] in *. eapply safe_bind; [by apply config_keys_safe|].
  intros [r2 z] [Hz Hs2]. cbn in *. split; [done|]. by apply (same_group_trans _ _ _ Hs).
Qed.
End Group.
