(* ===== verification/Erp.v ===== *)
(** * Re-authentication keys (src/hostapd-2.5/src/crypto/sha256-kdf.c, eap_server/eap_server.c, ap/ieee802_1x.c)

    The key derivation of RFC 5295, the keys an access point keeps for stations
    that may re-authenticate, and the checks EAP-Initiate/Re-auth must pass:
    the sequence number and the authentication tag.  The digest is that of
    [Digests]. *)

From S2P Require Import Prelude CText HexText AesCtr EapolKey EapCommon Prf WpaSafe.

Section Erp.
Context {DG : Digests}.

(** ** hmac_sha256_kdf: [outlen] bytes, or [None] for -1 *)

Fixpoint kdf_loop (fuel : nat) (secret s T : list Z) (iter pos outlen : Z) (out : list Z) : M (option (list Z)) :=
  match fuel with
  | O => Err OutOfFuel
  | S fuel =>
      let clen := Z.min (outlen - pos) SHA256_MAC_LEN in
      part ← get T 0 clen;
      let out := out ++ part in
      let pos := pos + clen in
      if pos =? outlen then Ok (Some out)
      else if iter =? 255 then Ok None
      else
        let iter := u8 (iter + 1) in
        match hmac_sha256 secret (T ++ s ++ [iter]) with
        | None => Ok None
        | Some T => kdf_loop fuel secret s T iter pos outlen out
        end
  end.

(** the label goes in with its terminating 0 *)
Definition hmac_sha256_kdf (secret label seed : list Z) (outlen : Z) : M (option (list Z)) :=
  let s := label ++ [0] ++ seed in
  match hmac_sha256 secret (s ++ [1]) with
  | None => Ok None
  | Some T => kdf_loop (S (Z.to_nat outlen)) secret s T 1 0 outlen []
  end.

(** ** struct eap_server_erp_key; [keyname_nai] without its terminating 0 *)

Record eap_server_erp_key := mkErpKey {
  rRK : list Z; rIK : list Z; recv_seq : Z; cryptosuite : Z; keyname_nai : list Z }.

Definition NO_SEQ : Z := u32 (-1).
Definition EAP_EMSK_NAME_LEN : Z := 8.
Definition ERP_MAX_KEY_LEN : Z := 64.

(** a C string in a buffer *)
Fixpoint cstr (l : list Z) : list Z := match l with [] => [] | c :: l => if c =? 0 then [] else c :: cstr l end.

(** the keys of the access point: hostapd_data.erp_keys *)
Fixpoint erp_get_key (keys : list eap_server_erp_key) (keyname : list Z) : option eap_server_erp_key :=
  match keys with
  | [] => None
  | k :: keys => if bool_decide (cstr (keyname_nai k) = keyname) then Some k else erp_get_key keys keyname
  end.
Definition erp_add_key (k : eap_server_erp_key) (keys : list eap_server_erp_key) : list eap_server_erp_key := k :: keys.
(** a write through the pointer that [erp_get_key] returned *)
Fixpoint erp_set_key (keys : list eap_server_erp_key) (keyname : list Z) (k' : eap_server_erp_key) : list eap_server_erp_key :=
  match keys with
  | [] => []
  | k :: keys => if bool_decide (cstr (keyname_nai k) = keyname) then k' :: keys else k :: erp_set_key keys keyname k'
  end.

(** eap_server_erp_init, once there is an EMSK: the key to store, or [None] *)
Definition erp_make_key (domain session_id emsk : list Z) : M (option eap_server_erp_key) :=
  let emsk_len := zlen emsk in
  name ← hmac_sha256_kdf session_id (str "EMSK") (to_be 2 8) EAP_EMSK_NAME_LEN;
  match name with
  | None => Ok None
  | Some EMSKname =>
      rrk ← hmac_sha256_kdf emsk (str "EAP Re-authentication Root Key@ietf.org") (to_be 2 emsk_len) emsk_len;
      match rrk with
      | None => Ok None
      | Some rrk =>
          rik ← hmac_sha256_kdf rrk (str "EAP Re-authentication Integrity Key@ietf.org") (to_be 2 emsk_len) (zlen rrk);
          match rik with
          | None => Ok None
          | Some rik => Ok (Some (mkErpKey rrk rik NO_SEQ 0 (concat (map hex2 EMSKname) ++ [64] ++ domain)))
          end
      end
  end.

(** ** EAP-Initiate/Re-auth *)

(** the header and the name: the sequence number, where the TLVs start and end, and the name *)
Record erp_initiate := mkInitiate { i_seq : Z; i_tlvs : Z; i_end : Z; i_name : Z * Z; i_nai : list Z }.

Definition erp_read_initiate (msg : option (list Z)) : M (option erp_initiate) :=
  r ← eap_hdr_validate EAP_VENDOR_IETF EAP_ERP_TYPE_REAUTH msg;
  match r, msg with
  | Some (pos, len), Some msg =>
      if len <? 4 then Ok None
      else
        let end_ := pos + len in
        _ ← rd msg pos;
        seq ← WPA_GET_BE16 msg (pos + 1);
        let tlvs := pos + 3 in
        parse ← erp_parse_tlvs msg tlvs end_ true;
        match parse with
        | Some (mkTlvs (Some (off, nlen)) _) =>
            if 253 <? nlen then Ok None
            else nai ← get msg off nlen; Ok (Some (mkInitiate seq tlvs end_ (off, nlen) nai))
        | _ => Ok None
        end
  | _, _ => Ok None
  end.

Definition cs_hash_len (cs : Z) : option Z :=
  if cs =? EAP_ERP_CS_HMAC_SHA256_256 then Some 32
  else if cs =? EAP_ERP_CS_HMAC_SHA256_128 then Some 16 else None.

(** whether the [n] bytes before [end_] are the tag of what stands before them; [None]: the digest failed *)
Definition erp_tag_matches (k : eap_server_erp_key) (msg : list Z) (end_ n : Z) : M (option bool) :=
  body ← get msg 0 (end_ - n);
  tag ← get msg (end_ - n) n;
  match hmac_sha256 (rIK k) body with
  | None => Ok None
  | Some hash => h ← get hash 0 n; Ok (Some (bool_decide (tag = h)))
  end.

(** the suite the tag was made with, or [None] for a refusal *)
Definition erp_check_tag (k : eap_server_erp_key) (msg : list Z) (start end_ : Z) : M (option Z) :=
  let max_len := end_ - start in
  if max_len <? 1 + (if cryptosuite k =? EAP_ERP_CS_HMAC_SHA256_256 then 32 else 16) then Ok None
  else match cs_hash_len (cryptosuite k) with
  | Some n =>
      cs ← rd msg (end_ - 1 - n);
      if negb (cs =? cryptosuite k) then Ok None
      else
        r ← erp_tag_matches k msg end_ n;
        Ok (match r with Some true => Some (cryptosuite k) | _ => None end)
  | None =>
      r256 ← (if 1 + 32 <=? max_len then
                cs ← rd msg (end_ - 33);
                if cs =? EAP_ERP_CS_HMAC_SHA256_256 then erp_tag_matches k msg end_ 32 else Ok (Some false)
              else Ok (Some false));
      match r256 with
      | None => Ok None
      | Some true => Ok (Some EAP_ERP_CS_HMAC_SHA256_256)
      | Some false =>
          cs ← rd msg (end_ - 17);
          if cs =? EAP_ERP_CS_HMAC_SHA256_128 then
            r ← erp_tag_matches k msg end_ 16;
            Ok (match r with Some true => Some EAP_ERP_CS_HMAC_SHA256_128 | _ => None end)
          else Ok None
      end
  end.

(** a key the station knows: the key as it is after the message, or [None] for "fail" *)
Definition erp_accept (k : eap_server_erp_key) (msg : list Z) (i : erp_initiate) : M (eap_server_erp_key * bool) :=
  let seq := i_seq i in
  if negb (recv_seq k =? NO_SEQ) && (seq <=? recv_seq k) then Ok (k, false)
  else
    cs ← erp_check_tag k msg (fst (i_name i) + snd (i_name i)) (i_end i);
    match cs with
    | None => Ok (k, false)
    | Some cs =>
        let k := mkErpKey (rRK k) (rIK k) (recv_seq k) cs (keyname_nai k) in
        n ← (match cs_hash_len cs with Some n => Ok n | None => Err Uninitialised end);
        parse ← erp_parse_tlvs msg (i_tlvs i) (i_end i - (1 + n)) false;
        match parse with
        | None => Ok (k, false)
        | Some _ => Ok (mkErpKey (rRK k) (rIK k) seq cs (keyname_nai k), true)
        end
    end.

(** the EAP-Finish/Re-auth message, or [None] when none is sent *)
Definition erp_finish_message (ok : bool) (erp : option eap_server_erp_key) (id flags seq : Z) (nai : list Z) : M (option (list Z)) :=
  let nai := cstr nai in
  hash_len ← (match erp with
              | None => Ok (Some 0)
              | Some k => Ok (cs_hash_len (cryptosuite k))
              end);
  match hash_len with
  | None => Ok None
  | Some hash_len =>
      let plen := 1 + 2 + 2 + zlen nai + (if hash_len =? 0 then 0 else 1 + hash_len) in
      msg ← eap_msg_alloc ok EAP_VENDOR_IETF EAP_ERP_TYPE_REAUTH plen EAP_CODE_FINISH id;
      match msg with
      | None => Ok None
      | Some msg =>
          msg ← wpabuf_put_u8 msg flags;
          msg ← wpabuf_put_be16 msg seq;
          msg ← wpabuf_put_u8 msg EAP_ERP_TLV_KEYNAME_NAI;
          msg ← wpabuf_put_u8 msg (zlen nai);
          msg ← wpabuf_put_data msg nai;
          match erp with
          | None => Ok (Some (wpabuf_head msg))
          | Some k =>
              msg ← wpabuf_put_u8 msg (cryptosuite k);
              match hmac_sha256 (rIK k) (wpabuf_head msg) with
              | None => Ok None
              | Some hash =>
                  h ← get hash 0 hash_len;
                  msg ← wpabuf_put_data msg h;
                  Ok (Some (wpabuf_head msg))
              end
          end
      end
  end.

(** the re-authentication master session key *)
Definition erp_rmsk (k : eap_server_erp_key) (seq : Z) : M (option (list Z)) :=
  hmac_sha256_kdf (rRK k) (str "Re-authentication Master Session Key@ietf.org") (to_be 2 seq ++ to_be 2 (zlen (rRK k))) (zlen (rRK k)).
End Erp.

(** ** Safety *)

Section Safety.
Context {DG : Digests} {DL : DigestsLaws}.

Lemma kdf_loop_safe fuel secret s T iter pos outlen out :
  arr 32 T -> bytes out -> zlen out = pos -> 0 <= pos <= outlen -> pos < outlen \/ outlen = 0 -> outlen - pos < Z.of_nat fuel ->
  safe (kdf_loop fuel secret s T iter pos outlen out) (fun r => if r is Some o then arr outlen o else True).
Proof.
  revert T iter pos out. induction fuel as [|fuel IH]; intros T iter pos out HT Ho Hz Hp Hlt Hf; [lia|]. cbn [kdf_loop].
  unfold SHA256_MAC_LEN. set (clen := Z.min _ 32).
  eapply safe_bind; [apply (get_safe T 0 clen); destruct HT; [done|lia..]|]. intros part [Hl Hb]. cbv zeta.
  destruct (Z.eqb_spec (pos + clen) outlen) as [He|He].
  - split; [rewrite zlen_app; lia|by apply Forall_app_2].
  - destruct (iter =? 255); [done|]. destruct (hmac_sha256 _ _) as [T'|] eqn:E; [|done].
    destruct (hmac_sha256_32 _ _ _ E) as [HT1 HT2].
    apply IH; [by split|by apply Forall_app_2|rewrite zlen_app; lia|lia|lia|lia].
Qed.

Lemma hmac_sha256_kdf_safe secret label seed outlen : 0 <= outlen ->
  safe (hmac_sha256_kdf secret label seed outlen) (fun r => if r is Some o then arr outlen o else True).
Proof.
  intros Ho. unfold hmac_sha256_kdf. cbv zeta. destruct (hmac_sha256 _ _) as [T|] eqn:E; [|done].
  destruct (hmac_sha256_32 _ _ _ E). apply kdf_loop_safe; [by split|done|done|lia|lia|lia].
Qed.

Lemma erp_make_key_safe domain sid emsk :
  safe (erp_make_key domain sid emsk) (fun r =>
    if r is Some k then zlen (rRK k) = zlen emsk /\ zlen (rIK k) = zlen emsk /\ recv_seq k = NO_SEQ else True).
Proof.
  unfold erp_make_key. cbv zeta. eapply safe_bind; [apply hmac_sha256_kdf_safe; done|]. intros [name|] Hn; [|done].
  eapply safe_bind; [apply hmac_sha256_kdf_safe; auto|]. intros [rrk|] Hk; [|done]. destruct Hk as [Hk1 Hk2].
  eapply safe_bind; [apply hmac_sha256_kdf_safe; auto|]. intros [rik|] Hi; [|done]. destruct Hi as [Hi1 Hi2].
  cbn. split; [done|]. split; [lia|done].
Qed.

(** a request whose name and TLVs lie in the message *)
Definition initiate_in (msg : list Z) (i : erp_initiate) : Prop :=
  5 <= i_tlvs i <= fst (i_name i) /\ 0 <= snd (i_name i) /\ fst (i_name i) + snd (i_name i) <= i_end i /\
  i_end i <= zlen msg /\ 0 <= i_seq i < 2 ^ 16 /\ bytes (i_nai i) /\ zlen (i_nai i) <= 253.

Lemma erp_read_initiate_safe msg : (if msg is Some d then bytes d else True) ->
  safe (erp_read_initiate msg) (fun r =>
    match r, msg with Some i, Some d => initiate_in d i /\ len_valid d 1 | Some _, None => False | None, _ => True end).
Proof.
  intros Hb. unfold erp_read_initiate. destruct msg as [d|]; [|done].
  eapply safe_bind; [by apply eap_hdr_validate_safe|]. intros [[pos len]|] [Hp Hv]; [|done]. destruct Hp as (H5 & H0 & Hl).
  destruct (Z.ltb_spec len 4); [done|]. cbv zeta.
  eapply safe_bind; [apply (rd_safe_any d pos); lia|]. intros _ _.
  eapply safe_bind; [apply (be16_safe d (pos + 1)); [done|lia..]|]. intros seq Hseq.
  eapply safe_bind; [apply (erp_parse_tlvs_safe d (pos + 3) (pos + len)); [done|lia..]|].
  intros [[[[off nlen]|] dm]|] Ht; [|done..]. destruct Ht as [(Hk1 & Hk2 & Hk3) _]. cbn [fst snd] in *.
  destruct (Z.ltb_spec 253 nlen); [done|].
  eapply safe_bind; [apply (get_safe d off nlen); [done|lia..]|]. intros nai [Hn1 Hn2].
  cbn. split; [|by apply Hv]. unfold initiate_in. cbn. repeat split; first [lia|done].
Qed.

Lemma erp_tag_matches_safe k msg end_ n : bytes msg -> 0 <= n <= 32 -> n <= end_ <= zlen msg ->
  safe (erp_tag_matches k msg end_ n) (fun _ => True).
Proof.
  intros Hb Hn He. unfold erp_tag_matches. eapply safe_bind; [apply (get_safe msg); [done|lia..]|]. intros body _.
  eapply safe_bind; [apply (get_safe msg); [done|lia..]|]. intros tag _.
  destruct (hmac_sha256 _ _) as [h|] eqn:E; [|done]. destruct (hmac_sha256_32 _ _ _ E).
  eapply safe_bind; [apply (get_safe h); [done|lia..]|]. done.
Qed.

Lemma cs_hash_len_range cs n : cs_hash_len cs = Some n -> n = 32 /\ cs = 3 \/ n = 16 /\ cs = 2.
Proof.
  unfold cs_hash_len, EAP_ERP_CS_HMAC_SHA256_256, EAP_ERP_CS_HMAC_SHA256_128.
  destruct (Z.eqb_spec cs 3); [intros [= <-]; by left|]. destruct (Z.eqb_spec cs 2); [intros [= <-]; by right|done].
Qed.

(** the room there was for the tag *)
Lemma erp_check_tag_safe k msg start end_ : bytes msg -> 0 <= start -> start <= end_ <= zlen msg ->
  safe (erp_check_tag k msg start end_) (fun r =>
    if r is Some cs then exists n, cs_hash_len cs = Some n /\ 1 + n <= end_ - start else True).
Proof.
  intros Hb H0 He. unfold erp_check_tag. cbv zeta. set (room := 1 + _). destruct (Z.ltb_spec (end_ - start) room) as [|Hroom]; [done|].
  destruct (cs_hash_len (cryptosuite k)) as [n|] eqn:Ec.
  - assert (room = 1 + n /\ 0 <= n <= 32) as [Hr Hn]
      by (unfold room, EAP_ERP_CS_HMAC_SHA256_256; destruct (cs_hash_len_range _ _ Ec) as [[-> ->]|[-> ->]]; cbn; lia).
    eapply safe_bind; [apply (rd_safe_any msg); lia|]. intros cs _. destruct (negb _); [done|].
    eapply safe_bind; [apply erp_tag_matches_safe; [done|lia..]|]. intros [[]|] _; [|done..]. cbn. exists n. split; [done|lia].
  - assert (room = 17) as Hr by (unfold room; revert Ec; unfold cs_hash_len; by destruct (_ =? EAP_ERP_CS_HMAC_SHA256_256)).
    apply (safe_bind (fun r => r = Some true -> 33 <= end_ - start)).
    { destruct (Z.leb_spec (1 + 32) (end_ - start)); [|cbn; congruence].
      eapply safe_bind; [apply (rd_safe_any msg); lia|]. intros cs _. destruct (cs =? _); [|cbn; congruence].
      eapply safe_mono; [apply erp_tag_matches_safe; [done|lia..]|]. intros; lia. }
    intros [[]|] H1; [|  |done].
    + cbn. exists 32. split; [done|]. specialize (H1 eq_refl). lia.
    + eapply safe_bind; [apply (rd_safe_any msg); lia|]. intros cs _. destruct (cs =? _); [|done].
      eapply safe_bind; [apply erp_tag_matches_safe; [done|lia..]|]. intros [[]|] _; [|done..]. cbn. exists 16. split; [done|lia].
Qed.

Lemma erp_accept_safe k msg i : bytes msg -> initiate_in msg i -> safe (erp_accept k msg i) (fun r =>
  rRK r.1 = rRK k /\ rIK r.1 = rIK k /\ keyname_nai r.1 = keyname_nai k /\
  (r.2 = true -> recv_seq r.1 = i_seq i /\ is_Some (cs_hash_len (cryptosuite r.1)))).
Proof.
  intros Hb (H1 & H2 & H3 & H4 & H5 & H6 & H7). unfold erp_accept. cbv zeta. destruct (_ && _); [by split_and!|].
  eapply safe_bind; [apply erp_check_tag_safe; [done|lia..]|]. intros [cs|] Hc; [|by split_and!]. destruct Hc as (n & En & Hn).
  rewrite En, bind_ok. destruct (cs_hash_len_range _ _ En) as [[-> ->]|[-> ->]];
    (eapply safe_bind; [apply (erp_parse_tlvs_safe msg); [done|lia..]|]; intros [t|] _; [|by split_and!];
     cbn; split_and!; try done; try (intros _; split; [done|by eexists])).
Qed.

Lemma zlen_cstr l : zlen (cstr l) <= zlen l.
Proof.
  induction l as [|c l IH]; [done|]. cbn [cstr]. destruct (c =? 0); rewrite ?zlen_cons, ?zlen_nil; [|lia].
  pose proof (zlen_nonneg l). lia.
Qed.

Lemma erp_finish_message_safe ok k id flags seq nai : safe (erp_finish_message ok k id flags seq nai) (fun _ => True).
Proof.
  unfold erp_finish_message. cbv zeta. set (hash_len := match k with Some _ => _ | None => _ end).
  assert (exists h, hash_len = Ok h /\ (if h is Some h then h = 0 /\ k = None \/ 0 < h <= 32 /\ k <> None else True)) as (h & -> & Hh).
  { unfold hash_len. destruct k as [k|]; [|exists (Some 0); by auto]. destruct (cs_hash_len _) as [n|] eqn:E; [|by exists None].
    exists (Some n). split; [done|]. destruct (cs_hash_len_range _ _ E) as [[-> _]|[-> _]]; right; by split. }
  rewrite bind_ok. destruct h as [h|]; [|done]. set (plen := 1 + 2 + 2 + _ + _). pose proof (zlen_nonneg (cstr nai)) as Hz.
  assert (plen = 5 + zlen (cstr nai) + if h =? 0 then 0 else 1 + h) as Hplen by (unfold plen; lia). clearbody plen.
  assert (0 <= plen) as Hp0 by (rewrite Hplen; destruct (h =? 0) eqn:?; lia).
  destruct ok; [|done]. rewrite eap_msg_alloc_ok, bind_ok by done. rewrite zlen_type_bytes. cbn [Z.eqb EAP_VENDOR_IETF].
  unfold wpabuf_put_u8, wpabuf_put_be16.
  set (hd := [_; _] ++ _ ++ _). assert (zlen hd = 5) as Hhd by (unfold hd; by rewrite !zlen_app, zlen_to_be, zlen_type_bytes).
  unfold eap_hdr_size. clearbody hd.
  assert (forall (l : list Z) a, zlen (a :: l) = 1 + zlen l) as Hcons by (intros; apply zlen_cons).
  do 5 (rewrite put_ok_app, bind_ok by (rewrite ?zlen_app, ?zlen_to_be, ?zlen_cons, ?zlen_nil; destruct (h =? 0) eqn:?; lia)).
  destruct k as [k|]; [|done]. destruct Hh as [[_ Hk]|[Hh _]]; [done|]. replace (h =? 0) with false in * by lia.
  rewrite put_ok_app, bind_ok by (rewrite ?zlen_app, ?zlen_to_be, ?zlen_cons, ?zlen_nil; lia). cbn [wpabuf_head].
  destruct (hmac_sha256 _ _) as [hash|] eqn:E; [|done]. destruct (hmac_sha256_32 _ _ _ E).
  eapply safe_bind; [apply (get_safe hash); [done|lia..]|]. intros h' [Hh1 Hh2].
  rewrite put_ok_app, bind_ok by (rewrite ?zlen_app, ?zlen_to_be, ?zlen_cons, ?zlen_nil; lia). done.
Qed.
End Safety.

(** ** What an accepted request proves *)

Section Accepted.
Context {DG : Digests}.

(** the last [n] bytes before [end_] are the digest, under the integrity key, of all that comes before *)
Definition tagged (k : eap_server_erp_key) (msg : list Z) (end_ n : Z) : Prop :=
  exists body tag hash, get msg 0 (end_ - n) = Ok body /\ get msg (end_ - n) n = Ok tag /\
    hmac_sha256 (rIK k) body = Some hash /\ get hash 0 n = Ok tag.

Lemma tag_matches_inv k msg end_ n : erp_tag_matches k msg end_ n = Ok (Some true) -> tagged k msg end_ n.
Proof.
  unfold erp_tag_matches. intros E. apply bind_ok_inv in E as (body & E1 & E). apply bind_ok_inv in E as (tag & E2 & E).
  destruct (hmac_sha256 _ _) as [hash|] eqn:Eh; [|done]. apply bind_ok_inv in E as (h & E3 & [= E]).
  apply bool_decide_eq_true in E as ->. by exists body, h, hash.
Qed.

Lemma check_tag_inv k msg start end_ cs : erp_check_tag k msg start end_ = Ok (Some cs) ->
  exists n, cs_hash_len cs = Some n /\ tagged k msg end_ n /\ (is_Some (cs_hash_len (cryptosuite k)) -> cs = cryptosuite k).
Proof.
  unfold erp_check_tag. cbv zeta. destruct (_ <? _); [done|]. destruct (cs_hash_len (cryptosuite k)) as [n|] eqn:Ec.
  - intros E. apply bind_ok_inv in E as (c & _ & E). destruct (negb _); [done|]. apply bind_ok_inv in E as (r & E1 & [= E]).
    destruct r as [[]|]; try done. injection E as <-. exists n. split; [done|]. split; [by apply tag_matches_inv|done].
  - intros E. apply bind_ok_inv in E as (r & E1 & E). destruct r as [[]|]; [| |done].
    + injection E as <-. exists 32. split; [done|]. split; [|by intros [? ?]].
      destruct (_ <=? _); [|done]. apply bind_ok_inv in E1 as (c & _ & E1). destruct (c =? _); [by apply tag_matches_inv|done].
    + apply bind_ok_inv in E as (c & _ & E). destruct (c =? _); [|done]. apply bind_ok_inv in E as (r & E2 & [= E]).
      destruct r as [[]|]; try done. injection E as <-. exists 16. split; [done|]. split; [by apply tag_matches_inv|by intros [? ?]].
Qed.

Lemma accept_inv k msg i k' : erp_accept k msg i = Ok (k', true) ->
  (recv_seq k = NO_SEQ \/ recv_seq k < i_seq i) /\ recv_seq k' = i_seq i /\ rIK k' = rIK k /\ rRK k' = rRK k /\
  exists n, cs_hash_len (cryptosuite k') = Some n /\ tagged k msg (i_end i) n /\
    (is_Some (cs_hash_len (cryptosuite k)) -> cryptosuite k' = cryptosuite k).
Proof.
  unfold erp_accept. cbv zeta. destruct (negb (recv_seq k =? NO_SEQ) && (i_seq i <=? recv_seq k)) eqn:Es; [done|]. intros E.
  assert (recv_seq k = NO_SEQ \/ recv_seq k < i_seq i) as Hfresh
    by (apply andb_false_iff in Es as [Es%negb_false_iff|Es]; lia).
  apply bind_ok_inv in E as ([cs|] & E1 & E); [|done]. apply check_tag_inv in E1 as (n & En & Ht & Hc).
  rewrite En, bind_ok in E. apply bind_ok_inv in E as ([t|] & _ & E); [|done]. injection E as <-.
  split; [done|]. do 3 (split; [done|]). by exists n.
Qed.

(** C30: re-authentication is authentic and cannot be replayed: a request is
    accepted only with a sequence number above the last accepted one and with
    the digest, under the stored integrity key, of everything before the tag, in
    the cryptosuite the key was used with before; and after it no request with
    the same or a smaller sequence number is accepted, whatever it contains. *)
Theorem erp_accept_authentic (k : eap_server_erp_key) (msg : list Z) (i : erp_initiate) (k' : eap_server_erp_key)
    (Hseq : 0 <= i_seq i < 2 ^ 16) (Hacc : erp_accept k msg i = Ok (k', true)) :
  (recv_seq k = NO_SEQ \/ recv_seq k < i_seq i) /\
  (exists n, cs_hash_len (cryptosuite k') = Some n /\ tagged k msg (i_end i) n /\
     (is_Some (cs_hash_len (cryptosuite k)) -> cryptosuite k' = cryptosuite k)) /\
  forall msg2 i2, i_seq i2 <= i_seq i -> erp_accept k' msg2 i2 = Ok (k', false).
Proof.
  apply accept_inv in Hacc as (Hf & Hr & _ & _ & Hn). split; [done|]. split; [done|].
  intros msg2 i2 Hi. unfold erp_accept. cbv zeta. rewrite Hr.
  assert (NO_SEQ = 2 ^ 32 - 1) as -> by done. by replace (negb (i_seq i =? 2 ^ 32 - 1) && (i_seq i2 <=? i_seq i)) with true by lia.
Qed.
End Accepted.

(** ** The key derivation against RFC 5295 *)

Section Kdf.
Context {DG : Digests} {DL : DigestsLaws} {DT : DigestsTotal}.

(** T(i), T(i+1), ..., [n] of them, where [T] is T(i) *)
Fixpoint kdf_stream (n : nat) (secret s T : list Z) (i : Z) : list Z :=
  match n with
  | O => []
  | S n => T ++ kdf_stream n secret s (the_hash hmac_sha256 secret (T ++ s ++ [i + 1])) (i + 1)
  end.

Definition rfc5295_kdf (secret label seed : list Z) (n : Z) : list Z :=
  let s := label ++ [0] ++ seed in
  take (Z.to_nat n) (kdf_stream (S (Z.to_nat (n / 32))) secret s (the_hash hmac_sha256 secret (s ++ [1])) 1).

Lemma the_hash_32 k d : zlen (the_hash hmac_sha256 k d) = 32 /\ hmac_sha256 k d = Some (the_hash hmac_sha256 k d).
Proof. unfold the_hash. destruct (hmac_sha256_total k d) as [h E]. rewrite E. cbn. split; [|done]. by apply hmac_sha256_32 in E as []. Qed.

Lemma kdf_loop_spec n fuel secret s T iter pos outlen out :
  zlen T = 32 -> zlen out = pos -> pos <= outlen -> (pos < outlen \/ outlen = 0) ->
  Z.of_nat n = (outlen - pos) / 32 -> (n < fuel)%nat -> 1 <= iter -> iter + (outlen - pos - 1) / 32 <= 255 ->
  kdf_loop fuel secret s T iter pos outlen out =
    Ok (Some (out ++ take (Z.to_nat (outlen - pos)) (kdf_stream (S n) secret s T iter))).
Proof.
  revert fuel T iter pos out. induction n as [|n IH]; intros [|fuel] T iter pos out HT Hz Hp Hlt Hn Hf Hi Hm; try lia.
  - cbn [kdf_loop kdf_stream]. unfold SHA256_MAC_LEN.
    assert (outlen - pos < 32) as Hs by (apply Z.nle_gt; intros ?; assert (1 <= (outlen - pos) / 32) by (apply Z.div_le_lower_bound; lia); lia).
    replace (Z.min (outlen - pos) 32) with (outlen - pos) by lia. rewrite app_nil_r.
    unfold get. pose proof (zlen_nonneg out). replace (_ && _) with true by lia. rewrite bind_ok. cbv zeta. replace (_ =? outlen) with true by lia. done.
  - assert (32 <= outlen - pos) as Hge by (apply Z.nlt_ge; intros ?; rewrite Z.div_small in Hn by (pose proof (zlen_nonneg out); lia); lia).
    cbn [kdf_loop]. unfold SHA256_MAC_LEN. replace (Z.min (outlen - pos) 32) with 32 by lia.
    rewrite get_whole, bind_ok by done. cbv zeta.
    assert (length T = 32%nat) as HT' by (unfold zlen in HT; lia).
    assert (take (Z.to_nat (outlen - pos)) (kdf_stream (S (S n)) secret s T iter) =
      T ++ take (Z.to_nat (outlen - (pos + 32))) (kdf_stream (S n) secret s (the_hash hmac_sha256 secret (T ++ s ++ [iter + 1])) (iter + 1))) as ->.
    { cbn [kdf_stream]. rewrite take_app, HT', take_ge by lia. f_equal. f_equal. lia. }
    destruct (Z.eqb_spec (pos + 32) outlen) as [He|He].
    + replace (Z.to_nat (outlen - (pos + 32))) with 0%nat by lia. by rewrite take_0, app_nil_r.
    + assert ((outlen - pos - 1) / 32 = 1 + (outlen - (pos + 32) - 1) / 32) as Hd
        by (replace (outlen - pos - 1) with (outlen - (pos + 32) - 1 + 1 * 32) by lia; rewrite Z.div_add by lia; lia).
      assert (0 <= (outlen - (pos + 32) - 1) / 32) by (apply Z.div_pos; lia).
      replace (iter =? 255) with false by lia. rewrite u8_small by lia.
      destruct (the_hash_32 secret (T ++ s ++ [iter + 1])) as [Hl ->]. rewrite IH; try lia.
      * by rewrite <- app_assoc.
      * rewrite zlen_app. lia.
Qed.

(** C31: the key derivation is the one of RFC 5295: for every output the counter
    octet can number, the loop with its partial last block returns the first
    octets of the stream T(1) T(2) ..., each block the digest of the block before
    it, the label with its terminating zero, the data and the block's number. *)
Theorem hmac_sha256_kdf_is_rfc5295 secret label seed n : 0 <= n <= 255 * 32 ->
  hmac_sha256_kdf secret label seed n = Ok (Some (rfc5295_kdf secret label seed n)).
Proof.
  intros Hn. unfold hmac_sha256_kdf, rfc5295_kdf. cbv zeta. set (s := label ++ [0] ++ seed).
  destruct (the_hash_32 secret (s ++ [1])) as [Hl ->].
  assert ((n - 0 - 1) / 32 <= 254) by (apply Z.lt_succ_r, Z.div_lt_upper_bound; lia).
  rewrite (kdf_loop_spec (Z.to_nat (n / 32))); try lia.
  - cbn [app]. by rewrite Z.sub_0_r.
  - done.
Qed.
End Kdf.

(** ** Examples *)

Lemma hmac_sha256_kdf_is_rfc5295_witness :
  hmac_sha256_kdf (seqZ 0 32) (str "EMSK") (to_be 2 8) 40 = Ok (Some (rfc5295_kdf (seqZ 0 32) (str "EMSK") (to_be 2 8) 40)).
Proof. apply (hmac_sha256_kdf_is_rfc5295 (seqZ 0 32) (str "EMSK") (to_be 2 8) 40). lia. Defined.

Definition sample_key : eap_server_erp_key := mkErpKey (seqZ 0 32) (seqZ 50 32) 6 EAP_ERP_CS_HMAC_SHA256_128 (str "0102@here").
(** a request with sequence number 7, its tag still to be filled in *)
Definition sample_request (tag : list Z) : list Z :=
  eap_message EAP_VENDOR_IETF EAP_ERP_TYPE_REAUTH EAP_CODE_INITIATE 3
    ([0] ++ to_be 2 7 ++ [EAP_ERP_TLV_KEYNAME_NAI; 9] ++ str "0102@here" ++ [EAP_ERP_CS_HMAC_SHA256_128] ++ tag).
Definition sample_tag : list Z :=
  take 16 (the_hash hmac_sha256 (seqZ 50 32) (take 20 (sample_request (replicate 16 0)))).
Definition sample_initiate : erp_initiate := mkInitiate 7 8 36 (10, 9) (str "0102@here").

Example sample_read : erp_read_initiate (Some (sample_request sample_tag)) = Ok (Some sample_initiate).
Proof. by vm_compute. Qed.

Lemma erp_accept_authentic_witness :
  exists k', erp_accept sample_key (sample_request sample_tag) sample_initiate = Ok (k', true) /\
    forall msg2 i2, i_seq i2 <= 7 -> erp_accept k' msg2 i2 = Ok (k', false).
Proof.
  exists (mkErpKey (seqZ 0 32) (seqZ 50 32) 7 EAP_ERP_CS_HMAC_SHA256_128 (str "0102@here")).
  assert (erp_accept sample_key (sample_request sample_tag) sample_initiate =
    Ok (mkErpKey (seqZ 0 32) (seqZ 50 32) 7 EAP_ERP_CS_HMAC_SHA256_128 (str "0102@here"), true)) as E by (vm_compute; reflexivity).
  split; [exact E|].
  apply (erp_accept_authentic sample_key (sample_request sample_tag) sample_initiate _); [cbn; lia|exact E].
Defined.
