(* ===== verification/EapServer.v ===== *)
(** * The EAP server (src/hostapd-2.5/src/eap_server/eap_server.c, eap_i.h, eap_server_methods.c)

    The full authenticator of RFC 4137 with its backend: the states and their
    entry actions, the step, the policy, and the method interface.  The
    structure shared with the EAPOL machines is [eap_eapol_interface] of
    EapolAuth.v; its other members are here.

    What a method may write of the structure is the record [eap_shared]; its
    private data is an element of [P].  A dereference of [sm->m] without a method
    is the error [NullDeref].  [clock] numbers the questions put to the
    environment (allocations, random numbers, the user database).

    The build has CONFIG_ERP.  Logging is left out. *)

From stdpp Require Import functions.
From S2P Require Import Prelude CText AesCtr EapolKey EapCommon EapolAuth Prf Erp.

(** ** Data *)

Inductive eap_state :=
| EAP_DISABLED | EAP_INITIALIZE | EAP_IDLE | EAP_RECEIVED | EAP_INTEGRITY_CHECK | EAP_METHOD_RESPONSE
| EAP_METHOD_REQUEST | EAP_PROPOSE_METHOD | EAP_SELECT_ACTION | EAP_SEND_REQUEST | EAP_DISCARD | EAP_NAK
| EAP_RETRANSMIT | EAP_SUCCESS | EAP_FAILURE | EAP_TIMEOUT_FAILURE | EAP_PICK_UP_METHOD
| EAP_INITIALIZE_PASSTHROUGH | EAP_IDLE2 | EAP_RETRANSMIT2 | EAP_RECEIVED2 | EAP_DISCARD2 | EAP_SEND_REQUEST2
| EAP_AAA_REQUEST | EAP_AAA_RESPONSE | EAP_AAA_IDLE | EAP_TIMEOUT_FAILURE2 | EAP_FAILURE2 | EAP_SUCCESS2
| EAP_INITIATE_REAUTH_START | EAP_INITIATE_RECEIVED.
Inductive method_state := METHOD_PROPOSED | METHOD_CONTINUE | METHOD_END.
Inductive eap_decision :=
| DECISION_SUCCESS | DECISION_FAILURE | DECISION_CONTINUE | DECISION_PASSTHROUGH | DECISION_INITIATE_REAUTH_START.
Inductive pending := METHOD_PENDING_NONE | METHOD_PENDING_WAIT | METHOD_PENDING_CONT.

(** Boolean members of the structure, and those of the interface that only the server and the AAA client use *)
Inductive sflag :=
| sm_changed | rxResp | rxInitiate | ignore | start_reauth | initiate_reauth_start_sent | try_initiate_reauth
| aaaEapReq | aaaEapNoReq | aaaSuccess | aaaFail | aaaEapKeyAvailable | aaaTimeout.
Inductive snum :=
| MaxRetrans | currentMethod | currentId | retransCount | methodTimeout | respId | respMethod | respVendor
| respVendorMethod | lastId | num_rounds | aaaMethodTimeout.
Inductive sbuf := lastReqData | eapRespData | eapKeyData | eapSessionId | aaaEapReqData | aaaEapKeyData.

#[export] Instance eap_state_eq_dec : EqDecision eap_state. Proof. solve_decision. Defined.
#[export] Instance method_state_eq_dec : EqDecision method_state. Proof. solve_decision. Defined.
#[export] Instance eap_decision_eq_dec : EqDecision eap_decision. Proof. solve_decision. Defined.
#[export] Instance pending_eq_dec : EqDecision pending. Proof. solve_decision. Defined.
#[export] Instance sflag_eq_dec : EqDecision sflag. Proof. solve_decision. Defined.
#[export] Instance snum_eq_dec : EqDecision snum. Proof. solve_decision. Defined.
#[export] Instance sbuf_eq_dec : EqDecision sbuf. Proof. solve_decision. Defined.

Definition EAP_MAX_METHODS : Z := 8.
Definition EAP_MAX_AUTH_ROUNDS : Z := 50.

(** [methods]: EAP_MAX_METHODS pairs of vendor and type *)
Record eap_user := mkUser {
  methods : list (Z * Z); password : option (list Z); password_hash : bool; phase2 : bool; user_remediation : bool }.

(** [remediated]: the callback that finds the user has asked the port for remediation *)
Record eap_shared := mkShared {
  identity : option (list Z); user : option eap_user; user_eap_method_index : Z; update_user : bool;
  method_pending : pending; remediated : bool; clock : nat }.

(** what is outside: the allocator, random numbers, and the callbacks of the access point *)
Class EapEnv := {
  env_alloc : nat -> bool;
  env_rand : nat -> Z;
  env_random_bytes : nat -> Z -> option (list Z);
  env_get_eap_user : nat -> list Z -> Z -> option eap_user;
  env_eap_req_id_text : list Z;
  env_erp_send_reauth_start : bool;
  env_erp_domain : option (list Z) }.

Record eap_config := mkEapConf { backend_auth : bool; eap_server : bool; erp : bool }.

(** struct eap_method: a table of functions; optional ones are options *)
Record eap_method {P : Type} := mkMethod {
  vendor : Z; method : Z;
  init : eap_shared -> eap_shared * option P;
  initPickUp : option (eap_shared -> eap_shared * option P);
  reset : eap_shared -> P -> eap_shared;
  buildReq : eap_shared -> P -> Z -> M (eap_shared * P * option (list Z));
  getTimeout : option (eap_shared -> P -> Z);
  check : option (eap_shared -> P -> list Z -> M (eap_shared * P * bool));
  process : eap_shared -> P -> list Z -> M (eap_shared * P);
  isDone : P -> bool;
  isSuccess : P -> bool;
  getKey : option (eap_shared -> P -> eap_shared * option (list Z));
  getSessionId : option (eap_shared -> P -> eap_shared * option (list Z));
  get_emsk : option (eap_shared -> P -> eap_shared * option (list Z)) }.
Arguments eap_method : clear implicits.
Arguments mkMethod {P}.

Record eap_sm {P : Type} := mkEap {
  EAP_state : eap_state;
  sflag_of : sflag -> bool; snum_of : snum -> Z; sbuf_of : sbuf -> option (list Z);
  methodState : method_state; decision : eap_decision;
  m : option (eap_method P); eap_method_priv : option P;
  shared : eap_shared; eap_if_of : eap_eapol_interface;
  erp_keys : list eap_server_erp_key }.
Arguments eap_sm : clear implicits.
Arguments mkEap {P}.

Section Members.
Context {P : Type}.
Implicit Types sm : eap_sm P.

Definition sget (f : sflag) sm : bool := sflag_of sm f.
Definition nget (n : snum) sm : Z := snum_of sm n.
Definition bget (b : sbuf) sm : option (list Z) := sbuf_of sm b.
Definition eget (f : eflag) sm : bool := eflag_of (eap_if_of sm) f.

Definition set_state (s : eap_state) sm := mkEap s (sflag_of sm) (snum_of sm) (sbuf_of sm) (methodState sm)
  (decision sm) (m sm) (eap_method_priv sm) (shared sm) (eap_if_of sm) (erp_keys sm).
Definition sset (f : sflag) (b : bool) sm := mkEap (EAP_state sm) (<[f := b]> (sflag_of sm)) (snum_of sm) (sbuf_of sm)
  (methodState sm) (decision sm) (m sm) (eap_method_priv sm) (shared sm) (eap_if_of sm) (erp_keys sm).
Definition nset (n : snum) (v : Z) sm := mkEap (EAP_state sm) (sflag_of sm) (<[n := v]> (snum_of sm)) (sbuf_of sm)
  (methodState sm) (decision sm) (m sm) (eap_method_priv sm) (shared sm) (eap_if_of sm) (erp_keys sm).
Definition bset (b : sbuf) (d : option (list Z)) sm := mkEap (EAP_state sm) (sflag_of sm) (snum_of sm) (<[b := d]> (sbuf_of sm))
  (methodState sm) (decision sm) (m sm) (eap_method_priv sm) (shared sm) (eap_if_of sm) (erp_keys sm).
Definition set_methodState (s : method_state) sm := mkEap (EAP_state sm) (sflag_of sm) (snum_of sm) (sbuf_of sm) s
  (decision sm) (m sm) (eap_method_priv sm) (shared sm) (eap_if_of sm) (erp_keys sm).
Definition set_decision (d : eap_decision) sm := mkEap (EAP_state sm) (sflag_of sm) (snum_of sm) (sbuf_of sm) (methodState sm)
  d (m sm) (eap_method_priv sm) (shared sm) (eap_if_of sm) (erp_keys sm).
Definition set_m (x : option (eap_method P)) sm := mkEap (EAP_state sm) (sflag_of sm) (snum_of sm) (sbuf_of sm) (methodState sm)
  (decision sm) x (eap_method_priv sm) (shared sm) (eap_if_of sm) (erp_keys sm).
Definition set_priv (p : option P) sm := mkEap (EAP_state sm) (sflag_of sm) (snum_of sm) (sbuf_of sm) (methodState sm)
  (decision sm) (m sm) p (shared sm) (eap_if_of sm) (erp_keys sm).
Definition set_shared (s : eap_shared) sm := mkEap (EAP_state sm) (sflag_of sm) (snum_of sm) (sbuf_of sm) (methodState sm)
  (decision sm) (m sm) (eap_method_priv sm) s (eap_if_of sm) (erp_keys sm).
Definition set_if (i : eap_eapol_interface) sm := mkEap (EAP_state sm) (sflag_of sm) (snum_of sm) (sbuf_of sm) (methodState sm)
  (decision sm) (m sm) (eap_method_priv sm) (shared sm) i (erp_keys sm).
Definition set_erp_keys (k : list eap_server_erp_key) sm := mkEap (EAP_state sm) (sflag_of sm) (snum_of sm) (sbuf_of sm) (methodState sm)
  (decision sm) (m sm) (eap_method_priv sm) (shared sm) (eap_if_of sm) k.

Definition eset (f : eflag) (b : bool) sm :=
  let i := eap_if_of sm in set_if (mkEapIf (<[f := b]> (eflag_of i)) (retransWhile i) (eapReqData i) (aaaEapRespData i)) sm.
Definition set_retrans (v : Z) sm :=
  let i := eap_if_of sm in set_if (mkEapIf (eflag_of i) v (eapReqData i) (aaaEapRespData i)) sm.
Definition set_eapReqData (d : option (list Z)) sm :=
  let i := eap_if_of sm in set_if (mkEapIf (eflag_of i) (retransWhile i) d (aaaEapRespData i)) sm.
Definition set_aaaEapRespData (d : option (list Z)) sm :=
  let i := eap_if_of sm in set_if (mkEapIf (eflag_of i) (retransWhile i) (eapReqData i) d) sm.

Definition sh_identity (x : option (list Z)) (s : eap_shared) :=
  mkShared x (user s) (user_eap_method_index s) (update_user s) (method_pending s) (remediated s) (clock s).
Definition sh_user (x : option eap_user) (s : eap_shared) :=
  mkShared (identity s) x (user_eap_method_index s) (update_user s) (method_pending s) (remediated s) (clock s).
Definition sh_index (x : Z) (s : eap_shared) :=
  mkShared (identity s) (user s) x (update_user s) (method_pending s) (remediated s) (clock s).
Definition sh_update (x : bool) (s : eap_shared) :=
  mkShared (identity s) (user s) (user_eap_method_index s) x (method_pending s) (remediated s) (clock s).
Definition sh_pending (x : pending) (s : eap_shared) :=
  mkShared (identity s) (user s) (user_eap_method_index s) (update_user s) x (remediated s) (clock s).
Definition sh_remediated (x : bool) (s : eap_shared) :=
  mkShared (identity s) (user s) (user_eap_method_index s) (update_user s) (method_pending s) x (clock s).
Definition sh_tick (s : eap_shared) :=
  mkShared (identity s) (user s) (user_eap_method_index s) (update_user s) (method_pending s) (remediated s) (S (clock s)).

Definition on_shared (f : eap_shared -> eap_shared) sm := set_shared (f (shared sm)) sm.
Definition cond (c : bool) (f : eap_sm P -> eap_sm P) sm := if c then f sm else sm.

(** SM_ENTRY *)
Definition enter (global : bool) (s : eap_state) sm :=
  set_state s (sset sm_changed (negb global || negb (bool_decide (EAP_state sm = s)) || sget sm_changed sm) sm).
End Members.

Open Scope sm_scope.

Section Shared.
Context {ENV : EapEnv}.

(** an allocation *)
Definition os_malloc (s : eap_shared) : bool * eap_shared := (env_alloc (clock s), sh_tick s).

(** eap_user_get: the return value *)
Definition eap_user_get (s : eap_shared) (id : list Z) (ph2 : Z) : Z * eap_shared :=
  let s := sh_user None s in
  let '(ok, s) := os_malloc s in
  if negb ok then (-1, s)
  else
    let found := env_get_eap_user (clock s) id ph2 in
    let s := sh_tick s in
    match found with
    | None => (-1, s)
    | Some u => (0, sh_index 0 (sh_user (Some u) (if user_remediation u then sh_remediated true s else s)))
    end.
End Shared.

Section Server.
Context {P : Type} {ENV : EapEnv} {DG : Digests}.
(** the registered methods and the configuration *)
Context (eap_methods : list (eap_method P)) (conf : eap_config).
Implicit Types sm : eap_sm P.

Fixpoint find_method (l : list (eap_method P)) (vd ty : Z) : option (eap_method P) :=
  match l with
  | [] => None
  | x :: l => if (vendor x =? vd) && (method x =? ty) then Some x else find_method l vd ty
  end.
Definition eap_server_get_eap_method (vd ty : Z) : option (eap_method P) := find_method eap_methods vd ty.

(** ** Helpers *)

Definition eap_server_clear_identity sm : eap_sm P := on_shared (sh_identity None) sm.

(** a question to the environment from the machine itself *)
Definition sm_malloc sm : bool * eap_sm P := let '(ok, s) := os_malloc (shared sm) in (ok, set_shared s sm).

(** eap_copy_buf and eap_copy_data: the return value and what the destination then points to *)
Definition eap_copy_buf (dst src : option (list Z)) sm : Z * option (list Z) * eap_sm P :=
  match src with
  | None => (-1, dst, sm)
  | Some d => let '(ok, sm) := sm_malloc sm in if (ok : bool) then (0, Some d, sm) else (-1, None, sm)
  end.

Definition eap_sm_calculateTimeout sm : Z :=
  if sget try_initiate_reauth sm then 1
  else if negb (nget methodTimeout sm =? 0) then nget methodTimeout sm
  else
    (fix backoff (n : nat) (rto : Z) : Z :=
       match n with
       | O => rto
       | S n => let rto := rto * 2 in if 20 <=? rto then 20 else backoff n rto
       end) (Z.to_nat (nget retransCount sm)) 3.

(** rxResp, rxInitiate, respId, respMethod, respVendor, respVendorMethod *)
Definition eap_sm_parseEapResp (resp : option (list Z)) sm : M (eap_sm P) :=
  let sm := sm |> sset rxResp false |> sset rxInitiate false |> nset respId (-1) |> nset respMethod EAP_TYPE_NONE
               |> nset respVendor EAP_VENDOR_IETF |> nset respVendorMethod EAP_TYPE_NONE in
  match resp with
  | None => Ok sm
  | Some resp =>
      if zlen resp <? eap_hdr_size then Ok sm
      else
        plen ← hdr_length resp;
        if zlen resp <? plen then Ok sm
        else
          id ← rd resp 1;
          code ← rd resp 0;
          let sm := sm |> nset respId id |> (if code =? EAP_CODE_RESPONSE then sset rxResp true
                                             else if code =? EAP_CODE_INITIATE then sset rxInitiate true else (fun sm => sm)) in
          if eap_hdr_size <? plen then
            t ← rd resp eap_hdr_size;
            let sm := nset respMethod t sm in
            if t =? EAP_TYPE_EXPANDED then
              if plen <? eap_hdr_size + 8 then Ok sm
              else
                vd ← WPA_GET_BE24 resp (eap_hdr_size + 1);
                vm ← WPA_GET_BE32 resp (eap_hdr_size + 4);
                Ok (sm |> nset respVendor vd |> nset respVendorMethod vm)
            else Ok sm
          else Ok sm
  end.

Definition eap_sm_getId (data : option (list Z)) : Z :=
  match data with None => -1 | Some d => if zlen d <? eap_hdr_size then -1 else nth 1 d 0 end.

(** eap_sm_buildSuccess and eap_sm_buildFailure; the identifier is a u8 *)
Definition build_end (code id : Z) sm : option (list Z) * eap_sm P :=
  let '(ok, sm) := sm_malloc sm in (if (ok : bool) then Some [code; u8 id; 0; 4] else None, sm).
Definition eap_sm_buildSuccess := build_end EAP_CODE_SUCCESS.
Definition eap_sm_buildFailure := build_end EAP_CODE_FAILURE.

Definition eap_sm_nextId (id : Z) sm : Z * eap_sm P :=
  if id <? 0 then
    let id := Z.land (env_rand (clock (shared sm))) 255 in
    let sm := on_shared sh_tick sm in
    if negb (id =? nget lastId sm) then (id, sm) else (Z.land (id + 1) 255, sm)
  else (Z.land (id + 1) 255, sm).

(** eap_sm_buildInitiateReauthStart *)
Definition eap_sm_buildInitiateReauthStart (id : Z) sm : M (option (list Z) * eap_sm P) :=
  let '(ok, sm) := sm_malloc sm in
  let domain_len := (if env_erp_domain is Some d then zlen d else 0) in
  let plen := 1 + (if env_erp_domain is Some _ then 2 + domain_len else 0) in
  msg ← eap_msg_alloc ok EAP_VENDOR_IETF EAP_ERP_TYPE_REAUTH_START plen EAP_CODE_INITIATE id;
  match msg with
  | None => Ok (None, sm)
  | Some msg =>
      msg ← wpabuf_put_u8 msg 0;
      msg ← (match env_erp_domain with
             | None => Ok msg
             | Some d =>
                 msg ← wpabuf_put_u8 msg EAP_ERP_TLV_DOMAIN_NAME;
                 msg ← wpabuf_put_u8 msg domain_len;
                 wpabuf_put_data msg d
             end);
      Ok (Some (wpabuf_head msg), sm)
  end.

(** reset the method's data, where the code does so for [sm->m && sm->eap_method_priv] *)
Definition reset_method sm : eap_sm P :=
  match m sm, eap_method_priv sm with
  | Some meth, Some p => sm |> set_shared (reset meth (shared sm) p) |> set_priv None
  | _, _ => sm
  end.

(** [sm->m] and its data where the code dereferences them *)
Definition the_method sm : M (eap_method P * P) :=
  match m sm, eap_method_priv sm with Some meth, Some p => Ok (meth, p) | _, _ => Err NullDeref end.

(** ** Policy *)

Definition method_entry (u : eap_user) (i : Z) : M (Z * Z) := rd (methods u) i.
Definition is_method (e : Z * Z) : bool := negb (fst e =? EAP_VENDOR_IETF) || negb (snd e =? EAP_TYPE_NONE).

Fixpoint in_nak_list (l : list Z) (ty : Z) : bool := match l with [] => false | x :: l => (x =? ty) || in_nak_list l ty end.

(** eap_sm_process_nak's loop from index [i]: the new array of methods *)
Fixpoint nak_loop (fuel : nat) (nak_list : list Z) (i : Z) (ms : list (Z * Z)) : M (list (Z * Z)) :=
  match fuel with
  | O => Err OutOfFuel
  | S fuel =>
      if i <? EAP_MAX_METHODS then
        e ← rd ms i;
        if is_method e then
          if (fst e =? EAP_VENDOR_IETF) && in_nak_list nak_list (snd e) then nak_loop fuel nak_list (i + 1) ms
          else
            ms ← (if i + 1 <? EAP_MAX_METHODS then
                    rest ← get ms (i + 1) (EAP_MAX_METHODS - i - 1); blit ms i rest
                  else Ok ms);
            ms ← wr ms (EAP_MAX_METHODS - 1) (EAP_VENDOR_IETF, EAP_TYPE_NONE);
            nak_loop fuel nak_list i ms
        else Ok ms
      else Ok ms
  end.

Definition eap_sm_process_nak (nak_list : list Z) (s : eap_shared) : M eap_shared :=
  match user s with
  | None => Ok s
  | Some u =>
      ms ← nak_loop 20 nak_list (user_eap_method_index s) (methods u);
      Ok (sh_user (Some (mkUser ms (password u) (password_hash u) (phase2 u) (user_remediation u))) s)
  end.

Definition eap_sm_Policy_update (nak_list : option (list Z)) sm : M (eap_sm P) :=
  match nak_list, user (shared sm) with
  | Some l, Some u =>
      if phase2 u then Ok (set_decision DECISION_FAILURE sm)
      else s ← eap_sm_process_nak l (shared sm); Ok (set_shared s sm)
  | _, _ => Ok sm
  end.

(** the vendor and the type *)
Definition eap_sm_Policy_getNextMethod sm : M (Z * Z * eap_sm P) :=
  let s := shared sm in
  let idx := user_eap_method_index s in
  let none := Ok (EAP_VENDOR_IETF, EAP_TYPE_NONE, sm) in
  if (if identity s is None then true else false) || (nget currentId sm =? -1) then
    Ok (EAP_VENDOR_IETF, EAP_TYPE_IDENTITY, on_shared (sh_update true) sm)
  else match user s with
  | None => none
  | Some u =>
      if idx <? EAP_MAX_METHODS then
        e ← method_entry u idx;
        if is_method e then Ok (e, on_shared (sh_index (idx + 1)) sm) else none
      else none
  end.

(** the first configured method is Identity: a hint for the identity is asked for *)
Definition asks_identity (s : eap_shared) : M bool :=
  match user s with
  | None => Ok false
  | Some u => e ← method_entry u 0; Ok ((fst e =? EAP_VENDOR_IETF) && (snd e =? EAP_TYPE_IDENTITY))
  end.

Definition another_method (s : eap_shared) : M bool :=
  match user s with
  | None => Ok false
  | Some u =>
      if user_eap_method_index s <? EAP_MAX_METHODS then
        e ← method_entry u (user_eap_method_index s); Ok (is_method e)
      else Ok false
  end.

(** the second half of eap_sm_Policy_getDecision *)
Definition decide_rest sm : M (eap_decision * eap_sm P) :=
  let sm := sset start_reauth false sm in
  let s := shared sm in
  another ← another_method s;
  if (another : bool) then Ok (DECISION_CONTINUE, sm)
  else if (if identity s is None then true else false) && env_erp_send_reauth_start && negb (sget initiate_reauth_start_sent sm)
  then Ok (DECISION_INITIATE_REAUTH_START, sm)
  else if (if identity s is None then true else false) || (nget currentId sm =? -1) then Ok (DECISION_CONTINUE, sm)
  else Ok (DECISION_FAILURE, sm).

Definition decide_user sm : M (eap_decision * eap_sm P) :=
  let s := shared sm in
  match identity s with
  | Some id =>
      if ((if user s is None then true else false) || update_user s) && negb (sget start_reauth sm) then
        asked ← asks_identity s;
        let id_req := asked && (nget currentMethod sm =? EAP_TYPE_IDENTITY) in
        let '(ret, s) := eap_user_get s id 0 in
        let sm := set_shared s sm in
        if negb (ret =? 0) then Ok (DECISION_FAILURE, sm)
        else
          again ← asks_identity s;
          if id_req && again then Ok (DECISION_FAILURE, on_shared (sh_update true) sm)
          else decide_rest (on_shared (sh_update false) sm)
      else decide_rest sm
  | None => decide_rest sm
  end.

Definition eap_sm_Policy_getDecision sm : M (eap_decision * eap_sm P) :=
  let s := shared sm in
  if negb (eap_server conf) && (if identity s is Some _ then true else false) && negb (sget start_reauth sm)
  then Ok (DECISION_PASSTHROUGH, sm)
  else match m sm with
  | None => decide_user sm
  | Some _ =>
      '(meth, p) ← the_method sm;
      if negb (nget currentMethod sm =? EAP_TYPE_IDENTITY) && isSuccess meth p
      then Ok (DECISION_SUCCESS, on_shared (sh_update true) sm)
      else if isDone meth p && negb (isSuccess meth p) then Ok (DECISION_FAILURE, on_shared (sh_update true) sm)
      else decide_user sm
  end.

Definition eap_sm_Policy_doPickUp (ty : Z) : bool := ty =? EAP_TYPE_IDENTITY.

(** ** The states *)

Definition DISABLED_Enter (g : bool) sm : M (eap_sm P) :=
  Ok (sm |> enter g EAP_DISABLED |> nset num_rounds 0).

Definition INITIALIZE_Enter (g : bool) sm : M (eap_sm P) :=
  let sm := enter g EAP_INITIALIZE sm in
  let sm := sm
    |> cond (eget eapRestart sm && negb (eap_server conf) && (if identity (shared sm) is Some _ then true else false))
         eap_server_clear_identity
    |> sset try_initiate_reauth false |> nset currentId (-1)
    |> eset eapSuccess false |> eset eapFail false |> eset eapTimeout false
    |> bset eapKeyData None |> bset eapSessionId None
    |> eset eapKeyAvailable false |> eset eapRestart false
    |> reset_method |> set_m None |> on_shared (sh_index 0) in
  sm ← (if backend_auth conf then
          let sm := nset currentMethod EAP_TYPE_NONE sm in
          sm ← eap_sm_parseEapResp (bget eapRespData sm) sm;
          Ok (cond (sget rxResp sm) (fun sm => nset currentId (nget respId sm) sm) sm)
        else Ok sm);
  Ok (sm |> nset num_rounds 0 |> on_shared (sh_pending METHOD_PENDING_NONE)).

Definition PICK_UP_METHOD_Enter (g : bool) sm : M (eap_sm P) :=
  let sm := enter g EAP_PICK_UP_METHOD sm in
  if eap_sm_Policy_doPickUp (nget respMethod sm) then
    let sm := sm |> nset currentMethod (nget respMethod sm) |> reset_method in
    let meth := eap_server_get_eap_method EAP_VENDOR_IETF (nget currentMethod sm) in
    let sm := set_m meth sm in
    match meth with
    | Some meth =>
        match initPickUp meth with
        | Some pick_up =>
            let '(s, p) := pick_up (shared sm) in
            let sm := sm |> set_shared s |> set_priv p in
            Ok (if p is Some _ then sm else sm |> set_m None |> nset currentMethod EAP_TYPE_NONE)
        | None => Ok (sm |> set_m None |> nset currentMethod EAP_TYPE_NONE)
        end
    | None => Ok (sm |> set_m None |> nset currentMethod EAP_TYPE_NONE)
    end
  else Ok sm.

(** IDLE and IDLE2, RETRANSMIT and RETRANSMIT2, DISCARD and DISCARD2, SEND_REQUEST and SEND_REQUEST2 have the same bodies *)
Definition idle_Enter (s : eap_state) (g : bool) sm : M (eap_sm P) :=
  let sm := enter g s sm in Ok (set_retrans (eap_sm_calculateTimeout sm) sm).
Definition IDLE_Enter := idle_Enter EAP_IDLE.
Definition IDLE2_Enter := idle_Enter EAP_IDLE2.

Definition retransmit_Enter (s : eap_state) (g : bool) sm : M (eap_sm P) :=
  let sm := sm |> enter g s |> nset retransCount (nget retransCount sm + 1) in
  if (nget retransCount sm <=? nget MaxRetrans sm) && (if bget lastReqData sm is Some _ then true else false) then
    let '(ret, d, sm) := eap_copy_buf (eapReqData (eap_if_of sm)) (bget lastReqData sm) sm in
    Ok (sm |> set_eapReqData d |> cond (ret =? 0) (eset eapReq true))
  else Ok sm.
Definition RETRANSMIT_Enter := retransmit_Enter EAP_RETRANSMIT.
Definition RETRANSMIT2_Enter := retransmit_Enter EAP_RETRANSMIT2.

Definition discard_Enter (s : eap_state) (g : bool) sm : M (eap_sm P) :=
  Ok (sm |> enter g s |> eset eapResp false |> eset eapNoReq true).
Definition DISCARD_Enter := discard_Enter EAP_DISCARD.
Definition DISCARD2_Enter := discard_Enter EAP_DISCARD2.

Definition send_request_Enter (s : eap_state) (g : bool) sm : M (eap_sm P) :=
  let sm := sm |> enter g s |> nset retransCount 0 in
  match eapReqData (eap_if_of sm) with
  | Some d =>
      let '(ret, d, sm) := eap_copy_buf (bget lastReqData sm) (Some d) sm in
      Ok (sm |> bset lastReqData d |> eset eapResp false |> eset eapReq (ret =? 0))
  | None => Ok (sm |> eset eapResp false |> eset eapReq false |> eset eapNoReq true)
  end.
Definition SEND_REQUEST_Enter := send_request_Enter EAP_SEND_REQUEST.
Definition SEND_REQUEST2_Enter := send_request_Enter EAP_SEND_REQUEST2.

Definition RECEIVED_Enter (g : bool) sm : M (eap_sm P) :=
  let sm := enter g EAP_RECEIVED sm in
  sm ← eap_sm_parseEapResp (bget eapRespData sm) sm;
  Ok (nset num_rounds (nget num_rounds sm + 1) sm).
Definition RECEIVED2_Enter (g : bool) sm : M (eap_sm P) :=
  let sm := enter g EAP_RECEIVED2 sm in eap_sm_parseEapResp (bget eapRespData sm) sm.

Definition INTEGRITY_CHECK_Enter (g : bool) sm : M (eap_sm P) :=
  let sm := enter g EAP_INTEGRITY_CHECK sm in
  valid ← eap_hdr_len_valid (bget eapRespData sm) 1;
  match bget eapRespData sm with
  | Some resp =>
      if negb valid then Ok (sset ignore true sm)
      else
        '(meth, p) ← the_method sm;
        match check meth with
        | Some chk =>
            '(s, p, ign) ← chk (shared sm) p resp;
            Ok (sm |> set_shared s |> set_priv (Some p) |> sset ignore ign)
        | None => Ok sm
        end
  | None => Ok (sset ignore true sm)
  end.

Definition METHOD_REQUEST_Enter (g : bool) sm : M (eap_sm P) :=
  let sm := enter g EAP_METHOD_REQUEST sm in
  match m sm with
  | None => Ok sm
  | Some _ =>
      let '(id, sm) := eap_sm_nextId (nget currentId sm) sm in
      let sm := sm |> nset currentId id |> nset lastId id in
      '(meth, p) ← the_method sm;
      '(s, p, req) ← buildReq meth (shared sm) p (u8 id);
      let sm := sm |> set_shared s |> set_priv (Some p) |> set_eapReqData req in
      Ok (nset methodTimeout (if getTimeout meth is Some gt then gt (shared sm) p else 0) sm)
  end.

(** eap_server_erp_init *)
Definition eap_server_erp_init (meth : eap_method P) (p : P) sm : M (eap_sm P) :=
  match env_erp_domain with
  | None => Ok sm
  | Some domain =>
      if 253 <? 2 * EAP_EMSK_NAME_LEN + 1 + zlen domain then Ok sm
      else
        let '(ok, sm) := sm_malloc sm in
        if negb ok then Ok sm
        else match get_emsk meth with
        | None => Err NullDeref
        | Some get =>
            let '(s, emsk) := get (shared sm) p in
            let sm := set_shared s sm in
            match emsk, bget eapSessionId sm with
            | Some emsk, Some sid =>
                if (zlen emsk =? 0) || (ERP_MAX_KEY_LEN <? zlen emsk) then Ok sm
                else
                  k ← erp_make_key domain sid emsk;
                  Ok (if k is Some k then set_erp_keys (erp_add_key k (erp_keys sm)) sm else sm)
            | _, _ => Ok sm
            end
        end
  end.

(** the end of METHOD_RESPONSE, for a method that is done *)
Definition method_done (meth : eap_method P) (p : P) sm : M (eap_sm P) :=
  sm ← eap_sm_Policy_update None sm;
  let '(s, key) := (if getKey meth is Some gk then gk (shared sm) p else (shared sm, None)) in
  let sm := sm |> set_shared s |> bset eapKeyData key in
  let '(s, sid) := (if getSessionId meth is Some gs then gs (shared sm) p else (shared sm, None)) in
  let sm := sm |> set_shared s |> bset eapSessionId sid in
  sm ← (if erp conf && (if get_emsk meth is Some _ then true else false) && (if bget eapSessionId sm is Some _ then true else false)
        then eap_server_erp_init meth p sm else Ok sm);
  Ok (set_methodState METHOD_END sm).

Definition METHOD_RESPONSE_Enter (g : bool) sm : M (eap_sm P) :=
  let sm := enter g EAP_METHOD_RESPONSE sm in
  valid ← eap_hdr_len_valid (bget eapRespData sm) 1;
  match bget eapRespData sm with
  | Some resp =>
      if negb valid then Ok sm
      else
        '(meth, p) ← the_method sm;
        '(s, p) ← process meth (shared sm) p resp;
        let sm := sm |> set_shared s |> set_priv (Some p) in
        if isDone meth p then method_done meth p sm else Ok (set_methodState METHOD_CONTINUE sm)
  | None => Ok sm
  end.

(** PROPOSE_METHOD's loop: an init that fails goes on with the next method *)
Fixpoint propose_loop (fuel : nat) sm : M (eap_sm P) :=
  match fuel with
  | O => Err OutOfFuel
  | S fuel =>
      '(vd, ty, sm) ← eap_sm_Policy_getNextMethod sm;
      let sm := sm |> nset currentMethod (if vd =? EAP_VENDOR_IETF then ty else EAP_TYPE_EXPANDED) |> reset_method in
      let meth := eap_server_get_eap_method vd ty in
      match meth with
      | Some x =>
          let '(s, p) := init x (shared sm) in
          let sm := sm |> set_m (Some x) |> set_shared s |> set_priv p in
          match p with
          | None => propose_loop fuel (sm |> set_m None |> nset currentMethod EAP_TYPE_NONE)
          | Some _ =>
              Ok (set_methodState (if (nget currentMethod sm =? EAP_TYPE_IDENTITY) || (nget currentMethod sm =? EAP_TYPE_NOTIFICATION)
                                   then METHOD_CONTINUE else METHOD_PROPOSED) sm)
          end
      | None => Ok (sm |> set_m None |> set_decision DECISION_FAILURE)
      end
  end.

(** the eight methods, the NONE after them, and one to spare *)
Definition PROPOSE_ROUNDS : nat := 10.

Definition PROPOSE_METHOD_Enter (g : bool) sm : M (eap_sm P) :=
  propose_loop PROPOSE_ROUNDS (sm |> enter g EAP_PROPOSE_METHOD |> sset try_initiate_reauth false).

(** the list of methods in a Nak, from the octet after the type to the end the header gives *)
Definition nak_list_of (resp : list Z) : M (option (list Z)) :=
  if eap_hdr_size <? zlen resp then
    len ← hdr_length resp;
    let len := Z.min len (zlen resp) - eap_hdr_size in
    t ← rd resp eap_hdr_size;
    if t =? EAP_TYPE_NAK then l ← get resp (eap_hdr_size + 1) (len - 1); Ok (Some l) else Ok None
  else Ok None.

Definition NAK_Enter (g : bool) sm : M (eap_sm P) :=
  let sm := enter g EAP_NAK sm in
  sm ← (match eap_method_priv sm with
        | None => Ok sm
        | Some p => match m sm with
                    | None => Err NullDeref
                    | Some meth => Ok (sm |> set_shared (reset meth (shared sm) p) |> set_priv None)
                    end
        end);
  let sm := set_m None sm in
  valid ← eap_hdr_len_valid (bget eapRespData sm) 1;
  match bget eapRespData sm with
  | Some resp =>
      if negb valid then Ok sm
      else l ← nak_list_of resp; eap_sm_Policy_update l sm
  | None => Ok sm
  end.

Definition SELECT_ACTION_Enter (g : bool) sm : M (eap_sm P) :=
  let sm := enter g EAP_SELECT_ACTION sm in
  '(d, sm) ← eap_sm_Policy_getDecision sm;
  Ok (set_decision d sm).

Definition TIMEOUT_FAILURE_Enter (g : bool) sm : M (eap_sm P) := Ok (sm |> enter g EAP_TIMEOUT_FAILURE |> eset eapTimeout true).
Definition TIMEOUT_FAILURE2_Enter (g : bool) sm : M (eap_sm P) := Ok (sm |> enter g EAP_TIMEOUT_FAILURE2 |> eset eapTimeout true).

Definition FAILURE_Enter (g : bool) sm : M (eap_sm P) :=
  let sm := enter g EAP_FAILURE sm in
  let '(msg, sm) := eap_sm_buildFailure (nget currentId sm) sm in
  Ok (sm |> set_eapReqData msg |> bset lastReqData None |> eset eapFail true).

Definition SUCCESS_Enter (g : bool) sm : M (eap_sm P) :=
  let sm := enter g EAP_SUCCESS sm in
  let '(msg, sm) := eap_sm_buildSuccess (nget currentId sm) sm in
  Ok (sm |> set_eapReqData msg |> bset lastReqData None
         |> cond (if bget eapKeyData sm is Some _ then true else false) (eset eapKeyAvailable true)
         |> eset eapSuccess true).

Definition INITIATE_REAUTH_START_Enter (g : bool) sm : M (eap_sm P) :=
  let sm := sm |> enter g EAP_INITIATE_REAUTH_START |> sset initiate_reauth_start_sent true |> sset try_initiate_reauth true in
  let '(id, sm) := eap_sm_nextId (nget currentId sm) sm in
  let sm := sm |> nset currentId id |> nset lastId id in
  '(msg, sm) ← eap_sm_buildInitiateReauthStart (nget currentId sm) sm;
  Ok (sm |> set_eapReqData msg |> bset lastReqData None).

(** erp_send_finish_reauth *)
Definition erp_send_finish_reauth (k : option eap_server_erp_key) (id flags seq : Z) (nai : list Z) sm : M (eap_sm P) :=
  let '(ok, sm) := sm_malloc sm in
  msg ← erp_finish_message ok k id flags seq nai;
  match msg with
  | None => Ok sm
  | Some msg =>
      let sm := sm |> nset lastId (nget currentId sm) |> nset currentId id |> set_eapReqData (Some msg) |> bset lastReqData None in
      match k with
      | None => Ok (eset eapFail true sm)
      | Some k =>
          if Z.testbit flags 7 then Ok (eset eapFail true sm)
          else
            let '(ok, sm) := sm_malloc sm in
            if negb ok then Ok (bset eapKeyData None sm)
            else
              key ← erp_rmsk k seq;
              match key with
              | None => Ok (bset eapKeyData None sm)
              | Some key => Ok (sm |> bset eapKeyData (Some key) |> eset eapKeyAvailable true |> eset eapSuccess true)
              end
      end
  end.

Definition INITIATE_RECEIVED_Enter (g : bool) sm : M (eap_sm P) :=
  let sm := sm |> enter g EAP_INITIATE_RECEIVED |> sset rxInitiate false in
  let fail sm := Ok (sset ignore true sm) in
  let resp := bget eapRespData sm in
  r ← erp_read_initiate resp;
  match r, resp with
  | Some i, Some msg =>
      if negb (eap_server conf) then
        (* pass-through: the name is the user's identity *)
        let sm := eap_server_clear_identity sm in
        let '(ok, sm) := sm_malloc sm in
        if (ok : bool) then Ok (on_shared (sh_identity (Some (i_nai i))) sm) else fail sm
      else
        id ← rd msg 1;
        let name := cstr (i_nai i) in
        match erp_get_key (erp_keys sm) name with
        | None => erp_send_finish_reauth None id 128 (i_seq i) (i_nai i) sm
        | Some k =>
            '(k, accepted) ← erp_accept k msg i;
            let sm := set_erp_keys (erp_set_key (erp_keys sm) name k) sm in
            if (accepted : bool) then erp_send_finish_reauth (Some k) id 0 (i_seq i) (i_nai i) sm else fail sm
        end
  | _, _ => fail sm
  end.

Definition INITIALIZE_PASSTHROUGH_Enter (g : bool) sm : M (eap_sm P) :=
  Ok (sm |> enter g EAP_INITIALIZE_PASSTHROUGH |> set_aaaEapRespData None |> sset try_initiate_reauth false).

Definition AAA_REQUEST_Enter (g : bool) sm : M (eap_sm P) :=
  let sm := enter g EAP_AAA_REQUEST sm in
  match bget eapRespData sm with
  | None => Ok sm
  | Some d =>
      let '(_, r, sm) := eap_copy_buf (aaaEapRespData (eap_if_of sm)) (Some d) sm in
      Ok (set_aaaEapRespData r sm)
  end.

(** copy the AAA server's message to the station's *)
Definition copy_aaa_request sm : eap_sm P :=
  let '(_, d, sm) := eap_copy_buf (eapReqData (eap_if_of sm)) (bget aaaEapReqData sm) sm in set_eapReqData d sm.

Definition AAA_RESPONSE_Enter (g : bool) sm : M (eap_sm P) :=
  let sm := sm |> enter g EAP_AAA_RESPONSE |> copy_aaa_request in
  Ok (sm |> nset currentId (eap_sm_getId (eapReqData (eap_if_of sm))) |> nset methodTimeout (nget aaaMethodTimeout sm)).

Definition AAA_IDLE_Enter (g : bool) sm : M (eap_sm P) :=
  Ok (sm |> enter g EAP_AAA_IDLE |> sset aaaFail false |> sset aaaSuccess false |> sset aaaEapReq false
         |> sset aaaEapNoReq false |> eset aaaEapResp true).

Definition FAILURE2_Enter (g : bool) sm : M (eap_sm P) :=
  Ok (sm |> enter g EAP_FAILURE2 |> copy_aaa_request |> eset eapFail true).

Definition SUCCESS2_Enter (g : bool) sm : M (eap_sm P) :=
  let sm := sm |> enter g EAP_SUCCESS2 |> copy_aaa_request in
  let sm := eset eapKeyAvailable (sget aaaEapKeyAvailable sm) sm in
  let sm := (if sget aaaEapKeyAvailable sm then
               let '(_, d, sm) := eap_copy_buf (bget eapKeyData sm) (bget aaaEapKeyData sm) sm in bset eapKeyData d sm
             else bset eapKeyData None sm) in
  Ok (sm |> eset eapSuccess true |> sset start_reauth true).

(** ** The step *)

Definition is_nak sm : bool :=
  (nget respMethod sm =? EAP_TYPE_NAK) ||
  ((nget respMethod sm =? EAP_TYPE_EXPANDED) && (nget respVendor sm =? EAP_VENDOR_IETF) &&
   (nget respVendorMethod sm =? EAP_TYPE_NAK)).
Definition is_current_method sm : bool :=
  (nget respMethod sm =? nget currentMethod sm) ||
  ((nget respMethod sm =? EAP_TYPE_EXPANDED) && (nget respVendor sm =? EAP_VENDOR_IETF) &&
   (nget respVendorMethod sm =? nget currentMethod sm)).
Definition rx_current_id sm : bool := sget rxResp sm && (nget respId sm =? nget currentId sm).

Definition in_pending (p : pending) sm : bool := bool_decide (method_pending (shared sm) = p).

Definition step_RECEIVED sm : M (eap_sm P) :=
  if rx_current_id sm && is_nak sm && bool_decide (methodState sm = METHOD_PROPOSED) then NAK_Enter false sm
  else if rx_current_id sm && is_current_method sm then INTEGRITY_CHECK_Enter false sm
  else if sget rxInitiate sm then INITIATE_RECEIVED_Enter false sm
  else DISCARD_Enter false sm.

Definition step_METHOD_REQUEST sm : M (eap_sm P) :=
  match m sm with
  | None => FAILURE_Enter false sm
  | Some _ =>
      sm ← SEND_REQUEST_Enter false sm;
      if eget eapNoReq sm && negb (eget eapReq sm) then FAILURE_Enter false sm else Ok sm
  end.

Definition step_METHOD_RESPONSE sm : M (eap_sm P) :=
  if bool_decide (methodState sm = METHOD_END) then SELECT_ACTION_Enter false sm
  else if in_pending METHOD_PENDING_WAIT sm then Ok sm
  else if in_pending METHOD_PENDING_CONT sm then
    METHOD_RESPONSE_Enter false (on_shared (sh_pending METHOD_PENDING_NONE) sm)
  else METHOD_REQUEST_Enter false sm.

Definition step_PROPOSE_METHOD sm : M (eap_sm P) :=
  if in_pending METHOD_PENDING_WAIT sm then
    Ok (cond (0 <? user_eap_method_index (shared sm)) (on_shared (sh_index (user_eap_method_index (shared sm) - 1))) sm)
  else if in_pending METHOD_PENDING_CONT sm then
    PROPOSE_METHOD_Enter false (on_shared (sh_pending METHOD_PENDING_NONE) sm)
  else METHOD_REQUEST_Enter false sm.

Definition step_SELECT_ACTION sm : M (eap_sm P) :=
  match decision sm with
  | DECISION_FAILURE => FAILURE_Enter false sm
  | DECISION_SUCCESS => SUCCESS_Enter false sm
  | DECISION_PASSTHROUGH => INITIALIZE_PASSTHROUGH_Enter false sm
  | DECISION_INITIATE_REAUTH_START => INITIATE_REAUTH_START_Enter false sm
  | DECISION_CONTINUE =>
      if eap_server conf && erp conf && sget rxInitiate sm then INITIATE_RECEIVED_Enter false sm
      else PROPOSE_METHOD_Enter false sm
  end.

Definition step_IDLE sm : M (eap_sm P) :=
  if retransWhile (eap_if_of sm) =? 0 then
    if sget try_initiate_reauth sm then SELECT_ACTION_Enter false (sset try_initiate_reauth false sm)
    else RETRANSMIT_Enter false sm
  else if eget eapResp sm then RECEIVED_Enter false sm else Ok sm.

Definition step_AAA_IDLE sm : M (eap_sm P) :=
  if sget aaaFail sm then FAILURE2_Enter false sm
  else if sget aaaSuccess sm then SUCCESS2_Enter false sm
  else if sget aaaEapReq sm then AAA_RESPONSE_Enter false sm
  else if sget aaaTimeout sm then TIMEOUT_FAILURE2_Enter false sm
  else Ok sm.

(** the switch on the state *)
Definition step_state sm : M (eap_sm P) :=
  match EAP_state sm with
  | EAP_INITIALIZE =>
      if backend_auth conf then
        if negb (sget rxResp sm) then SELECT_ACTION_Enter false sm
        else if is_nak sm then NAK_Enter false sm else PICK_UP_METHOD_Enter false sm
      else SELECT_ACTION_Enter false sm
  | EAP_PICK_UP_METHOD =>
      if nget currentMethod sm =? EAP_TYPE_NONE then SELECT_ACTION_Enter false sm else METHOD_RESPONSE_Enter false sm
  | EAP_DISABLED => if eget portEnabled sm then INITIALIZE_Enter false sm else Ok sm
  | EAP_IDLE => step_IDLE sm
  | EAP_RETRANSMIT =>
      if nget MaxRetrans sm <? nget retransCount sm then TIMEOUT_FAILURE_Enter false sm else IDLE_Enter false sm
  | EAP_RECEIVED => step_RECEIVED sm
  | EAP_DISCARD => IDLE_Enter false sm
  | EAP_SEND_REQUEST => IDLE_Enter false sm
  | EAP_INTEGRITY_CHECK => if sget ignore sm then DISCARD_Enter false sm else METHOD_RESPONSE_Enter false sm
  | EAP_METHOD_REQUEST => step_METHOD_REQUEST sm
  | EAP_METHOD_RESPONSE => step_METHOD_RESPONSE sm
  | EAP_PROPOSE_METHOD => step_PROPOSE_METHOD sm
  | EAP_NAK => SELECT_ACTION_Enter false sm
  | EAP_SELECT_ACTION => step_SELECT_ACTION sm
  | EAP_INITIATE_REAUTH_START => SEND_REQUEST_Enter false sm
  | EAP_INITIATE_RECEIVED => if negb (eap_server conf) then SELECT_ACTION_Enter false sm else Ok sm
  | EAP_INITIALIZE_PASSTHROUGH => if nget currentId sm =? -1 then AAA_IDLE_Enter false sm else AAA_REQUEST_Enter false sm
  | EAP_IDLE2 =>
      if eget eapResp sm then RECEIVED2_Enter false sm
      else if retransWhile (eap_if_of sm) =? 0 then RETRANSMIT2_Enter false sm else Ok sm
  | EAP_RETRANSMIT2 =>
      if nget MaxRetrans sm <? nget retransCount sm then TIMEOUT_FAILURE2_Enter false sm else IDLE2_Enter false sm
  | EAP_RECEIVED2 => if rx_current_id sm then AAA_REQUEST_Enter false sm else DISCARD2_Enter false sm
  | EAP_DISCARD2 => IDLE2_Enter false sm
  | EAP_SEND_REQUEST2 => IDLE2_Enter false sm
  | EAP_AAA_REQUEST => AAA_IDLE_Enter false sm
  | EAP_AAA_RESPONSE => SEND_REQUEST2_Enter false sm
  | EAP_AAA_IDLE => step_AAA_IDLE sm
  | EAP_TIMEOUT_FAILURE | EAP_FAILURE | EAP_SUCCESS | EAP_TIMEOUT_FAILURE2 | EAP_FAILURE2 | EAP_SUCCESS2 => Ok sm
  end.

(** SM_STEP(EAP) *)
Definition EAP_Step sm : M (eap_sm P) :=
  if eget eapRestart sm && eget portEnabled sm then INITIALIZE_Enter true sm
  else if negb (eget portEnabled sm) then DISABLED_Enter true sm
  else if EAP_MAX_AUTH_ROUNDS <? nget num_rounds sm then
    if nget num_rounds sm =? EAP_MAX_AUTH_ROUNDS + 1 then FAILURE_Enter true (nset num_rounds (nget num_rounds sm + 1) sm)
    else Ok sm
  else step_state sm.

(** eap_server_sm_step's loop: the state, and whether it changed *)
Fixpoint server_loop (fuel : nat) (res : bool) sm : M (eap_sm P * bool) :=
  match fuel with
  | O => Err OutOfFuel
  | S fuel =>
      sm ← EAP_Step (sset sm_changed false sm);
      if sget sm_changed sm then server_loop fuel true sm else Ok (sm, res)
  end.

(** more rounds than any run takes *)
Definition SERVER_ROUNDS : nat := 50.
Definition server_step sm : M (eap_sm P * bool) := server_loop SERVER_ROUNDS false sm.

(** ** The other entry points *)

(** a structure from [os_zalloc], with what eap_server_sm_init puts in it *)
Definition eap_server_sm_init : eap_sm P :=
  mkEap EAP_DISABLED (fun _ => false) (<[MaxRetrans := 5]> (fun _ => 0)) (fun _ => None) METHOD_PROPOSED DECISION_SUCCESS
    None None (mkShared None None 0 false METHOD_PENDING_NONE false 0) (mkEapIf (fun _ => false) 0 None None) [].

Definition eap_sm_notify_cached sm : eap_sm P := set_state EAP_SUCCESS sm.
Definition eap_sm_pending_cb sm : eap_sm P :=
  cond (in_pending METHOD_PENDING_WAIT sm) (on_shared (sh_pending METHOD_PENDING_CONT)) sm.
Definition eap_sm_method_pending sm : bool := in_pending METHOD_PENDING_WAIT sm.
End Server.
