(* ===== verification/EapMethods.v ===== *)
(** * EAP methods of the server (src/hostapd-2.5/src/eap_server/eap_server_identity.c, eap_server_md5.c,
      eap_server_gtc.c, eap_common/chap.c)

    The methods as tables of functions ([eap_method]), each over its own data,
    and the registry that puts them together: a method's [void *priv] is an
    element of the sum [priv_data], and a method handed another one's data reads
    memory that is not its own.  EAP-GTC's prefix mode belongs to EAP-FAST,
    which the build does not have. *)

From S2P Require Import Prelude CText AesCtr EapolKey EapCommon Prf Erp EapServer.

Inductive method_result := CONTINUE | SUCCESS | FAILURE.
#[export] Instance method_result_eq_dec : EqDecision method_result. Proof. solve_decision. Defined.

Definition done_of (r : method_result) : bool := negb (bool_decide (r = CONTINUE)).
Definition success_of (r : method_result) : bool := bool_decide (r = SUCCESS).

Section Methods.
Context {ENV : EapEnv} {MD : Md5}.

(** ** EAP-Identity *)

Record eap_identity_data := mkIdentity { id_state : method_result; pick_up : bool }.

Definition eap_identity_init (s : eap_shared) : eap_shared * option eap_identity_data :=
  let '(ok, s) := os_malloc s in (s, if (ok : bool) then Some (mkIdentity CONTINUE false) else None).
Definition eap_identity_initPickUp (s : eap_shared) : eap_shared * option eap_identity_data :=
  let '(s, d) := eap_identity_init s in (s, if d is Some d then Some (mkIdentity (id_state d) true) else None).
Definition eap_identity_reset (s : eap_shared) (d : eap_identity_data) : eap_shared := s.

Definition eap_identity_buildReq (s : eap_shared) (d : eap_identity_data) (id : Z)
    : M (eap_shared * eap_identity_data * option (list Z)) :=
  let '(ok, s) := os_malloc s in
  req ← eap_build ok EAP_VENDOR_IETF EAP_TYPE_IDENTITY EAP_CODE_REQUEST id env_eap_req_id_text;
  match req with
  | None => Ok (s, mkIdentity FAILURE (pick_up d), None)
  | Some req => Ok (s, d, Some req)
  end.

Definition eap_identity_check (s : eap_shared) (d : eap_identity_data) (resp : list Z)
    : M (eap_shared * eap_identity_data * bool) :=
  r ← eap_hdr_validate EAP_VENDOR_IETF EAP_TYPE_IDENTITY (Some resp);
  Ok (s, d, if r is None then true else false).

Definition eap_identity_process (s : eap_shared) (d : eap_identity_data) (resp : list Z) : M (eap_shared * eap_identity_data) :=
  '(bad, d) ← (if pick_up d then
                 '(_, _, bad) ← eap_identity_check s d resp;
                 Ok (bad, if (bad : bool) then mkIdentity FAILURE true else mkIdentity (id_state d) false)
               else Ok (false, d));
  if (bad : bool) then Ok (s, d)
  else
    r ← eap_hdr_validate EAP_VENDOR_IETF EAP_TYPE_IDENTITY (Some resp);
    match r with
    | None => Ok (s, d)
    | Some (pos, len) =>
        let s := (if identity s is Some _ then sh_update true s else s) in
        let '(ok, s) := os_malloc s in
        if (ok : bool) then
          id ← get resp pos len;
          Ok (sh_identity (Some id) s, mkIdentity SUCCESS (pick_up d))
        else Ok (sh_identity None s, mkIdentity FAILURE (pick_up d))
    end.

Definition eap_server_identity : eap_method eap_identity_data :=
  mkMethod EAP_VENDOR_IETF EAP_TYPE_IDENTITY eap_identity_init (Some eap_identity_initPickUp) eap_identity_reset
    eap_identity_buildReq None (Some eap_identity_check) eap_identity_process
    (fun d => done_of (id_state d)) (fun d => success_of (id_state d)) None None None.

(** ** EAP-MD5 *)

Definition CHALLENGE_LEN : Z := 16.
Definition CHAP_MD5_LEN : Z := 16.

Definition chap_md5 (id : Z) (secret challenge : list Z) : option (list Z) := md5_vector ([id] ++ secret ++ challenge).

Record eap_md5_data := mkMd5 { challenge : list Z; md5_state : method_result }.

Definition eap_md5_init (s : eap_shared) : eap_shared * option eap_md5_data :=
  let '(ok, s) := os_malloc s in (s, if (ok : bool) then Some (mkMd5 (replicate 16 0) CONTINUE) else None).
Definition eap_md5_reset (s : eap_shared) (d : eap_md5_data) : eap_shared := s.

Definition eap_md5_buildReq (s : eap_shared) (d : eap_md5_data) (id : Z) : M (eap_shared * eap_md5_data * option (list Z)) :=
  let r := env_random_bytes (clock s) CHALLENGE_LEN in
  let s := sh_tick s in
  match r with
  | None => Ok (s, mkMd5 (challenge d) FAILURE, None)
  | Some c =>
      let '(ok, s) := os_malloc s in
      req ← eap_msg_alloc ok EAP_VENDOR_IETF EAP_TYPE_MD5 (1 + CHALLENGE_LEN) EAP_CODE_REQUEST id;
      match req with
      | None => Ok (s, mkMd5 c FAILURE, None)
      | Some req =>
          req ← wpabuf_put_u8 req CHALLENGE_LEN;
          req ← wpabuf_put_data req c;
          Ok (s, mkMd5 c CONTINUE, Some (wpabuf_head req))
      end
  end.

Definition eap_md5_check (s : eap_shared) (d : eap_md5_data) (resp : list Z) : M (eap_shared * eap_md5_data * bool) :=
  r ← eap_hdr_validate EAP_VENDOR_IETF EAP_TYPE_MD5 (Some resp);
  match r with
  | None => Ok (s, d, true)
  | Some (pos, len) =>
      if len <? 1 then Ok (s, d, true)
      else
        l ← rd resp pos;
        Ok (s, d, negb (l =? CHAP_MD5_LEN) || (len <? 1 + CHAP_MD5_LEN))
  end.

(** the user's password, when there is one in plain text *)
Definition plain_password (s : eap_shared) : option (list Z) :=
  match user s with Some u => if password_hash u then None else password u | None => None end.

Definition eap_md5_process (s : eap_shared) (d : eap_md5_data) (resp : list Z) : M (eap_shared * eap_md5_data) :=
  match plain_password s with
  | None => Ok (s, mkMd5 (challenge d) FAILURE)
  | Some pw =>
      r ← eap_hdr_validate EAP_VENDOR_IETF EAP_TYPE_MD5 (Some resp);
      match r with
      | None => Ok (s, d)
      | Some (pos, plen) =>
          l ← rd resp pos;
          if negb (l =? CHAP_MD5_LEN) || (plen <? 1 + CHAP_MD5_LEN) then Ok (s, d)
          else
            response ← get resp (pos + 1) CHAP_MD5_LEN;
            match chap_md5 (eap_get_id resp) pw (challenge d) with
            | None => Ok (s, mkMd5 (challenge d) FAILURE)
            | Some hash => Ok (s, mkMd5 (challenge d) (if bool_decide (hash = response) then SUCCESS else FAILURE))
            end
      end
  end.

Definition eap_server_md5 : eap_method eap_md5_data :=
  mkMethod EAP_VENDOR_IETF EAP_TYPE_MD5 eap_md5_init None eap_md5_reset
    eap_md5_buildReq None (Some eap_md5_check) eap_md5_process
    (fun d => done_of (md5_state d)) (fun d => success_of (md5_state d)) None None None.

(** ** EAP-GTC *)

Record eap_gtc_data := mkGtc { gtc_state : method_result }.

Definition eap_gtc_init (s : eap_shared) : eap_shared * option eap_gtc_data :=
  let '(ok, s) := os_malloc s in (s, if (ok : bool) then Some (mkGtc CONTINUE) else None).
Definition eap_gtc_reset (s : eap_shared) (d : eap_gtc_data) : eap_shared := s.

Definition eap_gtc_buildReq (s : eap_shared) (d : eap_gtc_data) (id : Z) : M (eap_shared * eap_gtc_data * option (list Z)) :=
  let '(ok, s) := os_malloc s in
  req ← eap_build ok EAP_VENDOR_IETF EAP_TYPE_GTC EAP_CODE_REQUEST id (str "Password");
  Ok (s, mkGtc (if req is Some _ then CONTINUE else FAILURE), req).

Definition eap_gtc_check (s : eap_shared) (d : eap_gtc_data) (resp : list Z) : M (eap_shared * eap_gtc_data * bool) :=
  r ← eap_hdr_validate EAP_VENDOR_IETF EAP_TYPE_GTC (Some resp);
  Ok (s, d, match r with None => true | Some (_, len) => len <? 1 end).

Definition eap_gtc_process (s : eap_shared) (d : eap_gtc_data) (resp : list Z) : M (eap_shared * eap_gtc_data) :=
  r ← eap_hdr_validate EAP_VENDOR_IETF EAP_TYPE_GTC (Some resp);
  match r with
  | None => Ok (s, d)
  | Some (pos, rlen) =>
      if rlen <? 1 then Ok (s, d)
      else
        match plain_password s with
        | None => Ok (s, mkGtc FAILURE)
        | Some pw =>
            given ← get resp pos rlen;
            Ok (s, mkGtc (if negb (rlen =? zlen pw) || negb (bool_decide (given = pw)) then FAILURE else SUCCESS))
        end
  end.

Definition eap_server_gtc : eap_method eap_gtc_data :=
  mkMethod EAP_VENDOR_IETF EAP_TYPE_GTC eap_gtc_init None eap_gtc_reset
    eap_gtc_buildReq None (Some eap_gtc_check) eap_gtc_process
    (fun d => done_of (gtc_state d)) (fun d => success_of (gtc_state d)) None None None.

(** ** The registry *)

(** a method over its own data, as the machine sees it: the data is cast *)
Definition lift {T P} (inj : T -> P) (prj : P -> option T) (x : eap_method T) : eap_method P :=
  let cast {A} (p : P) (f : T -> M A) : M A := match prj p with Some d => f d | None => Err OutOfBounds end in
  mkMethod (vendor x) (method x)
    (fun s => let '(s, d) := init x s in (s, inj <$> d))
    (match initPickUp x with Some f => Some (fun s => let '(s, d) := f s in (s, inj <$> d)) | None => None end)
    (fun s p => match prj p with Some d => reset x s d | None => s end)
    (fun s p id => cast p (fun d => '(s, d, r) ← buildReq x s d id; Ok (s, inj d, r)))
    (match getTimeout x with Some f => Some (fun s p => match prj p with Some d => f s d | None => 0 end) | None => None end)
    (match check x with Some f => Some (fun s p msg => cast p (fun d => '(s, d, r) ← f s d msg; Ok (s, inj d, r))) | None => None end)
    (fun s p msg => cast p (fun d => '(s, d) ← process x s d msg; Ok (s, inj d)))
    (fun p => match prj p with Some d => isDone x d | None => false end)
    (fun p => match prj p with Some d => isSuccess x d | None => false end)
    (match getKey x with Some f => Some (fun s p => match prj p with Some d => f s d | None => (s, None) end) | None => None end)
    (match getSessionId x with Some f => Some (fun s p => match prj p with Some d => f s d | None => (s, None) end) | None => None end)
    (match get_emsk x with Some f => Some (fun s p => match prj p with Some d => f s d | None => (s, None) end) | None => None end).

Inductive priv_data := PIdentity (d : eap_identity_data) | PMd5 (d : eap_md5_data) | PGtc (d : eap_gtc_data).

Definition identity_method : eap_method priv_data :=
  lift PIdentity (fun p => match p with PIdentity d => Some d | _ => None end) eap_server_identity.
Definition md5_method : eap_method priv_data :=
  lift PMd5 (fun p => match p with PMd5 d => Some d | _ => None end) eap_server_md5.
Definition gtc_method : eap_method priv_data :=
  lift PGtc (fun p => match p with PGtc d => Some d | _ => None end) eap_server_gtc.

Definition registered : list (eap_method priv_data) := [identity_method; md5_method; gtc_method].
End Methods.
