(* ===== verification/EapServerInv.v ===== *)
(** * The EAP server's step: it ends, and it is safe

    What the methods promise ([MethodLaws]), the invariant the states keep under
    it, the measure that every change of state decreases, and where success can
    come from. *)

From stdpp Require Import functions relations.
From S2P Require Import Prelude CText AesCtr EapolKey EapCommon EapolAuth Prf WpaSafe Erp EapServer.

(** ** What the environment and the methods promise *)

(** the users of the database have their eight method slots *)
Class EapEnvLaws `{EapEnv} : Prop := {
  env_users n id ph u : env_get_eap_user n id ph = Some u -> zlen (methods u) = EAP_MAX_METHODS }.

Definition shared_ok (s : eap_shared) : Prop :=
  0 <= user_eap_method_index s /\ (if user s is Some u then zlen (methods u) = EAP_MAX_METHODS else True).

Section Laws.
Context {P : Type} (eap_methods : list (eap_method P)).

(** [may_pend]: a method may leave its processing pending *)
Definition pend_step (may_pend : Prop) (s s' : eap_shared) : Prop :=
  method_pending s' = method_pending s \/ (may_pend /\ method_pending s' <> METHOD_PENDING_CONT).
Definition shared_step (may_pend : Prop) (s s' : eap_shared) : Prop := shared_ok s' /\ pend_step may_pend s s'.
(** as [shared_step], and the user and the place in the list of methods are left alone *)
Definition shared_still (may_pend : Prop) (s s' : eap_shared) : Prop :=
  pend_step may_pend s s' /\ identity s' = identity s /\ user s' = user s /\ user_eap_method_index s' = user_eap_method_index s.

(** [I]: the data of the method is well formed; [acc]: a message [process] can take *)
Record method_laws (may_pend : Prop) (x : eap_method P) (I : P -> Prop) (acc : list Z -> Prop) : Prop := {
  l_init s : shared_ok s -> let '(s', p) := init x s in shared_still may_pend s s' /\ (if p is Some p then I p else True);
  l_pickup f s : initPickUp x = Some f -> shared_ok s ->
    let '(s', p) := f s in shared_step may_pend s s' /\ (if p is Some p then I p else True);
  l_pickup_acc f msg : initPickUp x = Some f -> acc msg;
  l_reset s p : shared_ok s -> I p -> shared_still may_pend s (reset x s p);
  l_build s p id : shared_ok s -> I p ->
    safe (buildReq x s p id) (fun r => shared_step may_pend s r.1.1 /\ I r.1.2);
  l_check chk s p msg : check x = Some chk -> shared_ok s -> I p -> bytes msg -> len_valid msg 1 ->
    safe (chk s p msg) (fun r => shared_step may_pend s r.1.1 /\ I r.1.2 /\ (r.2 = false -> acc msg));
  l_nocheck msg : check x = None -> acc msg;
  l_process s p msg : shared_ok s -> I p -> bytes msg -> len_valid msg 1 -> acc msg ->
    safe (process x s p msg) (fun r => shared_step may_pend s r.1 /\ I r.2);
  l_key f s p : shared_ok s -> I p -> getKey x = Some f \/ getSessionId x = Some f \/ get_emsk x = Some f ->
    shared_step may_pend s (f s p).1;
  l_pend msg : may_pend -> acc msg }.

Class MethodLaws := {
  may_pend : Prop;
  minv : eap_method P -> P -> Prop;
  accepts : eap_method P -> list Z -> Prop;
  method_ok x : x ∈ eap_methods -> method_laws may_pend x (minv x) (accepts x) }.
End Laws.
Arguments may_pend {P eap_methods _}.
Arguments minv {P eap_methods _} x _.
Arguments accepts {P eap_methods _} x _.
Arguments method_ok {P eap_methods _} x _.

(** ** What the measure looks at *)

Record view := mkView {
  v_state : eap_state; v_changed : bool; v_restart : bool; v_port : bool; v_resp : bool; v_success : bool;
  v_rounds : Z; v_retrans : Z; v_aaa : bool; v_timeout : bool; v_data : option (list Z) }.

Definition view_of {P} (sm : eap_sm P) : view :=
  mkView (EAP_state sm) (sget sm_changed sm) (eget eapRestart sm) (eget portEnabled sm) (eget eapResp sm) (eget eapSuccess sm)
    (nget num_rounds sm) (retransWhile (eap_if_of sm)) (sget aaaFail sm || sget aaaSuccess sm || sget aaaEapReq sm)
    (sget aaaTimeout sm) (bget eapRespData sm).

Definition vw_success (b : bool) (v : view) : view :=
  mkView (v_state v) (v_changed v) (v_restart v) (v_port v) (v_resp v) b (v_rounds v) (v_retrans v) (v_aaa v) (v_timeout v) (v_data v).
Definition vw_restart (b : bool) (v : view) : view :=
  mkView (v_state v) (v_changed v) b (v_port v) (v_resp v) (v_success v) (v_rounds v) (v_retrans v) (v_aaa v) (v_timeout v) (v_data v).
Definition vw_rounds (n : Z) (v : view) : view :=
  mkView (v_state v) (v_changed v) (v_restart v) (v_port v) (v_resp v) (v_success v) n (v_retrans v) (v_aaa v) (v_timeout v) (v_data v).

(** how far a state is from the next wait; [server]: the EAP server is this program *)
Definition rank (server : bool) (pend : pending) (v : view) : Z :=
  match v_state v with
  | EAP_DISABLED => 16
  | EAP_INITIALIZE | EAP_RECEIVED => 15
  | EAP_PICK_UP_METHOD | EAP_INTEGRITY_CHECK => 13
  | EAP_METHOD_RESPONSE => if bool_decide (pend = METHOD_PENDING_CONT) then 12 else 11
  | EAP_NAK => 9
  | EAP_INITIATE_RECEIVED => if server then 0 else 9
  | EAP_SELECT_ACTION => 8
  | EAP_PROPOSE_METHOD => if bool_decide (pend = METHOD_PENDING_CONT) then 6 else 5
  | EAP_METHOD_REQUEST | EAP_INITIATE_REAUTH_START => 3
  | EAP_IDLE => if v_retrans v =? 0 then 19 else if v_resp v then 17 else 0
  | EAP_RETRANSMIT | EAP_DISCARD | EAP_SEND_REQUEST => if v_resp v then 18 else 1
  | EAP_INITIALIZE_PASSTHROUGH | EAP_RECEIVED2 => 5
  | EAP_AAA_REQUEST => 4
  | EAP_AAA_IDLE => if v_aaa v then 3 else if v_timeout v then 1 else 0
  | EAP_AAA_RESPONSE => 2
  | EAP_IDLE2 => if v_resp v then 6 else if v_retrans v =? 0 then 2 else 0
  | EAP_RETRANSMIT2 | EAP_DISCARD2 | EAP_SEND_REQUEST2 => if v_resp v then 7 else 1
  | EAP_SUCCESS | EAP_FAILURE | EAP_TIMEOUT_FAILURE | EAP_TIMEOUT_FAILURE2 | EAP_FAILURE2 | EAP_SUCCESS2 => 0
  end.

(** the global transitions come first *)
Definition measure (server : bool) (pend : pending) (v : view) : Z :=
  if v_restart v && v_port v then 30
  else if negb (v_port v) then (if bool_decide (v_state v = EAP_DISABLED) then 0 else 1)
  else if EAP_MAX_AUTH_ROUNDS <? v_rounds v then (if v_rounds v =? EAP_MAX_AUTH_ROUNDS + 1 then 1 else 0)
  else rank server pend v.

Lemma measure_range server pend v : 0 <= measure server pend v <= 30.
Proof. unfold measure, rank. repeat case_match; lia. Qed.

Section Inv.
Context {P : Type} {ENV : EapEnv} {EL : EapEnvLaws} {DG : Digests} {DL : DigestsLaws}.
Context (eap_methods : list (eap_method P)) (conf : eap_config) {ML : MethodLaws eap_methods}.
Implicit Types sm : eap_sm P.

Abbreviation step_ok := (shared_step may_pend).

Lemma step_refl s : shared_ok s -> step_ok s s.
Proof. intros H. split; [done|by left]. Qed.
Lemma step_trans s1 s2 s3 : step_ok s1 s2 -> step_ok s2 s3 -> step_ok s1 s3.
Proof.
  intros [_ H1] [Ho H2]. split; [done|]. unfold pend_step in *. destruct H2 as [->|H2]; [done|by right].
Qed.
Lemma still_step s s' : shared_ok s -> shared_still may_pend s s' -> step_ok s s'.
Proof. intros [H1 H2] (Hp & _ & Hu & Hi). split; [|done]. unfold shared_ok. by rewrite Hu, Hi. Qed.
Lemma tick_step s : shared_ok s -> step_ok s (sh_tick s).
Proof. intros H. split; [done|by left]. Qed.

Lemma still_refl s : shared_still may_pend s s.
Proof. split; [by left|done]. Qed.

(** *** The invariant of every state *)

Definition method_good (sm : eap_sm P) : Prop :=
  match m sm, eap_method_priv sm with
  | Some x, Some p => x ∈ eap_methods /\ minv x p
  | None, None => True
  | _, _ => False
  end.

Record base (sm : eap_sm P) : Prop := {
  b_shared : shared_ok (shared sm);
  b_method : method_good sm;
  b_data : if bget eapRespData sm is Some d then bytes d else True;
  b_pend : may_pend \/ method_pending (shared sm) = METHOD_PENDING_NONE }.

(** the members the invariant does not mention may change *)
Lemma base_ext sm sm' : base sm -> shared sm' = shared sm -> m sm' = m sm -> eap_method_priv sm' = eap_method_priv sm ->
  bget eapRespData sm' = bget eapRespData sm -> base sm'.
Proof. intros [H1 H2 H3 H4] Es Em Ep Ed. unfold method_good in *. split; unfold method_good; by rewrite ?Es, ?Em, ?Ep, ?Ed. Qed.

Lemma base_shared sm s : base sm -> step_ok (shared sm) s -> base (set_shared s sm).
Proof.
  intros [H1 H2 H3 H4] [Ho Hp]. split; try done. cbn. destruct H4 as [H4|H4]; [by left|].
  destruct Hp as [->|[Hp _]]; [by right|by left].
Qed.

(** [sm'] is what the step from [sm] makes of it; it looks like [x] *)
Definition entered (x sm sm' : eap_sm P) : Prop :=
  view_of sm' = view_of x /\ base sm' /\ pend_step may_pend (shared sm) (shared sm').

Lemma entered_ext x sm sm' : base sm -> view_of sm' = view_of x -> shared sm' = shared sm -> m sm' = m sm ->
  eap_method_priv sm' = eap_method_priv sm -> bget eapRespData sm' = bget eapRespData sm -> entered x sm sm'.
Proof. intros Hb Hv Hs Hm Hp Hd. split; [done|]. split; [by eapply base_ext|]. left. by rewrite Hs. Qed.

Lemma entered_shared x sm s sm' : base sm -> step_ok (shared sm) s -> view_of sm' = view_of x -> shared sm' = s ->
  m sm' = m sm -> eap_method_priv sm' = eap_method_priv sm -> bget eapRespData sm' = bget eapRespData sm -> entered x sm sm'.
Proof.
  intros Hb Hs Hv Es Hm Hp Hd. split; [done|]. split; [|rewrite Es; apply Hs].
  eapply (base_ext (set_shared s sm)); [by apply base_shared|done..].
Qed.

Lemma set_shared_id sm : set_shared (shared sm) sm = sm.
Proof. by destruct sm. Qed.

Lemma copy_buf_spec dst src sm : shared_ok (shared sm) -> exists r d s,
  eap_copy_buf dst src sm = (r, d, set_shared s sm) /\ step_ok (shared sm) s.
Proof.
  intros Hs. unfold eap_copy_buf. destruct src as [b|].
  - unfold sm_malloc, os_malloc. destruct (env_alloc _); do 3 eexists; (split; [reflexivity|by apply tick_step]).
  - exists (-1), dst, (shared sm). rewrite set_shared_id. split; [done|by apply step_refl].
Qed.

(** one question to the environment, and nothing else of what the invariant mentions *)
Ltac ticked := eapply entered_shared; [eassumption|apply tick_step; by apply b_shared|reflexivity..].
Ltac unchanged := apply entered_ext; [assumption|reflexivity..].

Lemma retransmit_ok g X sm : base sm ->
  safe (retransmit_Enter X g sm) (fun sm' => entered (enter g X sm) sm sm' /\ m sm' = m sm).
Proof.
  intros Hb. unfold retransmit_Enter. destruct (_ && _).
  - destruct (copy_buf_spec (eapReqData (eap_if_of (sm |> enter g X |> nset retransCount (nget retransCount sm + 1))))
      (bget lastReqData (sm |> enter g X |> nset retransCount (nget retransCount sm + 1)))
      (sm |> enter g X |> nset retransCount (nget retransCount sm + 1))) as (r & d & s & -> & Hs); [exact (b_shared _ Hb)|].
    unfold cond. destruct (r =? 0); (split; [|reflexivity]); eapply entered_shared; try eassumption; reflexivity.
  - split; [unchanged|done].
Qed.

Lemma send_request_ok g X sm : base sm ->
  safe (send_request_Enter X g sm) (fun sm' => entered (eset eapResp false (enter g X sm)) sm sm' /\ m sm' = m sm).
Proof.
  intros Hb. unfold send_request_Enter. cbv zeta. destruct (eapReqData _) as [d|].
  - destruct (copy_buf_spec (bget lastReqData (sm |> enter g X |> nset retransCount 0)) (Some d)
      (sm |> enter g X |> nset retransCount 0)) as (r & d' & s & -> & Hs); [exact (b_shared _ Hb)|].
    split; [|reflexivity]. eapply entered_shared; try eassumption; reflexivity.
  - split; [unchanged|done].
Qed.

Lemma copy_aaa_ok sm : shared_ok (shared sm) -> exists d s,
  copy_aaa_request sm = set_eapReqData d (set_shared s sm) /\ step_ok (shared sm) s.
Proof.
  intros Hs. unfold copy_aaa_request. destruct (copy_buf_spec (eapReqData (eap_if_of sm)) (bget aaaEapReqData sm) sm Hs)
    as (r & d & s & -> & H1). by exists d, s.
Qed.

Lemma parse_ok resp sm : (if resp is Some d then bytes d else True) ->
  safe (eap_sm_parseEapResp resp sm) (fun sm' => view_of sm' = view_of sm /\ shared sm' = shared sm /\ m sm' = m sm /\
    eap_method_priv sm' = eap_method_priv sm /\ nget currentMethod sm' = nget currentMethod sm).
Proof.
  intros Hb. unfold eap_sm_parseEapResp, hdr_length, eap_hdr_size. destruct resp as [d|]; [|done].
  destruct (Z.ltb_spec (zlen d) 4); [done|]. destruct (get_be16_ok d 2 Hb) as (plen & -> & Hp); [lia..|]. rewrite bind_ok.
  destruct (Z.ltb_spec (zlen d) plen); [done|].
  destruct (rd_in_range d 1) as [id ->]; [lia|]. destruct (rd_in_range d 0) as [code ->]; [lia|]. rewrite !bind_ok. cbv zeta.
  destruct (Z.ltb_spec 4 plen).
  - destruct (rd_in_range d 4) as [t ->]; [lia|]. rewrite bind_ok. cbv zeta. change (4 + 1) with 5. change (4 + 4) with 8.
    destruct (t =? EAP_TYPE_EXPANDED); [|by destruct (code =? EAP_CODE_RESPONSE), (code =? EAP_CODE_INITIATE)].
    destruct (Z.ltb_spec plen (4 + 8)); [by destruct (code =? EAP_CODE_RESPONSE), (code =? EAP_CODE_INITIATE)|].
    destruct (get_be24_ok d 5) as [vd ->]; [lia..|]. destruct (get_be32_ok d 8) as [vm ->]; [lia..|]. rewrite !bind_ok.
    by destruct (code =? EAP_CODE_RESPONSE), (code =? EAP_CODE_INITIATE).
  - by destruct (code =? EAP_CODE_RESPONSE), (code =? EAP_CODE_INITIATE).
Qed.

Lemma find_method_in (l : list (eap_method P)) vd ty x : find_method l vd ty = Some x -> x ∈ l.
Proof.
  induction l as [|y l IH]; [done|]. cbn. destruct (_ && _); [intros [= ->]; by left|intros H; right; auto].
Qed.

Lemma the_method_ok sm : base sm -> m sm <> None ->
  exists x p, the_method sm = Ok (x, p) /\ m sm = Some x /\ eap_method_priv sm = Some p /\ x ∈ eap_methods /\ minv x p.
Proof.
  intros [_ Hm _ _] Hn. unfold the_method, method_good in *. destruct (m sm) as [x|], (eap_method_priv sm) as [p|]; try done.
  exists x, p. by destruct Hm.
Qed.

(** put a method and its data in, after a call that changed what it shares *)
Lemma base_with sm sm' x p : base sm -> step_ok (shared sm) (shared sm') -> x ∈ eap_methods -> minv x p ->
  m sm' = Some x -> eap_method_priv sm' = Some p -> bget eapRespData sm' = bget eapRespData sm -> base sm'.
Proof.
  intros [H1 H2 H3 H4] [Ho Hp] Hx Hi Em Ep Ed. split; [done| |by rewrite Ed|].
  - unfold method_good. by rewrite Em, Ep.
  - destruct H4 as [H4|H4]; [by left|]. destruct Hp as [->|[Hp _]]; [by right|by left].
Qed.
Lemma base_without sm sm' : base sm -> step_ok (shared sm) (shared sm') ->
  m sm' = None -> eap_method_priv sm' = None -> bget eapRespData sm' = bget eapRespData sm -> base sm'.
Proof.
  intros [H1 H2 H3 H4] [Ho Hp] Em Ep Ed. split; [done| |by rewrite Ed|].
  - unfold method_good. by rewrite Em, Ep.
  - destruct H4 as [H4|H4]; [by left|]. destruct Hp as [->|[Hp _]]; [by right|by left].
Qed.

Lemma reset_method_spec sm : shared_ok (shared sm) -> method_good sm ->
  exists s, reset_method sm = set_priv None (set_shared s sm) /\ shared_still may_pend (shared sm) s.
Proof.
  intros Hs Hm. unfold reset_method, method_good in *. destruct (m sm) as [x|] eqn:Em, (eap_method_priv sm) as [p|] eqn:Ep; try done.
  - exists (reset x (shared sm) p). split; [done|]. destruct Hm as [Hx Hp]. by apply (l_reset _ _ _ _ (method_ok x Hx)).
  - exists (shared sm). split; [by destruct sm; cbn in *; subst|by apply still_refl].
Qed.

Lemma index_step s i : shared_ok s -> 0 <= i -> step_ok s (sh_index i s).
Proof. intros [H1 H2] Hi. split; [by split|by left]. Qed.
Lemma identity_step s x : shared_ok s -> step_ok s (sh_identity x s).
Proof. intros [H1 H2]. split; [by split|by left]. Qed.
Lemma update_step s b : shared_ok s -> step_ok s (sh_update b s).
Proof. intros [H1 H2]. split; [by split|by left]. Qed.
Lemma none_step s : shared_ok s -> (may_pend \/ method_pending s = METHOD_PENDING_NONE) -> step_ok s (sh_pending METHOD_PENDING_NONE s).
Proof. intros [H1 H2] Hp. split; [by split|]. destruct Hp as [Hp|Hp]; [by right|by left]. Qed.

(** *** The entry actions *)

Lemma parsed_entered x sm sm1 sm' : base sm -> entered x sm sm1 -> view_of sm' = view_of sm1 -> shared sm' = shared sm1 ->
  m sm' = m sm1 -> eap_method_priv sm' = eap_method_priv sm1 -> entered x sm sm'.
Proof.
  intros Hb (Hv & Hb1 & Hp) Ev Es Em Ep. split; [congruence|]. split; [|by rewrite Es].
  eapply base_ext; try eassumption. by apply (f_equal v_data) in Ev.
Qed.

Lemma INITIALIZE_ok g sm : base sm ->
  safe (INITIALIZE_Enter conf g sm) (fun sm' =>
    entered (sm |> enter g EAP_INITIALIZE |> eset eapSuccess false |> eset eapRestart false |> nset num_rounds 0) sm sm' /\
    m sm' = None /\ (backend_auth conf = true -> nget currentMethod sm' = EAP_TYPE_NONE)).
Proof.
  intros Hb. unfold INITIALIZE_Enter. cbv zeta.
  set (c := _ && _ && _). set (sm1 := cond c _ _).
  assert (step_ok (shared sm) (shared sm1) /\ m sm1 = m sm /\ eap_method_priv sm1 = eap_method_priv sm /\
    view_of sm1 = view_of (enter g EAP_INITIALIZE sm)) as (Hs1 & Hm1 & Hp1 & Hv1).
  { unfold sm1, cond. pose proof (b_shared _ Hb). destruct c; [|split_and!; try done; by apply step_refl].
    split_and!; try done. by apply identity_step. }
  set (sm2 := _ |> eset eapRestart false).
  assert (exists s, reset_method sm2 = set_priv None (set_shared s sm2) /\ step_ok (shared sm2) s) as (s & -> & Hs2).
  { destruct (reset_method_spec sm2) as (s & E & Hst); [| |exists s; split; [done|apply still_step; [apply Hs1|done]]]; [apply Hs1|]. unfold method_good. change (m sm2) with (m sm1). change (eap_method_priv sm2) with (eap_method_priv sm1).
    rewrite Hm1, Hp1. exact (b_method _ Hb). }
  set (x := sm |> enter g EAP_INITIALIZE |> eset eapSuccess false |> eset eapRestart false |> nset num_rounds 0).
  set (sm3 := _ |> on_shared (sh_index 0)).
  assert (step_ok (shared sm) (shared sm3)) as Hs3.
  { eapply step_trans; [exact Hs1|]. eapply step_trans; [exact Hs2|]. apply index_step; [apply Hs2|lia]. }
  assert (bget eapRespData sm3 = bget eapRespData sm) as Hd3
    by (change (bget eapRespData sm1 = bget eapRespData sm); by apply (f_equal v_data) in Hv1).
  assert (base sm3) as Hb3 by (eapply (base_without sm); done).
  assert (forall sm4, base sm4 -> view_of sm4 = view_of sm3 -> shared sm4 = shared sm3 ->
    entered x sm (sm4 |> nset num_rounds 0 |> on_shared (sh_pending METHOD_PENDING_NONE))) as Hend.
  { intros sm4 Hb4 Hv4 Es4. split; [|split].
    - change (vw_rounds 0 (view_of sm4) = view_of x). rewrite Hv4.
      change (view_of sm3) with (vw_restart false (vw_success false (view_of sm1))). by rewrite Hv1.
    - apply base_shared; [by eapply base_ext|]. apply none_step; [exact (b_shared _ Hb4)|exact (b_pend _ Hb4)].
    - cbn. destruct (b_pend _ Hb) as [Hp|Hp]; [by right|by left]. }
  destruct (backend_auth conf) eqn:Eb.
  - apply (safe_bind (fun sm' => exists sm4, sm' = cond (sget rxResp sm4) (fun sm => nset currentId (nget respId sm) sm) sm4 /\
      view_of sm4 = view_of sm3 /\ shared sm4 = shared sm3 /\ m sm4 = None /\ eap_method_priv sm4 = None /\
      nget currentMethod sm4 = EAP_TYPE_NONE)).
    + eapply safe_bind; [apply parse_ok; exact (b_data _ Hb3)|]. intros sm4 (V & S & Hm & Hp & Hc). exists sm4. by split_and!.
    + intros sm' (sm4 & -> & V & S & Hm & Hp & Hc).
      assert (base sm4) as Hb4 by (eapply base_ext; try eassumption; [congruence..|]; by apply (f_equal v_data) in V).
      unfold cond. destruct (sget rxResp sm4); (split; [apply Hend; [by eapply base_ext|done..]|by split]).
  - rewrite bind_ok. split; [by apply Hend|]. split; [done|congruence].
Qed.

Lemma PICK_UP_ok g sm : base sm -> nget currentMethod sm = EAP_TYPE_NONE ->
  safe (PICK_UP_METHOD_Enter eap_methods g sm) (fun sm' => entered (enter g EAP_PICK_UP_METHOD sm) sm sm' /\
    (nget currentMethod sm' = EAP_TYPE_NONE \/ exists x, m sm' = Some x /\ forall msg, accepts x msg)).
Proof.
  intros Hb Hc. unfold PICK_UP_METHOD_Enter. cbv zeta. destruct (eap_sm_Policy_doPickUp _); [|split; [unchanged|by left]].
  set (sm1 := _ |> nset currentMethod _).
  destruct (reset_method_spec sm1) as (s & -> & Hs); [exact (b_shared _ Hb)|exact (b_method _ Hb)|].
  apply still_step in Hs; [|exact (b_shared _ Hb)]. change (shared sm1) with (shared sm) in Hs.
  assert (base (set_priv None (set_shared s sm1) |> set_m None |> nset currentMethod EAP_TYPE_NONE)) as Hnone
    by by eapply (base_without sm).
  unfold eap_server_get_eap_method. set (ty := nget currentMethod _). destruct (find_method eap_methods _ ty) as [x|] eqn:Ef.
  - apply find_method_in in Ef. destruct (initPickUp x) as [f|] eqn:Ei.
    + cbn [set_m shared set_priv set_shared]. pose proof (l_pickup _ _ _ _ (method_ok x Ef) f s Ei) as Hi.
      destruct (f s) as [s' p]. destruct Hi as [Hs' Hp]; [apply Hs|].
      assert (step_ok (shared sm) s') as Hss by (eapply step_trans; eassumption).
      destruct p as [p|].
      * split; [split; [done|split; [by eapply (base_with sm _ x p)|apply Hss]]|].
        right. exists x. split; [done|]. intros msg. by apply (l_pickup_acc _ _ _ _ (method_ok x Ef) f).
      * split; [split; [done|split; [by eapply (base_without sm)|apply Hss]]|by left].
    + split; [split; [done|split; [done|apply Hs]]|by left].
  - split; [split; [done|split; [done|apply Hs]]|by left].
Qed.

Lemma RECEIVED_ok g sm : base sm ->
  safe (RECEIVED_Enter g sm) (fun sm' =>
    entered (nset num_rounds (nget num_rounds sm + 1) (enter g EAP_RECEIVED sm)) sm sm' /\ m sm' = m sm).
Proof.
  intros Hb. unfold RECEIVED_Enter. eapply safe_bind; [apply parse_ok; exact (b_data _ Hb)|].
  intros sm1 (V & S & Hm & Hp & _). assert (nget num_rounds sm1 = nget num_rounds sm) as -> by by apply (f_equal v_rounds) in V.
  split; [|done]. split; [|split; [|left; cbn; by rewrite S]].
  - change (vw_rounds (nget num_rounds sm + 1) (view_of sm1) = vw_rounds (nget num_rounds sm + 1) (view_of (enter g EAP_RECEIVED sm))).
    by rewrite V.
  - eapply (base_ext sm); try done. by apply (f_equal v_data) in V.
Qed.

Lemma RECEIVED2_ok g sm : base sm ->
  safe (RECEIVED2_Enter g sm) (fun sm' => entered (enter g EAP_RECEIVED2 sm) sm sm').
Proof.
  intros Hb. unfold RECEIVED2_Enter. eapply safe_mono; [apply parse_ok; exact (b_data _ Hb)|].
  intros sm1 (V & S & Hm & Hp & _). split; [done|split; [|left; by rewrite S]].
  eapply (base_ext sm); try done. by apply (f_equal v_data) in V.
Qed.

(** the message can be processed by the method *)
Definition processable (sm : eap_sm P) : Prop :=
  forall x resp, m sm = Some x -> bget eapRespData sm = Some resp -> accepts x resp.

(** what the method did to its own data and to what it shares *)
Lemma entered_with x sm sm' meth p : base sm -> step_ok (shared sm) (shared sm') -> meth ∈ eap_methods -> minv meth p ->
  view_of sm' = view_of x -> m sm' = Some meth -> eap_method_priv sm' = Some p -> bget eapRespData sm' = bget eapRespData sm ->
  entered x sm sm'.
Proof. intros Hb Hs Hx Hi Hv Hm Hp Hd. split; [done|]. split; [by eapply (base_with sm)|apply Hs]. Qed.

Lemma INTEGRITY_CHECK_ok g sm : base sm -> m sm <> None ->
  safe (INTEGRITY_CHECK_Enter g sm) (fun sm' => entered (enter g EAP_INTEGRITY_CHECK sm) sm sm' /\ m sm' = m sm /\
    (sget ignore sm' = false -> processable sm')).
Proof.
  intros Hb Hn. unfold INTEGRITY_CHECK_Enter. cbv zeta.
  change (bget eapRespData (enter g EAP_INTEGRITY_CHECK sm)) with (bget eapRespData sm).
  pose proof (b_data _ Hb) as Hd. destruct (bget eapRespData sm) as [resp|] eqn:Er.
  - destruct (eap_hdr_len_valid_ok resp 1 Hd) as (b & -> & Hv); [lia|]. rewrite bind_ok.
    destruct b; [|split; [unchanged|by split]]. pose proof (proj1 Hv eq_refl) as Hlen. cbn [negb].
    change (the_method (enter g EAP_INTEGRITY_CHECK sm)) with (the_method sm).
    destruct (the_method_ok sm Hb Hn) as (x & p & -> & Em & Ep & Hx & Hi). rewrite bind_ok.
    destruct (check x) as [chk|] eqn:Ec.
    + pose proof (l_check _ _ _ _ (method_ok x Hx) chk (shared sm) p resp Ec (b_shared _ Hb) Hi Hd Hlen) as Hchk.
      change (shared (enter g EAP_INTEGRITY_CHECK sm)) with (shared sm).
      eapply safe_bind; [exact Hchk|]. intros [[s p'] ign] (Hs & Hi' & Hacc). cbn [fst snd] in *.
      split; [by eapply entered_with|]. split; [done|]. intros Hig x' resp' E1 E2.
      change (ign = false) in Hig. change (m sm = Some x') in E1. change (bget eapRespData sm = Some resp') in E2.
      assert (x' = x) as -> by congruence. assert (resp' = resp) as -> by congruence. by apply Hacc.
    + split; [unchanged|]. split; [done|]. intros _ x' resp' E1 _. change (m sm = Some x') in E1.
      assert (x' = x) as -> by congruence. by apply (l_nocheck _ _ _ _ (method_ok x Hx)).
  - cbn. split; [unchanged|by split].
Qed.

Lemma nextId_spec id sm : shared_ok (shared sm) ->
  exists id' s, eap_sm_nextId id sm = (id', set_shared s sm) /\ step_ok (shared sm) s.
Proof.
  intros Hs. unfold eap_sm_nextId. destruct (_ <? 0).
  - cbv zeta. destruct (negb _); (do 2 eexists; split; [reflexivity|by apply tick_step]).
  - exists (Z.land (id + 1) 255), (shared sm). rewrite set_shared_id. split; [done|by apply step_refl].
Qed.

Lemma METHOD_REQUEST_ok g sm : base sm ->
  safe (METHOD_REQUEST_Enter g sm) (fun sm' => entered (enter g EAP_METHOD_REQUEST sm) sm sm').
Proof.
  intros Hb. unfold METHOD_REQUEST_Enter. cbv zeta. change (m (enter g EAP_METHOD_REQUEST sm)) with (m sm).
  destruct (m sm) as [x0|] eqn:Em; [|unchanged].
  destruct (the_method_ok sm Hb) as (x & p & Et & Em' & Ep & Hx & Hi); [by rewrite Em|].
  destruct (nextId_spec (nget currentId (enter g EAP_METHOD_REQUEST sm)) (enter g EAP_METHOD_REQUEST sm)) as (id & s & -> & Hs);
    [exact (b_shared _ Hb)|]. change (shared (enter g EAP_METHOD_REQUEST sm)) with (shared sm) in Hs.
  match goal with |- context [the_method ?y] => replace (the_method y) with (Ok (x, p)) by (rewrite <- Et; reflexivity) end.
  rewrite bind_ok. eapply safe_bind; [apply (l_build _ _ _ _ (method_ok x Hx)); [apply Hs|exact Hi]|].
  intros [[s' p'] req] [Hs' Hi']. cbn [fst snd] in *. cbn.
  eapply (entered_with _ sm _ x p'); [done| |done|done|reflexivity|exact Em'|reflexivity|reflexivity].
  by eapply step_trans.
Qed.

Lemma erp_init_ok meth p sm : base sm -> meth ∈ eap_methods -> minv meth p -> m sm = Some meth -> eap_method_priv sm = Some p ->
  is_Some (get_emsk meth) -> safe (eap_server_erp_init meth p sm) (fun sm' => entered sm sm sm' /\ m sm' = m sm).
Proof.
  intros Hb Hx Hi Hm Hp [f Ef]. unfold eap_server_erp_init. destruct env_erp_domain as [domain|]; [|split; [unchanged|done]].
  destruct (253 <? _); [split; [unchanged|done]|]. unfold sm_malloc, os_malloc. cbv zeta.
  pose proof (tick_step _ (b_shared _ Hb)) as Ht.
  destruct (negb _); [split; [by eapply entered_shared|done]|]. rewrite Ef.
  pose proof (l_key _ _ _ _ (method_ok meth Hx) f (sh_tick (shared sm)) p (proj1 Ht) Hi) as Hk.
  cbn [shared set_shared]. destruct (f (sh_tick (shared sm)) p) as [s emsk]. cbn [fst] in Hk.
  assert (step_ok (shared sm) s) as Hs by (eapply step_trans; [exact Ht|]; apply Hk; auto).
  destruct emsk as [emsk|]; [|split; [by eapply entered_shared|done]].
  match goal with |- context [bget eapSessionId ?y] => destruct (bget eapSessionId y) as [sid|] end; [|split; [by eapply entered_shared|done]].
  destruct (_ || _); [split; [by eapply entered_shared|done]|].
  eapply safe_bind; [apply erp_make_key_safe|]. intros [k|] _; (split; [by eapply entered_shared|done]).
Qed.

Lemma method_done_ok meth p sm : base sm -> meth ∈ eap_methods -> minv meth p -> m sm = Some meth -> eap_method_priv sm = Some p ->
  safe (method_done conf meth p sm) (fun sm' => entered sm sm sm' /\ m sm' = m sm).
Proof.
  intros Hb Hx Hi Hm Hp. unfold method_done, eap_sm_Policy_update. rewrite bind_ok. cbv zeta.
  pose proof (l_key _ _ _ _ (method_ok meth Hx)) as Hk. pose proof (b_shared _ Hb) as H0.
  assert (exists s key, (if getKey meth is Some gk then gk (shared sm) p else (shared sm, None)) = (s, key) /\ step_ok (shared sm) s)
    as (s1 & key & -> & Hs1).
  { destruct (getKey meth) as [gk|]; [|exists (shared sm), None; split; [done|by apply step_refl]].
    specialize (Hk gk (shared sm) p H0 Hi ltac:(auto)). destruct (gk (shared sm) p) as [s r]. by exists s, r. }
  cbn [shared set_shared bset].
  assert (exists s sid, (if getSessionId meth is Some gs then gs s1 p else (s1, None)) = (s, sid) /\ step_ok (shared sm) s)
    as (s2 & sid & -> & Hs2).
  { destruct (getSessionId meth) as [gs|]; [|by exists s1, None].
    specialize (Hk gs s1 p (proj1 Hs1) Hi ltac:(auto)). destruct (gs s1 p) as [s r]. exists s, r. split; [done|by eapply step_trans]. }
  set (sm1 := bset eapSessionId sid _). assert (entered sm sm sm1) as He by by eapply entered_shared.
  apply (safe_bind (fun sm' => entered sm sm sm' /\ m sm' = m sm)).
  - destruct (erp conf && _ && _) eqn:Ec; [|by split]. apply andb_true_iff in Ec as [[_ Ec]%andb_true_iff _].
    eapply safe_mono; [apply erp_init_ok; [apply He|done..|]|].
    + destruct (get_emsk meth); [by eexists|done].
    + intros sm' [(V & B & Q) Em]. split; [|done]. split; [|split; [done|]].
      * rewrite V. apply He.
      * destruct (step_trans (shared sm) (shared sm1) (shared sm')) as [_ ?]; [done|split; [apply B|done]|done].
  - intros sm' [(V & B & Q) Em]. split; [|done]. split; [done|]. split; [by eapply base_ext|done].
Qed.

Lemma METHOD_RESPONSE_ok g sm : base sm -> m sm <> None -> processable sm ->
  safe (METHOD_RESPONSE_Enter conf g sm) (fun sm' => entered (enter g EAP_METHOD_RESPONSE sm) sm sm' /\ m sm' = m sm).
Proof.
  intros Hb Hn Hacc. unfold METHOD_RESPONSE_Enter. cbv zeta.
  change (bget eapRespData (enter g EAP_METHOD_RESPONSE sm)) with (bget eapRespData sm).
  pose proof (b_data _ Hb) as Hd. destruct (bget eapRespData sm) as [resp|] eqn:Er; [|cbn; split; [unchanged|done]].
  destruct (eap_hdr_len_valid_ok resp 1 Hd) as (b & -> & Hv); [lia|]. rewrite bind_ok.
  destruct b; [|split; [unchanged|done]]. pose proof (proj1 Hv eq_refl) as Hlen. cbn [negb].
  change (the_method (enter g EAP_METHOD_RESPONSE sm)) with (the_method sm).
  destruct (the_method_ok sm Hb Hn) as (x & p & -> & Em & Ep & Hx & Hi). rewrite bind_ok.
  eapply safe_bind; [apply (l_process _ _ _ _ (method_ok x Hx) (shared sm) p resp (b_shared _ Hb) Hi Hd Hlen); by apply Hacc|].
  intros [s p'] [Hs Hi']. cbn [fst snd] in *. cbv zeta.
  set (sm1 := set_priv (Some p') _).
  assert (entered (enter g EAP_METHOD_RESPONSE sm) sm sm1) as He by by eapply (entered_with _ sm sm1 x p').
  destruct (isDone x p').
  - eapply safe_mono; [apply (method_done_ok x p' sm1); [apply He|done..]|].
    intros sm' [(V & B & Q) Em']. split; [|done]. split; [|split; [done|]].
    + rewrite V. apply He.
    + destruct (step_trans (shared sm) (shared sm1) (shared sm')) as [_ ?]; [done|split; [apply B|done]|done].
  - split; [|done]. destruct He as (V & B & Q). split; [done|]. split; [by eapply base_ext|done].
Qed.

(** *** Proposing a method *)

(** an Identity method that is registered starts, and nothing is registered under NONE *)
Definition methods_start : Prop :=
  (forall x s, find_method eap_methods EAP_VENDOR_IETF EAP_TYPE_IDENTITY = Some x -> snd (init x s) <> None) /\
  find_method eap_methods EAP_VENDOR_IETF EAP_TYPE_NONE = None.

(** what is proposed next: Identity, the entry at the index, or nothing *)
Definition next_is (sm : eap_sm P) (vd ty : Z) (s : eap_shared) : Prop :=
  vd = EAP_VENDOR_IETF /\ ty = EAP_TYPE_IDENTITY \/
  user_eap_method_index s = user_eap_method_index (shared sm) + 1 /\ user_eap_method_index (shared sm) < EAP_MAX_METHODS \/
  vd = EAP_VENDOR_IETF /\ ty = EAP_TYPE_NONE.

Lemma getNextMethod_ok sm : base sm -> safe (eap_sm_Policy_getNextMethod sm) (fun r =>
  exists s, r.2 = set_shared s sm /\ step_ok (shared sm) s /\ next_is sm r.1.1 r.1.2 s).
Proof.
  intros Hb. pose proof (b_shared _ Hb) as H0. unfold eap_sm_Policy_getNextMethod. cbv zeta.
  assert (safe (Ok (EAP_VENDOR_IETF, EAP_TYPE_NONE, sm)) (fun r =>
    exists s, r.2 = set_shared s sm /\ step_ok (shared sm) s /\ next_is sm r.1.1 r.1.2 s)) as Hnone.
  { exists (shared sm). rewrite set_shared_id. split; [done|]. split; [by apply step_refl|]. right. by right. }
  destruct (_ || _).
  - eexists. split; [reflexivity|]. split; [by apply update_step|by left].
  - destruct (user (shared sm)) as [u|] eqn:Eu; [|done]. destruct (Z.ltb_spec (user_eap_method_index (shared sm)) EAP_MAX_METHODS) as [Hl|]; [|done].
    destruct H0 as [Hi Hu]. rewrite Eu in Hu. unfold method_entry. unfold EAP_MAX_METHODS in *.
    destruct (rd_in_range (methods u) (user_eap_method_index (shared sm))) as [e ->]; [lia|]. rewrite bind_ok.
    destruct (is_method e); [|done]. destruct e as [vd ty]. eexists. split; [reflexivity|]. split; [apply index_step; [exact (b_shared _ Hb)|lia]|].
    right. left. by split.
Qed.

Lemma propose_loop_ok fuel x sm : methods_start -> base sm -> view_of sm = view_of x ->
  Z.max 0 (EAP_MAX_METHODS - user_eap_method_index (shared sm)) < Z.of_nat fuel ->
  safe (propose_loop eap_methods fuel sm) (entered x sm).
Proof.
  intros [Hid Hnone]. revert sm. induction fuel as [|fuel IH]; intros sm Hb Hv Hf; [lia|]. cbn [propose_loop].
  eapply safe_bind; [by apply getNextMethod_ok|]. intros [[vd ty] sm1] (s1 & E1 & Hs1 & Hnext). cbn [fst snd] in *. subst sm1. cbv zeta.
  set (sm2 := nset currentMethod _ _).
  destruct (reset_method_spec sm2) as (s2 & -> & Hst); [apply Hs1|exact (b_method _ Hb)|].
  change (shared sm2) with s1 in Hst. pose proof (still_step _ _ (proj1 Hs1) Hst) as Hs2.
  assert (step_ok (shared sm) s2) as Hs12 by by eapply step_trans.
  unfold eap_server_get_eap_method. destruct (find_method eap_methods vd ty) as [meth|] eqn:Ef.
  - pose proof (find_method_in _ _ _ _ Ef) as Hx. cbn [shared set_priv set_shared].
    pose proof (l_init _ _ _ _ (method_ok meth Hx) s2 (proj1 Hs2)) as Hi.
    pose proof (Hid meth s2) as Hstart. destruct (init meth s2) as [s3 p] eqn:Ei. destruct Hi as [Hst3 Hi]. cbn [snd] in Hstart.
    pose proof (still_step _ _ (proj1 Hs2) Hst3) as Hs3. assert (step_ok (shared sm) s3) as Hs13 by by eapply step_trans.
    destruct p as [p|].
    + by eapply (entered_with x sm _ meth p).
    + assert (user_eap_method_index s3 = user_eap_method_index (shared sm) + 1 /\
        user_eap_method_index (shared sm) < EAP_MAX_METHODS) as [H3 H4].
      { destruct Hst as (_ & _ & _ & Ei2). destruct Hst3 as (_ & _ & _ & Ei3). rewrite Ei3, Ei2.
        destruct Hnext as [[-> ->]|[?|[-> ->]]]; [by destruct Hstart|done|congruence]. }
      eapply safe_mono; [apply IH; [by eapply (base_without sm)|exact Hv|]|].
      * cbn. rewrite H3. unfold EAP_MAX_METHODS in *. lia.
      * intros sm' (V & B & Q). split; [done|]. split; [done|]. eapply step_trans; [exact Hs13|]. split; [apply B|done].
  - split; [done|]. split; [by eapply (base_without sm)|apply Hs12].
Qed.

Lemma PROPOSE_METHOD_ok g sm : methods_start -> base sm ->
  safe (PROPOSE_METHOD_Enter eap_methods g sm) (entered (enter g EAP_PROPOSE_METHOD sm) sm).
Proof.
  intros Hm Hb. unfold PROPOSE_METHOD_Enter. set (sm1 := sset try_initiate_reauth _ _).
  apply (propose_loop_ok PROPOSE_ROUNDS _ sm1 Hm); [by eapply base_ext|done|].
  destruct (b_shared _ Hb) as [Hi _]. unfold PROPOSE_ROUNDS, EAP_MAX_METHODS. cbn. lia.
Qed.

(** *** The Nak *)

(** the peer allows the method *)
Definition allowed (l : list Z) (e : Z * Z) : bool := (fst e =? EAP_VENDOR_IETF) && in_nak_list l (snd e).
Definition no_method : Z * Z := (EAP_VENDOR_IETF, EAP_TYPE_NONE).

Lemma wr_last (l : list (Z * Z)) y x i : i = zlen l -> wr (l ++ [y]) i x = Ok (l ++ [x]).
Proof.
  intros ->. pose proof (zlen_nonneg l). rewrite wr_ok by (rewrite zlen_app; change (zlen [y]) with 1; lia). f_equal.
  replace (Z.to_nat (zlen l)) with (length l + 0)%nat by (unfold zlen; lia). by rewrite insert_app_r.
Qed.

(** move what follows index [i] down by one, and clear the last entry *)
Lemma remove_entry (pre rest : list (Z * Z)) e (i : Z) : i = zlen pre -> zlen pre + 1 + zlen rest = EAP_MAX_METHODS ->
  (ms ← (if i + 1 <? EAP_MAX_METHODS then
           r ← get (pre ++ e :: rest) (i + 1) (EAP_MAX_METHODS - i - 1); blit (pre ++ e :: rest) i r
         else Ok (pre ++ e :: rest));
   wr ms (EAP_MAX_METHODS - 1) no_method) = Ok (pre ++ rest ++ [no_method]).
Proof.
  intros -> Hz. destruct (Z.ltb_spec (zlen pre + 1) EAP_MAX_METHODS) as [Hl|Hl].
  - assert (get (pre ++ e :: rest) (zlen pre + 1) (EAP_MAX_METHODS - zlen pre - 1) = Ok rest) as ->.
    { replace (pre ++ e :: rest) with ((pre ++ [e]) ++ rest) by by rewrite <- app_assoc.
      apply get_last; rewrite ?zlen_app, ?zlen_cons, ?zlen_nil; lia. }
    rewrite bind_ok. destruct (exists_last (l := e :: rest)) as (x & y & E); [done|]. rewrite E.
    assert (zlen x = zlen rest) as Hx by (apply (f_equal zlen) in E; rewrite zlen_app, !zlen_cons, zlen_nil in E; lia).
    rewrite (blit_app pre x [y] _ rest), bind_ok by done. rewrite app_assoc, wr_last; [by rewrite <- app_assoc|].
    rewrite zlen_app. lia.
  - assert (rest = []) as -> by (pose proof (zlen_nonneg rest); destruct rest; [done|rewrite zlen_cons in *; pose proof (zlen_nonneg rest); lia]).
    rewrite bind_ok, wr_last; [done|]. rewrite zlen_nil in Hz. lia.
Qed.

Lemma nak_loop_spec fuel l pre ms rest : Forall (fun e => is_method e = true) ms ->
  (if rest is e :: _ then is_method e = false else True) -> zlen (pre ++ ms ++ rest) = EAP_MAX_METHODS -> (length ms < fuel)%nat ->
  nak_loop fuel l (zlen pre) (pre ++ ms ++ rest) =
    Ok (pre ++ filter (fun e => allowed l e = true) ms ++ rest ++
        replicate (length ms - length (filter (fun e => allowed l e = true) ms)) no_method).
Proof.
  revert fuel pre rest. induction ms as [|e ms IH]; intros [|fuel] pre rest Hms Hr Hz Hf; cbn in Hf; try lia; cbn [nak_loop].
  - cbn [app filter list_filter length Nat.sub replicate]. rewrite app_nil_r. cbn [app] in Hz. rewrite zlen_app in Hz.
    destruct (Z.ltb_spec (zlen pre) EAP_MAX_METHODS); [|done]. destruct rest as [|e rest]; [rewrite zlen_nil in Hz; lia|].
    rewrite (rd_at pre _ _ (zlen pre)), bind_ok, Hr by done. done.
  - apply Forall_cons_1 in Hms as [He Hms]. rewrite !zlen_app, zlen_cons in Hz.
    pose proof (zlen_nonneg ms). pose proof (zlen_nonneg rest). replace (_ <? _) with true by lia.
    cbn [app]. rewrite (rd_at pre _ _ (zlen pre)), bind_ok, He by done. fold (allowed l e). destruct (allowed l e) eqn:Ea.
    + rewrite filter_cons_True by done. specialize (IH fuel (pre ++ [e]) rest Hms Hr). rewrite <- !app_assoc in IH.
      replace (zlen (pre ++ [e])) with (zlen pre + 1) in IH by by rewrite zlen_app.
      cbn [app length Nat.sub] in *. apply IH; [|lia]. rewrite zlen_app, zlen_cons, zlen_app. lia.
    + rewrite filter_cons_False by congruence. rewrite <- bind_assoc. fold no_method.
      rewrite (remove_entry pre (ms ++ rest) e _ eq_refl), bind_ok by (rewrite zlen_app; lia). rewrite <- app_assoc.
      rewrite IH; [|done|by destruct rest|rewrite !zlen_app; change (zlen [no_method]) with 1; lia|lia].
      pose proof (length_filter (fun e => allowed l e = true) ms) as Hle. cbn [length].
      rewrite Nat.sub_succ_l by exact Hle. cbn [replicate]. by rewrite <- (app_assoc rest [no_method]).
Qed.

Lemma nak_loop_past fuel l i ms : EAP_MAX_METHODS <= i -> nak_loop (S fuel) l i ms = Ok ms.
Proof. intros H. cbn [nak_loop]. by replace (i <? EAP_MAX_METHODS) with false by lia. Qed.

Lemma process_nak_spec l s u : user s = Some u -> shared_ok s ->
  exists pre ms rest, methods u = pre ++ ms ++ rest /\
    zlen pre = Z.min (user_eap_method_index s) EAP_MAX_METHODS /\ Forall (fun e => is_method e = true) ms /\
    (if rest is e :: _ then is_method e = false else True) /\
    safe (eap_sm_process_nak l s) (fun s' => exists u', s' = sh_user (Some u') s /\ password u' = password u /\
      methods u' = pre ++ filter (fun e => allowed l e = true) ms ++ rest ++
        replicate (length ms - length (filter (fun e => allowed l e = true) ms)) no_method).
Proof.
  intros Eu [Hi Hu]. rewrite Eu in Hu. set (n := Z.to_nat (Z.min (user_eap_method_index s) EAP_MAX_METHODS)).
  assert (exists ms rest, drop n (methods u) = ms ++ rest /\ Forall (fun e => is_method e = true) ms /\
    (if rest is e :: _ then is_method e = false else True)) as (ms & rest & E & Hms & Hr).
  { generalize (drop n (methods u)). intros d. induction d as [|e d (ms & rest & -> & H1 & H2)]; [by exists [], []|].
    destruct (is_method e) eqn:Ee; [|by exists [], (e :: ms ++ rest)].
    exists (e :: ms), rest. split; [done|]. split; [by apply Forall_cons|done]. }
  exists (take n (methods u)), ms, rest. rewrite <- E, take_drop.
  assert (zlen (take n (methods u)) = Z.min (user_eap_method_index s) EAP_MAX_METHODS) as Hn.
  { unfold zlen, n, EAP_MAX_METHODS in *. rewrite length_take. lia. }
  do 4 (split; [done|]). unfold eap_sm_process_nak. rewrite Eu.
  destruct (Z.leb_spec EAP_MAX_METHODS (user_eap_method_index s)) as [Hge|Hlt].
  - assert (drop n (methods u) = []) as Ed by (apply drop_ge; unfold zlen, n, EAP_MAX_METHODS in *; lia).
    rewrite Ed in E. destruct ms, rest; try done. rewrite (nak_loop_past 19), bind_ok by done.
    eexists. split; [reflexivity|]. split; [done|]. cbn. rewrite !app_nil_r. unfold take. symmetry. apply take_ge. unfold zlen, n, EAP_MAX_METHODS in *. lia.
  - pose proof (nak_loop_spec 20 l (take n (methods u)) ms rest Hms Hr) as H. rewrite <- E, take_drop, Hn, Z.min_l in H by lia.
    rewrite H, bind_ok; [|done|].
    + eexists. split; [reflexivity|]. by split.
    + apply (f_equal length) in E. rewrite length_drop, length_app in E. unfold zlen, EAP_MAX_METHODS in Hu. lia.
Qed.

Lemma process_nak_step l s : shared_ok s -> safe (eap_sm_process_nak l s) (step_ok s).
Proof.
  intros Hs. destruct (user s) as [u|] eqn:Eu; [|unfold eap_sm_process_nak; rewrite Eu; by apply step_refl].
  destruct (process_nak_spec l s u Eu Hs) as (pre & ms & rest & E & _ & _ & _ & H). eapply safe_mono; [exact H|].
  intros s' (u' & -> & _ & Em). split; [|by left]. destruct Hs as [Hi Hu]. rewrite Eu in Hu. split; [done|].
  pose proof (length_filter (fun e => allowed l e = true) ms).
  cbn. rewrite Em. apply (f_equal length) in E. unfold zlen, EAP_MAX_METHODS in *.
  rewrite !length_app, length_replicate in *. lia.
Qed.

Lemma Policy_update_ok l sm : base sm -> safe (eap_sm_Policy_update l sm) (fun sm' => entered sm sm sm' /\ m sm' = m sm).
Proof.
  intros Hb. unfold eap_sm_Policy_update. destruct l as [l|]; [|split; [unchanged|done]].
  destruct (user (shared sm)) as [u|]; [|split; [unchanged|done]]. destruct (phase2 u); [split; [unchanged|done]|].
  eapply safe_bind; [apply process_nak_step; exact (b_shared _ Hb)|]. intros s Hs. split; [by eapply entered_shared|done].
Qed.

Lemma nak_list_of_safe resp : bytes resp -> len_valid resp 1 -> safe (nak_list_of resp) (fun _ => True).
Proof.
  intros Hb (len & E & H1 & H2). unfold nak_list_of, hdr_length, eap_hdr_size in *. destruct (_ <? _); [|done].
  rewrite E, bind_ok. cbv zeta. destruct (rd_in_range resp 4) as [t ->]; [lia|]. rewrite bind_ok.
  destruct (t =? EAP_TYPE_NAK); [|done]. eapply safe_bind; [apply (get_safe resp (4 + 1)); [done|lia..]|]. done.
Qed.

Lemma entered_trans x sm sm1 sm' : entered x sm sm1 -> entered sm1 sm1 sm' -> entered x sm sm'.
Proof.
  intros (V1 & B1 & Q1) (V2 & B2 & Q2). split; [congruence|]. split; [done|].
  destruct (step_trans (shared sm) (shared sm1) (shared sm')) as [_ ?]; [split; [by apply b_shared|done]..|done].
Qed.

Lemma NAK_ok g sm : base sm -> safe (NAK_Enter g sm) (entered (enter g EAP_NAK sm) sm).
Proof.
  intros Hb. unfold NAK_Enter. cbv zeta. change (eap_method_priv (enter g EAP_NAK sm)) with (eap_method_priv sm).
  change (m (enter g EAP_NAK sm)) with (m sm). pose proof (b_method _ Hb) as Hm. unfold method_good in Hm.
  apply (safe_bind (fun sm1 => exists s, step_ok (shared sm) s /\ set_m None sm1 = set_m None (set_priv None (set_shared s (enter g EAP_NAK sm))))).
  { destruct (m sm) as [x|] eqn:Em, (eap_method_priv sm) as [p|] eqn:Ep; try done.
    - exists (reset x (shared sm) p). split; [|done]. destruct Hm as [Hx Hi].
      apply still_step; [exact (b_shared _ Hb)|]. by apply (l_reset _ _ _ _ (method_ok x Hx)), Hi; apply b_shared.
    - exists (shared sm). split; [apply step_refl; exact (b_shared _ Hb)|]. destruct sm; cbn in *; by subst. }
  intros sm1 (s & Hs & ->). set (sm2 := set_m None _).
  assert (entered (enter g EAP_NAK sm) sm sm2) as He by (split; [done|split; [by eapply (base_without sm)|apply Hs]]).
  change (bget eapRespData sm2) with (bget eapRespData sm). pose proof (b_data _ Hb) as Hd.
  destruct (bget eapRespData sm) as [resp|]; [|cbn; exact He].
  destruct (eap_hdr_len_valid_ok resp 1 Hd) as (b & -> & Hv); [lia|]. rewrite bind_ok. destruct b; [|exact He]. cbn [negb].
  eapply safe_bind; [apply nak_list_of_safe; [done|by apply Hv]|]. intros l _.
  eapply safe_mono; [apply Policy_update_ok, He|]. intros sm' [H _]. by eapply entered_trans.
Qed.

(** *** The decision *)

Lemma user_get_step s id ph : shared_ok s -> step_ok s (eap_user_get s id ph).2.
Proof.
  intros [Hi Hu]. unfold eap_user_get, os_malloc. cbv zeta. destruct (negb _); cbn; [split; [by split|by left]|].
  destruct (env_get_eap_user _ _ _) as [u|] eqn:E; cbn; [|split; [by split|by left]].
  apply env_users in E. destruct (user_remediation u); (split; [by split|by left]).
Qed.

Lemma asks_identity_ok s : shared_ok s -> exists b, asks_identity s = Ok b.
Proof.
  intros [Hi Hu]. unfold asks_identity, method_entry. destruct (user s) as [u|]; [|by eexists].
  destruct (rd_in_range (methods u) 0) as [e ->]; [unfold EAP_MAX_METHODS in *; lia|]. by eexists.
Qed.
Lemma another_method_ok s : shared_ok s -> exists b, another_method s = Ok b.
Proof.
  intros [Hi Hu]. unfold another_method, method_entry. destruct (user s) as [u|]; [|by eexists].
  destruct (Z.ltb_spec (user_eap_method_index s) EAP_MAX_METHODS); [|by eexists].
  destruct (rd_in_range (methods u) (user_eap_method_index s)) as [e ->]; [lia|]. by eexists.
Qed.

(** what a decision says about the state it is made in *)
Definition justified (sm : eap_sm P) (d : eap_decision) : Prop :=
  match d with
  | DECISION_SUCCESS => exists x p, m sm = Some x /\ eap_method_priv sm = Some p /\ isSuccess x p = true /\
      nget currentMethod sm <> EAP_TYPE_IDENTITY
  | DECISION_INITIATE_REAUTH_START => env_erp_send_reauth_start = true
  | _ => True
  end.

(** the decision leaves alone what the invariant does not share with the methods *)
Definition decided (sm : eap_sm P) (r : eap_decision * eap_sm P) : Prop :=
  justified sm r.1 /\ entered sm sm r.2 /\ m r.2 = m sm /\ eap_method_priv r.2 = eap_method_priv sm /\
  nget currentMethod r.2 = nget currentMethod sm.

Lemma decided_shared sm s d b : base sm -> step_ok (shared sm) s -> justified sm d ->
  decided sm (d, sset start_reauth b (set_shared s sm)) /\ decided sm (d, set_shared s sm).
Proof. intros Hb Hs Hj. split; (split; [done|]; split; [by eapply entered_shared|done]). Qed.

Lemma decide_rest_ok sm0 s sm : base sm0 -> step_ok (shared sm0) s -> sm = set_shared s sm0 -> safe (decide_rest sm) (decided sm0).
Proof.
  intros Hb Hs ->. unfold decide_rest. cbv zeta. destruct (another_method_ok s (proj1 Hs)) as [b E].
  change (shared (sset start_reauth false (set_shared s sm0))) with s. rewrite E, bind_ok.
  destruct b; [by apply decided_shared|]. destruct (_ && negb _) eqn:Ee; [|destruct (_ || _); by apply decided_shared].
  apply decided_shared; [done..|]. apply andb_true_iff in Ee as [[_ Ee]%andb_true_iff _]. exact Ee.
Qed.

Lemma decide_user_ok sm : base sm -> safe (decide_user sm) (decided sm).
Proof.
  intros Hb. pose proof (b_shared _ Hb) as H0. unfold decide_user. cbv zeta.
  assert (safe (decide_rest sm) (decided sm)) as Hrest
    by (eapply decide_rest_ok; [done|by apply step_refl|by rewrite set_shared_id]).
  destruct (identity (shared sm)) as [id|]; [|done]. destruct (_ && negb _); [|done].
  destruct (asks_identity_ok _ H0) as [asked ->]. rewrite bind_ok. pose proof (user_get_step (shared sm) id 0 H0) as Hs.
  destruct (eap_user_get (shared sm) id 0) as [ret s]. cbn [snd] in Hs.
  destruct (negb (ret =? 0)); [by apply decided_shared|]. destruct (asks_identity_ok s (proj1 Hs)) as [again ->]. rewrite bind_ok.
  assert (forall b, step_ok (shared sm) (sh_update b s)) as Hu by (intros b; eapply step_trans; [exact Hs|apply update_step, Hs]).
  destruct (_ && again).
  - exact (proj2 (decided_shared sm (sh_update true s) DECISION_FAILURE false Hb (Hu true) I)).
  - by eapply (decide_rest_ok sm (sh_update false s)).
Qed.

Lemma getDecision_ok sm : base sm -> safe (eap_sm_Policy_getDecision conf sm) (decided sm).
Proof.
  intros Hb. pose proof (b_shared _ Hb) as H0. unfold eap_sm_Policy_getDecision. cbv zeta.
  destruct (_ && negb _); [split; [done|]; split; [unchanged|done]|].
  destruct (m sm) as [x0|] eqn:Em; [|by apply decide_user_ok].
  destruct (the_method_ok sm Hb) as (x & p & -> & Em' & Ep & _); [by rewrite Em|]. rewrite bind_ok.
  destruct (negb _ && isSuccess x p) eqn:Es.
  - apply andb_true_iff in Es as [Hc Hs]. refine (proj2 (decided_shared sm _ DECISION_SUCCESS false Hb (update_step _ true H0) _)).
    exists x, p. split_and!; try done. intros E. by rewrite E in Hc.
  - destruct (_ && negb _); [|by apply decide_user_ok]. exact (proj2 (decided_shared sm _ DECISION_FAILURE false Hb (update_step _ true H0) I)).
Qed.

Lemma SELECT_ACTION_ok g sm : base sm -> safe (SELECT_ACTION_Enter conf g sm) (fun sm' =>
  entered (enter g EAP_SELECT_ACTION sm) sm sm' /\ m sm' = m sm /\ justified sm' (decision sm')).
Proof.
  intros Hb. unfold SELECT_ACTION_Enter. cbv zeta.
  eapply safe_bind; [apply getDecision_ok; by eapply base_ext|]. intros [d sm1] (Hj & He & Hm & Hp & Hc). cbn [fst snd] in *.
  split; [|split; [done|]].
  - destruct He as (V & B & Q). split; [done|]. split; [by eapply base_ext|done].
  - destruct d; try done. cbn in Hj. destruct Hj as (x & p & E1 & E2 & E3 & E4). exists x, p.
    change (m (set_decision DECISION_SUCCESS sm1)) with (m sm1). rewrite Hm. split; [done|].
    change (eap_method_priv (set_decision DECISION_SUCCESS sm1)) with (eap_method_priv sm1). rewrite Hp. split; [done|]. split; [done|].
    change (nget currentMethod sm1 <> EAP_TYPE_IDENTITY). rewrite Hc. exact E4.
Qed.

(** *** The ends, the re-authentication and the pass-through *)

Lemma FAILURE_ok g sm : base sm -> safe (FAILURE_Enter g sm) (entered (enter g EAP_FAILURE sm) sm).
Proof. intros Hb. unfold FAILURE_Enter, eap_sm_buildFailure, build_end, sm_malloc, os_malloc. cbv zeta. ticked. Qed.

Lemma SUCCESS_ok g sm : base sm -> safe (SUCCESS_Enter g sm) (entered (eset eapSuccess true (enter g EAP_SUCCESS sm)) sm).
Proof.
  intros Hb. unfold SUCCESS_Enter, eap_sm_buildSuccess, build_end, sm_malloc, os_malloc, cond. cbv zeta.
  match goal with |- context [if (if ?c then true else false) then _ else _] => destruct c end; ticked.
Qed.

Lemma buildReauthStart_safe id sm : shared_ok (shared sm) -> safe (eap_sm_buildInitiateReauthStart id sm) (fun r =>
  exists s, r.2 = set_shared s sm /\ step_ok (shared sm) s).
Proof.
  intros Hs. unfold eap_sm_buildInitiateReauthStart, sm_malloc, os_malloc. cbv zeta.
  assert (exists s, set_shared (sh_tick (shared sm)) sm = set_shared s sm /\ step_ok (shared sm) s) as Ht
    by (eexists; split; [reflexivity|by apply tick_step]).
  destruct (env_alloc _); [|exact Ht].
  set (plen := 1 + _). assert (plen = 1 + match env_erp_domain with Some d => 2 + zlen d | None => 0 end) as Hp
    by (unfold plen; by destruct env_erp_domain). clearbody plen.
  assert (0 <= plen) as H0 by (rewrite Hp; destruct env_erp_domain as [d|]; [pose proof (zlen_nonneg d)|]; lia).
  rewrite eap_msg_alloc_ok, bind_ok by done. rewrite zlen_type_bytes. cbn [Z.eqb EAP_VENDOR_IETF]. unfold wpabuf_put_u8.
  set (hd := [_; _] ++ _ ++ _). assert (zlen hd = 5) as Hhd by (unfold hd; by rewrite !zlen_app, zlen_to_be, zlen_type_bytes).
  unfold eap_hdr_size. clearbody hd.
  assert (zlen [u8 0] = 1) as Hz by done.
  rewrite put_ok_app, bind_ok by (rewrite Hp, ?zlen_app, Hhd, Hz; destruct env_erp_domain as [d|]; [pose proof (zlen_nonneg d)|]; lia).
  destruct env_erp_domain as [d|].
  - pose proof (zlen_nonneg d). assert (forall v, zlen [u8 v] = 1) as Hz' by done.
    do 2 (rewrite put_ok_app, bind_ok by (rewrite Hp, !zlen_app, Hhd, ?Hz'; lia)).
    rewrite put_ok_app, bind_ok by (rewrite Hp, !zlen_app, Hhd, ?Hz'; lia). exact Ht.
  - rewrite bind_ok. exact Ht.
Qed.

Lemma INITIATE_REAUTH_START_ok g sm : base sm ->
  safe (INITIATE_REAUTH_START_Enter g sm) (entered (enter g EAP_INITIATE_REAUTH_START sm) sm).
Proof.
  intros Hb. unfold INITIATE_REAUTH_START_Enter. cbv zeta. set (sm1 := sset try_initiate_reauth true _).
  destruct (nextId_spec (nget currentId sm1) sm1 (b_shared _ Hb)) as (id & s & -> & Hs). change (shared sm1) with (shared sm) in Hs.
  set (sm2 := _ |> nset lastId id). eapply safe_bind; [apply (buildReauthStart_safe _ sm2), Hs|].
  intros [msg sm3] (s3 & E3 & Hs3). cbn [snd] in E3. subst sm3. cbn. change (shared sm2) with s in Hs3.
  eapply (entered_shared _ sm s3); try done. by eapply step_trans.
Qed.

Lemma send_finish_ok k id flags seq nai sm : base sm -> safe (erp_send_finish_reauth k id flags seq nai sm) (fun sm' =>
  exists b, entered (eset eapSuccess b sm) sm sm' /\ m sm' = m sm /\
    (b = true -> eget eapSuccess sm = true \/ (k <> None /\ Z.testbit flags 7 = false))).
Proof.
  intros Hb. unfold erp_send_finish_reauth, sm_malloc, os_malloc. cbv zeta.
  set (Q := fun sm' => _).
  pose proof (tick_step _ (b_shared _ Hb)) as Ht.
  pose proof (step_trans _ _ _ Ht (tick_step _ (proj1 Ht))) as Ht2.
  assert (forall s sm', step_ok (shared sm) s -> view_of sm' = view_of sm -> shared sm' = s -> m sm' = m sm ->
    eap_method_priv sm' = eap_method_priv sm -> bget eapRespData sm' = bget eapRespData sm -> Q sm') as Hsame.
  { intros s sm' Hs Hv He Hm Hp Hd. exists (eget eapSuccess sm). split; [by eapply entered_shared|]. split; [done|by auto]. }
  eapply safe_bind; [apply erp_finish_message_safe|]. intros [msg|] _; [|by apply (Hsame _ _ Ht)].
  destruct k as [k|]; [|by apply (Hsame _ _ Ht)].
  destruct (Z.testbit flags 7); [by apply (Hsame _ _ Ht)|].
  destruct (negb _); [by apply (Hsame _ _ Ht2)|].
  eapply safe_bind; [apply hmac_sha256_kdf_safe; auto|]. intros [key|] _; [|by apply (Hsame _ _ Ht2)].
  exists true. split; [by apply (entered_shared _ sm _ _ Hb Ht2)|]. split; [done|]. by right.
Qed.

(** an accepted EAP-Initiate/Re-auth is waiting *)
Definition reauth_accepted (sm : eap_sm P) : Prop :=
  exists msg i k k', bget eapRespData sm = Some msg /\ erp_read_initiate (Some msg) = Ok (Some i) /\
    erp_get_key (erp_keys sm) (cstr (i_nai i)) = Some k /\ erp_accept k msg i = Ok (k', true).

Lemma INITIATE_RECEIVED_ok g sm : base sm -> safe (INITIATE_RECEIVED_Enter conf g sm) (fun sm' =>
  exists b, entered (eset eapSuccess b (enter g EAP_INITIATE_RECEIVED sm)) sm sm' /\
    (b = true -> eget eapSuccess sm = true \/ reauth_accepted sm)).
Proof.
  intros Hb. unfold INITIATE_RECEIVED_Enter. cbv zeta. set (sm1 := sset rxInitiate false _). set (Q := fun sm' => _).
  change (bget eapRespData sm1) with (bget eapRespData sm). pose proof (b_data _ Hb) as Hd.
  assert (forall s sm', step_ok (shared sm) s -> view_of sm' = view_of sm1 -> shared sm' = s -> m sm' = m sm ->
    eap_method_priv sm' = eap_method_priv sm -> bget eapRespData sm' = bget eapRespData sm -> Q sm') as Hsame.
  { intros s sm' Hs Hv He Hm Hp Ed. exists (eget eapSuccess sm). split; [by eapply entered_shared|by auto]. }
  pose proof (step_refl _ (b_shared _ Hb)) as H0.
  pose proof (erp_read_initiate_safe (bget eapRespData sm) Hd) as Hr. destruct (bget eapRespData sm) as [msg|] eqn:Er.
  2: { apply safe_exists in Hr as ([i|] & -> & Hr); [done|]. by apply (Hsame _ _ H0). }
  apply safe_exists in Hr as ([i|] & Ei & Hr); rewrite Ei, bind_ok; [|by apply (Hsame _ _ H0)]. destruct Hr as [Hin Hv].
  destruct (negb (eap_server conf)).
  - unfold sm_malloc, os_malloc. cbv zeta.
    pose proof (identity_step _ None (proj1 H0)) as H1. pose proof (step_trans _ _ _ H1 (tick_step _ (proj1 H1))) as H2.
    destruct (env_alloc _); [|by apply (Hsame _ _ H2)].
    by apply (Hsame _ _ (step_trans _ _ _ H2 (identity_step _ (Some (i_nai i)) (proj1 H2)))).
  - destruct Hv as (len & El & H1 & H2). unfold eap_hdr_size in *. destruct (rd_in_range msg 1) as [id Eid]; [lia|]. rewrite Eid, bind_ok.
    change (erp_keys sm1) with (erp_keys sm). destruct (erp_get_key (erp_keys sm) (cstr (i_nai i))) as [k|] eqn:Ek.
    + pose proof (erp_accept_safe k msg i Hd Hin) as Ha. apply safe_exists in Ha as ([k' acc] & Ea & _). rewrite Ea, bind_ok. cbv zeta.
      set (sm2 := set_erp_keys _ sm1). destruct acc; [|by apply (Hsame _ _ H0)].
      assert (base sm2) as Hb2 by by eapply base_ext.
      eapply safe_mono; [by apply (send_finish_ok (Some k') id 0 (i_seq i) (i_nai i) sm2)|].
      intros sm' (b & (V & B & R) & _ & Hj). exists b. split; [by split|]. intros _. right. by exists msg, i, k, k'.
    + assert (base sm1) as Hb1 by by eapply base_ext.
      eapply safe_mono; [by apply (send_finish_ok None id 128 (i_seq i) (i_nai i) sm1)|].
      intros sm' (b & (V & B & R) & _ & Hj). exists b. split; [by split|]. intros Eb. destruct (Hj Eb) as [?|[? _]]; [by left|done].
Qed.

Lemma AAA_REQUEST_ok g sm : base sm -> safe (AAA_REQUEST_Enter g sm) (entered (enter g EAP_AAA_REQUEST sm) sm).
Proof.
  intros Hb. unfold AAA_REQUEST_Enter. cbv zeta. change (bget eapRespData (enter g EAP_AAA_REQUEST sm)) with (bget eapRespData sm).
  destruct (bget eapRespData sm) as [d|]; [|cbn; unchanged].
  destruct (copy_buf_spec (aaaEapRespData (eap_if_of (enter g EAP_AAA_REQUEST sm))) (Some d) (enter g EAP_AAA_REQUEST sm))
    as (r & b & s & -> & Hs); [exact (b_shared _ Hb)|]. by eapply entered_shared.
Qed.

Lemma copied_ok g X sm : base sm -> exists d s,
  copy_aaa_request (enter g X sm) = set_eapReqData d (set_shared s (enter g X sm)) /\ step_ok (shared sm) s.
Proof. intros Hb. apply (copy_aaa_ok (enter g X sm)). exact (b_shared _ Hb). Qed.

Lemma AAA_RESPONSE_ok g sm : base sm -> safe (AAA_RESPONSE_Enter g sm) (entered (enter g EAP_AAA_RESPONSE sm) sm).
Proof. intros Hb. unfold AAA_RESPONSE_Enter. cbv zeta. destruct (copied_ok g EAP_AAA_RESPONSE sm Hb) as (d & s & -> & Hs). by eapply entered_shared. Qed.

Lemma FAILURE2_ok g sm : base sm -> safe (FAILURE2_Enter g sm) (entered (enter g EAP_FAILURE2 sm) sm).
Proof. intros Hb. unfold FAILURE2_Enter. cbv zeta. destruct (copied_ok g EAP_FAILURE2 sm Hb) as (d & s & -> & Hs). by eapply entered_shared. Qed.

Lemma SUCCESS2_ok g sm : base sm -> safe (SUCCESS2_Enter g sm) (entered (eset eapSuccess true (enter g EAP_SUCCESS2 sm)) sm).
Proof.
  intros Hb. unfold SUCCESS2_Enter. cbv zeta. destruct (copied_ok g EAP_SUCCESS2 sm Hb) as (d & s & -> & Hs).
  set (sm1 := eset eapKeyAvailable _ _). destruct (sget aaaEapKeyAvailable sm1); [|by eapply entered_shared].
  destruct (copy_buf_spec (bget eapKeyData sm1) (bget aaaEapKeyData sm1) sm1) as (r & b & s' & -> & Hs'); [apply Hs|].
  change (shared sm1) with s in Hs'. eapply (entered_shared _ sm s'); try done. by eapply step_trans.
Qed.

(** *** The invariant of every state *)

Context (Hstart : methods_start) (Hno_reauth : env_erp_send_reauth_start = false).

(** what a state's entry leaves for its exits *)
Definition state_inv (s : eap_state) (sm : eap_sm P) : Prop :=
  match s with
  | EAP_IDLE | EAP_RETRANSMIT | EAP_RECEIVED | EAP_DISCARD | EAP_SEND_REQUEST | EAP_METHOD_RESPONSE => m sm <> None
  | EAP_INTEGRITY_CHECK => m sm <> None /\ (sget ignore sm = false -> processable sm)
  | EAP_PICK_UP_METHOD => nget currentMethod sm = EAP_TYPE_NONE \/ exists x, m sm = Some x /\ forall msg, accepts x msg
  | EAP_INITIALIZE => backend_auth conf = true -> nget currentMethod sm = EAP_TYPE_NONE
  | EAP_SELECT_ACTION => justified sm (decision sm)
  | EAP_INITIATE_REAUTH_START => False
  | _ => True
  end.

Record inv (sm : eap_sm P) : Prop := {
  i_base : base sm;
  i_state : state_inv (EAP_state sm) sm;
  i_rounds : 0 <= nget num_rounds sm <= EAP_MAX_AUTH_ROUNDS + 2;
  i_over : EAP_state sm = EAP_INTEGRITY_CHECK -> nget num_rounds sm <= EAP_MAX_AUTH_ROUNDS }.

(** where a success comes from *)
Definition success_from (sm : eap_sm P) : Prop :=
  EAP_state sm = EAP_SELECT_ACTION /\ decision sm = DECISION_SUCCESS /\ justified sm DECISION_SUCCESS \/
  EAP_state sm = EAP_AAA_IDLE /\ sget aaaSuccess sm = true /\ sget aaaFail sm = false \/
  (EAP_state sm = EAP_RECEIVED \/ EAP_state sm = EAP_SELECT_ACTION) /\ sget rxInitiate sm = true /\ reauth_accepted sm.

Definition pend_of (sm : eap_sm P) : pending := method_pending (shared sm).
Definition server_measure (sm : eap_sm P) : Z := measure (eap_server conf) (pend_of sm) (view_of sm).

(** one step of the machine, from a state whose [sm_changed] is clear *)
Record stepped (sm sm' : eap_sm P) : Prop := {
  st_inv : inv sm';
  st_measure : sget sm_changed sm' = true -> server_measure sm' < server_measure sm;
  st_rest : sget sm_changed sm' = false -> EAP_state sm' <> EAP_INTEGRITY_CHECK;
  st_success : eget eapSuccess sm' = true -> eget eapSuccess sm = true \/ success_from sm }.

Lemma rank_pend p q v : (q = METHOD_PENDING_CONT -> p = METHOD_PENDING_CONT) ->
  rank (eap_server conf) q v <= rank (eap_server conf) p v.
Proof.
  intros H. unfold rank. destruct (v_state v); try lia; repeat case_bool_decide; try lia; by destruct H.
Qed.
Lemma measure_pend p q v : (q = METHOD_PENDING_CONT -> p = METHOD_PENDING_CONT) ->
  measure (eap_server conf) q v <= measure (eap_server conf) p v.
Proof. intros H. pose proof (rank_pend p q v H). unfold measure. repeat case_match; lia. Qed.

Lemma pend_cont s s' : pend_step may_pend s s' -> method_pending s' = METHOD_PENDING_CONT -> method_pending s = METHOD_PENDING_CONT.
Proof. by intros [->|[_ H]]. Qed.

(** a state entered from [sm] is a step when the entry's picture [x] is one; [p] bounds what is pending then *)
Lemma stepped_of p (x sm sm' : eap_sm P) : view_of sm' = view_of x -> base sm' -> (pend_of sm' = METHOD_PENDING_CONT -> p = METHOD_PENDING_CONT) ->
  state_inv (v_state (view_of x)) sm' -> 0 <= v_rounds (view_of x) <= EAP_MAX_AUTH_ROUNDS + 2 ->
  (v_state (view_of x) = EAP_INTEGRITY_CHECK -> v_rounds (view_of x) <= EAP_MAX_AUTH_ROUNDS) ->
  (v_changed (view_of x) = true -> measure (eap_server conf) p (view_of x) < server_measure sm) ->
  (v_changed (view_of x) = false -> v_state (view_of x) <> EAP_INTEGRITY_CHECK) ->
  (v_success (view_of x) = true -> eget eapSuccess sm = true \/ success_from sm) -> stepped sm sm'.
Proof.
  intros V B Q Hi Hr Ho Hm Hs Hok. rewrite <- V in *. split; [by split|..|done|done].
  intros Hc. specialize (Hm Hc). pose proof (measure_pend p (pend_of sm') (view_of sm') Q). unfold server_measure at 1. lia.
Qed.

Lemma stepped_stay sm : inv sm -> sget sm_changed sm = false -> EAP_state sm <> EAP_INTEGRITY_CHECK -> stepped sm sm.
Proof. intros Hi Hc Hs. split; [done|congruence|done|by left]. Qed.

(** the guards before the switch *)
Record running (sm : eap_sm P) : Prop := {
  r_unchanged : sget sm_changed sm = false;
  r_restart : eget eapRestart sm = false;
  r_port : eget portEnabled sm = true;
  r_rounds : nget num_rounds sm <= EAP_MAX_AUTH_ROUNDS }.

Lemma measure_running sm : running sm -> server_measure sm = rank (eap_server conf) (pend_of sm) (view_of sm).
Proof.
  intros [_ H1 H2 H3]. unfold server_measure, measure. change (v_restart (view_of sm)) with (eget eapRestart sm).
  change (v_port (view_of sm)) with (eget portEnabled sm). change (v_rounds (view_of sm)) with (nget num_rounds sm).
  rewrite H1, H2. by replace (_ <? _) with false by lia.
Qed.

(** an edge between two states: the entry changes none of the guards, and comes nearer to a wait *)
Definition keeps_guards (v v' : view) : Prop :=
  v_restart v' = v_restart v /\ v_port v' = v_port v /\ v_rounds v' = v_rounds v /\ v_changed v' = true.

Lemma edge_measure p (x sm : eap_sm P) : running sm -> keeps_guards (view_of sm) (view_of x) ->
  measure (eap_server conf) p (view_of x) = rank (eap_server conf) p (view_of x).
Proof.
  intros [_ H1 H2 H3] (E1 & E2 & E3 & _). unfold measure. rewrite E1, E2, E3.
  change (v_restart (view_of sm)) with (eget eapRestart sm). change (v_port (view_of sm)) with (eget portEnabled sm).
  change (v_rounds (view_of sm)) with (nget num_rounds sm). rewrite H1, H2. cbn [andb negb].
  by replace (EAP_MAX_AUTH_ROUNDS <? nget num_rounds sm) with false by lia.
Qed.

Lemma stepped_edge (x sm sm' : eap_sm P) : running sm -> inv sm -> entered x sm sm' -> keeps_guards (view_of sm) (view_of x) ->
  rank (eap_server conf) (pend_of sm) (view_of x) < rank (eap_server conf) (pend_of sm) (view_of sm) ->
  state_inv (v_state (view_of x)) sm' ->
  (v_success (view_of x) = true -> eget eapSuccess sm = true \/ success_from sm) -> stepped sm sm'.
Proof.
  intros Hr Hi (V & B & Q) Hg Hrk Hst Hok. pose proof Hg as (_ & _ & E3 & Ec).
  eapply (stepped_of (pend_of sm) x); try done; [by apply pend_cont|..|by rewrite Ec].
  - rewrite E3. exact (i_rounds _ Hi).
  - intros _. rewrite E3. exact (r_rounds _ Hr).
  - intros _. by rewrite (measure_running _ Hr), (edge_measure _ _ sm Hr).
Qed.

(** as before, where what was pending is now carried on *)
Lemma stepped_cont (x sm sm' : eap_sm P) : running sm -> inv sm -> pend_of sm = METHOD_PENDING_CONT ->
  entered x (on_shared (sh_pending METHOD_PENDING_NONE) sm) sm' -> keeps_guards (view_of sm) (view_of x) ->
  rank (eap_server conf) METHOD_PENDING_NONE (view_of x) < rank (eap_server conf) METHOD_PENDING_CONT (view_of sm) ->
  state_inv (v_state (view_of x)) sm' ->
  (v_success (view_of x) = true -> eget eapSuccess sm = true \/ success_from sm) -> stepped sm sm'.
Proof.
  intros Hr Hi Hp (V & B & Q) Hg Hrk Hst Hok. pose proof Hg as (_ & _ & E3 & Ec).
  eapply (stepped_of METHOD_PENDING_NONE x); try done; [..|by rewrite Ec].
  - intros H. by apply (pend_cont _ _ Q) in H.
  - rewrite E3. exact (i_rounds _ Hi).
  - intros _. rewrite E3. exact (r_rounds _ Hr).
  - intros _. rewrite (measure_running _ Hr), (edge_measure _ _ sm Hr), Hp; done.
Qed.

Ltac edge He := eapply stepped_edge; [eassumption|eassumption|exact He|done|..].

Lemma idle_ok g X sm : base sm -> safe (idle_Enter X g sm) (fun sm' =>
  entered (set_retrans (eap_sm_calculateTimeout (enter g X sm)) (enter g X sm)) sm sm' /\ m sm' = m sm).
Proof. intros Hb. split; [unchanged|done]. Qed.

Lemma discard_ok g X sm : base sm -> safe (discard_Enter X g sm) (fun sm' =>
  entered (eset eapResp false (enter g X sm)) sm sm' /\ m sm' = m sm).
Proof. intros Hb. split; [unchanged|done]. Qed.

Lemma simple_ok g X sm : base sm -> entered (enter g X sm) sm (enter g X sm).
Proof. intros Hb. unchanged. Qed.

(** after the timer is set it is running *)
Lemma backoff_pos n rto : 0 < rto ->
  0 < (fix backoff (n : nat) (rto : Z) : Z :=
       match n with O => rto | S n => let rto := rto * 2 in if 20 <=? rto then 20 else backoff n rto end) n rto.
Proof. revert rto. induction n as [|n IH]; intros rto H; [done|]. cbn. case_match; [lia|]. apply IH. lia. Qed.
Lemma calculateTimeout_set sm : eap_sm_calculateTimeout sm <> 0.
Proof.
  unfold eap_sm_calculateTimeout. destruct (sget try_initiate_reauth sm); [done|].
  destruct (Z.eqb_spec (nget methodTimeout sm) 0); [|done]. cbn [negb].
  apply not_eq_sym, Z.lt_neq, backoff_pos. lia.
Qed.

Section Step.
Context (sm : eap_sm P) (Hr : running sm) (Hi : inv sm).
Let Hb := i_base _ Hi.
Abbreviation here := (rank (eap_server conf) (pend_of sm) (view_of sm)).

(** *** The way into each state *)

Lemma to_idle : m sm <> None -> (if eget eapResp sm then 17 else 0) < here -> safe (IDLE_Enter false sm) (stepped sm).
Proof.
  intros Hm Hk. eapply safe_mono; [exact (idle_ok false EAP_IDLE sm Hb)|]. intros sm' [He Em].
  pose proof (calculateTimeout_set (enter false EAP_IDLE sm)). edge He; [|by rewrite <- Em in Hm|by auto].
  unfold rank at 1. cbn -[eap_sm_calculateTimeout]. by destruct (Z.eqb_spec (eap_sm_calculateTimeout (enter false EAP_IDLE sm)) 0).
Qed.
Lemma to_idle2 : (if eget eapResp sm then 6 else 0) < here -> safe (IDLE2_Enter false sm) (stepped sm).
Proof.
  intros Hk. eapply safe_mono; [exact (idle_ok false EAP_IDLE2 sm Hb)|]. intros sm' [He Em].
  pose proof (calculateTimeout_set (enter false EAP_IDLE2 sm)). edge He; [|done|by auto].
  unfold rank at 1. cbn -[eap_sm_calculateTimeout]. by destruct (Z.eqb_spec (eap_sm_calculateTimeout (enter false EAP_IDLE2 sm)) 0).
Qed.
Lemma to_discard : m sm <> None -> 1 < here -> safe (DISCARD_Enter false sm) (stepped sm).
Proof.
  intros Hm Hk. eapply safe_mono; [exact (discard_ok false EAP_DISCARD sm Hb)|]. intros sm' [He Em].
  edge He; [done|by rewrite <- Em in Hm|by auto].
Qed.
Lemma to_discard2 : 1 < here -> safe (DISCARD2_Enter false sm) (stepped sm).
Proof. intros Hk. eapply safe_mono; [exact (discard_ok false EAP_DISCARD2 sm Hb)|]. intros sm' [He Em]. edge He; [done|done|by auto]. Qed.
Lemma to_retransmit : m sm <> None -> 18 < here -> safe (RETRANSMIT_Enter false sm) (stepped sm).
Proof.
  intros Hm Hk. eapply safe_mono; [exact (retransmit_ok false EAP_RETRANSMIT sm Hb)|]. intros sm' [He Em].
  edge He; [|by rewrite <- Em in Hm|by auto]. unfold rank at 1. cbn. case_match; lia.
Qed.
Lemma to_retransmit2 : (if eget eapResp sm then 7 else 1) < here -> safe (RETRANSMIT2_Enter false sm) (stepped sm).
Proof. intros Hk. eapply safe_mono; [exact (retransmit_ok false EAP_RETRANSMIT2 sm Hb)|]. intros sm' [He Em]. edge He; [done|done|by auto]. Qed.
Lemma to_send : m sm <> None -> 1 < here -> safe (SEND_REQUEST_Enter false sm) (fun sm' => stepped sm sm' /\
  keeps_guards (view_of sm) (view_of sm')).
Proof.
  intros Hm Hk. eapply safe_mono; [exact (send_request_ok false EAP_SEND_REQUEST sm Hb)|]. intros sm' [He Em].
  split; [edge He; [done|by rewrite <- Em in Hm|by auto]|]. destruct He as (V & _). by rewrite V.
Qed.
Lemma to_send2 : 1 < here -> safe (SEND_REQUEST2_Enter false sm) (stepped sm).
Proof. intros Hk. eapply safe_mono; [exact (send_request_ok false EAP_SEND_REQUEST2 sm Hb)|]. intros sm' [He Em]. edge He; [done|done|by auto]. Qed.
Lemma to_failure : 0 < here -> safe (FAILURE_Enter false sm) (stepped sm).
Proof. intros Hk. eapply safe_mono; [exact (FAILURE_ok false sm Hb)|]. intros sm' He. edge He; [done|done|by auto]. Qed.
Lemma to_failure2 : 0 < here -> safe (FAILURE2_Enter false sm) (stepped sm).
Proof. intros Hk. eapply safe_mono; [exact (FAILURE2_ok false sm Hb)|]. intros sm' He. edge He; [done|done|by auto]. Qed.
Lemma to_success : success_from sm -> 0 < here -> safe (SUCCESS_Enter false sm) (stepped sm).
Proof. intros Hs Hk. eapply safe_mono; [exact (SUCCESS_ok false sm Hb)|]. intros sm' He. edge He; [done|done|by auto]. Qed.
Lemma to_success2 : success_from sm -> 0 < here -> safe (SUCCESS2_Enter false sm) (stepped sm).
Proof. intros Hs Hk. eapply safe_mono; [exact (SUCCESS2_ok false sm Hb)|]. intros sm' He. edge He; [done|done|by auto]. Qed.
Lemma to_select : 8 < here -> safe (SELECT_ACTION_Enter conf false sm) (stepped sm).
Proof. intros Hk. eapply safe_mono; [exact (SELECT_ACTION_ok false sm Hb)|]. intros sm' (He & _ & Hj). edge He; [done|exact Hj|by auto]. Qed.
Lemma to_nak : 9 < here -> safe (NAK_Enter false sm) (stepped sm).
Proof. intros Hk. eapply safe_mono; [exact (NAK_ok false sm Hb)|]. intros sm' He. edge He; [done|done|by auto]. Qed.
Lemma to_method_request : 3 < here -> safe (METHOD_REQUEST_Enter false sm) (stepped sm).
Proof. intros Hk. eapply safe_mono; [exact (METHOD_REQUEST_ok false sm Hb)|]. intros sm' He. edge He; [done|done|by auto]. Qed.
Lemma to_method_response : m sm <> None -> processable sm -> 12 < here -> safe (METHOD_RESPONSE_Enter conf false sm) (stepped sm).
Proof.
  intros Hm Hp Hk. eapply safe_mono; [exact (METHOD_RESPONSE_ok false sm Hb Hm Hp)|]. intros sm' [He Em].
  edge He; [unfold rank at 1; cbn; case_match; lia|by rewrite <- Em in Hm|by auto].
Qed.
Lemma to_propose : 6 < here -> safe (PROPOSE_METHOD_Enter eap_methods false sm) (stepped sm).
Proof.
  intros Hk. eapply safe_mono; [exact (PROPOSE_METHOD_ok false sm Hstart Hb)|]. intros sm' He.
  edge He; [unfold rank at 1; cbn; case_match; lia|done|by auto].
Qed.
Lemma to_pick_up : nget currentMethod sm = EAP_TYPE_NONE -> 13 < here -> safe (PICK_UP_METHOD_Enter eap_methods false sm) (stepped sm).
Proof. intros Hc Hk. eapply safe_mono; [exact (PICK_UP_ok false sm Hb Hc)|]. intros sm' [He Hp]. edge He; [done|exact Hp|by auto]. Qed.
Lemma to_integrity : m sm <> None -> 13 < here -> safe (INTEGRITY_CHECK_Enter false sm) (stepped sm).
Proof.
  intros Hm Hk. eapply safe_mono; [exact (INTEGRITY_CHECK_ok false sm Hb Hm)|]. intros sm' (He & Em & Hp).
  edge He; [done|by rewrite <- Em in Hm|by auto].
Qed.
Lemma to_initiate_received : EAP_state sm = EAP_RECEIVED \/ EAP_state sm = EAP_SELECT_ACTION -> sget rxInitiate sm = true ->
  (if eap_server conf then 0 else 9) < here -> safe (INITIATE_RECEIVED_Enter conf false sm) (stepped sm).
Proof.
  intros Hs Hx Hk. eapply safe_mono; [exact (INITIATE_RECEIVED_ok false sm Hb)|]. intros sm' (b & He & Hj). edge He; [done|done|].
  intros Eb. destruct (Hj Eb) as [?|?]; [by left|]. right. right. by right.
Qed.
Lemma to_aaa_request : 4 < here -> safe (AAA_REQUEST_Enter false sm) (stepped sm).
Proof. intros Hk. eapply safe_mono; [exact (AAA_REQUEST_ok false sm Hb)|]. intros sm' He. edge He; [done|done|by auto]. Qed.
Lemma to_aaa_response : 2 < here -> safe (AAA_RESPONSE_Enter false sm) (stepped sm).
Proof. intros Hk. eapply safe_mono; [exact (AAA_RESPONSE_ok false sm Hb)|]. intros sm' He. edge He; [done|done|by auto]. Qed.
Lemma to_received2 : 5 < here -> safe (RECEIVED2_Enter false sm) (stepped sm).
Proof. intros Hk. eapply safe_mono; [exact (RECEIVED2_ok false sm Hb)|]. intros sm' He. edge He; [done|done|by auto]. Qed.

(** entries that copy nothing and question nobody *)
Lemma to_plain sm' : entered sm' sm sm' -> keeps_guards (view_of sm) (view_of sm') -> state_inv (EAP_state sm') sm' ->
  rank (eap_server conf) (pend_of sm) (view_of sm') < here -> v_success (view_of sm') = eget eapSuccess sm -> stepped sm sm'.
Proof. intros He Hg Hs Hk Eo. eapply stepped_edge; try done. rewrite Eo. by auto. Qed.
Ltac plain := apply to_plain; [apply entered_ext; [exact Hb|reflexivity..]|done|exact I|cbn|reflexivity].

Lemma to_timeout_failure : 0 < here -> safe (TIMEOUT_FAILURE_Enter false sm) (stepped sm).
Proof. intros Hk. cbn. by plain. Qed.
Lemma to_timeout_failure2 : 0 < here -> safe (TIMEOUT_FAILURE2_Enter false sm) (stepped sm).
Proof. intros Hk. cbn. by plain. Qed.
Lemma to_aaa_idle : 3 < here -> safe (AAA_IDLE_Enter false sm) (stepped sm).
Proof. intros Hk. cbn. plain. repeat case_match; lia. Qed.
Lemma to_passthrough : 5 < here -> safe (INITIALIZE_PASSTHROUGH_Enter false sm) (stepped sm).
Proof. intros Hk. cbn. by plain. Qed.

(** a message more has been received; after the last round nothing else happens *)
Lemma to_received : m sm <> None -> 15 < here -> safe (RECEIVED_Enter false sm) (stepped sm).
Proof.
  intros Hm Hk. eapply safe_mono; [exact (RECEIVED_ok false sm Hb)|]. intros sm' [(V & B & Q) Em].
  pose proof (measure_running _ Hr) as Er. destruct Hr as [_ H1 H2 H3]. pose proof (i_rounds _ Hi). set (x := nset num_rounds _ _) in V.
  eapply (stepped_of (pend_of sm) x); try done.
  - by apply pend_cont.
  - by rewrite <- Em in Hm.
  - change (v_rounds (view_of x)) with (nget num_rounds sm + 1). lia.
  - intros _. rewrite Er. unfold measure. change (v_restart (view_of x)) with (eget eapRestart sm).
    change (v_port (view_of x)) with (eget portEnabled sm). rewrite H1, H2. cbn [andb negb]. unfold rank at 1. cbn. repeat case_match; lia.
  - by auto.
Qed.
End Step.

Lemma fresh_initialize g sm : inv sm -> EAP_state sm = EAP_DISABLED \/ g = true -> eget portEnabled sm = true ->
  (if g then 30 else 16) <= server_measure sm -> safe (INITIALIZE_Enter conf g sm) (stepped sm).
Proof.
  intros Hi Hg Hp Hk. eapply safe_mono; [exact (INITIALIZE_ok g sm (i_base _ Hi))|]. intros sm' ((V & B & Q) & Em & Hc).
  set (x := _ |> nset num_rounds 0) in V. eapply (stepped_of (pend_of sm) x); try done.
  - by apply pend_cont.
  - intros _. unfold measure. change (v_restart (view_of x)) with false. change (v_port (view_of x)) with (eget portEnabled sm).
    change (v_rounds (view_of x)) with 0. change (v_state (view_of x)) with EAP_INITIALIZE. rewrite Hp. cbn. destruct g; lia.
Qed.

(** *** The switch on the state *)

Section Switch.
Context (sm : eap_sm P) (Hr : running sm) (Hi : inv sm).
Abbreviation here := (rank (eap_server conf) (pend_of sm) (view_of sm)).

Lemma here_at X : EAP_state sm = X -> here =
  rank (eap_server conf) (pend_of sm) (mkView X (sget sm_changed sm) (eget eapRestart sm) (eget portEnabled sm) (eget eapResp sm)
    (eget eapSuccess sm) (nget num_rounds sm) (retransWhile (eap_if_of sm))
    (sget aaaFail sm || sget aaaSuccess sm || sget aaaEapReq sm) (sget aaaTimeout sm) (bget eapRespData sm)).
Proof. by intros <-. Qed.
Lemma state_at X : EAP_state sm = X -> state_inv X sm.
Proof. intros <-. exact (i_state _ Hi). Qed.
Lemma stay_at X : EAP_state sm = X -> X <> EAP_INTEGRITY_CHECK -> safe (Ok sm) (stepped sm).
Proof. intros <- HX. apply stepped_stay; [done|by apply Hr|done]. Qed.

(** how far the state left is from a wait *)
Ltac near E := rewrite (here_at _ E); unfold rank; cbn [v_state v_resp v_retrans v_aaa v_timeout]; repeat case_match; try done; lia.

Lemma step_RECEIVED_ok : EAP_state sm = EAP_RECEIVED -> safe (step_RECEIVED conf sm) (stepped sm).
Proof.
  intros E. pose proof (state_at _ E) as Hm. unfold step_RECEIVED.
  destruct (_ && _ && _); [apply to_nak; try done; near E|]. destruct (_ && _); [apply to_integrity; try done; near E|].
  destruct (sget rxInitiate sm) eqn:Ex; [apply to_initiate_received; try done; [by left|near E]|].
  apply to_discard; try done; near E.
Qed.

Lemma step_METHOD_REQUEST_ok : EAP_state sm = EAP_METHOD_REQUEST -> safe (step_METHOD_REQUEST sm) (stepped sm).
Proof.
  intros E. unfold step_METHOD_REQUEST. destruct (m sm) as [x|] eqn:Em; [|apply to_failure; try done; near E].
  eapply safe_bind; [apply to_send; try done; [by rewrite Em|near E]|]. intros sm1 [Hst Hg1].
  destruct (eget eapNoReq sm1 && negb (eget eapReq sm1)); [|exact Hst].
  destruct Hst as [Hi1 _ _ Ho1]. eapply safe_mono; [exact (FAILURE_ok false sm1 (i_base _ Hi1))|]. intros sm' (V & B & Q).
  assert (keeps_guards (view_of sm) (view_of sm')) as Hg by (rewrite V; destruct Hg1 as (G1 & G2 & G3 & _); exact (conj G1 (conj G2 (conj G3 eq_refl)))).
  eapply (stepped_of (pend_of sm') (enter false EAP_FAILURE sm1)); try done; [exact (i_rounds _ Hi1)|].
  intros _. rewrite (measure_running _ Hr), <- V, (edge_measure _ _ sm Hr Hg), V. near E.
Qed.

Lemma step_METHOD_RESPONSE_ok : EAP_state sm = EAP_METHOD_RESPONSE -> safe (step_METHOD_RESPONSE conf sm) (stepped sm).
Proof.
  intros E. pose proof (state_at _ E) as Hm. unfold step_METHOD_RESPONSE, in_pending.
  case_bool_decide; [apply to_select; try done; near E|]. case_bool_decide; [by apply (stay_at _ E)|].
  case_bool_decide as Hp; [|apply to_method_request; try done; near E].
  assert (@may_pend P eap_methods ML) as Hmay by (destruct (b_pend _ (i_base _ Hi)) as [?|Hn]; [done|by rewrite Hn in Hp]).
  set (sm1 := on_shared _ sm).
  assert (base sm1) as Hb1 by (apply base_shared; [apply Hi|apply none_step; [exact (b_shared _ (i_base _ Hi))|by left]]).
  eapply safe_mono; [apply (METHOD_RESPONSE_ok false sm1 Hb1 Hm)|].
  - intros x resp Ex _. assert (x ∈ eap_methods) as Hx.
    { pose proof (b_method _ Hb1) as Hg. unfold method_good in Hg. rewrite Ex in Hg. destruct (eap_method_priv sm1); by destruct Hg. }
    exact (l_pend _ _ _ _ (method_ok x Hx) resp Hmay).
  - intros sm' [He Em]. eapply (stepped_cont _ sm sm'); [done|done|done|exact He|done| |by change (m sm' <> None); rewrite Em|by auto].
    unfold rank at 2. change (v_state (view_of sm)) with (EAP_state sm). rewrite E. reflexivity.
Qed.

Lemma step_PROPOSE_METHOD_ok : EAP_state sm = EAP_PROPOSE_METHOD -> safe (step_PROPOSE_METHOD eap_methods sm) (stepped sm).
Proof.
  intros E. pose proof (i_base _ Hi) as Hb. unfold step_PROPOSE_METHOD, in_pending. case_bool_decide as Hw.
  - unfold cond. destruct (Z.ltb_spec 0 (user_eap_method_index (shared sm))); [|by apply (stay_at _ E)].
    set (sm' := on_shared _ sm). assert (base sm') as Hb' by (apply base_shared; [done|apply index_step; [exact (b_shared _ Hb)|lia]]).
    pose proof (r_unchanged _ Hr) as Hc. split; [split; [done| |exact (i_rounds _ Hi)|exact (i_over _ Hi)]|..].
    + change (EAP_state sm') with (EAP_state sm). by rewrite E.
    + change (sget sm_changed sm') with (sget sm_changed sm). by rewrite Hc.
    + intros _. change (EAP_state sm') with (EAP_state sm). by rewrite E.
    + by left.
  - case_bool_decide as Hp; [|apply to_method_request; try done; near E]. set (sm1 := on_shared _ sm).
    assert (base sm1) as Hb1 by (apply base_shared; [done|apply none_step; [exact (b_shared _ Hb)|exact (b_pend _ Hb)]]).
    eapply safe_mono; [exact (PROPOSE_METHOD_ok false sm1 Hstart Hb1)|]. intros sm' He.
    eapply (stepped_cont _ sm sm'); [done|done|done|exact He|done| |done|by auto].
    unfold rank at 2. change (v_state (view_of sm)) with (EAP_state sm). rewrite E. reflexivity.
Qed.

Lemma step_SELECT_ACTION_ok : EAP_state sm = EAP_SELECT_ACTION -> safe (step_SELECT_ACTION eap_methods conf sm) (stepped sm).
Proof.
  intros E. pose proof (state_at _ E) as Hj. cbn in Hj. unfold step_SELECT_ACTION. destruct (decision sm) eqn:Ed.
  - apply to_success; try done; [by left|near E].
  - apply to_failure; try done; near E.
  - destruct (eap_server conf && erp conf && sget rxInitiate sm) eqn:Ex; [|apply to_propose; try done; near E].
    apply andb_true_iff in Ex as [[Es _]%andb_true_iff Ex]. apply to_initiate_received; try done; [by right|]. rewrite (here_at _ E), Es. done.
  - apply to_passthrough; try done; near E.
  - cbn in Hj. congruence.
Qed.
Lemma step_IDLE_ok : EAP_state sm = EAP_IDLE -> safe (step_IDLE conf sm) (stepped sm).
Proof.
  intros E. pose proof (state_at _ E) as Hm. unfold step_IDLE. destruct (retransWhile (eap_if_of sm) =? 0) eqn:Ew.
  - assert (here = 19) as Hk by (rewrite (here_at _ E); unfold rank; cbn; by rewrite Ew).
    destruct (sget try_initiate_reauth sm); [|apply to_retransmit; try done; rewrite Hk; lia].
    set (sm1 := sset try_initiate_reauth false sm). assert (base sm1) as Hb1 by (eapply base_ext; [exact (i_base _ Hi)|done..]).
    eapply safe_mono; [exact (SELECT_ACTION_ok false sm1 Hb1)|]. intros sm' (He & _ & Hj).
    eapply (stepped_edge _ sm); [done|done|exact He|done|by rewrite Hk|exact Hj|by auto].
  - destruct (eget eapResp sm) eqn:Er; [|by apply (stay_at _ E)]. apply to_received; try done.
    rewrite (here_at _ E). unfold rank. cbn. by rewrite Ew, Er.
Qed.

Lemma step_AAA_IDLE_ok : EAP_state sm = EAP_AAA_IDLE -> safe (step_AAA_IDLE sm) (stepped sm).
Proof.
  intros E. unfold step_AAA_IDLE. rewrite <- (andb_true_l (sget aaaFail sm)).
  destruct (sget aaaFail sm) eqn:Ef; cbn [andb].
  { apply to_failure2; try done. rewrite (here_at _ E). unfold rank. cbn. by rewrite Ef. }
  destruct (sget aaaSuccess sm) eqn:Es.
  { apply to_success2; try done; [by right; left|]. rewrite (here_at _ E). unfold rank. cbn. by rewrite Ef, Es. }
  destruct (sget aaaEapReq sm) eqn:Eq.
  { apply to_aaa_response; try done. rewrite (here_at _ E). unfold rank. cbn. by rewrite Ef, Es, Eq. }
  destruct (sget aaaTimeout sm) eqn:Et; [|by apply (stay_at _ E)].
  apply to_timeout_failure2; try done. rewrite (here_at _ E). unfold rank. cbn. by rewrite Ef, Es, Eq, Et.
Qed.

Lemma step_PICK_UP_ok : EAP_state sm = EAP_PICK_UP_METHOD -> safe (step_state eap_methods conf sm) (stepped sm).
Proof.
  intros E. pose proof (state_at _ E) as Hm. unfold step_state. rewrite E.
  destruct (Z.eqb_spec (nget currentMethod sm) EAP_TYPE_NONE) as [|Hc]; [apply to_select; try done; near E|].
  destruct Hm as [?|(x & Ex & Hx)]; [done|]. apply to_method_response; try done; [by rewrite Ex| |near E].
  intros x' resp Ex' _. rewrite Ex in Ex'. by injection Ex' as <-.
Qed.

Lemma step_IDLE2_ok : EAP_state sm = EAP_IDLE2 -> safe (step_state eap_methods conf sm) (stepped sm).
Proof.
  intros E. unfold step_state. rewrite E. destruct (eget eapResp sm) eqn:Er.
  - apply to_received2; try done. rewrite (here_at _ E). unfold rank. cbn. by rewrite Er.
  - destruct (retransWhile (eap_if_of sm) =? 0) eqn:Ew; [|by apply (stay_at _ E)].
    apply to_retransmit2; try done. rewrite (here_at _ E). unfold rank. cbn. by rewrite Er, Ew.
Qed.

Lemma step_INITIALIZE_ok : EAP_state sm = EAP_INITIALIZE -> safe (step_state eap_methods conf sm) (stepped sm).
Proof.
  intros E. pose proof (state_at _ E) as Hm. cbn in Hm. unfold step_state. rewrite E.
  destruct (backend_auth conf); [|apply to_select; try done; near E].
  destruct (negb _); [apply to_select; try done; near E|]. destruct (is_nak sm); [apply to_nak; try done; near E|].
  apply to_pick_up; try done; [by apply Hm|near E].
Qed.

Lemma step_INTEGRITY_ok : EAP_state sm = EAP_INTEGRITY_CHECK -> safe (step_state eap_methods conf sm) (stepped sm).
Proof.
  intros E. destruct (state_at _ E) as [Hm Hp]. unfold step_state. rewrite E.
  destruct (sget ignore sm); [apply to_discard; try done; near E|]. apply to_method_response; try done; [by apply Hp|near E].
Qed.

Lemma step_DISABLED_ok : EAP_state sm = EAP_DISABLED -> safe (step_state eap_methods conf sm) (stepped sm).
Proof.
  intros E. unfold step_state. rewrite E. rewrite (r_port _ Hr). apply fresh_initialize; try done; [by left|by apply Hr|].
  rewrite (measure_running _ Hr), (here_at _ E). done.
Qed.

Lemma step_RETRANSMITs_ok : EAP_state sm = EAP_RETRANSMIT \/ EAP_state sm = EAP_RETRANSMIT2 ->
  safe (step_state eap_methods conf sm) (stepped sm).
Proof.
  intros [E|E]; pose proof (state_at _ E) as Hm; unfold step_state; rewrite E;
    (destruct (_ <? _); [first [apply to_timeout_failure|apply to_timeout_failure2]; try done; near E|
                         first [apply to_idle|apply to_idle2]; try done; near E]).
Qed.

Lemma step_state_ok : safe (step_state eap_methods conf sm) (stepped sm).
Proof.
  destruct (EAP_state sm) eqn:E; pose proof (state_at _ E) as Hm;
    first [by apply step_DISABLED_ok|by apply step_INITIALIZE_ok|by apply step_INTEGRITY_ok|by apply step_PICK_UP_ok
          |by apply step_IDLE2_ok|by apply step_RETRANSMITs_ok; auto|unfold step_state; rewrite E];
    first [by apply step_IDLE_ok|by apply step_RECEIVED_ok|by apply step_METHOD_RESPONSE_ok|by apply step_METHOD_REQUEST_ok
          |by apply step_PROPOSE_METHOD_ok|by apply step_SELECT_ACTION_ok|by apply step_AAA_IDLE_ok|by apply (stay_at _ E)|idtac].
  - apply to_idle; try done. near E.
  - apply to_idle; try done. near E.
  - apply to_select; try done. near E.
  - destruct (_ =? _); [apply to_aaa_idle|apply to_aaa_request]; try done; near E.
  - destruct (rx_current_id sm); [apply to_aaa_request|apply to_discard2]; try done; near E.
  - apply to_idle2; try done. near E.
  - apply to_idle2; try done. near E.
  - apply to_aaa_idle; try done. near E.
  - apply to_send2; try done. near E.
  - destruct (eap_server conf) eqn:Es; [by apply (stay_at _ E)|]. apply to_select; try done. rewrite (here_at _ E), Es. done.
Qed.
End Switch.

(** *** The step and its loop *)

Lemma EAP_Step_ok sm : inv sm -> sget sm_changed sm = false -> safe (EAP_Step eap_methods conf sm) (stepped sm).
Proof.
  intros Hi Hc. pose proof (i_rounds _ Hi) as Hn. unfold EAP_Step. destruct (eget eapRestart sm && eget portEnabled sm) eqn:Eg.
  { apply andb_true_iff in Eg as [Er Ep]. apply fresh_initialize; try done; [by right|].
    unfold server_measure, measure. change (v_restart (view_of sm)) with (eget eapRestart sm).
    change (v_port (view_of sm)) with (eget portEnabled sm). by rewrite Er, Ep. }
  destruct (eget portEnabled sm) eqn:Ep; cbn [negb].
  2: { set (sm' := nset num_rounds 0 (enter true EAP_DISABLED sm)).
    assert (entered sm' sm sm') as (V & B & Q) by (apply entered_ext; [apply Hi|reflexivity..]).
    eapply (stepped_of (pend_of sm) sm'); try done; [|by auto].
    change (negb (bool_decide (EAP_state sm = EAP_DISABLED)) || sget sm_changed sm = true -> measure (eap_server conf) (pend_of sm)
      (view_of sm') < server_measure sm). rewrite Hc, orb_false_r. case_bool_decide as Es; [done|]. intros _.
    unfold server_measure, measure. change (v_restart (view_of sm)) with (eget eapRestart sm).
    change (v_port (view_of sm)) with (eget portEnabled sm). change (v_restart (view_of sm')) with (eget eapRestart sm).
    change (v_port (view_of sm')) with (eget portEnabled sm). change (v_state (view_of sm)) with (EAP_state sm).
    rewrite Ep, andb_false_r. cbn [negb]. rewrite (bool_decide_false _ Es). by vm_compute. }
  rewrite andb_true_r in Eg. destruct (Z.ltb_spec EAP_MAX_AUTH_ROUNDS (nget num_rounds sm)) as [Hl|Hl]; [|by apply step_state_ok].
  destruct (Z.eqb_spec (nget num_rounds sm) (EAP_MAX_AUTH_ROUNDS + 1)) as [En|En].
  - set (sm1 := nset num_rounds _ sm). assert (base sm1) as Hb1 by (eapply base_ext; [exact (i_base _ Hi)|done..]).
    eapply safe_mono; [exact (FAILURE_ok true sm1 Hb1)|]. intros sm' (V & B & Q). set (x := enter true EAP_FAILURE sm1) in V.
    eapply (stepped_of (pend_of sm) x); try done; [by apply pend_cont|..|by auto].
    + change (v_rounds (view_of x)) with (nget num_rounds sm + 1). lia.
    + intros _. unfold server_measure, measure. change (v_restart (view_of x)) with (eget eapRestart sm).
      change (v_port (view_of x)) with (eget portEnabled sm). change (v_rounds (view_of x)) with (nget num_rounds sm + 1).
      change (v_restart (view_of sm)) with (eget eapRestart sm). change (v_port (view_of sm)) with (eget portEnabled sm).
      change (v_rounds (view_of sm)) with (nget num_rounds sm). rewrite Eg, Ep, En. done.
  - split; [done|by rewrite Hc| |by left]. intros _ E. pose proof (i_over _ Hi E). lia.
Qed.

Definition machine_step (sm sm' : eap_sm P) : Prop := EAP_Step eap_methods conf (sset sm_changed false sm) = Ok sm'.

(** at rest: no check is half done *)
Definition resting (sm : eap_sm P) : Prop := inv sm /\ EAP_state sm <> EAP_INTEGRITY_CHECK.

Lemma clear_changed sm : inv sm -> inv (sset sm_changed false sm).
Proof. intros [H1 H2 H3 H4]. split; [by eapply base_ext|exact H2|exact H3|exact H4]. Qed.

Lemma machine_step_ok sm : inv sm -> exists sm', machine_step sm sm' /\ stepped (sset sm_changed false sm) sm'.
Proof. intros Hi. apply safe_exists, EAP_Step_ok; [by apply clear_changed|done]. Qed.

Lemma server_loop_ok fuel res sm : inv sm -> server_measure sm < Z.of_nat fuel ->
  safe (server_loop eap_methods conf fuel res sm) (fun r => resting r.1 /\ sget sm_changed r.1 = false /\
    (eget eapSuccess r.1 = true -> eget eapSuccess sm = true \/ exists sm1, rtc machine_step sm sm1 /\ inv sm1 /\ success_from sm1)).
Proof.
  revert res sm. induction fuel as [|fuel IH]; intros res sm Hi Hf.
  { pose proof (measure_range (eap_server conf) (pend_of sm) (view_of sm)). unfold server_measure in Hf. lia. }
  cbn [server_loop]. destruct (machine_step_ok sm Hi) as (sm1 & Es & [Hi1 Hm1 Hr1 Ho1]). unfold machine_step in Es. rewrite Es, bind_ok.
  assert (eget eapSuccess sm1 = true -> eget eapSuccess sm = true \/ exists sm2, rtc machine_step sm sm2 /\ inv sm2 /\ success_from sm2) as Ho.
  { intros H. destruct (Ho1 H) as [?|?]; [by left|]. right. exists sm. split; [apply rtc_refl|]. by split. }
  destruct (sget sm_changed sm1) eqn:Ec; [|split; [by split; [|apply Hr1]|done]].
  specialize (Hm1 eq_refl). change (server_measure (sset sm_changed false sm)) with (server_measure sm) in Hm1.
  eapply safe_mono; [apply IH; [done|lia]|]. intros [sm' c] (H1 & H2 & H3). split; [done|]. split; [done|].
  intros Hs. destruct (H3 Hs) as [H|(sm2 & Hstep & Hi2 & Hf2)]; [by apply Ho|]. right. exists sm2. split; [by eapply rtc_l|done].
Qed.

Lemma server_step_ok sm : inv sm ->
  safe (server_step eap_methods conf sm) (fun r => resting r.1 /\ sget sm_changed r.1 = false /\
    (eget eapSuccess r.1 = true -> eget eapSuccess sm = true \/ exists sm1, rtc machine_step sm sm1 /\ inv sm1 /\ success_from sm1)).
Proof.
  intros Hi. apply server_loop_ok; [done|]. pose proof (measure_range (eap_server conf) (pend_of sm) (view_of sm)).
  unfold server_measure, SERVER_ROUNDS. lia.
Qed.

(** *** What the callers write between two calls *)

Inductive input : eap_sm P -> eap_sm P -> Prop :=
| in_port i sm : input sm (set_if i sm)
| in_response d sm : (if d is Some d then bytes d else True) -> input sm (bset eapRespData d sm)
| in_aaa_flag f b sm : f ∈ [aaaEapReq; aaaEapNoReq; aaaSuccess; aaaFail; aaaEapKeyAvailable; aaaTimeout] -> input sm (sset f b sm)
| in_aaa_data f d sm : f ∈ [aaaEapReqData; aaaEapKeyData] -> input sm (bset f d sm)
| in_aaa_timeout n sm : input sm (nset aaaMethodTimeout n sm)
| in_erp_keys k sm : input sm (set_erp_keys k sm)
| in_clear_identity sm : input sm (eap_server_clear_identity sm)
| in_pending_cb sm : input sm (eap_sm_pending_cb sm)
| in_notify_cached sm : input sm (eap_sm_notify_cached sm).

Inductive reachable : eap_sm P -> Prop :=
| reach_init : reachable eap_server_sm_init
| reach_input sm sm' : reachable sm -> input sm sm' -> reachable sm'
| reach_step sm sm' c : reachable sm -> server_step eap_methods conf sm = Ok (sm', c) -> reachable sm'.

Lemma resting_ext sm sm' : resting sm -> EAP_state sm' = EAP_state sm -> base sm' ->
  m sm' = m sm -> eap_method_priv sm' = eap_method_priv sm -> nget currentMethod sm' = nget currentMethod sm ->
  decision sm' = decision sm -> nget num_rounds sm' = nget num_rounds sm -> resting sm'.
Proof.
  intros [[H1 H2 H3 H4] H5] Es Hb Em Ep Ec Ed En. split; [|by rewrite Es]. split; [done| |by rewrite En|by rewrite Es].
  rewrite Es. destruct (EAP_state sm); cbn in *; rewrite ?Em, ?Ec, ?Ed; try done.
  destruct (decision sm); cbn in *; try done. by rewrite Em, Ep, Ec.
Qed.

Lemma resting_input sm sm' : resting sm -> input sm sm' -> resting sm'.
Proof.
  intros Hr Hin. pose proof Hr as [[Hb _ Hn _] _]. pose proof (b_shared _ Hb) as Hs.
  destruct Hin as [i sm|d sm Hd|f b sm Hf|f d sm Hf|n sm|k sm|sm|sm|sm].
  - eapply (resting_ext sm); try done. by eapply base_ext.
  - eapply (resting_ext sm); try done. destruct Hb. by split.
  - eapply (resting_ext sm); try done. by eapply base_ext.
  - assert (bget eapRespData (bset f d sm) = bget eapRespData sm) as Hd
      by (rewrite !elem_of_cons in Hf; destruct Hf as [->|[-> |Hf]]; [done|done|by apply elem_of_nil in Hf]).
    eapply (resting_ext sm); try done. by eapply base_ext.
  - eapply (resting_ext sm); try done. by eapply base_ext.
  - eapply (resting_ext sm); try done. by eapply base_ext.
  - eapply (resting_ext sm); try done. apply base_shared; [done|by apply identity_step].
  - unfold eap_sm_pending_cb, in_pending, cond. case_bool_decide as Hw; [|done]. eapply (resting_ext sm); try done.
    destruct Hb as [B1 B2 B3 B4]. split; try done. left. destruct B4 as [?|B4]; [done|by rewrite B4 in Hw].
  - split; [|done]. split; [by eapply base_ext|done|exact Hn|done].
Qed.

Lemma resting_init : resting eap_server_sm_init.
Proof. split; [|done]. split; [split; try done|done|done|done]; by right. Qed.

Lemma reachable_resting sm : reachable sm -> resting sm.
Proof.
  induction 1 as [|sm sm' _ IH Hin|sm sm' c _ IH Hs]; [apply resting_init|by eapply resting_input|].
  pose proof (server_step_ok sm (proj1 IH)) as H. rewrite Hs in H. apply H.
Qed.

(** *** What the step guarantees *)

(** C28: the step of the EAP server returns, provided that the initialisation of
    the Identity method does not fail for want of memory ([methods_start]:
    otherwise the loop proposes it for ever) and that no re-authentication
    request is offered at the start ([env_erp_send_reauth_start] false:
    otherwise a method is used that was never set).  From every state the
    callers can then bring the machine to, [eap_server_sm_step] leaves its loop
    within [SERVER_ROUNDS] rounds, dereferences no missing method, reads no
    octet outside a message, and stops in a state that keeps the invariant. *)
Theorem server_step_total sm : reachable sm ->
  exists sm' c, server_step eap_methods conf sm = Ok (sm', c) /\ resting sm' /\ sget sm_changed sm' = false.
Proof.
  intros Hr. apply reachable_resting in Hr as [Hi _]. pose proof (server_step_ok sm Hi) as H.
  apply safe_exists in H as ([sm' c] & E & H1 & H2 & _). by exists sm', c.
Qed.

(** C29: success is never given away: when a call raises [eapSuccess], some state
    on its way was SELECT_ACTION with a method other than Identity that reports
    success, or AAA_IDLE with the RADIUS server's acceptance and no rejection, or
    held an EAP-Initiate/Re-auth message that the stored key authenticates. *)
Theorem server_success_justified sm sm' c : reachable sm -> server_step eap_methods conf sm = Ok (sm', c) ->
  eget eapSuccess sm = false -> eget eapSuccess sm' = true -> exists sm1, rtc machine_step sm sm1 /\ success_from sm1.
Proof.
  intros Hr E H0 H1. apply reachable_resting in Hr as [Hi _]. pose proof (server_step_ok sm Hi) as H. rewrite E in H.
  destruct H as (_ & _ & [H|(sm1 & Hs & _ & Hf)]%(fun H => H H1)); [congruence|]. by exists sm1.
Qed.
End Inv.

(** *** The Nak *)

(** the methods the server can still propose: from the index to the first empty entry *)
Fixpoint method_run (ms : list (Z * Z)) : list (Z * Z) :=
  match ms with [] => [] | e :: ms => if is_method e then e :: method_run ms else [] end.
Definition proposable (s : eap_shared) : list (Z * Z) :=
  match user s with Some u => method_run (drop (Z.to_nat (user_eap_method_index s)) (methods u)) | None => [] end.

Lemma method_run_app ms rest : Forall (fun e => is_method e = true) ms ->
  (if rest is e :: _ then is_method e = false else True) -> method_run (ms ++ rest) = ms.
Proof.
  intros Hms Hr. induction Hms as [|e ms He _ IH]; cbn.
  - destruct rest as [|e rest]; [done|]. cbn. by rewrite Hr.
  - by rewrite He, IH.
Qed.

(** A Nak takes away exactly what the peer refuses: the methods the server can
    propose afterwards are, in their order, those of before that the peer's list
    names (and that are IETF methods); the methods already used, the password and
    the size of the array are left alone. *)
Theorem nak_keeps_allowed l s u : user s = Some u -> shared_ok s ->
  exists u', eap_sm_process_nak l s = Ok (sh_user (Some u') s) /\ password u' = password u /\ zlen (methods u') = EAP_MAX_METHODS /\
    take (Z.to_nat (user_eap_method_index s)) (methods u') = take (Z.to_nat (user_eap_method_index s)) (methods u) /\
    proposable (sh_user (Some u') s) = filter (fun e => allowed l e = true) (proposable s).
Proof.
  intros Eu Hs. destruct (process_nak_spec l s u Eu Hs) as (pre & ms & rest & E & Hpre & Hms & Hr & H).
  apply safe_exists in H as (s' & Es & u' & -> & Hp & Em). exists u'. destruct Hs as [Hi Hu]. rewrite Eu in Hu.
  split; [done|]. split; [done|]. set (f := filter _ ms) in Em. pose proof (length_filter (fun e => allowed l e = true) ms) as Hf.
  split; [rewrite Em; rewrite E in Hu; unfold f, zlen in *; rewrite !length_app, length_replicate in *; lia|].
  unfold proposable. cbn [user sh_user user_eap_method_index]. rewrite Eu, Em, E.
  destruct (Z.le_gt_cases (user_eap_method_index s) EAP_MAX_METHODS).
  - rewrite Z.min_l in Hpre by done. replace (Z.to_nat _) with (length pre) by (rewrite <- Hpre; unfold zlen; lia).
    rewrite !take_app_length, !drop_app_length. split; [done|]. rewrite !method_run_app; try done.
    + apply Forall_forall. intros e [_ He]%list_elem_of_In%list_elem_of_filter. by eapply (proj1 (Forall_forall _ _) Hms), list_elem_of_In.
    + destruct rest; [|done]. by destruct (_ - _)%nat.
  - rewrite Z.min_r in Hpre by lia. rewrite E in Hu. assert (ms = [] /\ rest = []) as [-> ->].
    { rewrite !zlen_app in Hu. pose proof (zlen_nonneg ms). pose proof (zlen_nonneg rest).
      unfold zlen in *. split; apply nil_length_inv; lia. }
    unfold f. cbn [app filter list_filter length Nat.sub replicate]. rewrite !app_nil_r.
    rewrite drop_ge by (unfold zlen in *; lia). done.
Qed.
