(* ===== verification/EapConversation.v ===== *)
(** * The registered methods keep their promises

    That Identity, MD5 and GTC satisfy the laws the server's step relies on
    ([MethodLaws]), when an MD5 or a GTC exchange succeeds, and conversations
    run through the whole server. *)

From stdpp Require Import relations.
From S2P Require Import Prelude CText AesCtr EapolKey EapCommon EapolAuth Prf WpaSafe Erp EapServer EapMethods EapServerInv.

(** random octets come in the number asked for *)
Class EapRandom `{EapEnv} : Prop := {
  env_random n len c : env_random_bytes n len = Some c -> zlen c = len }.

(** ** A method over its own data *)

Lemma lift_laws {T P} (inj : T -> P) prj (x : eap_method T) (IT : T -> Prop) (IP : P -> Prop) acc (acc' : list Z -> Prop) :
  (forall d, prj (inj d) = Some d) -> (forall p, IP p <-> exists d, p = inj d /\ IT d) -> (forall msg, acc' msg <-> acc msg) ->
  method_laws False x IT acc -> method_laws False (lift inj prj x) IP acc'.
Proof.
  intros Hprj HI HA [H1 H2 H3 H4 H5 H6 H7 H8 H9 H10]. split; cbn [init initPickUp reset buildReq check process getKey getSessionId get_emsk lift].
  - intros s Hs. specialize (H1 s Hs). destruct (init x s) as [s' [d|]]; cbn; [|done]. destruct H1. split; [done|by apply HI; exists d].
  - intros f s. destruct (initPickUp x) as [g|] eqn:Eg; [|done]. intros [= <-] Hs. specialize (H2 g s eq_refl Hs).
    destruct (g s) as [s' [d|]]; cbn; [|done]. destruct H2. split; [done|by apply HI; exists d].
  - intros f msg. destruct (initPickUp x) as [g|] eqn:Eg; [|done]. intros _. apply HA. by eapply H3.
  - intros s p Hs (d & -> & Hd)%HI. rewrite Hprj. by apply H4.
  - intros s p id Hs (d & -> & Hd)%HI. rewrite Hprj. eapply safe_bind; [by apply H5|].
    intros [[s' d'] r] [Hs' Hd']. cbn in *. split; [done|by apply HI; exists d'].
  - intros chk s p msg. destruct (check x) as [g|] eqn:Eg; [|done]. intros [= <-] Hs (d & -> & Hd)%HI Hm Hv. rewrite Hprj.
    eapply safe_bind; [by eapply H6|]. intros [[s' d'] r] (Hs' & Hd' & Ha). cbn in *. split; [done|]. split; [by apply HI; exists d'|by rewrite HA].
  - intros msg. destruct (check x) as [g|] eqn:Eg; [done|]. intros _. by apply HA, H7.
  - intros s p msg Hs (d & -> & Hd)%HI Hm Hv Ha%HA. rewrite Hprj. eapply safe_bind; [by apply H8|].
    intros [s' d'] [Hs' Hd']. cbn in *. split; [done|by apply HI; exists d'].
  - intros f s p Hs (d & -> & Hd)%HI Hf.
    assert (forall (g : option (eap_shared -> T -> eap_shared * option (list Z))),
      (g = getKey x \/ g = getSessionId x \/ g = get_emsk x) ->
      match g with Some g => Some (fun s p => match prj p with Some d => g s d | None => (s, None) end) | None => None end = Some f ->
      shared_step False s (f s (inj d)).1) as Hall.
    { intros [g|] Hg; [|done]. intros [= <-]. rewrite Hprj. apply H9; [done..|]. destruct Hg as [?|[?|?]]; auto. }
    destruct Hf as [E|[E|E]]; (eapply Hall; [|exact E]); auto.
  - done.
Qed.

Section Laws.
Context {ENV : EapEnv} {EL : EapEnvLaws} {ER : EapRandom} {MD : Md5}.

Lemma malloc_still s : shared_still False s (os_malloc s).2.
Proof. split; [by left|done]. Qed.
Lemma still_trans s1 s2 s3 : shared_still False s1 s2 -> shared_still False s2 s3 -> shared_still False s1 s3.
Proof.
  intros (P1 & A1 & B1 & C1) (P2 & A2 & B2 & C2). split; [|by split_and!; etrans]. destruct P1 as [P1|[? _]]; [|done].
  destruct P2 as [P2|[? _]]; [|done]. left. congruence.
Qed.
Lemma same_step s s' : shared_ok s -> method_pending s' = method_pending s -> user s' = user s ->
  user_eap_method_index s' = user_eap_method_index s -> shared_step False s s'.
Proof. intros Hs Ep Eu Ei. split; [unfold shared_ok; by rewrite Eu, Ei|by left]. Qed.

Lemma eap_build_safe ok vendor type code id payload : safe (eap_build ok vendor type code id payload) (fun _ => True).
Proof. destruct ok; [by rewrite eap_build_ok|done]. Qed.

(** the message carries the method's type *)
Definition of_type (type : Z) (P : Z -> Prop) (msg : list Z) : Prop :=
  forall pos len, eap_hdr_validate EAP_VENDOR_IETF type (Some msg) = Ok (Some (pos, len)) -> P len.

Lemma validate_cases type msg : bytes msg -> exists r, eap_hdr_validate EAP_VENDOR_IETF type (Some msg) = Ok r /\ payload_in msg r.
Proof. intros Hm. pose proof (eap_hdr_validate_safe EAP_VENDOR_IETF type msg Hm) as H. apply safe_exists in H as (r & E & H & _). by exists r. Qed.

Lemma identity_laws : method_laws False eap_server_identity (fun _ => True) (fun _ => True).
Proof.
  split; cbn [init initPickUp reset buildReq check process getKey getSessionId get_emsk eap_server_identity].
  - intros s _. unfold eap_identity_init, os_malloc. by destruct (env_alloc _); (split; [apply (malloc_still s)|]).
  - intros f s [= <-] Hs. unfold eap_identity_initPickUp, eap_identity_init, os_malloc.
    by destruct (env_alloc _); (split; [by apply same_step|]).
  - done.
  - intros s p _ _. split; [by left|done].
  - intros s p id Hs _. unfold eap_identity_buildReq, os_malloc. eapply safe_bind; [apply eap_build_safe|].
    intros [req|] _; (split; [by apply same_step|done]).
  - intros chk s p msg [= <-] Hs _ Hm _. unfold eap_identity_check.
    destruct (validate_cases EAP_TYPE_IDENTITY msg Hm) as (r & -> & _). rewrite bind_ok. by split; [apply same_step|].
  - done.
  - intros s p msg Hs _ Hm _ _. unfold eap_identity_process, eap_identity_check.
    destruct (validate_cases EAP_TYPE_IDENTITY msg Hm) as (r & -> & Hr). rewrite !bind_ok.
    assert (shared_step False s s) as H0 by by apply same_step.
    apply (safe_bind (fun _ => True)); [by destruct (pick_up p)|]. intros [bad d] _. destruct bad; [done|]. rewrite bind_ok.
    destruct r as [[pos len]|]; [|done]. cbn in Hr. destruct Hr as (H1 & H2 & H3). unfold os_malloc. cbv zeta.
    set (s1 := if identity s is Some _ then _ else _).
    assert (method_pending s1 = method_pending s /\ user s1 = user s /\ user_eap_method_index s1 = user_eap_method_index s) as (E1 & E2 & E3)
      by (unfold s1; by destruct (identity s)).
    destruct (env_alloc _); [|by split; [apply same_step|]].
    eapply safe_bind; [apply (get_safe msg pos); [done|lia..]|]. intros i _. by split; [apply same_step|].
  - intros f s p _ _ [?|[?|?]]; done.
  - done.
Qed.

Lemma md5_laws : method_laws False eap_server_md5 (fun _ => True) (of_type EAP_TYPE_MD5 (fun len => 1 <= len)).
Proof.
  split; cbn [init initPickUp reset buildReq check process getKey getSessionId get_emsk eap_server_md5]; try done.
  - intros s _. unfold eap_md5_init, os_malloc. by destruct (env_alloc _); (split; [apply (malloc_still s)|]).
  - intros s p _ _. split; [by left|done].
  - intros s p id Hs _. unfold eap_md5_buildReq, os_malloc. cbv zeta.
    destruct (env_random_bytes _ _) as [c|] eqn:Ec; [|by split; [apply same_step|]]. apply env_random in Ec.
    destruct (env_alloc _); [|by split; [apply same_step|]]. rewrite eap_msg_alloc_ok, bind_ok by done.
    unfold wpabuf_put_u8. rewrite put_ok_app, bind_ok by done. rewrite put_ok_app, bind_ok; [by split; [apply same_step|]|].
    rewrite !zlen_app, Ec. done.
  - intros chk s p msg [= <-] Hs _ Hm _. unfold eap_md5_check.
    destruct (validate_cases EAP_TYPE_MD5 msg Hm) as (r & Er & Hr). rewrite Er, bind_ok. destruct r as [[pos len]|].
    + cbn in Hr. destruct Hr as (H1 & H2 & H3). destruct (Z.ltb_spec len 1); [by split; [apply same_step|]|].
      destruct (rd_in_range msg pos) as [l ->]; [lia|]. rewrite bind_ok. split; [by apply same_step|]. split; [done|].
      intros _ pos' len' E. rewrite E in Er. by injection Er as -> ->.
    + by split; [apply same_step|].
  - intros s p msg Hs _ Hm _ Ha. unfold eap_md5_process. destruct (plain_password s) as [pw|]; [|by split; [apply same_step|]].
    destruct (validate_cases EAP_TYPE_MD5 msg Hm) as (r & Er & Hr). rewrite Er, bind_ok.
    destruct r as [[pos len]|]; [|by split; [apply same_step|]]. specialize (Ha pos len Er). cbn in Ha, Hr. destruct Hr as (H1 & H2 & H3).
    destruct (rd_in_range msg pos) as [l ->]; [lia|]. rewrite bind_ok. unfold CHAP_MD5_LEN. destruct (negb _ || (len <? 1 + 16)) eqn:El; [by split; [apply same_step|]|].
    apply orb_false_iff in El as [_ El%Z.ltb_ge]. eapply safe_bind; [apply (get_safe msg (pos + 1)); [done|lia..]|]. intros resp _.
    destruct (chap_md5 _ _ _); by split; [apply same_step|].
  - by intros f s p _ _ [?|[?|?]].
Qed.

Lemma gtc_laws : method_laws False eap_server_gtc (fun _ => True) (fun _ => True).
Proof.
  split; cbn [init initPickUp reset buildReq check process getKey getSessionId get_emsk eap_server_gtc]; try done.
  - intros s _. unfold eap_gtc_init, os_malloc. by destruct (env_alloc _); (split; [apply (malloc_still s)|]).
  - intros s p _ _. split; [by left|done].
  - intros s p id Hs _. unfold eap_gtc_buildReq, os_malloc. eapply safe_bind; [apply eap_build_safe|].
    intros [req|] _; (split; [by apply same_step|done]).
  - intros chk s p msg [= <-] Hs _ Hm _. unfold eap_gtc_check.
    destruct (validate_cases EAP_TYPE_GTC msg Hm) as (r & -> & _). rewrite bind_ok. by split; [apply same_step|].
  - intros s p msg Hs _ Hm _ _. unfold eap_gtc_process. destruct (validate_cases EAP_TYPE_GTC msg Hm) as (r & -> & Hr). rewrite bind_ok.
    destruct r as [[pos len]|]; [|by split; [apply same_step|]]. cbn in Hr. destruct Hr as (H1 & H2 & H3).
    destruct (len <? 1); [by split; [apply same_step|]|]. destruct (plain_password s) as [pw|]; [|by split; [apply same_step|]].
    eapply safe_bind; [apply (get_safe msg pos); [done|lia..]|]. intros given _. by split; [apply same_step|].
  - by intros f s p _ _ [?|[?|?]].
Qed.

(** the method whose data it is *)
Definition type_of_data (p : priv_data) : Z :=
  match p with PIdentity _ => EAP_TYPE_IDENTITY | PMd5 _ => EAP_TYPE_MD5 | PGtc _ => EAP_TYPE_GTC end.

Lemma registered_ok x : x ∈ registered -> method_laws False x (fun p => method x = type_of_data p)
  (fun msg => method x = EAP_TYPE_MD5 -> of_type EAP_TYPE_MD5 (fun len => 1 <= len) msg).
Proof.
  intros Hx. unfold registered in Hx. rewrite !elem_of_cons in Hx. destruct Hx as [->|[-> |[-> |[]%elem_of_nil]]];
    (eapply lift_laws; [done| | |first [exact identity_laws|exact md5_laws|exact gtc_laws]]);
    first [intros p; split; [destruct p; intros E; first [discriminate E|by eexists]|by intros (d & -> & _)]
          |intros msg; split; [done|intros _ E; discriminate E]|intros msg; split; [intros H; exact (H eq_refl)|by intros H _]].
Qed.
#[export] Instance registered_laws : MethodLaws registered :=
  {| may_pend := False; minv := fun x p => method x = type_of_data p;
     accepts := fun x msg => method x = EAP_TYPE_MD5 -> of_type EAP_TYPE_MD5 (fun len => 1 <= len) msg;
     method_ok := registered_ok |}.

Lemma registered_start : (forall n, env_alloc n = true) -> methods_start registered.
Proof.
  intros Ha. split; [|done]. intros x s [= <-]. cbn. unfold eap_identity_init, os_malloc. by rewrite Ha.
Qed.

(** ** When a method succeeds *)

(** the length octet and the octets of the response, in an MD5 message *)
Definition md5_answer (msg response : list Z) : Prop :=
  exists pos len, eap_hdr_validate EAP_VENDOR_IETF EAP_TYPE_MD5 (Some msg) = Ok (Some (pos, len)) /\
    rd msg pos = Ok CHAP_MD5_LEN /\ 1 + CHAP_MD5_LEN <= len /\ get msg (pos + 1) CHAP_MD5_LEN = Ok response.

(** EAP-MD5 accepts exactly the peers that know the password: processing a
    response changes nothing but the verdict, and the verdict is success exactly
    when the user has a password in plain text, the message is an EAP-MD5 response
    with sixteen octets, and these are the digest of the message's identifier, the
    password and the challenge that was sent. *)
Theorem md5_success_iff s d msg : bytes msg -> md5_state d = CONTINUE ->
  of_type EAP_TYPE_MD5 (fun len => 1 <= len) msg ->
  exists r, eap_md5_process s d msg = Ok (s, mkMd5 (challenge d) r) /\
    (r = SUCCESS <-> exists pw response, plain_password s = Some pw /\ md5_answer msg response /\
      chap_md5 (eap_get_id msg) pw (challenge d) = Some response).
Proof.
  intros Hm Hd Ha. unfold eap_md5_process.
  destruct (plain_password s) as [pw|]; [|exists FAILURE; split; [done|split; [done|by intros (? & ? & [=] & _)]]].
  destruct (validate_cases EAP_TYPE_MD5 msg Hm) as (r & Er & Hr). rewrite Er, bind_ok. destruct r as [[pos len]|].
  2: { exists CONTINUE. split; [by destruct d; cbn in *; subst|]. split; [done|]. intros (? & ? & _ & (? & ? & E & _) & _). congruence. }
  specialize (Ha pos len Er). cbn in Ha, Hr. destruct Hr as (H1 & H2 & H3).
  destruct (rd_in_range msg pos) as [l El]; [lia|]. rewrite El, bind_ok. destruct (negb _ || _) eqn:Eg.
  { exists CONTINUE. split; [by destruct d; cbn in *; subst|]. split; [done|]. intros (? & ? & _ & (p' & l' & E & E2 & Hl & _) & _).
    rewrite Er in E. injection E as <- <-. rewrite El in E2. injection E2 as ->. rewrite Z.eqb_refl in Eg. cbn [negb orb] in Eg. lia. }
  apply orb_false_iff in Eg as [Ec%negb_false_iff%Z.eqb_eq Eg%Z.ltb_ge]. subst l.
  pose proof (get_safe msg (pos + 1) CHAP_MD5_LEN Hm) as Hg. unfold CHAP_MD5_LEN in *. 
  apply safe_exists in Hg as (resp & Eresp & _); [|lia..]. rewrite Eresp, bind_ok.
  assert (forall hash, (exists pw' response, Some pw = Some pw' /\ md5_answer msg response /\
      chap_md5 (eap_get_id msg) pw' (challenge d) = Some response) -> chap_md5 (eap_get_id msg) pw (challenge d) = hash -> hash = Some resp) as Hto.
  { intros hash (pw' & response & [= <-] & (p' & l' & E & _ & _ & E4) & Eh) <-. rewrite Er in E. injection E as <- <-. unfold CHAP_MD5_LEN in E4. congruence. }
  destruct (chap_md5 (eap_get_id msg) pw (challenge d)) as [hash|] eqn:Eh.
  - eexists. split; [reflexivity|]. case_bool_decide as Eq.
    + split; [intros _|done]. exists pw, resp. subst hash. split; [done|]. split; [by exists pos, len|done].
    + split; [done|]. intros H. specialize (Hto _ H eq_refl). congruence.
  - exists FAILURE. split; [done|]. split; [done|]. intros H. by specialize (Hto _ H eq_refl).
Qed.
End Laws.

(** ** A conversation *)

(** a database with one user, and an environment that never fails *)
Definition sample_user : eap_user :=
  mkUser ((EAP_VENDOR_IETF, EAP_TYPE_MD5) :: (EAP_VENDOR_IETF, EAP_TYPE_GTC) :: replicate 6 (EAP_VENDOR_IETF, EAP_TYPE_NONE))
    (Some (str "secret")) false false false.
#[export] Instance sample_env : EapEnv := {
  env_alloc _ := true;
  env_rand n := Z.of_nat n;
  env_random_bytes n len := if 0 <=? len then Some (replicate (Z.to_nat len) (Z.of_nat n)) else None;
  env_get_eap_user _ id _ := if bool_decide (id = str "bob") then Some sample_user else None;
  env_eap_req_id_text := str "hello";
  env_erp_send_reauth_start := false;
  env_erp_domain := None }.
#[export] Instance sample_env_laws : EapEnvLaws.
Proof. split. intros n id ph u. cbn. case_bool_decide; [|done]. by intros [= <-]. Qed.
#[export] Instance sample_env_random : EapRandom.
Proof. split. intros n len c. cbn. destruct (Z.leb_spec 0 len); [|done]. intros [= <-]. unfold zlen. rewrite length_replicate. lia. Qed.

Definition sample_conf : eap_config := mkEapConf true true false.

(** the port hands a message over; the server's step, when it returns *)
Definition receives (msg : list Z) (sm : eap_sm priv_data) : eap_sm priv_data :=
  sm |> bset eapRespData (Some msg) |> eset eapResp true |> eset eapReq false.
Definition run (sm : eap_sm priv_data) : eap_sm priv_data :=
  match server_step registered sample_conf sm with Ok (sm, _) => sm | Err _ => sm end.

Abbreviation reached := (reachable registered sample_conf).

Lemma sample_start : methods_start registered.
Proof. by apply registered_start. Qed.
Lemma sample_no_start : env_erp_send_reauth_start (EapEnv := sample_env) = false.
Proof. done. Qed.

Lemma run_ok sm : reached sm -> exists c, server_step registered sample_conf sm = Ok (run sm, c).
Proof.
  intros Hr. unfold run. apply (reachable_resting _ _ sample_start sample_no_start) in Hr as [Hi _].
  pose proof (server_step_ok _ _ sample_start sample_no_start sm Hi) as H. apply safe_exists in H as ([sm' c] & -> & _). by exists c.
Qed.
Lemma reached_run sm : reached sm -> reached (run sm).
Proof. intros H. destruct (run_ok sm H) as [c E]. by eapply reach_step. Qed.
Lemma reached_receives msg sm : bytes msg -> reached sm -> reached (receives msg sm).
Proof.
  intros Hm H. unfold receives. do 2 (eapply reach_input; [|apply in_port]). eapply reach_input; [exact H|by apply in_response].
Qed.

Definition associated : eap_sm priv_data := run (eset portEnabled true eap_server_sm_init).
Definition identified : eap_sm priv_data :=
  run (receives (eap_message EAP_VENDOR_IETF EAP_TYPE_IDENTITY EAP_CODE_RESPONSE (nget currentId associated) (str "bob")) associated).
(** the challenge, as the peer reads it from the request *)
Definition sent_challenge : list Z := match eapReqData (eap_if_of identified) with Some req => drop 6 req | None => [] end.
Definition answer : list Z :=
  eap_message EAP_VENDOR_IETF EAP_TYPE_MD5 EAP_CODE_RESPONSE (nget currentId identified)
    (CHAP_MD5_LEN :: default [] (chap_md5 (nget currentId identified) (str "secret") sent_challenge)).
Definition answered : eap_sm priv_data := receives answer identified.

Lemma bytes_dec (l : list Z) : forallb (fun b => (0 <=? b) && (b <? 256)) l = true -> bytes l.
Proof.
  intros H. apply Forall_forall. intros b Hb. rewrite forallb_forall in H. specialize (H b Hb). unfold is_byte. lia.
Qed.

Lemma reached_answered : reached answered.
Proof.
  apply reached_receives; [by apply bytes_dec; vm_compute|]. apply reached_run, reached_receives; [by apply bytes_dec; vm_compute|].
  apply reached_run. eapply reach_input; [apply reach_init|apply in_port].
Qed.

Lemma server_step_total_witness : reached answered /\ exists sm' c, server_step registered sample_conf answered = Ok (sm', c).
Proof.
  split; [exact reached_answered|].
  destruct (server_step_total registered sample_conf sample_start sample_no_start answered reached_answered) as (sm' & c & E & _).
  exists sm', c. exact E.
Defined.

Lemma server_success_justified_witness : exists sm1 : eap_sm priv_data,
  rtc (machine_step registered sample_conf) answered sm1 /\ success_from sm1.
Proof.
  destruct (run_ok answered reached_answered) as [c E].
  apply (server_success_justified registered sample_conf sample_start sample_no_start answered (run answered) c reached_answered E);
    [vm_compute; reflexivity|vm_compute; reflexivity].
Defined.

Lemma nak_keeps_allowed_witness :
  exists u', eap_sm_process_nak [EAP_TYPE_GTC] (mkShared None (Some sample_user) 0 false METHOD_PENDING_NONE false 0) =
    Ok (sh_user (Some u') (mkShared None (Some sample_user) 0 false METHOD_PENDING_NONE false 0)) /\
    proposable (sh_user (Some u') (mkShared None (Some sample_user) 0 false METHOD_PENDING_NONE false 0)) =
      [(EAP_VENDOR_IETF, EAP_TYPE_GTC)].
Proof.
  destruct (nak_keeps_allowed [EAP_TYPE_GTC] (mkShared None (Some sample_user) 0 false METHOD_PENDING_NONE false 0) sample_user)
    as (u' & E & _ & _ & _ & Hp); [reflexivity|split; [done|reflexivity]|].
  exists u'. split; [exact E|exact Hp].
Defined.

Definition short_answer : list Z :=
  eap_message EAP_VENDOR_IETF EAP_TYPE_MD5 EAP_CODE_RESPONSE 9
    (CHAP_MD5_LEN :: default [] (chap_md5 9 (str "secret") (replicate 16 5))).
Lemma md5_success_iff_witness :
  exists r, eap_md5_process (mkShared None (Some sample_user) 1 false METHOD_PENDING_NONE false 0) (mkMd5 (replicate 16 5) CONTINUE) short_answer =
    Ok (mkShared None (Some sample_user) 1 false METHOD_PENDING_NONE false 0, mkMd5 (replicate 16 5) r) /\ r = SUCCESS.
Proof.
  destruct (md5_success_iff (mkShared None (Some sample_user) 1 false METHOD_PENDING_NONE false 0) (mkMd5 (replicate 16 5) CONTINUE) short_answer)
    as (r & E & H); [by apply bytes_dec; vm_compute|reflexivity| |].
  - intros pos len E. vm_compute in E. injection E as <- <-. done.
  - cbn [challenge] in E, H. exists r. split; [exact E|]. apply H. eexists _, _. split; [reflexivity|]. split; [|vm_compute; reflexivity].
    exists 5, 17. split; [vm_compute; reflexivity|]. split; [vm_compute; reflexivity|]. split; [done|vm_compute; reflexivity].
Defined.
