(* ===== verification/WpaInv.v ===== *)
(** * The WPA authenticator: the invariant of a station and one step of its machines

    What holds of a station between two steps ([inv]) and when its machines
    have come to rest ([quiet]), and that one step of either machine never
    fails, keeps the invariant, and brings the machines nearer to rest
    ([rank]).  The invariant has the security of the handshake: every pairwise
    key handed to the driver was verified by a frame of the station. *)

From stdpp Require Import functions sets.
From S2P Require Import Prelude BlockCipher CText HexText AesWrap AesCtr AesOmac AesEax AesCcm EapolKey Prf WpaState WpaPtk WpaSafe.

(** ** Changes that the invariant does not see *)

Definition harmless (o : output) : bool := match o with SetPairwiseKey _ _ _ | ReceivedEapol _ => false | _ => true end.

Definition relevant (f : wflag) : bool :=
  match f with
  | pending_1_of_4_timeout | Pair | pairwise_set | has_GTK | started | mgmt_frame_prot | rx_eapol_key_secure | alt_snonce_valid
  | is_wnmsleep | req_replay_counter_used | keyRun | keyAvailable => false
  | _ => true
  end.

Definition relevant_num (n : wnum) : bool := match n with GTimeoutCtr | wpa_key_mgmt | wpa => true | _ => false end.

Definition replay_ok (l : list key_replay_counter) : Prop := length l = 4%nat /\ Forall (fun c => arr 8 (rc_counter c)) l.

(** [y] is [x] after such changes *)
Record same (x y : station) : Prop := {
  same_flag f : relevant f = true -> flag_of y f = flag_of x f;
  same_num n : relevant_num n = true -> num_of y n = num_of x n;
  same_ANonce : str_of y ANonce = str_of x ANonce;
  same_PTK : PTK y = PTK x;
  same_replay : replay_ok (key_replay x) -> replay_ok (key_replay y);
  same_rx : last_rx_eapol_key y = last_rx_eapol_key x;
  same_ptk_state : wpa_ptk_state y = wpa_ptk_state x;
  same_group_state : wpa_ptk_group_state y = wpa_ptk_group_state x;
  same_assoc : assoc y = assoc x;
  same_log : exists l, slog y = l ++ slog x /\ forallb harmless l = true }.

Lemma same_refl x : same x x.
Proof. split; try done. by exists []. Qed.

Lemma same_trans x y z : same x y -> same y z -> same x z.
Proof.
  intros H1 H2. destruct (same_log _ _ H1) as (l1 & E1 & F1), (same_log _ _ H2) as (l2 & E2 & F2). split; intros.
  - by rewrite (same_flag _ _ H2), (same_flag _ _ H1).
  - by rewrite (same_num _ _ H2), (same_num _ _ H1).
  - by rewrite (same_ANonce _ _ H2), (same_ANonce _ _ H1).
  - by rewrite (same_PTK _ _ H2), (same_PTK _ _ H1).
  - by apply (same_replay _ _ H2), (same_replay _ _ H1).
  - by rewrite (same_rx _ _ H2), (same_rx _ _ H1).
  - by rewrite (same_ptk_state _ _ H2), (same_ptk_state _ _ H1).
  - by rewrite (same_group_state _ _ H2), (same_group_state _ _ H1).
  - by rewrite (same_assoc _ _ H2), (same_assoc _ _ H1).
  - exists (l2 ++ l1). by rewrite E2, E1, <- app_assoc, forallb_app, F1, F2.
Qed.

Lemma same_setf f b x : relevant f = false -> same x (sta_setf f b x).
Proof.
  intros Hf. split; try done; cbn; [|by exists []]. intros g Hg. by rewrite fn_lookup_insert_ne by congruence.
Qed.

Lemma same_setn n v x : relevant_num n = false -> same x (sta_setn n v x).
Proof.
  intros Hf. split; try done; cbn; [|by exists []]. intros g Hg. by rewrite fn_lookup_insert_ne by congruence.
Qed.

Lemma same_sets y v x : y <> ANonce -> same x (sta_sets y v x).
Proof. intros Hf. split; try done; cbn; [|by exists []]. by rewrite fn_lookup_insert_ne by congruence. Qed.

Lemma same_emit o x : harmless o = true -> same x (sta_emit o x).
Proof. intros Ho. split; try done. exists [o]. cbn. by rewrite Ho. Qed.

Lemma same_set_replay k x : replay_ok k -> same x (sta_set_key_replay k x).
Proof. intros Hk. split; try done. by exists []. Qed.

Lemma same_set_prev k x : same x (sta_set_prev_key_replay k x).
Proof. split; try done. by exists []. Qed.

(** the shared part but for the clock and the log *)
Definition ticks (s s' : st) : Prop :=
  sta s' = sta s /\ gflag_of (sh s') = gflag_of (sh s) /\ gnum_of (sh s') = gnum_of (sh s) /\ gstr_of (sh s') = gstr_of (sh s) /\
  GTK (sh s') = GTK (sh s) /\ IGTK (sh s') = IGTK (sh s) /\ wpa_group_state (sh s') = wpa_group_state (sh s).

Lemma ticks_refl s : ticks s s.
Proof. done. Qed.

Lemma ticks_trans a b c : ticks a b -> ticks b c -> ticks a c.
Proof. unfold ticks. intros (-> & -> & -> & -> & -> & -> & ->). done. Qed.

Lemma ticks_gtick s : ticks s (with_sh gtick s).
Proof. done. Qed.

Lemma ticks_keeps s s' : sh_ok (sh s) -> ticks s s' -> keeps (sh s) (sh s').
Proof.
  intros [[HC HN HG HI Hl] Hi] (_ & E1 & E2 & E3 & E4 & E5 & E6). split; [split; [split|]|].
  all: rewrite ?E1, ?E2, ?E3, ?E4, ?E5; try done. split; [done|]. by rewrite E1.
Qed.

(** sending, and whatever else the invariant does not see *)
Definition sends (s s' : st) : Prop := same (sta s) (sta s') /\ keeps (sh s) (sh s').

Lemma sends_trans a b c : sends a b -> sends b c -> sends a c.
Proof.
  intros [H1 [H2 H3]] [H4 [H5 H6]]. split; [by eapply same_trans|]. split; [done|by eapply same_group_trans].
Qed.

Lemma sends_ticks s s' : sh_ok (sh s) -> ticks s s' -> sends s s'.
Proof. intros Hs Ht. split; [|by apply ticks_keeps]. destruct Ht as [-> _]. apply same_refl. Qed.

Lemma sends_refl s : sh_ok (sh s) -> sends s s.
Proof. intros. by apply sends_ticks. Qed.

Lemma sends_with f s s' : (forall x, same x (f x)) -> sends s s' -> sends s (with_sta f s').
Proof. intros Hf [H1 H2]. split; [|done]. by eapply same_trans. Qed.

Lemma sends_tick s s' : sends s s' -> sends s (with_sh gtick s').
Proof. intros [H1 H2]. split; [done|]. by apply keeps_tick. Qed.

(** a chain of such changes *)
Ltac sent :=
  unfold set_eapol, setf, setn, sets, emit, set_key_replay, set_prev_key_replay;
  repeat first [assumption | apply sends_tick | apply sends_with; [intros; first [by apply same_setf | by apply same_setn
    | by apply same_sets | by apply same_emit | by apply same_set_prev | by apply same_set_replay]|]].

Section Sending.
Context {ctx : Type} {BC : BlockCipher ctx} {BCL : BlockCipherLaws ctx} {DG : Digests} {DL : DigestsLaws} {DT : DigestsTotal}
  {ENV : WpaEnv} {EL : EnvLaws} (conf : wpa_auth_config) (CO : conf_ok conf).
Implicit Types s : st.

Lemma next_replay_safe k : replay_ok k -> safe (next_replay_counter k) (fun k' => replay_ok k' /\ exists c k'', k' = c :: k'').
Proof.
  intros [Hl HF]. destruct k as [|c k]; [done|]. pose proof (Forall_inv HF) as Hc. unfold next_replay_counter.
  replace (rd (c :: k) 0) with (Ok c) by done. rewrite bind_ok. safe_to (arr 8); [by apply inc_safe|]. intros c' Hc'. unfold safe.
  split; [|by eexists _, _]. split; [cbn [length]; rewrite length_take; lia|]. apply Forall_cons_2; [done|]. by apply Forall_take.
Qed.

Lemma send_safe_raw key_info key_rsc nonce kde keyidx encr s :
  sh_ok (sh s) -> replay_ok (key_replay (sta s)) -> wpa_mic_len (val wpa_key_mgmt s) = 16 ->
  (isset PTK_valid s = true -> ptk_ok (PTK (sta s))) ->
  opt_arr 32 nonce -> opt_arr 8 key_rsc -> (forall k, kde = Some k -> bytes k /\ zlen k < 2 ^ 16) -> (kde = None -> encr = false) ->
  safe (__wpa_send_eapol conf key_info key_rsc nonce kde keyidx encr 0 s) (sends s).
Proof.
  intros Hsh Hrp Hml HP Hn Hr Hk He. unfold __wpa_send_eapol. destruct (negb _); [cbn; by apply sends_tick, sends_refl|].
  eapply safe_bind; [by apply next_replay_safe|]. intros ctr [Hctr (c & ctr' & ->)].
  replace (rd (c :: ctr') 0) with (Ok c) by done. rewrite bind_ok.
  eapply safe_bind.
  - apply frame_safe; try done; [by destruct CO|destruct Hctr as [_ HF]; exact (Forall_inv HF)|apply Hsh].
  - intros [f C'] HC'. cbn [snd] in HC'.
    assert (sends s (with_sh (gsets Counter C') (set_key_replay (c :: ctr') (with_sh gtick s)))) as Hs.
    { split; [by apply same_set_replay|]. destruct Hsh as [[HC HN HG HI Hl] Hi]. split; [|done]. split; [split; mem; done|done]. }
    cbn [snd]. destruct f; cbn; sent.
Qed.

Lemma send_safe key_info key_rsc nonce kde keyidx encr s :
  sh_ok (sh s) -> replay_ok (key_replay (sta s)) -> wpa_mic_len (val wpa_key_mgmt s) = 16 ->
  (isset PTK_valid s = true -> ptk_ok (PTK (sta s))) ->
  opt_arr 32 nonce -> opt_arr 8 key_rsc -> (forall k, kde = Some k -> bytes k /\ zlen k < 2 ^ 16) -> (kde = None -> encr = false) ->
  safe (wpa_send_eapol conf key_info key_rsc nonce kde keyidx encr s) (sends s).
Proof.
  intros. unfold wpa_send_eapol. safe_to (sends s); [by apply send_safe_raw|]. intros s' Hs. cbn. unfold when.
  destruct (_ && _ && _); sent.
Qed.

(** *** The Key Data of the messages *)

Lemma wr_arr n l i x : arr n l -> is_byte x -> 0 <= i < n -> safe (wr l i x) (arr n).
Proof. intros [<- Hb] Hx Hi. rewrite wr_ok by done. split; [by rewrite zlen_insert|by apply Forall_insert]. Qed.

Lemma blit_arr n l off y : arr n l -> bytes y -> 0 <= off -> off + zlen y <= n -> safe (blit l off y) (arr n).
Proof. intros [<- Hb]. by apply blit_safe. Qed.

Lemma add_kde_safe buf pos id data data2 :
  bytes buf -> bytes data -> (forall d, data2 = Some d -> bytes d) -> 0 <= pos ->
  pos + 6 + zlen data + match data2 with Some d => zlen d | None => 0 end <= zlen buf ->
  safe (wpa_add_kde buf pos id data data2) (fun r => arr (zlen buf) r.1 /\
    r.2 = pos + 6 + zlen data + match data2 with Some d => zlen d | None => 0 end).
Proof.
  intros Hb Hd Hd2 H0 H1. pose proof (zlen_nonneg data). unfold wpa_add_kde, RSN_SELECTOR_LEN.
  remember (match data2 with Some d => zlen d | None => 0 end) as n2 eqn:En2.
  assert (0 <= n2) by (rewrite En2; destruct data2; [apply zlen_nonneg|done]).
  assert (zlen (to_be 4 id) = 4) as L4 by (unfold zlen; by rewrite length_to_be).
  safe_to (arr (zlen buf)); [apply wr_arr; [done|done|lia]|intros b1 Hb1].
  safe_to (arr (zlen buf)); [apply wr_arr; [done|apply is_byte_u8|lia]|intros b2 Hb2].
  safe_to (arr (zlen buf)); [apply blit_arr; [done|apply to_be_bytes|lia|rewrite L4; lia]|intros b3 Hb3].
  safe_to (arr (zlen buf)); [apply blit_arr; [done|done|lia|lia]|intros b4 Hb4].
  destruct data2 as [d|]; [|cbn; split; [done|lia]].
  safe_to (arr (zlen buf)); [apply blit_arr; [done|by apply Hd2|lia|lia]|intros b5 Hb5]. cbn. split; [done|lia].
Qed.

Lemma pmkid_kde_safe s : (forall pmk id, pmksa (assoc (sta s)) = Some (pmk, id) -> arr 16 id) ->
  safe (pmkid_kde conf s) (fun r => forall k, r = Some k -> bytes k /\ zlen k < 2 ^ 16).
Proof.
  intros Hid. set (pre := [221; RSN_SELECTOR_LEN + PMKID_LEN] ++ to_be 4 RSN_KEY_DATA_PMKID).
  assert (forall id, arr 16 id -> forall k, Some (pre ++ id) = Some k -> bytes k /\ zlen k < 2 ^ 16) as Hkde.
  { assert (bytes pre /\ zlen pre = 6) as [Hb Hl] by (split; [apply (bool_decide_unpack _); by vm_compute|done]). clearbody pre.
    intros id [Hil Hib] k [= <-]. split; [by apply Forall_app_2|]. rewrite zlen_app. lia. }
  unfold pmkid_kde. destruct (_ && _ && _); [|done]. destruct (pmksa _) as [[pmk id]|] eqn:E; [exact (Hkde id (Hid pmk id eq_refl))|].
  destruct (wpa_key_mgmt_suite_b _); [done|]. safe_to (arr 16); [apply rsn_pmkid_safe|]. intros id Hid'. exact (Hkde id Hid').
Qed.

Lemma igtk_len_range : 0 <= igtk_len conf <= 32.
Proof. apply cipher_len. Qed.

Lemma ieee80211w_safe s buf pos : sh_ok (sh s) -> bytes buf -> 0 <= pos -> pos + ieee80211w_kde_len conf s <= zlen buf ->
  safe (ieee80211w_kde_add conf s buf pos) (fun r =>
    arr (zlen buf) r.1.1 /\ pos <= r.1.2 <= pos + ieee80211w_kde_len conf s /\ ticks s r.2).
Proof.
  intros Hsh Hb H0 H1. unfold ieee80211w_kde_add. unfold ieee80211w_kde_len in *. destruct (isset mgmt_frame_prot s); cbn [negb].
  2: { cbn. split; [done|]. split; [lia|apply ticks_refl]. }
  pose proof igtk_len_range as Hil. destruct Hsh as [[HC HN HG [HI1 HI2] Hl] (G1 & G2 & G3 & G4)].
  safe_to (fun r : list Z * st => arr 6 r.1 /\ ticks s r.2).
  { assert (arr 6 (replicate 6 0)) by (by apply (arr_replicate 6)). destruct (bool_decide _); cbn [negb]; [|done].
    destruct (wpa_auth_get_seqnum _ _) as [rsc|] eqn:E; [|done]. apply seqnum_arr in E as [L B].
    safe_to (arr 6); [apply get_safe; [done|lia..]|]. by intros pn Hpn. }
  intros [pn s1] [[Lp Bp] Ht]. cbn [fst snd] in *.
  safe_to (arr 32); [apply rd_safe; [done|rewrite HI1; unfold gval; lia]|intros k [Lk Bk]].
  safe_to (arr (igtk_len conf)); [apply get_safe; [done|lia..]|intros k1 [Lk1 Bk1]].
  set (t := if conf_disable_gtk conf then _ else _).
  assert (exists r k2 s2, t = (r, k2, s2) /\ arr (igtk_len conf) k2 /\ ticks s1 s2) as (r & k2 & s2 & -> & [L2 B2] & Ht2).
  { unfold t. destruct (conf_disable_gtk conf); [|by exists 0, k1, s1].
    pose proof (random_arr (tick (sh s1)) (igtk_len conf)) as Hr. destruct (random_get_bytes _ _) as [r rnd].
    exists r, rnd, (with_sh gtick s1). split; [done|]. split; [apply Hr; lia|apply ticks_gtick]. }
  pose proof (ticks_trans _ _ _ Ht Ht2) as Ht3. unfold RSN_SELECTOR_LEN, WPA_IGTK_KDE_PREFIX_LEN in *.
  destruct (r <? 0); [cbn; split; [done|]; split; [lia|done]|].
  assert (zlen ([u8 (gval GN_igtk (sh s)); 0] ++ pn ++ k2) = 8 + igtk_len conf) as Ld by (rewrite !zlen_app, Lp, L2; cbn; unfold zlen; cbn; lia).
  eapply safe_bind.
  - apply add_kde_safe; [done| |done|done|rewrite Ld; lia]. apply Forall_app_2; [|by apply Forall_app_2].
    apply Forall_cons_2; [apply is_byte_u8|]. apply Forall_cons_2; [done|constructor].
  - intros [b p] [Hb' Hp]. rewrite Ld in Hp. cbn in *. split; [done|]. split; [lia|done].
Qed.

Lemma gtk_for_safe s : sh_ok (sh s) ->
  safe (gtk_for conf s) (fun r => (forall g, r.1 = Some g -> arr (gval GTK_len (sh s)) g) /\ ticks s r.2).
Proof.
  intros [[HC HN [HG1 HG2] HI Hl] (G1 & G2 & G3 & G4)]. unfold gtk_for. destruct (conf_disable_gtk conf).
  - pose proof (random_arr (tick (sh s)) (gval GTK_len (sh s))) as Hr. destruct (random_get_bytes _ _) as [r rnd]. cbn.
    split; [|done]. destruct (r <? 0); [done|]. intros g [= <-]. apply Hr. unfold gval. lia.
  - safe_to (arr 32); [apply rd_safe; [done|rewrite HG1; unfold gval; lia]|intros k [Lk Bk]].
    safe_to (arr (gval GTK_len (sh s))); [apply get_safe; unfold gval; [done|lia..]|]. intros g Hg. cbn. split; [|done]. by intros ? [= <-].
Qed.

Lemma group_rsc_ok s : exists rsc, group_rsc s = (rsc, with_sh gtick s) /\ arr 8 rsc.
Proof.
  unfold group_rsc. destruct (wpa_auth_get_seqnum _ _) as [rsc|] eqn:E; eexists; (split; [done|]); [by apply seqnum_arr in E|].
  by apply (arr_replicate 8).
Qed.

Lemma element_get id body rest : safe (get (element id body ++ rest) 0 (zlen body + 2)) (fun e => e = element id body).
Proof. rewrite get_head; [done|]. unfold element, zlen. cbn. lia. Qed.

Lemma drop_element id body rest n : n = Z.to_nat (zlen body + 2) -> drop n (element id body ++ rest) = rest.
Proof. intros ->. rewrite drop_app_length'; [done|]. unfold element, zlen. cbn. lia. Qed.

Lemma ie_for_safe s : safe (ie_for conf s) (fun ie => bytes ie /\ zlen ie <= 128).
Proof.
  destruct CO as [_ (id & body & rest & E & Hrest) Hb Hl]. unfold ie_for. destruct (_ && _); [|done].
  rewrite E in *. replace (rd (element id body ++ rest) 1) with (Ok (zlen body)) by done.
  replace (rd (element id body ++ rest) 0) with (Ok id) by done. rewrite !bind_ok.
  destruct ((zlen body + 2 <? zlen (element id body ++ rest)) && (id =? WLAN_EID_RSN)) eqn:Ec; [|done].
  rewrite drop_element by done. destruct Hrest as [->|(id' & body' & -> & Hid)].
  { apply andb_true_iff in Ec as [Ec _]. rewrite app_nil_r in Ec. unfold element, zlen in Ec. cbn in Ec. lia. }
  replace (rd (element id' body') 0) with (Ok id') by done. replace (rd (element id' body') 1) with (Ok (zlen body')) by done.
  rewrite !bind_ok. replace (id' =? WLAN_EID_MOBILITY_DOMAIN) with false by lia.
  replace (rd (element id' body') 1) with (Ok (zlen body')) by done. rewrite bind_ok.
  eapply safe_mono; [rewrite <- (app_nil_r (element id' body')); apply element_get|]. intros e ->.
  apply Forall_app in Hb as [_ Hb]. split; [done|]. rewrite zlen_app in Hl. pose proof (zlen_nonneg (element id body)). lia.
Qed.

Lemma message3_safe ie gtk keyidx s : sh_ok (sh s) -> bytes ie -> zlen ie <= 128 ->
  (forall g, gtk = Some g -> bytes g /\ zlen g <= 32) ->
  safe (message3_kde conf ie gtk keyidx s) (fun r => (forall k, r.1 = Some k -> bytes k /\ zlen k < 2 ^ 16) /\ ticks s r.2).
Proof.
  intros Hsh Hie Hil Hg. pose proof (zlen_nonneg ie). pose proof igtk_len_range as Hig. unfold message3_kde, RSN_SELECTOR_LEN.
  set (g6 := match gtk with Some g => 2 + 4 + 2 + zlen g | None => 0 end). set (n := zlen ie + ieee80211w_kde_len conf s + g6).
  assert (0 <= g6 <= 40) as H6.
  { unfold g6. destruct gtk as [g|]; [|lia]. destruct (Hg g eq_refl). pose proof (zlen_nonneg g). lia. }
  assert (0 <= ieee80211w_kde_len conf s <= 46) as Hw.
  { unfold ieee80211w_kde_len, RSN_SELECTOR_LEN, WPA_IGTK_KDE_PREFIX_LEN. destruct (isset _ _); lia. }
  assert (n = zlen ie + ieee80211w_kde_len conf s + g6) as En by done. clearbody n.
  destruct (negb _); [cbn; by split|].
  assert (zlen (replicate (Z.to_nat n) 0) = n) as Ln by (apply length_repl; lia).
  safe_to (arr n); [apply blit_arr; [split; [done|apply repl_Z]|done|lia|lia]|intros b [Lb Bb]].
  safe_to (fun r : list Z * Z => arr n r.1 /\ r.2 = zlen ie + g6).
  { unfold g6. destruct gtk as [g|]; [|cbn; split; [done|lia]]. destruct (Hg g eq_refl) as [Hgb Hgl].
    eapply safe_mono; [apply add_kde_safe; [done| |by intros ? [= <-]|lia|]|].
    - apply Forall_cons_2; [|by repeat constructor]. unfold is_byte. rewrite (Z.land_ones _ 2) by done.
      pose proof (Z.mod_pos_bound keyidx (2 ^ 2)). lia.
    - change (zlen [Z.land keyidx 3; 0]) with 2. unfold g6 in En. lia.
    - intros [b' p] [Hb' Hp]. change (zlen [Z.land keyidx 3; 0]) with 2 in Hp. cbn in *. rewrite Lb in Hb'. split; [done|lia]. }
  intros [b' p] [[Lb' Bb'] Hp0]. cbn [fst snd] in *. subst p.
  eapply safe_bind; [apply (ieee80211w_safe (with_sh gtick s)); [apply (keeps_tick _ _ (keeps_refl _ Hsh))|done|lia|]|].
  - change (ieee80211w_kde_len conf (with_sh gtick s)) with (ieee80211w_kde_len conf s). lia.
  - change (ieee80211w_kde_len conf (with_sh gtick s)) with (ieee80211w_kde_len conf s).
    intros [[b2 p2] s2] ([L2 B2] & Hp & Ht). cbn [fst snd] in *.
    safe_to (arr p2); [apply get_safe; [done|lia..]|intros k [Lk Bk]]. cbn. split.
    + intros ? [= <-]. split; [done|lia].
    + exact Ht.
Qed.

Lemma group_kde_safe g s : sh_ok (sh s) -> arr (gval GTK_len (sh s)) g ->
  safe (group_kde conf g s) (fun r => (forall k, r.1 = Some k -> bytes k /\ zlen k < 2 ^ 16) /\ ticks s r.2).
Proof.
  intros Hsh [Lg Bg]. pose proof igtk_len_range as Hig. pose proof Hsh as [[_ _ _ _ Hgl] _]. unfold gval in Lg. unfold group_kde.
  destruct (val wpa s =? WPA_VERSION_WPA2).
  2: { cbn. split; [|done]. intros k [= <-]. split; [done|lia]. }
  unfold RSN_SELECTOR_LEN. set (n := 2 + 4 + 2 + gval GTK_len (sh s) + ieee80211w_kde_len conf s).
  assert (0 <= ieee80211w_kde_len conf s <= 46) as Hw.
  { unfold ieee80211w_kde_len, RSN_SELECTOR_LEN, WPA_IGTK_KDE_PREFIX_LEN. destruct (isset _ _); lia. }
  assert (n = 8 + zlen g + ieee80211w_kde_len conf s) as En by (unfold n, gval; lia). clearbody n.
  destruct (negb _); [cbn; by split|].
  assert (zlen (replicate (Z.to_nat n) 0) = n) as Ln by (apply length_repl; lia).
  eapply safe_bind; [apply add_kde_safe; [apply repl_Z| |by intros ? [= <-]|lia|]|].
  - apply Forall_cons_2; [|by repeat constructor]. unfold is_byte. rewrite (Z.land_ones _ 2) by done.
    pose proof (Z.mod_pos_bound (gval GN (sh (with_sh gtick s))) (2 ^ 2)). lia.
  - change (zlen [_; 0]) with 2. lia.
  - intros [b p] [[Lb Bb] Hp]. change (zlen [_; 0]) with 2 in Hp. cbn [fst snd] in *.
    eapply safe_bind; [apply (ieee80211w_safe (with_sh gtick s)); [apply (keeps_tick _ _ (keeps_refl _ Hsh))|done|lia|]|].
    + change (ieee80211w_kde_len conf (with_sh gtick s)) with (ieee80211w_kde_len conf s). lia.
    + change (ieee80211w_kde_len conf (with_sh gtick s)) with (ieee80211w_kde_len conf s).
      intros [[b2 p2] s2] ([L2 B2] & Hp2 & Ht). cbn [fst snd] in *.
      safe_to (arr p2); [apply get_safe; [done|lia..]|intros k [Lk Bk]]. cbn. split; [|exact Ht].
      intros ? [= <-]. split; [done|lia].
Qed.
End Sending.

(** ** The invariant *)

Definition negotiating (p : ptk_state) : bool :=
  match p with WPA_PTK_PTKCALCNEGOTIATING | WPA_PTK_PTKCALCNEGOTIATING2 | WPA_PTK_PTKINITNEGOTIATING => true | _ => false end.

(** [pairwise_frame] *)
Definition waiting (x : station) : bool :=
  flag_of x EAPOLKeyReceived && negb (flag_of x EAPOLKeyRequest) && flag_of x EAPOLKeyPairwise.

(** something is asked of the 4-way handshake's machine *)
Definition requested (x : station) : bool :=
  flag_of x Disconnect || flag_of x DeauthenticationRequest || flag_of x AuthenticationRequest ||
  flag_of x ReAuthenticationRequest || flag_of x PTKRequest.

(** the machine of the 4-way handshake has taken the frame it waited for *)
Definition quiet (x : station) : Prop := requested x = false -> negotiating (wpa_ptk_state x) = true -> waiting x = false.

Definition weight (n : Z) (b : bool) : Z := if b then n else 0.

Lemma weight_range n b : 0 <= n -> 0 <= weight n b <= n.
Proof. by destruct b; cbn; lia. Qed.

(** bound every weight in sight and forget what it is the weight of *)
Ltac weigh :=
  repeat match goal with
    | |- context[weight ?n ?b] =>
        let H := fresh in pose proof (weight_range n b ltac:(lia)) as H; generalize dependent (weight n b); intros
    end.

(** the members of a station after a chain of setters *)
Ltac mems :=
  unfold setf, setn, sets, set_PTK, set_key_replay, set_prev_key_replay, set_last_rx, set_ptk_state, set_ptk_group_state, emit,
    with_sta, with_sh, isset, val, str;
  cbn [sta sh sta_setf sta_setn sta_sets sta_set_PTK sta_set_key_replay sta_set_prev_key_replay sta_set_last_rx sta_set_ptk_state
       sta_set_ptk_group_state sta_set_assoc sta_emit flag_of num_of str_of PTK key_replay prev_key_replay last_rx_eapol_key
       wpa_ptk_state wpa_ptk_group_state assoc slog];
  repeat first [rewrite fn_lookup_insert | rewrite fn_lookup_insert_ne by discriminate];
  lazymatch goal with |- _ `suffix_of` _ => repeat first [reflexivity | apply suffix_cons_r] | _ => idtac end.

(** ** The distance to rest *)

Definition prank (p : ptk_state) : Z :=
  match p with
  | WPA_PTK_INITIALIZE | WPA_PTK_PTKINITDONE => 0
  | WPA_PTK_DISCONNECTED => 1
  | WPA_PTK_DISCONNECT => 2
  | WPA_PTK_AUTHENTICATION => 20
  | WPA_PTK_AUTHENTICATION2 => 14
  | WPA_PTK_INITPMK | WPA_PTK_INITPSK => 8
  | WPA_PTK_PTKSTART | WPA_PTK_PTKINITNEGOTIATING => 5
  | WPA_PTK_PTKCALCNEGOTIATING => 7
  | WPA_PTK_PTKCALCNEGOTIATING2 => 6
  end.

Definition rekeying (p : ptk_group_state) : bool := match p with WPA_PTK_GROUP_REKEYNEGOTIATING => true | _ => false end.

Definition srank (p : ptk_group_state) (tries : Z) : Z :=
  match p with
  | WPA_PTK_GROUP_IDLE => 0
  | WPA_PTK_GROUP_REKEYNEGOTIATING => if tries <=? 4 then 15 else 12
  | WPA_PTK_GROUP_REKEYESTABLISHED | WPA_PTK_GROUP_KEYERROR => 2
  end.

Definition rank (x : station) : Z :=
  prank (wpa_ptk_state x) + srank (wpa_ptk_group_state x) (num_of x GTimeoutCtr) +
  weight 5 (flag_of x Disconnect) + weight 2 (flag_of x DeauthenticationRequest) + weight 21 (flag_of x AuthenticationRequest) +
  weight 20 (flag_of x ReAuthenticationRequest) + weight 6 (flag_of x PTKRequest) + weight 25 (waiting x) +
  weight 4 (flag_of x update_snonce) + weight 1 (flag_of x TimeoutEvt) +
  weight 20 (flag_of x GUpdateStationKeys && negb (rekeying (wpa_ptk_group_state x))) +
  weight 20 ((num_of x wpa =? WPA_VERSION_WPA) && flag_of x PInitAKeys) + weight 40 (flag_of x PtkGroupInit).

Ltac ranks := unfold rank, waiting; mems; cbn [prank srank rekeying negb andb weight]; rewrite ?andb_false_r; cbn [weight].

Section Invariant.
Context {ctx : Type} {BC : BlockCipher ctx} {BCL : BlockCipherLaws ctx} {DG : Digests} {DL : DigestsLaws} {DT : DigestsTotal}
  {ENV : WpaEnv} {EL : EnvLaws} (conf : wpa_auth_config) (CO : conf_ok conf).
Implicit Types (s : st) (x y : station).

(** the PTK is derived from a PMK with the addresses and some nonces, and a
    frame received before has a valid MIC under it *)
Definition verified (l : list output) (p : wpa_ptk) : Prop :=
  ptk_ok p /\ exists akm cipher pmk addr anonce snonce data,
    wpa_pmk_to_ptk pmk (CText.str "Pairwise key expansion") (conf_addr conf) addr anonce snonce akm cipher = Ok p /\
    ReceivedEapol data ∈ l /\ wpa_verify_key_mic akm p data = Ok (0, data).

(** every key set is the key of such a PTK *)
Fixpoint log_ok (l : list output) : Prop :=
  match l with
  | [] => True
  | o :: l => match o with SetPairwiseKey p _ _ => verified l p | _ => True end /\ log_ok l
  end.

Record inv (x : station) : Prop := {
  i_replay : replay_ok (key_replay x);
  i_ANonce : arr 32 (str_of x ANonce);
  i_akm : wpa_mic_len (num_of x wpa_key_mgmt) = 16;
  i_pmkid pmk id : pmksa (assoc x) = Some (pmk, id) -> arr 16 id;
  i_idle : wpa_ptk_group_state x = WPA_PTK_GROUP_IDLE -> num_of x GTimeoutCtr = 0;
  i_pend : flag_of x pending_deinit = false;
  i_ptk : flag_of x PTK_valid = true -> verified (slog x) (PTK x);
  i_rx d : last_rx_eapol_key x = Some d -> bytes d /\ ReceivedEapol d ∈ slog x;
  i_wait : flag_of x EAPOLKeyReceived = true \/ negotiating (wpa_ptk_state x) = true -> last_rx_eapol_key x <> None;
  i_log : log_ok (slog x);
  i_mic : requested x = false -> negotiating (wpa_ptk_state x) = true -> waiting x = true -> flag_of x MICVerified = true ->
    flag_of x PTK_valid = true;
  i_mic' : requested x = false -> wpa_ptk_state x = WPA_PTK_PTKCALCNEGOTIATING2 \/ wpa_ptk_state x = WPA_PTK_PTKINITNEGOTIATING ->
    waiting x = true -> flag_of x update_snonce = false -> flag_of x MICVerified = true }.

Lemma verified_app l l' p : verified l p -> verified (l' ++ l) p.
Proof.
  intros (Hp & akm & cipher & pmk & addr & an & sn & d & E & Hd & Hv). split; [done|].
  exists akm, cipher, pmk, addr, an, sn, d. split; [done|]. split; [|done]. apply elem_of_app. by right.
Qed.

Lemma log_ok_app l l' : log_ok l -> forallb harmless l' = true -> log_ok (l' ++ l).
Proof.
  intros Hl. induction l' as [|o l' IH]; [done|]. cbn. intros [Ho Hl']%andb_true_iff. split; [by destruct o|by apply IH].
Qed.

Lemma inv_same x y : same x y -> inv x -> inv y.
Proof.
  intros H [I1 I2 I3 I4 I5 I6 I7 I8 I9 I10 I11 I12]. destruct (same_log _ _ H) as (l & El & Hl).
  pose proof (same_flag _ _ H) as Hf. pose proof (same_num _ _ H) as Hn. split.
  - by apply (same_replay _ _ H).
  - by rewrite (same_ANonce _ _ H).
  - by rewrite Hn.
  - intros pmk id. rewrite (same_assoc _ _ H). apply I4.
  - rewrite (same_group_state _ _ H), Hn by done. done.
  - by rewrite Hf.
  - rewrite Hf, (same_PTK _ _ H), El by done. intros. by apply verified_app, I7.
  - intros d. rewrite (same_rx _ _ H), El. intros Hd. destruct (I8 d Hd). split; [done|]. apply elem_of_app. by right.
  - by rewrite (same_rx _ _ H), (same_ptk_state _ _ H), Hf.
  - rewrite El. by apply log_ok_app.
  - unfold requested, waiting. rewrite !Hf, (same_ptk_state _ _ H) by done. done.
  - unfold requested, waiting. rewrite !Hf, (same_ptk_state _ _ H) by done. done.
Qed.

Lemma rank_same x y : same x y -> rank y = rank x.
Proof.
  intros H. unfold rank, waiting.
  by rewrite !(same_flag _ _ H), !(same_num _ _ H), (same_ptk_state _ _ H), (same_group_state _ _ H) by done.
Qed.

Lemma rank_range x : 0 <= rank x < 200.
Proof.
  unfold rank. assert (0 <= prank (wpa_ptk_state x) <= 20) by by destruct (wpa_ptk_state x).
  destruct (wpa_ptk_group_state x) eqn:E; cbn [rekeying negb]; unfold srank; rewrite ?andb_false_r, ?andb_true_r;
    cbn [weight]; try (destruct (_ <=? 4)); weigh; lia.
Qed.

(** one step that brings the machines nearer to rest *)
Record nearer (s s' : st) : Prop := {
  n_inv : inv (sta s');
  n_keeps : keeps (sh s) (sh s');
  n_log : slog (sta s) `suffix_of` slog (sta s');
  n_init : isset Init s' = isset Init s;
  n_loop : isset in_step_loop s' = isset in_step_loop s;
  n_changed : isset changed s' = true;
  n_rank : rank (sta s') < rank (sta s) }.

Lemma same_suffix x y : same x y -> slog x `suffix_of` slog y.
Proof. intros H. destruct (same_log _ _ H) as (l & -> & _). by exists l. Qed.

Lemma nearer_sends s s1 s' : nearer s s1 -> sends s1 s' -> nearer s s'.
Proof.
  intros [N1 [N2 N2'] NL N3 N4 N5 N6] [H1 [H2 H3]]. split.
  - by eapply inv_same.
  - split; [done|]. by eapply same_group_trans.
  - etrans; [exact NL|by apply same_suffix].
  - rewrite <- N3. by apply (same_flag _ _ H1).
  - rewrite <- N4. by apply (same_flag _ _ H1).
  - rewrite <- N5. by apply (same_flag _ _ H1).
  - by rewrite (rank_same _ _ H1).
Qed.

(** ** The states of the 4-way handshake *)

Lemma verified_cons l o p : verified l p -> verified (o :: l) p.
Proof. apply (verified_app l [o]). Qed.

(** the members of the invariant that a chain of setters does not change *)
Ltac kept H :=
  destruct H as [I1 I2 I3 I4 I5 I6 I7 I8 I9 I10 I11 I12]; split; mems;
  [ try exact I1 | try exact I2 | try exact I3 | try exact I4 | try exact I5 | try exact I6
  | try (intros; repeat apply verified_cons; by apply I7); try discriminate
  | try exact I8; try (intros ? Hd; destruct (I8 _ Hd); split; [done|]; rewrite !elem_of_cons; by auto)
  | try exact I9; try (intros [?|?]; [apply I9; by left|discriminate]); try (intros [?|?]; discriminate)
  | try (cbn; by auto 10)
  | try (intros _ ?; discriminate)
  | try (intros _ [?|?]; discriminate) ].

Lemma authentication_nearer s : inv (sta s) -> sh_ok (sh s) -> isset AuthenticationRequest s = true -> nearer s (PTK_AUTHENTICATION s).
Proof.
  intros Hi Hsh Hf. unfold PTK_AUTHENTICATION, enter_ptk, set_eapol. split; [kept Hi|by apply keeps_refl|by mems..|].
  unfold isset in Hf. ranks. rewrite Hf. cbn [weight].
  destruct (wpa_ptk_state (sta s)); cbn [prank]; lia.
Qed.

Lemma prank_nonneg p : 0 <= prank p.
Proof. by destruct p. Qed.

Lemma keeps_num n v (x y : shared) : n <> GTK_len -> n <> GN -> n <> GM -> n <> GN_igtk -> n <> GM_igtk -> keeps x y -> keeps x (gsetn n v y).
Proof.
  intros H1 H2 H3 H4 H5 [[[HC HN HG HI Hl] Hi] Hs]. split; [|done].
  split; [split; mem; rewrite ?fn_lookup_insert_ne by done; done|]. unfold indices_ok. mem. rewrite !fn_lookup_insert_ne by done. done.
Qed.

Lemma clear_update_keeps s : sh_ok (sh s) -> keeps (sh s) (sh (clear_update s)).
Proof. intros. unfold clear_update, when. destruct (isset GUpdateStationKeys s); [by apply keeps_num|by apply keeps_refl]. Qed.

Lemma clear_update_sta s : sta (clear_update s) = sta_setf GUpdateStationKeys false (sta s).
Proof. unfold clear_update, when. by destruct (isset GUpdateStationKeys s). Qed.

Lemma disconnected_nearer s : inv (sta s) -> sh_ok (sh s) ->
  isset DeauthenticationRequest s = true \/ wpa_ptk_state (sta s) = WPA_PTK_DISCONNECT -> nearer s (PTK_DISCONNECTED s).
Proof.
  intros Hi Hsh Hf. unfold PTK_DISCONNECTED, enter_ptk. split; [kept Hi|by apply keeps_refl|by mems..|].
  pose proof (prank_nonneg (wpa_ptk_state (sta s))). pose proof (weight_range 2 (flag_of (sta s) DeauthenticationRequest)).
  unfold isset in Hf. ranks. destruct Hf as [->| ->]; cbn [weight prank]; lia.
Qed.

(** wpa_sta_disconnect asks for DISCONNECTED and forgets the PTK *)
Lemma sta_disconnect_inv s : inv (sta s) -> inv (sta (wpa_sta_disconnect s)).
Proof.
  intros Hi. unfold wpa_sta_disconnect, deauth_event, event_end, wpa_remove_ptk, when. rewrite bool_decide_false by done.
  rewrite andb_false_r. cbn [negb]. rewrite bool_decide_false by done. cbn [negb]. unfold with_sta. kept Hi.
  all: unfold requested; mems; by rewrite !orb_true_r.
Qed.

Lemma sta_disconnect_rank s : rank (sta (wpa_sta_disconnect s)) <= rank (sta s) + 2.
Proof.
  unfold wpa_sta_disconnect, deauth_event, event_end, wpa_remove_ptk, when. rewrite bool_decide_false by done.
  rewrite andb_false_r. cbn [negb]. rewrite bool_decide_false by done. cbn [negb]. ranks.
  pose proof (weight_range 2 (flag_of (sta s) DeauthenticationRequest)). lia.
Qed.

Lemma sta_disconnect_flag f s : f <> DeauthenticationRequest -> f <> PTK_valid -> f <> pairwise_set -> f <> changed ->
  isset f (wpa_sta_disconnect s) = isset f s /\ isset changed (wpa_sta_disconnect s) = true /\ sh (wpa_sta_disconnect s) = sh s /\
  slog (sta s) `suffix_of` slog (sta (wpa_sta_disconnect s)).
Proof.
  intros H1 H2 H3 H4. unfold wpa_sta_disconnect, deauth_event, event_end, wpa_remove_ptk, when. rewrite bool_decide_false by done.
  rewrite andb_false_r. cbn [negb]. rewrite bool_decide_false by done. cbn [negb]. mems. rewrite !fn_lookup_insert_ne by done.
  split; [done|]. split; [done|]. split; [done|]. by mems.
Qed.

Lemma disconnect_nearer s : inv (sta s) -> sh_ok (sh s) -> isset Disconnect s = true \/ 5 <= prank (wpa_ptk_state (sta s)) ->
  nearer s (PTK_DISCONNECT s).
Proof.
  intros Hi Hsh Hf. unfold PTK_DISCONNECT. set (s1 := s |> enter_ptk WPA_PTK_DISCONNECT |> setf Disconnect false).
  assert (inv (sta s1)) as Hi1 by (unfold s1, enter_ptk; kept Hi).
  assert (rank (sta s1) + 2 < rank (sta s)).
  { pose proof (prank_nonneg (wpa_ptk_state (sta s))). pose proof (weight_range 5 (flag_of (sta s) Disconnect)).
    unfold s1, enter_ptk. unfold isset in Hf. ranks. destruct Hf as [->|Hf]; cbn [weight prank]; lia. }
  destruct (sta_disconnect_flag Init s1) as (E1 & E2 & E3 & Elog); [done..|]. destruct (sta_disconnect_flag in_step_loop s1) as (E4 & _); [done..|].
  split; [by apply sta_disconnect_inv|rewrite E3; by apply keeps_refl|exact Elog|rewrite E1; unfold s1, enter_ptk; by mems|rewrite E4; unfold s1, enter_ptk; by mems|done|].
  pose proof (sta_disconnect_rank s1). lia.
Qed.

(** a failure is counted before the station is disconnected *)
Lemma failed_nearer s : inv (sta s) -> sh_ok (sh s) -> 5 <= prank (wpa_ptk_state (sta s)) -> nearer s (PTK_DISCONNECT (count_failure s)).
Proof.
  intros Hi Hsh Hp. assert (keeps (sh s) (sh (count_failure s))) as [Hk Hg] by (by apply keeps_num).
  destruct (disconnect_nearer (count_failure s)) as [N1 [N2 N2'] NL N3 N4 N5 N6]; [done|done|by right|].
  by split.
Qed.


(** between entering INITIALIZE and its end, with [changed] being [c] *)
Record initializing (c : bool) (s s' : st) : Prop := {
  in_inv : inv (sta s');
  in_keeps : keeps (sh s) (sh s');
  in_log : slog (sta s) `suffix_of` slog (sta s');
  in_init : isset Init s' = isset Init s;
  in_loop : isset in_step_loop s' = isset in_step_loop s;
  in_state : wpa_ptk_state (sta s') = WPA_PTK_INITIALIZE;
  in_changed : isset changed s' = c;
  in_rank : rank (sta s') <= rank (sta s) - prank (wpa_ptk_state (sta s)) }.

Lemma initializing_enter s : inv (sta s) -> sh_ok (sh s) -> initializing true s (enter_ptk WPA_PTK_INITIALIZE s).
Proof. intros Hi Hsh. unfold enter_ptk. split; [kept Hi|by apply keeps_refl|by mems..|]. ranks. lia. Qed.

Lemma initializing_changed c b s s' : initializing c s s' -> initializing b s (setf changed b s').
Proof. intros [Hi N2 NL N3 N4 N5 N6 N7]. split; [kept Hi; [exact I11|exact I12]|done|by mems..|]. etrans; [|exact N7]. ranks. lia. Qed.

Lemma initializing_sends c s s1 s' : initializing c s s1 -> sends s1 s' -> initializing c s s'.
Proof.
  intros [N1 [N2 N2'] NL N3 N4 N5 N6 N7] [H1 [H2 H3]]. split.
  - by eapply inv_same.
  - split; [done|by eapply same_group_trans].
  - etrans; [exact NL|by apply same_suffix].
  - rewrite <- N3. by apply (same_flag _ _ H1).
  - rewrite <- N4. by apply (same_flag _ _ H1).
  - by rewrite (same_ptk_state _ _ H1).
  - rewrite <- N6. by apply (same_flag _ _ H1).
  - by rewrite (rank_same _ _ H1).
Qed.

Lemma initializing_flag c f s s' : f = GUpdateStationKeys \/ f = PInitAKeys ->
  initializing c s s' -> initializing c s (setf f false s').
Proof.
  intros Hf [Hi N2 NL N3 N4 N5 N6 N7]. destruct Hf as [-> | ->].
  all: split; [kept Hi; [exact I11|exact I12]|done|by mems..|].
  - pose proof (weight_range 20 (flag_of (sta s') GUpdateStationKeys && negb (rekeying (wpa_ptk_group_state (sta s'))))).
    etrans; [|exact N7]. ranks. lia.
  - pose proof (weight_range 20 ((num_of (sta s') wpa =? WPA_VERSION_WPA) && flag_of (sta s') PInitAKeys)).
    etrans; [|exact N7]. ranks. lia.
Qed.

Lemma initializing_forget c s s' : initializing c s s' -> initializing c s (s' |> setf PTK_valid false |> set_PTK no_ptk).
Proof.
  intros [Hi N2 NL N3 N4 N5 N6 N7]. split; [|done|by mems..|etrans; [|exact N7]; ranks; lia].
  kept Hi; [|exact I12]. rewrite N5. discriminate.
Qed.

Lemma initializing_keeps c s s' (x : shared) : initializing c s s' -> keeps (sh s') x -> initializing c s (with_sh (fun _ => x) s').
Proof. intros [Hi [N2 N2'] NL N3 N4 N5 N6 N7] [H1 H2]. split; try done. split; [done|by eapply same_group_trans]. Qed.

Lemma initializing_clear c s s' : initializing c s s' -> initializing c s (clear_update s').
Proof.
  intros H. unfold clear_update. apply initializing_flag; [by left|]. unfold when. destruct (isset GUpdateStationKeys s'); [|done].
  apply (initializing_keeps c s s' _ H). apply keeps_num; try done. apply keeps_refl. by destruct (in_keeps _ _ _ H).
Qed.

Lemma initializing_when c s s' b f : initializing c s s' -> initializing c s (f s') -> initializing c s (when b f s').
Proof. by destruct b. Qed.

Lemma initialize_ok s : inv (sta s) -> sh_ok (sh s) -> initializing (negb (isset Init s)) s (PTK_INITIALIZE s).
Proof.
  intros Hi Hsh. unfold PTK_INITIALIZE. set (s1 := enter_ptk WPA_PTK_INITIALIZE s).
  assert (initializing true s s1) as H1 by by apply initializing_enter.
  set (s2 := when (isset Init s1) (setf changed false) s1).
  assert (initializing (negb (isset Init s)) s s2) as H2.
  { unfold s2. rewrite (in_init _ _ _ H1). unfold when. destruct (isset Init s); [by eapply initializing_changed|done]. }
  clearbody s2. clear H1 s1. set (c := negb (isset Init s)) in *.
  assert (forall s', initializing c s s' -> sh_ok (sh s')) as Hok by (intros s' H; apply (in_keeps _ _ _ H)).
  assert (forall s' f, initializing c s s' -> (forall x, same x (f x)) -> initializing c s (with_sta f s')) as Hs.
  { intros s' f H Hf. apply (initializing_sends _ _ _ _ H). apply sends_with; [done|]. by apply sends_refl, Hok. }
  assert (initializing c s (s2 |> setn keycount 0 |> clear_update)) as H3.
  { apply initializing_clear. unfold setn. by apply Hs; [|intros; apply same_setn]. }
  set (s3 := s2 |> setn keycount 0 |> clear_update) in *. clearbody s3. clear H2 s2.
  assert (initializing c s (when (val wpa s3 =? WPA_VERSION_WPA) (setf PInitAKeys false) s3)) as H4.
  { apply initializing_when; [done|]. by apply initializing_flag; [right|]. }
  set (s4 := when _ _ s3) in *. clearbody s4. clear H3 s3.
  unfold wpa_remove_ptk, set_eapol, emit.
  assert (initializing c s (s4 |> setf Pair true |> with_sta (sta_emit (SetEapol WPA_EAPOL_portEnabled 0)))) as H5.
  { apply Hs; [|intros; by apply same_emit]. by apply Hs; [|intros; apply same_setf]. }
  set (s5 := s4 |> setf Pair true |> _) in *. clearbody s5. clear H4 s4.
  apply initializing_forget in H5. set (s6 := s5 |> setf PTK_valid false |> set_PTK no_ptk) in *. clearbody s6. clear s5.
  set (s7 := setn TimeoutCtr 0 _). assert (initializing c s s7) as H7.
  { unfold s7, setn, setf. repeat first [apply Hs; [|intros; first [by apply same_setn|by apply same_setf|by apply same_emit]]]; done. }
  apply initializing_when; [done|]. by apply Hs; [|intros; apply same_emit].
Qed.

(** a station that asked for nothing; the branches of PTK_step behind the requests *)
Lemma not_requested x : requested x = false -> flag_of x Disconnect = false /\ flag_of x DeauthenticationRequest = false /\
  flag_of x AuthenticationRequest = false /\ flag_of x ReAuthenticationRequest = false /\ flag_of x PTKRequest = false.
Proof. unfold requested. rewrite !orb_false_iff. tauto. Qed.

Lemma authentication2_nearer s : inv (sta s) -> sh_ok (sh s) ->
  isset Disconnect s = false -> isset ReAuthenticationRequest s = true \/ wpa_ptk_state (sta s) = WPA_PTK_AUTHENTICATION ->
  safe (PTK_AUTHENTICATION2 conf s) (nearer s).
Proof.
  intros Hi Hsh HD Hf. unfold PTK_AUTHENTICATION2, enter_ptk.
  eapply safe_bind; [by apply ensure_init_safe|]. intros x Hx. destruct (random_get_bytes _ _) as [r rnd] eqn:Er.
  assert (arr 32 rnd) as Hr by (pose proof (random_arr (tick (sh (with_sh (fun _ => x) (s |> setf changed true |>
    set_ptk_state WPA_PTK_AUTHENTICATION2) |> setf ReAuthenticationRequest false))) WPA_NONCE_LEN) as H; rewrite Er in H; by apply H).
  pose proof (prank_nonneg (wpa_ptk_state (sta s))). pose proof (weight_range 20 (flag_of (sta s) ReAuthenticationRequest)).
  unfold isset in Hf, HD.
  unfold safe. destruct (negb (r =? 0)); (split; [kept Hi; exact Hr|by apply keeps_tick|by mems..|]); ranks; rewrite HD; cbn [weight];
    destruct Hf as [->| ->]; cbn [weight prank]; lia.
Qed.

Lemma initpmk_nearer s : inv (sta s) -> sh_ok (sh s) -> isset Disconnect s = false ->
  wpa_ptk_state (sta s) = WPA_PTK_AUTHENTICATION2 -> nearer s (PTK_INITPMK s).
Proof.
  intros Hi Hsh HD Hst. unfold PTK_INITPMK. set (s1 := enter_ptk WPA_PTK_INITPMK s). set (pmk := match pmksa _ with Some _ => _ | None => _ end).
  unfold isset in HD. assert (forall b, b = true -> nearer s (setf Disconnect b s1)) as H1.
  { intros b ->. unfold s1, enter_ptk. split; [kept Hi|by apply keeps_refl|by mems..|]. ranks. rewrite HD, Hst. cbn [weight prank]. lia. }
  destruct pmk as [p|]; [|by apply H1].
  assert (nearer s s1) as H2.
  { unfold s1, enter_ptk. split; [kept Hi|by apply keeps_refl|by mems..|]. ranks. rewrite Hst. cbn [prank]. lia. }
  apply (nearer_sends _ _ _ H2). sent. apply sends_refl, (n_keeps _ _ H2).
Qed.

Lemma initpsk_nearer s : inv (sta s) -> sh_ok (sh s) -> wpa_ptk_state (sta s) = WPA_PTK_AUTHENTICATION2 -> nearer s (PTK_INITPSK s).
Proof.
  intros Hi Hsh Hst. unfold PTK_INITPSK. assert (nearer s (enter_ptk WPA_PTK_INITPSK s)) as H2.
  { unfold enter_ptk. split; [kept Hi|by apply keeps_refl|by mems..|]. ranks. rewrite Hst. cbn [prank]. lia. }
  apply (nearer_sends _ _ _ H2). pose proof (sends_refl _ (proj1 (n_keeps _ _ H2))). destruct (psks _); sent.
Qed.

Lemma inv_sends_args s : inv (sta s) -> (isset PTK_valid s = true -> ptk_ok (PTK (sta s))).
Proof. intros Hi Hv. by destruct (i_ptk _ Hi Hv). Qed.

Lemma sends_inv s s' : inv (sta s) -> sends s s' -> inv (sta s') /\ sh_ok (sh s').
Proof. intros Hi [H1 [H2 H3]]. split; [by eapply inv_same|done]. Qed.

Lemma send_inv key_info key_rsc nonce kde keyidx encr s : inv (sta s) -> sh_ok (sh s) ->
  opt_arr 32 nonce -> opt_arr 8 key_rsc -> (forall k, kde = Some k -> bytes k /\ zlen k < 2 ^ 16) -> (kde = None -> encr = false) ->
  safe (wpa_send_eapol conf key_info key_rsc nonce kde keyidx encr s) (sends s).
Proof.
  intros Hi Hsh Hn Hr Hk He. apply send_safe; try assumption; [apply (i_replay _ Hi)|apply (i_akm _ Hi)|by apply inv_sends_args].
Qed.

Lemma ptkstart_nearer s : inv (sta s) -> sh_ok (sh s) ->
  isset PTKRequest s = true \/ 8 <= prank (wpa_ptk_state (sta s)) \/
  (5 <= prank (wpa_ptk_state (sta s)) /\ isset TimeoutEvt s = true) ->
  safe (PTK_PTKSTART conf s) (nearer s).
Proof.
  intros Hi Hsh Hf. unfold PTK_PTKSTART, enter_ptk. set (s1 := setn TimeoutCtr _ _).
  assert (nearer s s1) as H1.
  { unfold s1. split; [kept Hi|by apply keeps_refl|by mems..|]. unfold isset in Hf.
    pose proof (prank_nonneg (wpa_ptk_state (sta s))). pose proof (weight_range 6 (flag_of (sta s) PTKRequest)).
    pose proof (weight_range 1 (flag_of (sta s) TimeoutEvt)). ranks.
    destruct Hf as [->|[Hf|[Hf ->]]]; cbn [weight]; lia. }
  destruct (_ <? _); [done|].
  eapply safe_bind; [apply pmkid_kde_safe, (n_inv _ _ H1)|]. intros kde Hk.
  eapply safe_mono; [apply send_inv; [apply (n_inv _ _ H1)|apply (n_keeps _ _ H1)|apply (i_ANonce _ (n_inv _ _ H1))|done|exact Hk|done]|].
  intros s' Hs. by apply (nearer_sends _ _ _ H1).
Qed.

Lemma try_pmks_safe s cands snonce data : wpa_mic_len (val wpa_key_mgmt s) = 16 -> bytes data ->
  safe (try_pmks conf s cands snonce data) (fun r => forall pmk p, r = Some (pmk, p) ->
    ptk_ok p /\ wpa_derive_ptk conf s snonce pmk = Ok p /\ wpa_verify_key_mic (val wpa_key_mgmt s) p data = Ok (0, data)).
Proof.
  intros Hml Hb. induction cands as [|pmk cands IH]; [done|]. cbn [try_pmks].
  pose proof (pmk_to_ptk_safe pmk (CText.str "Pairwise key expansion") (conf_addr conf) (sta_addr (assoc (sta s)))
    (str ANonce s) snonce (val wpa_key_mgmt s) (val pairwise s)) as Hp. apply safe_exists in Hp as (p & Ep & Hp).
  unfold wpa_derive_ptk at 1. rewrite Ep, bind_ok.
  destruct (verify_safe (val wpa_key_mgmt s) p data Hml (proj1 Hp) (proj2 Hp) Hb) as [r Ev]. rewrite Ev, bind_ok.
  destruct (Z.eqb_spec r 0) as [->|]; [|exact IH]. cbn. by intros ? ? [= <- <-].
Qed.

(** the PTK that [try_pmks] finds *)
Lemma found_verified s snonce pmk p data l : ReceivedEapol data ∈ l -> ptk_ok p ->
  wpa_derive_ptk conf s snonce pmk = Ok p -> wpa_verify_key_mic (val wpa_key_mgmt s) p data = Ok (0, data) -> verified l p.
Proof. intros Hd Hp Ed Ev. split; [done|]. by eexists _, _, _, _, _, _, _. Qed.

(** the state PTKCALCNEGOTIATING before the PMKs are tried *)
Lemma calc_entered s : inv (sta s) -> sh_ok (sh s) -> 5 <= prank (wpa_ptk_state (sta s)) ->
  waiting (sta s) = true \/ (isset update_snonce s = true /\ negotiating (wpa_ptk_state (sta s)) = true) ->
  nearer s (s |> enter_ptk WPA_PTK_PTKCALCNEGOTIATING |> setf EAPOLKeyReceived false |> setf update_snonce false).
Proof.
  intros Hi Hsh Hp Hf. assert (last_rx_eapol_key (sta s) <> None) as Hrx.
  { apply (i_wait _ Hi). destruct Hf as [Hw|[_ Hn]]; [left|by right]. unfold waiting in Hw. by destruct (flag_of (sta s) EAPOLKeyReceived). }
  unfold enter_ptk. split.
  - kept Hi; [intros _; exact Hrx|..]; unfold waiting; mems; discriminate.
  - by apply keeps_refl.
  - by mems.
  - by mems.
  - by mems.
  - by mems.
  - unfold isset in Hf. pose proof (weight_range 25 (waiting (sta s))) as W1. pose proof (weight_range 4 (flag_of (sta s) update_snonce)) as W2.
    assert (4 <= weight 25 (waiting (sta s)) + weight 4 (flag_of (sta s) update_snonce)).
    { destruct Hf as [->|[-> _]]; cbn [weight]; lia. }
    clear -Hp H. revert H. ranks. intros H. lia.
Qed.

Lemma calc_nearer s : inv (sta s) -> sh_ok (sh s) -> 5 <= prank (wpa_ptk_state (sta s)) ->
  waiting (sta s) = true \/ (isset update_snonce s = true /\ negotiating (wpa_ptk_state (sta s)) = true) ->
  safe (PTK_PTKCALCNEGOTIATING conf s) (nearer s).
Proof.
  intros Hi Hsh Hp Hf. pose proof (calc_entered s Hi Hsh Hp Hf) as H1. unfold PTK_PTKCALCNEGOTIATING.
  set (s1 := s |> enter_ptk _ |> setf EAPOLKeyReceived false |> setf update_snonce false) in *.
  assert (wpa_ptk_state (sta s1) = WPA_PTK_PTKCALCNEGOTIATING /\ isset EAPOLKeyReceived s1 = false) as [Hst HK]
    by (split; unfold s1, enter_ptk; by mems).
  clearbody s1. pose proof (n_inv _ _ H1) as Hi1.
  destruct (last_rx_eapol_key (sta s1)) as [data|] eqn:Ed; [|by destruct (i_wait _ Hi1); [right; by rewrite Hst|]].
  destruct (i_rx _ Hi1 _ Ed) as [Hb Hlog].
  eapply (safe_bind (fun r => forall pmk p, r = Some (pmk, p) -> verified (slog (sta s1)) p)).
  { assert (safe (try_pmks conf s1 (candidates s1) (str SNonce s1) data) (fun r => forall pmk p, r = Some (pmk, p) -> verified (slog (sta s1)) p)) as H.
    { eapply safe_mono; [apply try_pmks_safe; [apply (i_akm _ Hi1)|done]|]. intros r Hr pmk p E.
      destruct (Hr pmk p E) as (H2 & H3 & H4). by eapply found_verified. }
    destruct (candidates s1); [done|exact H]. }
  assert (forall s2, sends s1 s2 -> nearer s s2) as Hsends by (intros s2; by apply nearer_sends).
  pose proof (sends_refl s1 (proj1 (n_keeps _ _ H1))) as Hs1.
  intros [[pmk p]|] Hv; unfold safe.
  2: { unfold when. destruct (_ && _); apply Hsends; [|done]. sent. }
  specialize (Hv pmk p eq_refl).
  set (s2 := s1 |> setf pending_1_of_4_timeout false |> emit CancelEapolTimer |> when _ (sets PMK pmk)).
  assert (sends s1 s2) as Hs2 by (unfold s2, when; destruct (wpa_key_mgmt_wpa_psk _); sent). clearbody s2.
  pose proof (Hsends s2 Hs2) as [Hi2 N2 NL N3 N4 N5 N6].
  assert (flag_of (sta s2) EAPOLKeyReceived = false) as HK2 by (rewrite <- HK; by apply (same_flag _ _ (proj1 Hs2))).
  split; [|done|by mems..|].
  - kept Hi2; [|done..]. intros _. destruct (same_log _ _ (proj1 Hs2)) as (l & -> & _). by apply verified_app.
  - clear -N6. revert N6. ranks. intros N6. lia.
Qed.

Lemma calc2_nearer s : inv (sta s) -> sh_ok (sh s) -> wpa_ptk_state (sta s) = WPA_PTK_PTKCALCNEGOTIATING ->
  isset MICVerified s = true -> nearer s (PTK_PTKCALCNEGOTIATING2 s).
Proof.
  intros Hi Hsh Hst HM. unfold isset in HM. unfold PTK_PTKCALCNEGOTIATING2, enter_ptk. split.
  - kept Hi.
    + intros _. apply I9. right. by rewrite Hst.
    + rewrite Hst in I11. exact I11.
    + done.
  - by apply keeps_refl.
  - by mems.
  - by mems.
  - by mems.
  - by mems.
  - ranks. rewrite Hst. cbn [prank]. lia.
Qed.

(** the frame that asks for message 4, or message 4 that is awaited, is kept *)
Lemma init_negotiating_entered s : inv (sta s) -> sh_ok (sh s) ->
  wpa_ptk_state (sta s) = WPA_PTK_PTKCALCNEGOTIATING2 \/
  (wpa_ptk_state (sta s) = WPA_PTK_PTKINITNEGOTIATING /\ isset TimeoutEvt s = true) ->
  nearer s (s |> enter_ptk WPA_PTK_PTKINITNEGOTIATING |> setf TimeoutEvt false |> setn TimeoutCtr (val TimeoutCtr s + 1)).
Proof.
  intros Hi Hsh Hst. unfold isset in Hst. unfold enter_ptk. split.
  - kept Hi.
    + intros _. apply I9. right. by destruct Hst as [->|[-> _]].
    + intros H1 _. apply I11; [exact H1|]. by destruct Hst as [->|[-> _]].
    + intros H1 _. apply I12; [exact H1|]. by destruct Hst as [->|[-> _]]; auto.
  - by apply keeps_refl.
  - by mems.
  - by mems.
  - by mems.
  - by mems.
  - pose proof (weight_range 1 (flag_of (sta s) TimeoutEvt)). ranks. destruct Hst as [->|[-> ->]]; cbn [prank weight]; lia.
Qed.

Lemma init_negotiating_nearer s : inv (sta s) -> sh_ok (sh s) ->
  wpa_ptk_state (sta s) = WPA_PTK_PTKCALCNEGOTIATING2 \/
  (wpa_ptk_state (sta s) = WPA_PTK_PTKINITNEGOTIATING /\ isset TimeoutEvt s = true) ->
  safe (PTK_PTKINITNEGOTIATING conf s) (nearer s).
Proof.
  intros Hi Hsh Hst. pose proof (init_negotiating_entered s Hi Hsh Hst) as H1. unfold PTK_PTKINITNEGOTIATING.
  change (val TimeoutCtr (s |> enter_ptk WPA_PTK_PTKINITNEGOTIATING |> setf TimeoutEvt false)) with (val TimeoutCtr s).
  set (s1 := s |> enter_ptk _ |> setf TimeoutEvt false |> setn TimeoutCtr _) in *. clearbody s1.
  destruct (_ <? _); [done|]. pose proof (n_inv _ _ H1) as Hi1. pose proof (proj1 (n_keeps _ _ H1)) as Hsh1.
  destruct (group_rsc_ok s1) as (rsc & -> & Hrsc). set (s2 := with_sh gtick s1).
  assert (sends s1 s2) as Hs2 by (apply sends_tick; by apply sends_refl).
  safe_to (fun ie => bytes ie /\ zlen ie <= 128); [by apply ie_for_safe|]. intros ie [Hie Hil].
  assert (forall s3, ticks s2 s3 -> sends s1 s3) as Ht by (intros s3 H; apply (sends_trans _ _ _ Hs2), sends_ticks; [apply Hs2|done]).
  eapply (safe_bind (fun r => (forall g, r.1 = Some g -> bytes g /\ zlen g <= 32) /\ ticks s2 r.2)).
  { destruct (val wpa s2 =? WPA_VERSION_WPA2).
    - eapply safe_mono; [apply gtk_for_safe, Hs2|]. intros [g s3] [Hg H3]. split; [|done]. intros g' E.
      destruct (Hg g' E) as [L B]. split; [done|]. pose proof (pre_len _ (proj1 (proj1 (proj2 Hs2)))). unfold gval in L. lia.
    - cbn. split; [|done]. intros g [= <-]. split; [constructor|done]. }
  intros [g s3] [Hg H3]. cbn [fst snd] in *. destruct g as [g|]; [|cbn; by apply (nearer_sends _ _ _ H1), Ht].
  set (rsn := val wpa s2 =? WPA_VERSION_WPA2).
  pose proof (proj1 (proj2 (Ht s3 H3))) as Hsh3.
  eapply safe_bind; [apply message3_safe; [exact Hsh3|done|done|]|].
  - destruct rsn; [|done]. intros g' [= <-]. by apply Hg.
  - intros [kde s4] [Hk H4]. cbn [fst snd] in *. pose proof (Ht s4 (ticks_trans _ _ _ H3 H4)) as Hs4.
    destruct kde as [kde|]; [|cbn; by apply (nearer_sends _ _ _ H1)].
    destruct (sends_inv _ _ Hi1 Hs4) as [Hi4 Hsh4].
    eapply safe_mono; [apply send_inv; [done|done|apply (i_ANonce _ Hi4)|by destruct rsn|exact Hk|done]|].
    intros s5 Hs5. apply (nearer_sends _ _ _ H1). by eapply sends_trans.
Qed.

(** the PTK that is set was verified: the frame that waits is message 4 *)
Lemma init_done_entered s : inv (sta s) -> sh_ok (sh s) -> requested (sta s) = false ->
  wpa_ptk_state (sta s) = WPA_PTK_PTKINITNEGOTIATING -> waiting (sta s) = true -> isset MICVerified s = true ->
  let s1 := s |> enter_ptk WPA_PTK_PTKINITDONE |> setf EAPOLKeyReceived false in
  verified (slog (sta s1)) (PTK (sta s1)) /\ nearer s s1 /\ rank (sta s1) + 30 <= rank (sta s).
Proof.
  intros Hi Hsh Hr Hst Hw HM. cbv zeta. unfold isset in HM. unfold enter_ptk.
  assert (flag_of (sta s) PTK_valid = true) as HP by (apply (i_mic _ Hi); [done|by rewrite Hst|done|done]).
  assert (rank (sta (setf EAPOLKeyReceived false (set_ptk_state WPA_PTK_PTKINITDONE (setf changed true s)))) + 30 <= rank (sta s)) as HR.
  { assert (weight 25 (waiting (sta s)) = 25) as W by (by rewrite Hw). revert W. ranks. rewrite Hst. cbn [prank]. lia. }
  split; [|split; [|exact HR]].
  - mems. by apply (i_ptk _ Hi).
  - split; [|by apply keeps_refl|by mems..|lia]. kept Hi.
Qed.

Lemma init_done_nearer s : inv (sta s) -> sh_ok (sh s) -> requested (sta s) = false ->
  wpa_ptk_state (sta s) = WPA_PTK_PTKINITNEGOTIATING -> waiting (sta s) = true -> isset MICVerified s = true ->
  nearer s (PTK_PTKINITDONE conf s).
Proof.
  intros Hi Hsh Hr Hst Hw HM. destruct (init_done_entered s Hi Hsh Hr Hst Hw HM) as (Hv & H1 & HR). unfold PTK_PTKINITDONE.
  set (s1 := s |> enter_ptk _ |> setf EAPOLKeyReceived false) in *.
  assert (wpa_ptk_state (sta s1) = WPA_PTK_PTKINITDONE) as Hst1 by (unfold s1, enter_ptk; by mems). clearbody s1.
  set (r := wpa_auth_set_key _). set (s2 := when (isset Pair s1) _ s1).
  assert (nearer s s2 /\ rank (sta s2) + 30 <= rank (sta s)) as [H2 HR2].
  { unfold s2, when. destruct (isset Pair s1); [|done]. destruct H1 as [Hi1 N2 NL N3 N4 N5 N6].
    assert (forall o, rank (sta (emit o (with_sh gtick s1))) = rank (sta s1)) as ER by (intros; ranks; done).
    split; [|by rewrite ER]. split; [|by apply keeps_tick|etrans; [exact NL|by mems]|done|done|done|by rewrite ER].
    kept Hi1; [exact I11|exact I12]. }
  clearbody s2. destruct H2 as [Hi2 N2 NL N3 N4 N5 N6].
  destruct (isset Pair s2 && negb (r =? 0)).
  { destruct (sta_disconnect_flag Init s2) as (E1 & E2 & E3 & Elog); [done..|]. destruct (sta_disconnect_flag in_step_loop s2) as (E4 & _); [done..|].
    pose proof (sta_disconnect_rank s2) as HR'. split; [by apply sta_disconnect_inv|by rewrite E3|by etrans; [exact NL|exact Elog]|by rewrite E1|by rewrite E4|exact E2|].
    clear -HR' HR2. lia. }
  set (s3 := set_eapol WPA_EAPOL_keyDone 1 _). assert (sends s2 s3) as Hs3.
  { pose proof (sends_refl s2 (proj1 N2)). unfold s3, when, set_eapol. destruct (isset Pair s2); [|sent].
    destruct (negb (conf_wpa_ptk_rekey conf =? 0)), (wpa_key_mgmt_wpa_psk _); sent. }
  clearbody s3. assert (nearer s s3 /\ rank (sta s3) + 30 <= rank (sta s)) as [H3 HR3].
  { split; [by apply (nearer_sends _ s2)|]. by rewrite (rank_same _ _ (proj1 Hs3)). }
  destruct (val wpa s2 =? WPA_VERSION_WPA).
  - destruct H3 as [Hi3 M2 ML M3 M4 M5 M6]. split; [kept Hi3; [exact I11|exact I12]|done|by mems..|]. clear -HR3.
    pose proof (weight_range 20 ((num_of (sta s3) wpa =? WPA_VERSION_WPA) && true)).
    pose proof (weight_range 20 ((num_of (sta s3) wpa =? WPA_VERSION_WPA) && flag_of (sta s3) PInitAKeys)).
    revert HR3. ranks. intros HR3. lia.
  - apply (nearer_sends _ _ _ H3). pose proof (sends_refl s3 (proj1 (n_keeps _ _ H3))). sent.
Qed.

(** ** One step of the 4-way handshake's machine *)

Definition stepped (s s' : st) : Prop :=
  (isset Init s = false /\ nearer s s') \/ (isset Init s = false /\ s' = s /\ quiet (sta s)) \/
  (isset Init s = true /\ initializing false s s').

Lemma PTK_step_ok s : inv (sta s) -> sh_ok (sh s) -> safe (PTK_step conf s) (stepped s).
Proof.
  intros Hi Hsh. unfold PTK_step.
  destruct (isset Init s) eqn:EI; [cbn; right; right; split; [done|]; pose proof (initialize_ok s Hi Hsh) as H; by rewrite EI in H|].
  assert (forall m, safe m (nearer s) -> safe m (stepped s)) as HN by (intros m H; eapply safe_mono; [exact H|]; intros; by left).
  destruct (isset Disconnect s) eqn:ED; [apply HN; cbn; apply disconnect_nearer; auto|].
  destruct (isset DeauthenticationRequest s) eqn:EU; [apply HN; cbn; apply disconnected_nearer; auto|].
  destruct (isset AuthenticationRequest s) eqn:EA; [apply HN; cbn; by apply authentication_nearer|].
  destruct (isset ReAuthenticationRequest s) eqn:ER; [apply HN; apply authentication2_nearer; auto|].
  destruct (isset PTKRequest s) eqn:EQ; [apply HN; apply ptkstart_nearer; auto|].
  assert (requested (sta s) = false) as Hr by (unfold requested, isset in *; by rewrite ED, EU, EA, ER, EQ).
  assert (pairwise_frame s = waiting (sta s)) as -> by done.
  assert (negotiating (wpa_ptk_state (sta s)) = false \/ waiting (sta s) = false -> safe (Ok s) (stepped s)) as HR.
  { intros Hq. right. left. split; [done|]. split; [done|]. intros _ Hn. destruct Hq as [Hq|Hq]; [congruence|done]. }
  assert (nearer s (PTK_DISCONNECT (count_failure s)) -> safe (Ok (PTK_DISCONNECT (count_failure s))) (stepped s)) as HF by (by apply (HN (Ok _))).
  destruct (wpa_ptk_state (sta s)) eqn:Est.
  - apply HR. by left.
  - apply HN. cbn. apply disconnected_nearer; auto.
  - apply HN. cbn. destruct (initialize_ok s Hi Hsh) as [N1 N2 NL N3 N4 N5 N6 N7]. rewrite EI in N6. rewrite Est in N7. cbn in N7.
    split; try assumption. clear -N7. lia.
  - apply HN, authentication2_nearer; auto.
  - destruct (_ && isset keyRun s); [by apply (HN (Ok _)), initpmk_nearer|].
    destruct (wpa_key_mgmt_wpa_psk _); [by apply (HN (Ok _)), initpsk_nearer|]. apply HR. by left.
  - destruct (isset keyAvailable s); [apply HN, ptkstart_nearer; try done; right; left; by rewrite Est|].
    apply HF, failed_nearer; [done|done|by rewrite Est].
  - destruct (negb _); [apply HN, ptkstart_nearer; try done; right; left; by rewrite Est|].
    apply HF, failed_nearer; [done|done|by rewrite Est].
  - destruct (waiting (sta s)) eqn:Ew; [apply HN, calc_nearer; try done; [by rewrite Est|by left]|].
    destruct (_ <? _); [apply HF, failed_nearer; [done|done|by rewrite Est]|].
    destruct (isset TimeoutEvt s) eqn:ET; [|apply HR; by left].
    apply HN, ptkstart_nearer; try done. right. right. by rewrite Est.
  - destruct (isset MICVerified s) eqn:EM; [by apply (HN (Ok _)), calc2_nearer|].
    destruct (waiting (sta s)) eqn:Ew; [apply HN, calc_nearer; try done; [by rewrite Est|by left]|].
    destruct (isset TimeoutEvt s) eqn:ET; [|apply HR; by right].
    apply HN, ptkstart_nearer; try done. right. right. by rewrite Est.
  - apply HN, init_negotiating_nearer; try done. by left.
  - destruct (isset update_snonce s) eqn:EU'.
    { apply HN, calc_nearer; try done; [by rewrite Est|]. right. by rewrite Est. }
    destruct (waiting (sta s)) eqn:Ew; cbn [andb].
    { assert (isset MICVerified s = true) as EM by (apply (i_mic' _ Hi); auto). rewrite EM.
      by apply (HN (Ok _)), init_done_nearer. }
    destruct (_ <? _); [apply HF, failed_nearer; [done|done|by rewrite Est]|].
    destruct (isset TimeoutEvt s) eqn:ET; [|apply HR; by right].
    apply HN, init_negotiating_nearer; try done. by right.
  - apply HR. by left.
Qed.

(** ** The states of the group key handshake *)

Record group_stepped (s s' : st) : Prop := {
  g_inv : inv (sta s');
  g_keeps : keeps (sh s) (sh s');
  g_log : slog (sta s) `suffix_of` slog (sta s');
  g_init : isset Init s' = isset Init s;
  g_loop : isset in_step_loop s' = isset in_step_loop s;
  g_state : wpa_ptk_state (sta s') = wpa_ptk_state (sta s);
  g_rank : s' = s \/ (isset Init s = false /\ isset changed s' = true /\ rank (sta s') < rank (sta s)) \/
    (isset Init s = true /\ isset changed s' = false) }.

(** nearer to rest, with the 4-way handshake's machine where it was *)
Lemma group_nearer s s1 s' : isset Init s = false -> wpa_ptk_state (sta s1) = wpa_ptk_state (sta s) -> nearer s s1 -> sends s1 s' ->
  group_stepped s s'.
Proof.
  intros HI Hst H1 Hs. destruct (nearer_sends _ _ _ H1 Hs) as [N1 N2 NL N3 N4 N5 N6]. split; try done.
  - by rewrite (same_ptk_state _ _ (proj1 Hs)).
  - right. by left.
Qed.

Lemma group_init_ok s : inv (sta s) -> sh_ok (sh s) -> isset Init s = true \/ isset PtkGroupInit s = true ->
  group_stepped s (s |> GROUP_IDLE |> setf PtkGroupInit false).
Proof.
  intros Hi Hsh Hf. unfold GROUP_IDLE, enter_group. 
  assert (isset Init (s |> setf changed true |> set_ptk_group_state WPA_PTK_GROUP_IDLE) = isset Init s) as -> by by mems.
  destruct (isset Init s) eqn:EI; unfold when, isset in *.
  - split; [kept Hi; [done|exact I11|exact I12]|by apply keeps_refl|by mems..|]. right. right. split; [done|by mems].
  - destruct Hf as [|Hf]; [done|]. split; [kept Hi; [done|exact I11|exact I12]|by apply keeps_refl|by mems..|].
    right. left. split; [done|]. split; [by mems|]. clear -Hf. ranks. rewrite Hf. cbn [weight].
    pose proof (weight_range 20 (flag_of (sta s) GUpdateStationKeys && true) ltac:(lia)).
    assert (0 <= srank (wpa_ptk_group_state (sta s)) (num_of (sta s) GTimeoutCtr)) by (destruct (wpa_ptk_group_state (sta s)); cbn; try destruct (_ <=? _); lia).
    pose proof (weight_range 20 (flag_of (sta s) GUpdateStationKeys && negb (rekeying (wpa_ptk_group_state (sta s)))) ltac:(lia)). lia.
Qed.

Lemma group_idle_ok s : inv (sta s) -> sh_ok (sh s) -> isset Init s = false ->
  wpa_ptk_group_state (sta s) = WPA_PTK_GROUP_REKEYESTABLISHED \/ wpa_ptk_group_state (sta s) = WPA_PTK_GROUP_KEYERROR ->
  group_stepped s (GROUP_IDLE s).
Proof.
  intros Hi Hsh EI Hst. unfold GROUP_IDLE, enter_group.
  assert (isset Init (s |> setf changed true |> set_ptk_group_state WPA_PTK_GROUP_IDLE) = false) as -> by (unfold isset in *; by mems).
  unfold when, isset in *. split; [kept Hi; [done|exact I11|exact I12]|by apply keeps_refl|by mems..|].
  right. left. split; [done|]. split; [by mems|]. clear -Hst. ranks. destruct Hst as [-> | ->]; cbn [srank rekeying negb]; lia.
Qed.

Lemma established_ok s : inv (sta s) -> sh_ok (sh s) -> isset Init s = false -> waiting (sta s) = false ->
  wpa_ptk_group_state (sta s) = WPA_PTK_GROUP_REKEYNEGOTIATING -> group_stepped s (GROUP_REKEYESTABLISHED s).
Proof.
  intros Hi Hsh EI Hw Hst. unfold GROUP_REKEYESTABLISHED, enter_group. set (s1 := s |> _ |> _ |> setf EAPOLKeyReceived false).
  assert (keeps (sh s) (sh (clear_update s1))) as Hk by (by apply (clear_update_keeps s1)).
  pose proof (clear_update_sta s1) as Ec. destruct (clear_update s1) as [x y]. cbn [sta sh] in Ec, Hk. subst x. unfold s1, isset in *.
  split; [kept Hi|exact Hk|by mems..|].
  - done.
  - intros [?|H]; [done|]. apply I9. by right.
  - right. left. split; [done|]. split; [by mems|]. clear -Hst Hw. unfold waiting in Hw. ranks. rewrite Hw, Hst. cbn [srank rekeying negb weight].
    destruct (num_of (sta s) GTimeoutCtr <=? 4); rewrite ?andb_false_r; cbn [weight]; lia.
Qed.

Lemma keyerror_ok s : inv (sta s) -> sh_ok (sh s) -> isset Init s = false ->
  wpa_ptk_group_state (sta s) = WPA_PTK_GROUP_REKEYNEGOTIATING -> group_stepped s (GROUP_KEYERROR s).
Proof.
  intros Hi Hsh EI Hst. unfold GROUP_KEYERROR, enter_group. set (s1 := s |> _ |> _).
  assert (keeps (sh s) (sh (clear_update s1))) as Hk by (by apply (clear_update_keeps s1)).
  pose proof (clear_update_sta s1) as Ec. destruct (clear_update s1) as [x y]. cbn [sta sh] in Ec, Hk. subst x. unfold s1, isset in *.
  split; [kept Hi|exact Hk|by mems..|].
  - done.
  - unfold requested. mems. discriminate.
  - unfold requested. mems. discriminate.
  - right. left. split; [done|]. split; [by mems|]. clear -Hst. pose proof (weight_range 5 (flag_of (sta s) Disconnect) ltac:(lia)).
    ranks. rewrite Hst. cbn [srank rekeying negb weight]. rewrite ?andb_false_r. cbn [weight].
    destruct (num_of (sta s) GTimeoutCtr <=? 4); lia.
Qed.

(** what makes the machine enter REKEYNEGOTIATING *)
Definition rekey_wanted (x : station) : Prop :=
  (wpa_ptk_group_state x = WPA_PTK_GROUP_IDLE /\
   (flag_of x GUpdateStationKeys = true \/ (num_of x wpa =? WPA_VERSION_WPA) && flag_of x PInitAKeys = true)) \/
  (wpa_ptk_group_state x = WPA_PTK_GROUP_REKEYNEGOTIATING /\ num_of x GTimeoutCtr <= 4 /\ flag_of x TimeoutEvt = true).

Lemma rekey_entered s : inv (sta s) -> sh_ok (sh s) -> isset Init s = false -> rekey_wanted (sta s) ->
  let s1 := s |> enter_group WPA_PTK_GROUP_REKEYNEGOTIATING |> setn GTimeoutCtr (val GTimeoutCtr s + 1) in
  (4 < val GTimeoutCtr s + 1 -> nearer s s1) /\
  (val GTimeoutCtr s + 1 <= 4 ->
   nearer s (s1 |> when (val wpa s1 =? WPA_VERSION_WPA) (setf PInitAKeys false) |> setf TimeoutEvt false)).
Proof.
  intros Hi Hsh EI Hw. cbv zeta. unfold rekey_wanted in Hw. unfold enter_group, when, isset, val in *. pose proof (i_idle _ Hi) as Hidle.
  set (s1 := setn GTimeoutCtr _ _).
  assert (inv (sta s1)) as Hi1 by (unfold s1; kept Hi; [done|exact I11|exact I12]). split; intros HG.
  - destruct Hw as [[Hg _]|(Hg & HG4 & HT)]; [rewrite (Hidle Hg) in HG; lia|].
    split; [exact Hi1|by apply keeps_refl|unfold s1; by mems..|]. clear -Hg HG HG4. unfold s1. ranks. rewrite Hg.
    cbn [srank rekeying negb]. replace (num_of (sta s) GTimeoutCtr + 1 <=? 4) with false by lia.
    replace (num_of (sta s) GTimeoutCtr <=? 4) with true by lia. rewrite andb_false_r. cbn [weight]. lia.
  - assert (num_of (sta s1) wpa = num_of (sta s) wpa) as -> by (unfold s1; by mems).
    set (W := num_of (sta s) wpa =? WPA_VERSION_WPA) in *.
    assert (inv (sta (setf TimeoutEvt false (if W then setf PInitAKeys false s1 else s1)))) as Hi2 by (destruct W; kept Hi1; [exact I11|exact I12|exact I11|exact I12]).
    split; [exact Hi2|destruct W; by apply keeps_refl|destruct W; unfold s1; by mems..|]. clear -Hw HG Hidle.
    pose proof (weight_range 1 (flag_of (sta s) TimeoutEvt) ltac:(lia)) as B1.
    pose proof (weight_range 20 (W && flag_of (sta s) PInitAKeys) ltac:(lia)) as B2.
    assert (srank (wpa_ptk_group_state (sta s)) (num_of (sta s) GTimeoutCtr) + weight 1 (flag_of (sta s) TimeoutEvt) +
      weight 20 (flag_of (sta s) GUpdateStationKeys && negb (rekeying (wpa_ptk_group_state (sta s)))) +
      weight 20 (W && flag_of (sta s) PInitAKeys) > 15 + weight 20 (W && if W then false else flag_of (sta s) PInitAKeys)) as H.
    { clearbody W. destruct Hw as [[-> Hf]|(-> & HG4 & ->)].
      - cbn [srank rekeying negb]. rewrite andb_true_r. destruct W; cbn [andb] in *.
        + destruct Hf as [-> | ->]; cbn [weight]; [|pose proof (weight_range 20 (flag_of (sta s) GUpdateStationKeys) ltac:(lia))]; lia.
        + destruct Hf as [-> |]; [|done]. cbn [weight]. lia.
      - cbn [srank rekeying negb]. replace (num_of (sta s) GTimeoutCtr <=? 4) with true by lia. rewrite andb_false_r.
        destruct W; cbn [andb weight] in *; lia. }
    revert H. clear -HG. unfold s1. destruct W eqn:EW; unfold W in EW; ranks; rewrite EW; replace (num_of (sta s) GTimeoutCtr + 1 <=? 4) with true by lia;
      rewrite ?andb_false_r; cbn [andb weight]; intros H; lia.
Qed.

Lemma rekeynegotiating_ok s : inv (sta s) -> sh_ok (sh s) -> isset Init s = false -> rekey_wanted (sta s) ->
  safe (GROUP_REKEYNEGOTIATING conf s) (group_stepped s).
Proof.
  intros Hi Hsh EI Hw. destruct (rekey_entered s Hi Hsh EI Hw) as [Hlast Hsend]. unfold GROUP_REKEYNEGOTIATING.
  change (val GTimeoutCtr (enter_group WPA_PTK_GROUP_REKEYNEGOTIATING s)) with (val GTimeoutCtr s).
  set (s1 := setn GTimeoutCtr _ _) in *. assert (val GTimeoutCtr s1 = val GTimeoutCtr s + 1) as EG by (unfold s1; by mems).
  assert (wpa_ptk_state (sta s1) = wpa_ptk_state (sta s)) as Est by done.
  rewrite EG. unfold dot11RSNAConfigGroupUpdateCount. destruct (Z.ltb_spec 4 (val GTimeoutCtr s + 1)) as [H4|H4].
  { cbn. pose proof (Hlast H4) as H1. apply (group_nearer s s1); [done|done|done|]. apply sends_refl, (n_keeps _ _ H1). }
  specialize (Hsend H4). set (s2 := setf TimeoutEvt false _) in *.
  assert (wpa_ptk_state (sta s2) = wpa_ptk_state (sta s)) as Est2 by (rewrite <- Est; unfold s2, when; by destruct (_ =? _)).
  clearbody s2. clear Hlast EG Est s1.
  pose proof (n_inv _ _ Hsend) as Hi2. pose proof (proj1 (n_keeps _ _ Hsend)) as Hsh2.
  assert (forall s', sends s2 s' -> group_stepped s s') as Hfin by (intros s' H; by apply (group_nearer s s2)).
  set (t := if bool_decide _ then group_rsc s2 else _).
  assert (exists rsc s3, t = (rsc, s3) /\ arr 8 rsc /\ ticks s2 s3) as (rsc & s3 & -> & Hrsc & H3).
  { unfold t. destruct (bool_decide _).
    - destruct (group_rsc_ok s2) as (rsc & -> & Hrsc). by exists rsc, (with_sh gtick s2).
    - exists (replicate 8 0), s2. split; [done|]. split; [by apply (arr_replicate 8)|done]. }
  pose proof (sends_ticks _ _ Hsh2 H3) as Hs3. destruct (sends_inv _ _ Hi2 Hs3) as [Hi3 Hsh3].
  eapply safe_bind; [by apply gtk_for_safe|]. intros [g s4] [Hg H4']. cbn [fst snd] in *.
  assert (forall s', ticks s3 s' -> sends s2 s') as Ht by (intros s' H; apply (sends_trans _ _ _ Hs3); by apply sends_ticks).
  destruct g as [g|]; [|cbn; by apply Hfin, Ht]. specialize (Hg g eq_refl).
  destruct (sends_inv _ _ Hi2 (Ht s4 H4')) as [Hi4 Hsh4].
  eapply safe_bind; [apply group_kde_safe; [done|]|].
  - destruct H4' as (_ & _ & E & _). unfold gval in *. by rewrite E.
  - intros [kde s5] [Hk H5]. cbn [fst snd] in *. pose proof (Ht s5 (ticks_trans _ _ _ H4' H5)) as Hs5.
    destruct kde as [kde|]; [|cbn; by apply Hfin]. destruct (sends_inv _ _ Hi2 Hs5) as [Hi5 Hsh5].
    eapply safe_mono; [apply send_inv; [done|done|apply (pre_GNonce _ (proj1 Hsh5))|exact Hrsc|exact Hk|done]|].
    intros s6 Hs6. apply Hfin. by eapply sends_trans.
Qed.

Lemma group_rest s : inv (sta s) -> sh_ok (sh s) -> group_stepped s s.
Proof. intros. split; try done. by left. Qed.

Lemma GROUP_step_ok s : inv (sta s) -> sh_ok (sh s) -> safe (GROUP_step conf s) (group_stepped s).
Proof.
  intros Hi Hsh. unfold GROUP_step. destruct (isset Init s || isset PtkGroupInit s) eqn:E0.
  { cbn. apply group_init_ok; [done|done|]. by apply orb_true_iff in E0. }
  apply orb_false_iff in E0 as [EI _]. destruct (wpa_ptk_group_state (sta s)) eqn:Est.
  - destruct (isset GUpdateStationKeys s || _) eqn:EU; [|cbn; by apply group_rest].
    apply rekeynegotiating_ok; [done..|]. left. split; [done|]. by apply orb_true_iff in EU.
  - destruct (isset EAPOLKeyReceived s && negb (isset EAPOLKeyRequest s) && negb (isset EAPOLKeyPairwise s) && isset MICVerified s) eqn:EK.
    { cbn. apply established_ok; [done..| |done]. apply andb_true_iff in EK as [[_ EP]%andb_true_iff _].
      unfold waiting. apply negb_true_iff in EP. unfold isset in EP. by rewrite EP, andb_false_r. }
    unfold dot11RSNAConfigGroupUpdateCount. destruct (Z.ltb_spec 4 (val GTimeoutCtr s)); [cbn; by apply keyerror_ok|].
    destruct (isset TimeoutEvt s) eqn:ET; [|cbn; by apply group_rest].
    apply rekeynegotiating_ok; [done..|]. right. split; [done|]. by split.
  - cbn. apply group_idle_ok; auto.
  - cbn. apply group_idle_ok; auto.
Qed.

(** ** Received frames *)

(** nothing happens to a quiet station but what leaves it quiet *)
Record received (s s' : st) : Prop := {
  r_inv : inv (sta s');
  r_quiet : quiet (sta s');
  r_keeps : keeps (sh s) (sh s');
  r_loop : isset in_step_loop s' = isset in_step_loop s;
  r_log : slog (sta s) `suffix_of` slog (sta s') }.

Lemma received_refl s : inv (sta s) -> quiet (sta s) -> sh_ok (sh s) -> received s s.
Proof. done. Qed.

Lemma received_trans a b c : received a b -> received b c -> received a c.
Proof.
  intros [_ _ [_ H2] H3 H4] [H5 H6 [H7 H8] H9 H10]. split; [done|done|..].
  - split; [done|by eapply same_group_trans].
  - congruence.
  - by etrans.
Qed.

Lemma quiet_same x y : same x y -> quiet x -> quiet y.
Proof.
  intros H Hq. unfold quiet, requested, waiting in *. by rewrite !(same_flag _ _ H), (same_ptk_state _ _ H) by done.
Qed.

Lemma received_sends s s' : inv (sta s) -> quiet (sta s) -> sends s s' -> received s s'.
Proof.
  intros Hi Hq [H1 H2]. split.
  - by eapply inv_same.
  - by eapply quiet_same.
  - done.
  - by apply (same_flag _ _ H1).
  - by apply same_suffix.
Qed.

(** in a quiet station the MIC is not yet of use *)
Lemma quiet_mic x : quiet x -> inv x -> forall b, inv (sta_setf MICVerified b x) /\ inv (sta_setf update_snonce b x).
Proof.
  intros Hq Hi b. split.
  - kept Hi; intros H1 H2 H3; exfalso; unfold quiet in Hq; specialize (Hq H1).
    + specialize (Hq H2). change (waiting x = true) in H3. congruence.
    + change (waiting x = true) in H3. rewrite Hq in H3; [done|]. by destruct H2 as [-> | ->].
  - kept Hi; intros H1 H2 H3; exfalso; unfold quiet in Hq; specialize (Hq H1).
    + specialize (Hq H2). change (waiting x = true) in H3. congruence.
    + change (waiting x = true) in H3. rewrite Hq in H3; [done|]. by destruct H2 as [-> | ->].
Qed.

Lemma received_setf f b s : f = MICVerified \/ f = update_snonce -> inv (sta s) -> quiet (sta s) -> sh_ok (sh s) -> received s (setf f b s).
Proof.
  intros Hf Hi Hq Hsh. destruct (quiet_mic _ Hq Hi b) as [H1 H2].
  destruct Hf as [-> | ->]; (split; [done|exact Hq|by apply keeps_refl|done|done]).
Qed.

(** the PTK is forgotten and asked for again *)
Lemma received_new_ptk s : inv (sta s) -> quiet (sta s) -> sh_ok (sh s) -> received s (wpa_request_new_ptk s).
Proof.
  intros Hi Hq Hsh. unfold wpa_request_new_ptk. split; [|intros H; exfalso; revert H|by apply keeps_refl|done|done].
  - kept Hi; unfold requested; mems; rewrite orb_true_r; discriminate.
  - unfold requested. mems. rewrite orb_true_r. discriminate.
Qed.

Lemma received_ptk s p : inv (sta s) -> quiet (sta s) -> sh_ok (sh s) -> verified (slog (sta s)) p ->
  received s (s |> set_PTK p |> setf PTK_valid true).
Proof.
  intros Hi Hq Hsh Hv. split; [|exact Hq|by apply keeps_refl|done|done]. kept Hi.
  - by intros _.
  - done.
  - exact I12.
Qed.

Lemma received_chain a s s' : received a s -> (inv (sta s) -> quiet (sta s) -> sh_ok (sh s) -> received s s') -> received a s'.
Proof. intros H1 H2. apply (received_trans _ _ _ H1), H2; apply H1. Qed.

Lemma received_sends_from a s s' : received a s -> sends s s' -> received a s'.
Proof. intros H1 H2. apply (received_chain _ _ _ H1). intros. by apply received_sends. Qed.

Lemma sends_of_received a s : received a s -> sends s s.
Proof. intros H. apply sends_refl, (r_keeps _ _ H). Qed.

(** [inv], [quiet] and the frame in the log, what every part of wpa_receive starts from *)
Record receiving (data : list Z) (s : st) : Prop := {
  rv_inv : inv (sta s);
  rv_quiet : quiet (sta s);
  rv_sh : sh_ok (sh s);
  rv_bytes : bytes data;
  rv_log : ReceivedEapol data ∈ slog (sta s) }.

Lemma receiving_received data s s' : receiving data s -> received s s' -> receiving data s'.
Proof.
  intros [H1 H2 H3 H4 H5] [R1 R2 [R3 R4] R5 [l E]]. split; auto. rewrite E. apply elem_of_app. by right.
Qed.

Lemma receiving_refl data s : receiving data s -> received s s.
Proof. intros []. by apply received_refl. Qed.

Lemma check_replay_ok data msg key_info counter nonce s : receiving data s ->
  safe (check_replay msg key_info counter nonce s) (fun r => forall s', r = Some s' -> received s s' /\
    wpa_ptk_state (sta s') = wpa_ptk_state (sta s)).
Proof.
  intros Hv. pose proof (receiving_refl _ _ Hv) as H0. unfold check_replay. destruct (any_of _ _).
  { destruct (_ && _); [done|]. by intros s' [= <-]. }
  destruct (wpa_replay_counter_valid _ _); [by intros s' [= <-]|]. destruct (_ && _ && _ && _).
  - destruct (i_replay _ (rv_inv _ _ Hv)) as [Hl HF]. destruct (key_replay (sta s)) as [|c k]; [done|].
    replace (rd (c :: k) 0) with (Ok c) by done. rewrite bind_ok. intros s' [= <-]. split; [|done].
    assert (received s (setf update_snonce true s)) as H1 by (destruct Hv; apply received_setf; auto).
    apply (received_sends_from _ _ _ H1). pose proof (sends_of_received _ _ H1). sent.
  - destruct (_ && _ && _ && _); [|done]. by intros s' [= <-].
Qed.

Lemma message2_ie_safe key_data ie : bytes key_data -> inside (zlen key_data) ie -> safe (message2_ie key_data ie) (fun _ => True).
Proof.
  intros Hb Hin. unfold message2_ie.
  assert (forall p n, (match ie rsn_ie with Some p => Some p | None => match ie osen with Some p => Some p | None => ie wpa_ie end end) = Some (p, n) ->
    0 <= p /\ 0 <= n /\ p + n <= zlen key_data) as H.
  { intros p n. destruct (ie rsn_ie) as [[]|] eqn:E1; [intros [= -> ->]; by eapply Hin|].
    destruct (ie osen) as [[]|] eqn:E2; [intros [= -> ->]; by eapply Hin|]. by apply Hin. }
  destruct (match ie rsn_ie with Some p => Some p | None => _ end) as [[p n]|]; [|done]. destruct (H p n eq_refl) as (H1 & H2 & H3).
  eapply safe_bind; [by apply get_safe|]. done.
Qed.

(** going on means that the station's state fits the message *)
Definition state_fits (msg : eapol_msg) s : Prop :=
  match msg with
  | PAIRWISE_2 => wpa_ptk_state (sta s) = WPA_PTK_PTKSTART \/ wpa_ptk_state (sta s) = WPA_PTK_PTKCALCNEGOTIATING \/
      isset update_snonce s = true
  | PAIRWISE_4 => wpa_ptk_state (sta s) = WPA_PTK_PTKINITNEGOTIATING /\ isset PTK_valid s = true
  | _ => True
  end.

Lemma check_state_ok msg key_data s : bytes key_data ->
  safe (check_state msg key_data s) (fun r => match r with Some (RAccept _) => False | Some _ => True | None => state_fits msg s end).
Proof.
  intros Hb. destruct msg; cbn [check_state]; try done.
  - set (p := wpa_ptk_state (sta s)). destruct (negb (bool_decide (p = _)) && _ && _) eqn:E; [done|].
    destruct (gisset _ _); [done|]. destruct (parse_kde_ies_inside key_data Hb) as (ret & ie & -> & Hin & _). rewrite bind_ok.
    destruct (ret <? 0); [done|]. eapply safe_bind; [by apply message2_ie_safe|]. intros e _. unfold safe.
    destruct (_ =? 0); [|done]. unfold state_fits. fold p.
    destruct (bool_decide_reflect (p = WPA_PTK_PTKSTART)); [by left|]. destruct (bool_decide_reflect (p = WPA_PTK_PTKCALCNEGOTIATING)); [right; by left|].
    cbn [negb andb] in E. apply orb_false_iff in E as [E _]. apply negb_false_iff in E. right. by right.
  - unfold safe. destruct (_ || _) eqn:E; [done|]. apply orb_false_iff in E as [E1 E2]. apply negb_false_iff in E1, E2.
    by apply bool_decide_eq_true in E1.
  - unfold safe. by destruct (_ || _).
Qed.

Lemma try_alt_ok data s : receiving data s ->
  safe (wpa_try_alt_snonce conf data s) (fun r => received s r.2 /\ isset MICVerified r.2 = isset MICVerified s /\
    (isset PTK_valid s = true -> isset PTK_valid r.2 = true) /\ isset update_snonce r.2 = isset update_snonce s /\
    wpa_ptk_state (sta r.2) = wpa_ptk_state (sta s)).
Proof.
  intros Hv. pose proof (receiving_refl _ _ Hv) as H0. destruct Hv as [Hi Hq Hsh Hb Hlog]. unfold wpa_try_alt_snonce.
  eapply safe_bind; [apply try_pmks_safe; [apply (i_akm _ Hi)|done]|]. intros [[pmk p]|] Hp; [|cbn; done].
  destruct (Hp pmk p eq_refl) as (Hok & Hd & Hm). unfold safe. cbn [snd].
  set (s1 := s |> setf alt_snonce_valid false |> sets SNonce _). assert (sends s s1) as Hs1 by (pose proof (sends_refl s Hsh); unfold s1; sent).
  pose proof (received_sends_from _ _ _ H0 Hs1) as H1. split.
  - apply (received_chain _ _ _ H1). intros H2 H3 H4. apply received_ptk; [done..|].
    destruct (same_log _ _ (proj1 Hs1)) as (l & -> & _). apply verified_app. by eapply found_verified.
  - unfold s1. mems. done.
Qed.

Lemma check_mic_ok msg data s : receiving data s ->
  safe (check_mic conf msg data s) (fun r => received s r.2 /\ (r.1 = true ->
    (isset MICVerified r.2 = true -> isset PTK_valid r.2 = true) /\
    (isset PTK_valid s = true -> isset update_snonce s = false -> isset MICVerified r.2 = true) /\
    isset update_snonce r.2 = isset update_snonce s /\ wpa_ptk_state (sta r.2) = wpa_ptk_state (sta s))).
Proof.
  intros Hv. unfold check_mic. set (s1 := setf MICVerified false s).
  assert (received s s1) as H1 by (destruct Hv; apply received_setf; auto).
  assert (isset PTK_valid s1 = isset PTK_valid s /\ isset update_snonce s1 = isset update_snonce s /\ isset MICVerified s1 = false /\
    wpa_ptk_state (sta s1) = wpa_ptk_state (sta s)) as (E1 & E2 & E3 & E4) by (unfold s1; mems; done).
  pose proof (receiving_received _ _ _ Hv H1) as Hv1. clearbody s1. rewrite E1, E2.
  destruct (isset PTK_valid s) eqn:EP; cbn [andb].
  2: { unfold safe. cbn [fst snd]. split; [done|]. intros _. rewrite E1, E3. done. }
  destruct (isset update_snonce s) eqn:EU; cbn [negb].
  { unfold safe. cbn [fst snd]. split; [done|]. intros _. rewrite E2, E3. done. }
  destruct (i_ptk _ (rv_inv _ _ Hv1) E1) as [[Hk1 Hk2] _].
  destruct (verify_safe (val wpa_key_mgmt s1) (PTK (sta s1)) data) as [r Er]; [apply (i_akm _ (rv_inv _ _ Hv1))|done|done|apply (rv_bytes _ _ Hv)|].
  rewrite Er, bind_ok.
  eapply (safe_bind (fun q => received s q.2 /\ (q.1 = false -> isset PTK_valid q.2 = true /\ isset update_snonce q.2 = false /\
    wpa_ptk_state (sta q.2) = wpa_ptk_state (sta s)))).
  { destruct (r =? 0); [done|]. destruct (_ || _); [done|]. eapply safe_bind; [by apply try_alt_ok|].
    intros [r2 s2] (R1 & R2 & R3 & R4 & R5). cbn [fst snd] in *. unfold safe. cbn [fst snd]. split; [by apply (received_trans _ _ _ H1)|].
    intros _. split; [by apply R3|]. by rewrite R4, R5. }
  intros [bad s2] (R1 & R2). cbn [fst snd] in *. destruct bad; [by split|]. destruct (R2 eq_refl) as (R3 & R4 & R5). unfold safe. cbn [fst snd].
  split; [|intros _; mems; unfold isset in *; by rewrite ?R3, ?R4].
  assert (received s (setf MICVerified true s2)) as R6.
  { apply (received_chain _ _ _ R1). intros. apply received_setf; auto. }
  apply (received_sends_from _ _ _ R6). pose proof (sends_of_received _ _ R6). sent.
Qed.

Lemma received_numbers a s f (x : shared) : received a s -> (forall y, same y (f y)) -> keeps (sh s) x ->
  received a (mkSt (f (sta s)) x).
Proof.
  intros H Hf Hx. apply (received_sends_from _ _ _ H). split; [apply Hf|exact Hx].
Qed.

Lemma error_report_ok group a s : received a s -> received a (wpa_receive_error_report conf group s).2.
Proof.
  intros H. unfold wpa_receive_error_report. assert (forall s', received a s' -> received a (wpa_request_new_ptk s')) as Hnew.
  { intros s' H'. apply (received_chain _ _ _ H'). intros. by apply received_new_ptk. }
  destruct (if group then _ else _); [by apply Hnew|].
  pose proof (sends_of_received _ _ H) as H0. destruct (0 <? _).
  - apply (received_sends_from _ _ _ H). by apply sends_tick.
  - cbn [snd]. apply Hnew. apply (received_sends_from _ _ _ H). split; [by apply same_setn|].
    apply keeps_num; try done. by apply keeps_tick, H0.
Qed.

Lemma receive_request_ok key_info counter key_data a s : received a s -> bytes key_data ->
  safe (receive_request conf key_info counter key_data s) (fun r => received a r.2).
Proof.
  intros H Hb. unfold receive_request. destruct (negb _); [done|].
  set (s1 := s |> setf req_replay_counter_used true |> _). assert (received a s1) as H1.
  { apply (received_sends_from _ _ _ H). pose proof (sends_of_received _ _ H). unfold s1. sent. }
  clearbody s1. destruct (any_of key_info WPA_KEY_INFO_ERROR).
  { pose proof (error_report_ok (negb (any_of key_info WPA_KEY_INFO_KEY_TYPE)) a s1 H1) as H2. by destruct (wpa_receive_error_report _ _ _). }
  destruct (any_of _ _); [unfold safe; cbn [snd]; apply (received_chain _ _ _ H1); intros; by apply received_new_ptk|].
  safe_to (fun _ : bool => True); [|done]. destruct (0 <? _); [|done].
  destruct (parse_kde_ies_inside key_data Hb) as (ret & ie & -> & _). by rewrite bind_ok.
Qed.

Lemma mark_invalid_ok l c : replay_ok l -> replay_ok (wpa_replay_counter_mark_invalid l c).
Proof.
  intros [Hl HF]. unfold wpa_replay_counter_mark_invalid. split; [by rewrite length_map|].
  apply Forall_map. revert HF. apply Forall_impl. intros k Hk. cbn. by destruct (_ && _).
Qed.

Lemma consume_sends msg counter s : inv (sta s) -> sh_ok (sh s) -> sends s (consume_counters msg counter s).
Proof.
  intros Hi Hsh. unfold consume_counters. pose proof (sends_refl s Hsh).
  assert (replay_ok (wpa_replay_counter_mark_invalid (wpa_replay_counter_mark_invalid (key_replay (sta s)) (Some counter)) None))
    by apply mark_invalid_ok, mark_invalid_ok, (i_replay _ Hi). sent.
Qed.

(** the frame is not a request, and the PTK and the MIC are such that it may be taken *)
Definition acceptable (pairwise : bool) s : Prop :=
  (isset MICVerified s = true -> isset PTK_valid s = true) /\
  (pairwise = true -> wpa_ptk_state (sta s) = WPA_PTK_PTKCALCNEGOTIATING2 \/ wpa_ptk_state (sta s) = WPA_PTK_PTKINITNEGOTIATING ->
   isset update_snonce s = false -> isset MICVerified s = true).

Definition accepted (data : list Z) (rekey : bool) s : Prop :=
  99 <= zlen data /\ exists key_info, WPA_GET_BE16 data o_key_info = Ok key_info /\
    (any_of key_info WPA_KEY_INFO_REQUEST = true \/
     (rekey = false /\ acceptable (any_of key_info WPA_KEY_INFO_KEY_TYPE) s)).

Lemma acceptable_msg key_info kdl s s' : any_of key_info WPA_KEY_INFO_REQUEST = false -> 
  state_fits (classify key_info kdl) s -> (isset MICVerified s' = true -> isset PTK_valid s' = true) ->
  (isset PTK_valid s = true -> isset update_snonce s = false -> isset MICVerified s' = true) ->
  isset update_snonce s' = isset update_snonce s -> wpa_ptk_state (sta s') = wpa_ptk_state (sta s) ->
  classify key_info kdl ∈ [PAIRWISE_2; PAIRWISE_4; GROUP_2] -> acceptable (any_of key_info WPA_KEY_INFO_KEY_TYPE) s'.
Proof.
  intros HR Hfit H1 H2 H3 H4 Hmsg. split; [done|]. intros HP Hst HU. rewrite H3 in HU. rewrite H4 in Hst.
  unfold classify in *. rewrite HR, HP, andb_false_r in *. cbn [negb] in *. destruct (any_of key_info WPA_KEY_INFO_SMK_MESSAGE).
  { exfalso. clear -Hmsg. set_solver. }
  destruct (kdl =? 0); cbn [state_fits] in Hfit.
  - destruct Hfit. by apply H2.
  - destruct Hfit as [E|[E|E]]; [rewrite E in Hst; by destruct Hst..|congruence].
Qed.

Lemma state_passed_msg msg key_data s : check_state msg key_data s = Ok None -> msg = REQUEST \/ msg ∈ [PAIRWISE_2; PAIRWISE_4; GROUP_2].
Proof. destruct msg; intros H; try done; first [by left|right; set_solver]. Qed.

Lemma receive_check_ok data s : receiving data s ->
  safe (receive_check conf data s) (fun r => received s r.2 /\ (forall rekey, r.1 = RAccept rekey -> accepted data rekey r.2)).
Proof.
  intros Hv. pose proof (receiving_refl _ _ Hv) as H0. pose proof (rv_bytes _ _ Hv) as Hb. unfold receive_check.
  pose proof (i_akm _ (rv_inv _ _ Hv)) as Hml. change (num_of (sta s) wpa_key_mgmt) with (val wpa_key_mgmt s) in Hml. rewrite Hml.
  change (HDR + keyhdrlen 16) with 99. change (zlen data - HDR - keyhdrlen 16) with (zlen data - 4 - 95).
  destruct (_ || (zlen data <? 99)) eqn:El; [done|]. apply orb_false_iff in El as [_ El].
  pose proof (be16_safe data o_key_info Hb) as Hi. apply safe_exists in Hi as (ki & Eki & Hki); [|unfold o_key_info; lia..].
  rewrite Eki, bind_ok.
  pose proof (be16_safe data (o_key_data_length 16) Hb) as Hk. apply safe_exists in Hk as (kdl & -> & Hkdl); [|change (o_key_data_length 16) with 97; lia..].
  rewrite bind_ok. destruct (rd_in_range data o_type) as [type Et]; [unfold o_type; lia|]. rewrite Et, bind_ok.
  destruct (_ || _) eqn:Elen; [done|]. apply orb_false_iff in Elen as [Elen _].
  safe_to (arr kdl); [apply get_safe; [done|lia..]|intros key_data [_ Hkd]].
  safe_to (arr 8); [apply get_safe; unfold o_replay_counter, WPA_REPLAY_COUNTER_LEN; [done|lia..]|intros counter _].
  safe_to (arr 32); [apply get_safe; unfold o_key_nonce, WPA_NONCE_LEN; [done|lia..]|intros nonce _].
  set (msg := classify ki kdl). destruct (negb (version_ok _ _ _)); [done|].
  eapply safe_bind; [by apply (check_replay_ok data)|]. intros [s1|] Hr; [|done]. destruct (Hr s1 eq_refl) as [H1 _]. clear Hr.
  pose proof (receiving_received _ _ _ Hv H1) as Hv1.
  pose proof (check_state_ok msg key_data s1 Hkd) as Hst. apply safe_exists in Hst as (rs & Ers & Hst). rewrite Ers, bind_ok.
  destruct rs as [rs|]; [unfold safe; cbn [fst snd]; split; [done|]; intros rk ->; done|].
  destruct (_ || _); [done|].
  eapply safe_bind; [by apply check_mic_ok|]. intros [go s2] [R1 R2]. cbn [fst snd] in R1, R2.
  pose proof (received_trans _ _ _ H1 R1) as H2. destruct go; [|done]. cbn [negb]. destruct (R2 eq_refl) as (Q1 & Q2 & Q3 & Q4).
  destruct (any_of ki WPA_KEY_INFO_REQUEST) eqn:ER.
  - eapply safe_mono; [by apply receive_request_ok|]. intros [r s3] H3. cbn [fst snd] in *. split; [done|].
    intros rk ->. split; [lia|]. exists ki. split; [done|]. by left.
  - assert (sends s2 (consume_counters msg counter s2)) as Hc by (apply consume_sends; [apply (r_inv _ _ H2)|apply (r_keeps _ _ H2)]).
    unfold safe. cbn [fst snd]. split; [by apply (received_sends_from _ _ _ H2)|]. intros rk [= <-]. split; [lia|].
    exists ki. split; [done|]. right. split; [done|].
    assert (acceptable (any_of ki WPA_KEY_INFO_KEY_TYPE) s2) as Hacc; [|exact Hacc].
    apply (acceptable_msg ki kdl s1); try done. destruct (state_passed_msg _ _ _ Ers) as [Em|]; [|done].
    exfalso. unfold msg, classify in Em. rewrite ER, andb_false_r in Em. by repeat case_match.
Qed.

Lemma receive_store_ok data rekey s : (forall t n, frame_copy_ok t n = true) -> inv (sta s) -> sh_ok (sh s) -> bytes data ->
  ReceivedEapol data ∈ slog (sta s) -> accepted data rekey s ->
  safe (receive_store data s) (fun r => r.1 = true /\ inv (sta r.2) /\ keeps (sh s) (sh r.2) /\ isset in_step_loop r.2 = isset in_step_loop s).
Proof.
  intros Hcopy Hi Hsh Hb Hlog (Hl & ki & Eki & Hacc). unfold receive_store. rewrite Hcopy, Eki. cbn [negb]. rewrite bind_ok.
  safe_to (arr 32); [apply get_safe; unfold o_key_nonce, WPA_NONCE_LEN; [done|lia..]|intros nonce _].
  unfold safe. cbn [fst snd]. split; [done|]. split; [|split; [by apply keeps_tick|done]].
  unfold acceptable, isset in Hacc. kept Hi.
  - intros d [= <-]. done.
  - intros _ _ Hw. unfold waiting in Hw. revert Hw. mems. destruct Hacc as [->|[_ [Ha _]]]; [discriminate|done].
  - intros _ Hst Hw HU. unfold waiting in Hw. revert Hw. mems. destruct Hacc as [->|[_ [_ Ha]]]; [discriminate|]. cbn. intros HP.
    by apply Ha; [destruct (any_of ki WPA_KEY_INFO_REQUEST), (any_of ki WPA_KEY_INFO_KEY_TYPE)|..].
Qed.
End Invariant.
