(* ===== verification/PmksaCache.v ===== *)
(** * The PMKSA cache (src/hostapd-2.5/src/ap/pmksa_cache_auth.c)

    Entries live in a heap of their addresses; each is linked into two singly
    linked lists, the list of all entries in the order of their expiration and
    the hash chain of its PMKID.  A dangling or NULL pointer that is followed
    is an error.  The allocator is an argument of the operations that
    allocate: the address of a new entry, and whether a copy of so many bytes
    succeeds.  The calls of [free_cb] and the registered timeout are part of
    the cache.

    [rep c l] is the representation invariant: the cache [c] holds the entries
    [l], in this order, in both structures and nothing else. *)

From S2P Require Import Prelude BlockCipher CText EapolKey Prf WpaState WpaPtk WpaSafe.
From stdpp Require Import gmap sorting list.
Open Scope Z_scope.

(** ** Data *)

Abbreviation loc := positive.

Record entry : Type := mkEntry {
  e_next : option loc;
  e_hnext : option loc;
  e_pmkid : list Z;
  e_pmk : list Z;                        (* 32 bytes *)
  e_pmk_len : Z;
  e_expiration : Z;
  e_akmp : Z;
  e_spa : list Z;
  e_identity : option (list Z);
  e_cui : option (list Z);
  e_class : option (list (list Z));
  e_eap_type : Z;
  e_vlan_id : Z;
  e_opportunistic : bool;
  e_multi_hi : Z;
  e_multi_lo : Z }.

Definition set_next (n : option loc) (e : entry) : entry :=
  mkEntry n (e_hnext e) (e_pmkid e) (e_pmk e) (e_pmk_len e) (e_expiration e) (e_akmp e) (e_spa e) (e_identity e) (e_cui e)
    (e_class e) (e_eap_type e) (e_vlan_id e) (e_opportunistic e) (e_multi_hi e) (e_multi_lo e).
Definition set_hnext (n : option loc) (e : entry) : entry :=
  mkEntry (e_next e) n (e_pmkid e) (e_pmk e) (e_pmk_len e) (e_expiration e) (e_akmp e) (e_spa e) (e_identity e) (e_cui e)
    (e_class e) (e_eap_type e) (e_vlan_id e) (e_opportunistic e) (e_multi_hi e) (e_multi_lo e).

(** the members of the EAPOL machine and its station that an entry keeps *)
Record session : Type := mkSession {
  s_identity : option (list Z);
  s_radius_cui : option (list Z);
  s_radius_class : option (list (list Z));
  s_eap_type_authsrv : Z;
  s_vlan_id : Z;
  s_multi_hi : Z;
  s_multi_lo : Z }.

Record cache : Type := mkCache {
  heap : gmap loc entry;
  pmkid_hash : list (option loc);
  pmksa_head : option loc;
  pmksa_count : Z;
  timeout : option Z;                    (* seconds *)
  freed : list loc }.                    (* free_cb, the last call first *)

Definition pmksa_cache_max_entries : Z := 1024.
Definition dot11RSNAConfigPMKLifetime : Z := 43200.
Definition PMKID_HASH_SIZE : Z := 128.
Definition PMKID_HASH (id : list Z) : M Z := b ← rd id 0; Ok (Z.land b 0x7f).

(** ** The heap *)

Definition deref (h : gmap loc entry) (p : loc) : M entry :=
  match h !! p with Some e => Ok e | None => Err NullDeref end.
Definition modify (f : entry -> entry) (h : gmap loc entry) (p : loc) : M (gmap loc entry) :=
  e ← deref h p; Ok (<[p := f e]> h).

(** the two link fields *)
Record link : Type := mkLink { follow : entry -> option loc; relink : option loc -> entry -> entry }.
Definition by_next : link := mkLink e_next set_next.
Definition by_hash : link := mkLink e_hnext set_hnext.

(** *** pmksa_cache_free_entry *)

(** take [target] out of the list that starts in [head]: the heap and the new head *)
Fixpoint unlink (L : link) (fuel : nat) (h : gmap loc entry) (head pos prev : option loc) (target : loc) :
    M (gmap loc entry * option loc) :=
  match fuel with
  | O => Err OutOfFuel
  | S fuel =>
      match pos with
      | None => Ok (h, head)
      | Some p =>
          e ← deref h p;
          if decide (p = target) then
            match prev with
            | Some q => h ← modify (relink L (follow L e)) h q; Ok (h, head)
            | None => Ok (h, follow L e)
            end
          else unlink L fuel h head (follow L e) (Some p) target
      end
  end.

Definition fuel_of (h : gmap loc entry) : nat := S (size h).

Definition pmksa_cache_free_entry (p : loc) (c : cache) : M cache :=
  e ← deref (heap c) p;
  hash ← PMKID_HASH (e_pmkid e);
  bucket ← rd (pmkid_hash c) hash;
  '(h, bucket) ← unlink by_hash (fuel_of (heap c)) (heap c) bucket bucket None p;
  buckets ← wr (pmkid_hash c) hash bucket;
  '(h, head) ← unlink by_next (fuel_of h) h (pmksa_head c) (pmksa_head c) None p;
  Ok (mkCache (delete p h) buckets head (pmksa_count c - 1) (timeout c) (p :: freed c)).

(** *** Expiration *)

Definition pmksa_cache_set_expiration (now : Z) (c : cache) : M cache :=
  match pmksa_head c with
  | None => Ok (mkCache (heap c) (pmkid_hash c) None (pmksa_count c) None (freed c))
  | Some p =>
      e ← deref (heap c) p;
      let sec := i32 (e_expiration e - now) in
      let sec := if sec <? 0 then 0 else sec in
      if sec =? 2 ^ 31 - 1 then Err SignedOverflow
      else Ok (mkCache (heap c) (pmkid_hash c) (pmksa_head c) (pmksa_count c) (Some (sec + 1)) (freed c))
  end.

Fixpoint expire_loop (fuel : nat) (now : Z) (c : cache) : M cache :=
  match fuel with
  | O => Err OutOfFuel
  | S fuel =>
      match pmksa_head c with
      | None => Ok c
      | Some p =>
          e ← deref (heap c) p;
          if e_expiration e <=? now then c ← pmksa_cache_free_entry p c; expire_loop fuel now c else Ok c
      end
  end.

Definition pmksa_cache_expire (now : Z) (c : cache) : M cache :=
  c ← expire_loop (fuel_of (heap c)) now c; pmksa_cache_set_expiration now c.

(** *** Adding *)

(** the last entry in front of the place of a new one *)
Fixpoint find_place (fuel : nat) (h : gmap loc entry) (expiration : Z) (pos prev : option loc) : M (option loc) :=
  match fuel with
  | O => Err OutOfFuel
  | S fuel =>
      match pos with
      | None => Ok prev
      | Some p =>
          e ← deref h p;
          if expiration <? e_expiration e then Ok prev else find_place fuel h expiration (e_next e) (Some p)
      end
  end.

Definition pmksa_cache_link_entry (now : Z) (p : loc) (c : cache) : M cache :=
  e ← deref (heap c) p;
  prev ← find_place (fuel_of (heap c)) (heap c) (e_expiration e) (pmksa_head c) None;
  '(h, head) ← match prev with
               | None => h ← modify (set_next (pmksa_head c)) (heap c) p; Ok (h, Some p)
               | Some q =>
                   eq ← deref (heap c) q;
                   h ← modify (set_next (e_next eq)) (heap c) p;
                   h ← modify (set_next (Some p)) h q;
                   Ok (h, pmksa_head c)
               end;
  hash ← PMKID_HASH (e_pmkid e);
  bucket ← rd (pmkid_hash c) hash;
  h ← modify (set_hnext bucket) h p;
  buckets ← wr (pmkid_hash c) hash (Some p);
  let c := mkCache h buckets head (pmksa_count c + 1) (timeout c) (freed c) in
  match prev with None => pmksa_cache_set_expiration now c | Some _ => Ok c end.

(** os_malloc and os_memcpy; wpabuf_dup *)
Definition copy_bytes (alloc : Z -> bool) (o : option (list Z)) : option (list Z) :=
  match o with Some l => if alloc (zlen l) then Some l else None | None => None end.

Fixpoint copy_attrs (alloc : Z -> bool) (l : list (list Z)) : list (list Z) :=
  match l with
  | [] => []
  | a :: l => if alloc (zlen a) then a :: copy_attrs alloc l else []
  end.

(** [None] is a NULL [attr]; sizeof(struct radius_attr_data) is 16 *)
Definition radius_copy_class (alloc : Z -> bool) (src : option (list (list Z))) : option (list (list Z)) :=
  match src with
  | None => None
  | Some l => if alloc (zlen l * 16) then Some (copy_attrs alloc l) else None
  end.

Definition pmksa_cache_from_eapol_data (alloc : Z -> bool) (eapol : option session) (e : entry) : entry :=
  match eapol with
  | None => e
  | Some s =>
      mkEntry (e_next e) (e_hnext e) (e_pmkid e) (e_pmk e) (e_pmk_len e) (e_expiration e) (e_akmp e) (e_spa e)
        (copy_bytes alloc (s_identity s)) (copy_bytes alloc (s_radius_cui s)) (radius_copy_class alloc (s_radius_class s))
        (s_eap_type_authsrv s) (s_vlan_id s) (e_opportunistic e) (s_multi_hi s) (s_multi_lo s)
  end.

(** [os_free]d and copied when the entry has one *)
Definition replace_bytes (alloc : Z -> bool) (old new : option (list Z)) : option (list Z) :=
  match new with None => old | Some _ => copy_bytes alloc new end.

Definition pmksa_cache_to_eapol_data (alloc : Z -> bool) (e : entry) (s : session) : session :=
  mkSession (replace_bytes alloc (s_identity s) (e_identity e)) (replace_bytes alloc (s_radius_cui s) (e_cui e))
    (radius_copy_class alloc (e_class e)) (e_eap_type e) (e_vlan_id e) (e_multi_hi e) (e_multi_lo e).

(** *** Lookup *)

Definition matches (spa : option (list Z)) (e : entry) : bool :=
  match spa with None => true | Some a => bool_decide (e_spa e = a) end.

Fixpoint search (L : link) (fuel : nat) (h : gmap loc entry) (test : entry -> M bool) (pos : option loc) : M (option loc) :=
  match fuel with
  | O => Err OutOfFuel
  | S fuel =>
      match pos with
      | None => Ok None
      | Some p =>
          e ← deref h p;
          found ← test e;
          if (found : bool) then Ok (Some p) else search L fuel h test (follow L e)
      end
  end.

Definition pmksa_cache_auth_get (spa id : option (list Z)) (c : cache) : M (option loc) :=
  match id with
  | Some id =>
      hash ← PMKID_HASH id;
      bucket ← rd (pmkid_hash c) hash;
      search by_hash (fuel_of (heap c)) (heap c) (fun e => Ok (matches spa e && bool_decide (e_pmkid e = id))) bucket
  | None => search by_next (fuel_of (heap c)) (heap c) (fun e => Ok (matches spa e)) (pmksa_head c)
  end.

Section Add.
Context {DG : Digests}.

(** the PMKID of an entry in [pmksa_cache_auth_add]; the Suite B functions are
    not compiled and leave it zero *)
Definition entry_pmkid (pmk aa spa : list Z) (akmp : Z) : M (list Z) :=
  if wpa_key_mgmt_suite_b akmp then Ok (replicate (Z.to_nat PMKID_LEN) 0)
  else rsn_pmkid pmk aa spa (wpa_key_mgmt_sha256 akmp).

(** [new] is what os_zalloc returns *)
Definition pmksa_cache_auth_add (alloc : Z -> bool) (new : option loc) (now : Z) (pmk : list Z) (kck : option (list Z))
    (aa spa : list Z) (session_timeout : Z) (eapol : option session) (akmp : Z) (c : cache) : M (option loc * cache) :=
  if PMK_LEN <? zlen pmk then Ok (None, c)
  else if wpa_key_mgmt_suite_b akmp && bool_decide (kck = None) then Ok (None, c)
  else
    match new with
    | None => Ok (None, c)
    | Some p =>
        pmk32 ← blit (replicate (Z.to_nat PMK_LEN) 0) 0 pmk;
        id ← entry_pmkid pmk aa spa akmp;
        let expiration := now + (if 0 <? session_timeout then session_timeout else dot11RSNAConfigPMKLifetime) in
        let e := pmksa_cache_from_eapol_data alloc eapol
                   (mkEntry None None id pmk32 (zlen pmk) expiration akmp spa None None None 0 0 false 0 0) in
        let c := mkCache (<[p := e]> (heap c)) (pmkid_hash c) (pmksa_head c) (pmksa_count c) (timeout c) (freed c) in
        pos ← pmksa_cache_auth_get (Some spa) None c;
        c ← match pos with Some q => pmksa_cache_free_entry q c | None => Ok c end;
        c ← match pmksa_head c with
            | Some q => if pmksa_cache_max_entries <=? pmksa_count c then pmksa_cache_free_entry q c else Ok c
            | None => Ok c
            end;
        c ← pmksa_cache_link_entry now p c;
        Ok (Some p, c)
    end.

Definition pmksa_cache_add_okc (alloc : Z -> bool) (new : option loc) (now : Z) (old : entry) (id : list Z) (c : cache) :
    M (option loc * cache) :=
  match new with
  | None => Ok (None, c)
  | Some p =>
      pmk ← get (e_pmk old) 0 (e_pmk_len old);
      pmk32 ← blit (replicate (Z.to_nat PMK_LEN) 0) 0 pmk;
      let e := mkEntry None None id pmk32 (e_pmk_len old) (e_expiration old) (e_akmp old) (e_spa old)
                 (copy_bytes alloc (e_identity old)) (copy_bytes alloc (e_cui old)) (radius_copy_class alloc (e_class old))
                 (e_eap_type old) (e_vlan_id old) true 0 0 in
      let c := mkCache (<[p := e]> (heap c)) (pmkid_hash c) (pmksa_head c) (pmksa_count c) (timeout c) (freed c) in
      c ← pmksa_cache_link_entry now p c;
      Ok (Some p, c)
  end.

Definition pmksa_cache_get_okc (aa spa id : list Z) (c : cache) : M (option loc) :=
  search by_next (fuel_of (heap c)) (heap c)
    (fun e =>
       if bool_decide (e_spa e = spa) then
         pmk ← get (e_pmk e) 0 (e_pmk_len e);
         new_pmkid ← rsn_pmkid pmk aa spa (wpa_key_mgmt_sha256 (e_akmp e));
         Ok (bool_decide (new_pmkid = id))
       else Ok false) (pmksa_head c).
End Add.

(** *** Initialising, freeing, RADIUS disconnect requests *)

Definition pmksa_cache_auth_init : cache := mkCache ∅ (replicate (Z.to_nat PMKID_HASH_SIZE) None) None 0 None [].

Fixpoint deinit_loop (fuel : nat) (h : gmap loc entry) (pos : option loc) : M (gmap loc entry) :=
  match fuel with
  | O => Err OutOfFuel
  | S fuel =>
      match pos with
      | None => Ok h
      | Some p => e ← deref h p; deinit_loop fuel (delete p h) (e_next e)
      end
  end.

(** what is left in the heap *)
Definition pmksa_cache_auth_deinit (c : cache) : M (gmap loc entry) :=
  deinit_loop (fuel_of (heap c)) (heap c) (pmksa_head c).

(** the attributes of a request: the members of struct radius_das_attrs that are read *)
Record das_attrs : Type := mkDas {
  d_sta_addr : option (list Z);
  d_acct_session_id : option (list Z);
  d_acct_multi_session_id : option (list Z);
  d_cui : option (list Z);
  d_user_name : option (list Z) }.

(** the last [n] digits of %X *)
Fixpoint hex_digits (n : nat) (v : Z) : list Z :=
  match n with
  | O => []
  | S n => hex_digits n (v / 16) ++ [if v mod 16 <? 10 then 48 + v mod 16 else 55 + v mod 16]
  end.

(** "%08X+%08X" *)
Definition multi_session_id (hi lo : Z) : list Z := hex_digits 8 (u32 hi) ++ [43] ++ hex_digits 8 (u32 lo).

Definition das_attr_match (e : entry) (a : das_attrs) : Z :=
  let bad {A} (o : option A) (b : A -> bool) := match o with Some x => negb (b x) | None => false end in
  let one {A} (o : option A) := match o with Some _ => 1 | None => 0 end in
  if bad (d_sta_addr a) (fun x => bool_decide (x = e_spa e)) ||
     bad (d_acct_multi_session_id a) (fun x => (zlen x =? 17) && bool_decide (x = multi_session_id (e_multi_hi e) (e_multi_lo e))) ||
     bad (d_cui a) (fun x => bool_decide (e_cui e = Some x)) ||
     bad (d_user_name a) (fun x => bool_decide (e_identity e = Some x)) then 0
  else one (d_sta_addr a) + one (d_acct_multi_session_id a) + one (d_cui a) + one (d_user_name a).

Fixpoint das_loop (fuel : nat) (a : das_attrs) (pos : option loc) (found : Z) (c : cache) : M (Z * cache) :=
  match fuel with
  | O => Err OutOfFuel
  | S fuel =>
      match pos with
      | None => Ok (found, c)
      | Some p =>
          e ← deref (heap c) p;
          if negb (das_attr_match e a =? 0) then
            c ← pmksa_cache_free_entry p c; das_loop fuel a (e_next e) (found + 1) c
          else das_loop fuel a (e_next e) found c
      end
  end.

Definition pmksa_cache_auth_radius_das_disconnect (a : das_attrs) (c : cache) : M (Z * cache) :=
  match d_acct_session_id a with
  | Some _ => Ok (-1, c)
  | None =>
      '(found, c) ← das_loop (fuel_of (heap c)) a (pmksa_head c) 0 c;
      Ok (if found =? 0 then -1 else 0, c)
  end.

(** ** Lists in the heap *)

Definition erase (e : entry) : entry := set_next None (set_hnext None e).

Class LinkLaws (L : link) : Prop := {
  follow_relink n e : follow L (relink L n e) = n;
  erase_relink n e : erase (relink L n e) = erase e }.

#[export] Instance by_next_laws : LinkLaws by_next.
Proof. by split. Qed.
#[export] Instance by_hash_laws : LinkLaws by_hash.
Proof. by split. Qed.

(** the cells [l] from the pointer [p] up to the pointer [q] *)
Fixpoint seg (L : link) (h : gmap loc entry) (p q : option loc) (l : list loc) : Prop :=
  match l with
  | [] => p = q
  | a :: l => p = Some a /\ exists e, h !! a = Some e /\ seg L h (follow L e) q l
  end.
Abbreviation chain L h p l := (seg L h p None l).

Lemma seg_app L h p q l1 l2 : seg L h p q (l1 ++ l2) <-> exists r, seg L h p r l1 /\ seg L h r q l2.
Proof.
  revert p. induction l1 as [|a l1 IH]; intros p; cbn.
  - split; [by exists p|]. by intros (r & -> & ?).
  - split.
    + intros (-> & e & He & H). apply IH in H as (r & H1 & H2). exists r. split; [|done]. split; [done|]. by exists e.
    + intros (r & (-> & e & He & H1) & H2). split; [done|]. exists e. split; [done|]. apply IH. by exists r.
Qed.

Lemma seg_snoc L h p q l a : seg L h p q (l ++ [a]) <-> seg L h p (Some a) l /\ exists e, h !! a = Some e /\ follow L e = q.
Proof.
  rewrite seg_app. cbn. split.
  - by intros (r & H & -> & e & He & Hq); split; [|exists e].
  - intros (H & e & He & Hq). exists (Some a). split; [done|]. split; [done|]. by exists e.
Qed.

(** a heap that agrees on the links of [l] has the same segments *)
Lemma seg_mono L h h' p q l : (forall a, a ∈ l -> follow L <$> h' !! a = follow L <$> h !! a) -> seg L h p q l -> seg L h' p q l.
Proof.
  revert p. induction l as [|a l IH]; intros p Hh; cbn; [done|]. intros (-> & e & He & H). split; [done|].
  specialize (Hh a (list_elem_of_here _ _)) as Ha. rewrite He in Ha. destruct (h' !! a) as [e'|] eqn:E'; [|done]. injection Ha as Ha.
  exists e'. split; [done|]. rewrite Ha. apply IH; [|done]. intros b Hb. apply Hh. by apply list_elem_of_further.
Qed.

Lemma seg_insert_ne L h p q l b e : b ∉ l -> seg L h p q l -> seg L (<[b := e]> h) p q l.
Proof. intros Hb. apply seg_mono. intros a Ha. by rewrite lookup_insert_ne by (intros ->; by apply Hb). Qed.

Lemma seg_delete_ne L h p q l b : b ∉ l -> seg L h p q l -> seg L (delete b h) p q l.
Proof. intros Hb. apply seg_mono. intros a Ha. by rewrite lookup_delete_ne by (intros ->; by apply Hb). Qed.

Lemma seg_elem L h p q l a : seg L h p q l -> a ∈ l -> is_Some (h !! a).
Proof.
  revert p. induction l as [|b l IH]; intros p; cbn; [by intros _ ?%elem_of_nil|]. intros (-> & e & He & H) [->|Ha]%elem_of_cons; [by exists e|].
  exact (IH _ H Ha).
Qed.

(** [h'] differs from [h] in links of kind [L] only *)
Definition relinked (L : link) (h h' : gmap loc entry) : Prop :=
  forall p, match h !! p, h' !! p with
            | Some e, Some e' => exists n, e' = relink L n e
            | None, None => True
            | _, _ => False
            end.

Lemma relinked_refl L h : (forall e, relink L (follow L e) e = e) -> relinked L h h.
Proof. intros HL p. destruct (h !! p) as [e|]; [|done]. exists (follow L e). by rewrite HL. Qed.

Lemma relinked_modify L h p e n : (forall e, relink L (follow L e) e = e) -> h !! p = Some e -> relinked L h (<[p := relink L n e]> h).
Proof.
  intros HL He q. destruct (decide (q = p)) as [->|Hne].
  - rewrite lookup_insert, He. rewrite decide_True by done. by exists n.
  - rewrite lookup_insert_ne by done. destruct (h !! q) as [e'|]; [|done]. exists (follow L e'). by rewrite HL.
Qed.

Lemma relinked_erase L `{!LinkLaws L} h h' p : relinked L h h' -> erase <$> h' !! p = erase <$> h !! p.
Proof. intros H. specialize (H p). destruct (h !! p), (h' !! p); try done. destruct H as [n ->]. cbn. by rewrite erase_relink. Qed.

Lemma relinked_other L L' h h' p q l : (forall n e, follow L' (relink L n e) = follow L' e) -> relinked L h h' ->
  seg L' h p q l -> seg L' h' p q l.
Proof.
  intros HL H. apply seg_mono. intros a _. specialize (H a). destruct (h !! a), (h' !! a); try done. destruct H as [n ->]. cbn. by rewrite HL.
Qed.

Lemma seg_lookup L h p q l a e : seg L h p q (a :: l) -> h !! a = Some e -> seg L h (follow L e) q l.
Proof. intros (_ & e' & He' & H) He. congruence. Qed.

Definition drop_loc (p : loc) (l : list loc) : list loc := filter (fun q => q ≠ p) l.

Lemma drop_loc_id p l : p ∉ l -> drop_loc p l = l.
Proof.
  unfold drop_loc. induction l as [|q l IH]; [done|]. intros [Hq Hl]%not_elem_of_cons.
  rewrite filter_cons_True by congruence. by rewrite IH.
Qed.

Lemma drop_loc_app p l1 l2 : drop_loc p (l1 ++ l2) = drop_loc p l1 ++ drop_loc p l2.
Proof. unfold drop_loc. by rewrite list.filter_app. Qed.

Lemma drop_loc_here p l : drop_loc p (p :: l) = drop_loc p l.
Proof. unfold drop_loc. rewrite filter_cons_False; [done|]. intros H. by apply H. Qed.

Lemma elem_of_drop_loc p q l : q ∈ drop_loc p l <-> q <> p /\ q ∈ l.
Proof. unfold drop_loc. rewrite list_elem_of_filter. done. Qed.

Section Unlink.
Context (L : link) `{!LinkLaws L} (relink_same : forall e, relink L (follow L e) e = e).

Lemma unlink_ok fuel h head prev pos l1 l2 target :
  seg L h head pos l1 -> chain L h pos l2 -> NoDup (l1 ++ l2) -> target ∉ l1 -> prev = list.last l1 -> (length l2 < fuel)%nat ->
  safe (unlink L fuel h head pos prev target) (fun r =>
    chain L r.1 r.2 (drop_loc target (l1 ++ l2)) /\ relinked L h r.1 /\ forall q, q ∉ l1 ++ l2 -> r.1 !! q = h !! q).
Proof.
  revert fuel pos prev l1. induction l2 as [|a l2 IH]; intros [|fuel] pos prev l1 H1 H2 Hnd Ht -> Hf; try (cbn in Hf; lia).
  - cbn in H2. subst pos. cbn [unlink]. unfold safe. cbn [fst snd]. rewrite app_nil_r, drop_loc_id by done.
    split; [done|]. split; [by apply relinked_refl|done].
  - destruct H2 as (-> & e & He & H2). cbn [unlink]. unfold deref at 1. rewrite He, bind_ok.
    apply NoDup_app in Hnd as (Hn1 & Hdis & Hn2). apply NoDup_cons in Hn2 as [Ha Hn2]. destruct (decide (a = target)) as [->|Hne].
    + rewrite drop_loc_app, drop_loc_here, (drop_loc_id _ l1), (drop_loc_id _ l2) by done.
      destruct l1 as [|b l1 _] using rev_ind; cbn [list.last].
      * unfold safe. cbn [fst snd app]. split; [done|]. split; [by apply relinked_refl|done].
      * rewrite list.last_snoc. apply seg_snoc in H1 as (H1 & eb & Heb & Hbn). unfold modify, deref. rewrite Heb, bind_ok, bind_ok.
        unfold safe. cbn [fst snd]. split; [|split; [by apply relinked_modify|]].
        2: { intros q Hq. rewrite lookup_insert_ne; [done|]. intros <-. apply Hq, elem_of_app. left. apply elem_of_app. right. apply list_elem_of_here. }
        apply NoDup_app in Hn1 as (_ & Hb & _). assert (b ∉ l1) as Hbl by (intros Hin; by apply (Hb b Hin), list_elem_of_here).
        assert (b ∉ l2) as Hbl2.
        { intros Hin. apply (Hdis b); [apply elem_of_app; right; apply list_elem_of_here|by apply list_elem_of_further]. }
        apply seg_app. exists (follow L e). split; [|by apply seg_insert_ne].
        apply seg_snoc. split; [by apply seg_insert_ne|]. exists (relink L (follow L e) eb).
        rewrite lookup_insert, decide_True by done. split; [done|apply follow_relink].
    + assert (l1 ++ a :: l2 = (l1 ++ [a]) ++ l2) as -> by by rewrite <- app_assoc. apply IH.
      * apply seg_snoc. split; [done|]. by exists e.
      * done.
      * rewrite <- app_assoc. cbn. apply NoDup_app. split; [done|]. split; [done|]. by apply NoDup_cons.
      * intros [?|?%list_elem_of_singleton]%elem_of_app; [done|]. by subst.
      * by rewrite list.last_snoc.
      * cbn in Hf. lia.
Qed.
End Unlink.

Lemma length_le_size (h : gmap loc entry) (l : list loc) : NoDup l -> (forall a, a ∈ l -> is_Some (h !! a)) -> (length l <= size h)%nat.
Proof.
  intros Hn Hl. rewrite <- (size_list_to_set (C := gset loc) l Hn), <- (size_dom (D := gset loc) h). apply subseteq_size.
  intros a Ha. apply elem_of_list_to_set in Ha. apply elem_of_dom. by apply Hl.
Qed.

Lemma chain_fuel L h p l : NoDup l -> chain L h p l -> (length l < fuel_of h)%nat.
Proof.
  intros Hn H. unfold fuel_of. pose proof (length_le_size h l Hn) as Hs. specialize (Hs (fun a => seg_elem L h p None l a H)). lia.
Qed.

(** ** The representation invariant *)

Definition hash_of (e : entry) : Z := Z.land (hd 0 (e_pmkid e)) 0x7f.

(** what an entry of the cache looks like; times are seconds since the start of the host *)
Record entry_ok (e : entry) : Prop := {
  ok_pmkid : zlen (e_pmkid e) = 16 /\ bytes (e_pmkid e);
  ok_expiration : 0 <= e_expiration e < 2 ^ 31 - 1;
  ok_pmk : zlen (e_pmk e) = PMK_LEN /\ 0 <= e_pmk_len e <= PMK_LEN }.

Definition earlier (x y : loc * entry) : Prop := e_expiration x.2 <= e_expiration y.2.

(** [X] are the entries that are allocated but not linked *)
Record rep (X : list loc) (c : cache) (l : list (loc * entry)) : Prop := {
  rep_in p e : (p, e) ∈ l -> erase <$> heap c !! p = Some e /\ p ∉ X;
  rep_all p e : heap c !! p = Some e -> p ∉ X -> (p, erase e) ∈ l;
  rep_nodup : NoDup l.*1;
  rep_list : chain by_next (heap c) (pmksa_head c) l.*1;
  rep_buckets : zlen (pmkid_hash c) = PMKID_HASH_SIZE;
  rep_bucket (i : nat) bucket : pmkid_hash c !! i = Some bucket ->
    exists b, chain by_hash (heap c) bucket b /\ NoDup b /\ forall p, p ∈ b <-> exists e, (p, e) ∈ l /\ hash_of e = Z.of_nat i;
  rep_sorted : StronglySorted earlier l;
  rep_count : pmksa_count c = zlen l;
  rep_ok : Forall (fun x => entry_ok x.2) l }.

Lemma rep_unique X c l p e e' : rep X c l -> (p, e) ∈ l -> (p, e') ∈ l -> e = e'.
Proof. intros H H1 H2. destruct (rep_in _ _ _ H _ _ H1), (rep_in _ _ _ H _ _ H2). congruence. Qed.

Lemma rep_deref X c l p e : rep X c l -> (p, e) ∈ l -> exists e', heap c !! p = Some e' /\ erase e' = e.
Proof. intros H H1. destruct (rep_in _ _ _ H _ _ H1) as [E _]. by apply fmap_Some in E as (e' & ? & ->); exists e'. Qed.

Lemma rep_fuel X c l : rep X c l -> (length l < fuel_of (heap c))%nat.
Proof. intros H. rewrite <- (length_fmap fst). apply (chain_fuel by_next _ (pmksa_head c)); apply H. Qed.

Lemma hash_range e : entry_ok e -> 0 <= hash_of e < 128.
Proof.
  intros [[Hl Hb] _ _]. unfold hash_of. destruct (e_pmkid e) as [|b id]; [done|]. cbn [hd].
  change 0x7f with (2 ^ 7 - 1). rewrite land_ones_mod by lia. apply Z.mod_pos_bound. lia.
Qed.

Lemma PMKID_HASH_ok e : entry_ok e -> PMKID_HASH (e_pmkid e) = Ok (hash_of e).
Proof. intros [[Hl Hb] _ _]. unfold PMKID_HASH, hash_of. by destruct (e_pmkid e). Qed.

Lemma entry_ok_erase e : entry_ok (erase e) <-> entry_ok e.
Proof. split; intros []; by split. Qed.

Definition remove (p : loc) (l : list (loc * entry)) : list (loc * entry) := filter (fun x => x.1 ≠ p) l.

Lemma remove_locs p l : (remove p l).*1 = drop_loc p l.*1.
Proof.
  induction l as [|[q e] l IH]; [done|]. unfold remove, drop_loc in *. rewrite fmap_cons, !filter_cons. cbn [fst].
  destruct (decide (q ≠ p)); [rewrite fmap_cons; cbn [fst]|]; by rewrite IH.
Qed.

Lemma elem_of_remove p x l : x ∈ remove p l <-> x.1 <> p /\ x ∈ l.
Proof. unfold remove. by rewrite list_elem_of_filter. Qed.

Lemma remove_length p e l : NoDup l.*1 -> (p, e) ∈ l -> zlen (remove p l) = zlen l - 1.
Proof.
  induction l as [|[q e'] l IH]; [by intros _ ?%elem_of_nil|]. rewrite fmap_cons. cbn [fst].
  intros [Hq Hn]%NoDup_cons [[= -> ->]|Hin]%elem_of_cons.
  - unfold remove. rewrite filter_cons_False by (cbn; auto). fold (remove q l). rewrite zlen_cons. replace (remove q l) with l; [lia|].
    symmetry. unfold remove. clear -Hq. induction l as [|[r e] l IH]; [done|]. cbn in Hq. apply not_elem_of_cons in Hq as [Hr Hq].
    rewrite filter_cons_True by (cbn; congruence). by rewrite IH.
  - unfold remove. rewrite filter_cons_True; [|cbn; intros ->; apply Hq, (list_elem_of_fmap_2 fst _ _ Hin)].
    fold (remove p l). rewrite !zlen_cons, IH by done. lia.
Qed.

Lemma sorted_filter (P : loc * entry -> Prop) `{!forall x, Decision (P x)} l : StronglySorted earlier l -> StronglySorted earlier (filter P l).
Proof.
  induction 1 as [|x l Hs IH Hf]; [constructor|]. rewrite filter_cons. destruct (decide (P x)); [|done].
  constructor; [done|]. apply Forall_forall. intros y Hy. apply list_elem_of_filter in Hy as [_ Hy]. exact (proj1 (Forall_forall _ _) Hf y Hy).
Qed.

Lemma hnext_same e : relink by_hash (follow by_hash e) e = e.
Proof. by destruct e. Qed.
Lemma next_same e : relink by_next (follow by_next e) e = e.
Proof. by destruct e. Qed.

Lemma rep_bucket_of X c l p e : rep X c l -> (p, e) ∈ l ->
  exists bucket b, rd (pmkid_hash c) (hash_of e) = Ok bucket /\ chain by_hash (heap c) bucket b /\ NoDup b /\ p ∈ b /\
    forall q, q ∈ b <-> exists e', (q, e') ∈ l /\ hash_of e' = hash_of e.
Proof.
  intros H Hin. pose proof (hash_range e (proj1 (Forall_forall _ _) (rep_ok _ _ _ H) _ Hin)) as Hr.
  destruct (rd_in_range (pmkid_hash c) (hash_of e)) as [bucket E]; [rewrite (rep_buckets _ _ _ H); unfold PMKID_HASH_SIZE; lia|].
  pose proof E as E'. apply rd_lookup in E'; [|lia]. destruct (rep_bucket _ _ _ H _ _ E') as (b & H1 & H2 & H3).
  rewrite Z2Nat.id in H3 by lia. exists bucket, b. split_and!; try done. apply H3. by exists e.
Qed.

(** the hash chains when [p] is taken out of its own *)
Lemma bucket_freed X c l p e h1 h2 bucket b : rep X c l -> (p, e) ∈ l -> entry_ok e -> NoDup b ->
  (forall q, q ∈ b <-> exists e', (q, e') ∈ l /\ hash_of e' = hash_of e) -> chain by_hash h1 bucket (drop_loc p b) ->
  (forall q, q ∉ b -> h1 !! q = heap c !! q) -> relinked by_next h1 h2 ->
  forall (i : nat) bk, <[Z.to_nat (hash_of e) := bucket]> (pmkid_hash c) !! i = Some bk ->
  exists b, chain by_hash (delete p h2) bk b /\ NoDup b /\ forall q, q ∈ b <-> exists e', (q, e') ∈ remove p l /\ hash_of e' = Z.of_nat i.
Proof.
  intros H Hin Hok Hbn Hbin Hb1 Same1 R2 i bk Ei. pose proof (hash_range _ Hok) as Hr.
  apply list_lookup_insert_Some in Ei as [(<- & <- & _)|[Hi Ei]].
  - exists (drop_loc p b). split; [|split].
    + apply seg_delete_ne; [by intros [? _]%elem_of_drop_loc|].
      by apply (relinked_other by_next by_hash _ _ _ _ _ (fun _ _ => eq_refl) R2).
    + by apply NoDup_filter.
    + intros q. rewrite elem_of_drop_loc, Hbin, Z2Nat.id by lia. setoid_rewrite elem_of_remove. naive_solver.
  - destruct (rep_bucket _ _ _ H _ _ Ei) as (b' & Hb' & Hbn' & Hbin').
    assert (p ∉ b') as Hpb'.
    { intros Hc. apply Hbin' in Hc as (e' & He' & Hh). rewrite (rep_unique _ _ _ _ _ _ H He' Hin) in Hh. lia. }
    exists b'. split; [|split; [done|]].
    + apply seg_delete_ne; [done|]. apply (relinked_other by_next by_hash _ _ _ _ _ (fun _ _ => eq_refl) R2).
      eapply seg_mono; [|exact Hb']. intros q Hq. rewrite Same1; [done|]. intros Hq2. apply Hbin in Hq2 as (e2 & He2 & Hh2).
      apply Hbin' in Hq as (e3 & He3 & Hh3). rewrite (rep_unique _ _ _ _ _ _ H He3 He2) in Hh3. lia.
    + intros q. rewrite Hbin'. setoid_rewrite elem_of_remove. split; [|naive_solver].
      intros (e' & He' & Hh). exists e'. split; [|done]. split; [|done]. cbn. intros ->. apply Hpb', Hbin'. by exists e'.
Qed.

(** what freeing [p] leaves *)
Record freed_from (X : list loc) (c : cache) (l : list (loc * entry)) (p : loc) (c' : cache) : Prop := {
  f_rep : rep X c' (remove p l);
  f_freed : freed c' = p :: freed c;
  f_timeout : timeout c' = timeout c;
  f_heap q : q <> p -> erase <$> heap c' !! q = erase <$> heap c !! q }.

Lemma pmksa_cache_free_entry_ok X c l p e : rep X c l -> (p, e) ∈ l -> safe (pmksa_cache_free_entry p c) (freed_from X c l p).
Proof.
  intros H Hin. destruct (rep_deref _ _ _ _ _ H Hin) as (e0 & E0 & <-). unfold pmksa_cache_free_entry, deref. rewrite E0, bind_ok.
  assert (entry_ok e0) as Hok by (apply entry_ok_erase; exact (proj1 (Forall_forall _ _) (rep_ok _ _ _ H) _ Hin)).
  rewrite PMKID_HASH_ok, bind_ok by done.
  destruct (rep_bucket_of _ _ _ _ _ H Hin) as (bucket & b & Erd & Hb & Hbn & Hpb & Hbin). change (hash_of (erase e0)) with (hash_of e0) in *.
  rewrite Erd, bind_ok.
  eapply safe_bind.
  { apply (unlink_ok by_hash hnext_same (fuel_of (heap c)) (heap c) bucket None bucket [] b p); try done; [by apply not_elem_of_nil|].
    by apply (chain_fuel by_hash _ bucket). }
  intros [h1 bucket1] (Hb1 & R1 & Same1). cbn [fst snd app] in *.
  rewrite wr_ok by (apply rd_Ok_range in Erd; lia). rewrite bind_ok.
  pose proof (relinked_other by_hash by_next _ _ _ _ _ (fun _ _ => eq_refl) R1 (rep_list _ _ _ H)) as Hl1.
  eapply safe_bind.
  { apply (unlink_ok by_next next_same (fuel_of h1) h1 (pmksa_head c) None (pmksa_head c) [] l.*1 p); try done;
      [apply (rep_nodup _ _ _ H)|by apply not_elem_of_nil|]. apply (chain_fuel by_next _ (pmksa_head c)); [apply (rep_nodup _ _ _ H)|done]. }
  intros [h2 head2] (Hl2 & R2 & _). cbn [fst snd app] in *.
  assert (forall q, q <> p -> erase <$> delete p h2 !! q = erase <$> heap c !! q) as Hheap.
  { intros q Hq. rewrite lookup_delete_ne, (relinked_erase _ _ _ _ R2), (relinked_erase _ _ _ _ R1) by done. done. }
  unfold safe. split; try done. split; cbn [heap pmkid_hash pmksa_head pmksa_count].
  - intros q e [Hq Hqi]%elem_of_remove. cbn in Hq. rewrite Hheap by done. by apply (rep_in _ _ _ H).
  - intros q e Eq Hx. destruct (decide (q = p)) as [->|Hq]; [by rewrite lookup_delete, decide_True in Eq|].
    apply elem_of_remove. split; [done|]. pose proof (Hheap q Hq) as E. rewrite Eq in E.
    destruct (heap c !! q) as [e'|] eqn:Eq'; [|done]. apply (inj Some) in E. rewrite E. by apply (rep_all _ _ _ H).
  - rewrite remove_locs. apply NoDup_filter. apply (rep_nodup _ _ _ H).
  - rewrite remove_locs. apply seg_delete_ne; [|done]. by intros [? _]%elem_of_drop_loc.
  - unfold zlen. rewrite length_insert. apply (rep_buckets _ _ _ H).
  - apply (bucket_freed X c l p (erase e0) h1 h2 bucket1 b); try done. by apply entry_ok_erase.
  - apply sorted_filter, (rep_sorted _ _ _ H).
  - rewrite (rep_count _ _ _ H), (remove_length p (erase e0)); [done|apply (rep_nodup _ _ _ H)|done].
  - apply Forall_forall. intros x Hx. apply elem_of_remove in Hx as [_ Hx]. exact (proj1 (Forall_forall _ _) (rep_ok _ _ _ H) _ Hx).
Qed.

(** ** Expiration *)

Definition deadline (now : Z) (l : list (loc * entry)) : option Z :=
  match l with [] => None | x :: _ => Some (Z.max (e_expiration x.2 - now) 0 + 1) end.

Lemma rep_head X c l : rep X c l -> pmksa_head c = fst <$> head l.
Proof. intros H. pose proof (rep_list _ _ _ H) as Hl. destruct l as [|[p e] l]; [done|]. by destruct Hl as [-> _]. Qed.

(** the cache may differ in what the invariant does not see *)
Lemma rep_frame X c l t f : rep X c l -> rep X (mkCache (heap c) (pmkid_hash c) (pmksa_head c) (pmksa_count c) t f) l.
Proof. intros []. by split. Qed.

Lemma set_expiration_ok X c l now : rep X c l -> 0 <= now < 2 ^ 31 ->
  pmksa_cache_set_expiration now c = Ok (mkCache (heap c) (pmkid_hash c) (pmksa_head c) (pmksa_count c) (deadline now l) (freed c)).
Proof.
  intros H Hnow. unfold pmksa_cache_set_expiration. rewrite (rep_head _ _ _ H). destruct l as [|[p e] l]; [done|]. cbn [head fmap option_fmap option_map fst].
  destruct (rep_deref _ _ _ p e H (list_elem_of_here _ _)) as (e' & E & <-). unfold deref. rewrite E, bind_ok.
  pose proof (ok_expiration _ (proj1 (Forall_forall _ _) (rep_ok _ _ _ H) _ (list_elem_of_here _ _))) as Hx. cbn [snd] in Hx.
  change (e_expiration (erase e')) with (e_expiration e') in Hx. rewrite i32_small by lia. cbv zeta.
  assert ((if e_expiration e' - now <? 0 then 0 else e_expiration e' - now) = Z.max (e_expiration e' - now) 0) as -> by (case_match; lia).
  replace (Z.max _ _ =? _) with false by lia. done.
Qed.

Definition unexpired (now : Z) (l : list (loc * entry)) : list (loc * entry) := filter (fun x => now < e_expiration x.2) l.

Lemma remove_head p e l : NoDup (p :: l.*1) -> remove p ((p, e) :: l) = l.
Proof.
  intros [Hp _]%NoDup_cons. unfold remove. rewrite filter_cons_False by (cbn; auto).
  induction l as [|[q e'] l IH]; [done|]. apply not_elem_of_cons in Hp as [Hq Hp].
  rewrite filter_cons_True by (cbn in *; congruence). by rewrite IH.
Qed.

Lemma unexpired_all now l : Forall (fun x => now < e_expiration x.2) l -> unexpired now l = l.
Proof.
  induction 1 as [|x l Hx _ IH]; [done|]. unfold unexpired in *. by rewrite filter_cons_True, IH.
Qed.

Lemma expire_loop_ok X fuel now c l : rep X c l -> (length l < fuel)%nat ->
  safe (expire_loop fuel now c) (fun c' => rep X c' (unexpired now l)).
Proof.
  revert fuel c. induction l as [|[p e] l IH]; intros [|fuel] c H Hf; try (cbn in Hf; lia); cbn [expire_loop];
    rewrite (rep_head _ _ _ H); [done|].
  cbn [head fmap option_fmap option_map fst]. pose proof (list_elem_of_here (p, e) l) as Hin.
  destruct (rep_deref _ _ _ p e H Hin) as (e' & E & <-). unfold deref. rewrite E, bind_ok.
  pose proof (rep_sorted _ _ _ H) as Hs. apply StronglySorted_inv in Hs as [_ Hs].
  destruct (e_expiration e' <=? now) eqn:Ex.
  - eapply safe_bind; [apply (pmksa_cache_free_entry_ok _ _ _ _ _ H Hin)|]. intros c' [H' _ _ _].
    rewrite remove_head in H' by apply (rep_nodup _ _ _ H).
    unfold unexpired. rewrite filter_cons_False by (cbn; lia). apply IH; [done|cbn in Hf; lia].
  - unfold safe. rewrite unexpired_all; [done|]. constructor; [cbn; lia|].
    eapply Forall_impl; [exact Hs|]. intros x Hx. unfold earlier in Hx. cbn in Hx. lia.
Qed.

(** ** Adding an entry *)

Fixpoint place (x : loc * entry) (l : list (loc * entry)) : list (loc * entry) :=
  match l with
  | [] => [x]
  | y :: l' => if e_expiration x.2 <? e_expiration y.2 then x :: l else y :: place x l'
  end.

Lemma place_perm x l : place x l ≡ₚ x :: l.
Proof.
  induction l as [|y l IH]; [done|]. cbn [place]. case_match; [done|]. rewrite IH. apply Permutation_swap.
Qed.

Lemma place_sorted x l : StronglySorted earlier l -> StronglySorted earlier (place x l).
Proof.
  induction 1 as [|y l Hs IH Hf]; cbn [place]; [repeat constructor|]. destruct (_ <? _) eqn:E.
  - constructor; [by constructor|]. constructor; [unfold earlier; lia|]. eapply Forall_impl; [exact Hf|]. unfold earlier. intros z. lia.
  - constructor; [done|]. rewrite place_perm. constructor; [unfold earlier; lia|done].
Qed.

Lemma place_split x l1 l2 : Forall (fun y => e_expiration y.2 <= e_expiration x.2) l1 ->
  match l2 with [] => True | y :: _ => e_expiration x.2 < e_expiration y.2 end -> place x (l1 ++ l2) = l1 ++ x :: l2.
Proof.
  intros H1 H2. induction H1 as [|y l1 Hy _ IH]; cbn [place app].
  - destruct l2 as [|y l2]; [done|]. cbn [place]. by replace (_ <? _) with true by lia.
  - replace (_ <? _) with false by lia. by rewrite IH.
Qed.

Lemma find_place_ok X c l fuel x pos prev l1 l2 : rep X c l -> l = l1 ++ l2 -> chain by_next (heap c) pos l2.*1 ->
  prev = list.last l1.*1 -> Forall (fun y => e_expiration y.2 <= x) l1 -> (length l2 < fuel)%nat ->
  exists l1' l2', l = l1' ++ l2' /\ find_place fuel (heap c) x pos prev = Ok (list.last l1'.*1) /\
    Forall (fun y => e_expiration y.2 <= x) l1' /\ match l2' with [] => True | y :: _ => x < e_expiration y.2 end.
Proof.
  intros H. revert fuel pos prev l1. induction l2 as [|[p e] l2 IH]; intros [|fuel] pos prev l1 El Hc -> H1 Hf; try (cbn in Hf; lia).
  - cbn in Hc. subst pos. exists l1, []. by split_and!.
  - destruct Hc as (-> & e' & E & Hc). cbn [find_place]. unfold deref. rewrite E, bind_ok.
    assert (erase e' = e) as <-.
    { destruct (rep_deref _ _ _ p e H) as (e2 & E2 & <-); [subst l; apply elem_of_app; right; apply list_elem_of_here|]. cbn in E. congruence. }
    destruct (x <? e_expiration e') eqn:Ex.
    + exists l1, ((p, erase e') :: l2). split_and!; try done. cbn. lia.
    + apply (IH fuel _ _ (l1 ++ [(p, erase e')])); [subst l; by rewrite <-app_assoc|done| | |cbn in Hf; lia].
      * rewrite fmap_app. change ([(p, erase e')].*1) with [p]. by rewrite list.last_snoc.
      * apply Forall_app. split; [done|]. constructor; [cbn; lia|constructor].
Qed.

Lemma modify_relinks L `{!LinkLaws L} h p e n : (forall e, relink L (follow L e) e = e) -> h !! p = Some e ->
  modify (relink L n) h p = Ok (<[p := relink L n e]> h) /\ relinked L h (<[p := relink L n e]> h).
Proof. intros HL E. unfold modify, deref. rewrite E, bind_ok. split; [done|]. by apply relinked_modify. Qed.

Lemma relinked_trans L h1 h2 h3 : (forall n m e, relink L n (relink L m e) = relink L n e) ->
  relinked L h1 h2 -> relinked L h2 h3 -> relinked L h1 h3.
Proof.
  intros HL H1 H2 p. specialize (H1 p). specialize (H2 p). destruct (h1 !! p), (h2 !! p), (h3 !! p); try done.
  destruct H1 as [n ->], H2 as [m ->]. exists m. apply HL.
Qed.

(** the list part of [pmksa_cache_link_entry] *)
Definition link_next (p : loc) (prev head : option loc) (h : gmap loc entry) : M (gmap loc entry * option loc) :=
  match prev with
  | None => h ← modify (set_next head) h p; Ok (h, Some p)
  | Some q => eq ← deref h q; h ← modify (set_next (e_next eq)) h p; h ← modify (set_next (Some p)) h q; Ok (h, head)
  end.

Lemma link_next_ok h head l1 l2 p e : chain by_next h head (l1 ++ l2) -> NoDup (l1 ++ l2) -> p ∉ l1 ++ l2 -> h !! p = Some e ->
  safe (link_next p (list.last l1) head h) (fun r => chain by_next r.1 r.2 (l1 ++ p :: l2) /\ relinked by_next h r.1).
Proof.
  intros Hc Hn Hp E. apply not_elem_of_app in Hp as [Hp1 Hp2]. destruct l1 as [|q l1 _] using rev_ind; [cbn [list.last]|rewrite list.last_snoc]; cbn [link_next].
  - destruct (modify_relinks by_next h p e head next_same E) as [E1 R]. change (set_next head) with (relink by_next head). rewrite E1, bind_ok.
    unfold safe. cbn [fst snd app]. split; [|done]. split; [done|]. exists (set_next head e). rewrite lookup_insert, decide_True by done.
    split; [done|]. by apply seg_insert_ne.
  - rewrite <-app_assoc in Hc, Hn. cbn [app] in Hc, Hn. apply seg_app in Hc as (r & H1 & -> & eq & Eq & H2).
    apply NoDup_app in Hn as (Hn1 & Hdis & Hn2). apply NoDup_cons in Hn2 as [Hq2 Hn2].
    assert (q ∉ l1) as Hq1 by (intros Hin; by apply (Hdis q Hin), list_elem_of_here).
    apply not_elem_of_app in Hp1 as [Hp1 Hpq]. assert (p <> q) as Hpq' by (intros ->; by apply Hpq, list_elem_of_singleton).
    unfold deref at 1. rewrite Eq, bind_ok. change set_next with (relink by_next).
    destruct (modify_relinks by_next h p e (e_next eq) next_same E) as [-> R1]. rewrite bind_ok.
    assert (<[p := relink by_next (e_next eq) e]> h !! q = Some eq) as Eq' by (by rewrite lookup_insert_ne by done).
    destruct (modify_relinks by_next _ q eq (Some p) next_same Eq') as [-> R2]. rewrite bind_ok.
    unfold safe. cbn [fst snd]. split; [|by apply (relinked_trans by_next _ _ _ (fun _ _ _ => eq_refl) R1)].
    rewrite <-app_assoc. cbn [app]. apply seg_app. exists (Some q). split; [apply seg_insert_ne; [done|]; by apply seg_insert_ne|]. split; [done|].
    exists (relink by_next (Some p) eq). rewrite lookup_insert, decide_True by done. split; [done|]. split; [done|].
    exists (relink by_next (e_next eq) e). rewrite lookup_insert_ne by done. rewrite lookup_insert, decide_True by done. split; [done|].
    apply seg_insert_ne; [done|]. by apply seg_insert_ne.
Qed.

Lemma last_locs (l : list (loc * entry)) : list.last l.*1 = None -> l = [].
Proof. destruct l as [|y l _] using rev_ind; [done|]. rewrite fmap_app. change ([y].*1) with [y.1]. by rewrite list.last_snoc. Qed.

Record linked (X : list loc) (c : cache) (l : list (loc * entry)) (x : loc * entry) (now : Z) (c' : cache) : Prop := {
  k_rep : rep X c' (place x l);
  k_freed : freed c' = freed c;
  k_timeout : timeout c' = if decide (fst <$> head (place x l) = Some x.1) then deadline now (place x l) else timeout c }.

(** the hash chains when [p] is put in front of its own *)
Lemma bucket_placed X c l p e h1 h2 bucket b : rep (p :: X) c l -> heap c !! p = Some e -> entry_ok e ->
  rd (pmkid_hash c) (hash_of e) = Ok bucket -> chain by_hash (heap c) bucket b -> NoDup b ->
  (forall q, q ∈ b <-> exists e', (q, e') ∈ l /\ hash_of e' = Z.of_nat (Z.to_nat (hash_of e))) ->
  relinked by_next (heap c) h1 -> (exists e1, h2 = <[p := relink by_hash bucket e1]> h1) ->
  forall (i : nat) bk, <[Z.to_nat (hash_of e) := Some p]> (pmkid_hash c) !! i = Some bk ->
  exists b, chain by_hash h2 bk b /\ NoDup b /\ forall q, q ∈ b <-> exists e', (q, e') ∈ place (p, erase e) l /\ hash_of e' = Z.of_nat i.
Proof.
  intros H E Hok Erd B1 B2 B3 R1 [e1 ->] i bk Ei. pose proof (hash_range _ Hok) as Hr.
  assert (forall (b : list loc) j, (forall q, q ∈ b <-> exists e', (q, e') ∈ l /\ hash_of e' = j) -> p ∉ b) as Hpb.
  { intros b' j Hb' Hp. apply Hb' in Hp as (e' & He' & _). destruct (rep_in _ _ _ H _ _ He') as [_ Hx]. by apply Hx, list_elem_of_here. }
  apply list_lookup_insert_Some in Ei as [(<- & <- & _)|[Hi Ei]].
  - exists (p :: b). pose proof (Hpb _ _ B3) as Hp. split; [|split; [by apply NoDup_cons|]].
    + split; [done|]. exists (relink by_hash bucket e1). rewrite lookup_insert, decide_True by done. split; [done|].
      apply seg_insert_ne; [done|]. by apply (relinked_other by_next by_hash _ _ _ _ _ (fun _ _ => eq_refl) R1).
    + intros q. setoid_rewrite place_perm. setoid_rewrite elem_of_cons. rewrite B3, Z2Nat.id by lia. split.
      * intros [->|(e' & He' & Hh)]; [exists (erase e); by split; [left|]|exists e'; by split; [right|]].
      * intros (e' & [[= -> ->]|He'] & Hh); [by left|]. right. by exists e'.
  - destruct (rep_bucket _ _ _ H _ _ Ei) as (b' & C1 & C2 & C3). exists b'. pose proof (Hpb _ _ C3) as Hp. split; [|split; [done|]].
    + apply seg_insert_ne; [done|]. by apply (relinked_other by_next by_hash _ _ _ _ _ (fun _ _ => eq_refl) R1).
    + intros q. setoid_rewrite place_perm. setoid_rewrite elem_of_cons. rewrite C3. split.
      * intros (e' & He' & Hh). exists e'. by split; [right|].
      * intros (e' & [[= -> ->]|He'] & Hh); [|by exists e']. change (hash_of (erase e)) with (hash_of e) in Hh. lia.
Qed.

Lemma pmksa_cache_link_entry_ok X c l p e now : rep (p :: X) c l -> p ∉ X -> heap c !! p = Some e -> entry_ok e -> 0 <= now < 2 ^ 31 ->
  safe (pmksa_cache_link_entry now p c) (linked X c l (p, erase e) now).
Proof.
  intros H Hpx E Hok Hnow. unfold pmksa_cache_link_entry. assert (deref (heap c) p = Ok e) as -> by (unfold deref; by rewrite E). rewrite bind_ok.
  assert (p ∉ l.*1) as Hpl.
  { intros Hp. apply list_elem_of_fmap in Hp as ([q e'] & -> & Hq). destruct (rep_in _ _ _ H _ _ Hq) as [_ Hq']. by apply Hq', list_elem_of_here. }
  destruct (find_place_ok _ c l (fuel_of (heap c)) (e_expiration e) (pmksa_head c) None [] l H) as (l1 & l2 & El & -> & Hl1 & Hl2);
    [done|apply (rep_list _ _ _ H)|done|done|by eapply rep_fuel|].
  rewrite bind_ok. fold (link_next p (list.last l1.*1) (pmksa_head c) (heap c)).
  pose proof (place_split (p, erase e) l1 l2 Hl1 Hl2) as Hplace. rewrite <-El in Hplace.
  pose proof (rep_list _ _ _ H) as Hc. pose proof (rep_nodup _ _ _ H) as Hn. rewrite El, fmap_app in Hc, Hn, Hpl.
  eapply safe_bind; [by apply (link_next_ok (heap c) (pmksa_head c) l1.*1 l2.*1 p e)|]. intros [h1 head1] [C1 R1]. cbn [fst snd] in *.
  rewrite PMKID_HASH_ok, bind_ok by done. pose proof (hash_range _ Hok) as Hr.
  destruct (rd_in_range (pmkid_hash c) (hash_of e)) as [bucket Erd]; [rewrite (rep_buckets _ _ _ H); unfold PMKID_HASH_SIZE; lia|].
  rewrite Erd, bind_ok. pose proof Erd as Eb. apply rd_lookup in Eb; [|lia]. destruct (rep_bucket _ _ _ H _ _ Eb) as (b & B1 & B2 & B3).
  pose proof (R1 p) as Ep1. rewrite E in Ep1. destruct (h1 !! p) as [e1|] eqn:E1; [|done]. destruct Ep1 as [n1 ->].
  destruct (modify_relinks by_hash h1 p _ bucket hnext_same E1) as [Em R2]. change set_hnext with (relink by_hash). rewrite Em, bind_ok.
  set (h2 := <[p := _]> h1) in *. rewrite wr_ok by (rewrite (rep_buckets _ _ _ H); unfold PMKID_HASH_SIZE; lia). rewrite bind_ok.
  set (c2 := mkCache h2 _ _ _ _ _).
  assert (forall q, erase <$> h2 !! q = erase <$> heap c !! q) as Hheap.
  { intros q. by rewrite (relinked_erase _ _ _ q R2), (relinked_erase _ _ _ q R1). }
  assert (rep X c2 (place (p, erase e) l)) as H2.
  { split; cbn [heap pmkid_hash pmksa_head pmksa_count c2].
    - intros q e'. rewrite place_perm, Hheap. intros [[= -> ->]|Hq]%elem_of_cons; [by rewrite E|].
      destruct (rep_in _ _ _ H _ _ Hq) as [? Hx]. split; [done|]. intros Hqx. by apply Hx, list_elem_of_further.
    - intros q e' Eq Hx. rewrite place_perm. pose proof (Hheap q) as Eh. rewrite Eq in Eh.
      destruct (heap c !! q) as [e2|] eqn:Eq2; [|done]. apply (inj Some) in Eh. rewrite Eh. destruct (decide (q = p)) as [->|Hne].
      + rewrite E in Eq2. injection Eq2 as ->. apply list_elem_of_here.
      + apply list_elem_of_further, (rep_all _ _ _ H); [done|]. by intros [|]%elem_of_cons.
    - rewrite place_perm, fmap_cons. apply NoDup_cons. split; [by rewrite El, fmap_app|apply (rep_nodup _ _ _ H)].
    - rewrite Hplace, fmap_app, fmap_cons. exact (relinked_other by_hash by_next _ _ _ _ _ (fun _ _ => eq_refl) R2 C1).
    - unfold zlen. rewrite length_insert. apply (rep_buckets _ _ _ H).
    - apply (bucket_placed X c l p e h1 h2 bucket b); try done. by exists (relink by_next n1 e).
    - apply place_sorted, (rep_sorted _ _ _ H).
    - rewrite (rep_count _ _ _ H). unfold zlen. rewrite (Permutation_length (place_perm (p, erase e) l)). cbn [length]. lia.
    - rewrite place_perm. constructor; [by apply entry_ok_erase|apply (rep_ok _ _ _ H)]. }
  destruct (list.last l1.*1) as [q|] eqn:El1.
  - split; [done|done|]. cbn [timeout c2 fst]. rewrite decide_False; [done|]. rewrite Hplace. destruct l1 as [|y l1]; [done|]. cbn. intros [= Ep].
    apply Hpl. cbn. rewrite Ep. apply list_elem_of_here.
  - pose proof (set_expiration_ok _ _ _ _ H2 Hnow) as Es. rewrite Es. split; [by apply rep_frame|done|].
    apply last_locs in El1. subst l1. cbn [timeout]. rewrite decide_True; [done|]. by rewrite Hplace.
Qed.

(** ** Searching *)

Lemma search_ok L h fuel test (t : loc -> bool) pos ps : chain L h pos ps -> (length ps < fuel)%nat ->
  (forall p e, p ∈ ps -> h !! p = Some e -> test e = Ok (t p)) ->
  search L fuel h test pos = Ok (head (filter (fun p => t p = true) ps)).
Proof.
  revert fuel pos. induction ps as [|p ps IH]; intros [|fuel] pos Hc Hf Ht; try (cbn in Hf; lia); cbn [search].
  - cbn in Hc. by subst pos.
  - destruct Hc as (-> & e & E & Hc). unfold deref. rewrite E, bind_ok, (Ht p e (list_elem_of_here _ _) E), bind_ok.
    destruct (t p) eqn:Etp; [by rewrite filter_cons_True|]. rewrite filter_cons_False by (by rewrite Etp).
    apply IH; [done|cbn in Hf; lia|]. intros q e' Hq. apply Ht. by apply list_elem_of_further.
Qed.

Lemma head_filter {A} (P : A -> Prop) `{!forall x, Decision (P x)} (l : list A) x : head (filter P l) = Some x -> x ∈ l /\ P x.
Proof.
  destruct (filter P l) as [|y l'] eqn:E; [done|]. intros [= ->]. apply and_comm, (proj1 (list_elem_of_filter P l x)). rewrite E. apply list_elem_of_here.
Qed.

Lemma head_filter_None {A} (P : A -> Prop) `{!forall x, Decision (P x)} (l : list A) x : head (filter P l) = None -> x ∈ l -> ~ P x.
Proof.
  destruct (filter P l) as [|y l'] eqn:E; [|done]. intros _ Hx HP. assert (x ∈ filter P l) as Hf by (by apply list_elem_of_filter).
  rewrite E in Hf. by apply elem_of_nil in Hf.
Qed.

Definition find_spa (spa : list Z) (l : list (loc * entry)) : option (loc * entry) := head (filter (fun x => e_spa x.2 = spa) l).

Lemma filter_locs (P : entry -> bool) l (t : loc -> bool) : (forall p e, (p, e) ∈ l -> t p = P e) ->
  filter (fun p => t p = true) l.*1 = (filter (fun x => P x.2 = true) l).*1.
Proof.
  induction l as [|[p e] l IH]; intros Ht; [done|]. rewrite fmap_cons, !filter_cons. cbn [fst snd].
  rewrite (Ht p e (list_elem_of_here _ _)). rewrite IH by (intros q e' Hq; apply Ht; by apply list_elem_of_further).
  by destruct (decide (P e = true)).
Qed.

(** a test of the data of an entry, as a test of addresses *)
Definition at_loc (l : list (loc * entry)) (P : entry -> bool) (p : loc) : bool :=
  match head (filter (fun x => x.1 = p) l) with Some x => P x.2 | None => false end.

Lemma at_loc_in X c l P p e : rep X c l -> (p, e) ∈ l -> at_loc l P p = P e.
Proof.
  intros H Hin. unfold at_loc. destruct (head _) as [[q e']|] eqn:E.
  - apply head_filter in E as [Hq Eq]. cbn in Eq. subst q. cbn. by rewrite (rep_unique _ _ _ _ _ _ H Hq Hin).
  - exfalso. by apply (head_filter_None _ _ (p, e) E).
Qed.

Lemma fmap_head {A B} (f : A -> B) (l : list A) : head (f <$> l) = f <$> head l.
Proof. by destruct l. Qed.

(** searching the list of all entries *)
Lemma search_all X c l test (P : entry -> bool) : rep X c l -> (forall p e, (p, e) ∈ l -> test e = Ok (P e)) ->
  (forall e, test e = test (erase e)) ->
  search by_next (fuel_of (heap c)) (heap c) test (pmksa_head c) = Ok (fst <$> head (filter (fun x => P x.2 = true) l)).
Proof.
  intros H Ht Hte. rewrite (search_ok by_next _ _ test (at_loc l P) _ l.*1).
  - f_equal. rewrite (filter_locs P), fmap_head; [done|]. intros p e. by apply (at_loc_in X c).
  - apply (rep_list _ _ _ H).
  - rewrite length_fmap. by eapply rep_fuel.
  - intros p e Hp E. apply list_elem_of_fmap in Hp as ([q e'] & -> & Hq). cbn in E |- *. rewrite (at_loc_in _ _ _ _ _ _ H Hq), Hte.
    destruct (rep_in _ _ _ H _ _ Hq) as [Eq _]. rewrite E in Eq. injection Eq as Eq. rewrite Eq. by apply (Ht q).
Qed.

Lemma get_spa_ok X c l spa : rep X c l -> pmksa_cache_auth_get (Some spa) None c = Ok (fst <$> find_spa spa l).
Proof.
  intros H. unfold pmksa_cache_auth_get. rewrite (search_all X c l _ (matches (Some spa)) H) by done. f_equal. f_equal. unfold find_spa. f_equal.
  apply list_filter_iff. intros [p e]. cbn. by rewrite bool_decide_eq_true.
Qed.

Definition same_id (spa : option (list Z)) (id : list Z) (e : entry) : bool := matches spa e && bool_decide (e_pmkid e = id).

(** what a search for a property of entries may return *)
Definition finds (l : list (loc * entry)) (P : entry -> Prop) (r : option loc) : Prop :=
  match r with
  | Some p => exists e, (p, e) ∈ l /\ P e
  | None => forall p e, (p, e) ∈ l -> ~ P e
  end.

Lemma get_pmkid_ok X c l spa id : rep X c l -> zlen id = 16 -> bytes id ->
  safe (pmksa_cache_auth_get spa (Some id) c) (finds l (fun e => same_id spa id e = true)).
Proof.
  intros H Hl Hb. unfold pmksa_cache_auth_get. set (e0 := mkEntry None None id (replicate 32 0) 0 0 0 [] None None None 0 0 false 0 0).
  assert (entry_ok e0) as H0 by (split; cbn; try done; unfold PMK_LEN; lia). pose proof (hash_range e0 H0) as Hr.
  assert (PMKID_HASH id = Ok (hash_of e0)) as -> by exact (PMKID_HASH_ok e0 H0). rewrite bind_ok.
  destruct (rd_in_range (pmkid_hash c) (hash_of e0)) as [bucket Erd]; [rewrite (rep_buckets _ _ _ H); unfold PMKID_HASH_SIZE; lia|].
  rewrite Erd, bind_ok. apply rd_lookup in Erd; [|lia]. destruct (rep_bucket _ _ _ H _ _ Erd) as (b & B1 & B2 & B3).
  assert (forall p e, p ∈ b -> heap c !! p = Some e -> at_loc l (same_id spa id) p = same_id spa id e) as Hat.
  { intros p e Hp E. apply B3 in Hp as (e' & He' & _). rewrite (at_loc_in _ _ _ _ _ _ H He').
    destruct (rep_in _ _ _ H _ _ He') as [Ee _]. rewrite E in Ee. injection Ee as Ee. by rewrite <-Ee. }
  rewrite (search_ok by_hash _ _ _ (at_loc l (same_id spa id)) bucket b B1);
    [|by apply (chain_fuel by_hash _ bucket)|intros p e Hp E; by rewrite (Hat p e Hp E)].
  unfold safe. destruct (head _) as [p|] eqn:Eh; cbn [finds].
  - apply head_filter in Eh as [Hp Ht]. apply B3 in Hp as (e & He & _). exists e. split; [done|]. by rewrite <-(at_loc_in _ _ _ _ _ _ H He).
  - intros p e He Hid. assert (p ∈ b) as Hp.
    { apply B3. exists e. split; [done|]. unfold same_id in Hid. apply andb_prop in Hid as [_ Hid]. apply bool_decide_eq_true in Hid.
      unfold hash_of at 1. rewrite Hid. change (Z.land (hd 0 id) 0x7f) with (hash_of e0). lia. }
    apply (head_filter_None _ _ p Eh Hp). by rewrite (at_loc_in _ _ _ _ _ _ H He).
Qed.

(** ** Operations on the list of entries *)

Definition evict (x : option (loc * entry)) (l : list (loc * entry)) : list (loc * entry) :=
  match x with Some x => remove x.1 l | None => l end.

(** the first entry, when the cache is full *)
Definition oldest (l : list (loc * entry)) : option (loc * entry) := if pmksa_cache_max_entries <=? zlen l then head l else None.

Definition add_entry (x : loc * entry) (l : list (loc * entry)) : list (loc * entry) :=
  let l := evict (find_spa (e_spa x.2) l) l in
  place x (evict (oldest l) l).

Lemma free_optional X c l (x : option (loc * entry)) : rep X c l -> (forall y, x = Some y -> y ∈ l) ->
  safe (match fst <$> x with Some q => pmksa_cache_free_entry q c | None => Ok c end) (fun c' => rep X c' (evict x l) /\
    (forall q, q ∈ X -> erase <$> heap c' !! q = erase <$> heap c !! q)).
Proof.
  intros H Hx. destruct x as [[p e]|]; cbn [fmap option_fmap option_map fst evict]; [|done]. specialize (Hx _ eq_refl).
  eapply safe_mono; [by apply (pmksa_cache_free_entry_ok X c l p e)|]. intros c' [H1 _ _ H4]. split; [done|].
  intros q Hq. apply H4. intros ->. by destruct (rep_in _ _ _ H _ _ Hx) as [_ Hn].
Qed.

(** allocating an entry without linking it *)
Lemma rep_alloc X c l p e : rep X c l -> heap c !! p = None -> rep (p :: X) (mkCache (<[p := e]> (heap c)) (pmkid_hash c) (pmksa_head c) (pmksa_count c) (timeout c) (freed c)) l.
Proof.
  intros H E. assert (forall q e', (q, e') ∈ l -> q <> p) as Hq.
  { intros q e' Hq ->. destruct (rep_in _ _ _ H _ _ Hq) as [Ee _]. by rewrite E in Ee. }
  split; cbn [heap pmkid_hash pmksa_head pmksa_count]; try apply H.
  - intros q e' Hin. rewrite lookup_insert_ne by (symmetry; by eapply Hq). destruct (rep_in _ _ _ H _ _ Hin) as [? Hx].
    split; [done|]. intros [->|?]%elem_of_cons; [|done]. by apply (Hq _ _ Hin).
  - intros q e' Eq [Hqp Hx]%not_elem_of_cons. rewrite lookup_insert_ne in Eq by congruence. by apply (rep_all _ _ _ H).
  - apply seg_insert_ne; [|apply (rep_list _ _ _ H)]. intros Hp. apply list_elem_of_fmap in Hp as ([q e'] & Ep & Hin). by apply (Hq _ _ Hin).
  - intros i bk Ei. destruct (rep_bucket _ _ _ H _ _ Ei) as (b & B1 & B2 & B3). exists b. split; [|done].
    apply seg_insert_ne; [|done]. intros Hp. apply B3 in Hp as (e' & He' & _). by apply (Hq _ _ He').
Qed.

(** giving a linked entry its place when it was allocated *)
Lemma link_allocated c l p e now : rep [p] c l -> (erase <$> heap c !! p) = Some (erase e) -> entry_ok e -> 0 <= now < 2 ^ 31 ->
  safe (pmksa_cache_link_entry now p c) (fun c' => rep [] c' (place (p, erase e) l)).
Proof.
  intros H E Hok Hnow. apply fmap_Some in E as (e' & E & Ee). rewrite Ee.
  eapply safe_mono; [apply (pmksa_cache_link_entry_ok [] c l p e'); try done; [by apply not_elem_of_nil|]|by intros c' []].
  apply entry_ok_erase. rewrite <-Ee. by apply entry_ok_erase.
Qed.

Section Operations.
Context {DG : Digests} {DL : DigestsLaws} {DT : DigestsTotal}.

Definition new_entry (alloc : Z -> bool) (now : Z) (pmk id spa : list Z) (session_timeout : Z) (eapol : option session) (akmp : Z) : entry :=
  pmksa_cache_from_eapol_data alloc eapol
    (mkEntry None None id (pmk ++ replicate (32 - length pmk) 0) (zlen pmk)
       (now + if 0 <? session_timeout then session_timeout else dot11RSNAConfigPMKLifetime) akmp spa None None None 0 0 false 0 0).

Lemma entry_pmkid_ok pmk aa spa akmp : safe (entry_pmkid pmk aa spa akmp) (arr 16).
Proof. unfold entry_pmkid. case_match; [by apply (arr_replicate 16)|apply rsn_pmkid_safe]. Qed.

Lemma pad_pmk pmk : zlen pmk <= PMK_LEN -> blit (replicate (Z.to_nat PMK_LEN) 0) 0 pmk = Ok (pmk ++ replicate (32 - length pmk) 0).
Proof.
  unfold PMK_LEN. intros H. replace (replicate (Z.to_nat 32) 0) with (replicate (length pmk) 0 ++ replicate (32 - length pmk) 0).
  - apply blit_head. unfold zlen. by rewrite length_replicate.
  - rewrite <-replicate_add. f_equal. unfold zlen in H. lia.
Qed.

Lemma pmksa_cache_auth_add_ok alloc p now pmk kck aa spa session_timeout eapol akmp c l :
  rep [] c l -> heap c !! p = None -> zlen pmk <= PMK_LEN -> wpa_key_mgmt_suite_b akmp && bool_decide (kck = None) = false ->
  0 <= now < 2 ^ 30 -> session_timeout < 2 ^ 30 ->
  safe (pmksa_cache_auth_add alloc (Some p) now pmk kck aa spa session_timeout eapol akmp c) (fun r => r.1 = Some p /\
    exists id, entry_pmkid pmk aa spa akmp = Ok id /\ rep [] r.2 (add_entry (p, new_entry alloc now pmk id spa session_timeout eapol akmp) l)).
Proof.
  intros H E Hp Hs Hnow Ht. unfold pmksa_cache_auth_add. replace (PMK_LEN <? zlen pmk) with false by lia. rewrite Hs, pad_pmk, bind_ok by done.
  pose proof (entry_pmkid_ok pmk aa spa akmp) as Hid. apply safe_exists in Hid as (id & Eid & Hid). rewrite Eid, bind_ok.
  fold (new_entry alloc now pmk id spa session_timeout eapol akmp). set (e := new_entry _ _ _ _ _ _ _ _).
  assert (entry_ok e) as Hok.
  { unfold e, new_entry. split; destruct eapol; cbn [pmksa_cache_from_eapol_data e_pmkid e_expiration e_pmk e_pmk_len]; try done.
    all: unfold dot11RSNAConfigPMKLifetime, PMK_LEN in *; try (case_match; lia).
    all: unfold zlen in *; rewrite length_app, length_replicate; lia. }
  assert (e_spa e = spa) as Espa by (by unfold e, new_entry; destruct eapol).
  assert (erase e = e) as Eer by (by unfold e, new_entry; destruct eapol).
  pose proof (rep_alloc [] c l p e H E) as H0. set (c0 := mkCache _ _ _ _ _ _) in *.
  assert (erase <$> heap c0 !! p = Some (erase e)) as E0 by (unfold c0; cbn [heap]; by rewrite lookup_insert, decide_True).
  rewrite (get_spa_ok _ _ _ _ H0), bind_ok.
  eapply safe_bind; [apply (free_optional [p] c0 l (find_spa spa l) H0); intros y Hy; by apply head_filter in Hy as [? _]|].
  intros c1 [H1 F1]. set (l1 := evict (find_spa spa l) l) in *.
  assert (match pmksa_head c1 with Some q => if pmksa_cache_max_entries <=? pmksa_count c1 then pmksa_cache_free_entry q c1 else Ok c1 | None => Ok c1 end
    = match fst <$> oldest l1 with Some q => pmksa_cache_free_entry q c1 | None => Ok c1 end) as ->.
  { rewrite (rep_head _ _ _ H1), (rep_count _ _ _ H1). unfold oldest. destruct (pmksa_cache_max_entries <=? zlen l1), (head l1); reflexivity. }
  eapply safe_bind; [apply (free_optional [p] c1 l1 (oldest l1) H1)|].
  { unfold oldest. intros y Hy. destruct (_ <=? _) in Hy; [|done]. destruct l1 as [|x1 l1]; [done|]. injection Hy as ->. apply list_elem_of_here. }
  intros c2 [H2 F2]. assert (p ∈ [p]) as Hpp by apply list_elem_of_here.
  eapply safe_bind; [apply (link_allocated c2 _ p e now H2); [by rewrite F2, F1|done|lia]|].
  intros c3 H3. unfold safe. cbn [fst snd]. split; [done|]. exists id. split; [done|]. unfold add_entry. cbn [snd]. fold e. rewrite Espa.
  by rewrite Eer in H3.
Qed.

Lemma pmksa_cache_add_okc_ok alloc p now old id c l : rep [] c l -> heap c !! p = None -> entry_ok old -> arr 16 id -> 0 <= now < 2 ^ 31 ->
  safe (pmksa_cache_add_okc alloc (Some p) now old id c) (fun r => r.1 = Some p /\
    exists pmk, get (e_pmk old) 0 (e_pmk_len old) = Ok pmk /\
    rep [] r.2 (place (p, mkEntry None None id (pmk ++ replicate (32 - length pmk) 0) (e_pmk_len old) (e_expiration old) (e_akmp old) (e_spa old)
      (copy_bytes alloc (e_identity old)) (copy_bytes alloc (e_cui old)) (radius_copy_class alloc (e_class old))
      (e_eap_type old) (e_vlan_id old) true 0 0) l)).
Proof.
  intros H E [Hid [Hx1 Hx2] [Hl Hn]] [Hidl Hidb] Hnow. unfold pmksa_cache_add_okc.
  destruct (get (e_pmk old) 0 (e_pmk_len old)) as [pmk|] eqn:Eg.
  2: { exfalso. unfold PMK_LEN, get in *. revert Eg. replace ((0 <=? 0) && _ && _) with true by lia. done. }
  pose proof Eg as Hg. apply get_Ok_inv in Hg as (_ & _ & Hg & _). rewrite bind_ok, pad_pmk, bind_ok by (unfold PMK_LEN in *; lia).
  set (e := mkEntry _ _ _ _ _ _ _ _ _ _ _ _ _ _ _ _). pose proof (rep_alloc [] c l p e H E) as H0. set (c0 := mkCache _ _ _ _ _ _) in *.
  assert (entry_ok e) as Hok.
  { unfold e, PMK_LEN in *. split; cbn [e_pmkid e_expiration e_pmk e_pmk_len]; [done|done|].
    split; [|done]. unfold zlen, PMK_LEN in *. rewrite length_app, length_replicate. lia. }
  eapply safe_bind; [apply (link_allocated c0 _ p e now H0); [unfold c0; cbn [heap]; by rewrite lookup_insert, decide_True|done|lia]|].
  intros c3 H3. unfold safe. cbn [fst snd]. split; [done|]. exists pmk. split; [done|]. exact H3.
Qed.
End Operations.

Lemma chain_start L h p ps : chain L h p ps -> p = head ps.
Proof. destruct ps; [done|]. by intros [-> _]. Qed.

Lemma rep_next X c kept p e rest e' : rep X c (kept ++ (p, e) :: rest) -> heap c !! p = Some e' -> e_next e' = head rest.*1.
Proof.
  intros H E. pose proof (rep_list _ _ _ H) as Hc. rewrite fmap_app, fmap_cons in Hc. apply seg_app in Hc as (r & _ & Hc).
  cbn [fst] in Hc. apply (seg_lookup _ _ _ _ _ _ _ Hc) in E. by apply chain_start in E.
Qed.

Lemma remove_middle p e kept rest : NoDup (kept ++ (p, e) :: rest).*1 -> remove p (kept ++ (p, e) :: rest) = kept ++ rest.
Proof.
  rewrite fmap_app, fmap_cons. cbn [fst]. intros (_ & Hd & Hn)%NoDup_app. unfold remove. rewrite list.filter_app. f_equal.
  - assert (p ∉ kept.*1) as Hp by (intros Hp; by apply (Hd p Hp), list_elem_of_here). clear -Hp.
    induction kept as [|[q e'] kept IH]; [done|]. apply not_elem_of_cons in Hp as [Hq Hp].
    rewrite filter_cons_True by (cbn in *; congruence). by rewrite IH.
  - by apply remove_head.
Qed.

Definition unmatched (a : das_attrs) (l : list (loc * entry)) : list (loc * entry) := filter (fun x => das_attr_match x.2 a = 0) l.

Lemma das_loop_ok a fuel c kept rest found : rep [] c (kept ++ rest) -> (length rest < fuel)%nat ->
  safe (das_loop fuel a (head rest.*1) found c) (fun r => rep [] r.2 (kept ++ unmatched a rest) /\
    r.1 = found + (zlen rest - zlen (unmatched a rest))).
Proof.
  revert fuel c kept found. induction rest as [|[p e] rest IH]; intros [|fuel] c kept found H Hf; try (cbn in Hf; lia); cbn [das_loop].
  - unfold safe. cbn [head fmap list_fmap fst snd]. split; [done|]. cbn. lia.
  - cbn [fmap list_fmap head fst]. assert ((p, e) ∈ kept ++ (p, e) :: rest) as Hin by (apply elem_of_app; right; apply list_elem_of_here).
    destruct (rep_deref _ _ _ p e H Hin) as (e' & E & <-). unfold deref. rewrite E, bind_ok.
    change (das_attr_match e' a) with (das_attr_match (erase e') a). rewrite (rep_next _ _ _ _ _ _ _ H E).
    unfold unmatched. rewrite filter_cons. cbn [snd]. fold (unmatched a rest). rewrite !zlen_cons.
    destruct (das_attr_match (erase e') a =? 0) eqn:Em; cbn [negb].
    + rewrite decide_True by lia. assert (kept ++ (p, erase e') :: rest = (kept ++ [(p, erase e')]) ++ rest) as Er by by rewrite <-app_assoc.
      rewrite Er in H. eapply safe_mono; [apply (IH fuel c (kept ++ [(p, erase e')]) found H); cbn in Hf; lia|].
      intros [r c'] [H1 H2]. cbn [fst snd] in *. rewrite <-app_assoc in H1. rewrite zlen_cons. split; [exact H1|lia].
    + rewrite decide_False by lia. eapply safe_bind; [apply (pmksa_cache_free_entry_ok _ _ _ _ _ H Hin)|]. intros c' [H' _ _ _].
      rewrite remove_middle in H' by apply (rep_nodup _ _ _ H).
      eapply safe_mono; [apply (IH fuel c' kept (found + 1) H'); cbn in Hf; lia|].
      intros [r c2] [H1 H2]. cbn [fst snd] in *. split; [exact H1|lia].
Qed.

Lemma unmatched_all a l : zlen l <= zlen (unmatched a l) -> unmatched a l = l.
Proof.
  unfold unmatched. induction l as [|x l IH]; [done|]. rewrite filter_cons.
  pose proof (length_filter (fun x : loc * entry => das_attr_match x.2 a = 0) l) as Hl.
  case_decide; intros Hlen; [f_equal; apply IH|]; rewrite ?zlen_cons in Hlen; unfold zlen in *; lia.
Qed.

Lemma das_disconnect_ok a c l : rep [] c l ->
  safe (pmksa_cache_auth_radius_das_disconnect a c) (fun r => match d_acct_session_id a with
    | Some _ => r = (-1, c)
    | None => rep [] r.2 (unmatched a l) /\ (r.1 = 0 <-> unmatched a l <> l)
    end).
Proof.
  intros H. unfold pmksa_cache_auth_radius_das_disconnect. destruct (d_acct_session_id a); [done|].
  pose proof (chain_start _ _ _ _ (rep_list _ _ _ H)) as ->.
  eapply safe_bind; [apply (das_loop_ok a (fuel_of (heap c)) c [] l 0 H); by eapply rep_fuel|].
  intros [found c'] [H1 H2]. unfold safe. cbn [fst snd app] in *. split; [exact H1|].
  pose proof (length_filter (fun x : loc * entry => das_attr_match x.2 a = 0) l) as Hl. fold (unmatched a l) in Hl.
  destruct (found =? 0) eqn:Ef; split; try done.
  - intros Hne. exfalso. apply Hne. apply unmatched_all. lia.
  - intros _ Heq. rewrite Heq in H2. lia.
Qed.

Lemma deinit_loop_ok fuel h pos ps : chain by_next h pos ps -> NoDup ps -> (length ps < fuel)%nat ->
  safe (deinit_loop fuel h pos) (fun h' => forall p, h' !! p = if decide (p ∈ ps) then None else h !! p).
Proof.
  revert fuel h pos. induction ps as [|p ps IH]; intros [|fuel] h pos Hc Hn Hf; try (cbn in Hf; lia); cbn [deinit_loop].
  - cbn in Hc. subst pos. unfold safe. intros p. by rewrite decide_False by apply not_elem_of_nil.
  - destruct Hc as (-> & e & E & Hc). apply NoDup_cons in Hn as [Hp Hn]. unfold deref. rewrite E, bind_ok.
    eapply safe_mono; [apply (IH fuel (delete p h)); [by apply seg_delete_ne|done|cbn in Hf; lia]|].
    intros h' Hh q. rewrite Hh. destruct (decide (q = p)) as [->|Hq].
    + rewrite (decide_True (P := p ∈ p :: ps)) by apply list_elem_of_here. destruct (decide (p ∈ ps)); [done|]. by rewrite lookup_delete, decide_True.
    + rewrite lookup_delete_ne by done. destruct (decide (q ∈ ps)) as [Hin|Hin].
      * by rewrite decide_True by (by apply list_elem_of_further).
      * rewrite decide_False; [done|]. by intros [|]%elem_of_cons.
Qed.

Lemma pmksa_cache_auth_deinit_ok c l : rep [] c l -> pmksa_cache_auth_deinit c = Ok ∅.
Proof.
  intros H. pose proof (deinit_loop_ok (fuel_of (heap c)) (heap c) (pmksa_head c) l.*1 (rep_list _ _ _ H) (rep_nodup _ _ _ H)) as Hd.
  rewrite length_fmap in Hd. specialize (Hd (rep_fuel _ _ _ H)). apply safe_exists in Hd as (h & E & Hh). unfold pmksa_cache_auth_deinit. rewrite E. f_equal.
  apply map_eq. intros p. rewrite Hh, lookup_empty. destruct (decide (p ∈ l.*1)) as [|Hp]; [done|].
  destruct (heap c !! p) as [e|] eqn:Ep; [|done]. exfalso. apply Hp. pose proof (rep_all _ _ _ H p e Ep (not_elem_of_nil _)) as Hin.
  by apply (list_elem_of_fmap_2 fst) in Hin.
Qed.

(** ** Sequences of operations *)

Section Runs.
Context {DG : Digests} {DL : DigestsLaws} {DT : DigestsTotal}.

Inductive cache_op : Type :=
| OpAdd (alloc : Z -> bool) (new : option loc) (now : Z) (pmk : list Z) (kck : option (list Z)) (aa spa : list Z) (session_timeout : Z)
    (eapol : option session) (akmp : Z)
| OpAddOkc (alloc : Z -> bool) (new : option loc) (now : Z) (old : entry) (id : list Z)
| OpFree (p : loc)
| OpExpire (now : Z)
| OpDisconnect (a : das_attrs).

Definition run_op (op : cache_op) (c : cache) : M cache :=
  match op with
  | OpAdd alloc new now pmk kck aa spa st eapol akmp => snd <$> pmksa_cache_auth_add alloc new now pmk kck aa spa st eapol akmp c
  | OpAddOkc alloc new now old id => snd <$> pmksa_cache_add_okc alloc new now old id c
  | OpFree p => pmksa_cache_free_entry p c
  | OpExpire now => pmksa_cache_expire now c
  | OpDisconnect a => snd <$> pmksa_cache_auth_radius_das_disconnect a c
  end.

Fixpoint run_cache (ops : list cache_op) (c : cache) : M cache :=
  match ops with
  | [] => Ok c
  | op :: ops => c ← run_op op c; run_cache ops c
  end.

(** the entry an operation adds *)
Definition added (op : cache_op) : option (loc * entry) :=
  match op with
  | OpAdd alloc (Some p) now pmk kck aa spa st eapol akmp =>
      if (PMK_LEN <? zlen pmk) || (wpa_key_mgmt_suite_b akmp && bool_decide (kck = None)) then None
      else match entry_pmkid pmk aa spa akmp with Ok id => Some (p, new_entry alloc now pmk id spa st eapol akmp) | Err _ => None end
  | OpAddOkc alloc (Some p) now old id =>
      match get (e_pmk old) 0 (e_pmk_len old) with
      | Ok pmk => Some (p, mkEntry None None id (pmk ++ replicate (32 - length pmk) 0) (e_pmk_len old) (e_expiration old) (e_akmp old) (e_spa old)
          (copy_bytes alloc (e_identity old)) (copy_bytes alloc (e_cui old)) (radius_copy_class alloc (e_class old))
          (e_eap_type old) (e_vlan_id old) true 0 0)
      | Err _ => None
      end
  | _ => None
  end.

(** what an operation means for the list of entries *)
Definition apply_op (op : cache_op) (l : list (loc * entry)) : list (loc * entry) :=
  match op with
  | OpAdd _ _ _ _ _ _ _ _ _ _ => match added op with Some x => add_entry x l | None => l end
  | OpAddOkc _ _ _ _ _ => match added op with Some x => place x l | None => l end
  | OpFree p => remove p l
  | OpExpire now => unexpired now l
  | OpDisconnect a => match d_acct_session_id a with Some _ => l | None => unmatched a l end
  end.

(** the allocator gives unused memory, the clock is below 2^30 seconds, and
    only entries of the cache are freed *)
Definition op_fits (op : cache_op) (l : list (loc * entry)) : Prop :=
  match op with
  | OpAdd _ new now _ _ _ _ st _ _ => (forall p, new = Some p -> p ∉ l.*1) /\ 0 <= now < 2 ^ 30 /\ st < 2 ^ 30
  | OpAddOkc _ new now old id => (forall p, new = Some p -> p ∉ l.*1) /\ 0 <= now < 2 ^ 30 /\ entry_ok old /\ arr 16 id
  | OpFree p => p ∈ l.*1
  | OpExpire now => 0 <= now < 2 ^ 30
  | OpDisconnect _ => True
  end.

Fixpoint ops_fit (ops : list cache_op) (l : list (loc * entry)) : Prop :=
  match ops with
  | [] => True
  | op :: ops => op_fits op l /\ ops_fit ops (apply_op op l)
  end.

Lemma rep_unused c l p : rep [] c l -> p ∉ l.*1 -> heap c !! p = None.
Proof.
  intros H Hp. destruct (heap c !! p) as [e|] eqn:E; [|done]. exfalso. apply Hp.
  pose proof (rep_all _ _ _ H p e E (not_elem_of_nil _)) as Hin. by apply (list_elem_of_fmap_2 fst) in Hin.
Qed.

Lemma fmap_safe {A B} (f : A -> B) (m : M A) (P : B -> Prop) : safe m (fun a => P (f a)) -> safe (f <$> m) P.
Proof. by destruct m. Qed.

Lemma run_op_ok op c l : rep [] c l -> op_fits op l -> safe (run_op op c) (fun c' => rep [] c' (apply_op op l)).
Proof.
  intros H Hf. destruct op as [alloc [p|] now pmk kck aa spa st eapol akmp|alloc [p|] now old id|p|now|a]; cbn [run_op op_fits apply_op added] in *.
  - destruct Hf as (Hp & Hnow & Hst). apply fmap_safe. destruct (PMK_LEN <? zlen pmk) eqn:El; cbn [orb].
    { unfold pmksa_cache_auth_add. by rewrite El. }
    destruct (_ && _) eqn:Es; [unfold pmksa_cache_auth_add; by rewrite El, Es|].
    eapply safe_mono; [apply (pmksa_cache_auth_add_ok alloc p now pmk kck aa spa st eapol akmp c l H); try done; [|lia]|].
    + apply (rep_unused c l); [done|by apply Hp].
    + intros [r c'] (_ & id & -> & Hr). exact Hr.
  - apply fmap_safe. unfold pmksa_cache_auth_add. by repeat case_match.
  - destruct Hf as (Hp & Hnow & Hold & Hid). apply fmap_safe.
    eapply safe_mono; [apply (pmksa_cache_add_okc_ok alloc p now old id c l H); try done; [|lia]|].
    + apply (rep_unused c l); [done|by apply Hp].
    + intros [r c'] (_ & pmk & -> & Hr). exact Hr.
  - done.
  - apply list_elem_of_fmap in Hf as ([q e] & -> & Hin). eapply safe_mono; [apply (pmksa_cache_free_entry_ok [] c l q e H Hin)|]. by intros c' [].
  - unfold pmksa_cache_expire. eapply safe_bind; [apply (expire_loop_ok [] _ now c l H); by eapply rep_fuel|].
    intros c' H'. rewrite (set_expiration_ok _ _ _ _ H') by lia. by apply rep_frame.
  - apply fmap_safe. eapply safe_mono; [apply (das_disconnect_ok a c l H)|]. intros [r c']. destruct (d_acct_session_id a); [by intros [= -> ->]|by intros []].
Qed.

Lemma init_rep : rep [] pmksa_cache_auth_init [].
Proof.
  split; cbn [heap pmkid_hash pmksa_head pmksa_count pmksa_cache_auth_init]; try done.
  - by intros p e ?%elem_of_nil.
  - by apply NoDup_nil.
  - intros i bk Ei. apply lookup_replicate in Ei as [-> _]. exists []. split; [done|]. split; [by apply NoDup_nil|].
    intros p. split; [by intros ?%elem_of_nil|]. by intros (e & ?%elem_of_nil & _).
  - constructor.
Qed.

Lemma run_cache_ok ops c l : rep [] c l -> ops_fit ops l -> safe (run_cache ops c) (fun c' => rep [] c' (foldl (fun l op => apply_op op l) l ops)).
Proof.
  revert c l. induction ops as [|op ops IH]; intros c l H Hf; [done|]. destruct Hf as [Hf1 Hf2]. cbn [run_cache foldl].
  eapply safe_bind; [by apply run_op_ok|]. intros c' H'. by apply IH.
Qed.

(** C8: the two linked structures of the PMKSA cache implement a list of
    entries in the order of their expiration: after any sequence of additions,
    opportunistic additions, removals, expirations and disconnect requests the
    pointers are intact, the cache holds exactly the entries the abstract
    operations give, and freeing it leaves no entry allocated. *)
Theorem pmksa_refines ops : ops_fit ops [] ->
  exists c, run_cache ops pmksa_cache_auth_init = Ok c /\ rep [] c (foldl (fun l op => apply_op op l) [] ops) /\ pmksa_cache_auth_deinit c = Ok ∅.
Proof.
  intros Hf. pose proof (run_cache_ok ops _ _ init_rep Hf) as H. apply safe_exists in H as (c & E & H).
  exists c. split; [done|]. split; [done|]. by eapply pmksa_cache_auth_deinit_ok.
Qed.

(** ** Lookups *)

Definition same_okc (aa spa id : list Z) (e : entry) : Prop :=
  e_spa e = spa /\ exists pmk, get (e_pmk e) 0 (e_pmk_len e) = Ok pmk /\ rsn_pmkid pmk aa spa (wpa_key_mgmt_sha256 (e_akmp e)) = Ok id.

Lemma get_okc_ok c l aa spa id : rep [] c l -> safe (pmksa_cache_get_okc aa spa id c) (finds l (same_okc aa spa id)).
Proof.
  intros H. unfold pmksa_cache_get_okc.
  set (P := fun e => bool_decide (e_spa e = spa) && match (pmk ← get (e_pmk e) 0 (e_pmk_len e); rsn_pmkid pmk aa spa (wpa_key_mgmt_sha256 (e_akmp e))) with
    Ok x => bool_decide (x = id) | Err _ => false end).
  assert (forall e, P e = true <-> same_okc aa spa id e) as HP.
  { intros e. unfold P, same_okc. rewrite andb_true_iff, bool_decide_eq_true. apply and_iff_compat_l.
    destruct (get _ _ _) as [pmk|]; [rewrite bind_ok|split; [done|by intros (? & ? & _)]].
    split; [|intros (? & [= <-] & ->); by apply bool_decide_eq_true].
    intros Hx. exists pmk. split; [done|]. destruct (rsn_pmkid _ _ _ _); [|done]. by apply bool_decide_eq_true in Hx as ->. }
  rewrite (search_all [] c l _ P H); [|intros p e Hin|done].
  - unfold safe. destruct (head _) as [[p e]|] eqn:Eh; cbn [fmap option_fmap option_map fst finds].
    + apply head_filter in Eh as [Hin Hp]. exists e. split; [done|]. by apply HP.
    + intros p e Hin Hs. apply HP in Hs. by apply (head_filter_None _ _ (p, e) Eh Hin).
  - unfold P. case_bool_decide; [|done]. destruct (proj1 (Forall_forall _ _) (rep_ok _ _ _ H) _ Hin) as [_ _ [Hl Hn]]. cbn [snd] in *.
    destruct (get (e_pmk e) 0 (e_pmk_len e)) as [pmk|] eqn:Eg.
    + rewrite !bind_ok. pose proof (rsn_pmkid_safe pmk aa spa (wpa_key_mgmt_sha256 (e_akmp e))) as Hr. apply safe_exists in Hr as (x & -> & _).
      by rewrite bind_ok.
    + exfalso. revert Eg. unfold get. by replace ((0 <=? 0) && _ && _) with true by lia.
Qed.

(** Pmksa_cache_auth_get and pmksa_cache_get_okc find an entry exactly
    when the cache has one: by the address of the station the one that expires
    first, by PMKID through its hash chain, and opportunistically by the PMKID
    that the entry's PMK gives with another authenticator. *)
Theorem pmksa_lookup_correct c l spa aa id : rep [] c l -> zlen id = 16 -> bytes id ->
  pmksa_cache_auth_get (Some spa) None c = Ok (fst <$> find_spa spa l) /\
  (exists r, pmksa_cache_auth_get (Some spa) (Some id) c = Ok r /\ finds l (fun e => e_spa e = spa /\ e_pmkid e = id) r) /\
  (exists r, pmksa_cache_get_okc aa spa id c = Ok r /\ finds l (same_okc aa spa id) r).
Proof.
  intros H Hl Hb. split; [by eapply get_spa_ok|]. split; apply safe_exists; [|by apply get_okc_ok].
  eapply safe_mono; [by apply (get_pmkid_ok [] c l (Some spa) id)|].
  assert (forall e, same_id (Some spa) id e = true <-> e_spa e = spa /\ e_pmkid e = id) as Hs.
  { intros e. unfold same_id, matches. by rewrite andb_true_iff, !bool_decide_eq_true. }
  intros [p|]; cbn [finds].
  - intros (e & Hin & He). exists e. split; [done|]. by apply Hs.
  - intros Hn p e Hin He. apply (Hn p e Hin). by apply Hs.
Qed.

(** ** The size of the cache *)

Definition plain (op : cache_op) : bool := match op with OpAddOkc _ _ _ _ _ => false | _ => true end.
Definition bounded (l : list (loc * entry)) : Prop := zlen l <= pmksa_cache_max_entries /\ NoDup (e_spa ∘ snd <$> l).

Lemma bounded_filter (P : loc * entry -> Prop) `{!forall x, Decision (P x)} l : bounded l -> bounded (filter P l).
Proof.
  intros [H1 H2]. split.
  - pose proof (length_filter P l). unfold zlen in *. lia.
  - eapply sublist_NoDup; [exact H2|]. apply fmap_sublist, sublist_filter.
Qed.

Lemma evict_filter x l : bounded l -> bounded (evict x l).
Proof. intros H. destruct x; [|done]. by apply bounded_filter. Qed.

Lemma evict_spa spa l : NoDup (e_spa ∘ snd <$> l) -> spa ∉ (e_spa ∘ snd <$> evict (find_spa spa l) l).
Proof.
  intros Hn Hin. apply list_elem_of_fmap in Hin as ([p e] & -> & Hin). cbn in Hin. unfold find_spa in Hin.
  destruct (head _) as [[q e']|] eqn:Eh; cbn [evict fst] in Hin.
  - apply elem_of_remove in Hin as [Hpq Hin]. apply head_filter in Eh as [Hq Es]. cbn in *.
    apply Hpq. apply list_elem_of_lookup in Hin as [i Hi]. apply list_elem_of_lookup in Hq as [j Hj].
    assert (i = j) as ->; [|congruence]. eapply (NoDup_lookup _ _ _ (e_spa e)); [exact Hn| |].
    + rewrite list_lookup_fmap, Hi. done.
    + rewrite list_lookup_fmap, Hj. cbn. by rewrite Es.
  - by apply (head_filter_None _ _ (p, e) Eh Hin).
Qed.

Lemma add_entry_bounded x l : bounded l -> NoDup l.*1 -> bounded (add_entry x l).
Proof.
  intros Hb Hn. unfold add_entry. set (l1 := evict (find_spa (e_spa x.2) l) l).
  assert (bounded l1) as H1 by by apply evict_filter.
  assert (NoDup l1.*1) as Hn1.
  { unfold l1, evict. destruct (find_spa _ _); [|done]. rewrite remove_locs. by apply NoDup_filter. }
  assert (e_spa x.2 ∉ (e_spa ∘ snd <$> l1)) as Hx by apply evict_spa, Hb.
  assert (bounded (evict (oldest l1) l1) /\ zlen (evict (oldest l1) l1) < pmksa_cache_max_entries) as [H2 Hlt].
  { split; [by apply evict_filter|]. unfold oldest. destruct (_ <=? _) eqn:E; [|cbn [evict]; lia].
    destruct l1 as [|[p e] l1]; [done|]. cbn [head evict fst]. destruct H1 as [H1 _]. rewrite (remove_length p e); [lia|done|apply list_elem_of_here]. }
  split.
  - unfold zlen in *. rewrite (Permutation_length (place_perm x _)). cbn [length]. lia.
  - rewrite place_perm, fmap_cons. apply NoDup_cons. split; [|apply H2]. cbn. intros Hin. apply Hx.
    unfold evict in Hin. destruct (oldest l1); [|done]. apply list_elem_of_fmap in Hin as (y & -> & Hy). apply elem_of_remove in Hy as [_ Hy].
    by apply (list_elem_of_fmap_2 (e_spa ∘ snd)) in Hy.
Qed.

Lemma apply_op_bounded op l : plain op = true -> bounded l -> NoDup l.*1 -> bounded (apply_op op l).
Proof.
  intros Hp Hb Hn. destruct op; cbn [apply_op plain] in *; try done; try by apply bounded_filter.
  - destruct (added _); [by apply add_entry_bounded|done].
  - destruct (d_acct_session_id a); [done|]. by apply bounded_filter.
Qed.

Lemma run_bounded ops c l : rep [] c l -> bounded l -> ops_fit ops l -> forallb plain ops = true ->
  safe (run_cache ops c) (fun c' => exists l', rep [] c' l' /\ bounded l').
Proof.
  revert c l. induction ops as [|op ops IH]; intros c l H Hb Hf Hp; [by exists l|]. destruct Hf as [Hf1 Hf2]. cbn [forallb] in Hp.
  apply andb_prop in Hp as [Hp1 Hp2]. cbn [run_cache]. eapply safe_bind; [by apply run_op_ok|]. intros c' H'. apply (IH _ _ H'); [|done|done].
  apply apply_op_bounded; [done|done|apply (rep_nodup _ _ _ H)].
Qed.

(** Without opportunistic key caching the cache never has more than 1024
    entries, at most one for each station, and pmksa_count is their number. *)
Theorem pmksa_bounded ops c : ops_fit ops [] -> forallb plain ops = true -> run_cache ops pmksa_cache_auth_init = Ok c ->
  exists l, rep [] c l /\ pmksa_count c = zlen l /\ zlen l <= 1024 /\ NoDup (e_spa ∘ snd <$> l).
Proof.
  intros Hf Hp E.
  pose proof (run_bounded ops pmksa_cache_auth_init [] init_rep) as Hrun.
  rewrite E in Hrun. destruct Hrun as (l & H & H1 & H2); [split; [done|by apply NoDup_nil]|done|done|].
  exists l. split; [done|]. split; [apply (rep_count _ _ _ H)|]. done.
Qed.
End Runs.

(** ** A run *)

Definition sample_spa (n : Z) : list Z := [2; 0; 0; 0; 0; n].
Definition sample_add (p : loc) (now n : Z) : cache_op :=
  OpAdd (fun _ => true) (Some p) now (replicate 32 n) None (sample_spa 9) (sample_spa n) 0
    (Some (mkSession (Some [n]) None (Some [[1]; [2]]) 0 0 0 n)) WPA_KEY_MGMT_IEEE8021X.
(** two stations, the first of them again, a disconnect request for the second *)
Definition sample_ops : list cache_op :=
  [sample_add 1 100 1; sample_add 2 90 2; sample_add 3 200 1; OpDisconnect (mkDas (Some (sample_spa 2)) None None None None)].

Lemma sample_fit : ops_fit sample_ops [].
Proof.
  unfold sample_ops, sample_add. cbn [ops_fit op_fits]. split_and!; try lia; intros p [= <-]; apply (bool_decide_unpack _); by vm_compute.
Qed.

Lemma pmksa_refines_witness : exists c, run_cache sample_ops pmksa_cache_auth_init = Ok c /\ pmksa_head c = Some 3%positive /\
  pmksa_cache_auth_deinit c = Ok ∅.
Proof.
  destruct (pmksa_refines sample_ops sample_fit) as (c & E & H & Hd). exists c. split; [exact E|]. split; [|exact Hd].
  rewrite (rep_head _ _ _ H). by vm_compute.
Defined.

Definition sample_cache : cache := match run_cache sample_ops pmksa_cache_auth_init with Ok c => c | Err _ => pmksa_cache_auth_init end.

Lemma sample_run : run_cache sample_ops pmksa_cache_auth_init = Ok sample_cache.
Proof.
  destruct (proj1 (safe_exists _ _) (run_cache_ok sample_ops _ _ init_rep sample_fit)) as (c & E & _). unfold sample_cache. rewrite E. reflexivity.
Qed.

Lemma sample_rep : rep [] sample_cache (foldl (fun l op => apply_op op l) [] sample_ops).
Proof.
  pose proof (run_cache_ok sample_ops _ _ init_rep sample_fit) as H. rewrite sample_run in H. exact H.
Qed.

Lemma pmksa_lookup_correct_witness :
  pmksa_cache_auth_get (Some (sample_spa 1)) None sample_cache = Ok (Some 3%positive) /\
  exists r, pmksa_cache_auth_get (Some (sample_spa 1)) (Some (replicate 16 0)) sample_cache = Ok r.
Proof.
  destruct (pmksa_lookup_correct _ _ (sample_spa 1) (sample_spa 9) (replicate 16 0) sample_rep) as (H1 & (r & H2 & _) & _);
    [done|by apply (arr_replicate 16)|]. split; [rewrite H1; by vm_compute|]. exists r. exact H2.
Defined.

Lemma pmksa_bounded_witness : exists l, rep [] sample_cache l /\ zlen l <= 1024.
Proof.
  destruct (pmksa_bounded sample_ops sample_cache sample_fit) as (l & H & _ & Hl & _); [by vm_compute|exact sample_run|]. exists l. split; [exact H|exact Hl].
Defined.
