(* ===== verification/WpaAuth.v ===== *)
(** * The WPA authenticator: all stations

    The step loop wpa_sm_step with the group state machine, which steps other
    stations, and the entry points of src/hostapd-2.5/src/ap/wpa_auth.c.  A
    station that is freed is [None].  [input] has what the environment can do
    between two calls: frames, timers, association events, and what the EAPOL
    machines and wpa_validate_wpa_ie write into a station. *)

From stdpp Require Import functions.
From S2P Require Import Prelude BlockCipher HexText AesCtr AesCcm EapolKey Prf WpaState WpaPtk.

Record world : Type := mkWorld { stas : list (option station); shw : shared }.

Definition the_sta (i : nat) (w : world) : option station := mjoin (stas w !! i).
Definition sta_isset (f : wflag) (i : nat) (w : world) : bool := default false ((fun x => flag_of x f) <$> the_sta i w).
Definition with_shw (f : shared -> shared) (w : world) : world := mkWorld (stas w) (f (shw w)).

(** an operation on station [i], nothing when it is NULL *)
Definition on (i : nat) (f : st -> M st) (w : world) : M world :=
  match the_sta i w with
  | None => Ok w
  | Some x => s ← f (mkSt x (shw w)); Ok (mkWorld (<[i := Some (sta s)]> (stas w)) (sh s))
  end.
Definition on_pure (i : nat) (f : st -> st) (w : world) : M world := on i (fun s => Ok (f s)) w.

(** enough for every loop: see [step_loop_ok] of WpaWorld.v *)
Definition STEP_FUEL : nat := 2000.
Definition STEP_DEPTH : nat := 2.

Section World.
Context {ctx : Type} {BC : BlockCipher ctx} {DG : Digests} {ENV : WpaEnv} (conf : wpa_auth_config).
Implicit Types w : world.

(** wpa_free_sta_sm *)
Definition wpa_free_sta_sm (i : nat) w : M world :=
  w ← on_pure i clear_update w;
  Ok (mkWorld (<[i := None]> (stas w)) (shw w)).

(** wpa_auth_for_each_sta *)
Fixpoint for_each_sta (cb : nat -> world -> M world) (l : list nat) w : M world :=
  match l with
  | [] => Ok w
  | i :: l => w ← cb i w; for_each_sta cb l w
  end.
Definition all_stas w : list nat := seq 0 (length (stas w)).

(** ** The group, with [step] for wpa_sm_step *)

Section Group.
Context (step : nat -> world -> M (Z * world)).

Definition wpa_group_update_sta (i : nat) w : M world :=
  match the_sta i w with
  | None => Ok w
  | Some x =>
      if negb (bool_decide (wpa_ptk_state x = WPA_PTK_PTKINITDONE)) then on_pure i (setf GUpdateStationKeys false) w
      else if flag_of x is_wnmsleep then Ok w
      else
        w ← on_pure i (fun s => s |> with_sh (fun x => gsetn GKeyDoneStations (gval GKeyDoneStations x + 1) x)
                                   |> setf GUpdateStationKeys true) w;
        '(_, w) ← step i w;
        Ok w
  end.

Definition wpa_group_setkeys w : M world :=
  x ← setkeys_start conf (shw w);
  for_each_sta wpa_group_update_sta (all_stas w) (mkWorld (stas w) x).

Definition wpa_group_fatal_failure w : M world :=
  let w := with_shw (fun x => x |> gsetf gchanged true |> gset_state WPA_GROUP_FATAL_FAILURE) w in
  for_each_sta (fun i => on_pure i (setf Disconnect true)) (all_stas w) w.

Definition wpa_group_setkeysdone w : M world :=
  let w := with_shw (fun x => x |> gsetf gchanged true |> gset_state WPA_GROUP_SETKEYSDONE) w in
  '(r, x) ← wpa_group_config_group_keys conf (shw w);
  let w := mkWorld (stas w) x in
  if r <? 0 then wpa_group_fatal_failure w else Ok w.

Definition wpa_group_sm_step w : M world :=
  let x := shw w in
  if gisset GInit x then x ← wpa_group_gtk_init conf x; Ok (mkWorld (stas w) x)
  else
    match wpa_group_state x with
    | WPA_GROUP_FATAL_FAILURE => Ok w
    | WPA_GROUP_GTK_INIT => if gisset GTKAuthenticator x then wpa_group_setkeysdone w else Ok w
    | WPA_GROUP_SETKEYSDONE => if gisset GTKReKey x then wpa_group_setkeys w else Ok w
    | WPA_GROUP_SETKEYS =>
        if gval GKeyDoneStations x =? 0 then wpa_group_setkeysdone w
        else if gisset GTKReKey x then wpa_group_setkeys w
        else Ok w
    end.

(** the loop of wpa_sm_step *)
Fixpoint step_loop (fuel : nat) (i : nat) w : M world :=
  match fuel with
  | O => Err OutOfFuel
  | S fuel =>
      if sta_isset pending_deinit i w then Ok w
      else
        w ← on_pure i (fun s => s |> setf changed false |> with_sh (gsetf gchanged false)) w;
        w ← on i (PTK_step conf) w;
        if sta_isset pending_deinit i w then Ok w
        else
          w ← on i (GROUP_step conf) w;
          if sta_isset pending_deinit i w then Ok w
          else
            w ← wpa_group_sm_step w;
            if sta_isset changed i w || gisset gchanged (shw w) then step_loop fuel i w else Ok w
  end.
End Group.

(** ** wpa_sm_step: the value returned and the stations; [depth] bounds the
    steps nested in the group's *)
Fixpoint wpa_sm_step (depth : nat) (i : nat) w : M (Z * world) :=
  match depth with
  | O => Err OutOfFuel
  | S depth =>
      match the_sta i w with
      | None => Ok (0, w)
      | Some x =>
          if flag_of x in_step_loop then Ok (0, w)
          else
            w ← on_pure i (setf in_step_loop true) w;
            w ← step_loop (wpa_sm_step depth) STEP_FUEL i w;
            w ← on_pure i (setf in_step_loop false) w;
            if sta_isset pending_deinit i w then w ← wpa_free_sta_sm i w; Ok (1, w)
            else Ok (0, w)
      end
  end.

Definition sm_step (i : nat) w : M (Z * world) := wpa_sm_step STEP_DEPTH i w.
Definition group_sm_step w : M world := wpa_group_sm_step (wpa_sm_step STEP_DEPTH) w.

(** ** Events *)

Definition wpa_auth_sm_event (event : wpa_event) (i : nat) w : M (Z * world) :=
  match the_sta i w with
  | None => Ok (-1, w)
  | Some x =>
      let finish w :=
        w ← on_pure i (event_end event) w;
        if flag_of x in_step_loop then w ← on_pure i (setf changed true) w; Ok (0, w)
        else sm_step i w in
      match event with
      | WPA_AUTH | WPA_ASSOC | WPA_ASSOC_FT => finish w
      | WPA_DEAUTH | WPA_DISASSOC => w ← on_pure i (setf DeauthenticationRequest true) w; finish w
      | WPA_REAUTH | WPA_REAUTH_EAPOL =>
          if negb (flag_of x started) then
            w ← on_pure i (fun s => s |> setf started true |> setf Init true) w;
            '(r, w) ← sm_step i w;
            if r =? 1 then Ok (1, w)
            else
              w ← on_pure i (fun s => s |> setf Init false |> setf AuthenticationRequest true) w;
              finish w
          else
            w ← on_pure i (fun s =>
                  s |> when (isset GUpdateStationKeys s) (fun s => s |> clear_update |> setf PtkGroupInit true)
                    |> setf ReAuthenticationRequest true) w;
            finish w
      end
  end.

(** the disconnect callback outside the step loop *)
Definition disconnect_sta (i : nat) w : M world :=
  w ← on_pure i (emit DisconnectSta) w;
  '(_, w) ← wpa_auth_sm_event WPA_DEAUTH i w;
  Ok w.

Definition wpa_auth_sta_associated (i : nat) w : M (Z * world) :=
  match the_sta i w with
  | None => Ok (-1, w)
  | Some x =>
      if conf_wpa conf =? 0 then Ok (-1, w)
      else if flag_of x started then
        w ← on_pure i (fun s => s |> set_key_replay no_replay |> setf ReAuthenticationRequest true) w;
        sm_step i w
      else
        w ← on_pure i (fun s => s |> setf started true |> setf Init true) w;
        '(r, w) ← sm_step i w;
        if r =? 1 then Ok (1, w)
        else
          w ← on_pure i (fun s => s |> setf Init false |> setf AuthenticationRequest true) w;
          sm_step i w
  end.

Definition wpa_auth_sta_deinit (i : nat) w : M world :=
  match the_sta i w with
  | None => Ok w
  | Some x =>
      w ← on_pure i (fun s => s |> emit CancelEapolTimer |> setf pending_1_of_4_timeout false |> emit CancelRekeyPtkTimer) w;
      if flag_of x in_step_loop then on_pure i (setf pending_deinit true) w else wpa_free_sta_sm i w
  end.

(** ** Timers *)

Definition wpa_send_eapol_timeout (i : nat) w : M (Z * world) :=
  w ← on_pure i (fun s => s |> setf pending_1_of_4_timeout false |> setf TimeoutEvt true) w;
  sm_step i w.

Definition wpa_rekey_ptk (i : nat) w : M (Z * world) :=
  w ← on_pure i wpa_request_new_ptk w;
  sm_step i w.

(** do ... while (group->changed) *)
Fixpoint rekey_loop (fuel : nat) w : M world :=
  match fuel with
  | O => Err OutOfFuel
  | S fuel =>
      w ← group_sm_step (with_shw (gsetf gchanged false) w);
      if gisset gchanged (shw w) then rekey_loop fuel w else Ok w
  end.

Definition wpa_rekey_gtk w : M world := rekey_loop STEP_FUEL (with_shw (gsetf GTKReKey true) w).

Definition wpa_rekey_gmk w : world :=
  let '(r, gmk) := random_get_bytes (tick (shw w)) WPA_GMK_LEN in
  with_shw (fun x => x |> gtick |> gsets GMK gmk) w.

Definition wpa_gtk_rekey w : M world :=
  x ← gtk_rekey_round conf (shw w);
  x ← gtk_rekey_round conf x;
  Ok (mkWorld (stas w) x).

(** ** Received frames *)

Definition wpa_receive (i : nat) (data : list Z) w : M world :=
  match the_sta i w with
  | None => Ok w
  | Some x =>
      '(r, s) ← receive_check conf data (mkSt x (shw w) |> emit (ReceivedEapol data));
      let w := mkWorld (<[i := Some (sta s)]> (stas w)) (sh s) in
      match r with
      | RDrop => Ok w
      | RDisconnect => disconnect_sta i w
      | RRemoved => wpa_auth_sta_deinit i w
      | RAccept rekey =>
          w ← (if rekey then wpa_rekey_gtk w else Ok w);
          match the_sta i w with
          | None => Ok w
          | Some x =>
              '(go_on, s) ← receive_store data (mkSt x (shw w));
              let w := mkWorld (<[i := Some (sta s)]> (stas w)) (sh s) in
              if (go_on : bool) then '(_, w) ← sm_step i w; Ok w else Ok w
          end
      end
  end.

(** the acknowledgement of message 1 *)
Definition wpa_auth_eapol_key_tx_status (i : nat) (ack : bool) w : M world :=
  on_pure i (fun s => when (isset pending_1_of_4_timeout s && ack)
    (fun s => s |> emit CancelEapolTimer |> emit (EapolTimer eapol_key_timeout_subseq)) s) w.

(** ** Start *)

Definition zero_group : shared :=
  mkShared (fun _ => false) (fun _ => 0) (fun _ => replicate 32 0) (replicate 2 (replicate 32 0)) (replicate 2 (replicate 32 0))
    WPA_GROUP_GTK_INIT 0 [].

(** [None] for NULL; the group state machine is started by wpa_init_keys *)
Definition wpa_group_init : M (option shared) :=
  let x := zero_group |> gsetf GTKAuthenticator true |> gsetn GTK_len (wpa_cipher_key_len (conf_wpa_group conf)) in
  let x := gtick x in
  '(r, x) ← wpa_group_init_gmk_and_counter conf x;
  Ok (if r <? 0 then None else Some (gsetf GInit true x)).

(** two steps of the group with GInit set and cleared *)
Definition start_group w : M world :=
  w ← group_sm_step w;
  group_sm_step (with_shw (gsetf GInit false) w).

Definition wpa_init_keys w : M (Z * world) :=
  w ← start_group w;
  Ok (if bool_decide (wpa_group_state (shw w) = WPA_GROUP_FATAL_FAILURE) then -1 else 0, w).

(** with the same configuration *)
Definition wpa_reconfig w : M world :=
  start_group (with_shw (fun x => x |> gsetn GTK_len (wpa_cipher_key_len (conf_wpa_group conf)) |> gsetf GInit true) w).

(** os_zalloc(sizeof(struct wpa_state_machine)) *)
Definition new_sta (addr : list Z) : station :=
  mkStation (fun _ => false) (fun _ => 0)
    (fun y => match y with alt_replay_counter | req_replay_counter => replicate 8 0 | _ => replicate 32 0 end)
    no_ptk no_replay no_replay None WPA_PTK_INITIALIZE WPA_PTK_GROUP_IDLE (mkAssoc addr None None [] None) [].

Definition wpa_auth_sta_init (addr : list Z) w : world :=
  if bool_decide (wpa_group_state (shw w) = WPA_GROUP_FATAL_FAILURE) then w
  else mkWorld (stas w ++ [Some (new_sta addr)]) (shw w).

Definition wpa_auth_sta_no_wpa (i : nat) w : M world := on_pure i (setn wpa_key_mgmt 0) w.

(** ** What can happen *)

Inductive input : Type :=
| InStaInit (addr : list Z)
| InAssociation (i : nat) (version cipher akm : Z) (mfp : bool) (a : association)   (* wpa_validate_wpa_ie *)
| InAssociated (i : nat) | InNoWpa (i : nat) | InDeinit (i : nat)
| InEvent (i : nat) (event : wpa_event)
| InReceive (i : nat) (data : list Z)
| InTxStatus (i : nat) (ack : bool)
| InTimeout (i : nat) | InStep (i : nat) | InRekeyPtk (i : nat)
| InEapol (i : nat) (run available : bool)                                          (* the EAPOL machines *)
| InRekeyGtk | InRekeyGmk | InGtkRekey | InReconfig.

Definition run_input (inp : input) w : M world :=
  match inp with
  | InStaInit addr => Ok (wpa_auth_sta_init addr w)
  | InAssociation i version cipher akm mfp a =>
      on_pure i (fun s => s |> setn wpa version |> setn pairwise cipher |> setn wpa_key_mgmt akm
                            |> setf mgmt_frame_prot mfp |> with_sta (sta_set_assoc a)) w
  | InAssociated i => snd <$> wpa_auth_sta_associated i w
  | InNoWpa i => wpa_auth_sta_no_wpa i w
  | InDeinit i => wpa_auth_sta_deinit i w
  | InEvent i event => snd <$> wpa_auth_sm_event event i w
  | InReceive i data => wpa_receive i data w
  | InTxStatus i ack => wpa_auth_eapol_key_tx_status i ack w
  | InTimeout i => snd <$> wpa_send_eapol_timeout i w
  | InStep i => snd <$> sm_step i w
  | InRekeyPtk i => snd <$> wpa_rekey_ptk i w
  | InEapol i run available => on_pure i (fun s => s |> setf keyRun run |> setf keyAvailable available) w
  | InRekeyGtk => wpa_rekey_gtk w
  | InRekeyGmk => Ok (wpa_rekey_gmk w)
  | InGtkRekey => wpa_gtk_rekey w
  | InReconfig => wpa_reconfig w
  end.

Fixpoint run_inputs (inps : list input) w : M world :=
  match inps with
  | [] => Ok w
  | inp :: inps => w ← run_input inp w; run_inputs inps w
  end.

(** wpa_init and wpa_init_keys *)
Definition wpa_start : M (option world) :=
  g ← wpa_group_init;
  match g with
  | None => Ok None
  | Some x => '(r, w) ← wpa_init_keys (mkWorld [] x); Ok (if r <? 0 then None else Some w)
  end.

(** a run from the start, [None] when the start fails *)
Definition wpa_run (inps : list input) : M (option world) :=
  r ← wpa_start;
  match r with
  | None => Ok None
  | Some w => Some <$> run_inputs inps w
  end.
End World.
