(* ===== verification/WpaWorld.v ===== *)
(** * The WPA authenticator: every run keeps the invariant

    The invariant of a station (WpaInv.v) for all stations, the distance to
    rest of the group state machine ([gm]), and that the step loop, the
    entry points and with them every run of the authenticator end without an
    error and keep the invariant. *)

From stdpp Require Import functions sets.
From S2P Require Import Prelude BlockCipher CText HexText AesWrap AesCtr AesOmac AesEax AesCcm EapolKey Prf WpaState WpaPtk WpaSafe WpaInv WpaAuth.

(** ** Stations of a world *)

Definition put (i : nat) (s : st) (w : world) : world := mkWorld (<[i := Some (sta s)]> (stas w)) (sh s).

Lemma the_sta_lookup i w x : the_sta i w = Some x <-> stas w !! i = Some (Some x).
Proof. unfold the_sta. destruct (stas w !! i) as [[y|]|]; cbn; naive_solver. Qed.

Lemma the_sta_put i s w x : the_sta i w = Some x -> the_sta i (put i s w) = Some (sta s).
Proof.
  rewrite the_sta_lookup. intros H. apply the_sta_lookup. apply list_lookup_insert_Some. left.
  split; [done|]. split; [done|]. by apply lookup_lt_Some in H.
Qed.

Lemma the_sta_put_ne i j s w : i <> j -> the_sta j (put i s w) = the_sta j w.
Proof. intros H. unfold the_sta, put. cbn. by rewrite list_lookup_insert_ne. Qed.

(** an operation on a station that is there *)
Lemma on_ok i f w x P : the_sta i w = Some x -> safe (f (mkSt x (shw w))) P -> safe (on i f w) (fun w' => exists s', P s' /\ w' = put i s' w).
Proof.
  intros E H. unfold on. rewrite E. eapply safe_bind; [exact H|]. intros s' Hs'. cbn. by exists s'.
Qed.

Lemma on_pure_ok i f w x : the_sta i w = Some x -> on_pure i f w = Ok (put i (f (mkSt x (shw w))) w).
Proof. intros E. unfold on_pure, on. by rewrite E. Qed.

Lemma on_none i f w : the_sta i w = None -> on i f w = Ok w.
Proof. intros E. unfold on. by rewrite E. Qed.

Lemma put_put i s s' w : put i s' (put i s w) = put i s' w.
Proof. unfold put. cbn. by rewrite list_insert_insert_eq. Qed.

(** ** The distance to rest of the group state machine *)

Definition gm (x : shared) : Z :=
  if gflag_of x GInit then 0
  else (if gflag_of x GTKReKey then 4 else 0) +
       match wpa_group_state x with
       | WPA_GROUP_GTK_INIT => 3 | WPA_GROUP_SETKEYS => 2 | WPA_GROUP_SETKEYSDONE => 1 | WPA_GROUP_FATAL_FAILURE => 0
       end.

Lemma gm_range x : 0 <= gm x <= 7.
Proof. unfold gm. destruct (gflag_of x GInit), (gflag_of x GTKReKey), (wpa_group_state x); lia. Qed.

(** [same_group] but for the flag of the loop *)
Definition same_machine (x y : shared) : Prop :=
  wpa_group_state y = wpa_group_state x /\ gflag_of y GInit = gflag_of x GInit /\ gflag_of y GTKReKey = gflag_of x GTKReKey.

Lemma same_group_machine x y : same_group x y -> same_machine x y.
Proof. intros (E1 & E2 & E3 & _). done. Qed.

Lemma gm_machine x y : same_machine x y -> gm y = gm x.
Proof. intros (E1 & E2 & E3). unfold gm. by rewrite E1, E2, E3. Qed.

Lemma gm_same x y : same_group x y -> gm y = gm x.
Proof. intros H. by apply gm_machine, same_group_machine. Qed.

(** ** What a group step does to a station in the step loop *)

Record poked (x y : station) : Prop := {
  p_flag f : f <> GUpdateStationKeys -> f <> Disconnect -> flag_of y f = flag_of x f;
  p_disconnect : flag_of x Disconnect = true -> flag_of y Disconnect = true;
  p_num : num_of y = num_of x;
  p_str : str_of y = str_of x;
  p_PTK : PTK y = PTK x;
  p_replay : key_replay y = key_replay x;
  p_rx : last_rx_eapol_key y = last_rx_eapol_key x;
  p_state : wpa_ptk_state y = wpa_ptk_state x;
  p_group : wpa_ptk_group_state y = wpa_ptk_group_state x;
  p_assoc : assoc y = assoc x;
  p_log : slog y = slog x }.

Lemma poked_refl x : poked x x.
Proof. done. Qed.

Lemma poked_trans x y z : poked x y -> poked y z -> poked x z.
Proof.
  intros H1 H2. split; intros.
  - by rewrite (p_flag _ _ H2), (p_flag _ _ H1).
  - by apply (p_disconnect _ _ H2), (p_disconnect _ _ H1).
  - by rewrite (p_num _ _ H2), (p_num _ _ H1).
  - by rewrite (p_str _ _ H2), (p_str _ _ H1).
  - by rewrite (p_PTK _ _ H2), (p_PTK _ _ H1).
  - by rewrite (p_replay _ _ H2), (p_replay _ _ H1).
  - by rewrite (p_rx _ _ H2), (p_rx _ _ H1).
  - by rewrite (p_state _ _ H2), (p_state _ _ H1).
  - by rewrite (p_group _ _ H2), (p_group _ _ H1).
  - by rewrite (p_assoc _ _ H2), (p_assoc _ _ H1).
  - by rewrite (p_log _ _ H2), (p_log _ _ H1).
Qed.

Lemma poked_update b x : poked x (sta_setf GUpdateStationKeys b x).
Proof. split; try done; cbn; intros; by rewrite fn_lookup_insert_ne by done. Qed.

Lemma poked_disconnect x : poked x (sta_setf Disconnect true x).
Proof. split; try done; cbn; intros; by rewrite fn_lookup_insert_ne by done. Qed.

Lemma poked_requested x y : poked x y -> requested y = false -> requested x = false.
Proof.
  intros H. unfold requested. rewrite (p_flag _ _ H DeauthenticationRequest), (p_flag _ _ H AuthenticationRequest),
    (p_flag _ _ H ReAuthenticationRequest), (p_flag _ _ H PTKRequest) by done. pose proof (p_disconnect _ _ H) as Hd.
  destruct (flag_of x Disconnect); [|by destruct (flag_of y Disconnect)]. by rewrite Hd.
Qed.

Lemma poked_waiting x y : poked x y -> waiting y = waiting x.
Proof. intros H. unfold waiting. by rewrite !(p_flag _ _ H) by done. Qed.

Lemma quiet_poked x y : poked x y -> quiet x -> quiet y.
Proof.
  intros H Hq Hr. unfold quiet. rewrite (p_state _ _ H), (poked_waiting _ _ H). apply Hq. by eapply poked_requested.
Qed.

(** the members of the invariant that a chain of setters does not change *)
Ltac kept H :=
  destruct H as [I1 I2 I3 I4 I5 I6 I7 I8 I9 I10 I11 I12]; split; mems; first [assumption | discriminate | idtac].

Section World.
Context {ctx : Type} {BC : BlockCipher ctx} {BCL : BlockCipherLaws ctx} {DG : Digests} {DL : DigestsLaws} {DT : DigestsTotal}
  {ENV : WpaEnv} {EL : EnvLaws} (conf : wpa_auth_config) (CO : conf_ok conf).
Implicit Types (w : world) (s : st) (x y : station).

Abbreviation inv := (inv conf).

Lemma inv_poked x y : poked x y -> inv x -> inv y.
Proof.
  intros H [I1 I2 I3 I4 I5 I6 I7 I8 I9 I10 I11 I12]. pose proof (poked_requested _ _ H) as Hr. split.
  - by rewrite (p_replay _ _ H).
  - by rewrite (p_str _ _ H).
  - by rewrite (p_num _ _ H).
  - intros pmk id. rewrite (p_assoc _ _ H). apply I4.
  - by rewrite (p_group _ _ H), (p_num _ _ H).
  - by rewrite (p_flag _ _ H).
  - rewrite (p_flag _ _ H), (p_log _ _ H), (p_PTK _ _ H) by done. exact I7.
  - intros d. rewrite (p_rx _ _ H), (p_log _ _ H). apply I8.
  - by rewrite (p_flag _ _ H), (p_state _ _ H), (p_rx _ _ H).
  - by rewrite (p_log _ _ H).
  - rewrite (p_state _ _ H), (poked_waiting _ _ H), !(p_flag _ _ H) by done. auto.
  - rewrite (p_state _ _ H), (poked_waiting _ _ H), !(p_flag _ _ H) by done. auto.
Qed.

(** ** Worlds *)

Record world_ok w : Prop := {
  w_sh : sh_ok (shw w);
  w_inv i x : the_sta i w = Some x -> inv x;
  w_quiet i x : the_sta i w = Some x -> flag_of x in_step_loop = false -> quiet x }.

(** what happens to the stations and the group while station [o] is stepped *)
Record evolves (o : option nat) w w' : Prop := {
  e_len : length (stas w') = length (stas w);
  e_none i : the_sta i w = None -> the_sta i w' = None;
  e_some i x : the_sta i w = Some x -> exists y, the_sta i w' = Some y /\ flag_of y in_step_loop = flag_of x in_step_loop /\
    slog x `suffix_of` slog y /\ (flag_of x in_step_loop = true -> o <> Some i -> poked x y);
  e_init : gflag_of (shw w') GInit = gflag_of (shw w) GInit;
  e_rekey : gflag_of (shw w) GTKReKey = false -> gflag_of (shw w') GTKReKey = false;
  e_gm : gm (shw w') <= gm (shw w) }.

Lemma evolves_refl o w : evolves o w w.
Proof. split; try done. intros i x E. exists x. by split_and!. Qed.

Lemma evolves_trans o a b c : evolves o a b -> evolves o b c -> evolves o a c.
Proof.
  intros H1 H2. split.
  - by rewrite (e_len _ _ _ H2), (e_len _ _ _ H1).
  - intros i E. by apply (e_none _ _ _ H2), (e_none _ _ _ H1).
  - intros i x E. destruct (e_some _ _ _ H1 i x E) as (y & Ey & L1 & S1 & P1). destruct (e_some _ _ _ H2 i y Ey) as (z & Ez & L2 & S2 & P2).
    exists z. split; [done|]. split; [congruence|]. split; [by etrans|]. intros Hl Ho. rewrite <- L1 in Hl. eapply poked_trans; [apply P1|by apply P2]; congruence.
  - by rewrite (e_init _ _ _ H2), (e_init _ _ _ H1).
  - intros E. by apply (e_rekey _ _ _ H2), (e_rekey _ _ _ H1).
  - etrans; [apply (e_gm _ _ _ H2)|apply (e_gm _ _ _ H1)].
Qed.

Lemma evolves_none o w w' : evolves None w w' -> evolves o w w'.
Proof.
  intros []. split; try done. intros i x E. destruct (e_some0 i x E) as (y & E1 & E2 & E3 & E4). exists y. split_and!; auto.
Qed.

(** one station changes *)
Lemma put_machine i x s' w : world_ok w -> the_sta i w = Some x -> inv (sta s') -> sh_ok (sh s') -> same_machine (shw w) (sh s') ->
  flag_of (sta s') in_step_loop = flag_of x in_step_loop -> slog x `suffix_of` slog (sta s') ->
  (flag_of x in_step_loop = true \/ quiet (sta s')) -> world_ok (put i s' w) /\ evolves (Some i) w (put i s' w).
Proof.
  intros [W1 W2 W3] E Hi Hk Hg Hl Hs Hq. split; split.
  - exact Hk.
  - intros j y. destruct (decide (i = j)) as [<-|Hne]; [by rewrite (the_sta_put _ _ _ _ E); intros [= <-]|].
    rewrite the_sta_put_ne by done. apply W2.
  - intros j y. destruct (decide (i = j)) as [<-|Hne].
    + rewrite (the_sta_put _ _ _ _ E). intros [= <-] Hn. destruct Hq; [congruence|done].
    + rewrite the_sta_put_ne by done. apply W3.
  - unfold put. cbn. apply length_insert.
  - intros j Ej. destruct (decide (i = j)) as [<-|Hne]; [congruence|]. by rewrite the_sta_put_ne.
  - intros j y Ej. destruct (decide (i = j)) as [<-|Hne].
    + rewrite (the_sta_put _ _ _ _ E). replace y with x by congruence. exists (sta s'). by split_and!.
    + rewrite the_sta_put_ne by done. exists y. by split_and!.
  - apply Hg.
  - destruct Hg as (_ & _ & Hg). cbn. by rewrite Hg.
  - cbn. by rewrite (gm_machine _ _ Hg).
Qed.

Lemma put_keeps i x s' w : world_ok w -> the_sta i w = Some x -> inv (sta s') -> keeps (shw w) (sh s') ->
  flag_of (sta s') in_step_loop = flag_of x in_step_loop -> slog x `suffix_of` slog (sta s') ->
  (flag_of x in_step_loop = true \/ quiet (sta s')) -> world_ok (put i s' w) /\ evolves (Some i) w (put i s' w).
Proof. intros Hw E Hi [Hk Hg]. by apply put_machine; [..|apply same_group_machine]. Qed.

(** a station is poked and a counter of the group changes *)
Lemma poke_ok i x y (z : shared) w : world_ok w -> the_sta i w = Some x -> poked x y -> keeps (shw w) z ->
  world_ok (put i (mkSt y z) w) /\ evolves None w (put i (mkSt y z) w).
Proof.
  intros Hw E Hp Hk. pose proof (p_flag _ _ Hp in_step_loop) as Hl.
  destruct (put_keeps i x (mkSt y z) w) as [H1 H2]; try done.
  - cbn. eapply inv_poked; [done|]. by eapply w_inv.
  - cbn. by rewrite Hl.
  - cbn. by rewrite (p_log _ _ Hp).
  - destruct (flag_of x in_step_loop) eqn:El; [by left|]. right. cbn. eapply quiet_poked; [done|]. by eapply w_quiet.
  - split; [done|]. destruct H2 as [E1 E2 E3 E4 E5 E6]. split; try done. intros j v Ej. destruct (decide (i = j)) as [<-|Hne].
    + rewrite (the_sta_put _ _ _ _ E). replace v with x by congruence. exists y. cbn. rewrite Hl, (p_log _ _ Hp) by done. by split_and!.
    + rewrite the_sta_put_ne by done. exists v. by split_and!.
Qed.

(** ** The group state machine *)

Lemma with_shw_ok f w : world_ok w -> keeps (shw w) (f (shw w)) -> world_ok (with_shw f w) /\ evolves None w (with_shw f w).
Proof.
  intros [W1 W2 W3] [Hk Hg]. split; [by split|]. split; try done.
  - intros i x E. exists x. by split_and!.
  - cbn. by destruct Hg as (_ & -> & _).
  - destruct Hg as (_ & _ & Hg & _). cbn. by rewrite Hg.
  - cbn. by rewrite (gm_same _ _ Hg).
Qed.

Lemma for_each_ok (Q : world -> Prop) cb l w :
  (forall i w, world_ok w -> Q w -> safe (cb i w) (fun w' => world_ok w' /\ evolves None w w' /\ Q w')) ->
  world_ok w -> Q w -> safe (for_each_sta cb l w) (fun w' => world_ok w' /\ evolves None w w' /\ Q w').
Proof.
  intros Hcb. revert w. induction l as [|i l IH]; intros w Hw HQ; cbn [for_each_sta].
  - cbn. split; [done|]. split; [apply evolves_refl|done].
  - eapply safe_bind; [by apply Hcb|]. intros w1 (H1 & H2 & H3). eapply safe_mono; [by apply IH|].
    intros w2 (H4 & H5 & H6). split; [done|]. split; [by eapply evolves_trans|done].
Qed.

(** a step nested in the group's: there is nothing to rekey *)
Definition step_spec (step : nat -> world -> M (Z * world)) : Prop :=
  forall i w, world_ok w -> gflag_of (shw w) GTKReKey = false ->
  safe (step i w) (fun r => world_ok r.2 /\ evolves None w r.2 /\ r.1 = 0).

Section Group.
Context (step : nat -> world -> M (Z * world)).

Lemma update_sta_ok i w : step_spec step -> world_ok w -> gflag_of (shw w) GTKReKey = false ->
  safe (wpa_group_update_sta step i w) (fun w' => world_ok w' /\ evolves None w w' /\ gflag_of (shw w') GTKReKey = false).
Proof.
  intros Hstep Hw Hr. unfold wpa_group_update_sta. destruct (the_sta i w) as [x|] eqn:E.
  2: { split; [done|]. by split; [apply evolves_refl|]. }
  destruct (negb _).
  { rewrite (on_pure_ok _ _ _ _ E). unfold safe. destruct (poke_ok i x (sta_setf GUpdateStationKeys false x) (shw w) w) as [H1 H2];
      [done|done|apply poked_update|apply keeps_refl, (w_sh _ Hw)|]. split; [exact H1|]. split; [exact H2|done]. }
  destruct (flag_of x is_wnmsleep); [split; [done|]; by split; [apply evolves_refl|]|].
  rewrite (on_pure_ok _ _ _ _ E), bind_ok. set (w1 := put i _ w).
  assert (world_ok w1 /\ evolves None w w1) as [H1 H2].
  { apply (poke_ok i x (sta_setf GUpdateStationKeys true x) (gsetn GKeyDoneStations (gval GKeyDoneStations (shw w) + 1) (shw w)) w);
      [done|done|apply poked_update|]. apply keeps_num; try done. apply keeps_refl, (w_sh _ Hw). }
  eapply safe_bind; [apply Hstep; [done|by apply (e_rekey _ _ _ H2)]|]. intros [r w2] (H3 & H4 & _). cbn [snd] in *. unfold safe.
  split; [done|]. split; [by eapply evolves_trans|]. by apply (e_rekey _ _ _ H4), (e_rekey _ _ _ H2).
Qed.

(** a group state that is nearer to rest *)
Lemma group_change_ok (z : shared) w : world_ok w -> sh_ok z -> gflag_of z GInit = gflag_of (shw w) GInit ->
  (gflag_of (shw w) GTKReKey = false -> gflag_of z GTKReKey = false) -> gm z <= gm (shw w) ->
  world_ok (mkWorld (stas w) z) /\ evolves None w (mkWorld (stas w) z).
Proof.
  intros [W1 W2 W3] Hz HI HR Hg. split; [by split|]. split; try done. intros i x E. exists x. by split_and!.
Qed.

Lemma setkeys_ok w : step_spec step -> world_ok w -> gflag_of (shw w) GInit = false -> gflag_of (shw w) GTKReKey = true ->
  wpa_group_state (shw w) = WPA_GROUP_SETKEYS \/ wpa_group_state (shw w) = WPA_GROUP_SETKEYSDONE ->
  safe (wpa_group_setkeys conf step w) (fun w' => world_ok w' /\ evolves None w w' /\ gm (shw w') < gm (shw w)).
Proof.
  intros Hstep Hw HI HR Hst. unfold wpa_group_setkeys.
  eapply safe_bind; [apply setkeys_start_safe, (w_sh _ Hw)|]. intros z (Hz & Hzst & HzR & HzI).
  assert (gm z < gm (shw w)) as Hgm by (unfold gm; rewrite HzI, HI, HzR, HR, Hzst; by destruct Hst as [-> | ->]).
  destruct (group_change_ok z w) as [H1 H2]; [done..|lia|]. eapply safe_mono.
  - apply (for_each_ok (fun w => gflag_of (shw w) GTKReKey = false)); [|done|done]. intros. by apply update_sta_ok.
  - intros w' (H3 & H4 & _). split; [done|]. split; [by eapply evolves_trans|]. pose proof (e_gm _ _ _ H4) as H5. cbn in H5. lia.
Qed.

Lemma disconnect_all_ok l w : world_ok w ->
  safe (for_each_sta (fun i => on_pure i (setf Disconnect true)) l w) (fun w' => world_ok w' /\ evolves None w w').
Proof.
  intros Hw. eapply safe_mono; [apply (for_each_ok (fun _ => True)); [|done|done]|by intros w' (? & ? & _)].
  intros i w1 Hw1 _. destruct (the_sta i w1) as [x|] eqn:E.
  - rewrite (on_pure_ok _ _ _ _ E). unfold safe. destruct (poke_ok i x (sta_setf Disconnect true x) (shw w1) w1) as [H1 H2];
      [done|done|apply poked_disconnect|apply keeps_refl, (w_sh _ Hw1)|]. split; [exact H1|]. split; [exact H2|done].
  - unfold on_pure. rewrite on_none by done. split; [done|]. split; [apply evolves_refl|done].
Qed.

Lemma setkeysdone_ok w : world_ok w -> gflag_of (shw w) GInit = false ->
  wpa_group_state (shw w) = WPA_GROUP_GTK_INIT \/ wpa_group_state (shw w) = WPA_GROUP_SETKEYS ->
  safe (wpa_group_setkeysdone conf w) (fun w' => world_ok w' /\ evolves None w w' /\ gm (shw w') < gm (shw w)).
Proof.
  intros Hw HI Hst. unfold wpa_group_setkeysdone. set (z := gset_state WPA_GROUP_SETKEYSDONE (gsetf gchanged true (shw w))).
  assert (sh_ok z) as Hz by (destruct (w_sh _ Hw) as [[] Hi]; split; [split; unfold z; mem; done|exact Hi]).
  assert (gflag_of z GInit = false /\ gflag_of z GTKReKey = gflag_of (shw w) GTKReKey) as [HzI HzR] by (split; unfold z; mem; done).
  assert (gm z < gm (shw w)) as Hgm.
  { unfold gm. rewrite HzI, HzR, HI. unfold z. cbn [gset_state wpa_group_state]. destruct (gflag_of (shw w) GTKReKey), Hst as [-> | ->]; lia. }
  eapply safe_bind; [exact (config_keys_safe conf z Hz)|]. intros [r z'] [Hz' Hg]. cbn [fst snd] in *.
  destruct (group_change_ok z' w) as [H1 H2]; [done|done|..].
  { destruct Hg as (_ & -> & _). by rewrite HI. }
  { destruct Hg as (_ & _ & -> & _). by rewrite HzR. }
  { rewrite (gm_same _ _ Hg). lia. }
  assert (gm z' < gm (shw w)) as Hgm' by (by rewrite (gm_same _ _ Hg)).
  destruct (r <? 0); [|by unfold safe]. unfold wpa_group_fatal_failure. set (f := gset_state WPA_GROUP_FATAL_FAILURE (gsetf gchanged true z')).
  assert (world_ok (mkWorld (stas w) f) /\ evolves None (mkWorld (stas w) z') (mkWorld (stas w) f)) as [H3 H4].
  { apply (group_change_ok f (mkWorld (stas w) z')); [done|..].
    - destruct Hz' as [[] Hi]; split; [split; unfold f; mem; done|exact Hi].
    - unfold f. mem. done.
    - unfold f. cbn. mem. done.
    - unfold gm, f. cbn [shw gset_state wpa_group_state]. mem. destruct (gflag_of z' GInit), (gflag_of z' GTKReKey), (wpa_group_state z'); lia. }
  eapply safe_mono; [by apply disconnect_all_ok|]. intros w' [H5 H6]. pose proof (evolves_trans _ _ _ _ H4 H6) as H7.
  split; [done|]. split; [by eapply evolves_trans|]. pose proof (e_gm _ _ _ H7) as H8. cbn in H8. lia.
Qed.

Lemma group_step_ok w : (gflag_of (shw w) GTKReKey = true -> step_spec step) -> world_ok w ->
  safe (wpa_group_sm_step conf step w) (fun w' => world_ok w' /\ evolves None w w' /\
    ((stas w' = stas w /\ (gflag_of (shw w) gchanged = false -> gflag_of (shw w') gchanged = false)) \/ gm (shw w') < gm (shw w))).
Proof.
  intros Hstep Hw. unfold wpa_group_sm_step. destruct (gisset GInit (shw w)) eqn:HI; unfold gisset in HI.
  - eapply safe_bind; [apply gtk_init_safe, (w_sh _ Hw)|]. intros z (Hz & _ & Hzc & HzI & HzR). unfold safe.
    destruct (group_change_ok z w) as [H1 H2]; [done..|by rewrite HzR|unfold gm; by rewrite HzI, HI|].
    split; [done|]. split; [done|]. left. split; [done|]. intros _. exact Hzc.
  - assert (world_ok w /\ evolves None w w /\ ((stas w = stas w /\ (gflag_of (shw w) gchanged = false -> gflag_of (shw w) gchanged = false)) \/
      gm (shw w) < gm (shw w))) as Hrest by (split; [done|]; split; [apply evolves_refl|by left]).
    destruct (wpa_group_state (shw w)) eqn:Est.
    + destruct (gisset GTKAuthenticator (shw w)); [|done]. eapply safe_mono; [apply setkeysdone_ok; auto|]. intros w' (? & ? & ?). auto.
    + destruct (_ =? 0); [eapply safe_mono; [apply setkeysdone_ok; auto|]; intros w' (? & ? & ?); auto|].
      destruct (gisset GTKReKey (shw w)) eqn:HR; [|done]. unfold gisset in HR.
      eapply safe_mono; [apply setkeys_ok; auto|]. intros w' (? & ? & ?). auto.
    + destruct (gisset GTKReKey (shw w)) eqn:HR; [|done]. unfold gisset in HR.
      eapply safe_mono; [apply setkeys_ok; auto|]. intros w' (? & ? & ?). auto.
    + done.
Qed.
End Group.

(** ** The step loop *)

Lemma stepped_world i x w s0 s' : world_ok w -> the_sta i w = Some x -> flag_of x in_step_loop = true -> s0 = mkSt x (shw w) ->
  inv (sta s') -> keeps (sh s0) (sh s') -> isset in_step_loop s' = isset in_step_loop s0 -> slog (sta s0) `suffix_of` slog (sta s') ->
  world_ok (put i s' w) /\ evolves (Some i) w (put i s' w) /\ the_sta i (put i s' w) = Some (sta s').
Proof.
  intros Hw E Hl -> H1 H2 H3 H4. destruct (put_keeps i x s' w) as [H5 H6]; [done..|by left|]. split; [done|]. split; [done|].
  by apply the_sta_put with x.
Qed.

(** what both machines of a station in the loop make of it: at rest, or nearer to it, or reset by [Init] *)
Lemma machines_ok i x w : world_ok w -> the_sta i w = Some x -> flag_of x in_step_loop = true -> flag_of x changed = false ->
  safe (on i (PTK_step conf) w) (fun w1 => sta_isset pending_deinit i w1 = false /\
    safe (on i (GROUP_step conf) w1) (fun w' => world_ok w' /\ evolves (Some i) w w' /\
      same_group (shw w) (shw w') /\ exists y, the_sta i w' = Some y /\
        ((flag_of y changed = true /\ rank y < rank x) \/ (flag_of y changed = false /\ quiet y)))).
Proof.
  intros Hw E Hl Hc. pose proof (w_inv _ Hw _ _ E) as Hi. pose proof (w_sh _ Hw) as Hsh. set (s0 := mkSt x (shw w)).
  eapply safe_mono; [exact (on_ok i (PTK_step conf) w x _ E (PTK_step_ok conf CO s0 Hi Hsh))|]. intros w1 (s1 & Hs1 & ->).
  assert (inv (sta s1) /\ keeps (shw w) (sh s1) /\ flag_of (sta s1) in_step_loop = true /\ slog x `suffix_of` slog (sta s1) /\
    isset Init s1 = isset Init s0) as (A1 & A2 & A3 & A4 & A5).
  { destruct Hs1 as [[_ []]|[(_ & -> & _)|[_ []]]]; unfold isset in *; (split; [first [assumption|exact Hi]|]);
      (split; [first [assumption|by apply keeps_refl]|]); (split; [first [exact Hl|by rewrite <- Hl]|]); by split. }
  destruct (stepped_world i x w s0 s1) as (B1 & B2 & B3); [done..|exact (eq_trans A3 (eq_sym Hl))|done|].
  split; [unfold sta_isset; rewrite B3; apply (i_pend _ _ A1)|].
  eapply safe_mono; [exact (on_ok i (GROUP_step conf) (put i s1 w) (sta s1) _ B3 (GROUP_step_ok conf CO (mkSt (sta s1) (shw (put i s1 w))) A1 (w_sh _ B1)))|].
  intros w2 (s2 & Hs2 & ->). destruct Hs2 as [G1 G2 GL G3 G4 G5 G6].
  destruct (stepped_world i (sta s1) (put i s1 w) (mkSt (sta s1) (shw (put i s1 w))) s2) as (C1 & C2 & C3); [done..|].
  split; [done|]. split; [by eapply evolves_trans|]. split; [eapply same_group_trans; [apply A2|apply G2]|].
  exists (sta s2). split; [done|]. cbn [sta] in *. unfold isset in *. cbn [sta] in *.
  destruct Hs1 as [[HI [N1 N2 NL N3 N4 N5 N6]]|[(HI & -> & Hq)|[HI [N1 N2 NL N3 N4 N5 N6 N7]]]]; unfold isset in *; cbn [sta] in *.
  - left. destruct G6 as [->|[(_ & G6 & G7)|[G6 _]]]; [done|cbn in *; split; [done|lia]|congruence].
  - destruct G6 as [->|[(_ & G6 & G7)|[G6 _]]]; [right; cbn; done|left; split; [done|cbn in *; lia]|congruence].
  - right. destruct G6 as [->|[(G6 & _)|[_ G6]]]; [|congruence|].
    + split; [done|]. cbn. intros _. rewrite N5. discriminate.
    + split; [done|]. intros _. rewrite G5, N5. discriminate.
Qed.

Definition loop_measure x (z : shared) : Z := 200 * gm z + rank x.

Lemma step_loop_ok step fuel i w x : (gflag_of (shw w) GTKReKey = true -> step_spec step) -> world_ok w ->
  the_sta i w = Some x -> flag_of x in_step_loop = true -> (Z.to_nat (loop_measure x (shw w)) < fuel)%nat ->
  safe (step_loop conf step fuel i w) (fun w' => world_ok w' /\ evolves (Some i) w w' /\
    exists y, the_sta i w' = Some y /\ flag_of y in_step_loop = true /\ quiet y).
Proof.
  revert w x. induction fuel as [|fuel IH]; intros w x Hstep Hw E Hl Hf; [lia|]. cbn [step_loop].
  assert (forall v y, world_ok v -> the_sta i v = Some y -> sta_isset pending_deinit i v = false) as Hpd.
  { intros v y Hv Ey. unfold sta_isset. rewrite Ey. cbn. apply (i_pend _ _ (w_inv _ Hv _ _ Ey)). }
  rewrite (Hpd w x), (on_pure_ok _ _ _ _ E), bind_ok by done. set (s1 := setf changed false (mkSt x (shw w)) |> with_sh (gsetf gchanged false)).
  destruct (put_machine i x s1 w) as [H1 H2]; [done|done|..].
  { pose proof (w_inv _ Hw _ _ E) as Hi. unfold s1. destruct Hi. by split. }
  { destruct (w_sh _ Hw) as [[] Hi]. by split. }
  { done. }
  { done. }
  { done. }
  { by left. }
  pose proof (the_sta_put i s1 w x E) as E1. set (w1 := put i s1 w) in *.
  assert (rank (sta s1) = rank x) as Hrk by (unfold s1; ranks; reflexivity). assert (gm (shw w1) = gm (shw w)) as Hgm1 by done.
  assert (gflag_of (shw w1) gchanged = false) as Hgc by done.
  eapply safe_bind; [exact (machines_ok i (sta s1) w1 H1 E1 Hl eq_refl)|]. intros w2 [-> Hm].
  eapply safe_bind; [exact Hm|]. intros w3 (H3 & H4 & Hg & y & Ey & Hy). rewrite (Hpd w3 y) by done.
  pose proof (gm_same _ _ Hg) as Hgm3. assert (flag_of y in_step_loop = true) as Hly.
  { destruct (e_some _ _ _ H4 i _ E1) as (y' & Ey' & L & _). replace y with y' by congruence. by rewrite L. }
  assert (gflag_of (shw w3) gchanged = false) as Hc3 by (destruct Hg as (_ & _ & _ & ->); exact Hgc).
  assert (gflag_of (shw w3) GTKReKey = true -> step_spec step) as Hstep3 by (destruct Hg as (_ & _ & -> & _); exact Hstep).
  eapply safe_bind; [exact (group_step_ok step w3 Hstep3 H3)|]. intros w4 (H5 & H6 & Hpr).
  destruct (e_some _ _ _ H6 i _ Ey) as (z & Ez & Lz & Sz & Pz). specialize (Pz Hly ltac:(done)).
  pose proof (evolves_trans _ _ _ _ H2 (evolves_trans _ _ _ _ H4 (evolves_none (Some i) _ _ H6))) as He.
  assert (flag_of z changed = flag_of y changed) as Hcz by (by apply (p_flag _ _ Pz)).
  destruct (sta_isset changed i w4 || gisset gchanged (shw w4)) eqn:Ec.
  - eapply safe_mono; [apply (IH w4 z); [|done|done|congruence|]|].
    + intros HR. apply Hstep3. destruct (gflag_of (shw w3) GTKReKey) eqn:ER; [done|]. by rewrite (e_rekey _ _ _ H6 ER) in HR.
    + pose proof (rank_range z) as Rz. pose proof (rank_range x) as Rx. pose proof (gm_range (shw w4)) as G4.
      pose proof (e_gm _ _ _ H6) as G6. unfold loop_measure in *.
      destruct Hpr as [[Es Hc4]|Hgm4].
      * assert (z = y) as -> by (unfold the_sta in *; rewrite Es in Ez; congruence).
        unfold sta_isset, gisset in Ec. rewrite Ez in Ec. cbn in Ec. rewrite (Hc4 Hc3), orb_false_r in Ec.
        destruct Hy as [[_ Hy]|[Hy _]]; [clear -Hf Hrk Hgm1 Hgm3 Hy G6 G4 Rx Rz; lia|congruence].
      * clear -Hf Hgm1 Hgm3 Hgm4 G4 Rx Rz. lia.
    + intros w' (H7 & H8 & H9). split; [done|]. split; [by eapply evolves_trans|done].
  - unfold safe. split; [done|]. split; [done|]. exists z. split; [done|]. split; [congruence|].
    apply orb_false_iff in Ec as [Ec _]. unfold sta_isset in Ec. rewrite Ez in Ec. cbn in Ec.
    eapply quiet_poked; [exact Pz|]. destruct Hy as [[Hy _]|[_ Hy]]; [congruence|done].
Qed.

Lemma measure_fuel x (z : shared) : (Z.to_nat (loop_measure x z) < STEP_FUEL)%nat.
Proof. pose proof (rank_range x). pose proof (gm_range z). unfold loop_measure, STEP_FUEL. lia. Qed.

(** every station but [i] is quiet *)
Record world_but (i : nat) w : Prop := {
  b_sh : sh_ok (shw w);
  b_inv j x : the_sta j w = Some x -> inv x;
  b_quiet j x : j <> i -> the_sta j w = Some x -> flag_of x in_step_loop = false -> quiet x }.

Lemma world_ok_but i w : world_ok w -> world_but i w.
Proof. intros [W1 W2 W3]. split; [done|done|]. intros j x _. apply W3. Qed.

Lemma world_but_ok i w : world_but i w -> (forall x, the_sta i w = Some x -> flag_of x in_step_loop = true) -> world_ok w.
Proof.
  intros [W1 W2 W3] Hi. split; [done|done|]. intros j x E Hl. destruct (decide (j = i)) as [->|Hne]; [|by eapply W3].
  rewrite (Hi x E) in Hl. done.
Qed.

Lemma sm_step_ok depth i w : (gflag_of (shw w) GTKReKey = true -> step_spec (wpa_sm_step conf depth)) -> world_but i w ->
  safe (wpa_sm_step conf (S depth) i w) (fun r => world_ok r.2 /\ evolves None w r.2 /\ r.1 = 0).
Proof.
  intros Hstep Hw. cbn [wpa_sm_step]. destruct (the_sta i w) as [x|] eqn:E.
  2: { unfold safe; cbn [fst snd]; split; [apply (world_but_ok i); [done|intros; congruence]|]. split; [apply evolves_refl|done]. }
  destruct (flag_of x in_step_loop) eqn:Hl.
  { unfold safe; cbn [fst snd]; split; [apply (world_but_ok i); [done|intros z Ez; by replace z with x by congruence]|]. split; [apply evolves_refl|done]. }
  rewrite (on_pure_ok _ _ _ _ E), bind_ok. set (s1 := setf in_step_loop true (mkSt x (shw w))).
  pose proof (b_inv _ _ Hw _ _ E) as Hi. assert (inv (sta s1)) as Hi1 by (unfold s1; destruct Hi; by split).
  pose proof (the_sta_put i s1 w x E) as E1.
  assert (world_ok (put i s1 w)) as H1.
  { split; [apply (b_sh _ _ Hw)|..].
    - intros j y. destruct (decide (i = j)) as [<-|Hne]; [rewrite E1; by intros [= <-]|]. rewrite the_sta_put_ne by done. apply (b_inv _ _ Hw).
    - intros j y. destruct (decide (i = j)) as [<-|Hne]; [rewrite E1; by intros [= <-]|]. rewrite the_sta_put_ne by done. by apply (b_quiet _ _ Hw). }
  eapply safe_bind; [apply (step_loop_ok (wpa_sm_step conf depth) STEP_FUEL i (put i s1 w) (sta s1)); [exact Hstep|done|done|done|apply measure_fuel]|].
  intros w2 (H2 & H3 & y & Ey & Hly & Hq). rewrite (on_pure_ok _ _ _ _ Ey), bind_ok. set (s3 := setf in_step_loop false (mkSt y (shw w2))).
  pose proof (w_inv _ H2 _ _ Ey) as Hiy. assert (inv (sta s3)) as Hi3 by (unfold s3; destruct Hiy; by split).
  pose proof (the_sta_put i s3 w2 y Ey) as E3.
  assert (sta_isset pending_deinit i (put i s3 w2) = false) as -> by (unfold sta_isset; rewrite E3; apply (i_pend _ _ Hi3)).
  unfold safe. cbn [fst snd]. split; [|split; [|done]].
  - split; [apply (w_sh _ H2)|..].
    + intros j z. destruct (decide (i = j)) as [<-|Hne]; [rewrite E3; by intros [= <-]|]. rewrite the_sta_put_ne by done. apply (w_inv _ H2).
    + intros j z. destruct (decide (i = j)) as [<-|Hne]; [rewrite E3; by intros [= <-]|]. rewrite the_sta_put_ne by done. apply (w_quiet _ H2).
  - destruct H3 as [F1 F2 F3 F4 F5 F6]. split; try done.
    + unfold put in *. cbn in *. rewrite length_insert. rewrite F1. apply length_insert.
    + intros j Ej. destruct (decide (i = j)) as [<-|Hne]; [congruence|]. rewrite the_sta_put_ne by done. apply F2. by rewrite the_sta_put_ne.
    + intros j z Ej. destruct (decide (i = j)) as [<-|Hne].
      * replace z with x in * by congruence. exists (sta s3). destruct (F3 i _ E1) as (y' & Ey' & _ & S' & _). replace y' with y in * by congruence.
        split; [done|]. split; [done|]. split; [exact S'|]. congruence.
      * rewrite the_sta_put_ne by done. destruct (F3 j z) as (z' & Ez' & L' & S' & P'); [by rewrite the_sta_put_ne|].
        exists z'. split; [done|]. split; [done|]. split; [done|]. intros Hj _. apply P'; congruence.
Qed.

Lemma step_spec_1 : step_spec (wpa_sm_step conf 1).
Proof. intros i w Hw HR. apply sm_step_ok; [congruence|by apply world_ok_but]. Qed.

Lemma step_but i w : world_but i w -> safe (sm_step conf i w) (fun r => world_ok r.2 /\ evolves None w r.2 /\ r.1 = 0).
Proof. intros Hw. apply sm_step_ok; [|done]. intros _. apply step_spec_1. Qed.

Lemma step_ok i w : world_ok w -> safe (sm_step conf i w) (fun r => world_ok r.2 /\ evolves None w r.2 /\ r.1 = 0).
Proof. intros Hw. by apply step_but, world_ok_but. Qed.

Lemma group_ok w : world_ok w -> safe (group_sm_step conf w) (fun w' => world_ok w' /\ evolves None w w' /\
  ((stas w' = stas w /\ (gflag_of (shw w) gchanged = false -> gflag_of (shw w') gchanged = false)) \/ gm (shw w') < gm (shw w))).
Proof. intros Hw. apply group_step_ok; [|done]. intros _ i w' Hw' _. by apply step_ok. Qed.

(** ** Entry points *)

(** between two calls no station is in the step loop *)
Definition at_rest w : Prop := world_ok w /\ forall i x, the_sta i w = Some x -> flag_of x in_step_loop = false.

Lemma at_rest_evolves w w' : at_rest w -> world_ok w' -> evolves None w w' -> at_rest w'.
Proof.
  intros [Hw Hl] Hw' He. split; [done|]. intros i y Ey. destruct (the_sta i w) as [x|] eqn:E.
  - destruct (e_some _ _ _ He i x E) as (y' & Ey' & L & _). replace y with y' by congruence. rewrite L. by eapply Hl.
  - pose proof (e_none _ _ _ He i E). congruence.
Qed.

Lemma step_rest i w : at_rest w -> safe (sm_step conf i w) (fun r => at_rest r.2 /\ evolves None w r.2 /\ r.1 = 0).
Proof.
  intros Hw. eapply safe_mono; [apply step_ok, Hw|]. intros [r w'] (H1 & H2 & H3). cbn [fst snd] in *. split; [by eapply at_rest_evolves|done].
Qed.

(** a change of a station that leaves it quiet, or asks its machine for something *)
Definition harmless_change (f : st -> st) : Prop := forall s, inv (sta s) -> quiet (sta s) -> sh_ok (sh s) ->
  inv (sta (f s)) /\ quiet (sta (f s)) /\ sh_ok (sh (f s)) /\ same_machine (sh s) (sh (f s)) /\
  isset in_step_loop (f s) = isset in_step_loop s /\ slog (sta s) `suffix_of` slog (sta (f s)).

Lemma change_rest i f w : harmless_change f -> at_rest w -> safe (on_pure i f w) (fun w' => at_rest w').
Proof.
  intros Hf [Hw Hl]. destruct (the_sta i w) as [x|] eqn:E; [|unfold on_pure; by rewrite on_none].
  rewrite (on_pure_ok _ _ _ _ E). unfold safe. pose proof (Hl _ _ E) as Hlx.
  destruct (Hf (mkSt x (shw w))) as (H1 & H2 & H3 & H4 & H5 & H6); [by eapply w_inv|by eapply w_quiet|apply (w_sh _ Hw)|].
  destruct (put_machine i x (f (mkSt x (shw w))) w) as [W1 W2]; [done..|by right|]. split; [done|].
  intros j y. destruct (decide (i = j)) as [<-|Hne].
  - rewrite (the_sta_put _ _ _ _ E). intros [= <-]. unfold isset in H5. by rewrite H5.
  - rewrite the_sta_put_ne by done. apply Hl.
Qed.

Lemma harmless_id : harmless_change (fun s => s).
Proof. intros s H1 H2 H3. by split_and!. Qed.

Lemma harmless_comp f g : harmless_change f -> harmless_change g -> harmless_change (fun s => g (f s)).
Proof.
  intros Hf Hg s H1 H2 H3. destruct (Hf s H1 H2 H3) as (F1 & F2 & F3 & (F4 & F5 & F6) & F7 & F8).
  destruct (Hg (f s) F1 F2 F3) as (G1 & G2 & G3 & (G4 & G5 & G6) & G7 & G8). split; [done|]. split; [done|]. split; [done|].
  split; [split; [congruence|split; congruence]|]. split; [congruence|]. by etrans.
Qed.

Lemma harmless_when (b : st -> bool) f : harmless_change f -> harmless_change (fun s => when (b s) f s).
Proof. intros Hf s H1 H2 H3. unfold when. destruct (b s); [by apply Hf|by apply harmless_id]. Qed.

Lemma harmless_sends f : (forall s, sh_ok (sh s) -> sends s (f s)) -> harmless_change f.
Proof.
  intros Hf s H1 H2 H3. destruct (Hf s H3) as [F1 [F2 F3]]. split; [by eapply inv_same|]. split; [by eapply quiet_same|]. split; [done|].
  split; [by apply same_group_machine|]. split; [by apply (same_flag _ _ F1)|]. by apply same_suffix.
Qed.

(** flags on which neither the invariant nor [quiet] depends *)
Lemma harmless_flag f b : f = changed \/ f = TimeoutEvt \/ f = Init \/ f = PtkGroupInit \/ f = GUpdateStationKeys -> harmless_change (setf f b).
Proof.
  intros Hf s H1 H2 H3. destruct Hf as [-> |[-> |[-> |[-> | ->]]]].
  all: split; [destruct H1; by split|]; split; [exact H2|]; split; [exact H3|]; split; [done|]; split; done.
Qed.

(** requests to the 4-way handshake's machine *)
Lemma harmless_request f : f = DeauthenticationRequest \/ f = AuthenticationRequest \/ f = ReAuthenticationRequest \/ f = PTKRequest ->
  harmless_change (setf f true).
Proof.
  intros Hf s H1 H2 H3.
  assert (forall P : Prop, requested (sta_setf f true (sta s)) = false -> P) as Hr.
  { intros P. unfold requested. destruct Hf as [-> |[-> |[-> | ->]]]; mems; rewrite ?orb_true_r; discriminate. }
  assert (inv (sta (setf f true s))) as Hi.
  { destruct Hf as [-> |[-> |[-> | ->]]]; kept H1; intros H; by apply Hr. }
  split; [exact Hi|]. split; [intros H; by apply Hr|]. split; [exact H3|]. split; [done|]. split; [|done].
  by destruct Hf as [-> |[-> |[-> | ->]]].
Qed.

(** forgetting the PTK of a quiet station *)
Lemma harmless_forget : harmless_change (fun s => s |> setf PTK_valid false |> set_PTK no_ptk).
Proof.
  intros s H1 H2 H3. split; [|by split_and!]. kept H1.
  intros R N W. exfalso. specialize (H2 R N). change (waiting (sta s) = true) in W. congruence.
Qed.

Lemma harmless_update : harmless_change clear_update.
Proof.
  intros s H1 H2 H3. pose proof (clear_update_sta s) as E. destruct (clear_update_keeps s H3) as [K1 K2].
  destruct (harmless_flag GUpdateStationKeys false ltac:(auto) s H1 H2 H3) as (F1 & F2 & _ & _ & F5 & F6).
  rewrite E. unfold isset. rewrite E. split; [done|]. split; [done|]. split; [done|]. split; [by apply same_group_machine|]. by split.
Qed.

Lemma harmless_emit o : harmless o = true -> harmless_change (emit o).
Proof. intros Ho. apply harmless_sends. intros s Hs. pose proof (sends_refl s Hs). sent. Qed.

Lemma harmless_setf f b : relevant f = false -> harmless_change (setf f b).
Proof. intros Hf. apply harmless_sends. intros s Hs. pose proof (sends_refl s Hs). sent. Qed.

Lemma harmless_remove : harmless_change wpa_remove_ptk.
Proof.
  apply (harmless_comp (fun s => s |> setf PTK_valid false |> set_PTK no_ptk)
    (fun s => s |> emit RemovePairwiseKey |> setf pairwise_set false |> emit CancelRekeyPtkTimer)); [apply harmless_forget|].
  apply harmless_sends. intros s Hs. pose proof (sends_refl s Hs). sent.
Qed.

Lemma harmless_event_end event : harmless_change (event_end event).
Proof.
  apply (harmless_when (fun s => negb (isset mgmt_frame_prot s && bool_decide (event = WPA_AUTH)))
    (fun s => s |> setf PTK_valid false |> set_PTK no_ptk |> when (negb (bool_decide (event = WPA_REAUTH_EAPOL))) wpa_remove_ptk)).
  apply (harmless_comp (fun s => s |> setf PTK_valid false |> set_PTK no_ptk)); [apply harmless_forget|].
  apply (harmless_when (fun _ => negb (bool_decide (event = WPA_REAUTH_EAPOL)))), harmless_remove.
Qed.

Lemma harmless_new_ptk : harmless_change wpa_request_new_ptk.
Proof.
  intros s H1 H2 H3. destruct (received_new_ptk _ s H1 H2 H3) as [R1 R2 [R3 R4] R5 R6]. split; [done|]. split; [done|]. split; [done|].
  split; [by apply same_group_machine|]. by split.
Qed.

(** a change and then a step *)
Lemma change_then_step i f w : harmless_change f -> at_rest w ->
  safe (w ← on_pure i f w; sm_step conf i w) (fun r => at_rest r.2).
Proof.
  intros Hf Hw. safe_to at_rest; [by apply change_rest|]. intros w1 H1. eapply safe_mono; [by apply step_rest|]. by intros r (? & _).
Qed.

Lemma free_rest i w : at_rest w -> safe (wpa_free_sta_sm i w) at_rest.
Proof.
  intros Hw. unfold wpa_free_sta_sm. safe_to at_rest; [by apply change_rest; [apply harmless_update|]|]. intros w1 [[W1 W2 W3] Hl]. unfold safe.
  assert (forall j x, the_sta j (mkWorld (<[i := None]> (stas w1)) (shw w1)) = Some x -> the_sta j w1 = Some x) as H.
  { intros j x. rewrite !the_sta_lookup. cbn. intros [(_ & ? & _)|[_ ?]]%list_lookup_insert_Some; [done|done]. }
  split; [split|]; [done|intros j x E; by eapply W2, H|intros j x E; by eapply W3, H|intros j x E; by eapply Hl, H].
Qed.

Lemma deinit_rest i w : at_rest w -> safe (wpa_auth_sta_deinit i w) at_rest.
Proof.
  intros Hw. unfold wpa_auth_sta_deinit. destruct (the_sta i w) as [x|] eqn:E; [|done]. safe_to at_rest.
  - apply change_rest; [|done]. apply harmless_sends. intros s Hs. pose proof (sends_refl s Hs). sent.
  - intros w1 H1. rewrite (proj2 Hw i x E). by apply free_rest.
Qed.

Lemma event_rest event i w : at_rest w -> safe (wpa_auth_sm_event conf event i w) (fun r => at_rest r.2).
Proof.
  intros Hw. unfold wpa_auth_sm_event. destruct (the_sta i w) as [x|] eqn:E; [|done]. rewrite (proj2 Hw i x E).
  set (finish := fun w : world => w ← on_pure i (event_end event) w; sm_step conf i w).
  assert (forall w, at_rest w -> safe (finish w) (fun r => at_rest r.2)) as Hfin by (intros v Hv; apply change_then_step; [apply harmless_event_end|done]).
  assert (forall f v, harmless_change f -> at_rest v -> safe (v ← on_pure i f v; finish v) (fun r => at_rest r.2)) as Hfirst.
  { intros f v Hf Hv. safe_to at_rest; [by apply change_rest|apply Hfin]. }
  assert (safe (if negb (flag_of x started) then
      w ← on_pure i (fun s => s |> setf started true |> setf Init true) w;
      '(r, w) ← sm_step conf i w;
      if r =? 1 then Ok (1, w) else w ← on_pure i (fun s => s |> setf Init false |> setf AuthenticationRequest true) w; finish w
    else
      w ← on_pure i (fun s => s |> when (isset GUpdateStationKeys s) (fun s => s |> clear_update |> setf PtkGroupInit true)
                    |> setf ReAuthenticationRequest true) w;
      finish w) (fun r => at_rest r.2)) as Hre.
  { destruct (negb _).
    - safe_to at_rest; [apply change_rest; [|done]|].
      { apply (harmless_comp (setf started true)); [by apply harmless_setf|apply harmless_flag; auto]. }
      intros w1 H1. eapply safe_bind; [by apply step_rest|]. intros [r w2] (H2 & _ & Er). cbn [fst snd] in Er. subst r. apply Hfirst; [|done].
      apply (harmless_comp (setf Init false)); [apply harmless_flag; auto|apply harmless_request; auto].
    - apply Hfirst; [|done].
      apply (harmless_comp (fun s => when (isset GUpdateStationKeys s) (fun s => s |> clear_update |> setf PtkGroupInit true) s)).
      + apply harmless_when, (harmless_comp clear_update); [apply harmless_update|apply harmless_flag; auto].
      + apply harmless_request; auto. }
  destruct event; first [exact Hre|by apply Hfin|apply Hfirst; [apply harmless_request; auto|done]].
Qed.

Lemma disconnect_rest i w : at_rest w -> safe (disconnect_sta conf i w) at_rest.
Proof.
  intros Hw. unfold disconnect_sta. safe_to at_rest; [apply change_rest; [by apply harmless_emit|done]|]. intros w1 H1.
  eapply safe_bind; [by apply event_rest|]. by intros [r w2] H2.
Qed.

Lemma associated_rest i w : at_rest w -> safe (wpa_auth_sta_associated conf i w) (fun r => at_rest r.2).
Proof.
  intros Hw. unfold wpa_auth_sta_associated. destruct (the_sta i w) as [x|] eqn:E; [|done]. destruct (conf_wpa conf =? 0); [done|].
  destruct (flag_of x started).
  - apply (change_then_step i (fun s => s |> set_key_replay no_replay |> setf ReAuthenticationRequest true)); [|done].
    apply (harmless_comp (set_key_replay no_replay)); [|apply harmless_request; auto].
    apply harmless_sends. intros s Hs. pose proof (sends_refl s Hs). assert (replay_ok no_replay) by (split; [done|]; by repeat constructor). sent.
  - safe_to at_rest; [apply change_rest; [|done]|].
    { apply (harmless_comp (setf started true)); [by apply harmless_setf|apply harmless_flag; auto]. }
    intros w1 H1. eapply safe_bind; [by apply step_rest|]. intros [r w2] (H2 & _ & Er). cbn [fst snd] in Er. subst r. cbn [Z.eqb].
    apply (change_then_step i (fun s => s |> setf Init false |> setf AuthenticationRequest true)); [|done].
    apply (harmless_comp (setf Init false)); [apply harmless_flag; auto|apply harmless_request; auto].
Qed.

Lemma timeout_rest i w : at_rest w -> safe (wpa_send_eapol_timeout conf i w) (fun r => at_rest r.2).
Proof.
  intros Hw. apply (change_then_step i (fun s => s |> setf pending_1_of_4_timeout false |> setf TimeoutEvt true)); [|done].
  apply (harmless_comp (setf pending_1_of_4_timeout false)); [by apply harmless_setf|apply harmless_flag; auto].
Qed.

(** ** The group keys *)

(** no station is lost, nor what it received *)
Definition logs_kept w w' : Prop :=
  forall i x, the_sta i w = Some x -> exists y, the_sta i w' = Some y /\ slog x `suffix_of` slog y.

Lemma logs_refl w : logs_kept w w.
Proof. intros i x E. by exists x. Qed.

Lemma logs_evolves w w' : evolves None w w' -> logs_kept w w'.
Proof. intros He i x E. destruct (e_some _ _ _ He i x E) as (y & ? & _ & ? & _). by exists y. Qed.

Lemma logs_trans a b c : logs_kept a b -> logs_kept b c -> logs_kept a c.
Proof. intros H1 H2 i x E. destruct (H1 i x E) as (y & Ey & Sy). destruct (H2 i y Ey) as (z & Ez & Sz). exists z. split; [done|]. by etrans. Qed.

(** the group changes while no station runs *)
Lemma with_shw_rest f w : at_rest w -> sh_ok (f (shw w)) -> at_rest (with_shw f w) /\ logs_kept w (with_shw f w).
Proof. intros [[W1 W2 W3] Hl] Hf. split; [split; [by split|done]|]. intros i x E. by exists x. Qed.

Lemma group_flag_ok f b (x : shared) : sh_ok x -> sh_ok (gsetf f b x).
Proof. intros [[] Hi]. split; [by split|done]. Qed.

Lemma group_rest_ok w : at_rest w -> safe (group_sm_step conf w) (fun w' => at_rest w' /\ logs_kept w w' /\
  (gflag_of (shw w) gchanged = false -> gflag_of (shw w') gchanged = true -> gm (shw w') < gm (shw w))).
Proof.
  intros Hw. eapply safe_mono; [apply group_ok, Hw|]. intros w' (H1 & H2 & H3). split; [by eapply at_rest_evolves|].
  split; [by apply logs_evolves|]. intros E1 E2. destruct H3 as [[_ H3]|H3]; [rewrite H3 in E2 by done; done|done].
Qed.

Lemma rekey_loop_ok fuel w : (Z.to_nat (gm (shw w)) < fuel)%nat -> at_rest w ->
  safe (rekey_loop conf fuel w) (fun w' => at_rest w' /\ logs_kept w w').
Proof.
  revert w. induction fuel as [|fuel IH]; intros w Hf Hw; [lia|]. cbn [rekey_loop].
  destruct (with_shw_rest (gsetf gchanged false) w Hw) as [H1 H2]; [apply group_flag_ok, Hw|].
  assert (gm (shw (with_shw (gsetf gchanged false) w)) = gm (shw w)) as Egm by done.
  eapply safe_bind; [by apply group_rest_ok|]. intros w1 (H3 & H4 & H5). pose proof (logs_trans _ _ _ H2 H4) as H6.
  destruct (gisset gchanged (shw w1)) eqn:Ec; [|done]. specialize (H5 eq_refl Ec). pose proof (gm_range (shw w1)).
  eapply safe_mono; [apply IH; [lia|done]|]. intros w2 [H7 H8]. split; [done|by eapply logs_trans].
Qed.

Lemma rekey_gtk_ok w : at_rest w -> safe (wpa_rekey_gtk conf w) (fun w' => at_rest w' /\ logs_kept w w').
Proof.
  intros Hw. unfold wpa_rekey_gtk. destruct (with_shw_rest (gsetf GTKReKey true) w Hw) as [H1 H2]; [apply group_flag_ok, Hw|].
  eapply safe_mono; [apply rekey_loop_ok; [|done]|].
  - pose proof (gm_range (shw (with_shw (gsetf GTKReKey true) w))). unfold STEP_FUEL. lia.
  - intros w' [H3 H4]. split; [done|exact (logs_trans _ _ _ H2 H4)].
Qed.

Lemma rekey_gmk_rest w : at_rest w -> at_rest (wpa_rekey_gmk w).
Proof.
  intros Hw. unfold wpa_rekey_gmk. destruct (random_get_bytes _ _) as [r gmk]. apply with_shw_rest; [done|].
  destruct (w_sh _ (proj1 Hw)) as [[] Hi]. split; [split; mem; done|done].
Qed.

Lemma gtk_rekey_rest w : at_rest w -> safe (wpa_gtk_rekey conf w) at_rest.
Proof.
  intros Hw. unfold wpa_gtk_rekey. eapply safe_bind; [apply rekey_round_safe, (w_sh _ (proj1 Hw))|]. intros x [Hx _].
  eapply safe_bind; [by apply rekey_round_safe|]. intros y [Hy _]. unfold safe. by apply (with_shw_rest (fun _ => y)).
Qed.

(** ** Received frames *)

Lemma inv_receives o x : (match o with SetPairwiseKey _ _ _ => False | _ => True end) -> inv x -> inv (sta_emit o x).
Proof.
  intros Ho [I1 I2 I3 I4 I5 I6 I7 I8 I9 I10 I11 I12]. split; try done; cbn.
  - intros H. by apply verified_cons, I7.
  - intros d Hd. destruct (I8 d Hd). split; [done|]. apply elem_of_cons. by right.
  - split; [|done]. by destruct o.
Qed.

Context (frames_copied : forall t n, frame_copy_ok t n = true).

Lemma receive_rest i data w : bytes data -> at_rest w -> safe (wpa_receive conf i data w) at_rest.
Proof.
  intros Hb Hw. unfold wpa_receive. destruct (the_sta i w) as [x|] eqn:E; [|done]. set (s0 := emit (ReceivedEapol data) (mkSt x (shw w))).
  pose proof Hw as [[W1 W2 W3] Hl]. pose proof (Hl _ _ E) as Hlx.
  assert (receiving conf data s0) as Hv.
  { split; [by apply inv_receives; [|eapply W2]|exact (W3 _ _ E Hlx)|exact W1|done|]. unfold s0. cbn. apply elem_of_cons. by left. }
  assert (forall s, received conf s0 s -> at_rest (put i s w)) as Hput.
  { intros s [R1 R2 [R3 R4] R5 R6]. assert (slog x `suffix_of` slog (sta s)) as Hsuf by (etrans; [|exact R6]; by apply suffix_cons_r).
    split.
    - apply (put_machine i x s w); try done; [by apply same_group_machine|by right].
    - intros j y. destruct (decide (i = j)) as [<-|Hne].
      + rewrite (the_sta_put _ _ _ _ E). intros [= <-]. unfold isset in R5. by rewrite R5.
      + rewrite the_sta_put_ne by done. apply Hl. }
  eapply safe_bind; [exact (receive_check_ok conf CO data s0 Hv)|]. intros [r s1] [R1 Racc]. cbn [fst snd] in *. fold (put i s1 w).
  pose proof (Hput s1 R1) as H1. pose proof (the_sta_put i s1 w x E) as E1.
  destruct r as [| | |rekey]; [done|by apply disconnect_rest|by apply deinit_rest|].
  specialize (Racc rekey eq_refl).
  eapply (safe_bind (fun w' => at_rest w' /\ logs_kept (put i s1 w) w' /\ (rekey = false -> w' = put i s1 w))).
  { destruct rekey; [|split; [done|]; split; [apply logs_refl|done]]. eapply safe_mono; [by apply rekey_gtk_ok|]. by intros w' [? ?]. }
  intros w2 (H2 & Hlog & Hsame). destruct (Hlog i _ E1) as (y & Ey & [l El]). rewrite Ey. pose proof (proj1 H2) as Hw2.
  assert (accepted data rekey (mkSt y (shw w2))) as Hacc.
  { destruct Racc as (Hlen & ki & Eki & Hk). split; [done|]. exists ki. split; [done|]. destruct Hk as [Hk|[Hk Ha]]; [by left|]. right.
    split; [done|]. rewrite (Hsame Hk) in Ey |- *. rewrite E1 in Ey. injection Ey as <-. exact Ha. }
  eapply safe_bind; [apply (receive_store_ok conf data rekey); [done|eapply w_inv; [exact Hw2|exact Ey]|apply (w_sh _ Hw2)|done| |exact Hacc]|].
  { cbn. rewrite El. apply elem_of_app. right. pose proof (rv_log _ _ _ (receiving_received _ _ _ _ Hv R1)) as H. exact H. }
  intros [go s3] (Hgo & Hi3 & [Hk3 Hg3] & Hl3). cbn [fst snd] in *. subst go. fold (put i s3 w2).
  pose proof (the_sta_put i s3 w2 y Ey) as E3. pose proof (proj2 H2 _ _ Ey) as Hly. change (isset in_step_loop (mkSt y (shw w2)) = false) in Hly.
  assert (forall j z, the_sta j (put i s3 w2) = Some z -> flag_of z in_step_loop = false) as Hl4.
  { intros j z. destruct (decide (i = j)) as [<-|Hne].
    - rewrite E3. intros [= <-]. unfold isset in *. by rewrite Hl3.
    - rewrite the_sta_put_ne by done. apply (proj2 H2). }
  eapply safe_bind; [apply (step_but i (put i s3 w2))|].
  - split; [exact Hk3|..].
    + intros j z. destruct (decide (i = j)) as [<-|Hne]; [rewrite E3; by intros [= <-]|]. rewrite the_sta_put_ne by done. apply (w_inv _ Hw2).
    + intros j z Hne. rewrite the_sta_put_ne by done. apply (w_quiet _ Hw2).
  - intros [r w4] (H4 & H5 & _). cbn [snd] in *. unfold safe. split; [done|]. intros j v Ev.
    destruct (the_sta j (put i s3 w2)) as [z|] eqn:Ez; [|by rewrite (e_none _ _ _ H5 j Ez) in Ev].
    destruct (e_some _ _ _ H5 j z Ez) as (v' & Ev' & L & _). replace v with v' by congruence. rewrite L. by eapply Hl4.
Qed.

(** ** Runs *)

Lemma tx_status_rest i ack w : at_rest w -> safe (wpa_auth_eapol_key_tx_status i ack w) at_rest.
Proof.
  intros Hw. apply change_rest; [|done]. apply (harmless_when (fun s => isset pending_1_of_4_timeout s && ack)).
  apply (harmless_comp (emit CancelEapolTimer)); by apply harmless_emit.
Qed.

Lemma start_group_rest w : at_rest w -> safe (start_group conf w) at_rest.
Proof.
  intros Hw. unfold start_group. eapply safe_bind; [by apply group_rest_ok|]. intros w1 (H1 & _).
  destruct (with_shw_rest (gsetf GInit false) w1 H1) as [H2 _]; [apply group_flag_ok, H1|].
  eapply safe_mono; [by apply group_rest_ok|]. by intros w2 (? & _).
Qed.

Lemma reconfig_rest w : at_rest w -> safe (wpa_reconfig conf w) at_rest.
Proof.
  intros Hw. apply start_group_rest. apply with_shw_rest; [done|]. apply group_flag_ok.
  destruct (w_sh _ (proj1 Hw)) as [[] Hi]. split; [split; mem; try done; apply cipher_len|]. unfold indices_ok. by mem.
Qed.

(** the memory of a new station *)
Lemma new_sta_ok addr : inv (new_sta addr) /\ quiet (new_sta addr).
Proof.
  split; [|done]. split; try done.
  - split; [done|]. by repeat constructor.
  - by apply (arr_replicate 32).
  - by intros [|].
Qed.

Lemma sta_init_rest addr w : at_rest w -> at_rest (wpa_auth_sta_init addr w).
Proof.
  intros [[W1 W2 W3] Hl]. unfold wpa_auth_sta_init. destruct (bool_decide _); [done|]. destruct (new_sta_ok addr) as [H1 H2].
  assert (forall i x, the_sta i (mkWorld (stas w ++ [Some (new_sta addr)]) (shw w)) = Some x -> the_sta i w = Some x \/ x = new_sta addr) as H.
  { intros i x. rewrite !the_sta_lookup. cbn. intros [E|[_ E]]%lookup_app_Some; [by left|]. right.
    apply list_lookup_singleton_Some in E as [_ E]. congruence. }
  split; [split|]; [done|..]; intros i x E; destruct (H i x E) as [E'| ->]; eauto.
Qed.

(** what the callers guarantee: bytes are received, and the association has an
    AKM with a 16-byte MIC and a PMKID of 16 bytes *)
Definition input_ok (inp : input) : Prop :=
  match inp with
  | InReceive _ data => bytes data
  | InAssociation _ _ _ akm _ a => wpa_mic_len akm = 16 /\ forall pmk id, pmksa a = Some (pmk, id) -> arr 16 id
  | _ => True
  end.

Lemma harmless_association version cipher akm mfp a : wpa_mic_len akm = 16 -> (forall pmk id, pmksa a = Some (pmk, id) -> arr 16 id) ->
  harmless_change (fun s => s |> setn wpa version |> setn pairwise cipher |> setn wpa_key_mgmt akm
                              |> setf mgmt_frame_prot mfp |> with_sta (sta_set_assoc a)).
Proof. intros Hm Hp s H1 H2 H3. split; [|by split_and!]. kept H1. Qed.

Lemma fst_rest {A} (m : M (A * world)) : safe m (fun r => at_rest r.2) -> safe (snd <$> m) at_rest.
Proof. by destruct m as [[]|]. Qed.

Lemma run_input_rest inp w : input_ok inp -> at_rest w -> safe (run_input conf inp w) at_rest.
Proof.
  intros Hin Hw. destruct inp; cbn [run_input input_ok] in *; try apply fst_rest.
  - by apply sta_init_rest.
  - destruct Hin. apply change_rest; [|done]. by apply harmless_association.
  - by apply associated_rest.
  - apply change_rest; [|done]. intros s H1 H2 H3. split; [|by split_and!]. by kept H1.
  - by apply deinit_rest.
  - by apply event_rest.
  - by apply receive_rest.
  - by apply tx_status_rest.
  - by apply timeout_rest.
  - eapply safe_mono; [by apply step_rest|]. by intros r (? & _).
  - apply change_then_step; [apply harmless_new_ptk|done].
  - apply change_rest; [|done]. apply (harmless_comp (setf keyRun run)); by apply harmless_setf.
  - eapply safe_mono; [by apply rekey_gtk_ok|]. by intros r (? & _).
  - by apply rekey_gmk_rest.
  - by apply gtk_rekey_rest.
  - by apply reconfig_rest.
Qed.

Lemma run_inputs_rest inps w : Forall input_ok inps -> at_rest w -> safe (run_inputs conf inps w) at_rest.
Proof.
  revert w. induction inps as [|inp inps IH]; intros w Hin Hw; [done|]. cbn [run_inputs].
  safe_to at_rest; [apply run_input_rest; [exact (Forall_inv Hin)|done]|]. intros w1 H1. apply IH; [exact (Forall_inv_tail Hin)|done].
Qed.

Lemma start_rest : safe (wpa_start conf) (fun r => forall w, r = Some w -> at_rest w).
Proof.
  unfold wpa_start. safe_to (fun r : option shared => forall x : shared, r = Some x -> sh_pre x /\ gflag_of x GInit = true).
  { unfold wpa_group_init. set (x := gtick _). assert (sh_pre x) as [HC HN HG HI Hl].
    { assert (arr 32 (replicate 32 0)) as H32 by (by apply (arr_replicate 32)).
      assert (keys_ok (replicate 2 (replicate 32 0))) as HK by (split; [done|]; by repeat (apply Forall_cons_2; [done|])).
      split; unfold x, zero_group; mem; try done. apply cipher_len. }
    eapply safe_bind; [by apply init_counter_safe|]. intros [r y] (E1 & _ & E2 & E3 & E4 & E5 & E6). cbn [fst snd] in *.
    unfold safe. destruct (r <? 0); [done|]. intros z [= <-]. split; [|by mem]. split; mem; rewrite ?E2, ?E3, ?E4, ?E5; done. }
  intros [x|] Hx; [|done]. destruct (Hx x eq_refl) as [Hp HG]. unfold wpa_init_keys, start_group.
  assert (group_sm_step conf (mkWorld [] x) = (y ← wpa_group_gtk_init conf x; Ok (mkWorld [] y))) as ->.
  { unfold group_sm_step, wpa_group_sm_step, gisset. cbn [shw stas]. by rewrite HG. }
  pose proof (gtk_init_safe conf x Hp) as Hi. apply safe_exists in Hi as (y & -> & Hy & _). rewrite !bind_ok.
  assert (at_rest (with_shw (gsetf GInit false) (mkWorld [] y))) as Hw.
  { split; [split; [by apply group_flag_ok|..]|]; intros i z; unfold the_sta; cbn; by rewrite lookup_nil. }
  pose proof (group_rest_ok _ Hw) as Hg. apply safe_exists in Hg as (w1 & -> & H1 & _). rewrite !bind_ok.
  unfold safe. destruct (bool_decide _); intros w; [done|]. by intros [= <-].
Qed.

Lemma wpa_run_rest inps : Forall input_ok inps -> safe (wpa_run conf inps) (fun r => forall w, r = Some w -> at_rest w).
Proof.
  intros Hin. unfold wpa_run. eapply safe_bind; [exact start_rest|]. intros [w|] Hw; [|done].
  pose proof (run_inputs_rest inps w Hin (Hw w eq_refl)) as H. apply safe_exists in H as (w' & -> & H'). cbn. by intros ? [= <-].
Qed.

Lemma log_ok_split l1 p key r l2 : log_ok conf (l1 ++ SetPairwiseKey p key r :: l2) -> verified conf l2 p.
Proof. induction l1 as [|o l1 IH]; cbn; [by intros []|]. intros [_ H]. by apply IH. Qed.

(** C7: under the assumptions of this section the authenticator never does
    anything undefined and every run ends: whatever the random octets, the
    driver and the frames of the stations are, and whichever other allocations
    fail, wpa_init and any sequence of frames, timers and events after it give
    a result, in which no station is left inside the step loop, every station
    has its four 8-byte replay counters, its 32-byte nonce and a PTK that can
    be used when it is marked valid, and the group its keys and their indices.
    The assumptions: the element of the configuration is well formed and at
    most 128 octets ([conf_ok]); frames are octets and stations associate with
    an AKM of a 16-octet MIC, so not Suite B 192, and with 16-octet PMKIDs
    ([input_ok]); os_malloc gives the memory for the copy of a received frame
    ([frames_copied]; without it last_rx_eapol_key stays NULL and is
    dereferenced); random_get_bytes fills its buffer, the driver's sequence
    numbers have eight octets and the ciphers and digests give their sizes. *)
Theorem wpa_run_safe (inps : list input) : Forall input_ok inps ->
  exists r, wpa_run conf inps = Ok r /\ forall w, r = Some w ->
    sh_ok (shw w) /\
    forall i x, the_sta i w = Some x ->
      flag_of x in_step_loop = false /\ flag_of x pending_deinit = false /\ replay_ok (key_replay x) /\ arr 32 (str_of x ANonce) /\
      (flag_of x PTK_valid = true -> ptk_ok (PTK x)) /\ (flag_of x EAPOLKeyReceived = true -> last_rx_eapol_key x <> None).
Proof.
  intros Hin. pose proof (wpa_run_rest inps Hin) as H. apply safe_exists in H as (r & E & Hr). exists r. split; [exact E|].
  intros w Ew. destruct (Hr w Ew) as [[W1 W2 W3] Hl]. split; [exact W1|]. intros i x Ex. pose proof (W2 i x Ex) as Hi.
  split; [by eapply Hl|]. split; [apply (i_pend _ _ Hi)|]. split; [apply (i_replay _ _ Hi)|]. split; [apply (i_ANonce _ _ Hi)|].
  split; [intros HP; apply (i_ptk _ _ Hi HP)|]. intros HK. apply (i_wait _ _ Hi). by left.
Qed.

(** C5: a pairwise key is given to the driver only after the station has shown
    that it has it: in every run (under the assumptions named for
    wpa_run_safe), before the key of a PTK is set, the station sent a frame
    whose MIC verifies under that PTK, and the PTK is derived from a PMK with
    the authenticator's address. *)
Theorem keys_after_mic (inps : list input) (w : world) (i : nat) (x : station) (l1 l2 : list output) (p : wpa_ptk) (key : list Z) (res : Z) :
  Forall input_ok inps -> wpa_run conf inps = Ok (Some w) -> the_sta i w = Some x -> slog x = l1 ++ SetPairwiseKey p key res :: l2 ->
  exists akm cipher pmk addr anonce snonce data,
    wpa_pmk_to_ptk pmk (CText.str "Pairwise key expansion") (conf_addr conf) addr anonce snonce akm cipher = Ok p /\
    ReceivedEapol data ∈ l2 /\ wpa_verify_key_mic akm p data = Ok (0, data).
Proof.
  intros Hin E Ex El. pose proof (wpa_run_rest inps Hin) as H. rewrite E in H. destruct (H w eq_refl) as [[_ W2 _] _].
  pose proof (i_log _ _ (W2 i x Ex)) as Hlog. rewrite El in Hlog. by destruct (log_ok_split _ _ _ _ _ Hlog).
Qed.
End World.

(** ** A run *)

Module Sample.
#[local] Instance env : WpaEnv := {
  random_get_bytes t n := (0, to_be (Z.to_nat n) (Z.of_nat t * 1234567 + 99));
  random_pool_ready _ := true;
  wpa_get_ntp_timestamp t := to_be 8 (Z.of_nat t);
  group_address := replicate 8 5;
  wpa_auth_set_key _ := 0;
  wpa_auth_get_seqnum _ _ := Some (replicate 8 0);
  wpa_auth_mic_failure_report _ := 0;
  os_malloc_ok _ _ := true;
  frame_copy_ok _ _ := true }.

Lemma env_laws : EnvLaws.
Proof.
  split.
  - intros t n Hn. cbn. split; [|apply to_be_bytes]. unfold zlen. rewrite length_to_be. lia.
  - intros t i rsc. cbn. intros [= <-]. by apply (arr_replicate 8).
Qed.

Definition ie : list Z := [48; 20; 1; 0; 0; 15; 172; 4; 1; 0; 0; 15; 172; 4; 1; 0; 0; 15; 172; 2; 0; 0].
Definition conf : wpa_auth_config := mkConf 2 WPA_CIPHER_CCMP 2 true false 0 true WPA_CIPHER_AES_128_CMAC ie (seqZ 1 6).
Definition psk : list Z := replicate 32 7.
Definition assoc0 : association := mkAssoc (seqZ 11 6) (Some ie) None [psk] None.
Definition snonce : list Z := seqZ 100 32.

Lemma conf_fits : conf_ok conf.
Proof.
  split; [done| |apply (bool_decide_unpack _); by vm_compute|by vm_compute]. exists 48, (drop 2 ie), []. split; [done|by left].
Qed.

(** the station's frame: it knows the PSK and answers to the last message *)
Definition answer (nonce : list Z) (kde : option (list Z)) (key_info : Z) (w : world) : list Z :=
  match the_sta 0 w with
  | None => []
  | Some x =>
      match (ptk ← wpa_pmk_to_ptk psk (CText.str "Pairwise key expansion") (seqZ 1 6) (seqZ 11 6) (str_of x ANonce) snonce WPA_KEY_MGMT_PSK WPA_CIPHER_CCMP;
             c ← rd (key_replay x) 0;
             eapol_key_frame (ctx := Z) (fun _ => true)
               (mkSender WPA_VERSION_WPA2 WPA_KEY_MGMT_PSK WPA_CIPHER_CCMP ptk true 2 WPA_CIPHER_CCMP) (rc_counter c) [] key_info
               None (Some nonce) kde 0 false 0) with
      | Ok (Some f, _) => f
      | _ => []
      end
  end.

Definition after (inps : list input) : world :=
  match wpa_run (ctx := Z) conf inps with Ok (Some w) => w | _ => mkWorld [] zero_group end.

Definition inputs1 : list input :=
  [InStaInit (seqZ 11 6); InAssociation 0 WPA_VERSION_WPA2 WPA_CIPHER_CCMP WPA_KEY_MGMT_PSK true assoc0; InAssociated 0].
Definition message2 : list Z := Eval vm_compute in answer snonce (Some ie) (WPA_KEY_INFO_KEY_TYPE + WPA_KEY_INFO_MIC) (after inputs1).
Definition inputs2 : list input := inputs1 ++ [InReceive 0 message2].
Definition message4 : list Z :=
  Eval vm_compute in answer (replicate 32 0) None (WPA_KEY_INFO_KEY_TYPE + WPA_KEY_INFO_MIC + WPA_KEY_INFO_SECURE) (after inputs2).
Definition inputs4 : list input := inputs2 ++ [InReceive 0 message4].

(** the log around the newest pairwise key *)
Fixpoint split_at_key (l : list output) : option (list output * (wpa_ptk * list Z * Z) * list output) :=
  match l with
  | [] => None
  | SetPairwiseKey p key res :: l => Some ([], (p, key, res), l)
  | o :: l => '(l1, k, l2) ← split_at_key l; Some (o :: l1, k, l2)
  end.

Lemma split_at_key_spec l l1 p key res l2 : split_at_key l = Some (l1, (p, key, res), l2) -> l = l1 ++ SetPairwiseKey p key res :: l2.
Proof.
  revert l1. induction l as [|o l IH]; intros l1 H; [done|].
  destruct o; cbn in H; try (by simplify_eq); apply bind_Some in H as ([[? [[? ?] ?]] ?] & E & [= <- -> -> -> ->]); cbn; f_equal; by apply IH.
Qed.

Definition input_okb (inp : input) : bool :=
  match inp with
  | InReceive _ data => bool_decide (bytes data)
  | InAssociation _ _ _ akm _ a => (wpa_mic_len akm =? 16) && match pmksa a with None => true | _ => false end
  | _ => true
  end.

Lemma inputs_ok inps : forallb input_okb inps = true -> Forall input_ok inps.
Proof.
  induction inps as [|inp inps IH]; cbn [forallb]; intros H; [constructor|].
  apply andb_prop in H as [H1 H2]. constructor; [clear IH H2|by apply IH].
  destruct inp; cbn in *; try done; [|by apply bool_decide_eq_true in H1].
  apply andb_prop in H1 as [H1 H2]. split; [lia|]. intros pmk id E. by rewrite E in H2.
Qed.

Definition keyed (w : world) : bool :=
  match the_sta 0 w with
  | Some x => bool_decide (wpa_ptk_state x = WPA_PTK_PTKINITDONE) && match split_at_key (slog x) with Some _ => true | None => false end
  | None => false
  end.
End Sample.

Lemma wpa_run_safe_witness : exists w : world,
  wpa_run (ctx := Z) (ENV := Sample.env) Sample.conf Sample.inputs4 = Ok (Some w) /\ Sample.keyed w = true /\ sh_ok (shw w).
Proof.
  destruct (wpa_run_safe (ctx := Z) (EL := Sample.env_laws) Sample.conf Sample.conf_fits (fun _ _ => eq_refl) Sample.inputs4)
    as (r & E & H); [apply Sample.inputs_ok; by vm_compute|].
  assert (HK : match wpa_run (ctx := Z) (ENV := Sample.env) Sample.conf Sample.inputs4 with Ok (Some w) => Sample.keyed w | _ => false end = true)
    by by vm_compute.
  rewrite E in HK. destruct r as [w|]; [|discriminate HK]. exists w. split; [exact E|]. split; [exact HK|]. exact (proj1 (H w eq_refl)).
Defined.

Lemma keys_after_mic_witness : exists akm cipher pmk addr anonce snonce data p,
  wpa_pmk_to_ptk pmk (CText.str "Pairwise key expansion") (conf_addr Sample.conf) addr anonce snonce akm cipher = Ok p /\
  wpa_verify_key_mic akm p data = Ok (0, data).
Proof.
  assert (HK : match wpa_run (ctx := Z) (ENV := Sample.env) Sample.conf Sample.inputs4 with Ok (Some w) => Sample.keyed w | _ => false end = true)
    by by vm_compute.
  destruct (wpa_run (ctx := Z) (ENV := Sample.env) Sample.conf Sample.inputs4) as [[w|]|] eqn:E; try discriminate HK.
  unfold Sample.keyed in HK. destruct (the_sta 0 w) as [x|] eqn:Ex; [|discriminate HK]. apply andb_prop in HK as [_ HK].
  destruct (Sample.split_at_key (slog x)) as [[[l1 [[p key] res]] l2]|] eqn:El; [|discriminate HK].
  apply Sample.split_at_key_spec in El.
  destruct (keys_after_mic (ctx := Z) (EL := Sample.env_laws) Sample.conf Sample.conf_fits (fun _ _ => eq_refl)
    Sample.inputs4 w 0 x l1 l2 p key res) as (akm & cipher & pmk & addr & anonce & snonce & data & Hp & Hin & Hm);
    [apply Sample.inputs_ok; by vm_compute|exact E|exact Ex|exact El|].
  exists akm, cipher, pmk, addr, anonce, snonce, data, p. split; [exact Hp|exact Hm].
Defined.
