(* ===== verification/WpaReplay.v ===== *)
(** * The WPA authenticator: no frame is accepted twice

    Every EAPOL-Key frame of a station carries the replay counter of the frame
    it answers, or, in a request, a counter of its own.  Accepting a frame
    spends its counter: until the counters of the authenticator wrap around or
    a new association zeroes them, no number of frames sent afterwards makes it
    acceptable again. *)

From stdpp Require Import functions.
From S2P Require Import Prelude BlockCipher CText HexText AesOmac EapolKey Prf WpaState WpaPtk WpaSafe WpaInv WpaAuth WpaWorld.

(** ** Counters that are sent and spent *)

(** [n] frames are sent, each with the next counter *)
Fixpoint counters_sent (n : nat) (ctr : list key_replay_counter) : M (list key_replay_counter) :=
  match n with
  | O => Ok ctr
  | S n => ctr ← next_replay_counter ctr; counters_sent n ctr
  end.

Definition newest (ctr : list key_replay_counter) : Z := match ctr with c :: _ => be (rc_counter c) | [] => 0 end.

(** no counter in [l] is above the last one sent *)
Definition up_to (n : Z) (l : list key_replay_counter) : Prop := Forall (fun c => be (rc_counter c) <= n) l.

(** [c] is not above the last counter sent, and every valid one is *)
Definition spent (c : Z) (ctr : list key_replay_counter) : Prop :=
  c <= newest ctr /\ Forall (fun k => rc_valid k = true -> c < be (rc_counter k)) ctr.

Lemma next_counter ctr : replay_ok ctr -> newest ctr + 1 < 2 ^ 64 ->
  safe (next_replay_counter ctr) (fun ctr' => replay_ok ctr' /\ newest ctr' = newest ctr + 1 /\ tail ctr' = take 3 ctr).
Proof.
  intros [Hl HF] Hn. unfold next_replay_counter. destruct ctr as [|k ctr]; [done|]. cbn [newest] in *.
  change (rd (k :: ctr) 0) with (Ok k). rewrite bind_ok. destruct (Forall_inv HF) as [Hk Hb].
  destruct (inc_loop_spec (rc_counter k) [] Hb) as (c' & E & Hb' & Hl' & Hv). rewrite !app_nil_r in E.
  unfold inc_byte_array, WPA_REPLAY_COUNTER_LEN. assert (Z.to_nat 8 = length (rc_counter k)) as -> by (unfold zlen in Hk; lia).
  rewrite E, bind_ok. unfold safe. cbn [newest rc_counter tail]. split; [split|split; [|done]].
  - clear -Hl. cbn [length] in *. rewrite length_take. cbn [length]. lia.
  - constructor; [cbn [rc_counter]; split; [unfold zlen in *; lia|done]|]. by apply Forall_take.
  - assert (0 <= be (rc_counter k)) by (by apply be_range). rewrite Hv, Hk. apply Z.mod_small. change (256 ^ 8) with (2 ^ 64). lia.
Qed.

Lemma spent_next c ctr ctr' : spent c ctr -> newest ctr' = newest ctr + 1 -> tail ctr' = take 3 ctr -> ctr' <> [] -> spent c ctr'.
Proof.
  intros [H1 H2] Hn Ht He. destruct ctr' as [|k ctr']; [done|]. cbn [tail] in Ht. subst ctr'. split; [lia|]. constructor.
  - intros _. cbn in Hn. clear -Hn H1. lia.
  - by apply Forall_take.
Qed.

Lemma spent_sent n c ctr : replay_ok ctr -> spent c ctr -> newest ctr + Z.of_nat n < 2 ^ 64 ->
  safe (counters_sent n ctr) (fun ctr' => replay_ok ctr' /\ spent c ctr').
Proof.
  revert ctr. induction n as [|n IH]; intros ctr Hr Hs Hn; [done|]. cbn [counters_sent].
  eapply safe_bind; [apply next_counter; [done|lia]|]. intros ctr' (H1 & H2 & H3). apply IH; [done| |lia].
  apply (spent_next c ctr); try done. intros ->. by destruct H1.
Qed.

Lemma spent_invalid counter ctr : spent (be counter) ctr -> wpa_replay_counter_valid ctr counter = false.
Proof.
  intros [_ HF]. induction HF as [|k ctr Hk _ IH]; [done|]. cbn [wpa_replay_counter_valid].
  destruct (rc_valid k); [|done]. cbn [negb]. case_bool_decide as E; [|exact IH]. specialize (Hk eq_refl). subst counter. lia.
Qed.

Lemma mark_all_invalid ctr : Forall (fun c => rc_valid c = false) (wpa_replay_counter_mark_invalid ctr None).
Proof. induction ctr as [|c ctr IH]; [constructor|]. constructor; [|exact IH]. destruct c as [k []]; done. Qed.

Lemma marked_invalid ctr counter : wpa_replay_counter_valid (wpa_replay_counter_mark_invalid ctr (Some counter)) counter = false.
Proof.
  induction ctr as [|[k v] ctr IH]; [done|]. cbn [wpa_replay_counter_mark_invalid map rc_valid rc_counter].
  destruct v; cbn [andb]; [|done]. case_bool_decide as E; cbn [wpa_replay_counter_valid rc_valid rc_counter negb]; [done|].
  rewrite bool_decide_eq_false_2 by done. exact IH.
Qed.

Lemma no_replay_invalid counter : wpa_replay_counter_valid no_replay counter = false.
Proof. done. Qed.

Lemma mark_counters ctr r : map rc_counter (wpa_replay_counter_mark_invalid ctr r) = map rc_counter ctr.
Proof. unfold wpa_replay_counter_mark_invalid. rewrite map_map. apply map_ext. intros c. by case_match. Qed.

Lemma mark_replay_ok ctr r : replay_ok ctr -> replay_ok (wpa_replay_counter_mark_invalid ctr r).
Proof.
  intros [Hl HF]. split; [unfold wpa_replay_counter_mark_invalid; by rewrite length_map|].
  apply Forall_map. eapply Forall_impl; [|exact HF]. intros c Hc. by case_match.
Qed.

Lemma newest_map ctr ctr' : map rc_counter ctr = map rc_counter ctr' -> newest ctr = newest ctr'.
Proof. destruct ctr, ctr'; cbn; try done. intros [= -> _]. done. Qed.

Lemma up_to_map n ctr ctr' : map rc_counter ctr = map rc_counter ctr' -> up_to n ctr -> up_to n ctr'.
Proof.
  unfold up_to. revert ctr'. induction ctr as [|c ctr IH]; intros [|c' ctr']; cbn; try done.
  intros [= Ec E] H. constructor; [rewrite <-Ec; exact (Forall_inv H)|]. apply IH; [done|exact (Forall_inv_tail H)].
Qed.

Lemma valid_up_to n counter ctr : up_to n ctr -> wpa_replay_counter_valid ctr counter = true -> be counter <= n.
Proof.
  induction 1 as [|c ctr Hc _ IH]; [done|]. cbn [wpa_replay_counter_valid]. destruct (rc_valid c); [|done]. cbn [negb].
  case_bool_decide as E; [subst; done|exact IH].
Qed.

Lemma memcmp_lt_irrefl l : memcmp_lt l l = false.
Proof. induction l as [|x l IH]; [done|]. cbn. by rewrite Z.eqb_refl. Qed.

Section Replay.
Context {ctx : Type} {BC : BlockCipher ctx} {DG : Digests} {ENV : WpaEnv} (conf : wpa_auth_config).
Implicit Types (s : st).

(** what the replay check reads and accepting a frame changes *)
Definition same_counters s s' : Prop :=
  key_replay (sta s') = key_replay (sta s) /\ prev_key_replay (sta s') = prev_key_replay (sta s) /\
  str alt_replay_counter s' = str alt_replay_counter s.

Lemma same_counters_refl s : same_counters s s.
Proof. done. Qed.

Lemma same_counters_trans s1 s2 s3 : same_counters s1 s2 -> same_counters s2 s3 -> same_counters s1 s3.
Proof. intros (H1 & H2 & H3) (G1 & G2 & G3). split_and!; congruence. Qed.

Lemma check_mic_counters msg data s go s' : check_mic conf msg data s = Ok (go, s') -> same_counters s s'.
Proof.
  unfold check_mic. intros H. destruct (_ && _); [|by simplify_eq].
  apply bind_ok_inv in H as ([r d] & _ & H). apply bind_ok_inv in H as ([bad s1] & E & H).
  assert (same_counters s s1) as H1.
  { destruct (r =? 0); [by simplify_eq|]. destruct (_ || _); [by simplify_eq|].
    apply bind_ok_inv in E as ([r2 s2] & E & [= _ <-]). unfold wpa_try_alt_snonce in E.
    apply bind_ok_inv in E as ([[pmk ptk]|] & _ & E); by simplify_eq. }
  destruct bad; simplify_eq; [done|]. by apply (same_counters_trans s s1).
Qed.

Lemma check_state_verdict msg key_data s rekey : check_state msg key_data s <> Ok (Some (RAccept rekey)).
Proof.
  intros H. unfold check_state in H. destruct msg; try (repeat case_match; simplify_eq; fail).
  destruct (_ && _); [done|]. destruct (gisset _ _); [done|]. apply bind_ok_inv in H as ([r ie] & _ & H).
  destruct (r <? 0); [done|]. apply bind_ok_inv in H as (e & _ & H). by case_match.
Qed.

(** an accepted frame passed the replay check, and its counter is then spent *)
Lemma accepted_counter data rekey s s' : receive_check conf data s = Ok (RAccept rekey, s') ->
  exists key_info kdl counter key_nonce s1 s2,
    WPA_GET_BE16 data o_key_info = Ok key_info /\ get data o_replay_counter WPA_REPLAY_COUNTER_LEN = Ok counter /\
    check_replay (classify key_info kdl) key_info counter key_nonce s = Ok (Some s1) /\ same_counters s1 s2 /\
    if any_of key_info WPA_KEY_INFO_REQUEST then
      isset req_replay_counter_used s' = true /\ str req_replay_counter s' = counter
    else s' = consume_counters (classify key_info kdl) counter s2.
Proof.
  unfold receive_check. intros H. destruct (_ || _); [done|].
  apply bind_ok_inv in H as (ki & Eki & H). apply bind_ok_inv in H as (kdl & _ & H). apply bind_ok_inv in H as (type & _ & H).
  destruct (_ || _); [done|]. apply bind_ok_inv in H as (kd & _ & H). apply bind_ok_inv in H as (counter & Ec & H).
  apply bind_ok_inv in H as (nonce & _ & H). destruct (negb (version_ok _ _ _)); [done|].
  apply bind_ok_inv in H as ([s1|] & Er & H); [|done]. apply bind_ok_inv in H as ([r|] & Es & H).
  { simplify_eq. by apply check_state_verdict in Es. }
  destruct (_ || negb (any_of ki WPA_KEY_INFO_MIC)); [done|]. apply bind_ok_inv in H as ([go s2] & Em & H).
  destruct go; [|done]. cbn [negb] in H. exists ki, kdl, counter, nonce, s1, s2.
  split_and!; try done; [by eapply check_mic_counters|]. destruct (any_of ki WPA_KEY_INFO_REQUEST); [|by simplify_eq].
  unfold receive_request in H. destruct (negb _); [done|].
  destruct (any_of ki WPA_KEY_INFO_ERROR).
  - unfold wpa_receive_error_report in H. repeat case_match; by simplify_eq.
  - destruct (any_of ki WPA_KEY_INFO_KEY_TYPE); [by simplify_eq|]. apply bind_ok_inv in H as (mac & _ & H). by simplify_eq.
Qed.

(** the counters a frame may carry are not above the last one sent *)
Record in_order s : Prop := {
  o_replay : replay_ok (key_replay (sta s));
  o_pending : up_to (newest (key_replay (sta s))) (key_replay (sta s));
  o_previous : up_to (newest (key_replay (sta s))) (prev_key_replay (sta s));
  o_alternative : isset alt_snonce_valid s = true -> be (str alt_replay_counter s) <= newest (key_replay (sta s)) }.

Lemma check_replay_counter msg key_info counter key_nonce s s1 : in_order s -> any_of key_info WPA_KEY_INFO_REQUEST = false ->
  check_replay msg key_info counter key_nonce s = Ok (Some s1) ->
  be counter <= newest (key_replay (sta s)) /\ key_replay (sta s1) = key_replay (sta s).
Proof.
  intros [O1 O2 O3 O4] Hq. unfold check_replay. rewrite Hq.
  destruct (wpa_replay_counter_valid (key_replay (sta s)) counter) eqn:Ev.
  { intros [= <-]. split; [exact (valid_up_to _ _ _ O2 Ev)|done]. }
  destruct (_ && negb _) eqn:E2.
  - intros H. apply bind_ok_inv in H as (c & _ & [= <-]). split; [|done].
    apply andb_prop in E2 as [E2 _]. apply andb_prop in E2 as [E2 _]. apply andb_prop in E2 as [_ E2]. exact (valid_up_to _ _ _ O3 E2).
  - destruct (_ && bool_decide (counter = _)) eqn:E4; [|done]. intros [= <-]. split; [|done]. clear E2.
    apply andb_prop in E4 as [E4 Ec]. apply andb_prop in E4 as [E4 _]. apply andb_prop in E4 as [_ E4].
    apply bool_decide_eq_true in Ec. rewrite Ec. by apply O4.
Qed.

Lemma consumed_spent msg counter s : be counter <= newest (key_replay (sta s)) ->
  spent (be counter) (key_replay (sta (consume_counters msg counter s))) /\
  wpa_replay_counter_valid (prev_key_replay (sta (consume_counters msg counter s))) counter = false.
Proof.
  intros Hc. unfold consume_counters. set (ctr := wpa_replay_counter_mark_invalid (key_replay (sta s)) (Some counter)).
  change (key_replay (sta (set_key_replay ?k ?s))) with k. change (prev_key_replay (sta (set_key_replay ?k (set_prev_key_replay ?l ?s)))) with l.
  split; [split|].
  - rewrite (newest_map _ ctr (mark_counters ctr None)). unfold ctr. by rewrite (newest_map _ _ (mark_counters (key_replay (sta s)) (Some counter))).
  - eapply Forall_impl; [|exact (mark_all_invalid ctr)]. intros c Ec Ev. cbn in Ec. by rewrite Ec in Ev.
  - case_bool_decide; [apply marked_invalid|apply no_replay_invalid].
Qed.

(** n frames were sent, and nothing else touched the replay counters: the station was not associated or initialised anew (which zeroes
    them), no request of its own was accepted, and no alternative SNonce lets an older counter through *)
Record later (n : nat) s s' : Prop := {
  l_sent : counters_sent n (key_replay (sta s)) = Ok (key_replay (sta s'));
  l_previous : prev_key_replay (sta s') = prev_key_replay (sta s);
  l_used : isset req_replay_counter_used s' = isset req_replay_counter_used s;
  l_request : str req_replay_counter s' = str req_replay_counter s;
  l_alternative : isset alt_snonce_valid s' = false \/ wpa_ptk_state (sta s') <> WPA_PTK_PTKINITNEGOTIATING }.

Definition is_request (data : list Z) : bool :=
  match WPA_GET_BE16 data o_key_info with Ok key_info => any_of key_info WPA_KEY_INFO_REQUEST | Err _ => false end.

(** a frame that fails the replay check is dropped without a trace *)
Lemma check_replay_drops data s : bytes data -> wpa_mic_len (val wpa_key_mgmt s) = 16 ->
  (forall key_info kdl counter key_nonce, WPA_GET_BE16 data o_key_info = Ok key_info ->
     get data o_replay_counter WPA_REPLAY_COUNTER_LEN = Ok counter ->
     check_replay (classify key_info kdl) key_info counter key_nonce s = Ok None) ->
  receive_check conf data s = Ok (RDrop, s).
Proof.
  intros Hb Hm Hr. unfold receive_check. rewrite Hm.
  change (HDR + keyhdrlen 16) with 99. change (zlen data - HDR - keyhdrlen 16) with (zlen data - 4 - 95).
  destruct (_ || (zlen data <? 99)) eqn:El; [done|]. apply orb_false_iff in El as [_ El].
  pose proof (be16_safe data o_key_info Hb) as Hi. apply safe_exists in Hi as (ki & Eki & _); [|unfold o_key_info; lia..].
  pose proof (be16_safe data (o_key_data_length 16) Hb) as Hk. apply safe_exists in Hk as (kdl & Ek & Hkdl); [|change (o_key_data_length 16) with 97; lia..].
  destruct (rd_in_range data o_type) as [type Et]; [unfold o_type; lia|]. rewrite Eki, bind_ok, Ek, bind_ok, Et, bind_ok.
  destruct (_ || _) eqn:Elen; [done|]. apply orb_false_iff in Elen as [Elen _].
  pose proof (get_safe data 99 kdl Hb) as Hkd. apply safe_exists in Hkd as (key_data & -> & _); [|lia..]. rewrite bind_ok.
  pose proof (get_safe data o_replay_counter WPA_REPLAY_COUNTER_LEN Hb) as Hc.
  apply safe_exists in Hc as (counter & Ec & _); [|unfold o_replay_counter, WPA_REPLAY_COUNTER_LEN; lia..]. rewrite Ec, bind_ok.
  pose proof (get_safe data o_key_nonce WPA_NONCE_LEN Hb) as Hn.
  apply safe_exists in Hn as (nonce & -> & _); [|unfold o_key_nonce, WPA_NONCE_LEN; lia..]. rewrite bind_ok.
  destruct (negb (version_ok _ _ _)); [done|]. by rewrite (Hr ki kdl counter nonce Eki Ec), bind_ok.
Qed.

(** C6: an EAPOL-Key frame is accepted at most once as long as only frames are
    sent.  In a state whose valid counters, pending, previous and of the other
    SNonce, are not above the last one sent ([in_order]), let wpa_receive accept
    a frame.  Later let nothing but the sending of n frames have touched the
    counters ([later]: no reassociation or initialisation in between, which
    zero them, no new request accepted, and no SNonce alternative pending in
    PTKINITNEGOTIATING), with an AKM of a 16-octet MIC and without the 64-bit
    counter wrapping.  Then a frame with the replay counter of the accepted one
    is dropped and changes nothing.  Requests of the station have counters of
    their own and are treated alike. *)
Theorem replayed_frame_dropped (data data2 : list Z) (rekey : bool) s s' s2 (n : nat) :
  in_order s -> receive_check conf data s = Ok (RAccept rekey, s') ->
  bytes data2 -> wpa_mic_len (val wpa_key_mgmt s2) = 16 ->
  get data2 o_replay_counter WPA_REPLAY_COUNTER_LEN = get data o_replay_counter WPA_REPLAY_COUNTER_LEN ->
  is_request data2 = is_request data ->
  later n s' s2 -> newest (key_replay (sta s')) + Z.of_nat n < 2 ^ 64 ->
  receive_check conf data2 s2 = Ok (RDrop, s2).
Proof.
  intros Ho Ha Hb Hm Hget Hreq [L1 L2 L3 L4 L5] Hn.
  apply accepted_counter in Ha as (ki & kdl & counter & nonce & s1 & s3 & Eki & Ec & Er & (K1 & K2 & _) & Hs').
  apply check_replay_drops; [done..|]. intros ki2 kdl2 counter2 nonce2 Eki2 Ec2. rewrite Hget, Ec in Ec2. injection Ec2 as <-.
  unfold is_request in Hreq. rewrite Eki, Eki2 in Hreq. unfold check_replay. rewrite Hreq.
  destruct (any_of ki WPA_KEY_INFO_REQUEST) eqn:Eq.
  { destruct Hs' as [U1 U2]. by rewrite L3, U1, L4, U2, memcmp_lt_irrefl. }
  apply (check_replay_counter _ _ _ _ _ _ Ho Eq) in Er as [Hc K0]. subst s'.
  destruct (consumed_spent (classify ki kdl) counter s3) as [S1 S2]; [by rewrite K1, K0|].
  assert (replay_ok (key_replay (sta (consume_counters (classify ki kdl) counter s3)))) as Hok.
  { unfold consume_counters. cbn [sta set_key_replay with_sta sta_set_key_replay key_replay]. rewrite K1, K0. do 2 apply mark_replay_ok. apply (o_replay _ Ho). }
  pose proof (spent_sent n _ _ Hok S1 Hn) as H. rewrite L1 in H. destruct H as [_ H].
  rewrite (spent_invalid _ _ H), L2, S2, andb_false_r. cbn [andb].
  destruct L5 as [->|L5]; [by rewrite andb_false_r|]. by rewrite (bool_decide_eq_false_2 _ L5), andb_false_r.
Qed.
End Replay.

(** ** Message 2 of the handshake of WpaWorld.v, twice *)

Module Sample.
Import WpaWorld.Sample.

Definition station0 (w : world) : st :=
  match the_sta 0 w with Some x => mkSt x (shw w) | None => mkSt (new_sta []) (shw w) end.

(** message 1 was sent *)
Definition waiting_station : st := station0 (after inputs1).

(** message 2 was accepted *)
Definition answered : st :=
  match receive_check (ctx := Z) (ENV := env) conf message2 waiting_station with Ok (_, s) => s | Err _ => waiting_station end.

(** and message 3 sent *)
Definition moved_on : st :=
  match next_replay_counter (key_replay (sta answered)) with Ok ctr => set_key_replay ctr answered | Err _ => answered end.

Lemma waiting_in_order : in_order waiting_station.
Proof.
  assert (key_replay (sta waiting_station) = mkReplay [0; 0; 0; 0; 0; 0; 0; 1] true :: take 3 no_replay) as Ek by by vm_compute.
  assert (prev_key_replay (sta waiting_station) = no_replay) as Ep by by vm_compute.
  split.
  - rewrite Ek. split; [done|]. constructor; [split; [done|apply (bool_decide_unpack _); by vm_compute]|].
    change (take 3 no_replay) with (replicate 3 (mkReplay (replicate 8 0) false)). apply Forall_replicate. by apply (arr_replicate 8).
  - rewrite Ek. apply (bool_decide_unpack _). by vm_compute.
  - rewrite Ek, Ep. apply (bool_decide_unpack _). by vm_compute.
  - assert (isset alt_snonce_valid waiting_station = false) as -> by by vm_compute. intros H. discriminate H.
Qed.

Lemma accepted_as (m : M (rx_result * st)) s : match m with Ok (RAccept false, _) => true | _ => false end = true ->
  m = Ok (RAccept false, match m with Ok (_, s') => s' | Err _ => s end).
Proof. by destruct m as [[[| | |[]] s']|]. Qed.

Lemma message2_accepted : receive_check (ctx := Z) (ENV := env) conf message2 waiting_station = Ok (RAccept false, answered).
Proof. apply accepted_as. by vm_compute. Qed.

Lemma sent_as (ctr : list key_replay_counter) s : is_ok (next_replay_counter ctr) = true -> key_replay (sta s) = ctr ->
  (isset alt_snonce_valid s = false) ->
  later 1 s (match next_replay_counter ctr with Ok ctr' => set_key_replay ctr' s | Err _ => s end).
Proof.
  intros H <- Ha. destruct (next_replay_counter (key_replay (sta s))) as [ctr'|] eqn:E; [|done].
  split; try done; [cbn [counters_sent]; by rewrite E|by left].
Qed.

Lemma one_sent : later 1 answered moved_on.
Proof. apply sent_as; [by vm_compute|reflexivity|by vm_compute]. Qed.
End Sample.

Lemma replayed_frame_dropped_witness :
  receive_check (ctx := Z) (ENV := WpaWorld.Sample.env) WpaWorld.Sample.conf WpaWorld.Sample.message2 Sample.moved_on =
    Ok (RDrop, Sample.moved_on).
Proof.
  apply (replayed_frame_dropped (ctx := Z) (ENV := WpaWorld.Sample.env) WpaWorld.Sample.conf WpaWorld.Sample.message2
    WpaWorld.Sample.message2 false Sample.waiting_station Sample.answered Sample.moved_on 1).
  - exact Sample.waiting_in_order.
  - exact Sample.message2_accepted.
  - apply (bool_decide_unpack _). by vm_compute.
  - by vm_compute.
  - reflexivity.
  - reflexivity.
  - exact Sample.one_sent.
  - by vm_compute.
Defined.
