(* ===== verification/RsnIe.v ===== *)
(** * RSN and WPA elements (src/hostapd-2.5/src/common/wpa_common.c, ap/wpa_auth_ie.c)

    The elements in which an access point announces its ciphers and key
    management suites and a station chooses among them: the parsers
    wpa_parse_wpa_ie_rsn and wpa_parse_wpa_ie_wpa, and the writers behind
    wpa_auth_gen_wpa_ie.

    The build has CONFIG_IEEE80211W and neither CONFIG_IEEE80211R, CONFIG_SAE
    nor CONFIG_RSN_TESTING.  A pointer into an element is an offset. *)

From S2P Require Import Prelude BlockCipher CText HexText AesCtr EapolKey EapCommon Prf WpaState WpaPtk WpaSafe.
From stdpp Require Import gmap list.
Open Scope Z_scope.

(** ** Constants *)

Definition WPA_CIPHER_NONE : Z := 2 ^ 0.
Definition WPA_CIPHER_GTK_NOT_USED : Z := 2 ^ 14.
Definition WPA_KEY_MGMT_WPA_NONE : Z := 2 ^ 4.
Definition WPA_PROTO_WPA : Z := 2 ^ 0.
Definition WPA_PROTO_OSEN : Z := 2 ^ 3.
Definition WPA_VERSION : Z := 1.
Definition RSN_VERSION : Z := 1.
Definition WLAN_EID_VENDOR_SPECIFIC : Z := 221.
Definition WPA_SELECTOR_LEN : Z := 4.

Definition WPA_AUTH_KEY_MGMT_NONE : Z := RSN_SELECTOR 0x00 0x50 0xf2 0.
Definition WPA_AUTH_KEY_MGMT_UNSPEC_802_1X : Z := RSN_SELECTOR 0x00 0x50 0xf2 1.
Definition WPA_AUTH_KEY_MGMT_PSK_OVER_802_1X : Z := RSN_SELECTOR 0x00 0x50 0xf2 2.
Definition WPA_CIPHER_SUITE_NONE : Z := RSN_SELECTOR 0x00 0x50 0xf2 0.
Definition WPA_CIPHER_SUITE_TKIP : Z := RSN_SELECTOR 0x00 0x50 0xf2 2.
Definition WPA_CIPHER_SUITE_CCMP : Z := RSN_SELECTOR 0x00 0x50 0xf2 4.
Definition RSN_AUTH_KEY_MGMT_UNSPEC_802_1X : Z := RSN_SELECTOR 0x00 0x0f 0xac 1.
Definition RSN_AUTH_KEY_MGMT_PSK_OVER_802_1X : Z := RSN_SELECTOR 0x00 0x0f 0xac 2.
Definition RSN_AUTH_KEY_MGMT_802_1X_SHA256 : Z := RSN_SELECTOR 0x00 0x0f 0xac 5.
Definition RSN_AUTH_KEY_MGMT_PSK_SHA256 : Z := RSN_SELECTOR 0x00 0x0f 0xac 6.
Definition RSN_AUTH_KEY_MGMT_802_1X_SUITE_B : Z := RSN_SELECTOR 0x00 0x0f 0xac 11.
Definition RSN_AUTH_KEY_MGMT_802_1X_SUITE_B_192 : Z := RSN_SELECTOR 0x00 0x0f 0xac 12.
Definition RSN_AUTH_KEY_MGMT_OSEN : Z := RSN_SELECTOR 0x50 0x6f 0x9a 0x01.
Definition RSN_CIPHER_SUITE_NONE : Z := RSN_SELECTOR 0x00 0x0f 0xac 0.
Definition RSN_CIPHER_SUITE_TKIP : Z := RSN_SELECTOR 0x00 0x0f 0xac 2.
Definition RSN_CIPHER_SUITE_CCMP : Z := RSN_SELECTOR 0x00 0x0f 0xac 4.
Definition RSN_CIPHER_SUITE_AES_128_CMAC : Z := RSN_SELECTOR 0x00 0x0f 0xac 6.
Definition RSN_CIPHER_SUITE_NO_GROUP_ADDRESSED : Z := RSN_SELECTOR 0x00 0x0f 0xac 7.
Definition RSN_CIPHER_SUITE_GCMP : Z := RSN_SELECTOR 0x00 0x0f 0xac 8.
Definition RSN_CIPHER_SUITE_GCMP_256 : Z := RSN_SELECTOR 0x00 0x0f 0xac 9.
Definition RSN_CIPHER_SUITE_CCMP_256 : Z := RSN_SELECTOR 0x00 0x0f 0xac 10.
Definition RSN_CIPHER_SUITE_BIP_GMAC_128 : Z := RSN_SELECTOR 0x00 0x0f 0xac 11.
Definition RSN_CIPHER_SUITE_BIP_GMAC_256 : Z := RSN_SELECTOR 0x00 0x0f 0xac 12.
Definition RSN_CIPHER_SUITE_BIP_CMAC_256 : Z := RSN_SELECTOR 0x00 0x0f 0xac 13.

Definition WPA_CAPABILITY_PREAUTH : Z := 2 ^ 0.
Definition WPA_CAPABILITY_MFPR : Z := 2 ^ 6.
Definition WPA_CAPABILITY_MFPC : Z := 2 ^ 7.
Definition WPA_CAPABILITY_PEERKEY_ENABLED : Z := 2 ^ 9.
Definition RSN_NUM_REPLAY_COUNTERS_16 : Z := 3.
Definition HS20_OSEN_OUI_TYPE : Z := 18.
Definition OUI_WFA : list Z := [0x50; 0x6f; 0x9a].

Definition WPA_GET_LE16 (buf : list Z) (off : Z) : M Z :=
  a ← rd buf off; b ← rd buf (off + 1); Ok (Z.lor (Z.shiftl b 8) a).

(** ** Selectors *)

Definition rsn_selector_to_bitfield (s : Z) : Z :=
  if s =? RSN_CIPHER_SUITE_NONE then WPA_CIPHER_NONE
  else if s =? RSN_CIPHER_SUITE_TKIP then WPA_CIPHER_TKIP
  else if s =? RSN_CIPHER_SUITE_CCMP then WPA_CIPHER_CCMP
  else if s =? RSN_CIPHER_SUITE_AES_128_CMAC then WPA_CIPHER_AES_128_CMAC
  else if s =? RSN_CIPHER_SUITE_GCMP then WPA_CIPHER_GCMP
  else if s =? RSN_CIPHER_SUITE_CCMP_256 then WPA_CIPHER_CCMP_256
  else if s =? RSN_CIPHER_SUITE_GCMP_256 then WPA_CIPHER_GCMP_256
  else if s =? RSN_CIPHER_SUITE_BIP_GMAC_128 then WPA_CIPHER_BIP_GMAC_128
  else if s =? RSN_CIPHER_SUITE_BIP_GMAC_256 then WPA_CIPHER_BIP_GMAC_256
  else if s =? RSN_CIPHER_SUITE_BIP_CMAC_256 then WPA_CIPHER_BIP_CMAC_256
  else if s =? RSN_CIPHER_SUITE_NO_GROUP_ADDRESSED then WPA_CIPHER_GTK_NOT_USED
  else 0.

Definition rsn_key_mgmt_to_bitfield (s : Z) : Z :=
  if s =? RSN_AUTH_KEY_MGMT_UNSPEC_802_1X then WPA_KEY_MGMT_IEEE8021X
  else if s =? RSN_AUTH_KEY_MGMT_PSK_OVER_802_1X then WPA_KEY_MGMT_PSK
  else if s =? RSN_AUTH_KEY_MGMT_802_1X_SHA256 then WPA_KEY_MGMT_IEEE8021X_SHA256
  else if s =? RSN_AUTH_KEY_MGMT_PSK_SHA256 then WPA_KEY_MGMT_PSK_SHA256
  else if s =? RSN_AUTH_KEY_MGMT_802_1X_SUITE_B then WPA_KEY_MGMT_IEEE8021X_SUITE_B
  else if s =? RSN_AUTH_KEY_MGMT_802_1X_SUITE_B_192 then WPA_KEY_MGMT_IEEE8021X_SUITE_B_192
  else if s =? RSN_AUTH_KEY_MGMT_OSEN then WPA_KEY_MGMT_OSEN
  else 0.

Definition wpa_selector_to_bitfield (s : Z) : Z :=
  if s =? WPA_CIPHER_SUITE_NONE then WPA_CIPHER_NONE
  else if s =? WPA_CIPHER_SUITE_TKIP then WPA_CIPHER_TKIP
  else if s =? WPA_CIPHER_SUITE_CCMP then WPA_CIPHER_CCMP
  else 0.

Definition wpa_key_mgmt_to_bitfield (s : Z) : Z :=
  if s =? WPA_AUTH_KEY_MGMT_UNSPEC_802_1X then WPA_KEY_MGMT_IEEE8021X
  else if s =? WPA_AUTH_KEY_MGMT_PSK_OVER_802_1X then WPA_KEY_MGMT_PSK
  else if s =? WPA_AUTH_KEY_MGMT_NONE then WPA_KEY_MGMT_WPA_NONE
  else 0.

Definition wpa_cipher_valid_pairwise (cipher : Z) : bool :=
  (cipher =? WPA_CIPHER_CCMP_256) || (cipher =? WPA_CIPHER_GCMP_256) || (cipher =? WPA_CIPHER_CCMP) ||
  (cipher =? WPA_CIPHER_GCMP) || (cipher =? WPA_CIPHER_TKIP).

Definition wpa_cipher_valid_group (cipher : Z) : bool :=
  wpa_cipher_valid_pairwise cipher || (cipher =? WPA_CIPHER_GTK_NOT_USED).

Definition wpa_cipher_valid_mgmt_group (cipher : Z) : bool :=
  (cipher =? WPA_CIPHER_AES_128_CMAC) || (cipher =? WPA_CIPHER_BIP_GMAC_128) || (cipher =? WPA_CIPHER_BIP_GMAC_256) ||
  (cipher =? WPA_CIPHER_BIP_CMAC_256).

(** ** Parsing *)

(** struct wpa_ie_data; [d_pmkid] is the offset of the PMKIDs in the element *)
Record wpa_ie_data : Type := mkIeData {
  d_proto : Z; d_pairwise_cipher : Z; d_group_cipher : Z; d_key_mgmt : Z; d_capabilities : Z;
  d_num_pmkid : Z; d_pmkid : option Z; d_mgmt_group_cipher : Z }.

Definition set_proto v d := mkIeData v (d_pairwise_cipher d) (d_group_cipher d) (d_key_mgmt d) (d_capabilities d) (d_num_pmkid d) (d_pmkid d) (d_mgmt_group_cipher d).
Definition set_pairwise v d := mkIeData (d_proto d) v (d_group_cipher d) (d_key_mgmt d) (d_capabilities d) (d_num_pmkid d) (d_pmkid d) (d_mgmt_group_cipher d).
Definition set_group v d := mkIeData (d_proto d) (d_pairwise_cipher d) v (d_key_mgmt d) (d_capabilities d) (d_num_pmkid d) (d_pmkid d) (d_mgmt_group_cipher d).
Definition set_key_mgmt v d := mkIeData (d_proto d) (d_pairwise_cipher d) (d_group_cipher d) v (d_capabilities d) (d_num_pmkid d) (d_pmkid d) (d_mgmt_group_cipher d).
Definition set_capabilities v d := mkIeData (d_proto d) (d_pairwise_cipher d) (d_group_cipher d) (d_key_mgmt d) v (d_num_pmkid d) (d_pmkid d) (d_mgmt_group_cipher d).
Definition set_pmkids n p d := mkIeData (d_proto d) (d_pairwise_cipher d) (d_group_cipher d) (d_key_mgmt d) (d_capabilities d) n p (d_mgmt_group_cipher d).
Definition set_mgmt_group v d := mkIeData (d_proto d) (d_pairwise_cipher d) (d_group_cipher d) (d_key_mgmt d) (d_capabilities d) (d_num_pmkid d) (d_pmkid d) v.

(** where a parser stands: it has returned, or it goes on at [pos] with [rest] bytes left *)
Inductive parse : Type :=
| Return (ret : Z) (d : wpa_ie_data)
| At (pos rest : Z) (d : wpa_ie_data).

Definition continue (p : parse) (f : Z -> Z -> wpa_ie_data -> M parse) : M parse :=
  match p with Return r d => Ok (Return r d) | At pos rest d => f pos rest d end.

Definition finish (p : parse) : Z * wpa_ie_data := match p with Return r d => (r, d) | At _ _ d => (0, d) end.

(** [n] selectors from [pos] on, as bits *)
Fixpoint selectors (bit : Z -> Z) (ie : list Z) (n : nat) (pos acc : Z) : M Z :=
  match n with
  | O => Ok acc
  | S n => v ← WPA_GET_BE32 ie pos; selectors bit ie n (pos + 4) (Z.lor acc (bit v))
  end.

(** a counted list of selectors; [botch] is returned when the count does not fit *)
Definition suite_list (bit : Z -> Z) (store : Z -> wpa_ie_data -> wpa_ie_data) (botch short : Z) (ie : list Z)
    (pos rest : Z) (d : wpa_ie_data) : M parse :=
  if 2 <=? rest then
    let d := store 0 d in
    count ← WPA_GET_LE16 ie pos;
    let pos := pos + 2 in
    let rest := rest - 2 in
    if (count =? 0) || (rest / 4 <? count) then Ok (Return botch d)
    else
      v ← selectors bit ie (Z.to_nat count) pos 0;
      Ok (At (pos + count * 4) (rest - count * 4) (store v d))
  else if rest =? 1 then Ok (Return short d)
  else Ok (At pos rest d).

Definition rsn_group (ie : list Z) (pos rest : Z) (d : wpa_ie_data) : M parse :=
  if RSN_SELECTOR_LEN <=? rest then
    v ← WPA_GET_BE32 ie pos;
    let d := set_group (rsn_selector_to_bitfield v) d in
    if negb (wpa_cipher_valid_group (d_group_cipher d)) then Ok (Return (-1) d)
    else Ok (At (pos + RSN_SELECTOR_LEN) (rest - RSN_SELECTOR_LEN) d)
  else if 0 <? rest then Ok (Return (-3) d)
  else Ok (At pos rest d).

Definition rsn_pairwise (ie : list Z) (pos rest : Z) (d : wpa_ie_data) : M parse :=
  p ← suite_list rsn_selector_to_bitfield set_pairwise (-4) (-5) ie pos rest d;
  continue p (fun pos' rest' d =>
    if (2 <=? rest) && any_of (d_pairwise_cipher d) WPA_CIPHER_AES_128_CMAC then Ok (Return (-1) d) else Ok (At pos' rest' d)).

Definition ie_capabilities (ie : list Z) (pos rest : Z) (d : wpa_ie_data) : M parse :=
  if 2 <=? rest then
    c ← WPA_GET_LE16 ie pos; Ok (At (pos + 2) (rest - 2) (set_capabilities c d))
  else Ok (At pos rest d).

Definition rsn_pmkids (ie : list Z) (pos rest : Z) (d : wpa_ie_data) : M parse :=
  if 2 <=? rest then
    num_pmkid ← WPA_GET_LE16 ie pos;
    let pos := pos + 2 in
    let rest := rest - 2 in
    if rest / PMKID_LEN <? num_pmkid then Ok (Return (-9) (set_pmkids 0 (d_pmkid d) d))
    else Ok (At (pos + num_pmkid * PMKID_LEN) (rest - num_pmkid * PMKID_LEN) (set_pmkids num_pmkid (Some pos) d))
  else Ok (At pos rest d).

Definition rsn_mgmt_group (ie : list Z) (pos rest : Z) (d : wpa_ie_data) : M parse :=
  if 4 <=? rest then
    v ← WPA_GET_BE32 ie pos;
    let d := set_mgmt_group (rsn_selector_to_bitfield v) d in
    if negb (wpa_cipher_valid_mgmt_group (d_mgmt_group_cipher d)) then Ok (Return (-10) d)
    else Ok (At (pos + RSN_SELECTOR_LEN) (rest - RSN_SELECTOR_LEN) d)
  else Ok (At pos rest d).

Definition rsn_default : wpa_ie_data :=
  mkIeData WPA_PROTO_RSN WPA_CIPHER_CCMP WPA_CIPHER_CCMP WPA_KEY_MGMT_IEEE8021X 0 0 None WPA_CIPHER_AES_128_CMAC.

(** the header: an RSN element, or the vendor element of OSEN *)
Definition rsn_header (ie : list Z) (d : wpa_ie_data) : M parse :=
  let len := zlen ie in
  osen ← (if 6 <=? len then
            l ← rd ie 1;
            if (4 <=? l) && (l =? len - 2) then v ← WPA_GET_BE32 ie 2; Ok (v =? OSEN_IE_VENDOR_TYPE) else Ok false
          else Ok false);
  if (osen : bool) then Ok (At 6 (len - 6) (set_proto WPA_PROTO_OSEN d))
  else
    id ← rd ie 0; l ← rd ie 1; version ← WPA_GET_LE16 ie 2;
    if negb (id =? WLAN_EID_RSN) || negb (l =? len - 2) || negb (version =? RSN_VERSION) then Ok (Return (-2) d)
    else Ok (At 4 (len - 4) d).

Definition wpa_parse_wpa_ie_rsn (ie : list Z) : M (Z * wpa_ie_data) :=
  let d := rsn_default in
  if zlen ie =? 0 then Ok (-1, d)
  else if zlen ie <? 4 then Ok (-1, d)
  else
    p ← rsn_header ie d;
    p ← continue p (rsn_group ie);
    p ← continue p (rsn_pairwise ie);
    p ← continue p (suite_list rsn_key_mgmt_to_bitfield set_key_mgmt (-6) (-7) ie);
    p ← continue p (ie_capabilities ie);
    p ← continue p (rsn_pmkids ie);
    p ← continue p (rsn_mgmt_group ie);
    Ok (finish p).

Definition wpa_default : wpa_ie_data :=
  mkIeData WPA_PROTO_WPA WPA_CIPHER_TKIP WPA_CIPHER_TKIP WPA_KEY_MGMT_IEEE8021X 0 0 None 0.

Definition wpa_header (ie : list Z) (d : wpa_ie_data) : M parse :=
  id ← rd ie 0; l ← rd ie 1; oui ← WPA_GET_BE32 ie 2; version ← WPA_GET_LE16 ie 6;
  if negb (id =? WLAN_EID_VENDOR_SPECIFIC) || negb (l =? zlen ie - 2) || negb (oui =? WPA_OUI_TYPE) || negb (version =? WPA_VERSION)
  then Ok (Return (-2) d) else Ok (At 8 (zlen ie - 8) d).

Definition wpa_group (ie : list Z) (pos rest : Z) (d : wpa_ie_data) : M parse :=
  if WPA_SELECTOR_LEN <=? rest then
    v ← WPA_GET_BE32 ie pos;
    Ok (At (pos + WPA_SELECTOR_LEN) (rest - WPA_SELECTOR_LEN) (set_group (wpa_selector_to_bitfield v) d))
  else if 0 <? rest then Ok (Return (-3) d)
  else Ok (At pos rest d).

Definition wpa_parse_wpa_ie_wpa (ie : list Z) : M (Z * wpa_ie_data) :=
  let d := wpa_default in
  if zlen ie <? 8 then Ok (-1, d)
  else
    p ← wpa_header ie d;
    p ← continue p (wpa_group ie);
    p ← continue p (suite_list wpa_selector_to_bitfield set_pairwise (-4) (-5) ie);
    p ← continue p (suite_list wpa_key_mgmt_to_bitfield set_key_mgmt (-6) (-7) ie);
    p ← continue p (ie_capabilities ie);
    Ok (finish p).

(** ** Writing *)

(** the members of struct wpa_auth_config that the elements depend on *)
Record ie_config : Type := mkIeConfig {
  c_wpa : Z; c_wpa_key_mgmt : Z; c_wpa_pairwise : Z; c_wpa_group : Z; c_rsn_pairwise : Z; c_rsn_preauth : bool; c_peerkey : bool;
  c_wmm_enabled : bool; c_okc : bool; c_ieee80211w : Z; c_group_mgmt_cipher : Z }.

Definition NO_MGMT_FRAME_PROTECTION : Z := 0.
Definition MGMT_FRAME_PROTECTION_REQUIRED : Z := 2.

Definition wpa_cipher_to_suite (proto cipher : Z) : Z :=
  if any_of cipher WPA_CIPHER_CCMP_256 then RSN_CIPHER_SUITE_CCMP_256
  else if any_of cipher WPA_CIPHER_GCMP_256 then RSN_CIPHER_SUITE_GCMP_256
  else if any_of cipher WPA_CIPHER_CCMP then (if proto =? WPA_PROTO_RSN then RSN_CIPHER_SUITE_CCMP else WPA_CIPHER_SUITE_CCMP)
  else if any_of cipher WPA_CIPHER_GCMP then RSN_CIPHER_SUITE_GCMP
  else if any_of cipher WPA_CIPHER_TKIP then (if proto =? WPA_PROTO_RSN then RSN_CIPHER_SUITE_TKIP else WPA_CIPHER_SUITE_TKIP)
  else if any_of cipher WPA_CIPHER_NONE then (if proto =? WPA_PROTO_RSN then RSN_CIPHER_SUITE_NONE else WPA_CIPHER_SUITE_NONE)
  else if any_of cipher WPA_CIPHER_GTK_NOT_USED then RSN_CIPHER_SUITE_NO_GROUP_ADDRESSED
  else if any_of cipher WPA_CIPHER_AES_128_CMAC then RSN_CIPHER_SUITE_AES_128_CMAC
  else if any_of cipher WPA_CIPHER_BIP_GMAC_128 then RSN_CIPHER_SUITE_BIP_GMAC_128
  else if any_of cipher WPA_CIPHER_BIP_GMAC_256 then RSN_CIPHER_SUITE_BIP_GMAC_256
  else if any_of cipher WPA_CIPHER_BIP_CMAC_256 then RSN_CIPHER_SUITE_BIP_CMAC_256
  else 0.

Definition le16 (v : Z) : list Z := to_le 2 v.
Definition be32 (v : Z) : list Z := to_be 4 v.
Definition WPA_PUT_LE16 (buf : list Z) (off v : Z) : M (list Z) := blit buf off (le16 v).
Definition RSN_SELECTOR_PUT (buf : list Z) (off v : Z) : M (list Z) := blit buf off (be32 v).

(** a row of [if (mask & bit) { RSN_SELECTOR_PUT(pos, suite); pos += 4; }]: the buffer and the number of selectors *)
Fixpoint put_suites (table : list (Z * Z)) (mask pos : Z) (n : Z) (buf : list Z) : M (list Z * Z) :=
  match table with
  | [] => Ok (buf, n)
  | (bit, suite) :: table =>
      if any_of mask bit then buf ← RSN_SELECTOR_PUT buf pos suite; put_suites table mask (pos + 4) (n + 1) buf
      else put_suites table mask pos n buf
  end.

Definition rsn_cipher_table : list (Z * Z) :=
  [(WPA_CIPHER_CCMP_256, RSN_CIPHER_SUITE_CCMP_256); (WPA_CIPHER_GCMP_256, RSN_CIPHER_SUITE_GCMP_256);
   (WPA_CIPHER_CCMP, RSN_CIPHER_SUITE_CCMP); (WPA_CIPHER_GCMP, RSN_CIPHER_SUITE_GCMP);
   (WPA_CIPHER_TKIP, RSN_CIPHER_SUITE_TKIP); (WPA_CIPHER_NONE, RSN_CIPHER_SUITE_NONE)].
Definition rsn_cipher_put_suites (buf : list Z) (pos ciphers : Z) : M (list Z * Z) := put_suites rsn_cipher_table ciphers pos 0 buf.

Definition wpa_cipher_table : list (Z * Z) :=
  [(WPA_CIPHER_CCMP, WPA_CIPHER_SUITE_CCMP); (WPA_CIPHER_TKIP, WPA_CIPHER_SUITE_TKIP); (WPA_CIPHER_NONE, WPA_CIPHER_SUITE_NONE)].
Definition wpa_cipher_put_suites (buf : list Z) (pos ciphers : Z) : M (list Z * Z) := put_suites wpa_cipher_table ciphers pos 0 buf.

Definition rsn_key_mgmt_table : list (Z * Z) :=
  [(WPA_KEY_MGMT_IEEE8021X, RSN_AUTH_KEY_MGMT_UNSPEC_802_1X); (WPA_KEY_MGMT_PSK, RSN_AUTH_KEY_MGMT_PSK_OVER_802_1X);
   (WPA_KEY_MGMT_IEEE8021X_SHA256, RSN_AUTH_KEY_MGMT_802_1X_SHA256); (WPA_KEY_MGMT_PSK_SHA256, RSN_AUTH_KEY_MGMT_PSK_SHA256);
   (WPA_KEY_MGMT_IEEE8021X_SUITE_B, RSN_AUTH_KEY_MGMT_802_1X_SUITE_B);
   (WPA_KEY_MGMT_IEEE8021X_SUITE_B_192, RSN_AUTH_KEY_MGMT_802_1X_SUITE_B_192)].
Definition wpa_key_mgmt_table : list (Z * Z) :=
  [(WPA_KEY_MGMT_IEEE8021X, WPA_AUTH_KEY_MGMT_UNSPEC_802_1X); (WPA_KEY_MGMT_PSK, WPA_AUTH_KEY_MGMT_PSK_OVER_802_1X)].

Definition or_bits (l : list (bool * Z)) : Z := fold_left (fun v x => if (x.1 : bool) then Z.lor v x.2 else v) l 0.

Definition mfp_capabilities (conf : ie_config) : list (bool * Z) :=
  [(negb (c_ieee80211w conf =? NO_MGMT_FRAME_PROTECTION), WPA_CAPABILITY_MFPC);
   (c_ieee80211w conf =? MGMT_FRAME_PROTECTION_REQUIRED, WPA_CAPABILITY_MFPR)].

Definition rsn_capabilities (conf : ie_config) : Z :=
  or_bits ([(c_rsn_preauth conf, WPA_CAPABILITY_PREAUTH); (c_peerkey conf, WPA_CAPABILITY_PEERKEY_ENABLED);
            (c_wmm_enabled conf, Z.shiftl RSN_NUM_REPLAY_COUNTERS_16 2)] ++ mfp_capabilities conf).

Definition mgmt_group_suite (cipher : Z) : option Z :=
  if cipher =? WPA_CIPHER_AES_128_CMAC then Some RSN_CIPHER_SUITE_AES_128_CMAC
  else if cipher =? WPA_CIPHER_BIP_GMAC_128 then Some RSN_CIPHER_SUITE_BIP_GMAC_128
  else if cipher =? WPA_CIPHER_BIP_GMAC_256 then Some RSN_CIPHER_SUITE_BIP_GMAC_256
  else if cipher =? WPA_CIPHER_BIP_CMAC_256 then Some RSN_CIPHER_SUITE_BIP_CMAC_256
  else None.

(** the optional end of the element, from [pos] on: the result and the buffer *)
Definition write_rsn_tail (conf : ie_config) (buf : list Z) (start len pos : Z) (pmkid : option (list Z)) : M (Z * list Z) :=
  match (match pmkid with Some id => if start + len <? pos + 2 + PMKID_LEN then None else Some id | None => Some [] end) with
  | None => Ok (-1, buf)
  | Some _ =>
      '(buf, pos) ← match pmkid with
                    | Some id => buf ← WPA_PUT_LE16 buf pos 1; buf ← blit buf (pos + 2) id; Ok (buf, pos + 2 + PMKID_LEN)
                    | None => Ok (buf, pos)
                    end;
      if negb (c_ieee80211w conf =? NO_MGMT_FRAME_PROTECTION) && negb (c_group_mgmt_cipher conf =? WPA_CIPHER_AES_128_CMAC) then
        if start + len <? pos + 2 + 4 then Ok (-1, buf)
        else
          '(buf, pos) ← match pmkid with
                        | None => buf ← WPA_PUT_LE16 buf pos 0; Ok (buf, pos + 2)
                        | Some _ => Ok (buf, pos)
                        end;
          match mgmt_group_suite (c_group_mgmt_cipher conf) with
          | None => Ok (-1, buf)
          | Some suite =>
              buf ← RSN_SELECTOR_PUT buf pos suite;
              buf ← wr buf (start + 1) (u8 (pos + RSN_SELECTOR_LEN - start - 2));
              Ok (pos + RSN_SELECTOR_LEN - start, buf)
          end
      else
        buf ← wr buf (start + 1) (u8 (pos - start - 2));
        Ok (pos - start, buf)
  end.

(** the length written, or -1, and the buffer, written from [start] on *)
Definition wpa_write_rsn_ie (conf : ie_config) (buf : list Z) (start len : Z) (pmkid : option (list Z)) : M (Z * list Z) :=
  buf ← wr buf start WLAN_EID_RSN;
  buf ← WPA_PUT_LE16 buf (start + 2) RSN_VERSION;
  let pos := start + 4 in
  let suite := wpa_cipher_to_suite WPA_PROTO_RSN (c_wpa_group conf) in
  if suite =? 0 then Ok (-1, buf)
  else
    buf ← RSN_SELECTOR_PUT buf pos suite;
    let count := pos + RSN_SELECTOR_LEN in
    '(buf, num_suites) ← rsn_cipher_put_suites buf (count + 2) (c_rsn_pairwise conf);
    let pos := count + 2 + num_suites * RSN_SELECTOR_LEN in
    if num_suites =? 0 then Ok (-1, buf)
    else
      buf ← WPA_PUT_LE16 buf count num_suites;
      let count := pos in
      '(buf, num_suites) ← put_suites rsn_key_mgmt_table (c_wpa_key_mgmt conf) (count + 2) 0 buf;
      let pos := count + 2 + num_suites * RSN_SELECTOR_LEN in
      if num_suites =? 0 then Ok (-1, buf)
      else
        buf ← WPA_PUT_LE16 buf count num_suites;
        buf ← WPA_PUT_LE16 buf pos (rsn_capabilities conf);
        write_rsn_tail conf buf start len (pos + 2) pmkid.

Definition wpa_write_wpa_ie (conf : ie_config) (buf : list Z) (start : Z) : M (Z * list Z) :=
  buf ← wr buf start WLAN_EID_VENDOR_SPECIFIC;
  buf ← RSN_SELECTOR_PUT buf (start + 2) WPA_OUI_TYPE;
  buf ← WPA_PUT_LE16 buf (start + 6) WPA_VERSION;
  let pos := start + 8 in
  let suite := wpa_cipher_to_suite WPA_PROTO_WPA (c_wpa_group conf) in
  if suite =? 0 then Ok (-1, buf)
  else
    buf ← RSN_SELECTOR_PUT buf pos suite;
    let count := pos + WPA_SELECTOR_LEN in
    '(buf, num_suites) ← wpa_cipher_put_suites buf (count + 2) (c_wpa_pairwise conf);
    let pos := count + 2 + num_suites * WPA_SELECTOR_LEN in
    if num_suites =? 0 then Ok (-1, buf)
    else
      buf ← WPA_PUT_LE16 buf count num_suites;
      let count := pos in
      '(buf, num_suites) ← put_suites wpa_key_mgmt_table (c_wpa_key_mgmt conf) (count + 2) 0 buf;
      let pos := count + 2 + num_suites * WPA_SELECTOR_LEN in
      if num_suites =? 0 then Ok (-1, buf)
      else
        buf ← WPA_PUT_LE16 buf count num_suites;
        buf ← wr buf (start + 1) (u8 (pos - start - 2));
        Ok (pos - start, buf).

(** the buffer and the position behind the element *)
Definition wpa_write_osen (conf : ie_config) (buf : list Z) (start : Z) : M (list Z * Z) :=
  buf ← wr buf start WLAN_EID_VENDOR_SPECIFIC;
  buf ← blit buf (start + 2) OUI_WFA;
  buf ← wr buf (start + 5) HS20_OSEN_OUI_TYPE;
  buf ← RSN_SELECTOR_PUT buf (start + 6) RSN_CIPHER_SUITE_NO_GROUP_ADDRESSED;
  buf ← WPA_PUT_LE16 buf (start + 10) 1;
  buf ← RSN_SELECTOR_PUT buf (start + 12) RSN_CIPHER_SUITE_CCMP;
  buf ← WPA_PUT_LE16 buf (start + 16) 1;
  buf ← RSN_SELECTOR_PUT buf (start + 18) RSN_AUTH_KEY_MGMT_OSEN;
  buf ← WPA_PUT_LE16 buf (start + 22)
          (or_bits ((c_wmm_enabled conf, Z.shiftl RSN_NUM_REPLAY_COUNTERS_16 2) :: mfp_capabilities conf));
  buf ← wr buf (start + 1) 22;
  Ok (buf, start + 24).

(** the result and the new [wpa_auth->wpa_ie], [None] when the old one stays *)
Definition wpa_auth_gen_wpa_ie (alloc : Z -> bool) (conf : ie_config) : M (Z * option (option (list Z))) :=
  let buf := replicate 128 0 in
  '(buf, pos) ← (if c_wpa conf =? WPA_PROTO_OSEN then wpa_write_osen conf buf 0 else Ok (buf, 0));
  '(res, buf, pos) ← (if any_of (c_wpa conf) WPA_PROTO_RSN then
                        '(res, buf) ← wpa_write_rsn_ie conf buf pos (128 - pos) None;
                        Ok (if res <? 0 then (res, buf, pos) else (0, buf, pos + res))
                      else Ok (0, buf, pos));
  if res <? 0 then Ok (res, None)
  else
    '(res, buf, pos) ← (if any_of (c_wpa conf) WPA_PROTO_WPA then
                          '(res, buf) ← wpa_write_wpa_ie conf buf pos;
                          Ok (if res <? 0 then (res, buf, pos) else (0, buf, pos + res))
                        else Ok (0, buf, pos));
    if res <? 0 then Ok (res, None)
    else if negb (alloc pos) then Ok (-1, Some None)
    else ie ← get buf 0 pos; Ok (0, Some (Some ie)).

(** ** The parsers on every element *)

Definition pmkids_inside (ie : list Z) (d : wpa_ie_data) : Prop :=
  0 <= d_num_pmkid d /\ match d_pmkid d with Some off => 0 <= off /\ off + d_num_pmkid d * PMKID_LEN <= zlen ie | None => d_num_pmkid d = 0 end.

(** what holds of a parser in the middle of an element, [Q] of the data *)
Definition parsing (ie : list Z) (Q : wpa_ie_data -> Prop) (p : parse) : Prop :=
  match p with
  | Return r d => r < 0 /\ pmkids_inside ie d
  | At pos rest d => 0 <= pos /\ 0 <= rest /\ pos + rest = zlen ie /\ pmkids_inside ie d /\ Q d
  end.

(** the parser goes on: what is left to show of its data *)
Ltac goes_on := unfold safe; cbn [parsing]; cbv beta in *; do 3 (split; [lia|]); split.

Lemma continue_ok ie Q Q' p f : parsing ie Q p ->
  (forall pos rest d, 0 <= pos -> 0 <= rest -> pos + rest = zlen ie -> pmkids_inside ie d -> Q d -> safe (f pos rest d) (parsing ie Q')) ->
  safe (continue p f) (parsing ie Q').
Proof. destruct p as [r d|pos rest d]; cbn [continue parsing]; [done|]. intros (H1 & H2 & H3 & H4 & H5) Hf. by apply Hf. Qed.

Lemma be32_safe ie pos : 0 <= pos -> pos + 4 <= zlen ie -> safe (WPA_GET_BE32 ie pos) (fun _ => True).
Proof. intros H1 H2. by destruct (get_be32_ok ie pos H1 H2) as [v ->]. Qed.

Lemma le16_safe ie pos : bytes ie -> 0 <= pos -> pos + 2 <= zlen ie -> safe (WPA_GET_LE16 ie pos) (fun v => 0 <= v < 2 ^ 16).
Proof.
  intros Hb H1 H2. unfold WPA_GET_LE16. safe_to is_byte; [apply rd_byte; [done|lia]|intros a Ha].
  safe_to is_byte; [apply rd_byte; [done|lia]|intros b Hb']. unfold safe, is_byte in *.
  rewrite Z.shiftl_mul_pow2, lor_disjoint by lia. lia.
Qed.

Lemma selectors_safe bit ie n pos acc : 0 <= pos -> pos + 4 * Z.of_nat n <= zlen ie -> safe (selectors bit ie n pos acc) (fun _ => True).
Proof.
  revert pos acc. induction n as [|n IH]; intros pos acc H1 H2; [done|]. cbn [selectors].
  eapply safe_bind; [apply be32_safe; lia|]. intros v _. apply IH; lia.
Qed.

Section Stages.
Context (ie : list Z) (Hb : bytes ie).
Implicit Types (d : wpa_ie_data) (Q : wpa_ie_data -> Prop).

Lemma suite_list_safe bit store botch short Q pos rest d : botch < 0 -> short < 0 ->
  (forall v d, pmkids_inside ie d -> pmkids_inside ie (store v d)) -> (forall v d, Q d -> Q (store v d)) ->
  0 <= pos -> 0 <= rest -> pos + rest = zlen ie -> pmkids_inside ie d -> Q d ->
  safe (suite_list bit store botch short ie pos rest d) (parsing ie Q).
Proof.
  intros Hbo Hsh Hs HQ H1 H2 H3 Hp HQd. unfold suite_list. destruct (Z.leb_spec 2 rest).
  - eapply safe_bind; [apply le16_safe; [done|lia..]|]. intros count Hc. cbv zeta. destruct (_ || _) eqn:Ec; [by split; [|apply Hs]|].
    apply orb_false_iff in Ec as [_ Ec]. assert (count * 4 <= rest - 2) by (pose proof (Z.mul_div_le (rest - 2) 4); lia).
    eapply safe_bind; [apply selectors_safe; lia|]. intros v _. goes_on; [by do 2 apply Hs|by do 2 apply HQ].
  - destruct (rest =? 1); [by split|]. by goes_on.
Qed.

Lemma rsn_group_safe Q pos rest d : (forall v d, Q d -> wpa_cipher_valid_group v = true -> Q (set_group v d)) ->
  0 <= pos -> 0 <= rest -> pos + rest = zlen ie -> pmkids_inside ie d -> Q d -> safe (rsn_group ie pos rest d) (parsing ie Q).
Proof.
  intros HQ H1 H2 H3 Hp HQd. unfold rsn_group, RSN_SELECTOR_LEN. destruct (Z.leb_spec 4 rest).
  - eapply safe_bind; [apply be32_safe; lia|]. intros v _. cbv zeta. cbn [d_group_cipher set_group].
    destruct (wpa_cipher_valid_group _) eqn:Ev; cbn [negb]; [|by split]. goes_on; [done|by apply HQ].
  - destruct (0 <? rest); [by split|]. by goes_on.
Qed.

Lemma rsn_pairwise_safe Q pos rest d : (forall v d, Q d -> Q (set_pairwise v d)) ->
  0 <= pos -> 0 <= rest -> pos + rest = zlen ie -> pmkids_inside ie d -> Q d -> safe (rsn_pairwise ie pos rest d) (parsing ie Q).
Proof.
  intros HQ H1 H2 H3 Hp HQd. unfold rsn_pairwise.
  eapply safe_bind; [by apply (suite_list_safe _ _ _ _ Q)|]. intros p Hp'. eapply continue_ok; [exact Hp'|].
  intros pos' rest' d' ? ? ? ? ?. by destruct (_ && _).
Qed.

Lemma ie_capabilities_safe Q pos rest d : (forall v d, Q d -> Q (set_capabilities v d)) ->
  0 <= pos -> 0 <= rest -> pos + rest = zlen ie -> pmkids_inside ie d -> Q d -> safe (ie_capabilities ie pos rest d) (parsing ie Q).
Proof.
  intros HQ H1 H2 H3 Hp HQd. unfold ie_capabilities. destruct (Z.leb_spec 2 rest); [|by goes_on].
  eapply safe_bind; [apply le16_safe; [done|lia..]|]. intros v _. goes_on; [done|by apply HQ].
Qed.

Lemma rsn_pmkids_safe Q pos rest d : (forall n p d, Q d -> Q (set_pmkids n p d)) ->
  0 <= pos -> 0 <= rest -> pos + rest = zlen ie -> pmkids_inside ie d -> Q d -> safe (rsn_pmkids ie pos rest d) (parsing ie Q).
Proof.
  intros HQ H1 H2 H3 Hp HQd. unfold rsn_pmkids. destruct (Z.leb_spec 2 rest); [|by goes_on].
  eapply safe_bind; [apply le16_safe; [done|lia..]|]. intros n Hn. cbv zeta. unfold PMKID_LEN. destruct (_ <? _) eqn:En.
  - split; [lia|]. destruct Hp as [Hn0 Hp]. split; cbn [set_pmkids d_pmkid d_num_pmkid]; [lia|]. destruct (d_pmkid d); [|done].
    unfold PMKID_LEN in *. lia.
  - pose proof (Z.mul_div_le (rest - 2) 16). goes_on; [|by apply HQ].
    unfold pmkids_inside. cbn [set_pmkids d_pmkid d_num_pmkid]. unfold PMKID_LEN. lia.
Qed.

Lemma rsn_mgmt_group_safe Q pos rest d : (forall v d, Q d -> wpa_cipher_valid_mgmt_group v = true -> Q (set_mgmt_group v d)) ->
  0 <= pos -> 0 <= rest -> pos + rest = zlen ie -> pmkids_inside ie d -> Q d -> safe (rsn_mgmt_group ie pos rest d) (parsing ie Q).
Proof.
  intros HQ H1 H2 H3 Hp HQd. unfold rsn_mgmt_group, RSN_SELECTOR_LEN. destruct (Z.leb_spec 4 rest); [|by goes_on].
  eapply safe_bind; [apply be32_safe; lia|]. intros v _. cbv zeta. cbn [d_mgmt_group_cipher set_mgmt_group].
  destruct (wpa_cipher_valid_mgmt_group _) eqn:Ev; cbn [negb]; [|by split]. goes_on; [done|by apply HQ].
Qed.
End Stages.

(** the ciphers that a successful parse leaves *)
Definition ciphers_valid (d : wpa_ie_data) : Prop :=
  wpa_cipher_valid_group (d_group_cipher d) = true /\ wpa_cipher_valid_mgmt_group (d_mgmt_group_cipher d) = true.

Definition parsed (ie : list Z) (Q : wpa_ie_data -> Prop) (r : Z * wpa_ie_data) : Prop :=
  r.1 <= 0 /\ pmkids_inside ie r.2 /\ (r.1 = 0 -> Q r.2).

Lemma finish_ok ie Q p : parsing ie Q p -> parsed ie Q (finish p).
Proof. destruct p as [r d|pos rest d]; cbn [parsing finish]; unfold parsed; cbn [fst snd]; intuition lia. Qed.

Lemma rsn_header_safe ie Q d : bytes ie -> 4 <= zlen ie -> pmkids_inside ie d -> Q d -> (forall v d, Q d -> Q (set_proto v d)) ->
  safe (rsn_header ie d) (parsing ie Q).
Proof.
  intros Hb Hl Hp HQ Hs. unfold rsn_header. cbv zeta. destruct (rd_in_range ie 0) as [id E0]; [lia|]. destruct (rd_in_range ie 1) as [l E1]; [lia|].
  destruct (Z.leb_spec 6 (zlen ie)) as [H6|H6].
  - rewrite E1, !bind_ok. destruct (get_be32_ok ie 2) as [v Ev]; [lia..|]. rewrite Ev, bind_ok.
    eapply (safe_bind (fun _ => True)); [by case_match|]. intros [] _; [by goes_on; [|apply Hs]|].
    rewrite E0, !bind_ok. eapply safe_bind; [apply le16_safe; [done|lia..]|]. intros version _. by case_match; [split|goes_on].
  - rewrite !bind_ok, E0, bind_ok, E1, bind_ok. eapply safe_bind; [apply le16_safe; [done|lia..]|]. intros version _. by case_match; [split|goes_on].
Qed.

Lemma wpa_header_safe ie Q d : bytes ie -> 8 <= zlen ie -> pmkids_inside ie d -> Q d -> safe (wpa_header ie d) (parsing ie Q).
Proof.
  intros Hb Hl Hp HQ. unfold wpa_header. destruct (rd_in_range ie 0) as [id E0]; [lia|]. destruct (rd_in_range ie 1) as [l E1]; [lia|].
  rewrite E0, bind_ok, E1, bind_ok. eapply safe_bind; [apply be32_safe; lia|]. intros oui _.
  eapply safe_bind; [apply le16_safe; [done|lia..]|]. intros version _. by case_match; [split|goes_on].
Qed.

(** the next stage of a parser whose data satisfies [Q] *)
Ltac stage Q tac :=
  eapply safe_bind; [eapply (continue_ok _ Q Q); [eassumption|]; intros; tac|]; intros ? ?.

Lemma parse_rsn_ok ie : bytes ie -> safe (wpa_parse_wpa_ie_rsn ie) (parsed ie ciphers_valid).
Proof.
  intros Hb. pose proof (zlen_nonneg ie). unfold wpa_parse_wpa_ie_rsn. cbv zeta.
  assert (pmkids_inside ie rsn_default) as Hp by by split. assert (ciphers_valid rsn_default) as HQ by by split.
  destruct (zlen ie =? 0); [by split_and!|]. destruct (Z.ltb_spec (zlen ie) 4); [by split_and!|].
  eapply safe_bind; [by apply (rsn_header_safe ie ciphers_valid)|]. intros p Hpars.
  stage ciphers_valid ltac:(apply rsn_group_safe; [by intros ? ? [? ?] ?|done..]).
  stage ciphers_valid ltac:(by apply rsn_pairwise_safe).
  stage ciphers_valid ltac:(by apply suite_list_safe).
  stage ciphers_valid ltac:(by apply ie_capabilities_safe).
  stage ciphers_valid ltac:(by apply rsn_pmkids_safe).
  stage ciphers_valid ltac:(apply rsn_mgmt_group_safe; [by intros ? ? [? ?] ?|done..]).
  by apply finish_ok.
Qed.

(** what a successful parse of a WPA element leaves: a group suite WPA 1 knows,
    or 0 for another one, and none of the fields the element does not have *)
Definition wpa_known (d : wpa_ie_data) : Prop :=
  In (d_group_cipher d) [0; WPA_CIPHER_NONE; WPA_CIPHER_TKIP; WPA_CIPHER_CCMP] /\
  d_num_pmkid d = 0 /\ d_pmkid d = None /\ d_mgmt_group_cipher d = 0.

Lemma wpa_selector_known v : In (wpa_selector_to_bitfield v) [0; WPA_CIPHER_NONE; WPA_CIPHER_TKIP; WPA_CIPHER_CCMP].
Proof. unfold wpa_selector_to_bitfield. repeat case_match; cbn [In]; tauto. Qed.

Lemma wpa_group_safe ie pos rest d : 0 <= pos -> 0 <= rest -> pos + rest = zlen ie -> pmkids_inside ie d -> wpa_known d ->
  safe (wpa_group ie pos rest d) (parsing ie wpa_known).
Proof.
  intros H1 H2 H3 Hp HQ. unfold wpa_group, WPA_SELECTOR_LEN. destruct (Z.leb_spec 4 rest).
  - eapply safe_bind; [apply be32_safe; lia|]. intros v _. goes_on; [done|]. destruct HQ as [_ HQ]. split; [apply wpa_selector_known|exact HQ].
  - destruct (0 <? rest); [by split|]. by goes_on.
Qed.

Lemma parse_wpa_ok ie : bytes ie -> safe (wpa_parse_wpa_ie_wpa ie) (parsed ie wpa_known).
Proof.
  intros Hb. pose proof (zlen_nonneg ie). unfold wpa_parse_wpa_ie_wpa. cbv zeta. assert (pmkids_inside ie wpa_default) as Hp by by split.
  assert (wpa_known wpa_default) as HQ by (split; [cbn [In]; unfold wpa_default; cbn [d_group_cipher]; tauto|done]).
  destruct (Z.ltb_spec (zlen ie) 8); [by split_and!|].
  eapply safe_bind; [by apply (wpa_header_safe ie wpa_known)|]. intros p Hpars.
  stage wpa_known ltac:(by apply wpa_group_safe).
  stage wpa_known ltac:(by apply suite_list_safe).
  stage wpa_known ltac:(by apply suite_list_safe).
  stage wpa_known ltac:(by apply ie_capabilities_safe).
  by apply finish_ok.
Qed.

(** C9: parsing an RSN or WPA element never reads outside it, whatever its
    bytes and its counts are: the PMKIDs found lie inside the element.  A
    successful parse of an RSN element gives a valid group cipher and a valid
    management group cipher; one of a WPA element gives no PMKIDs, no management
    group cipher, and a group cipher WPA knows or 0 for a selector that is
    unknown, which the caller has to compare with its own. *)
Theorem parse_ie_safe ie : bytes ie ->
  (exists r d, wpa_parse_wpa_ie_rsn ie = Ok (r, d) /\ r <= 0 /\ pmkids_inside ie d /\ (r = 0 -> ciphers_valid d)) /\
  (exists r d, wpa_parse_wpa_ie_wpa ie = Ok (r, d) /\ r <= 0 /\ pmkids_inside ie d /\ (r = 0 -> wpa_known d)).
Proof.
  intros Hb. split.
  - pose proof (parse_rsn_ok ie Hb) as H. apply safe_exists in H as ([r d] & E & H1 & H2 & H3). by exists r, d.
  - pose proof (parse_wpa_ok ie Hb) as H. apply safe_exists in H as ([r d] & E & H1 & H2 & H3). by exists r, d.
Qed.

(** ** The elements as byte strings: what the writers write *)

(** the suites of a mask, in the order of the table *)
Definition suites_of (table : list (Z * Z)) (mask : Z) : list Z := (filter (fun e => any_of mask e.1 = true) table).*2.
Definition suite_bytes (suites : list Z) : list Z := concat (map be32 suites).

(** [b] is [b0] with [l] written from [start] on *)
Definition wrote (b0 : list Z) (start : Z) (l b : list Z) : Prop :=
  exists p x q, b0 = p ++ x ++ q /\ zlen p = start /\ zlen x = zlen l /\ b = p ++ l ++ q.

Lemma wr_blit (b : list Z) i x : wr b i x = blit b i [x].
Proof.
  unfold wr, blit. change (zlen [x]) with 1. replace ((0 <=? i) && (i + 1 <=? zlen b)) with ((0 <=? i) && (i <? zlen b)) by lia.
  destruct (_ && _) eqn:E; [|done]. f_equal. unfold zlen in E. rewrite insert_take_drop by lia.
  by replace (Z.to_nat (i + 1)) with (S (Z.to_nat i)) by lia.
Qed.

Lemma split_at (q : list Z) n : 0 <= n <= zlen q -> exists q1 q2, q = q1 ++ q2 /\ zlen q1 = n.
Proof.
  unfold zlen. intros H. exists (take (Z.to_nat n) q), (drop (Z.to_nat n) q). rewrite take_drop, length_take. split; [done|lia].
Qed.

Section Wrote.
Context (b0 : list Z) (start : Z).
Implicit Types (l b h r y : list Z).

Lemma wrote_nothing : 0 <= start <= zlen b0 -> wrote b0 start [] b0.
Proof. intros H. destruct (split_at b0 start H) as (p & q & -> & Hp). by exists p, [], q. Qed.

Lemma wrote_skip l b n : wrote b0 start l b -> 0 <= n -> start + zlen l + n <= zlen b0 -> exists h, zlen h = n /\ wrote b0 start (l ++ h) b.
Proof.
  intros (p & x & q & -> & Hp & Hx & ->) Hn Hl. autorewrite with arr in Hl.
  destruct (split_at q n) as (h & q2 & -> & Hh); [lia|]. exists h. split; [done|]. exists p, (x ++ h), q2.
  autorewrite with arr. rewrite <- !app_assoc. split_and!; [done|done|lia|done].
Qed.

Lemma wrote_fill l h r b pos y : wrote b0 start (l ++ h ++ r) b -> zlen y = zlen h -> pos = start + zlen l ->
  exists b', blit b pos y = Ok b' /\ wrote b0 start (l ++ y ++ r) b'.
Proof.
  intros (p & x & q & -> & Hp & Hx & ->) Hy ->. exists (p ++ (l ++ y ++ r) ++ q). split.
  - rewrite <- !app_assoc, !(app_assoc p). apply blit_app; [autorewrite with arr; lia|lia].
  - exists p, x, q. split_and!; [done|done| |done]. autorewrite with arr in *. lia.
Qed.

Lemma wrote_next l b pos y : wrote b0 start l b -> pos = start + zlen l -> pos + zlen y <= zlen b0 ->
  exists b', blit b pos y = Ok b' /\ wrote b0 start (l ++ y) b'.
Proof.
  intros W -> Hl. destruct (wrote_skip l b (zlen y) W) as (h & Hh & W'); [done|lia|].
  rewrite <- (app_nil_r h) in W'. destruct (wrote_fill l h [] b (start + zlen l) y W') as (b' & E & W''); [done..|].
  exists b'. by rewrite app_nil_r in W''.
Qed.

Lemma be32_length v : zlen (be32 v) = 4.
Proof. unfold be32, zlen. by rewrite length_to_be. Qed.

Lemma suite_bytes_length suites : zlen (suite_bytes suites) = 4 * zlen suites.
Proof.
  unfold suite_bytes. rewrite (zlen_concat _ 4); [unfold zlen; by rewrite length_map|].
  apply Forall_map, Forall_true. intros v. apply be32_length.
Qed.

(** a row of selectors *)
Lemma put_suites_ok table mask pos n l b : wrote b0 start l b -> pos = start + zlen l ->
  pos + 4 * zlen (suites_of table mask) <= zlen b0 ->
  exists b', put_suites table mask pos n b = Ok (b', n + zlen (suites_of table mask)) /\
             wrote b0 start (l ++ suite_bytes (suites_of table mask)) b'.
Proof.
  revert pos n l b. induction table as [|[bit suite] table IH]; intros pos n l b W -> Hl.
  { exists b. rewrite app_nil_r. by rewrite Z.add_0_r. }
  cbn [put_suites]. unfold suites_of in *. rewrite filter_cons in *. cbn [fst] in *. destruct (any_of mask bit) eqn:Ea; cbn [decide] in *.
  - rewrite decide_True in * by done. rewrite fmap_cons in *. cbn [snd] in *. autorewrite with arr in Hl.
    unfold RSN_SELECTOR_PUT. pose proof (zlen_nonneg (filter (fun e => any_of mask e.1 = true) table).*2).
    destruct (wrote_next l b _ (be32 suite) W eq_refl) as (b1 & -> & W1); [rewrite be32_length; lia|]. rewrite bind_ok.
    destruct (IH (start + zlen l + 4) (n + 1) _ b1 W1) as (b2 & -> & W2); [autorewrite with arr; rewrite be32_length; lia|lia|].
    exists b2. autorewrite with arr. split; [do 2 f_equal; lia|]. by rewrite <- app_assoc in W2.
  - rewrite decide_False in * by done. by apply IH.
Qed.

(** the count and the selectors behind it *)
Lemma counted_suites_ok table mask pos l b : wrote b0 start l b -> pos = start + zlen l ->
  pos + 2 + 4 * zlen (suites_of table mask) <= zlen b0 ->
  exists b1 b2, put_suites table mask (pos + 2) 0 b = Ok (b1, zlen (suites_of table mask)) /\
    WPA_PUT_LE16 b1 pos (zlen (suites_of table mask)) = Ok b2 /\
    wrote b0 start (l ++ le16 (zlen (suites_of table mask)) ++ suite_bytes (suites_of table mask)) b2.
Proof.
  intros W -> Hl. pose proof (zlen_nonneg (suites_of table mask)).
  destruct (wrote_skip l b 2 W) as (h & Hh & W1); [lia..|].
  destruct (put_suites_ok table mask (start + zlen l + 2) 0 _ _ W1) as (b1 & E1 & W2); [autorewrite with arr; lia|lia|].
  rewrite <- app_assoc in W2. destruct (wrote_fill _ _ _ _ (start + zlen l) (le16 (zlen (suites_of table mask))) W2) as (b2 & E2 & W3);
    [by rewrite Hh; apply zlen_to_le|done|].
  by exists b1, b2.
Qed.
End Wrote.

Definition mgmt_group_written (conf : ie_config) : bool :=
  negb (c_ieee80211w conf =? NO_MGMT_FRAME_PROTECTION) && negb (c_group_mgmt_cipher conf =? WPA_CIPHER_AES_128_CMAC).

Definition counted (table : list (Z * Z)) (mask : Z) : list Z :=
  le16 (zlen (suites_of table mask)) ++ suite_bytes (suites_of table mask).

Definition rsn_ie_head (conf : ie_config) : list Z :=
  le16 RSN_VERSION ++ be32 (wpa_cipher_to_suite WPA_PROTO_RSN (c_wpa_group conf)) ++
  counted rsn_cipher_table (c_rsn_pairwise conf) ++ counted rsn_key_mgmt_table (c_wpa_key_mgmt conf) ++ le16 (rsn_capabilities conf).

Definition rsn_ie_tail (conf : ie_config) (pmkid : option (list Z)) : list Z :=
  match pmkid with Some id => le16 1 ++ id | None => [] end ++
  (if mgmt_group_written conf
   then match pmkid with Some _ => [] | None => le16 0 end ++ be32 (default 0 (mgmt_group_suite (c_group_mgmt_cipher conf))) else []).

Definition rsn_ie_body (conf : ie_config) (pmkid : option (list Z)) : list Z := rsn_ie_head conf ++ rsn_ie_tail conf pmkid.
Definition rsn_ie (conf : ie_config) (pmkid : option (list Z)) : list Z :=
  WLAN_EID_RSN :: zlen (rsn_ie_body conf pmkid) :: rsn_ie_body conf pmkid.

Definition wpa_ie_body (conf : ie_config) : list Z :=
  be32 WPA_OUI_TYPE ++ le16 WPA_VERSION ++ be32 (wpa_cipher_to_suite WPA_PROTO_WPA (c_wpa_group conf)) ++
  counted wpa_cipher_table (c_wpa_pairwise conf) ++ counted wpa_key_mgmt_table (c_wpa_key_mgmt conf).
Definition wpa_ie (conf : ie_config) : list Z := WLAN_EID_VENDOR_SPECIFIC :: zlen (wpa_ie_body conf) :: wpa_ie_body conf.

(** the masks of the suites that can be announced *)
Definition table_mask (table : list (Z * Z)) : Z := foldr (fun e m => Z.lor e.1 m) 0 table.

(** what the configuration must have for an RSN and for a WPA element *)
Definition rsn_configured (conf : ie_config) : Prop :=
  wpa_cipher_valid_group (c_wpa_group conf) = true /\
  Z.land (c_rsn_pairwise conf) (table_mask rsn_cipher_table) <> 0 /\
  Z.land (c_wpa_key_mgmt conf) (table_mask rsn_key_mgmt_table) <> 0 /\
  (c_ieee80211w conf <> NO_MGMT_FRAME_PROTECTION -> wpa_cipher_valid_mgmt_group (c_group_mgmt_cipher conf) = true).

Definition wpa_configured (conf : ie_config) : Prop :=
  (c_wpa_group conf = WPA_CIPHER_TKIP \/ c_wpa_group conf = WPA_CIPHER_CCMP) /\
  Z.land (c_wpa_pairwise conf) (table_mask wpa_cipher_table) <> 0 /\
  Z.land (c_wpa_key_mgmt conf) (table_mask wpa_key_mgmt_table) <> 0.

Lemma le16_length v : zlen (le16 v) = 2.
Proof. apply zlen_to_le. Qed.

Lemma suites_of_length table mask : 0 <= zlen (suites_of table mask) <= zlen table.
Proof. unfold suites_of, zlen. rewrite length_fmap. pose proof (length_filter (fun e : Z * Z => any_of mask e.1 = true) table). lia. Qed.

Lemma counted_length table mask : zlen (counted table mask) = 2 + 4 * zlen (suites_of table mask).
Proof. unfold counted. by rewrite zlen_app, le16_length, suite_bytes_length. Qed.

Lemma no_suite table mask : zlen (suites_of table mask) = 0 -> Z.land mask (table_mask table) = 0.
Proof.
  unfold suites_of. induction table as [|[bit suite] table IH]; [by rewrite Z.land_0_r|].
  rewrite filter_cons. cbn [fst table_mask foldr]. unfold any_of in *. destruct (Z.eqb_spec (Z.land mask bit) 0) as [E|]; cbn [negb].
  - rewrite decide_False by done. intros Hl. rewrite Z.land_lor_distr_r, E, Z.lor_0_l. by apply IH.
  - rewrite decide_True, fmap_cons by done. autorewrite with arr. pose proof (zlen_nonneg (filter (fun e => negb (Z.land mask e.1 =? 0) = true) table).*2).
    lia.
Qed.

Lemma some_suite table mask : Z.land mask (table_mask table) <> 0 -> (zlen (suites_of table mask) =? 0) = false.
Proof. intros H. apply Z.eqb_neq. intros E. by apply H, no_suite. Qed.

(** one write of a writer: the next bytes of the element *)
Ltac put_next W :=
  match goal with |- context [blit ?b ?pos ?y] =>
    let b' := fresh "b" in let E := fresh "E" in let W' := fresh "W" in
    destruct (wrote_next _ _ _ b pos y W) as (b' & E & W');
    [autorewrite with arr; rewrite ?be32_length, ?le16_length, ?counted_length; lia
    |autorewrite with arr; rewrite ?be32_length, ?le16_length, ?counted_length; lia
    |rewrite E, bind_ok; clear E; clear W; rename W' into W] end.

Ltac put_skip W n :=
  let h := fresh "h" in let Hh := fresh "Hh" in let W' := fresh "W" in
  destruct (wrote_skip _ _ _ _ n W) as (h & Hh & W'); [lia|autorewrite with arr; lia|]; clear W; rename W' into W.

Lemma group_suite_rsn g : wpa_cipher_valid_group g = true -> wpa_cipher_to_suite WPA_PROTO_RSN g <> 0 /\
  0 <= wpa_cipher_to_suite WPA_PROTO_RSN g < 2 ^ 32 /\ rsn_selector_to_bitfield (wpa_cipher_to_suite WPA_PROTO_RSN g) = g.
Proof.
  unfold wpa_cipher_valid_group, wpa_cipher_valid_pairwise. intros H.
  repeat (apply orb_prop in H as [H|H]); apply Z.eqb_eq in H as ->; vm_compute; split_and!; congruence.
Qed.

Lemma mgmt_suite_ok g : wpa_cipher_valid_mgmt_group g = true -> exists s, mgmt_group_suite g = Some s /\ 0 <= s < 2 ^ 32 /\ rsn_selector_to_bitfield s = g.
Proof.
  unfold wpa_cipher_valid_mgmt_group. intros H.
  repeat (apply orb_prop in H as [H|H]); apply Z.eqb_eq in H as ->; eexists; split; try reflexivity; vm_compute; split_and!; congruence.
Qed.

(** *** The writers write the elements *)

Lemma rsn_ie_tail_length conf pmkid : (forall id, pmkid = Some id -> zlen id = PMKID_LEN) ->
  zlen (rsn_ie_tail conf pmkid) = (if pmkid is Some _ then 18 else 0) + (if mgmt_group_written conf then (if pmkid is Some _ then 4 else 6) else 0).
Proof.
  intros Hid. unfold rsn_ie_tail. rewrite zlen_app. destruct pmkid as [id|]; destruct (mgmt_group_written conf); rewrite ?zlen_app, ?le16_length, ?be32_length;
    rewrite ?(Hid id eq_refl); done.
Qed.

Lemma rsn_ie_head_length conf : zlen (rsn_ie_head conf) =
  12 + 4 * zlen (suites_of rsn_cipher_table (c_rsn_pairwise conf)) + 4 * zlen (suites_of rsn_key_mgmt_table (c_wpa_key_mgmt conf)).
Proof. unfold rsn_ie_head. rewrite !zlen_app, !counted_length, !le16_length, be32_length. lia. Qed.

Lemma rsn_ie_length conf pmkid : zlen (rsn_ie conf pmkid) = 2 + zlen (rsn_ie_head conf) + zlen (rsn_ie_tail conf pmkid).
Proof. unfold rsn_ie, rsn_ie_body. autorewrite with arr. lia. Qed.

(** an RSN element takes at most 84 bytes, 68 without a PMKID *)
Lemma rsn_ie_bound conf pmkid : (forall id, pmkid = Some id -> zlen id = PMKID_LEN) -> zlen (rsn_ie conf pmkid) <= (if pmkid is Some _ then 84 else 68).
Proof.
  intros Hid. rewrite rsn_ie_length, rsn_ie_head_length, rsn_ie_tail_length by done.
  pose proof (suites_of_length rsn_cipher_table (c_rsn_pairwise conf)) as H1. pose proof (suites_of_length rsn_key_mgmt_table (c_wpa_key_mgmt conf)) as H2.
  change (zlen rsn_cipher_table) with 6 in H1. change (zlen rsn_key_mgmt_table) with 6 in H2. destruct pmkid, (mgmt_group_written conf); lia.
Qed.

Lemma wpa_ie_length conf : zlen (wpa_ie conf) =
  16 + 4 * zlen (suites_of wpa_cipher_table (c_wpa_pairwise conf)) + 4 * zlen (suites_of wpa_key_mgmt_table (c_wpa_key_mgmt conf)).
Proof. unfold wpa_ie, wpa_ie_body. autorewrite with arr. rewrite !counted_length, !le16_length, !be32_length. lia. Qed.

Lemma wpa_ie_bound conf : zlen (wpa_ie conf) <= 36.
Proof.
  rewrite wpa_ie_length. pose proof (suites_of_length wpa_cipher_table (c_wpa_pairwise conf)) as H1.
  pose proof (suites_of_length wpa_key_mgmt_table (c_wpa_key_mgmt conf)) as H2. change (zlen wpa_cipher_table) with 3 in H1. change (zlen wpa_key_mgmt_table) with 2 in H2. lia.
Qed.

(** the length byte is filled in last *)
Lemma wrote_length b0 start id (h : list Z) body b n : wrote b0 start (id :: h ++ body) b -> zlen h = 1 -> n = start + 2 + zlen body -> zlen body < 256 ->
  exists b', wr b (start + 1) (u8 (n - start - 2)) = Ok b' /\ wrote b0 start (id :: zlen body :: body) b'.
Proof.
  intros W Hh -> Hb. rewrite wr_blit. replace (start + 2 + zlen body - start - 2) with (zlen body) by lia.
  rewrite u8_small by (pose proof (zlen_nonneg body); lia).
  destruct (wrote_fill _ _ [id] h body b (start + 1) [zlen body] W) as (b' & E & W'); [by rewrite Hh|done|by exists b'].
Qed.

Ltac length_byte W :=
  match type of W with wrote ?b0 ?start (?id :: ?h ++ ?body) _ => idtac | _ => cbn [app] in W; rewrite <- ?app_assoc in W end;
  match goal with |- context [wr _ _ (u8 (?n - ?start - 2))] =>
    let b' := fresh "b" in let E := fresh "E" in let W' := fresh "W" in
    destruct (wrote_length _ _ _ _ _ _ n W) as (b' & E & W');
    [done|autorewrite with arr; rewrite ?be32_length, ?le16_length; unfold RSN_SELECTOR_LEN; lia|autorewrite with arr; rewrite ?be32_length, ?le16_length; lia|];
    rewrite E, bind_ok; exists b'; clear E; cbn [from_option id app] in *; rewrite ?app_nil_r; rewrite <- ?app_assoc; rewrite <- ?app_assoc in W';
    split; [do 2 f_equal; autorewrite with arr; rewrite ?be32_length, ?le16_length; unfold RSN_SELECTOR_LEN; lia|exact W'] end.

Lemma write_rsn_tail_ok conf b0 start len pmkid h b pos : rsn_configured conf -> (forall id, pmkid = Some id -> zlen id = PMKID_LEN) ->
  wrote b0 start (WLAN_EID_RSN :: h ++ rsn_ie_head conf) b -> zlen h = 1 -> pos = start + 2 + zlen (rsn_ie_head conf) ->
  zlen (rsn_ie conf pmkid) + 2 <= len -> start + len <= zlen b0 ->
  exists b', write_rsn_tail conf b start len pos pmkid = Ok (zlen (rsn_ie conf pmkid), b') /\ wrote b0 start (rsn_ie conf pmkid) b'.
Proof.
  intros (_ & _ & _ & Hm) Hid W Hh -> Hlen Hroom. pose proof (rsn_ie_bound conf pmkid Hid) as Hbound.
  assert (zlen (rsn_ie conf pmkid) <= 84) as Hb84 by (destruct pmkid; lia). clear Hbound.
  pose proof (zlen_nonneg (rsn_ie_head conf)). unfold write_rsn_tail, WPA_PUT_LE16, RSN_SELECTOR_PUT. fold (mgmt_group_written conf).
  pose proof (rsn_ie_length conf pmkid) as Hl. pose proof (rsn_ie_tail_length conf pmkid Hid) as Ht.
  assert (zlen (WLAN_EID_RSN :: h ++ rsn_ie_head conf) = 2 + zlen (rsn_ie_head conf)) as Hhead by (autorewrite with arr; lia).
  unfold rsn_ie, rsn_ie_body in *. unfold rsn_ie_tail in *.
  assert (exists s, mgmt_group_written conf = true -> mgmt_group_suite (c_group_mgmt_cipher conf) = Some s) as [s Es].
  { unfold mgmt_group_written. destruct (Z.eqb_spec (c_ieee80211w conf) NO_MGMT_FRAME_PROTECTION) as [|Hne]; [by exists 0|].
    destruct (mgmt_suite_ok _ (Hm Hne)) as (s & Hs & _). by exists s. }
  destruct pmkid as [id|].
  - specialize (Hid id eq_refl). unfold PMKID_LEN in *.
    destruct (Z.ltb_spec (start + len) (start + 2 + zlen (rsn_ie_head conf) + 2 + 16)); [destruct (mgmt_group_written conf); lia|].
    put_next W. put_next W. rewrite bind_ok. cbv beta iota. destruct (mgmt_group_written conf).
    + destruct (Z.ltb_spec (start + len) (start + 2 + zlen (rsn_ie_head conf) + 2 + 16 + 2 + 4)); [lia|].
      rewrite bind_ok. cbv beta iota. rewrite Es by done. put_next W. length_byte W.
    + length_byte W.
  - rewrite bind_ok. cbv beta iota. destruct (mgmt_group_written conf).
    + destruct (Z.ltb_spec (start + len) (start + 2 + zlen (rsn_ie_head conf) + 2 + 4)); [lia|].
      put_next W. rewrite bind_ok. cbv beta iota. rewrite Es by done. put_next W. length_byte W.
    + length_byte W.
Qed.

Lemma write_rsn_ie_ok conf b0 start len pmkid : rsn_configured conf -> (forall id, pmkid = Some id -> zlen id = PMKID_LEN) ->
  0 <= start -> zlen (rsn_ie conf pmkid) + 2 <= len -> start + len <= zlen b0 ->
  exists b, wpa_write_rsn_ie conf b0 start len pmkid = Ok (zlen (rsn_ie conf pmkid), b) /\ wrote b0 start (rsn_ie conf pmkid) b.
Proof.
  intros Hc Hid Hs Hlen Hroom. pose proof Hc as (Hg & Hp & Hk & _). pose proof (rsn_ie_length conf pmkid) as Hl.
  pose proof (rsn_ie_tail_length conf pmkid Hid) as Ht. pose proof (rsn_ie_head_length conf) as Hh.
  pose proof (suites_of_length rsn_cipher_table (c_rsn_pairwise conf)) as H1. pose proof (suites_of_length rsn_key_mgmt_table (c_wpa_key_mgmt conf)) as H2.
  assert (0 <= zlen (rsn_ie_tail conf pmkid)) by apply zlen_nonneg. clear Ht.
  unfold wpa_write_rsn_ie, rsn_cipher_put_suites. rewrite wr_blit. cbv zeta. unfold WPA_PUT_LE16, RSN_SELECTOR_PUT, RSN_SELECTOR_LEN.
  pose proof (wrote_nothing b0 start ltac:(lia)) as W. put_next W.
  destruct (wrote_skip _ _ _ _ 1 W) as (h & Hh1 & W'); [lia|autorewrite with arr; lia|]. clear W. rename W' into W. put_next W.
  destruct (group_suite_rsn _ Hg) as (Hg0 & _). replace (wpa_cipher_to_suite WPA_PROTO_RSN (c_wpa_group conf) =? 0) with false by lia.
  put_next W.
  destruct (counted_suites_ok _ _ rsn_cipher_table (c_rsn_pairwise conf) (start + 4 + 4) _ _ W) as (b4 & b5 & E4 & E5 & W5);
    [autorewrite with arr; rewrite be32_length, le16_length; lia|lia|].
  rewrite E4, bind_ok. cbv beta iota. rewrite (some_suite _ _ Hp). unfold WPA_PUT_LE16 in E5. rewrite E5, bind_ok. clear E4 E5 W. fold (counted rsn_cipher_table (c_rsn_pairwise conf)) in W5.
  destruct (counted_suites_ok _ _ rsn_key_mgmt_table (c_wpa_key_mgmt conf) (start + 4 + 4 + 2 + zlen (suites_of rsn_cipher_table (c_rsn_pairwise conf)) * 4) _ _ W5)
    as (b6 & b7 & E6 & E7 & W7); [autorewrite with arr; rewrite counted_length, be32_length, le16_length; lia|lia|].
  rewrite E6, bind_ok. cbv beta iota. rewrite (some_suite _ _ Hk). unfold WPA_PUT_LE16 in E7. rewrite E7, bind_ok. clear E6 E7 W5. fold (counted rsn_key_mgmt_table (c_wpa_key_mgmt conf)) in W7.
  put_next W7. apply (write_rsn_tail_ok conf b0 start len pmkid h _ _ Hc Hid); [|done|lia|lia|lia].
  cbn [app] in W7. by rewrite <- !app_assoc in W7.
Qed.

Lemma group_suite_wpa g : g = WPA_CIPHER_TKIP \/ g = WPA_CIPHER_CCMP -> wpa_cipher_to_suite WPA_PROTO_WPA g <> 0 /\
  0 <= wpa_cipher_to_suite WPA_PROTO_WPA g < 2 ^ 32 /\ wpa_selector_to_bitfield (wpa_cipher_to_suite WPA_PROTO_WPA g) = g.
Proof. intros [-> | ->]; vm_compute; split_and!; congruence. Qed.

Lemma write_wpa_ie_ok conf b0 start : wpa_configured conf -> 0 <= start -> start + zlen (wpa_ie conf) <= zlen b0 ->
  exists b, wpa_write_wpa_ie conf b0 start = Ok (zlen (wpa_ie conf), b) /\ wrote b0 start (wpa_ie conf) b.
Proof.
  intros (Hg & Hp & Hk) Hs Hroom. pose proof (wpa_ie_length conf) as Hl. pose proof (wpa_ie_bound conf).
  pose proof (suites_of_length wpa_cipher_table (c_wpa_pairwise conf)) as H1. pose proof (suites_of_length wpa_key_mgmt_table (c_wpa_key_mgmt conf)) as H2.
  unfold wpa_write_wpa_ie, wpa_cipher_put_suites. rewrite wr_blit. cbv zeta. unfold WPA_PUT_LE16, RSN_SELECTOR_PUT, WPA_SELECTOR_LEN.
  pose proof (wrote_nothing b0 start ltac:(lia)) as W. put_next W.
  destruct (wrote_skip _ _ _ _ 1 W) as (h & Hh1 & W'); [lia|autorewrite with arr; lia|]. clear W. rename W' into W. put_next W. put_next W.
  destruct (group_suite_wpa _ Hg) as (Hg0 & _). replace (wpa_cipher_to_suite WPA_PROTO_WPA (c_wpa_group conf) =? 0) with false by lia.
  put_next W.
  destruct (counted_suites_ok _ _ wpa_cipher_table (c_wpa_pairwise conf) (start + 8 + 4) _ _ W) as (b4 & b5 & E4 & E5 & W5);
    [autorewrite with arr; rewrite !be32_length, le16_length; lia|lia|].
  rewrite E4, bind_ok. cbv beta iota. rewrite (some_suite _ _ Hp). unfold WPA_PUT_LE16 in E5. rewrite E5, bind_ok. clear E4 E5 W. fold (counted wpa_cipher_table (c_wpa_pairwise conf)) in W5.
  destruct (counted_suites_ok _ _ wpa_key_mgmt_table (c_wpa_key_mgmt conf) (start + 8 + 4 + 2 + zlen (suites_of wpa_cipher_table (c_wpa_pairwise conf)) * 4) _ _ W5)
    as (b6 & b7 & E6 & E7 & W7); [autorewrite with arr; rewrite counted_length, !be32_length, le16_length; lia|lia|].
  rewrite E6, bind_ok. cbv beta iota. rewrite (some_suite _ _ Hk). unfold WPA_PUT_LE16 in E7. rewrite E7, bind_ok. clear E6 E7 W5. fold (counted wpa_key_mgmt_table (c_wpa_key_mgmt conf)) in W7.
  cbn [app] in W7. rewrite <- !app_assoc in W7. cbn [app] in W7.
  assert (zlen (wpa_ie_body conf) = 14 + 4 * zlen (suites_of wpa_cipher_table (c_wpa_pairwise conf)) + 4 * zlen (suites_of wpa_key_mgmt_table (c_wpa_key_mgmt conf))) as Hb
    by (unfold wpa_ie in Hl; autorewrite with arr in Hl; lia).
  match goal with |- context [wr _ _ (u8 (?n - start - 2))] =>
    destruct (wrote_length b0 start WLAN_EID_VENDOR_SPECIFIC h (wpa_ie_body conf) b7 n W7) as (b' & -> & W'); [done|lia..|] end.
  rewrite bind_ok. exists b'. split; [do 2 f_equal; lia|exact W'].
Qed.

(** *** What the parsers read back *)

Lemma get_le16_at l v r : 0 <= v < 2 ^ 16 -> WPA_GET_LE16 (l ++ le16 v ++ r) (zlen l) = Ok v.
Proof.
  intros Hv. unfold WPA_GET_LE16, le16. rewrite (rd_app_r l _ (zlen l)), (rd_app_r l _ (zlen l + 1)) by lia.
  rewrite Z.sub_diag, Z.add_simpl_l.
  cbn [to_le app]. rewrite rd_0, bind_ok, rd_1, bind_ok. f_equal. rewrite Z.shiftl_mul_pow2, lor_disjoint by (pose proof (Z.mod_pos_bound v 256); lia).
  rewrite (Z.mod_small (v / 256)) by (split; [apply Z.div_pos; lia|apply Z.div_lt_upper_bound; lia]). pose proof (Z.div_mod v 256). lia.
Qed.

(** the bits that [selectors] collects, and the suites of a mask *)
Definition bits_of (bit : Z -> Z) (suites : list Z) (acc : Z) : Z := fold_left (fun a v => Z.lor a (bit v)) suites acc.

Lemma selectors_at bit l suites r acc : Forall (fun v => 0 <= v < 2 ^ 32) suites ->
  selectors bit (l ++ suite_bytes suites ++ r) (length suites) (zlen l) acc = Ok (bits_of bit suites acc).
Proof.
  intros Hs. revert l acc. induction Hs as [|v suites Hv Hs IH]; intros l acc; [done|].
  cbn [length selectors suite_bytes map concat]. rewrite <- app_assoc, get_be32_at, bind_ok by done.
  rewrite (app_assoc l). replace (zlen l + 4) with (zlen (l ++ be32 v)) by (rewrite zlen_app, be32_length; lia). apply IH.
Qed.

(** a table whose rows are single bits and their selectors *)
Definition table_ok (bit : Z -> Z) (table : list (Z * Z)) : Prop :=
  Forall (fun e => (exists k, 0 <= k /\ e.1 = 2 ^ k) /\ bit e.2 = e.1 /\ 0 <= e.2 < 2 ^ 32) table.

Lemma land_bit mask k : 0 <= k -> Z.land mask (2 ^ k) = if any_of mask (2 ^ k) then 2 ^ k else 0.
Proof.
  intros Hk. unfold any_of. destruct (Z.eqb_spec (Z.land mask (2 ^ k)) 0) as [E|E]; cbn [negb]; [done|].
  apply Z.bits_inj'. intros n Hn. rewrite Z.land_spec, Z.pow2_bits_eqb by done.
  destruct (Z.eqb_spec k n) as [->|]; [|by rewrite andb_false_r]. rewrite andb_true_r. apply not_false_is_true. intros Hf. apply E.
  apply Z.bits_inj'. intros m Hm. rewrite Z.land_spec, Z.pow2_bits_eqb, Z.bits_0 by done.
  destruct (Z.eqb_spec n m) as [<-|]; [by rewrite Hf|apply andb_false_r].
Qed.

Lemma bits_of_suites bit table mask acc : table_ok bit table ->
  bits_of bit (suites_of table mask) acc = Z.lor acc (Z.land mask (table_mask table)).
Proof.
  intros Ht. revert acc. unfold bits_of, suites_of. induction Ht as [|[b s] table [(k & Hk & Hbk) (Hb & _)] _ IH]; intros acc.
  { cbn. by rewrite Z.land_0_r, Z.lor_0_r. }
  cbn [fst snd] in *. rewrite filter_cons. cbn [fst table_mask foldr]. fold (table_mask table). rewrite Z.land_lor_distr_r. subst b.
  rewrite (land_bit mask k Hk). destruct (any_of mask (2 ^ k)).
  - rewrite decide_True, fmap_cons by done. cbn [snd fold_left]. by rewrite IH, Hb, Z.lor_assoc.
  - rewrite decide_False by done. by rewrite IH, Z.lor_0_l.
Qed.

Lemma suites_of_words bit table mask : table_ok bit table -> Forall (fun v => 0 <= v < 2 ^ 32) (suites_of table mask).
Proof.
  intros Ht. apply Forall_forall. intros v Hv. unfold suites_of in Hv. apply list_elem_of_fmap in Hv as (e & -> & [_ He]%list_elem_of_filter).
  unfold table_ok in Ht. rewrite Forall_forall in Ht. by destruct (Ht e He) as (_ & _ & ?).
Qed.

(** the whole list, count included *)
Lemma suite_list_at bit store botch short table mask l r d : table_ok bit table -> zlen table < 2 ^ 14 -> Z.land mask (table_mask table) <> 0 ->
  suite_list bit store botch short (l ++ counted table mask ++ r) (zlen l) (zlen (counted table mask ++ r)) d =
  Ok (At (zlen (l ++ counted table mask)) (zlen r) (store (Z.land mask (table_mask table)) (store 0 d))).
Proof.
  intros Ht Hn Hm. pose proof (suites_of_length table mask). pose proof (some_suite _ _ Hm). pose proof (zlen_nonneg r).
  unfold suite_list. rewrite !zlen_app, !counted_length. replace (2 <=? _) with true by lia. cbv zeta. unfold counted.
  rewrite <- app_assoc, get_le16_at, bind_ok by lia. rewrite H0. cbn [orb].
  replace (2 + 4 * zlen (suites_of table mask) + zlen r - 2) with (zlen r + zlen (suites_of table mask) * 4) by lia. rewrite Z.div_add by lia.
  replace (zlen r / 4 + _ <? _) with false by (pose proof (Z.div_pos (zlen r) 4); lia).
  rewrite (app_assoc l). replace (zlen l + 2) with (zlen (l ++ le16 (zlen (suites_of table mask)))) at 1 by (rewrite zlen_app, le16_length; lia).
  replace (Z.to_nat (zlen (suites_of table mask))) with (length (suites_of table mask)) by (unfold zlen; lia).
  rewrite (selectors_at _ _ _ _ _ (suites_of_words bit table mask Ht)), bind_ok. do 2 f_equal; [lia..|].
  by rewrite (bits_of_suites bit table mask 0 Ht), Z.lor_0_l.
Qed.

(** *** The stages of the parsers on a written element *)

Ltac check_table := repeat first [apply Forall_nil_2 | apply Forall_cons_2;
  [match goal with |- (exists k, _ /\ ?b = _) /\ _ => split; [exists (Z.log2 b); vm_compute; split; congruence|vm_compute; split_and!; congruence] end|]].

Lemma rsn_cipher_table_ok : table_ok rsn_selector_to_bitfield rsn_cipher_table.
Proof. check_table. Qed.
Lemma rsn_key_mgmt_table_ok : table_ok rsn_key_mgmt_to_bitfield rsn_key_mgmt_table.
Proof. check_table. Qed.
Lemma wpa_cipher_table_ok : table_ok wpa_selector_to_bitfield wpa_cipher_table.
Proof. check_table. Qed.
Lemma wpa_key_mgmt_table_ok : table_ok wpa_key_mgmt_to_bitfield wpa_key_mgmt_table.
Proof. check_table. Qed.

(** the parser at the end of [l] *)
Definition at_end (ie l : list Z) (d : wpa_ie_data) : parse := At (zlen l) (zlen ie - zlen l) d.

Section OnElement.
Context (ie : list Z).
Implicit Types (l r : list Z) (d : wpa_ie_data).

Lemma suite_list_on l r bit store botch short table mask d : table_ok bit table -> zlen table < 2 ^ 14 -> Z.land mask (table_mask table) <> 0 ->
  ie = l ++ counted table mask ++ r ->
  suite_list bit store botch short ie (zlen l) (zlen ie - zlen l) d =
  Ok (at_end ie (l ++ counted table mask) (store (Z.land mask (table_mask table)) (store 0 d))).
Proof.
  intros Ht Hn Hm E. unfold at_end. replace (zlen ie - zlen l) with (zlen (counted table mask ++ r)) by (rewrite E, !zlen_app; lia).
  rewrite E at 1. rewrite suite_list_at by done. do 2 f_equal. rewrite E, !zlen_app. lia.
Qed.

Lemma rsn_group_on l r g d : wpa_cipher_valid_group g = true -> ie = l ++ be32 (wpa_cipher_to_suite WPA_PROTO_RSN g) ++ r ->
  rsn_group ie (zlen l) (zlen ie - zlen l) d = Ok (at_end ie (l ++ be32 (wpa_cipher_to_suite WPA_PROTO_RSN g)) (set_group g d)).
Proof.
  intros Hg E. destruct (group_suite_rsn g Hg) as (_ & Hs & Hb). pose proof (zlen_nonneg r). unfold rsn_group, at_end, RSN_SELECTOR_LEN.
  assert (zlen ie = zlen l + 4 + zlen r) as Hl by (rewrite E, !zlen_app, be32_length; lia). replace (4 <=? _) with true by lia.
  rewrite E at 1. rewrite get_be32_at, bind_ok by done. cbv zeta. rewrite Hb. cbn [set_group d_group_cipher]. rewrite Hg. cbn [negb].
  rewrite zlen_app, be32_length. do 2 f_equal. lia.
Qed.

Lemma wpa_group_on l r g d : g = WPA_CIPHER_TKIP \/ g = WPA_CIPHER_CCMP -> ie = l ++ be32 (wpa_cipher_to_suite WPA_PROTO_WPA g) ++ r ->
  wpa_group ie (zlen l) (zlen ie - zlen l) d = Ok (at_end ie (l ++ be32 (wpa_cipher_to_suite WPA_PROTO_WPA g)) (set_group g d)).
Proof.
  intros Hg E. destruct (group_suite_wpa g Hg) as (_ & Hs & Hb). pose proof (zlen_nonneg r). unfold wpa_group, at_end, WPA_SELECTOR_LEN.
  assert (zlen ie = zlen l + 4 + zlen r) as Hl by (rewrite E, !zlen_app, be32_length; lia). replace (4 <=? _) with true by lia.
  rewrite E at 1. rewrite get_be32_at, bind_ok by done. rewrite Hb, zlen_app, be32_length. do 2 f_equal. lia.
Qed.

Lemma capabilities_on l r c d : 0 <= c < 2 ^ 16 -> ie = l ++ le16 c ++ r ->
  ie_capabilities ie (zlen l) (zlen ie - zlen l) d = Ok (at_end ie (l ++ le16 c) (set_capabilities c d)).
Proof.
  intros Hc E. pose proof (zlen_nonneg r). unfold ie_capabilities, at_end.
  assert (zlen ie = zlen l + 2 + zlen r) as Hl by (rewrite E, !zlen_app, le16_length; lia). replace (2 <=? _) with true by lia.
  rewrite E at 1. rewrite get_le16_at, bind_ok by done. rewrite zlen_app, le16_length. do 2 f_equal. lia.
Qed.

Lemma pmkids_on l r ids d : zlen ids < 2 ^ 16 -> Forall (fun id => zlen id = PMKID_LEN) ids -> ie = l ++ le16 (zlen ids) ++ concat ids ++ r ->
  rsn_pmkids ie (zlen l) (zlen ie - zlen l) d =
  Ok (at_end ie (l ++ le16 (zlen ids) ++ concat ids) (set_pmkids (zlen ids) (Some (zlen l + 2)) d)).
Proof.
  intros Hn Hids E. pose proof (zlen_nonneg r). pose proof (zlen_nonneg ids). unfold rsn_pmkids, at_end.
  pose proof (zlen_concat _ _ Hids) as Hc. unfold PMKID_LEN in *.
  assert (zlen ie = zlen l + 2 + 16 * zlen ids + zlen r) as Hl by (rewrite E, !zlen_app, le16_length, Hc; lia). replace (2 <=? _) with true by lia.
  rewrite E at 1. rewrite get_le16_at, bind_ok by lia. cbv zeta. replace (zlen ie - zlen l - 2) with (zlen r + zlen ids * 16) by lia.
  rewrite Z.div_add by lia. replace (zlen r / 16 + _ <? _) with false by (pose proof (Z.div_pos (zlen r) 16); lia).
  rewrite !zlen_app, le16_length, Hc. do 2 f_equal; lia.
Qed.

Lemma mgmt_group_on l r s d : 0 <= s < 2 ^ 32 -> wpa_cipher_valid_mgmt_group (rsn_selector_to_bitfield s) = true -> ie = l ++ be32 s ++ r ->
  rsn_mgmt_group ie (zlen l) (zlen ie - zlen l) d = Ok (at_end ie (l ++ be32 s) (set_mgmt_group (rsn_selector_to_bitfield s) d)).
Proof.
  intros Hs Hv E. pose proof (zlen_nonneg r). unfold rsn_mgmt_group, at_end, RSN_SELECTOR_LEN.
  assert (zlen ie = zlen l + 4 + zlen r) as Hl by (rewrite E, !zlen_app, be32_length; lia). replace (4 <=? _) with true by lia.
  rewrite E at 1. rewrite get_be32_at, bind_ok by done. cbv zeta. cbn [set_mgmt_group d_mgmt_group_cipher]. rewrite Hv. cbn [negb].
  rewrite zlen_app, be32_length. do 2 f_equal. lia.
Qed.

Lemma rsn_header_on r d : ie = WLAN_EID_RSN :: zlen r :: r -> forall s r', r = le16 RSN_VERSION ++ be32 s ++ r' ->
  rsn_header ie d = Ok (at_end ie (WLAN_EID_RSN :: zlen r :: le16 RSN_VERSION) d).
Proof.
  intros E s r' Er. pose proof (zlen_nonneg r'). assert (zlen ie = zlen r + 2) as Hl by (rewrite E; autorewrite with arr; lia).
  assert (zlen r = 6 + zlen r') as Hr by (rewrite Er, !zlen_app, le16_length, be32_length; lia).
  assert (rd ie 0 = Ok WLAN_EID_RSN) as E0 by by rewrite E. assert (rd ie 1 = Ok (zlen r)) as E1 by by rewrite E.
  assert (WPA_GET_LE16 ie 2 = Ok RSN_VERSION) as E2.
  { rewrite E, Er. by apply (get_le16_at [WLAN_EID_RSN; zlen (le16 RSN_VERSION ++ be32 s ++ r')]). }
  assert (exists v, WPA_GET_BE32 ie 2 = Ok v /\ v <> OSEN_IE_VENDOR_TYPE) as (v & Ev & Hv).
  { assert (forall x, is_byte (x mod 256)) as Hm by (intros x; apply Z.mod_pos_bound; lia).
    exists (((1 * 256 + 0) * 256 + (s / 256 / 256 / 256) mod 256) * 256 + (s / 256 / 256) mod 256). split.
    - rewrite <- lor_bytes by (done || apply Hm). by rewrite E, Er.
    - pose proof (Hm (s / 256 / 256 / 256)). pose proof (Hm (s / 256 / 256)). unfold is_byte in *. change OSEN_IE_VENDOR_TYPE with 1349491218. lia. }
  unfold rsn_header, at_end. cbv zeta. replace (6 <=? zlen ie) with true by lia. rewrite E1, bind_ok. replace ((4 <=? zlen r) && _) with true by lia.
  rewrite Ev, !bind_ok. replace (v =? OSEN_IE_VENDOR_TYPE) with false by lia. rewrite E0, bind_ok, bind_ok, E2, bind_ok.
  replace (negb (WLAN_EID_RSN =? WLAN_EID_RSN) || negb (zlen r =? zlen ie - 2) || negb (RSN_VERSION =? RSN_VERSION)) with false
    by (unfold RSN_VERSION; lia).
  do 2 f_equal.
Qed.

Lemma wpa_header_on r d : ie = WLAN_EID_VENDOR_SPECIFIC :: zlen r :: r -> forall r', r = be32 WPA_OUI_TYPE ++ le16 WPA_VERSION ++ r' ->
  wpa_header ie d = Ok (at_end ie (WLAN_EID_VENDOR_SPECIFIC :: zlen r :: be32 WPA_OUI_TYPE ++ le16 WPA_VERSION) d).
Proof.
  intros E r' Er. assert (zlen ie = zlen r + 2) as Hl by (rewrite E; autorewrite with arr; lia).
  assert (rd ie 0 = Ok WLAN_EID_VENDOR_SPECIFIC) as E0 by by rewrite E. assert (rd ie 1 = Ok (zlen r)) as E1 by by rewrite E.
  assert (WPA_GET_BE32 ie 2 = Ok WPA_OUI_TYPE) as E2.
  { rewrite E, Er. by apply (get_be32_at [WLAN_EID_VENDOR_SPECIFIC; zlen (be32 WPA_OUI_TYPE ++ le16 WPA_VERSION ++ r')]). }
  assert (WPA_GET_LE16 ie 6 = Ok WPA_VERSION) as E3.
  { rewrite E, Er. rewrite app_comm_cons. by apply (get_le16_at (WLAN_EID_VENDOR_SPECIFIC :: zlen (be32 WPA_OUI_TYPE ++ le16 WPA_VERSION ++ r') :: be32 WPA_OUI_TYPE)). }
  unfold wpa_header, at_end. rewrite E0, bind_ok, E1, bind_ok, E2, bind_ok, E3, bind_ok. rewrite !Z.eqb_refl. cbn [negb orb].
  replace (zlen r =? zlen ie - 2) with true by lia. done.
Qed.
End OnElement.

(** *** What is announced is what is read *)

(** the data that a parser of the element of [conf] must give *)
Definition announced_rsn (conf : ie_config) (pmkid : option (list Z)) (d : wpa_ie_data) : Prop :=
  d_proto d = WPA_PROTO_RSN /\ d_group_cipher d = c_wpa_group conf /\
  d_pairwise_cipher d = Z.land (c_rsn_pairwise conf) (table_mask rsn_cipher_table) /\
  d_key_mgmt d = Z.land (c_wpa_key_mgmt conf) (table_mask rsn_key_mgmt_table) /\
  d_capabilities d = rsn_capabilities conf /\
  d_mgmt_group_cipher d = (if c_ieee80211w conf =? NO_MGMT_FRAME_PROTECTION then WPA_CIPHER_AES_128_CMAC else c_group_mgmt_cipher conf) /\
  match pmkid with
  | Some id => d_num_pmkid d = 1 /\ exists off, d_pmkid d = Some off /\ get (rsn_ie conf pmkid) off PMKID_LEN = Ok id
  | None => d_num_pmkid d = 0
  end.

Definition announced_wpa (conf : ie_config) (d : wpa_ie_data) : Prop :=
  d_proto d = WPA_PROTO_WPA /\ d_group_cipher d = c_wpa_group conf /\
  d_pairwise_cipher d = Z.land (c_wpa_pairwise conf) (table_mask wpa_cipher_table) /\
  d_key_mgmt d = Z.land (c_wpa_key_mgmt conf) (table_mask wpa_key_mgmt_table) /\ d_capabilities d = 0 /\ d_num_pmkid d = 0.

Lemma rsn_capabilities_word conf : 0 <= rsn_capabilities conf < 2 ^ 16.
Proof.
  unfold rsn_capabilities, mfp_capabilities. destruct (negb _), (_ =? MGMT_FRAME_PROTECTION_REQUIRED), (c_rsn_preauth conf), (c_peerkey conf), (c_wmm_enabled conf);
    vm_compute; split; congruence.
Qed.

Lemma no_bip_announced mask : any_of (Z.land mask (table_mask rsn_cipher_table)) WPA_CIPHER_AES_128_CMAC = false.
Proof. unfold any_of. rewrite <- Z.land_assoc. by rewrite Z.land_0_r. Qed.

(** nothing is left behind the end of the element *)
Lemma at_end_whole ie d : at_end ie ie d = At (zlen ie) 0 d.
Proof. unfold at_end. by rewrite Z.sub_diag. Qed.

(** up to the capabilities *)
Lemma parse_rsn_head conf ie tail : rsn_configured conf -> ie = WLAN_EID_RSN :: zlen (rsn_ie_head conf ++ tail) :: rsn_ie_head conf ++ tail ->
  wpa_parse_wpa_ie_rsn ie =
  (p ← rsn_pmkids ie (2 + zlen (rsn_ie_head conf)) (zlen tail)
         (mkIeData WPA_PROTO_RSN (Z.land (c_rsn_pairwise conf) (table_mask rsn_cipher_table)) (c_wpa_group conf)
            (Z.land (c_wpa_key_mgmt conf) (table_mask rsn_key_mgmt_table)) (rsn_capabilities conf) 0 None WPA_CIPHER_AES_128_CMAC);
   p ← continue p (rsn_mgmt_group ie); Ok (finish p)).
Proof.
  intros (Hg & Hp & Hk & _) E. pose proof (rsn_ie_head_length conf) as Hhl. pose proof (zlen_nonneg tail).
  pose proof (suites_of_length rsn_cipher_table (c_rsn_pairwise conf)). pose proof (suites_of_length rsn_key_mgmt_table (c_wpa_key_mgmt conf)).
  assert (zlen ie = 2 + zlen (rsn_ie_head conf) + zlen tail) as Hl by (rewrite E; autorewrite with arr; lia).
  unfold wpa_parse_wpa_ie_rsn. cbv zeta. replace (zlen ie =? 0) with false by lia. replace (zlen ie <? 4) with false by lia.
  set (r0 := rsn_ie_head conf ++ tail) in *.
  assert (r0 = le16 RSN_VERSION ++ be32 (wpa_cipher_to_suite WPA_PROTO_RSN (c_wpa_group conf)) ++ counted rsn_cipher_table (c_rsn_pairwise conf) ++
            counted rsn_key_mgmt_table (c_wpa_key_mgmt conf) ++ le16 (rsn_capabilities conf) ++ tail) as Er0
    by (unfold r0, rsn_ie_head; by rewrite <- !app_assoc).
  rewrite (rsn_header_on ie r0 _ E _ _ Er0), bind_ok. cbn [continue at_end]. set (l0 := WLAN_EID_RSN :: zlen r0 :: le16 RSN_VERSION).
  assert (ie = l0 ++ be32 (wpa_cipher_to_suite WPA_PROTO_RSN (c_wpa_group conf)) ++ counted rsn_cipher_table (c_rsn_pairwise conf) ++
            counted rsn_key_mgmt_table (c_wpa_key_mgmt conf) ++ le16 (rsn_capabilities conf) ++ tail) as E1
    by (rewrite E; unfold l0; cbn [app]; do 2 f_equal; exact Er0).
  assert (zlen l0 = 4) as Hl0 by (unfold l0; autorewrite with arr; rewrite le16_length; lia). clearbody l0.
  erewrite rsn_group_on; [|exact Hg|exact E1]. rewrite bind_ok. cbn [continue at_end]. rewrite app_assoc in E1. unfold rsn_pairwise.
  erewrite suite_list_on; [|apply rsn_cipher_table_ok|done|exact Hp|exact E1]. rewrite bind_ok. cbn [continue at_end set_pairwise d_pairwise_cipher].
  rewrite no_bip_announced, andb_false_r, bind_ok. cbn [continue]. rewrite app_assoc in E1.
  erewrite suite_list_on; [|apply rsn_key_mgmt_table_ok|done|exact Hk|exact E1]. rewrite bind_ok. cbn [continue at_end]. rewrite app_assoc in E1.
  erewrite capabilities_on; [|apply rsn_capabilities_word|exact E1]. rewrite bind_ok. cbn [continue at_end].
  rewrite !zlen_app, !counted_length, le16_length, be32_length in *. cbn [set_group set_pairwise set_key_mgmt set_capabilities].
  match goal with |- (?m1 ≫= _) = (?m2 ≫= _) => replace m1 with m2; [done|] end. rewrite Hl, Hhl. f_equal; lia.
Qed.

(** the end of the element: the PMKIDs and the management group cipher *)
Lemma parse_rsn_tail conf pmkid d : rsn_configured conf -> (forall id, pmkid = Some id -> zlen id = PMKID_LEN) -> d_pmkid d = None -> d_num_pmkid d = 0 ->
  exists off, (p ← rsn_pmkids (rsn_ie conf pmkid) (2 + zlen (rsn_ie_head conf)) (zlen (rsn_ie_tail conf pmkid)) d;
   p ← continue p (rsn_mgmt_group (rsn_ie conf pmkid)); Ok (finish p)) =
  Ok (0, set_mgmt_group (if mgmt_group_written conf then c_group_mgmt_cipher conf else d_mgmt_group_cipher d)
           (set_pmkids (if pmkid is Some _ then 1 else 0) off d)) /\
  (forall id, pmkid = Some id -> exists o, off = Some o /\ get (rsn_ie conf pmkid) o PMKID_LEN = Ok id).
Proof.
  intros (_ & _ & _ & Hm) Hid Hd1 Hd2. set (l := WLAN_EID_RSN :: zlen (rsn_ie_body conf pmkid) :: rsn_ie_head conf). set (ie := rsn_ie conf pmkid).
  assert (ie = l ++ rsn_ie_tail conf pmkid) as E by done. assert (zlen l = 2 + zlen (rsn_ie_head conf)) as Hl by (unfold l; autorewrite with arr; lia).
  replace (zlen (rsn_ie_tail conf pmkid)) with (zlen ie - zlen l) by (rewrite E, zlen_app; lia). rewrite <- Hl. clearbody l ie. clear Hl. unfold rsn_ie_tail in E.
  assert (mgmt_group_written conf = true -> exists s, mgmt_group_suite (c_group_mgmt_cipher conf) = Some s /\ 0 <= s < 2 ^ 32 /\
            rsn_selector_to_bitfield s = c_group_mgmt_cipher conf /\ wpa_cipher_valid_mgmt_group (c_group_mgmt_cipher conf) = true) as Hs.
  { unfold mgmt_group_written. destruct (Z.eqb_spec (c_ieee80211w conf) NO_MGMT_FRAME_PROTECTION) as [|Hne]; [done|]. intros _.
    destruct (mgmt_suite_ok _ (Hm Hne)) as (s & ? & ? & ?). exists s. split_and!; try done; try lia; by apply Hm. }
  destruct pmkid as [pm|].
  - pose proof (Hid pm eq_refl) as Hlen. exists (Some (zlen l + 2)). rewrite <- app_assoc in E. cbn [app] in E. split.
    2: { intros ? [= <-]. exists (zlen l + 2). split; [done|]. rewrite E, app_assoc. apply get_app; [by rewrite zlen_app, le16_length|done]. }
    rewrite <- (app_nil_r pm) in E. erewrite (pmkids_on ie l _ [pm]); [|done|by constructor|exact E].
    rewrite bind_ok. cbn [continue at_end concat]. change (zlen [pm]) with 1. rewrite app_nil_r in E |- *. rewrite !app_assoc, <- (app_assoc l) in E.
    destruct (mgmt_group_written conf).
    + destruct (Hs eq_refl) as (s & Es & Hw & Hb & Hv). rewrite Es in E. cbn [from_option id] in E.
      erewrite (mgmt_group_on ie _ [] s); [|done|by rewrite Hb|by rewrite app_nil_r]. by rewrite bind_ok, Hb.
    + rewrite app_nil_r in E. rewrite <- E, Z.sub_diag. destruct d. by cbn in *; subst.
  - destruct (mgmt_group_written conf).
    + destruct (Hs eq_refl) as (s & Es & Hw & Hb & Hv). rewrite Es in E. cbn [from_option id app] in E. exists (Some (zlen l + 2)). split; [|done].
      erewrite (pmkids_on ie l _ []); [|done|by constructor|exact E]. rewrite bind_ok. cbn [continue at_end concat]. rewrite app_nil_r.
      rewrite app_assoc in E. erewrite (mgmt_group_on ie _ [] s); [|done|by rewrite Hb|by rewrite app_nil_r]. by rewrite bind_ok, Hb.
    + exists None. split; [|done]. rewrite !app_nil_r in E. subst l. rewrite Z.sub_diag. destruct d. by cbn in *; subst.
Qed.

Lemma parse_rsn_written conf pmkid : rsn_configured conf -> (forall id, pmkid = Some id -> zlen id = PMKID_LEN) ->
  exists d, wpa_parse_wpa_ie_rsn (rsn_ie conf pmkid) = Ok (0, d) /\ announced_rsn conf pmkid d.
Proof.
  intros Hc Hid. rewrite (parse_rsn_head conf (rsn_ie conf pmkid) (rsn_ie_tail conf pmkid) Hc eq_refl).
  match goal with |- context [rsn_pmkids _ _ _ ?d0] => destruct (parse_rsn_tail conf pmkid d0 Hc Hid eq_refl eq_refl) as (off & -> & Hoff) end.
  eexists. split; [reflexivity|]. unfold announced_rsn. cbn [set_mgmt_group set_pmkids d_proto d_group_cipher d_pairwise_cipher d_key_mgmt d_capabilities
    d_num_pmkid d_pmkid d_mgmt_group_cipher]. split_and!; try done.
  - unfold mgmt_group_written. destruct (_ =? NO_MGMT_FRAME_PROTECTION); cbn [negb andb]; [done|]. by destruct (Z.eqb_spec (c_group_mgmt_cipher conf) WPA_CIPHER_AES_128_CMAC).
  - destruct pmkid as [id|]; [|done]. destruct (Hoff id eq_refl) as (o & -> & Ho). split; [done|]. by exists o.
Qed.

Lemma parse_wpa_written conf : wpa_configured conf -> exists d, wpa_parse_wpa_ie_wpa (wpa_ie conf) = Ok (0, d) /\ announced_wpa conf d.
Proof.
  intros (Hg & Hp & Hk). pose proof (wpa_ie_length conf) as Hlen. set (ie := wpa_ie conf) in *.
  pose proof (suites_of_length wpa_cipher_table (c_wpa_pairwise conf)). pose proof (suites_of_length wpa_key_mgmt_table (c_wpa_key_mgmt conf)).
  unfold wpa_parse_wpa_ie_wpa. cbv zeta. replace (zlen ie <? 8) with false by lia.
  erewrite (wpa_header_on ie (wpa_ie_body conf) _ eq_refl); [|reflexivity]. rewrite bind_ok. cbn [continue at_end].
  set (l0 := WLAN_EID_VENDOR_SPECIFIC :: zlen (wpa_ie_body conf) :: be32 WPA_OUI_TYPE ++ le16 WPA_VERSION).
  assert (ie = l0 ++ be32 (wpa_cipher_to_suite WPA_PROTO_WPA (c_wpa_group conf)) ++ counted wpa_cipher_table (c_wpa_pairwise conf) ++
            counted wpa_key_mgmt_table (c_wpa_key_mgmt conf) ++ []) as E1.
  { unfold l0, ie, wpa_ie, wpa_ie_body. cbn [app]. by rewrite <- !app_assoc, app_nil_r. }
  clearbody l0. erewrite wpa_group_on; [|exact Hg|exact E1]. rewrite bind_ok. cbn [continue at_end]. rewrite app_assoc in E1.
  erewrite suite_list_on; [|apply wpa_cipher_table_ok|done|exact Hp|exact E1]. rewrite bind_ok. cbn [continue at_end]. rewrite app_assoc in E1.
  erewrite suite_list_on; [|apply wpa_key_mgmt_table_ok|done|exact Hk|exact E1]. rewrite bind_ok. cbn [continue at_end]. rewrite app_assoc, app_nil_r in E1.
  rewrite <- E1, Z.sub_diag. eexists. split; [reflexivity|]. by split_and!.
Qed.

(** *** The elements of an authenticator *)

Lemma wrote_slice b0 start l b : wrote b0 start l b -> get b start (zlen l) = Ok l.
Proof. intros (p & x & q & _ & <- & _ & ->). by apply get_app. Qed.

Lemma wrote_app b0 start l1 b1 l2 b2 : wrote b0 start l1 b1 -> wrote b1 (start + zlen l1) l2 b2 -> wrote b0 start (l1 ++ l2) b2.
Proof.
  intros (p & x & q & -> & Hp & Hx & ->) (p' & x' & q' & E & Hp' & Hx' & ->).
  rewrite app_assoc in E. apply app_inj_1 in E as [<- ->]; [|unfold zlen in *; rewrite length_app; lia].
  exists p, (x ++ x'), q'. autorewrite with arr. rewrite <- !app_assoc. split_and!; [done|done|lia|done].
Qed.

(** the elements of a configuration, one after the other *)
Definition rsn_part (conf : ie_config) : list Z := if any_of (c_wpa conf) WPA_PROTO_RSN then rsn_ie conf None else [].
Definition wpa_part (conf : ie_config) : list Z := if any_of (c_wpa conf) WPA_PROTO_WPA then wpa_ie conf else [].

(** C10: the beacon's elements read back.  For a WPA, an RSN or a mixed
    configuration whose suites exist, wpa_auth_gen_wpa_ie stores an RSN
    element followed by a WPA element, as the enabled versions say, inside
    its 128-byte buffer, and the parsers get from each the configured group
    cipher, the announced pairwise ciphers and key management suites, the
    capabilities and the management group cipher. *)
Theorem gen_wpa_ie_roundtrip alloc conf : c_wpa conf <> WPA_PROTO_OSEN -> (forall n, 0 <= n <= 104 -> alloc n = true) ->
  (any_of (c_wpa conf) WPA_PROTO_RSN = true -> rsn_configured conf) -> (any_of (c_wpa conf) WPA_PROTO_WPA = true -> wpa_configured conf) ->
  wpa_auth_gen_wpa_ie alloc conf = Ok (0, Some (Some (rsn_part conf ++ wpa_part conf))) /\
  (any_of (c_wpa conf) WPA_PROTO_RSN = true -> exists d, wpa_parse_wpa_ie_rsn (rsn_part conf) = Ok (0, d) /\ announced_rsn conf None d) /\
  (any_of (c_wpa conf) WPA_PROTO_WPA = true -> exists d, wpa_parse_wpa_ie_wpa (wpa_part conf) = Ok (0, d) /\ announced_wpa conf d).
Proof.
  intros Ho Ha Hr Hw. split; [|split; [intros E; unfold rsn_part; rewrite E; by apply parse_rsn_written; [apply Hr|]|
                                       intros E; unfold wpa_part; rewrite E; by apply parse_wpa_written, Hw]].
  unfold wpa_auth_gen_wpa_ie. replace (c_wpa conf =? WPA_PROTO_OSEN) with false by lia. rewrite bind_ok. cbv beta iota.
  set (b0 := replicate 128 0). assert (zlen b0 = 128) as Hb0 by done. clearbody b0.
  pose proof (rsn_ie_bound conf None ltac:(done)) as Hrb. pose proof (wpa_ie_bound conf) as Hwb. cbv beta iota in Hrb.
  assert (exists b1, (if any_of (c_wpa conf) WPA_PROTO_RSN then
            '(res, buf) ← wpa_write_rsn_ie conf b0 0 (128 - 0) None; Ok (if res <? 0 then (res, buf, 0) else (0, buf, 0 + res)) else Ok (0, b0, 0)) =
            Ok (0, b1, zlen (rsn_part conf)) /\ wrote b0 0 (rsn_part conf) b1 /\ zlen (rsn_part conf) <= 68) as (b1 & -> & W1 & Hl1).
  { unfold rsn_part. destruct (any_of (c_wpa conf) WPA_PROTO_RSN).
    - destruct (write_rsn_ie_ok conf b0 0 (128 - 0) None) as (b1 & -> & W); [by apply Hr|done|lia..|]. rewrite bind_ok. cbv beta iota.
      pose proof (zlen_nonneg (rsn_ie conf None)). replace (_ <? 0) with false by lia. exists b1. by rewrite Z.add_0_l.
    - exists b0. split_and!; [done|by apply wrote_nothing; lia|done]. }
  rewrite bind_ok. cbv beta iota. replace (0 <? 0) with false by lia. pose proof (zlen_nonneg (rsn_part conf)).
  assert (zlen b1 = 128) as Hb1 by (destruct W1 as (p & x & q & -> & _ & Hx & ->); autorewrite with arr in *; lia).
  assert (exists b2, (if any_of (c_wpa conf) WPA_PROTO_WPA then
            '(res, buf) ← wpa_write_wpa_ie conf b1 (zlen (rsn_part conf));
            Ok (if res <? 0 then (res, buf, zlen (rsn_part conf)) else (0, buf, zlen (rsn_part conf) + res)) else Ok (0, b1, zlen (rsn_part conf))) =
            Ok (0, b2, zlen (rsn_part conf ++ wpa_part conf)) /\ wrote b0 0 (rsn_part conf ++ wpa_part conf) b2) as (b2 & -> & W2).
  { rewrite zlen_app. unfold wpa_part in *. destruct (any_of (c_wpa conf) WPA_PROTO_WPA).
    - destruct (write_wpa_ie_ok conf b1 (zlen (rsn_part conf))) as (b2 & -> & W); [by apply Hw|lia..|]. rewrite bind_ok. cbv beta iota.
      pose proof (zlen_nonneg (wpa_ie conf)). replace (_ <? 0) with false by lia. exists b2. split; [done|]. by eapply wrote_app.
    - exists b1. rewrite app_nil_r, Z.add_0_r. done. }
  assert (zlen (wpa_part conf) <= 36) by (unfold wpa_part; by destruct (any_of (c_wpa conf) WPA_PROTO_WPA)). pose proof (zlen_nonneg (wpa_part conf)).
  rewrite bind_ok. cbv beta iota. rewrite Ha by (rewrite zlen_app; lia).
  cbn [negb]. replace (0 <? 0) with false by lia. by rewrite (wrote_slice _ _ _ _ W2), bind_ok.
Qed.

(** A PMKID written is a PMKID found.  wpa_write_rsn_ie given a PMKID
    writes an element that the parser reads back with that PMKID, the suites
    and the management group cipher, and changes the buffer nowhere else. *)
Theorem write_rsn_ie_roundtrip conf buf start len pmkid : rsn_configured conf -> (forall id, pmkid = Some id -> zlen id = PMKID_LEN) ->
  0 <= start -> 86 <= len -> start + len <= zlen buf ->
  exists n buf' ie d, wpa_write_rsn_ie conf buf start len pmkid = Ok (n, buf') /\ get buf' start n = Ok ie /\
    wpa_parse_wpa_ie_rsn ie = Ok (0, d) /\ announced_rsn conf pmkid d /\
    zlen buf' = zlen buf /\ forall i, i < start \/ start + n <= i -> rd buf' i = rd buf i.
Proof.
  intros Hc Hid Hs Hlen Hroom. pose proof (rsn_ie_bound conf pmkid Hid) as Hb.
  destruct (write_rsn_ie_ok conf buf start len pmkid Hc Hid Hs) as (b & E & W); [destruct pmkid; lia|lia|].
  destruct (parse_rsn_written conf pmkid Hc Hid) as (d & Ed & Hd).
  exists (zlen (rsn_ie conf pmkid)), b, (rsn_ie conf pmkid), d. split_and!; [done|by eapply wrote_slice|done|done|..];
    destruct W as (p & x & q & -> & Hp & Hx & ->); [autorewrite with arr; lia|].
  intros i [Hi|Hi].
  - destruct (Z.ltb_spec i 0); [by rewrite !rd_out_of_range by lia|]. by rewrite !rd_app_l by lia.
  - rewrite !app_assoc, (rd_app_r (p ++ rsn_ie conf pmkid)), (rd_app_r (p ++ x)) by (rewrite zlen_app; lia). by rewrite !zlen_app, Hx.
Qed.

(** ** Concrete elements *)

Module Example.
(** an access point with WPA and RSN, and a station's RSN configuration *)
Definition ap : ie_config :=
  mkIeConfig (WPA_PROTO_WPA + WPA_PROTO_RSN) (WPA_KEY_MGMT_IEEE8021X + WPA_KEY_MGMT_PSK) WPA_CIPHER_TKIP WPA_CIPHER_TKIP
    (WPA_CIPHER_CCMP + WPA_CIPHER_TKIP) true false true false 1 WPA_CIPHER_AES_128_CMAC.
Definition sta : ie_config :=
  mkIeConfig WPA_PROTO_RSN WPA_KEY_MGMT_IEEE8021X 0 WPA_CIPHER_TKIP WPA_CIPHER_CCMP false false false false 1 WPA_CIPHER_BIP_GMAC_256.

Lemma ap_rsn : rsn_configured ap.
Proof. by split_and!. Qed.
Lemma ap_wpa : wpa_configured ap.
Proof. split; [by left|by split]. Qed.
Lemma sta_rsn : rsn_configured sta.
Proof. by split_and!. Qed.

Definition sample_id : list Z := seqZ 200 16.
Definition sta_ie : list Z := Eval vm_compute in rsn_ie sta (Some sample_id).
End Example.

Lemma parse_ie_safe_witness : exists r d, wpa_parse_wpa_ie_rsn (Example.sta_ie ++ [7]) = Ok (r, d) /\ pmkids_inside (Example.sta_ie ++ [7]) d.
Proof.
  destruct (parse_ie_safe (Example.sta_ie ++ [7])) as [(r & d & E & _ & Hp & _) _]; [apply (bool_decide_unpack _); by vm_compute|].
  exists r, d. split; [exact E|exact Hp].
Defined.

Lemma gen_wpa_ie_roundtrip_witness : exists ie, wpa_auth_gen_wpa_ie (fun _ => true) Example.ap = Ok (0, Some (Some ie)) /\ zlen ie = 58.
Proof.
  destruct (gen_wpa_ie_roundtrip (fun _ => true) Example.ap) as (E & _); [by vm_compute|done|intros _; exact Example.ap_rsn|intros _; exact Example.ap_wpa|].
  eexists. split; [exact E|]. by vm_compute.
Defined.

Lemma write_rsn_ie_roundtrip_witness : exists n buf' ie d,
  wpa_write_rsn_ie Example.sta (replicate 100 1) 3 90 (Some Example.sample_id) = Ok (n, buf') /\ wpa_parse_wpa_ie_rsn ie = Ok (0, d) /\ d_num_pmkid d = 1.
Proof.
  destruct (write_rsn_ie_roundtrip Example.sta (replicate 100 1) 3 90 (Some Example.sample_id) Example.sta_rsn) as (n & b & ie & d & E & _ & Ed & Ha & _);
    [by intros ? [= <-]|done|done|done|]. exists n, b, ie, d. split; [exact E|]. split; [exact Ed|]. apply Ha.
Defined.
