(* ===== verification/RsnChoice.v ===== *)
(** * Choosing the suites of an association (src/hostapd-2.5/src/ap/wpa_auth_ie.c)

    wpa_validate_wpa_ie, which decides what a station may use from the element
    it associates with (RsnIe.v) and looks for its PMK in the cache of
    PmksaCache.v, and what its verdict leaves for the state machine of
    WpaAuth.v. *)

From S2P Require Import Prelude BlockCipher CText HexText AesCtr EapolKey Prf WpaState WpaPtk WpaSafe WpaInv WpaAuth WpaWorld PmksaCache RsnIe.
From stdpp Require Import gmap list.
Open Scope Z_scope.

(** ** Choosing *)

Definition wpa_pick_pairwise_cipher (ciphers : Z) (none_allowed : bool) : Z :=
  if any_of ciphers WPA_CIPHER_CCMP_256 then WPA_CIPHER_CCMP_256
  else if any_of ciphers WPA_CIPHER_GCMP_256 then WPA_CIPHER_GCMP_256
  else if any_of ciphers WPA_CIPHER_CCMP then WPA_CIPHER_CCMP
  else if any_of ciphers WPA_CIPHER_GCMP then WPA_CIPHER_GCMP
  else if any_of ciphers WPA_CIPHER_TKIP then WPA_CIPHER_TKIP
  else if none_allowed && any_of ciphers WPA_CIPHER_NONE then WPA_CIPHER_NONE
  else -1.

Inductive validation : Type :=
| WPA_IE_OK | WPA_INVALID_IE | WPA_INVALID_GROUP | WPA_INVALID_PAIRWISE | WPA_INVALID_AKMP | WPA_NOT_ENABLED | WPA_ALLOC_FAIL
| WPA_MGMT_FRAME_PROTECTION_VIOLATION | WPA_INVALID_MGMT_GROUP_CIPHER | WPA_INVALID_MDIE | WPA_INVALID_PROTO.

(** the members of the station that are written *)
Record ie_station : Type := mkIeStation {
  i_addr : list Z; i_key_mgmt : Z; i_mfp : bool; i_pairwise : Z; i_wpa : Z; i_pmksa : option loc; i_wpa_ie : option (list Z) }.

(** the members of the authenticator: the selected suites and the PMKID of the MIB, and the cache *)
Record ie_auth : Type := mkIeAuth {
  m_addr : list Z; m_akm_selected : Z; m_pairwise_selected : Z; m_group_selected : Z; m_pmkid_used : list Z; m_pmksa : cache }.

Definition rsn_akm_selected (key_mgmt : Z) : Z :=
  if any_of key_mgmt WPA_KEY_MGMT_IEEE8021X_SUITE_B_192 then RSN_AUTH_KEY_MGMT_802_1X_SUITE_B_192
  else if any_of key_mgmt WPA_KEY_MGMT_IEEE8021X_SUITE_B then RSN_AUTH_KEY_MGMT_802_1X_SUITE_B
  else if any_of key_mgmt WPA_KEY_MGMT_IEEE8021X_SHA256 then RSN_AUTH_KEY_MGMT_802_1X_SHA256
  else if any_of key_mgmt WPA_KEY_MGMT_PSK_SHA256 then RSN_AUTH_KEY_MGMT_PSK_SHA256
  else if any_of key_mgmt WPA_KEY_MGMT_IEEE8021X then RSN_AUTH_KEY_MGMT_UNSPEC_802_1X
  else if any_of key_mgmt WPA_KEY_MGMT_PSK then RSN_AUTH_KEY_MGMT_PSK_OVER_802_1X
  else RSN_AUTH_KEY_MGMT_UNSPEC_802_1X.

Definition wpa_akm_selected (key_mgmt : Z) : Z :=
  if any_of key_mgmt WPA_KEY_MGMT_IEEE8021X then WPA_AUTH_KEY_MGMT_UNSPEC_802_1X
  else if any_of key_mgmt WPA_KEY_MGMT_PSK then WPA_AUTH_KEY_MGMT_PSK_OVER_802_1X
  else WPA_AUTH_KEY_MGMT_UNSPEC_802_1X.

(** [selector], or the default when it is 0 *)
Definition selected (suite default_suite : Z) : Z := if suite =? 0 then default_suite else suite.

Definition select_suites (rsn : bool) (d : wpa_ie_data) (a : ie_auth) : ie_auth :=
  if rsn then
    mkIeAuth (m_addr a) (rsn_akm_selected (d_key_mgmt d))
      (selected (wpa_cipher_to_suite WPA_PROTO_RSN (d_pairwise_cipher d)) RSN_CIPHER_SUITE_CCMP)
      (selected (wpa_cipher_to_suite WPA_PROTO_RSN (d_group_cipher d)) RSN_CIPHER_SUITE_CCMP) (m_pmkid_used a) (m_pmksa a)
  else
    mkIeAuth (m_addr a) (wpa_akm_selected (d_key_mgmt d))
      (selected (wpa_cipher_to_suite WPA_PROTO_WPA (d_pairwise_cipher d)) RSN_CIPHER_SUITE_TKIP)
      (selected (wpa_cipher_to_suite WPA_PROTO_WPA (d_group_cipher d)) WPA_CIPHER_SUITE_TKIP) (m_pmkid_used a) (m_pmksa a).

Definition pick_key_mgmt (key_mgmt : Z) : Z :=
  if any_of key_mgmt WPA_KEY_MGMT_IEEE8021X_SUITE_B_192 then WPA_KEY_MGMT_IEEE8021X_SUITE_B_192
  else if any_of key_mgmt WPA_KEY_MGMT_IEEE8021X_SUITE_B then WPA_KEY_MGMT_IEEE8021X_SUITE_B
  else if any_of key_mgmt WPA_KEY_MGMT_IEEE8021X_SHA256 then WPA_KEY_MGMT_IEEE8021X_SHA256
  else if any_of key_mgmt WPA_KEY_MGMT_PSK_SHA256 then WPA_KEY_MGMT_PSK_SHA256
  else if any_of key_mgmt WPA_KEY_MGMT_IEEE8021X then WPA_KEY_MGMT_IEEE8021X
  else WPA_KEY_MGMT_PSK.

(** what management frame protection asks for *)
Definition mfp_violation (conf : ie_config) (d : wpa_ie_data) (ciphers : Z) : option validation :=
  if c_ieee80211w conf =? MGMT_FRAME_PROTECTION_REQUIRED then
    if negb (any_of (d_capabilities d) WPA_CAPABILITY_MFPC) then Some WPA_MGMT_FRAME_PROTECTION_VIOLATION
    else if any_of ciphers WPA_CIPHER_TKIP then Some WPA_MGMT_FRAME_PROTECTION_VIOLATION
    else if negb (d_mgmt_group_cipher d =? c_group_mgmt_cipher conf) then Some WPA_INVALID_MGMT_GROUP_CIPHER
    else None
  else None.

(** *** The PMKSA *)

(** the first PMKID of the element for which [look] finds something *)
Fixpoint for_pmkids {A} (look : list Z -> M (option A)) (ie : list Z) (off : Z) (n : nat) : M (option (A * list Z)) :=
  match n with
  | O => Ok None
  | S n =>
      id ← get ie off PMKID_LEN;
      r ← look id;
      match r with Some x => Ok (Some (x, id)) | None => for_pmkids look ie (off + PMKID_LEN) n end
  end.

Section Validate.
Context {DG : Digests}.

(** wpa_auth_okc_iter over the authenticators of the host: the entry found *)
Fixpoint wpa_auth_okc_iter (aa spa id : list Z) (caches : list cache) : M (option entry) :=
  match caches with
  | [] => Ok None
  | c :: caches =>
      r ← pmksa_cache_get_okc aa spa id c;
      match r with
      | Some p => e ← deref (heap c) p; Ok (Some e)
      | None => wpa_auth_okc_iter aa spa id caches
      end
  end.

(** the station's entry, the PMKID and the cache *)
Definition find_pmksa (alloc : Z -> bool) (new : option loc) (now : Z) (conf : ie_config) (caches : list cache) (ie : list Z)
    (d : wpa_ie_data) (addr spa : list Z) (c : cache) : M (option loc * option (list Z) * cache) :=
  let off := default 0 (d_pmkid d) in
  let n := Z.to_nat (d_num_pmkid d) in
  r ← for_pmkids (fun id => pmksa_cache_auth_get (Some spa) (Some id) c) ie off n;
  match r with
  | Some (p, id) => Ok (Some p, Some id, c)
  | None =>
      if c_okc conf then
        r ← for_pmkids (fun id => wpa_auth_okc_iter addr spa id caches) ie off n;
        match r with
        | Some (old, id) => '(p, c) ← pmksa_cache_add_okc alloc new now old id c; Ok (p, Some id, c)
        | None => Ok (None, None, c)
        end
      else Ok (None, None, c)
  end.

(** what is left to do when the suites fit *)
Definition accept_ie (alloc : Z -> bool) (new : option loc) (now : Z) (conf : ie_config) (caches : list cache) (ie : list Z)
    (d : wpa_ie_data) (rsn : bool) (pairwise : Z) (a : ie_auth) (s : ie_station) : M (validation * ie_auth * ie_station) :=
  let version := if rsn then WPA_VERSION_WPA2 else WPA_VERSION_WPA in
  '(p, id, c) ← find_pmksa alloc new now conf caches ie d (m_addr a) (i_addr s) (m_pmksa a);
  let used := match p, id with Some _, Some id => id | _, _ => m_pmkid_used a end in
  let a := mkIeAuth (m_addr a) (m_akm_selected a) (m_pairwise_selected a) (m_group_selected a) used c in
  let room := match i_wpa_ie s with Some old => zlen ie <=? zlen old | None => false end in
  if negb room && negb (alloc (zlen ie)) then
    Ok (WPA_ALLOC_FAIL, a, mkIeStation (i_addr s) (i_key_mgmt s) (i_mfp s) pairwise version p None)
  else Ok (WPA_IE_OK, a, mkIeStation (i_addr s) (i_key_mgmt s) (i_mfp s) pairwise version p (Some ie)).

Definition wpa_validate_wpa_ie (alloc : Z -> bool) (new : option loc) (now : Z) (conf : ie_config) (caches : list cache)
    (wpa_ie : option (list Z)) (a : ie_auth) (s : ie_station) : M (validation * ie_auth * ie_station) :=
  match wpa_ie with
  | None => Ok (WPA_INVALID_IE, a, s)
  | Some ie =>
      if zlen ie <? 1 then Ok (WPA_INVALID_IE, a, s)
      else
        id ← rd ie 0;
        let rsn := id =? WLAN_EID_RSN in
        if negb (any_of (c_wpa conf) (if rsn then WPA_PROTO_RSN else WPA_PROTO_WPA)) then Ok (WPA_INVALID_PROTO, a, s)
        else
          '(res, d) ← (if rsn then wpa_parse_wpa_ie_rsn ie else wpa_parse_wpa_ie_wpa ie);
          let a := select_suites rsn d a in
          if negb (res =? 0) then Ok (WPA_INVALID_IE, a, s)
          else if negb (d_group_cipher d =? c_wpa_group conf) then Ok (WPA_INVALID_GROUP, a, s)
          else
            let key_mgmt := Z.land (d_key_mgmt d) (c_wpa_key_mgmt conf) in
            if key_mgmt =? 0 then Ok (WPA_INVALID_AKMP, a, s)
            else
              let s := mkIeStation (i_addr s) (pick_key_mgmt key_mgmt) (i_mfp s) (i_pairwise s) (i_wpa s) (i_pmksa s) (i_wpa_ie s) in
              let ciphers := Z.land (d_pairwise_cipher d) (if rsn then c_rsn_pairwise conf else c_wpa_pairwise conf) in
              if ciphers =? 0 then Ok (WPA_INVALID_PAIRWISE, a, s)
              else
                match mfp_violation conf d ciphers with
                | Some v => Ok (v, a, s)
                | None =>
                    let mfp := negb ((c_ieee80211w conf =? NO_MGMT_FRAME_PROTECTION) ||
                                     negb (any_of (d_capabilities d) WPA_CAPABILITY_MFPC)) in
                    let s := mkIeStation (i_addr s) (i_key_mgmt s) mfp (i_pairwise s) (i_wpa s) (i_pmksa s) (i_wpa_ie s) in
                    let pairwise := wpa_pick_pairwise_cipher ciphers false in
                    if pairwise <? 0 then
                      Ok (WPA_INVALID_PAIRWISE, a,
                          mkIeStation (i_addr s) (i_key_mgmt s) (i_mfp s) pairwise (i_wpa s) (i_pmksa s) (i_wpa_ie s))
                    else accept_ie alloc new now conf caches ie d rsn pairwise a s
                end
  end.
End Validate.

(** ** Choosing *)

(** what an element and a configuration must have in common *)
Definition compatible (conf : ie_config) (rsn : bool) (d : wpa_ie_data) : Prop :=
  let ciphers := Z.land (d_pairwise_cipher d) (if rsn then c_rsn_pairwise conf else c_wpa_pairwise conf) in
  any_of (c_wpa conf) (if rsn then WPA_PROTO_RSN else WPA_PROTO_WPA) = true /\
  d_group_cipher d = c_wpa_group conf /\
  Z.land (d_key_mgmt d) (c_wpa_key_mgmt conf) <> 0 /\
  0 <= wpa_pick_pairwise_cipher ciphers false /\
  (c_ieee80211w conf = MGMT_FRAME_PROTECTION_REQUIRED ->
   any_of (d_capabilities d) WPA_CAPABILITY_MFPC = true /\ any_of ciphers WPA_CIPHER_TKIP = false /\ d_mgmt_group_cipher d = c_group_mgmt_cipher conf).

(** the [k]th PMKID of an element *)
Definition lists_pmkid (ie : list Z) (d : wpa_ie_data) (id : list Z) : Prop :=
  exists k off, 0 <= k < d_num_pmkid d /\ d_pmkid d = Some off /\ get ie (off + PMKID_LEN * k) PMKID_LEN = Ok id.

(** what a station may use after its element is accepted *)
Record ie_accepted (conf : ie_config) (ie : list Z) (d : wpa_ie_data) (a : ie_auth) (s : ie_station) : Prop := {
  acc_ie : i_wpa_ie s = Some ie;
  acc_key_mgmt : any_of (d_key_mgmt d) (i_key_mgmt s) = true /\ any_of (c_wpa_key_mgmt conf) (i_key_mgmt s) = true /\
                 In (i_key_mgmt s) (map fst rsn_key_mgmt_table);
  acc_pairwise : any_of (d_pairwise_cipher d) (i_pairwise s) = true /\
                 any_of (if i_wpa s =? WPA_VERSION_WPA2 then c_rsn_pairwise conf else c_wpa_pairwise conf) (i_pairwise s) = true /\
                 wpa_cipher_valid_pairwise (i_pairwise s) = true;
  acc_mfp : i_mfp s = negb (c_ieee80211w conf =? NO_MGMT_FRAME_PROTECTION) && any_of (d_capabilities d) WPA_CAPABILITY_MFPC;
  acc_required : c_ieee80211w conf = MGMT_FRAME_PROTECTION_REQUIRED -> i_mfp s = true /\ i_pairwise s <> WPA_CIPHER_TKIP;
  acc_pmksa : forall p, i_pmksa s = Some p -> exists e, heap (m_pmksa a) !! p = Some e /\ e_spa e = i_addr s /\ e_pmkid e = m_pmkid_used a /\
                 lists_pmkid ie d (e_pmkid e) }.

Section Choose.
Context {DG : Digests} {DL : DigestsLaws} {DT : DigestsTotal}.
Implicit Types (conf : ie_config) (d : wpa_ie_data) (s : ie_station) (a : ie_auth).

Lemma for_pmkids_ok {A} (look : list Z -> M (option A)) (P : list Z -> A -> Prop) ie off n : bytes ie -> 0 <= off -> off + PMKID_LEN * Z.of_nat n <= zlen ie ->
  (forall id, arr 16 id -> safe (look id) (fun r => forall x, r = Some x -> P id x)) ->
  safe (for_pmkids look ie off n) (fun r => forall x id, r = Some (x, id) ->
    arr 16 id /\ P id x /\ exists k, 0 <= k < Z.of_nat n /\ get ie (off + PMKID_LEN * k) PMKID_LEN = Ok id).
Proof.
  intros Hb Ho Hl Hlook. revert off Ho Hl. induction n as [|n IH]; intros off Ho Hl; [done|]. cbn [for_pmkids]. unfold PMKID_LEN in *.
  destruct (get ie off 16) as [id|] eqn:Eg; [|by revert Eg; unfold get; replace ((0 <=? off) && _ && _) with true by lia].
  assert (arr 16 id) as Hid by (pose proof (get_safe ie off 16 Hb) as H; rewrite Eg in H; apply H; lia).
  rewrite bind_ok. eapply safe_bind; [by apply Hlook|]. intros [x|] Hx.
  - intros y id' [= <- <-]. split; [done|]. split; [by apply Hx|]. exists 0. rewrite Z.mul_0_r, Z.add_0_r. split; [lia|done].
  - eapply safe_mono; [apply IH; lia|]. intros r Hr y id' Er. destruct (Hr y id' Er) as (H1 & H2 & k & Hk & H3). split; [done|]. split; [done|].
    exists (k + 1). split; [lia|]. by replace (off + 16 * (k + 1)) with (off + 16 + 16 * k) by lia.
Qed.

Lemma okc_iter_ok aa spa id caches : Forall (fun c => exists l, rep [] c l) caches ->
  safe (wpa_auth_okc_iter aa spa id caches) (fun r => forall e, r = Some e -> entry_ok e /\ e_spa e = spa).
Proof.
  induction 1 as [|c caches [l H] _ IH]; [done|]. cbn [wpa_auth_okc_iter]. eapply safe_bind; [by apply get_okc_ok|]. intros [p|] Hf; [|done].
  destruct Hf as (e & Hin & Hs & _). destruct (rep_deref _ _ _ _ _ H Hin) as (e' & E & Ee). unfold deref. rewrite E, bind_ok.
  intros ? [= <-]. rewrite <- entry_ok_erase, Ee. split; [by apply (proj1 (Forall_forall _ _) (rep_ok _ _ _ H) _ Hin)|]. by rewrite <- Ee in Hs.
Qed.

(** the entry found belongs to the station and to a PMKID of its element *)
Definition pmksa_found (ie : list Z) (d : wpa_ie_data) (spa : list Z) (r : option loc * option (list Z) * cache) : Prop :=
  (exists l, rep [] r.2 l) /\
  forall p, r.1.1 = Some p -> exists e id, heap r.2 !! p = Some e /\ e_spa e = spa /\ e_pmkid e = id /\ r.1.2 = Some id /\ lists_pmkid ie d id.

Lemma find_pmksa_ok alloc new now conf caches ie d addr spa c l : bytes ie -> pmkids_inside ie d -> rep [] c l ->
  (forall p, new = Some p -> heap c !! p = None) -> Forall (fun c => exists l, rep [] c l) caches -> 0 <= now < 2 ^ 31 ->
  safe (find_pmksa alloc new now conf caches ie d addr spa c) (pmksa_found ie d spa).
Proof.
  intros Hb [Hn Hp] H Hnew Hcs Hnow. unfold find_pmksa. cbv zeta.
  assert (0 <= default 0 (d_pmkid d) /\ default 0 (d_pmkid d) + PMKID_LEN * Z.of_nat (Z.to_nat (d_num_pmkid d)) <= zlen ie) as [Ho Hr].
  { destruct (d_pmkid d); cbn [from_option id]; [|pose proof (zlen_nonneg ie); lia]. rewrite Z2Nat.id by done. lia. }
  assert (forall id k, 0 <= k < Z.of_nat (Z.to_nat (d_num_pmkid d)) -> get ie (default 0 (d_pmkid d) + PMKID_LEN * k) PMKID_LEN = Ok id -> lists_pmkid ie d id) as Hk.
  { intros id k Hk Hg. rewrite Z2Nat.id in Hk by done. destruct (d_pmkid d) as [off|] eqn:Ed; [|lia]. exists k, off. by rewrite Ed. }
  eapply safe_bind; [apply (for_pmkids_ok _ (fun id p => exists e, (p, e) ∈ l /\ same_id (Some spa) id e = true)); [done..|]|].
  { intros id Hid. eapply safe_mono; [by apply (get_pmkid_ok [] c l); [|apply Hid..]|]. intros r Hf p ->. exact Hf. }
  intros [[p id]|] Hf.
  - destruct (Hf p id eq_refl) as (_ & (e & Hin & He) & k & Hk1 & Hk2). split; [by exists l|]. intros ? [= <-].
    destruct (rep_deref _ _ _ _ _ H Hin) as (e' & E & Ee). exists e', id. unfold same_id, matches in He. apply andb_prop in He as [H1 H2].
    apply bool_decide_eq_true in H1, H2. rewrite <- Ee in H1, H2. split_and!; try done. by eapply Hk.
  - clear Hf. destruct (c_okc conf); [|split; [by exists l|done]].
    eapply safe_bind; [apply (for_pmkids_ok _ (fun id e => entry_ok e /\ e_spa e = spa)); [done..|]|].
    { intros id _. by apply okc_iter_ok. }
    intros [[old id]|] Hf; [|split; [by exists l|done]]. destruct (Hf old id eq_refl) as (Hid & (Hok & Hspa) & k & Hk1 & Hk2).
    destruct new as [p|]; [|by cbn; split; [exists l|]].
    eapply safe_bind; [by apply (pmksa_cache_add_okc_ok alloc p now old id c l); [|apply Hnew|..]|].
    intros [p' c'] (Ep & pmk & _ & H'). cbn [fst snd] in *. subst p'. split; [by eexists|]. intros ? [= <-].
    match type of H' with rep _ _ (place (p, ?e) l) => assert ((p, e) ∈ place (p, e) l) as Hin by (rewrite place_perm; apply list_elem_of_here);
      destruct (rep_deref _ _ _ _ _ H' Hin) as (e' & E & Ee); exists e', id end.
    split; [done|]. split; [by rewrite <- Hspa; apply (f_equal e_spa) in Ee|]. split; [by apply (f_equal e_pmkid) in Ee|]. split; [done|]. by eapply Hk.
Qed.
End Choose.

(** *** What is picked *)

Lemma any_of_land x y b : any_of (Z.land x y) b = true -> any_of x b = true /\ any_of y b = true.
Proof.
  unfold any_of. intros H. split; apply negb_true_iff, Z.eqb_neq; intros E; apply negb_true_iff, Z.eqb_neq in H; apply H.
  - by rewrite (Z.land_comm x), <- Z.land_assoc, E, Z.land_0_r.
  - by rewrite <- Z.land_assoc, E, Z.land_0_r.
Qed.

Lemma any_of_false x b : any_of x b = false -> Z.land x b = 0.
Proof. unfold any_of. intros H. by apply negb_false_iff, Z.eqb_eq in H. Qed.

Ltac next_if := match goal with |- context [if any_of ?x ?b then _ else _] => destruct (any_of x b) eqn:? end.

Lemma pick_key_mgmt_ok m : Z.land m (table_mask rsn_key_mgmt_table) = m -> m <> 0 ->
  any_of m (pick_key_mgmt m) = true /\ In (pick_key_mgmt m) (map fst rsn_key_mgmt_table).
Proof.
  intros Hm H0. unfold pick_key_mgmt. repeat (next_if; [split; [done|cbn; tauto]|]). split; [|cbn; tauto].
  destruct (any_of m WPA_KEY_MGMT_PSK) eqn:E; [done|]. exfalso. apply H0. rewrite <- Hm. cbn [table_mask foldr rsn_key_mgmt_table fst].
  rewrite !Z.land_lor_distr_r, !any_of_false by done. by rewrite Z.land_0_r.
Qed.

Lemma pick_pairwise_ok m : 0 <= wpa_pick_pairwise_cipher m false ->
  any_of m (wpa_pick_pairwise_cipher m false) = true /\ wpa_cipher_valid_pairwise (wpa_pick_pairwise_cipher m false) = true.
Proof. unfold wpa_pick_pairwise_cipher. by repeat (next_if; [intros _; by split|]). Qed.

Definition required (conf : ie_config) : Prop := c_ieee80211w conf = MGMT_FRAME_PROTECTION_REQUIRED.

Lemma mfp_violation_ok conf d m : mfp_violation conf d m = None <->
  (required conf -> any_of (d_capabilities d) WPA_CAPABILITY_MFPC = true /\ any_of m WPA_CIPHER_TKIP = false /\ d_mgmt_group_cipher d = c_group_mgmt_cipher conf).
Proof.
  unfold mfp_violation, required. destruct (Z.eqb_spec (c_ieee80211w conf) MGMT_FRAME_PROTECTION_REQUIRED); [|by split].
  destruct (any_of (d_capabilities d) _); cbn [negb]; [|split; [done|intros H; by destruct (H e)]].
  destruct (any_of m _); [split; [done|intros H; by destruct (H e) as (_ & ? & _)]|].
  destruct (Z.eqb_spec (d_mgmt_group_cipher d) (c_group_mgmt_cipher conf)); cbn [negb]; [by split|]. split; [done|]. intros H. by destruct (H e) as (_ & _ & ?).
Qed.

Section Validation.
Context {DG : Digests} {DL : DigestsLaws} {DT : DigestsTotal}.
Context (alloc : Z -> bool) (new : option loc) (now : Z) (conf : ie_config) (caches : list cache) (ie : list Z).
Context (Hb : bytes ie) (Hcs : Forall (fun c => exists l, rep [] c l) caches) (Hnow : 0 <= now < 2 ^ 31) (Halloc : alloc (zlen ie) = true).
Context (Hakm : Z.land (c_wpa_key_mgmt conf) (table_mask rsn_key_mgmt_table) = c_wpa_key_mgmt conf).

(** the verdict on an element whose parse gave [res] and [d] *)
Definition verdict (rsn : bool) (res : Z) (d : wpa_ie_data) (a : ie_auth) (s : ie_station) (r : validation * ie_auth * ie_station) : Prop :=
  let '(v, a', s') := r in
  (v = WPA_IE_OK <-> res = 0 /\ compatible conf rsn d) /\
  (v = WPA_IE_OK -> ie_accepted conf ie d a' s' /\ exists l, rep [] (m_pmksa a') l) /\
  (v <> WPA_IE_OK -> i_wpa_ie s' = i_wpa_ie s /\ i_pmksa s' = i_pmksa s /\ m_pmksa a' = m_pmksa a) /\ i_addr s' = i_addr s.

Lemma rejected rsn res d a s v a' s' : v <> WPA_IE_OK -> ~ (res = 0 /\ compatible conf rsn d) ->
  i_wpa_ie s' = i_wpa_ie s -> i_pmksa s' = i_pmksa s -> m_pmksa a' = m_pmksa a -> i_addr s' = i_addr s -> safe (Ok (v, a', s')) (verdict rsn res d a s).
Proof. intros. cbn. by split_and!. Qed.

Lemma accept_ie_ok (rsn : bool) d a s l : pmkids_inside ie d -> rep [] (m_pmksa a) l -> (forall p, new = Some p -> heap (m_pmksa a) !! p = None) ->
  let m := Z.land (d_pairwise_cipher d) (if rsn then c_rsn_pairwise conf else c_wpa_pairwise conf) in
  0 <= wpa_pick_pairwise_cipher m false -> Z.land (d_key_mgmt d) (c_wpa_key_mgmt conf) <> 0 ->
  (required conf -> any_of (d_capabilities d) WPA_CAPABILITY_MFPC = true /\ any_of m WPA_CIPHER_TKIP = false /\ d_mgmt_group_cipher d = c_group_mgmt_cipher conf) ->
  i_key_mgmt s = pick_key_mgmt (Z.land (d_key_mgmt d) (c_wpa_key_mgmt conf)) ->
  i_mfp s = negb (c_ieee80211w conf =? NO_MGMT_FRAME_PROTECTION) && any_of (d_capabilities d) WPA_CAPABILITY_MFPC ->
  safe (accept_ie alloc new now conf caches ie d rsn (wpa_pick_pairwise_cipher m false) a s) (fun r => let '(v, a', s') := r in
    v = WPA_IE_OK /\ ie_accepted conf ie d a' s' /\ (exists l, rep [] (m_pmksa a') l) /\ i_addr s' = i_addr s).
Proof.
  intros Hp H Hnew m Hpick Hkm Hreq Hk Hmfp. unfold accept_ie.
  eapply safe_bind; [by apply (find_pmksa_ok alloc new now conf caches ie d _ _ _ l)|]. intros [[p id] c] [[l' H'] Hfound]. cbn [fst snd] in *.
  cbv zeta. rewrite Halloc. rewrite andb_false_r. cbn [safe]. split; [done|]. cbn [m_pmksa i_addr]. split; [|by split; [exists l'|]].
  destruct (pick_pairwise_ok _ Hpick) as [Hp1 Hp2]. unfold m in Hp1. apply any_of_land in Hp1 as [Hp1 Hp3]. fold m in Hp1, Hp3.
  destruct (pick_key_mgmt_ok (Z.land (d_key_mgmt d) (c_wpa_key_mgmt conf))) as [Hk1 Hk2]; [by rewrite <- Z.land_assoc, Hakm|done|].
  apply any_of_land in Hk1 as [Hk1 Hk3]. rewrite <- Hk in *.
  split; cbn [i_wpa_ie i_key_mgmt i_pairwise i_wpa i_mfp i_pmksa i_addr m_pmksa m_pmkid_used]; [done|done| |done| |].
  - split_and!; [done| |done]. destruct rsn; exact Hp3.
  - intros Hr. destruct (Hreq Hr) as (R1 & R2 & _). rewrite Hmfp, R1. unfold required in Hr. rewrite Hr. split; [done|]. intros E.
    destruct (pick_pairwise_ok _ Hpick) as [Hq _]. rewrite E, R2 in Hq. done.
  - intros q ->. destruct (Hfound q eq_refl) as (e & id' & E1 & E2 & E3 & -> & E4). exists e. rewrite E3. by split_and!.
Qed.

(** an element that has been parsed *)
Lemma validate_parsed (rsn : bool) res d a s l : res = 0 \/ res < 0 -> pmkids_inside ie d -> rep [] (m_pmksa a) l -> (forall p, new = Some p -> heap (m_pmksa a) !! p = None) ->
  1 <= zlen ie -> rd ie 0 = Ok (hd 0 ie) -> rsn = (hd 0 ie =? WLAN_EID_RSN) -> any_of (c_wpa conf) (if rsn then WPA_PROTO_RSN else WPA_PROTO_WPA) = true ->
  (if rsn then wpa_parse_wpa_ie_rsn ie else wpa_parse_wpa_ie_wpa ie) = Ok (res, d) ->
  safe (wpa_validate_wpa_ie alloc new now conf caches (Some ie) a s) (verdict rsn res d a s).
Proof.
  intros Hres Hp H Hnew Hl Hrd Ers Hv Eparse. unfold wpa_validate_wpa_ie. replace (zlen ie <? 1) with false by lia. rewrite Hrd, bind_ok.
  cbv zeta. rewrite <- Ers, Hv. cbn [negb]. rewrite Eparse, bind_ok. cbv beta iota. set (a0 := select_suites rsn d a).
  assert (m_pmksa a0 = m_pmksa a) as Ha0 by (unfold a0, select_suites; by destruct rsn). clearbody a0.
  destruct (Z.eqb_spec res 0) as [->|Hne]; cbn [negb]; [|by apply rejected; try done; intros [? _]].
  destruct (Z.eqb_spec (d_group_cipher d) (c_wpa_group conf)) as [Eg|]; cbn [negb]; [|by apply rejected; try done; intros (_ & _ & ? & _)].
  destruct (Z.eqb_spec (Z.land (d_key_mgmt d) (c_wpa_key_mgmt conf)) 0) as [|Ek]; [by apply rejected; try done; intros (_ & _ & _ & ? & _)|].
  destruct (Z.eqb_spec (Z.land (d_pairwise_cipher d) (if rsn then c_rsn_pairwise conf else c_wpa_pairwise conf)) 0) as [Ec|Ec].
  { apply rejected; try done. intros (_ & _ & _ & _ & Hc & _). rewrite Ec in Hc. by apply Hc. }
  destruct (mfp_violation _ _ _) as [v|] eqn:Em.
  { assert (v <> WPA_IE_OK) by (unfold mfp_violation in Em; repeat case_match; congruence). apply rejected; try done.
    intros (_ & _ & _ & _ & _ & Hc). assert (Some v = None) as E' by (rewrite <- Em; by apply mfp_violation_ok). done. }
  cbn [i_addr i_key_mgmt i_mfp i_pairwise i_wpa i_pmksa i_wpa_ie].
  destruct (Z.ltb_spec (wpa_pick_pairwise_cipher (Z.land (d_pairwise_cipher d) (if rsn then c_rsn_pairwise conf else c_wpa_pairwise conf)) false) 0) as [Hpick|Hpick].
  { apply rejected; try done. intros (_ & _ & _ & _ & Hc & _). lia. }
  pose proof (proj1 (mfp_violation_ok _ _ _) Em) as Hreq. rewrite <- Ha0 in H, Hnew.
  eapply safe_mono; [apply (accept_ie_ok rsn d a0 _ l); try done|].
  { cbn [i_mfp]. by rewrite negb_orb, negb_involutive. }
  intros [[v a'] s'] (-> & Hacc & Hrep & Haddr). unfold verdict. split; [|by split_and!]. split; [|done]. intros _. split; [done|]. by split_and!.
Qed.
End Validation.

Lemma validated {DG : Digests} {DL : DigestsLaws} {DT : DigestsTotal} alloc new now conf caches ie a s l :
  bytes ie -> 1 <= zlen ie -> rep [] (m_pmksa a) l -> (forall p, new = Some p -> heap (m_pmksa a) !! p = None) ->
  Forall (fun c => exists l, rep [] c l) caches -> 0 <= now < 2 ^ 31 -> alloc (zlen ie) = true ->
  Z.land (c_wpa_key_mgmt conf) (table_mask rsn_key_mgmt_table) = c_wpa_key_mgmt conf ->
  exists res d v a' s', let rsn := hd 0 ie =? WLAN_EID_RSN in
    (if rsn then wpa_parse_wpa_ie_rsn ie else wpa_parse_wpa_ie_wpa ie) = Ok (res, d) /\
    wpa_validate_wpa_ie alloc new now conf caches (Some ie) a s = Ok (v, a', s') /\ verdict conf ie rsn res d a s (v, a', s').
Proof.
  intros Hb Hl H Hnew Hcs Hnow Halloc Hakm. set (rsn := hd 0 ie =? WLAN_EID_RSN).
  assert (exists res d, (if rsn then wpa_parse_wpa_ie_rsn ie else wpa_parse_wpa_ie_wpa ie) = Ok (res, d) /\ res <= 0 /\ pmkids_inside ie d) as (res & d & E & Hres & Hp).
  { destruct rsn; [pose proof (parse_rsn_ok ie Hb) as Hs|pose proof (parse_wpa_ok ie Hb) as Hs]; apply safe_exists in Hs as ([r d] & E & H1 & H2 & _); by exists r, d. }
  assert (rd ie 0 = Ok (hd 0 ie)) as Hrd by (destruct ie; [by destruct Hl|done]). exists res, d.
  destruct (any_of (c_wpa conf) (if rsn then WPA_PROTO_RSN else WPA_PROTO_WPA)) eqn:Ev.
  - assert (safe (wpa_validate_wpa_ie alloc new now conf caches (Some ie) a s) (verdict conf ie rsn res d a s)) as Hs
      by (eapply validate_parsed; try done; lia). apply safe_exists in Hs as ([[v a'] s'] & Ev' & Hv). by exists v, a', s'.
  - exists WPA_INVALID_PROTO, a, s. split; [done|]. split; [|by cbn; split_and!; [split; [done|intros (_ & Hc & _); rewrite Ev in Hc]|..]].
    unfold wpa_validate_wpa_ie. replace (zlen ie <? 1) with false by lia. rewrite Hrd, bind_ok. cbv zeta. fold rsn. by rewrite Ev.
Qed.

(** C11: what a station may use.  wpa_validate_wpa_ie, on any element that a
    station sends and any state of the caches, gives a verdict: it accepts
    exactly the elements that parse and agree with the configuration on the
    version, the group cipher, a key management suite, a pairwise cipher and,
    where management frame protection is required, on its ciphers.  An
    accepted station uses one key management suite and one pairwise cipher
    that both sides allow, protects management frames where that is required
    (never with TKIP), and has a PMKSA only of its own address and of a PMKID
    in its element.  A rejected one keeps its element and PMKSA, and the cache
    is not changed. *)
Theorem validate_ie_correct {DG : Digests} {DL : DigestsLaws} {DT : DigestsTotal} alloc new now conf caches ie a s l :
  bytes ie -> 1 <= zlen ie -> rep [] (m_pmksa a) l -> (forall p, new = Some p -> heap (m_pmksa a) !! p = None) ->
  Forall (fun c => exists l, rep [] c l) caches -> 0 <= now < 2 ^ 31 -> alloc (zlen ie) = true ->
  Z.land (c_wpa_key_mgmt conf) (table_mask rsn_key_mgmt_table) = c_wpa_key_mgmt conf ->
  exists res d v a' s', let rsn := hd 0 ie =? WLAN_EID_RSN in
    (if rsn then wpa_parse_wpa_ie_rsn ie else wpa_parse_wpa_ie_wpa ie) = Ok (res, d) /\
    wpa_validate_wpa_ie alloc new now conf caches (Some ie) a s = Ok (v, a', s') /\ verdict conf ie rsn res d a s (v, a', s').
Proof. apply validated. Qed.

(** ** The association of an accepted station *)

(** what wpa_validate_wpa_ie leaves in the station, for the state machine of WpaAuth.v *)
Definition association_input (i : nat) (a : ie_auth) (s : ie_station) (psks : list (list Z)) (msk : option (list Z)) : M input :=
  pm ← match i_pmksa s with
       | None => Ok None
       | Some p => e ← deref (heap (m_pmksa a)) p; pmk ← get (e_pmk e) 0 (e_pmk_len e); Ok (Some (pmk, e_pmkid e))
       end;
  Ok (InAssociation i (i_wpa s) (i_pairwise s) (i_key_mgmt s) (i_mfp s) (mkAssoc (i_addr s) (i_wpa_ie s) pm psks msk)).

Lemma association_input_ok conf ie d a s l i psks msk : ie_accepted conf ie d a s -> rep [] (m_pmksa a) l ->
  any_of (c_wpa_key_mgmt conf) WPA_KEY_MGMT_IEEE8021X_SUITE_B_192 = false -> safe (association_input i a s psks msk) input_ok.
Proof.
  intros [_ (_ & Hk & _) _ _ _ Hp] H Hb. unfold association_input.
  eapply (safe_bind (fun pm => forall pmk id, pm = Some (pmk, id) -> arr 16 id)).
  - destruct (i_pmksa s) as [p|]; [|done]. destruct (Hp p eq_refl) as (e & E & _). unfold deref. rewrite E, bind_ok.
    pose proof (rep_all _ _ _ H p e E ltac:(by apply not_elem_of_nil)) as Hin.
    pose proof (proj1 (Forall_forall _ _) (rep_ok _ _ _ H) _ Hin) as He. cbn [snd] in He. apply (proj1 (entry_ok_erase _)) in He as [Hid _ [Hl Hn]].
    destruct (get (e_pmk e) 0 (e_pmk_len e)) as [pmk|] eqn:Eg; [|exfalso; revert Eg; unfold get, PMK_LEN in *; by replace ((0 <=? 0) && _ && _) with true by lia].
    rewrite bind_ok. cbn. by intros ? ? [= <- <-].
  - intros pm Hpm. cbn. split; [|done]. unfold wpa_mic_len. destruct (Z.eqb_spec (i_key_mgmt s) WPA_KEY_MGMT_IEEE8021X_SUITE_B_192) as [E|]; [|done].
    rewrite E in Hk. by rewrite Hb in Hk.
Qed.

(** the suites a station of the authenticator runs with, against what its element offers and the configuration allows *)
Record runs_with (conf : ie_config) (ie : list Z) (d : wpa_ie_data) (x : station) : Prop := {
  rw_key_mgmt : any_of (d_key_mgmt d) (num_of x wpa_key_mgmt) = true /\ any_of (c_wpa_key_mgmt conf) (num_of x wpa_key_mgmt) = true;
  rw_pairwise : any_of (d_pairwise_cipher d) (num_of x pairwise) = true /\
    any_of (if num_of x wpa =? WPA_VERSION_WPA2 then c_rsn_pairwise conf else c_wpa_pairwise conf) (num_of x pairwise) = true;
  rw_protected : c_ieee80211w conf = MGMT_FRAME_PROTECTION_REQUIRED ->
    flag_of x mgmt_frame_prot = true /\ num_of x pairwise <> WPA_CIPHER_TKIP;
  rw_ie : assoc_wpa_ie (WpaState.assoc x) = Some ie }.

Section Associates.
Context {ctx : Type} {BC : BlockCipher ctx} {BCL : BlockCipherLaws ctx} {DG : Digests} {DL : DigestsLaws} {DT : DigestsTotal}
  {ENV : WpaEnv} {EL : EnvLaws} (wconf : wpa_auth_config) (CO : conf_ok wconf).
(** the allocator gives memory for the copies of received frames *)
Context (frames_copied : forall t n, frame_copy_ok t n = true).

Lemma associates conf ie d a s i psks msk inp w x : ie_accepted conf ie d a s -> association_input i a s psks msk = Ok inp ->
  the_sta i w = Some x -> exists w1 x1, run_input wconf inp w = Ok w1 /\ the_sta i w1 = Some x1 /\ runs_with conf ie d x1.
Proof.
  intros [A1 [A2 [A3 _]] [A4 [A5 _]] _ A6 _] E Ex. unfold association_input in E. apply bind_ok_inv in E as (pm & _ & [= <-]).
  cbn [run_input]. rewrite (on_pure_ok _ _ _ _ Ex). eexists _, _. split; [done|]. split; [by eapply the_sta_put|].
  split; [by split|by split|done|exact A1].
Qed.

(** whatever follows: no undefined step, and keys only after a verified frame *)
Lemma continues ins w1 : at_rest wconf w1 -> Forall input_ok ins -> exists w2, run_inputs wconf ins w1 = Ok w2 /\ at_rest wconf w2 /\
  forall j y l1 l2 p key r, the_sta j w2 = Some y -> slog y = l1 ++ SetPairwiseKey p key r :: l2 -> verified wconf l2 p.
Proof.
  intros Hw Hin. pose proof (run_inputs_rest wconf CO frames_copied ins w1 Hin Hw) as H. apply safe_exists in H as (w2 & E & H).
  exists w2. split; [exact E|]. split; [exact H|]. intros j y l1 l2 p key r Ey El. destruct H as [[_ W2 _] _].
  pose proof (i_log _ _ (W2 j y Ey)) as Hlog. rewrite El in Hlog. exact (log_ok_split _ _ _ _ _ _ Hlog).
Qed.

(** C12: from the element to the keys.  When wpa_validate_wpa_ie accepts the
    element a station associates with, under a configuration without Suite B at
    192 bits, the state machine of that station runs with one key management
    suite and one pairwise cipher that both the element and the configuration
    allow, with frame protection where it is required, and with that element for
    the comparison in message 2; and whatever frames, timers and events follow,
    for any station, the authenticator does nothing undefined and sets a pairwise
    key only after a frame verified under its PTK.  The configuration of the
    authenticator is well formed, the caches are, and the allocator gives memory
    for the copies of the element and of received frames. *)
Theorem accepted_station_runs alloc new now conf caches ie a s l w x i psks msk v a' s' :
  bytes ie -> rep [] (m_pmksa a) l -> (forall p, new = Some p -> heap (m_pmksa a) !! p = None) ->
  Forall (fun c => exists l, rep [] c l) caches -> 0 <= now < 2 ^ 31 -> alloc (zlen ie) = true ->
  Z.land (c_wpa_key_mgmt conf) (table_mask rsn_key_mgmt_table) = c_wpa_key_mgmt conf ->
  any_of (c_wpa_key_mgmt conf) WPA_KEY_MGMT_IEEE8021X_SUITE_B_192 = false -> at_rest wconf w -> the_sta i w = Some x ->
  wpa_validate_wpa_ie alloc new now conf caches (Some ie) a s = Ok (v, a', s') -> v = WPA_IE_OK ->
  exists d inp w1 x1,
    (if hd 0 ie =? WLAN_EID_RSN then wpa_parse_wpa_ie_rsn ie else wpa_parse_wpa_ie_wpa ie) = Ok (0, d) /\
    association_input i a' s' psks msk = Ok inp /\ run_input wconf inp w = Ok w1 /\
    the_sta i w1 = Some x1 /\ runs_with conf ie d x1 /\
    forall ins, Forall input_ok ins -> exists w2, run_inputs wconf ins w1 = Ok w2 /\ at_rest wconf w2 /\
      forall j y l1 l2 p key r, the_sta j w2 = Some y -> slog y = l1 ++ SetPairwiseKey p key r :: l2 -> verified wconf l2 p.
Proof.
  intros Hb H Hnew Hcs Hnow Halloc Hakm Hsb Hw Ex E ->.
  assert (1 <= zlen ie) as Hl by (unfold wpa_validate_wpa_ie in E; destruct (Z.ltb_spec (zlen ie) 1); [discriminate|lia]).
  destruct (validated alloc new now conf caches ie a s l Hb Hl H Hnew Hcs Hnow Halloc Hakm) as (res & d & v & a1 & s1 & Ed & E' & Hiff & Hv & _).
  rewrite E in E'. injection E' as <- <- <-. destruct (proj1 Hiff eq_refl) as [-> _]. destruct (Hv eq_refl) as [Hacc [l' H']].
  pose proof (association_input_ok conf ie d a' s' l' i psks msk Hacc H' Hsb) as Hi. apply safe_exists in Hi as (inp & Ei & Hi).
  destruct (associates conf ie d a' s' i psks msk inp w x Hacc Ei Ex) as (w1 & x1 & E1 & Ex1 & Hr).
  pose proof (run_input_rest wconf CO frames_copied inp w Hi Hw) as Hw1. rewrite E1 in Hw1.
  exists d, inp, w1, x1. split; [exact Ed|]. split; [exact Ei|]. split; [exact E1|]. split; [exact Ex1|]. split; [exact Hr|].
  intros ins. by apply continues.
Qed.
End Associates.

(** ** A station *)

Module Station.
(** the PMKID of the station's entry in the cache of PmksaCache.v, and an element with it *)
Definition pmkid : list Z := Eval vm_compute in match heap sample_cache !! 3%positive with Some e => e_pmkid e | None => [] end.
Definition sta_ie : list Z := Eval vm_compute in rsn_ie Example.sta (Some pmkid).
Definition auth0 : ie_auth := mkIeAuth (sample_spa 9) 0 0 0 [] sample_cache.
Definition sta0 : ie_station := mkIeStation (sample_spa 1) 0 false 0 0 None None.

Definition result : M (validation * ie_auth * ie_station) :=
  wpa_validate_wpa_ie (fun _ => true) None 300 Example.ap [] (Some sta_ie) auth0 sta0.
Definition resumed : bool :=
  match result with
  | Ok (WPA_IE_OK, _, s) => bool_decide (i_pmksa s = Some 3%positive) && (i_key_mgmt s =? WPA_KEY_MGMT_IEEE8021X) && (i_pairwise s =? WPA_CIPHER_CCMP)
  | _ => false
  end.

Lemma sta_ie_bytes : bytes sta_ie.
Proof. apply (bool_decide_unpack _). by vm_compute. Qed.

(** the world with one station, before it associates *)
Definition init_after (start : M (option world)) : M world :=
  r ← start;
  match r with Some w => run_input (ctx := Z) (ENV := Sample.env) Sample.conf (InStaInit (seqZ 11 6)) w | None => Err NullDeref end.
Abbreviation one_station := (init_after (wpa_start (ctx := Z) (ENV := Sample.env) Sample.conf)).

Lemma init_after_rest start : safe start (fun r => forall w, r = Some w -> at_rest (ctx := Z) Sample.conf w) -> is_ok (init_after start) = true ->
  safe (init_after start) (at_rest (ctx := Z) Sample.conf).
Proof.
  destruct start as [[w|]|]; [|discriminate|done]. intros H _. cbn [init_after]. unfold init_after. rewrite bind_ok.
  exact (run_input_rest (ctx := Z) (EL := Sample.env_laws) Sample.conf Sample.conf_fits (fun _ _ => eq_refl) (InStaInit (seqZ 11 6)) w I (H w eq_refl)).
Qed.

Lemma one_station_rest : safe one_station (at_rest (ctx := Z) Sample.conf).
Proof.
  apply (init_after_rest (wpa_start (ctx := Z) (ENV := Sample.env) Sample.conf) (start_rest (ctx := Z) (EL := Sample.env_laws) Sample.conf Sample.conf_fits)). by vm_compute.
Qed.

(** the association of an accepted station is taken over *)
Definition taken : bool :=
  match result, one_station with
  | Ok (_, a, s), Ok w =>
      match (inp ← association_input 0 a s [] None; run_input (ctx := Z) (ENV := Sample.env) Sample.conf inp w) with
      | Ok w' => match the_sta 0 w' with Some x => num_of x wpa_key_mgmt =? WPA_KEY_MGMT_IEEE8021X | None => false end
      | Err _ => false
      end
  | _, _ => false
  end.
End Station.

Lemma validate_ie_correct_witness : exists a' s', Station.result = Ok (WPA_IE_OK, a', s') /\ i_pmksa s' = Some 3%positive /\ i_addr s' = sample_spa 1.
Proof.
  destruct (validate_ie_correct (fun _ => true) None 300 Example.ap [] Station.sta_ie Station.auth0 Station.sta0
    (foldl (fun l op => apply_op op l) [] sample_ops) Station.sta_ie_bytes) as
    (res & d & v & a' & s' & _ & E & _ & _ & _ & Haddr); [by vm_compute|exact sample_rep|done|by apply Forall_nil|done|done|by vm_compute|].
  assert (HK : Station.resumed = true) by by vm_compute. unfold Station.resumed, Station.result in *. rewrite E in HK |- *.
  destruct v; try discriminate HK. exists a', s'. split; [reflexivity|]. apply andb_prop in HK as [HK _]. apply andb_prop in HK as [HK _].
  split; [by apply bool_decide_eq_true in HK|exact Haddr].
Defined.

Lemma accepted_station_runs_witness : exists a' s' inp w1 x1, Station.result = Ok (WPA_IE_OK, a', s') /\
  association_input 0 a' s' [] None = Ok inp /\ the_sta 0 w1 = Some x1 /\
  any_of (c_wpa_key_mgmt Example.ap) (num_of x1 wpa_key_mgmt) = true /\ Station.taken = true.
Proof.
  destruct (proj1 (safe_exists _ _) Station.one_station_rest) as (w & Ew & Hw).
  assert (HK : Station.resumed = true) by by vm_compute. unfold Station.resumed in HK.
  assert (HX : match Station.one_station with Ok w => bool_decide (is_Some (the_sta 0 w)) | Err _ => false end = true) by by vm_compute.
  rewrite Ew in HX. apply bool_decide_eq_true in HX as [x Ex].
  destruct Station.result as [[[v a'] s']|] eqn:E; [|discriminate HK]. destruct v; try discriminate HK. exists a', s'. unfold Station.result in E.
  destruct (accepted_station_runs (ctx := Z) (EL := Sample.env_laws) Sample.conf Sample.conf_fits (fun _ _ => eq_refl) (fun _ => true) None 300 Example.ap []
    Station.sta_ie Station.auth0 Station.sta0 (foldl (fun l op => apply_op op l) [] sample_ops) w x 0 [] None WPA_IE_OK a' s' Station.sta_ie_bytes)
    as (d & inp & w1 & x1 & _ & Ei & _ & Ex1 & Hr & _); [exact sample_rep|intros p Ep; discriminate Ep|apply Forall_nil_2|split; [discriminate|reflexivity]|reflexivity|
      vm_compute; reflexivity|vm_compute; reflexivity|exact Hw|exact Ex|exact E|reflexivity|].
  exists inp, w1, x1. split; [reflexivity|]. split; [exact Ei|]. split; [exact Ex1|]. split; [apply Hr|vm_compute; reflexivity].
Defined.
