(* ===== verification/Radius.v ===== *)
(** * RADIUS messages (src/hostapd-2.5/src/radius/radius.c)

    A message is its buffer and the array of the offsets of its attributes;
    [attr_size] is the capacity of the array.  The header is the first twenty
    octets of the buffer.  A function that allocates takes the outcomes of its
    allocations, in order, as [ok]; one that computes a digest takes its failure
    as the backend's.  Dumping, the request authenticator (which hashes the
    clock) and the release of memory are left out. *)

From S2P Require Import Prelude CText HexText AesCtr EapolKey EapCommon.
Open Scope Z_scope.

(** ** radius.h *)

Definition RADIUS_CODE_ACCESS_REQUEST : Z := 1.
Definition RADIUS_CODE_ACCESS_ACCEPT : Z := 2.
Definition RADIUS_CODE_ACCESS_REJECT : Z := 3.
Definition RADIUS_CODE_ACCOUNTING_REQUEST : Z := 4.
Definition RADIUS_CODE_ACCOUNTING_RESPONSE : Z := 5.
Definition RADIUS_CODE_ACCESS_CHALLENGE : Z := 11.
Definition RADIUS_ATTR_USER_PASSWORD : Z := 2.
Definition RADIUS_ATTR_VENDOR_SPECIFIC : Z := 26.
Definition RADIUS_ATTR_TUNNEL_TYPE : Z := 64.
Definition RADIUS_ATTR_TUNNEL_MEDIUM_TYPE : Z := 65.
Definition RADIUS_ATTR_TUNNEL_PASSWORD : Z := 69.
Definition RADIUS_ATTR_EAP_MESSAGE : Z := 79.
Definition RADIUS_ATTR_MESSAGE_AUTHENTICATOR : Z := 80.
Definition RADIUS_ATTR_TUNNEL_PRIVATE_GROUP_ID : Z := 81.
Definition RADIUS_MAX_ATTR_LEN : Z := 253.
Definition RADIUS_DEFAULT_MSG_SIZE : Z := 1024.
Definition RADIUS_DEFAULT_ATTR_COUNT : Z := 16.
Definition RADIUS_VENDOR_ID_MICROSOFT : Z := 311.
Definition RADIUS_VENDOR_ATTR_MS_MPPE_SEND_KEY : Z := 16.
Definition RADIUS_VENDOR_ATTR_MS_MPPE_RECV_KEY : Z := 17.
Definition RADIUS_VENDOR_ID_CISCO : Z := 9.
Definition RADIUS_CISCO_AV_PAIR : Z := 1.
Definition RADIUS_VENDOR_ID_WFA : Z := 40808.
Definition RADIUS_TUNNEL_TYPE_VLAN : Z := 13.
Definition RADIUS_TUNNEL_MEDIUM_TYPE_802 : Z := 6.
Definition RADIUS_TUNNEL_TAGS : Z := 32.

(** sizeof(struct radius_hdr), sizeof(struct radius_attr_hdr), sizeof(struct radius_attr_vendor) *)
Definition radius_hdr_size : Z := 20.
Definition attr_hdr_size : Z := 2.
Definition vendor_hdr_size : Z := 2.

Record radius_msg := mkRadius { r_buf : wpabuf; attr_pos : list Z; attr_size : Z }.

Definition attr_used (m : radius_msg) : Z := zlen (attr_pos m).
Definition r_head (m : radius_msg) : list Z := wpabuf_head (r_buf m).
Definition set_head (d : list Z) (m : radius_msg) : radius_msg :=
  mkRadius (mkBuf (wpabuf_size (r_buf m)) d) (attr_pos m) (attr_size m).

(** the fields of the header: offsets of [length] and [authenticator] *)
Definition o_length : Z := 2.
Definition o_authenticator : Z := 4.
Definition get_authenticator (m : radius_msg) : M (list Z) := get (r_head m) o_authenticator MD5_MAC_LEN.
Definition set_authenticator (a : list Z) (m : radius_msg) : M radius_msg :=
  d ← blit (r_head m) o_authenticator a; Ok (set_head d m).
(** msg->hdr->length = host_to_be16(wpabuf_len(msg->buf)) *)
Definition set_length (m : radius_msg) : M radius_msg :=
  d ← blit (r_head m) o_length (to_be 2 (zlen (r_head m))); Ok (set_head d m).

(** the header of the attribute at an offset: type and length *)
Definition radius_get_attr_hdr (m : radius_msg) (pos : Z) : M (Z * Z) :=
  t ← rd (r_head m) pos; l ← rd (r_head m) (pos + 1); Ok (t, l).

(** ** Building *)

Definition radius_msg_initialize (ok : bool) (b : wpabuf) : option radius_msg :=
  if ok then Some (mkRadius b [] RADIUS_DEFAULT_ATTR_COUNT) else None.

Definition radius_msg_new (ok : nat -> bool) (code identifier : Z) : M (option radius_msg) :=
  if negb (ok 0%nat) then Ok None
  else match wpabuf_alloc (ok 1%nat) RADIUS_DEFAULT_MSG_SIZE with
  | None => Ok None
  | Some b =>
      match radius_msg_initialize (ok 2%nat) b with
      | None => Ok None
      | Some m =>
          b ← wpabuf_put_data (r_buf m) (replicate 20 0);
          d ← wr (wpabuf_head b) 0 (u8 code);
          d ← wr d 1 (u8 identifier);
          Ok (Some (mkRadius (mkBuf (wpabuf_size b) d) (attr_pos m) (attr_size m)))
      end
  end.

(** the array doubles when it is full *)
Definition radius_msg_add_attr_to_array (ok : bool) (pos : Z) (m : radius_msg) : radius_msg * Z :=
  if attr_size m <=? attr_used m then
    if ok then (mkRadius (r_buf m) (attr_pos m ++ [pos]) (attr_size m * 2), 0) else (m, -1)
  else (mkRadius (r_buf m) (attr_pos m ++ [pos]) (attr_size m), 0).

(** the offset of the new attribute, or [None] for NULL; an attribute that the array has no room for stays in the buffer *)
Definition radius_msg_add_attr (ok : nat -> bool) (type : Z) (data : list Z) (m : radius_msg) : M (option Z * radius_msg) :=
  if RADIUS_MAX_ATTR_LEN <? zlen data then Ok (None, m)
  else
    let buf_needed := attr_hdr_size + zlen data in
    let '(b, ret) := (if wpabuf_tailroom (r_buf m) <? buf_needed
                      then wpabuf_resize (ok 0%nat) (Some (r_buf m)) buf_needed else (Some (r_buf m), 0)) in
    match b with
    | None => Err NullDeref
    | Some b =>
        if ret <? 0 then Ok (None, mkRadius b (attr_pos m) (attr_size m))
        else
          let pos := wpabuf_len b in
          b ← wpabuf_put_u8 b type;
          b ← wpabuf_put_u8 b (attr_hdr_size + zlen data);
          b ← wpabuf_put_data b data;
          let '(m, ret) := radius_msg_add_attr_to_array (ok 1%nat) pos (mkRadius b (attr_pos m) (attr_size m)) in
          if negb (ret =? 0) then Ok (None, m) else Ok (Some pos, m)
    end.

(** an allocation oracle for the calls after the first [n] outcomes *)
Definition after_allocs (n : nat) (ok : nat -> bool) : nat -> bool := fun i => ok (n + i)%nat.

Fixpoint add_eap_loop (fuel : nat) (ok : nat -> bool) (data : list Z) (pos left_ : Z) (m : radius_msg) : M (Z * radius_msg) :=
  match fuel with
  | O => Err OutOfFuel
  | S fuel =>
      if 0 <? left_ then
        let len := (if RADIUS_MAX_ATTR_LEN <? left_ then RADIUS_MAX_ATTR_LEN else left_) in
        part ← get data pos len;
        '(attr, m) ← radius_msg_add_attr ok RADIUS_ATTR_EAP_MESSAGE part m;
        match attr with
        | None => Ok (0, m)
        | Some _ => add_eap_loop fuel (after_allocs 2 ok) data (pos + len) (left_ - len) m
        end
      else Ok (1, m)
  end.

(** the return value: 1 for success, 0 when an attribute could not be added *)
Definition radius_msg_add_eap (ok : nat -> bool) (data : list Z) (m : radius_msg) : M (Z * radius_msg) :=
  add_eap_loop (S (length data)) ok data 0 (zlen data) m.

(** ** Parsing *)

Fixpoint parse_attrs (fuel : nat) (ok : nat -> bool) (pos : Z) (m : radius_msg) : M (option radius_msg) :=
  match fuel with
  | O => Err OutOfFuel
  | S fuel =>
      let end_ := zlen (r_head m) in
      if pos <? end_ then
        if end_ - pos <? attr_hdr_size then Ok None
        else
          '(_, len) ← radius_get_attr_hdr m pos;
          if (end_ <? pos + len) || (len <? attr_hdr_size) then Ok None
          else
            let '(m, ret) := radius_msg_add_attr_to_array (ok 0%nat) pos m in
            if negb (ret =? 0) then Ok None else parse_attrs fuel (after_allocs 1 ok) (pos + len) m
      else Ok (Some m)
  end.

Definition radius_msg_parse (ok : nat -> bool) (data : list Z) : M (option radius_msg) :=
  if zlen data <? radius_hdr_size then Ok None
  else
    msg_len ← WPA_GET_BE16 data o_length;
    if (msg_len <? radius_hdr_size) || (zlen data <? msg_len) then Ok None
    else if negb (ok 0%nat) then Ok None
    else
      d ← get data 0 msg_len;
      b ← wpabuf_alloc_copy (ok 1%nat) d;
      match b with
      | None => Ok None
      | Some b =>
          match radius_msg_initialize (ok 2%nat) b with
          | None => Ok None
          | Some m => parse_attrs (S (Z.to_nat msg_len)) (after_allocs 3 ok) radius_hdr_size m
          end
      end.

(** ** Reading *)

Fixpoint eap_length (m : radius_msg) (ps : list Z) (len : Z) : M Z :=
  match ps with
  | [] => Ok len
  | p :: ps =>
      '(t, l) ← radius_get_attr_hdr m p;
      eap_length m ps (if (t =? RADIUS_ATTR_EAP_MESSAGE) && (attr_hdr_size <? l) then len + (l - attr_hdr_size) else len)
  end.
Fixpoint eap_fill (m : radius_msg) (ps : list Z) (eap : wpabuf) : M wpabuf :=
  match ps with
  | [] => Ok eap
  | p :: ps =>
      '(t, l) ← radius_get_attr_hdr m p;
      eap ← (if (t =? RADIUS_ATTR_EAP_MESSAGE) && (attr_hdr_size <? l)
             then d ← get (r_head m) (p + attr_hdr_size) (l - attr_hdr_size); wpabuf_put_data eap d else Ok eap);
      eap_fill m ps eap
  end.
Definition radius_msg_get_eap (ok : bool) (m : radius_msg) : M (option (list Z)) :=
  len ← eap_length m (attr_pos m) 0;
  if len =? 0 then Ok None
  else match wpabuf_alloc ok len with
  | None => Ok None
  | Some eap => eap ← eap_fill m (attr_pos m) eap; Ok (Some (wpabuf_head eap))
  end.

(** the first attribute of a type, after [start] when there is one: offset and length *)
Fixpoint find_attr (m : radius_msg) (type : Z) (start : option Z) (ps : list Z) : M (option (Z * Z)) :=
  match ps with
  | [] => Ok None
  | p :: ps =>
      '(t, l) ← radius_get_attr_hdr m p;
      if (t =? type) && (match start with None => true | Some s => s <? p end) then Ok (Some (p, l)) else find_attr m type start ps
  end.

(** the return value, and what is copied to a buffer of [len] octets *)
Definition radius_msg_get_attr (m : radius_msg) (type : Z) (buf : bool) (len : Z) : M (Z * list Z) :=
  r ← find_attr m type None (attr_pos m);
  match r with
  | None => Ok (-1, [])
  | Some (p, l) =>
      if l <? attr_hdr_size then Ok (-1, [])
      else
        let dlen := l - attr_hdr_size in
        if (buf : bool) then d ← get (r_head m) (p + attr_hdr_size) (if len <? dlen then len else dlen); Ok (dlen, d)
        else Ok (dlen, [])
  end.

Definition radius_msg_add_attr_int32 (ok : nat -> bool) (type value : Z) (m : radius_msg) : M (bool * radius_msg) :=
  '(attr, m) ← radius_msg_add_attr ok type (to_be 4 value) m;
  Ok (if attr is Some _ then true else false, m).

(** the value, or [None] for -1 *)
Definition radius_msg_get_attr_int32 (m : radius_msg) (type : Z) : M (option Z) :=
  '(res, d) ← radius_msg_get_attr m type true 4;
  Ok (if negb (res =? 4) then None else Some (be d)).

(** the offset and the length of the value *)
Definition radius_msg_get_attr_ptr (m : radius_msg) (type : Z) (start : option Z) : M (option (Z * Z)) :=
  r ← find_attr m type start (attr_pos m);
  match r with
  | None => Ok None
  | Some (p, l) => if l <? attr_hdr_size then Ok None else Ok (Some (p + attr_hdr_size, l - attr_hdr_size))
  end.

Fixpoint count_loop (m : radius_msg) (type min_len : Z) (ps : list Z) (count : Z) : M Z :=
  match ps with
  | [] => Ok count
  | p :: ps =>
      '(t, l) ← radius_get_attr_hdr m p;
      count_loop m type min_len ps (if (t =? type) && (u64 (attr_hdr_size + min_len) <=? l) then count + 1 else count)
  end.
Definition radius_msg_count_attr (m : radius_msg) (type min_len : Z) : M Z := count_loop m type min_len (attr_pos m) 0.

(** [None]: -1 *)
Fixpoint copy_loop (ok : nat -> bool) (dst src : radius_msg) (type : Z) (ps : list Z) (count : Z) : M (option Z * radius_msg) :=
  match ps with
  | [] => Ok (Some count, dst)
  | p :: ps =>
      '(t, l) ← radius_get_attr_hdr src p;
      if (t =? type) && (attr_hdr_size <=? l) then
        d ← get (r_head src) (p + attr_hdr_size) (l - attr_hdr_size);
        '(attr, dst) ← radius_msg_add_attr ok type d dst;
        match attr with
        | None => Ok (None, dst)
        | Some _ => copy_loop (after_allocs 2 ok) dst src type ps (count + 1)
        end
      else copy_loop ok dst src type ps count
  end.
Definition radius_msg_copy_attr (ok : nat -> bool) (dst src : radius_msg) (type : Z) : M (option Z * radius_msg) :=
  copy_loop ok dst src type (attr_pos src) 0.

(** [attrs] without its terminating 0 *)
Fixpoint unlisted_loop (m : radius_msg) (attrs : list Z) (ps : list Z) : M Z :=
  match ps with
  | [] => Ok 0
  | p :: ps => '(t, _) ← radius_get_attr_hdr m p; if existsb (Z.eqb t) attrs then unlisted_loop m attrs ps else Ok t
  end.
Definition radius_msg_find_unlisted_attr (m : radius_msg) (attrs : list Z) : M Z := unlisted_loop m attrs (attr_pos m).

(** the sub-attributes of a vendor's attribute from [pos]: the value of the first one of the subtype *)
Fixpoint vendor_loop (fuel : nat) (d : list Z) (subtype pos left_ : Z) : M (option (Z * Z)) :=
  match fuel with
  | O => Err OutOfFuel
  | S fuel =>
      if vendor_hdr_size <=? left_ then
        t ← rd d pos;
        l ← rd d (pos + 1);
        if (left_ <? l) || (l <? vendor_hdr_size) then Ok None
        else if negb (t =? subtype) then vendor_loop fuel d subtype (pos + l) (left_ - l)
        else Ok (Some (pos + vendor_hdr_size, l - vendor_hdr_size))
      else Ok None
  end.
Fixpoint find_vendor (m : radius_msg) (vendor subtype : Z) (ps : list Z) : M (option (Z * Z)) :=
  match ps with
  | [] => Ok None
  | p :: ps =>
      '(t, l) ← radius_get_attr_hdr m p;
      if negb (t =? RADIUS_ATTR_VENDOR_SPECIFIC) || (l <? attr_hdr_size) || (l - attr_hdr_size <? 4) then find_vendor m vendor subtype ps
      else
        id ← WPA_GET_BE32 (r_head m) (p + attr_hdr_size);
        if negb (id =? vendor) then find_vendor m vendor subtype ps
        else
          r ← vendor_loop 256 (r_head m) subtype (p + attr_hdr_size + 4) (l - attr_hdr_size - 4);
          match r with Some x => Ok (Some x) | None => find_vendor m vendor subtype ps end
  end.
Definition radius_msg_get_vendor_attr (ok : bool) (m : radius_msg) (vendor subtype : Z) : M (option (list Z)) :=
  r ← find_vendor m vendor subtype (attr_pos m);
  match r with
  | None => Ok None
  | Some (off, len) => if (ok : bool) then d ← get (r_head m) off len; Ok (Some d) else Ok None
  end.

(** radius_msg_get_vlanid: the tunnels by tag *)
Record radius_tunnel_attrs := mkTunnel { tag_used : Z; tun_type : Z; medium_type : Z; vlanid : Z }.

Definition tunnel_attr (m : radius_msg) (p t l : Z) (tuns : list radius_tunnel_attrs) : M (list radius_tunnel_attrs) :=
  let data := p + attr_hdr_size in
  let dlen := l - attr_hdr_size in
  tag ← rd (r_head m) data;
  let i := (if RADIUS_TUNNEL_TAGS <=? tag then 0 else tag) in
  tun ← rd tuns i;
  if t =? RADIUS_ATTR_TUNNEL_TYPE then
    if negb (l =? 6) then Ok tuns
    else v ← WPA_GET_BE24 (r_head m) (data + 1); wr tuns i (mkTunnel (tag_used tun + 1) v (medium_type tun) (vlanid tun))
  else if t =? RADIUS_ATTR_TUNNEL_MEDIUM_TYPE then
    if negb (l =? 6) then Ok tuns
    else v ← WPA_GET_BE24 (r_head m) (data + 1); wr tuns i (mkTunnel (tag_used tun + 1) (tun_type tun) v (vlanid tun))
  else if t =? RADIUS_ATTR_TUNNEL_PRIVATE_GROUP_ID then
    let '(data, dlen) := (if tag <? RADIUS_TUNNEL_TAGS then (data + 1, dlen - 1) else (data, dlen)) in
    if 10 <=? dlen then Ok tuns
    else
      buf ← get (r_head m) data dlen;
      v ← atoi (buf ++ [0]);
      wr tuns i (mkTunnel (tag_used tun + 1) (tun_type tun) (medium_type tun) v)
  else Ok tuns.

Fixpoint tunnel_loop (m : radius_msg) (ps : list Z) (tuns : list radius_tunnel_attrs) : M (option (list radius_tunnel_attrs)) :=
  match ps with
  | [] => Ok (Some tuns)
  | p :: ps =>
      '(t, l) ← radius_get_attr_hdr m p;
      if l <? attr_hdr_size then Ok None
      else if l <? 3 then tunnel_loop m ps tuns
      else tuns ← tunnel_attr m p t l tuns; tunnel_loop m ps tuns
  end.
Fixpoint first_vlan (tuns : list radius_tunnel_attrs) : Z :=
  match tuns with
  | [] => 0
  | t :: tuns =>
      if negb (tag_used t =? 0) && (tun_type t =? RADIUS_TUNNEL_TYPE_VLAN) && (medium_type t =? RADIUS_TUNNEL_MEDIUM_TYPE_802)
         && (0 <? vlanid t)
      then vlanid t else first_vlan tuns
  end.
Definition radius_msg_get_vlanid (m : radius_msg) : M Z :=
  r ← tunnel_loop m (attr_pos m) (replicate 32 (mkTunnel 0 0 0 0));
  match r with None => Ok (-1) | Some tuns => Ok (first_vlan tuns) end.

(** ** Authenticators *)

Section Crypto.
Context {DG : Digests} {MD : Md5}.

(** 0, or the -1 of a message longer than its length field can say *)
Definition too_long (m : radius_msg) : Z := if 0xffff <? zlen (r_head m) then -1 else 0.

(** a digest written over what is there, when the backend computes it *)
Definition put_digest (h : option (list Z)) (off : Z) (m : radius_msg) : M radius_msg :=
  match h with None => Ok m | Some h => d ← blit (r_head m) off h; Ok (set_head d m) end.

Definition radius_msg_finish (ok : nat -> bool) (secret : option (list Z)) (m : radius_msg) : M (Z * radius_msg) :=
  match secret with
  | Some secret =>
      '(attr, m) ← radius_msg_add_attr ok RADIUS_ATTR_MESSAGE_AUTHENTICATOR (replicate 16 0) m;
      match attr with
      | None => Ok (-1, m)
      | Some attr =>
          m ← set_length m;
          m ← put_digest (hmac_md5 secret (r_head m)) (attr + attr_hdr_size) m;
          Ok (too_long m, m)
      end
  | None => m ← set_length m; Ok (too_long m, m)
  end.

Definition radius_msg_finish_srv (ok : nat -> bool) (secret req_authenticator : list Z) (m : radius_msg) : M (Z * radius_msg) :=
  '(attr, m) ← radius_msg_add_attr ok RADIUS_ATTR_MESSAGE_AUTHENTICATOR (replicate 16 0) m;
  match attr with
  | None => Ok (-1, m)
  | Some attr =>
      m ← set_length m;
      m ← set_authenticator req_authenticator m;
      m ← put_digest (hmac_md5 secret (r_head m)) (attr + attr_hdr_size) m;
      first ← get (r_head m) 0 4;
      rest ← get (r_head m) radius_hdr_size (zlen (r_head m) - radius_hdr_size);
      m ← put_digest (md5_vector (first ++ req_authenticator ++ rest ++ secret)) o_authenticator m;
      Ok (too_long m, m)
  end.

Definition radius_msg_finish_das_resp (ok : nat -> bool) (secret req_authenticator : list Z) (m : radius_msg) : M (Z * radius_msg) :=
  '(attr, m) ← radius_msg_add_attr ok RADIUS_ATTR_MESSAGE_AUTHENTICATOR (replicate 16 0) m;
  match attr with
  | None => Ok (-1, m)
  | Some attr =>
      m ← set_length m;
      m ← set_authenticator req_authenticator m;
      m ← put_digest (hmac_md5 secret (r_head m)) (attr + attr_hdr_size) m;
      match md5_vector (r_head m ++ secret) with
      | None => Ok (-1, m)
      | Some h => m ← set_authenticator h m; Ok (too_long m, m)
      end
  end.

Definition radius_msg_finish_acct (secret : list Z) (m : radius_msg) : M radius_msg :=
  m ← set_length m;
  m ← set_authenticator (replicate 16 0) m;
  put_digest (md5_vector (r_head m ++ secret)) o_authenticator m.

Definition radius_msg_finish_acct_resp (secret req_authenticator : list Z) (m : radius_msg) : M radius_msg :=
  m ← set_length m;
  m ← set_authenticator req_authenticator m;
  put_digest (md5_vector (r_head m ++ secret)) o_authenticator m.

(** a digest that is compared: the local array is uninitialised when the backend fails *)
Definition computed (h : option (list Z)) : M (list Z) := match h with Some h => Ok h | None => Err Uninitialised end.

(** 0: the authenticator is the digest of the message around [auth] *)
Definition check_authenticator (secret auth : list Z) (m : radius_msg) : M Z :=
  first ← get (r_head m) 0 4;
  rest ← get (r_head m) radius_hdr_size (zlen (r_head m) - radius_hdr_size);
  hash ← computed (md5_vector (first ++ auth ++ rest ++ secret));
  a ← get_authenticator m;
  Ok (if bool_decide (hash = a) then 0 else 1).
Definition radius_msg_verify_acct_req (secret : list Z) (m : radius_msg) : M Z := check_authenticator secret (replicate 16 0) m.

(** the only Message-Authenticator: [None] when there are several *)
Fixpoint only_msg_auth (m : radius_msg) (ps : list Z) (found : option Z) : M (option (option Z)) :=
  match ps with
  | [] => Ok (Some found)
  | p :: ps =>
      '(t, _) ← radius_get_attr_hdr m p;
      if t =? RADIUS_ATTR_MESSAGE_AUTHENTICATOR then
        match found with Some _ => Ok None | None => only_msg_auth m ps (Some p) end
      else only_msg_auth m ps found
  end.

(** 0: the Message-Authenticator at [p] is the digest of the message with its value zero, and with the
    authenticator [auth] when there is one; the message is put back as it was *)
Definition check_msg_auth (secret : list Z) (auth : option (list Z)) (p : Z) (m : radius_msg) : M Z :=
  orig ← get (r_head m) (p + attr_hdr_size) MD5_MAC_LEN;
  d ← blit (r_head m) (p + attr_hdr_size) (replicate 16 0);
  d ← (match auth with None => Ok d | Some a => blit d o_authenticator a end);
  h ← computed (hmac_md5 secret d);
  Ok (if bool_decide (orig = h) then 0 else 1).

Definition radius_msg_verify_das_req (secret : list Z) (m : radius_msg) : M Z :=
  r ← check_authenticator secret (replicate 16 0) m;
  if negb (r =? 0) then Ok 1
  else
    found ← only_msg_auth m (attr_pos m) None;
    match found with
    | None => Ok 1
    | Some None => Ok 0
    | Some (Some p) => check_msg_auth secret (Some (replicate 16 0)) p m
    end.

Definition radius_msg_verify_msg_auth (secret : list Z) (req_auth : option (list Z)) (m : radius_msg) : M Z :=
  found ← only_msg_auth m (attr_pos m) None;
  match found with
  | Some (Some p) => check_msg_auth secret req_auth p m
  | _ => Ok 1
  end.

Definition radius_msg_verify (secret : list Z) (sent_msg : option radius_msg) (auth : bool) (m : radius_msg) : M Z :=
  match sent_msg with
  | None => Ok 1
  | Some sent =>
      a ← get_authenticator sent;
      r ← (if (auth : bool) then radius_msg_verify_msg_auth secret (Some a) m else Ok 0);
      if negb (r =? 0) then Ok 1 else check_authenticator secret a m
  end.

(** ** Hidden values *)

(** one block of 16 octets: the key stream of the octets [seed] *)
Definition stream_block (secret seed : list Z) : M (list Z) := computed (md5_vector (secret ++ seed)).

(** decrypt_ms_key: the plain text, from the blocks of the cipher text *)
Fixpoint decrypt_blocks (fuel : nat) (secret seed c : list Z) : M (list Z) :=
  match fuel with
  | O => Err OutOfFuel
  | S fuel =>
      if 0 <? zlen c then
        b ← get c 0 16;
        hash ← stream_block secret seed;
        rest ← decrypt_blocks fuel secret b (drop 16 c);
        Ok (zip_with Z.lxor b hash ++ rest)
      else Ok []
  end.

Definition decrypt_ms_key (ok : nat -> bool) (key req_authenticator secret : list Z) : M (option (list Z)) :=
  if zlen key <? 2 + 16 then Ok None
  else if negb ((zlen key - 2) mod 16 =? 0) then Ok None
  else if negb (ok 0%nat) then Ok None
  else
    salt ← get key 0 2;
    c ← get key 2 (zlen key - 2);
    plain ← decrypt_blocks (S (length c)) secret (req_authenticator ++ salt) c;
    n ← rd plain 0;
    if (n =? 0) || (zlen plain - 1 <? n) then Ok None
    else if negb (ok 1%nat) then Ok None
    else res ← get plain 1 n; Ok (Some res).

(** encrypt_ms_key: the cipher text, from the padded key *)
Fixpoint encrypt_blocks (fuel : nat) (secret seed p : list Z) (len : Z) : M (list Z) :=
  match fuel with
  | O => Err OutOfFuel
  | S fuel =>
      if 0 <? len then
        b ← get p 0 16;
        hash ← stream_block secret seed;
        let c := zip_with Z.lxor b hash in
        rest ← encrypt_blocks fuel secret c (drop 16 p) (len - 16);
        Ok (c ++ rest)
      else Ok p
  end.

(** [ebuf] has room for the key and 16 octets more; what is written of it, and [elen] *)
Definition encrypt_ms_key (key : list Z) (salt : Z) (req_authenticator secret : list Z) : M (list Z * Z) :=
  let len := 1 + zlen key in
  let len := (if negb (Z.land len 0x0f =? 0) then Z.land len 0xf0 + 16 else len) in
  ebuf ← blit (replicate (Z.to_nat (zlen key + 16)) 0) 0 (replicate (Z.to_nat len) 0);
  ebuf ← wr ebuf 0 (u8 (zlen key));
  ebuf ← blit ebuf 1 key;
  ebuf ← encrypt_blocks (S (Z.to_nat len)) secret (req_authenticator ++ to_be 2 salt) ebuf len;
  Ok (ebuf, len).

Definition vendor_header (vendor type len : Z) : list Z := to_be 4 vendor ++ [type; u8 len].

(** one MS-MPPE key: the attribute's value is the vendor's header, the salt and the key; [rm] is the outcome of [os_malloc] *)
Definition add_mppe_key (ok : nat -> bool) (type salt : Z) (req_authenticator secret key : list Z) (m : radius_msg)
    : M (bool * radius_msg) :=
  if negb (ok 0%nat) then Ok (false, m)
  else
    '(ebuf, elen) ← encrypt_ms_key key salt req_authenticator secret;
    e ← get ebuf 0 elen;
    let hlen := 4 + vendor_hdr_size + 2 in
    '(attr, m) ← radius_msg_add_attr (after_allocs 1 ok) RADIUS_ATTR_VENDOR_SPECIFIC
      (vendor_header RADIUS_VENDOR_ID_MICROSOFT type (hlen + elen - 4) ++ to_be 2 salt ++ e) m;
    Ok (if attr is Some _ then true else false, m).

(** [random]: os_random() *)
Definition radius_msg_add_mppe_keys (ok : nat -> bool) (random : Z) (req_authenticator secret send_key recv_key : list Z) (m : radius_msg)
    : M (Z * radius_msg) :=
  let salt := u16 (Z.lor random 0x8000) in
  '(added, m) ← add_mppe_key ok RADIUS_VENDOR_ATTR_MS_MPPE_SEND_KEY salt req_authenticator secret send_key m;
  if negb (added : bool) then Ok (0, m)
  else
    '(added, m) ← add_mppe_key (after_allocs 3 ok) RADIUS_VENDOR_ATTR_MS_MPPE_RECV_KEY (Z.lxor salt 1) req_authenticator secret recv_key m;
    Ok (if (added : bool) then 1 else 0, m).

Definition radius_msg_add_wfa (ok : nat -> bool) (subtype : Z) (data : list Z) (m : radius_msg) : M (Z * radius_msg) :=
  if negb (ok 0%nat) then Ok (0, m)
  else
    '(attr, m) ← radius_msg_add_attr (after_allocs 1 ok) RADIUS_ATTR_VENDOR_SPECIFIC
      (vendor_header RADIUS_VENDOR_ID_WFA (u8 subtype) (2 + zlen data) ++ data) m;
    Ok (if attr is Some _ then 1 else 0, m).

Record radius_ms_mppe_keys := mkMppe { k_send : option (list Z); k_recv : option (list Z) }.

Definition decrypt_attr (ok : nat -> bool) (m : radius_msg) (type : Z) (auth secret : list Z) : M (option (list Z)) :=
  key ← radius_msg_get_vendor_attr (ok 0%nat) m RADIUS_VENDOR_ID_MICROSOFT type;
  match key with None => Ok None | Some key => decrypt_ms_key (after_allocs 1 ok) key auth secret end.

Definition radius_msg_get_ms_keys (ok : nat -> bool) (msg sent_msg : radius_msg) (secret : list Z) : M (option radius_ms_mppe_keys) :=
  if negb (ok 0%nat) then Ok None
  else
    auth ← get_authenticator sent_msg;
    send ← decrypt_attr (after_allocs 1 ok) msg RADIUS_VENDOR_ATTR_MS_MPPE_SEND_KEY auth secret;
    recv ← decrypt_attr (after_allocs 4 ok) msg RADIUS_VENDOR_ATTR_MS_MPPE_RECV_KEY auth secret;
    Ok (Some (mkMppe send recv)).

Definition radius_msg_get_cisco_keys (ok : nat -> bool) (msg sent_msg : radius_msg) (secret : list Z) : M (option radius_ms_mppe_keys) :=
  if negb (ok 0%nat) then Ok None
  else
    key ← radius_msg_get_vendor_attr (ok 1%nat) msg RADIUS_VENDOR_ID_CISCO RADIUS_CISCO_AV_PAIR;
    match key with
    | Some key =>
        if zlen key =? 51 then
          prefix ← get key 0 17;
          if bool_decide (prefix = str "leap:session-key=") then
            auth ← get_authenticator sent_msg;
            k ← get key 17 (51 - 17);
            recv ← decrypt_ms_key (after_allocs 2 ok) k auth secret;
            Ok (Some (mkMppe None recv))
          else Ok (Some (mkMppe None None))
        else Ok (Some (mkMppe None None))
    | None => Ok (Some (mkMppe None None))
    end.

(** ** Passwords *)

Fixpoint hide_blocks (fuel : nat) (secret : list Z) (pos buf_len : Z) (buf : list Z) : M (list Z) :=
  match fuel with
  | O => Err OutOfFuel
  | S fuel =>
      if pos <? buf_len then
        prev ← get buf (pos - 16) 16;
        hash ← stream_block secret prev;
        b ← get buf pos 16;
        buf ← blit buf pos (zip_with Z.lxor b hash);
        hide_blocks fuel secret (pos + 16) buf_len buf
      else Ok buf
  end.

(** the return value and the buffer; [buf] is its content before the call *)
Definition radius_user_password_hide (m : radius_msg) (data secret buf : list Z) : M (Z * list Z) :=
  if zlen buf <? zlen data + 16 then Ok (-1, buf)
  else
    let buf_size := zlen buf in
    buf ← blit buf 0 data;
    let padlen := zlen data mod 16 in
    '(buf, buf_len) ← (if negb (padlen =? 0) && (zlen data <? buf_size) then
                         b ← blit buf (zlen data) (replicate (Z.to_nat (16 - padlen)) 0);
                         Ok (b, zlen data + (16 - padlen))
                       else Ok (buf, zlen data));
    a ← get_authenticator m;
    hash ← stream_block secret a;
    b ← get buf 0 16;
    buf ← blit buf 0 (zip_with Z.lxor b hash);
    buf ← hide_blocks (S (Z.to_nat buf_len)) secret 16 buf_len buf;
    Ok (buf_len, buf).

(** [stack]: what the local buffer of 128 octets holds *)
Definition radius_msg_add_attr_user_password (ok : nat -> bool) (data secret stack : list Z) (m : radius_msg) : M (option Z * radius_msg) :=
  '(res, buf) ← radius_user_password_hide m data secret stack;
  if res <? 0 then Ok (None, m)
  else d ← get buf 0 res; radius_msg_add_attr ok RADIUS_ATTR_USER_PASSWORD d m.

(** the [n]-th attribute that can be a Tunnel-Password *)
Fixpoint find_tunnel_password (m : radius_msg) (n : Z) (ps : list Z) (j : Z) : M (option (Z * Z)) :=
  match ps with
  | [] => Ok None
  | p :: ps =>
      '(t, l) ← radius_get_attr_hdr m p;
      let dlen := l - attr_hdr_size in
      if negb (t =? RADIUS_ATTR_TUNNEL_PASSWORD) || (l <=? 5) || (dlen <=? 3) || negb (dlen mod 16 =? 3) then find_tunnel_password m n ps j
      else if j + 1 <=? n then find_tunnel_password m n ps (j + 1)
      else Ok (Some (p + attr_hdr_size, dlen))
  end.

(** the blocks from the last one back to the second *)
Fixpoint tunnel_blocks (fuel : nat) (secret : list Z) (pos : Z) (buf : list Z) : M (list Z * Z) :=
  match fuel with
  | O => Err OutOfFuel
  | S fuel =>
      if 3 + 16 <=? pos then
        prev ← get buf (pos - 16) 16;
        hash ← stream_block secret prev;
        b ← get buf pos 16;
        buf ← blit buf pos (zip_with Z.lxor b hash);
        tunnel_blocks fuel secret (pos - 16) buf
      else Ok (buf, pos)
  end.

Definition radius_msg_get_tunnel_password (ok : nat -> bool) (secret : list Z) (sent_msg : radius_msg) (n : Z) (m : radius_msg)
    : M (option (list Z)) :=
  found ← find_tunnel_password m n (attr_pos m) 0;
  match found with
  | None => Ok None
  | Some (off, buflen) =>
      if negb (ok 0%nat) then Ok None
      else
        buf ← get (r_head m) off buflen;
        '(buf, pos) ← tunnel_blocks (S (Z.to_nat buflen)) secret (buflen - 16) buf;
        if negb (pos =? 3) then Ok None
        else
          a ← get_authenticator sent_msg;
          salt ← get buf 1 2;
          hash ← stream_block secret (a ++ salt);
          b ← get buf 3 16;
          buf ← blit buf 3 (zip_with Z.lxor b hash);
          keylen ← rd buf 3;
          if buflen <=? 3 + keylen then Ok None
          else if keylen =? 0 then Ok None
          else if negb (ok 1%nat) then Ok None
          else ret ← get buf 4 keylen; Ok (Some ret)
  end.
End Crypto.
