(* ===== verification/RadiusSpec.v ===== *)
(** * RADIUS messages as lists of attributes

    What radius.c's buffers and arrays stand for: a header and a list of
    attributes.  Building, parsing and reading are proved against the list; the
    authenticators and the hidden values against RFC 2865, 2868, 2869 and 2548. *)

From S2P Require Import Prelude CText HexText AesCtr EapolKey EapCommon WpaSafe Radius.
Open Scope Z_scope.

(** ** The list of attributes *)

Definition attribute : Type := (Z * list Z).
Definition attribute_ok (a : attribute) : Prop := is_byte (fst a) /\ bytes (snd a) /\ zlen (snd a) <= RADIUS_MAX_ATTR_LEN.
Definition attribute_bytes (a : attribute) : list Z := [fst a; attr_hdr_size + zlen (snd a)] ++ snd a.
Fixpoint attributes_bytes (l : list attribute) : list Z :=
  match l with [] => [] | a :: l => attribute_bytes a ++ attributes_bytes l end.
Fixpoint positions (pos : Z) (l : list attribute) : list Z :=
  match l with [] => [] | a :: l => pos :: positions (pos + zlen (attribute_bytes a)) l end.

Record represents (m : radius_msg) (h : list Z) (l : list attribute) : Prop := {
  rep_head : r_head m = h ++ attributes_bytes l;
  rep_hdr : zlen h = radius_hdr_size;
  rep_pos : attr_pos m = positions radius_hdr_size l;
  rep_size : zlen (r_head m) <= wpabuf_size (r_buf m);
  rep_array : 0 < attr_size m }.

Lemma zlen_attribute a : zlen (attribute_bytes a) = 2 + zlen (snd a).
Proof. unfold attribute_bytes. rewrite zlen_app. done. Qed.
Lemma attributes_app l1 l2 : attributes_bytes (l1 ++ l2) = attributes_bytes l1 ++ attributes_bytes l2.
Proof. induction l1 as [|a l1 IH]; [done|]. cbn [app attributes_bytes]. by rewrite IH, app_assoc. Qed.
Lemma positions_app pos l1 l2 : positions pos (l1 ++ l2) = positions pos l1 ++ positions (pos + zlen (attributes_bytes l1)) l2.
Proof.
  revert pos. induction l1 as [|a l1 IH]; intros pos; cbn [app positions attributes_bytes].
  - by rewrite zlen_nil, Z.add_0_r.
  - rewrite IH, zlen_app. do 3 f_equal. lia.
Qed.
Lemma bytes_attributes l : Forall attribute_ok l -> bytes (attributes_bytes l).
Proof.
  induction 1 as [|[t d] l (Ht & Hd & Hn) _ IH]; [constructor|]. cbn [attributes_bytes attribute_bytes fst snd] in *.
  pose proof (zlen_nonneg d). apply Forall_app. split; [|done].
  apply Forall_cons; [done|]. apply Forall_cons; [|done]. cbn [snd]. unfold is_byte, attr_hdr_size, RADIUS_MAX_ATTR_LEN in *. lia.
Qed.

(** an attribute in its place *)
Lemma attr_hdr_at m pre a post p : r_head m = pre ++ attribute_bytes a ++ post -> p = zlen pre ->
  radius_get_attr_hdr m p = Ok (fst a, attr_hdr_size + zlen (snd a)) /\
  get (r_head m) (p + attr_hdr_size) (zlen (snd a)) = Ok (snd a).
Proof.
  intros E ->. unfold radius_get_attr_hdr, attribute_bytes in *. rewrite E. cbn [app]. split.
  - rewrite (rd_at pre _ _ (zlen pre)), bind_ok by done.
    change (fst a :: ?x :: snd a ++ post) with ([fst a] ++ x :: snd a ++ post). rewrite app_assoc.
    by rewrite (rd_at (pre ++ [fst a]) _ _ (zlen pre + 1)), bind_ok by by rewrite zlen_app.
  - replace (pre ++ fst a :: attr_hdr_size + zlen (snd a) :: snd a ++ post)
      with ((pre ++ [fst a; attr_hdr_size + zlen (snd a)]) ++ snd a ++ post) by by rewrite <- app_assoc.
    apply get_app; [|done]. by rewrite zlen_app.
Qed.

(** ** Reading *)

(** the octets before the attributes still to come *)
Ltac next_attribute H a p :=
  destruct (attr_hdr_at _ _ a _ p H eq_refl) as [?Ehdr ?Eget]; rewrite Ehdr, bind_ok.

Definition eap_data (l : list attribute) : list Z :=
  concat (map (fun a => if fst a =? RADIUS_ATTR_EAP_MESSAGE then snd a else []) l).

Lemma advance (pre : list Z) a l post : (pre ++ attributes_bytes (a :: l) ++ post) = ((pre ++ attribute_bytes a) ++ attributes_bytes l ++ post).
Proof. cbn [attributes_bytes]. by rewrite <- !app_assoc. Qed.

Lemma eap_length_spec m l pre post len : r_head m = pre ++ attributes_bytes l ++ post ->
  eap_length m (positions (zlen pre) l) len = Ok (len + zlen (eap_data l)).
Proof.
  revert pre len. induction l as [|a l IH]; intros pre len E; cbn [positions eap_length].
  - change (eap_data []) with (@nil Z). by rewrite zlen_nil, Z.add_0_r.
  - rewrite advance in E. pose proof E as E'. rewrite <- app_assoc in E'. next_attribute E' a (zlen pre).
    replace (zlen pre + zlen (attribute_bytes a)) with (zlen (pre ++ attribute_bytes a)) by by rewrite zlen_app.
    rewrite IH by done. f_equal. unfold eap_data. cbn [map concat]. rewrite zlen_app. pose proof (zlen_nonneg (snd a)).
    unfold attr_hdr_size. destruct (fst a =? RADIUS_ATTR_EAP_MESSAGE); cbn [andb]; [|rewrite zlen_nil; lia].
    destruct (Z.ltb_spec 2 (2 + zlen (snd a))); lia.
Qed.

Lemma eap_fill_spec m l pre post size d : r_head m = pre ++ attributes_bytes l ++ post -> zlen d + zlen (eap_data l) <= size ->
  eap_fill m (positions (zlen pre) l) (mkBuf size d) = Ok (mkBuf size (d ++ eap_data l)).
Proof.
  revert pre d. induction l as [|a l IH]; intros pre d E Hs; cbn [positions eap_fill].
  - change (eap_data []) with (@nil Z). by rewrite app_nil_r.
  - rewrite advance in E. pose proof E as E'. rewrite <- app_assoc in E'. next_attribute E' a (zlen pre).
    replace (zlen pre + zlen (attribute_bytes a)) with (zlen (pre ++ attribute_bytes a)) by by rewrite zlen_app.
    unfold eap_data in *. cbn [map concat] in *. rewrite zlen_app in Hs. pose proof (zlen_nonneg (snd a)). pose proof (zlen_nonneg (eap_data l)).
    unfold attr_hdr_size, eap_data in *. destruct (fst a =? RADIUS_ATTR_EAP_MESSAGE) eqn:Et; rewrite ?Et in Hs; cbn [andb]; [|rewrite bind_ok, IH; [done|done|rewrite zlen_nil in Hs; lia]].
    destruct (Z.ltb_spec 2 (2 + zlen (snd a))).
    + rewrite Z.add_simpl_l, Eget, bind_ok, put_ok_app, bind_ok by lia. rewrite IH; [by rewrite <- app_assoc|done|rewrite zlen_app; lia].
    + assert (snd a = []) as -> by (apply nil_length_inv; unfold zlen in *; lia). rewrite bind_ok, IH; [done|done|lia].
Qed.

Lemma positions_hdr (h : list Z) l : zlen h = radius_hdr_size -> positions radius_hdr_size l = positions (zlen h) l.
Proof. by intros ->. Qed.

Lemma get_eap_spec m h l ok : represents m h l ->
  radius_msg_get_eap ok m = Ok (if (ok : bool) then (if zlen (eap_data l) =? 0 then None else Some (eap_data l)) else None).
Proof.
  intros [Eh Hh Ep _ _]. assert (r_head m = h ++ attributes_bytes l ++ []) as E by by rewrite app_nil_r.
  unfold radius_msg_get_eap. rewrite Ep, (positions_hdr h) by done. rewrite (eap_length_spec m l h []), bind_ok, Z.add_0_l by done.
  destruct (Z.eqb_spec (zlen (eap_data l)) 0); [by destruct ok|]. unfold wpabuf_alloc. destruct ok; [|done].
  rewrite (eap_fill_spec m l h []), bind_ok; [done|done|rewrite zlen_nil; lia].
Qed.

(** the first attribute of a type *)
Definition no_type (t : Z) (l : list attribute) : Prop := Forall (fun a => fst a <> t) l.
Lemma find_attr_none m t l pre post : no_type t l -> r_head m = pre ++ attributes_bytes l ++ post ->
  find_attr m t None (positions (zlen pre) l) = Ok None.
Proof.
  intros Hl. revert pre. induction Hl as [|a l Ha _ IH]; intros pre E; [done|]. cbn [positions find_attr].
  rewrite advance in E. pose proof E as E'. rewrite <- app_assoc in E'. next_attribute E' a (zlen pre).
  rewrite (proj2 (Z.eqb_neq _ _) Ha). cbn [andb].
  replace (zlen pre + zlen (attribute_bytes a)) with (zlen (pre ++ attribute_bytes a)) by by rewrite zlen_app. by apply IH.
Qed.
Lemma find_attr_some m t (l1 : list attribute) v (l2 : list attribute) pre post : no_type t l1 -> r_head m = pre ++ attributes_bytes (l1 ++ (t, v) :: l2) ++ post ->
  find_attr m t None (positions (zlen pre) (l1 ++ (t, v) :: l2)) = Ok (Some (zlen (pre ++ attributes_bytes l1), attr_hdr_size + zlen v)) /\
  get (r_head m) (zlen (pre ++ attributes_bytes l1) + attr_hdr_size) (zlen v) = Ok v.
Proof.
  intros Hl. revert pre. induction Hl as [|a l1 Ha _ IH]; intros pre E.
  - cbn [app positions find_attr attributes_bytes] in *. rewrite app_nil_r, <- app_assoc in *.
    destruct (attr_hdr_at m pre (t, v) _ (zlen pre) E eq_refl) as [-> Eg]. rewrite bind_ok. cbn [fst snd] in *. rewrite Z.eqb_refl. done.
  - cbn [app positions find_attr attributes_bytes] in *. rewrite <- !app_assoc in *.
    destruct (attr_hdr_at m pre a _ (zlen pre) E eq_refl) as [-> _]. rewrite bind_ok, (proj2 (Z.eqb_neq _ _) Ha). cbn [andb].
    replace (zlen pre + zlen (attribute_bytes a)) with (zlen (pre ++ attribute_bytes a)) by by rewrite zlen_app.
    rewrite !(app_assoc pre). apply IH. by rewrite <- app_assoc.
Qed.
Lemma get_attr_spec m h (l1 : list attribute) t v (l2 : list attribute) len : represents m h (l1 ++ (t, v) :: l2) -> no_type t l1 -> zlen v <= len ->
  radius_msg_get_attr m t true len = Ok (zlen v, v).
Proof.
  intros [E Hz Ep _ _] Hl Hv. unfold radius_msg_get_attr. rewrite Ep, (positions_hdr h) by done.
  assert (r_head m = h ++ attributes_bytes (l1 ++ (t, v) :: l2) ++ []) as E0 by by rewrite app_nil_r.
  destruct (find_attr_some m t l1 v l2 h [] Hl E0) as [-> Eg]. rewrite bind_ok. pose proof (zlen_nonneg v). unfold attr_hdr_size in *.
  replace (2 + zlen v <? 2) with false by lia. cbv zeta. rewrite Z.add_simpl_l. destruct (Z.ltb_spec len (zlen v)); [lia|]. by rewrite Eg.
Qed.

(** ** Building *)

Definition no_failure (ok : nat -> bool) : Prop := forall i, ok i = true.
Lemma no_failure_after n ok : no_failure ok -> no_failure (after_allocs n ok).
Proof. intros H i. apply H. Qed.

Lemma to_array_ok ok pos m : 0 < attr_size m ->
  exists m' r, radius_msg_add_attr_to_array ok pos m = (m', r) /\ r_buf m' = r_buf m /\ 0 < attr_size m' /\
    (r = 0 /\ attr_pos m' = attr_pos m ++ [pos] \/ r = -1 /\ ok = false).
Proof.
  intros H. unfold radius_msg_add_attr_to_array. destruct (_ <=? _); [destruct ok|]; do 2 eexists; (split; [reflexivity|]); cbn;
    (split; [done|]); (split; [lia|]); auto.
Qed.

Lemma resize_ok ok b n : 0 <= n -> zlen (wpabuf_head b) <= wpabuf_size b ->
  exists b' ret, (if wpabuf_tailroom b <? n then wpabuf_resize ok (Some b) n else (Some b, 0)) = (Some b', ret) /\
    wpabuf_head b' = wpabuf_head b /\ zlen (wpabuf_head b') <= wpabuf_size b' /\
    (ret = 0 /\ zlen (wpabuf_head b') + n <= wpabuf_size b' \/ ret = -1 /\ ok = false).
Proof.
  intros Hn Hb. unfold wpabuf_tailroom, wpabuf_resize, wpabuf_len. destruct (Z.ltb_spec (wpabuf_size b - zlen (wpabuf_head b)) n).
  - destruct (Z.ltb_spec (wpabuf_size b) (zlen (wpabuf_head b) + n)); [|lia]. destruct ok; do 2 eexists; (split; [reflexivity|]); cbn;
      (split; [done|]); (split; [lia|]); [left; split; [done|lia]|by right].
  - exists b, 0. split; [done|]. split; [done|]. split; [done|]. left. split; [done|lia].
Qed.

Lemma add_attr_spec ok t d m h l : represents m h l -> is_byte t -> zlen d <= RADIUS_MAX_ATTR_LEN ->
  exists r m', radius_msg_add_attr ok t d m = Ok (r, m') /\
    match r with
    | Some pos => pos = zlen (r_head m) /\ represents m' h (l ++ [(t, d)])
    | None => ok 0%nat = false \/ ok 1%nat = false
    end.
Proof.
  intros [Eh Hh Ep Hs Ha] Ht Hd. unfold radius_msg_add_attr. replace (RADIUS_MAX_ATTR_LEN <? zlen d) with false by lia. cbv zeta.
  pose proof (zlen_nonneg d). unfold attr_hdr_size.
  destruct (resize_ok (ok 0%nat) (r_buf m) (2 + zlen d)) as (b & ret & -> & Eb & Hsb & Hret); [lia|exact Hs|].
  destruct Hret as [[-> Hroom]|[-> Hf]]; [|by do 2 eexists; split; [reflexivity|left]].
  cbn [Z.ltb Z.compare]. unfold wpabuf_put_u8, wpabuf_len. destruct b as [size head]. cbn [wpabuf_head wpabuf_size] in *.
  assert (forall v, zlen [u8 v] = 1) as H1 by done. assert (u8 t = t) as -> by (apply u8_small; exact Ht).
  assert (zlen [t] = 1) as H1t by done.
  assert (u8 (2 + zlen d) = 2 + zlen d) as -> by (apply u8_small; unfold RADIUS_MAX_ATTR_LEN in Hd; lia).
  assert (zlen [2 + zlen d] = 1) as H1d by done.
  rewrite put_ok_app, bind_ok by lia. rewrite put_ok_app, bind_ok by (rewrite zlen_app; lia).
  rewrite put_ok_app, bind_ok by (rewrite !zlen_app; lia).
  destruct (to_array_ok (ok 1%nat) (zlen head) (mkRadius (mkBuf size (((head ++ [t]) ++ [2 + zlen d]) ++ d)) (attr_pos m) (attr_size m)) Ha)
    as (m' & r & -> & Eb' & Ha' & [[-> Ep']|[-> Hf]]); [|by do 2 eexists; split; [reflexivity|right]].
  do 2 eexists. split; [reflexivity|]. unfold r_head in *. split; [by rewrite Eb|]. split.
  - unfold r_head. rewrite Eb'. cbn [r_buf wpabuf_head]. rewrite Eb, Eh, attributes_app. cbn [attributes_bytes attribute_bytes fst snd].
    rewrite app_nil_r. by rewrite <- !app_assoc.
  - done.
  - rewrite Ep'. cbn [attr_pos]. rewrite Ep, positions_app. do 2 f_equal. cbn [positions]. rewrite Eb, Eh, zlen_app. by rewrite Hh.
  - unfold r_head. rewrite Eb'. cbn [r_buf wpabuf_head wpabuf_size]. rewrite !zlen_app. lia.
  - done.
Qed.

(** the attributes that carry an EAP message *)
Fixpoint eap_chunks (fuel : nat) (d : list Z) : list attribute :=
  match fuel, d with
  | S fuel, _ :: _ => (RADIUS_ATTR_EAP_MESSAGE, take 253 d) :: eap_chunks fuel (drop 253 d)
  | _, _ => []
  end.

Lemma eap_chunks_data fuel d : (length d < fuel)%nat -> eap_data (eap_chunks fuel d) = d.
Proof.
  revert d. induction fuel as [|fuel IH]; intros d Hf; [lia|]. destruct d as [|x d]; [done|]. cbn [eap_chunks].
  unfold eap_data in *. cbn [map concat fst snd]. rewrite Z.eqb_refl, IH; [apply take_drop|]. rewrite length_drop. cbn [length] in *. lia.
Qed.
Lemma eap_chunks_ok fuel d : bytes d -> Forall attribute_ok (eap_chunks fuel d).
Proof.
  revert d. induction fuel as [|fuel IH]; intros d Hd; [constructor|]. destruct d as [|x d]; [constructor|]. cbn [eap_chunks].
  apply Forall_cons; [|apply IH; by apply bytes_drop]. split; [done|]. split; [by apply Forall_take|].
  cbn [snd]. unfold zlen, RADIUS_MAX_ATTR_LEN. rewrite length_take. lia.
Qed.

Lemma add_eap_loop_spec fuel cf ok data pos left_ m h l : no_failure ok -> represents m h l -> 0 <= pos -> 0 <= left_ -> pos + left_ = zlen data ->
  left_ < Z.of_nat fuel -> left_ < Z.of_nat cf ->
  exists m', add_eap_loop fuel ok data pos left_ m = Ok (1, m') /\
    represents m' h (l ++ eap_chunks cf (drop (Z.to_nat pos) data)).
Proof.
  revert cf ok pos left_ m l. induction fuel as [|fuel IH]; intros [|cf] ok pos left_ m l Hok Hr Hp Hl Hz Hf Hcf; try lia. cbn [add_eap_loop].
  destruct (Z.ltb_spec 0 left_).
  - cbv zeta. set (len := if RADIUS_MAX_ATTR_LEN <? left_ then RADIUS_MAX_ATTR_LEN else left_).
    assert (len = Z.min 253 left_) as El by (unfold len, RADIUS_MAX_ATTR_LEN; destruct (Z.ltb_spec 253 left_); lia).
    clearbody len. set (rest := drop (Z.to_nat pos) data).
    assert (zlen rest = left_) as Hrest by (unfold rest, zlen in *; rewrite length_drop; lia).
    assert (get data pos len = Ok (take 253 rest)) as ->.
    { unfold get, slice. replace (_ && _) with true by lia. f_equal. change (drop (Z.to_nat pos) data) with rest.
      destruct (Z.le_gt_cases left_ 253); [rewrite !take_ge by (unfold zlen in *; lia); done|]. f_equal. lia. }
    rewrite bind_ok. destruct (add_attr_spec ok RADIUS_ATTR_EAP_MESSAGE (take 253 rest) m h l Hr) as (r & m' & -> & Hres).
    { done. } { unfold zlen, RADIUS_MAX_ATTR_LEN. rewrite length_take. lia. }
    rewrite bind_ok. destruct r as [p|]; [|by destruct Hres as [E|E]; rewrite Hok in E]. destruct Hres as [_ Hr'].
    destruct (IH cf (after_allocs 2 ok) (pos + len) (left_ - len) m' (l ++ [(RADIUS_ATTR_EAP_MESSAGE, take 253 rest)]))
      as (m2 & -> & Hr2); [by apply no_failure_after|done|lia..|]. exists m2. split; [done|].
    assert (eap_chunks (S cf) rest = (RADIUS_ATTR_EAP_MESSAGE, take 253 rest) :: eap_chunks cf (drop 253 rest)) as ->
      by (destruct rest as [|x rest']; [rewrite zlen_nil in Hrest; lia|done]).
    rewrite <- app_assoc in Hr2. cbn [app] in Hr2.
    replace (eap_chunks cf (drop 253 rest)) with (eap_chunks cf (drop (Z.to_nat (pos + len)) data)); [done|].
    unfold rest. rewrite drop_drop. destruct (Z.le_gt_cases left_ 253); [|f_equal; f_equal; lia].
    rewrite !drop_ge by (unfold zlen in *; lia). done.
  - exists m. split; [done|]. rewrite drop_ge by (unfold zlen in *; lia). by rewrite app_nil_r.
Qed.

Lemma add_eap_spec ok data m h l : no_failure ok -> represents m h l ->
  exists m', radius_msg_add_eap ok data m = Ok (1, m') /\ represents m' h (l ++ eap_chunks (S (length data)) data).
Proof.
  intros Hok Hr. unfold radius_msg_add_eap.
  destruct (add_eap_loop_spec (S (length data)) (S (length data)) ok data 0 (zlen data) m h l Hok Hr) as (m' & E & Hr');
    [lia|apply zlen_nonneg|done|unfold zlen; lia..|]. by exists m'.
Qed.

Lemma new_spec ok code identifier : no_failure ok ->
  exists m, radius_msg_new ok code identifier = Ok (Some m) /\ represents m ([u8 code; u8 identifier] ++ replicate 18 0) [].
Proof.
  intros Hok. unfold radius_msg_new. rewrite !Hok. unfold wpabuf_alloc, radius_msg_initialize. cbn [negb r_buf].
  rewrite put_ok_app, bind_ok by done. cbn [app]. eexists. split; [reflexivity|]. by split.
Qed.

(** ** Parsing *)

Lemma parse_attrs_complete fuel ok m pre l : no_failure ok -> 0 < attr_size m -> r_head m = pre ++ attributes_bytes l ->
  zlen (attributes_bytes l) < Z.of_nat fuel ->
  exists m', parse_attrs fuel ok (zlen pre) m = Ok (Some m') /\ r_buf m' = r_buf m /\ 0 < attr_size m' /\
    attr_pos m' = attr_pos m ++ positions (zlen pre) l.
Proof.
  revert ok m pre l. induction fuel as [|fuel IH]; intros ok m pre l Hok Ha E Hf; [pose proof (zlen_nonneg (attributes_bytes l)); lia|].
  cbn [parse_attrs]. rewrite E, zlen_app. destruct l as [|a l].
  - cbn [attributes_bytes]. rewrite zlen_nil. replace (_ <? _) with false by lia. exists m. by rewrite app_nil_r.
  - assert (r_head m = pre ++ attribute_bytes a ++ attributes_bytes l) as E' by done.
    destruct (attr_hdr_at m pre a _ _ E' eq_refl) as [Eh _]. cbn [attributes_bytes] in *. rewrite !zlen_app, zlen_attribute in *.
    pose proof (zlen_nonneg (snd a)). pose proof (zlen_nonneg (attributes_bytes l)). unfold attr_hdr_size in *.
    replace (_ <? _) with true by lia. replace (_ - _ <? 2) with false by lia. rewrite Eh, bind_ok.
    replace (_ || _) with false by lia.
    destruct (to_array_ok (ok 0%nat) (zlen pre) m Ha) as (m1 & r & -> & Eb & Ha1 & [[-> Ep]|[-> Hf0]]); [|by rewrite Hok in Hf0].
    cbn [Z.eqb negb]. replace (zlen pre + (2 + zlen (snd a))) with (zlen (pre ++ attribute_bytes a)) by (rewrite zlen_app, zlen_attribute; lia).
    destruct (IH (after_allocs 1 ok) m1 (pre ++ attribute_bytes a) l) as (m' & -> & Eb' & Ha' & Ep'); [by apply no_failure_after|done| |lia|].
    + unfold r_head. rewrite Eb, <- app_assoc. exact E'.
    + exists m'. split; [done|]. split; [congruence|]. split; [done|]. rewrite Ep', Ep, <- app_assoc. cbn [app positions]. by rewrite zlen_app.
Qed.

Lemma parse_attrs_sound fuel ok m pre rest : 0 < attr_size m -> r_head m = pre ++ rest -> bytes rest -> zlen rest < Z.of_nat fuel ->
  safe (parse_attrs fuel ok (zlen pre) m) (fun r => match r with
    | None => True
    | Some m' => exists l, rest = attributes_bytes l /\ Forall attribute_ok l /\ r_buf m' = r_buf m /\ 0 < attr_size m' /\
        attr_pos m' = attr_pos m ++ positions (zlen pre) l
    end).
Proof.
  revert ok m pre rest. induction fuel as [|fuel IH]; intros ok m pre rest Ha E Hb Hf; [pose proof (zlen_nonneg rest); lia|].
  cbn [parse_attrs]. rewrite E, zlen_app. pose proof (zlen_nonneg rest). destruct (Z.ltb_spec (zlen pre) (zlen pre + zlen rest)).
  2: { assert (rest = []) as -> by (apply nil_length_inv; unfold zlen in *; lia). exists []. by rewrite app_nil_r. }
  unfold attr_hdr_size. destruct (Z.ltb_spec (zlen pre + zlen rest - zlen pre) 2); [done|].
  destruct rest as [|t [|n d]]; [rewrite zlen_nil in *; lia|rewrite zlen_cons, zlen_nil in *; lia|].
  apply Forall_cons_1 in Hb as [Ht Hb]. apply Forall_cons_1 in Hb as [Hn Hb]. rewrite !zlen_cons in *.
  assert (radius_get_attr_hdr m (zlen pre) = Ok (t, n)) as ->.
  { unfold radius_get_attr_hdr. rewrite E, (rd_at pre _ _ (zlen pre)), bind_ok by done.
    change (t :: n :: d) with ([t] ++ n :: d). by rewrite app_assoc, (rd_at (pre ++ [t]) _ _ (zlen pre + 1)) by by rewrite zlen_app. }
  rewrite bind_ok. destruct (_ || _) eqn:Eg; [done|]. apply orb_false_iff in Eg as [G1%Z.ltb_ge G2%Z.ltb_ge].
  destruct (to_array_ok (ok 0%nat) (zlen pre) m Ha) as (m1 & r & -> & Eb & Ha1 & [[-> Ep]|[-> Hf0]]); [|done]. cbn [Z.eqb negb].
  set (v := take (Z.to_nat (n - 2)) d). set (w := drop (Z.to_nat (n - 2)) d).
  assert (d = v ++ w) as Ed by (symmetry; apply take_drop).
  assert (zlen v = n - 2) as Hv by (unfold v, zlen in *; rewrite length_take; lia).
  assert (attribute_bytes (t, v) = t :: n :: v) as Ea by (unfold attribute_bytes, attr_hdr_size; cbn [fst snd app]; do 2 f_equal; lia).
  replace (zlen pre + n) with (zlen (pre ++ attribute_bytes (t, v))) by (rewrite zlen_app, zlen_attribute; cbn [snd]; lia).
  eapply safe_mono; [apply (IH _ m1 (pre ++ attribute_bytes (t, v)) w Ha1)|].
  - unfold r_head. rewrite Eb. rewrite Ea, <- app_assoc. cbn [app]. rewrite <- Ed. exact E.
  - by apply bytes_drop.
  - unfold w, zlen in *. rewrite length_drop. lia.
  - intros [m'|]; [|done]. intros (l & Ew & Hl & Eb' & Ha' & Ep'). exists ((t, v) :: l).
    split; [cbn [attributes_bytes]; rewrite Ea; cbn [app]; by rewrite <- Ew, <- Ed|].
    split; [apply Forall_cons; [|done]|split; [congruence|split; [done|]]].
    + split; [done|]. split; [by apply Forall_take|]. cbn [snd]. unfold RADIUS_MAX_ATTR_LEN, is_byte in *. lia.
    + rewrite Ep', Ep, <- app_assoc. cbn [app positions]. by rewrite zlen_app.
Qed.

(** the octets of a message with its length in place *)
Definition header_length_is (h : list Z) (n : Z) : Prop := WPA_GET_BE16 h o_length = Ok n.

Lemma be16_head (h r : list Z) n : zlen h = radius_hdr_size -> WPA_GET_BE16 h o_length = Ok n -> WPA_GET_BE16 (h ++ r) o_length = Ok n.
Proof.
  intros Hz. unfold WPA_GET_BE16, o_length, radius_hdr_size in *. rewrite !(rd_app_l h r) by (unfold o_length; lia). done.
Qed.

Lemma parse_complete ok h l extra : no_failure ok -> zlen h = radius_hdr_size ->
  header_length_is h (radius_hdr_size + zlen (attributes_bytes l)) ->
  exists m, radius_msg_parse ok (h ++ attributes_bytes l ++ extra) = Ok (Some m) /\ represents m h l /\ r_head m = h ++ attributes_bytes l.
Proof.
  intros Hok Hz Hn. pose proof (zlen_nonneg (attributes_bytes l)). pose proof (zlen_nonneg extra). unfold radius_msg_parse.
  rewrite !zlen_app, Hz. replace (_ <? _) with false by lia.
  rewrite (be16_head h _ _ Hz Hn), bind_ok. unfold radius_hdr_size in *. replace (_ || _) with false by lia. rewrite !Hok. cbn [negb].
  rewrite app_assoc, (get_head (h ++ attributes_bytes l)), bind_ok by (rewrite zlen_app; lia).
  unfold wpabuf_alloc_copy, wpabuf_alloc. rewrite put_ok_app, !bind_ok by (rewrite zlen_nil; lia).
  unfold radius_msg_initialize. cbn [app].
  set (m0 := mkRadius _ [] _).
  destruct (parse_attrs_complete (S (Z.to_nat (20 + zlen (attributes_bytes l)))) (after_allocs 3 ok) m0 h l) as (m & E & Eb & Ha & Ep);
    [by apply no_failure_after|done|done|lia|].
  rewrite Hz in E. rewrite E. exists m. split; [done|]. unfold r_head. rewrite Eb. split; [|done].
  split; unfold r_head; rewrite ?Eb; [done|done|by rewrite Ep, Hz|cbn; lia|done].
Qed.

Lemma parse_sound ok data : bytes data -> safe (radius_msg_parse ok data) (fun r => match r with
  | None => True
  | Some m => exists h l extra, data = h ++ attributes_bytes l ++ extra /\ Forall attribute_ok l /\ represents m h l /\ bytes h /\
      header_length_is h (radius_hdr_size + zlen (attributes_bytes l)) /\ wpabuf_size (r_buf m) = zlen (r_head m)
  end).
Proof.
  intros Hb. unfold radius_msg_parse, radius_hdr_size, o_length. destruct (Z.ltb_spec (zlen data) 20); [done|].
  destruct (get_be16_ok data 2 Hb) as (n & En & Hn); [lia..|]. rewrite En, bind_ok.
  destruct (_ || _) eqn:Eg; [done|]. apply orb_false_iff in Eg as [G1%Z.ltb_ge G2%Z.ltb_ge]. destruct (negb (ok 0%nat)); [done|].
  set (d := take (Z.to_nat n) data). assert (get data 0 n = Ok d) as -> by (unfold get; replace (_ && _) with true by lia; done).
  assert (zlen d = n) as Hd by (unfold d, zlen in *; rewrite length_take; lia).
  rewrite bind_ok. unfold wpabuf_alloc_copy, wpabuf_alloc. destruct (ok 1%nat); [|done]. rewrite put_ok_app, !bind_ok by (rewrite zlen_nil; lia).
  unfold radius_msg_initialize. destruct (ok 2%nat); [|done]. cbn [app].
  set (h := take 20 d). set (rest := drop 20 d). assert (d = h ++ rest) as Ed by (symmetry; apply take_drop).
  assert (zlen h = 20) as Hh by (unfold h, zlen in *; rewrite length_take; lia).
  assert (bytes d) as Hbd by by apply Forall_take.
  set (m0 := mkRadius _ [] _). eapply safe_mono.
  - rewrite <- Hh. apply (parse_attrs_sound _ _ m0 h rest); [done|exact Ed|by apply bytes_drop|]. rewrite Ed, zlen_app in Hd. lia.
  - intros [m|]; [|done]. intros (l & Er & Hl & Eb & Ha & Ep). exists h, l, (drop (Z.to_nat n) data).
    split; [rewrite app_assoc, <- Er, <- Ed; symmetry; apply take_drop|]. split; [done|].
    assert (represents m h l) as Hr.
    { split; unfold r_head; rewrite ?Eb; [cbn [m0 r_buf wpabuf_head]; by rewrite Ed, Er|done|rewrite Ep; by rewrite Hh|cbn; lia|done]. }
    split; [done|]. split; [by apply Forall_take|]. split; [|unfold r_head; rewrite Eb; cbn; lia].
    unfold header_length_is, o_length. rewrite <- Er. assert (20 + zlen rest = n) as -> by (rewrite Ed, zlen_app in Hd; lia). rewrite <- En.
    replace data with (h ++ rest ++ drop (Z.to_nat n) data) by (rewrite app_assoc, <- Ed; apply take_drop).
    unfold WPA_GET_BE16. rewrite !(rd_app_l h) by lia. done.
Qed.

(** ** Writing over a message *)

Definition msg_auth (v : list Z) : attribute := (RADIUS_ATTR_MESSAGE_AUTHENTICATOR, v).
Definition zeros : list Z := replicate 16 0.
(** the header: code and identifier, length, authenticator *)
Definition header (ci f auth : list Z) : list Z := ci ++ f ++ auth.
Definition header_ok (ci f auth : list Z) : Prop := zlen ci = 2 /\ zlen f = 2 /\ zlen auth = 16.

Lemma zlen_header ci f auth : header_ok ci f auth -> zlen (header ci f auth) = radius_hdr_size.
Proof. intros (H1 & H2 & H3). unfold header. rewrite !zlen_app. unfold radius_hdr_size. lia. Qed.
Lemma header_parts h : zlen h = radius_hdr_size -> exists ci f auth, h = header ci f auth /\ header_ok ci f auth.
Proof.
  intros H. exists (take 2 h), (take 2 (drop 2 h)), (drop 2 (drop 2 h)). unfold header, header_ok, zlen, radius_hdr_size in *. split.
  - by rewrite !take_drop.
  - rewrite !length_take, !length_drop. lia.
Qed.

Definition same_shape (l l' : list attribute) : Prop := map (fun a => zlen (snd a)) l = map (fun a => zlen (snd a)) l'.
Lemma same_shape_at l1 v v' l2 : zlen v = zlen v' -> same_shape (l1 ++ msg_auth v :: l2) (l1 ++ msg_auth v' :: l2).
Proof. intros H. unfold same_shape. rewrite !map_app. cbn [map snd msg_auth]. by rewrite H. Qed.
Lemma same_shape_zlen l l' : same_shape l l' -> zlen (attributes_bytes l) = zlen (attributes_bytes l').
Proof.
  revert l'. induction l as [|a l IH]; intros [|a' l'] H; try done. injection H as Ha Hl.
  cbn [attributes_bytes]. rewrite !zlen_app, !zlen_attribute, Ha, (IH l'); done.
Qed.
Lemma same_shape_positions l l' pos : same_shape l l' -> positions pos l = positions pos l'.
Proof.
  revert l' pos. induction l as [|a l IH]; intros [|a' l'] pos H; try done. injection H as Ha Hl.
  cbn [positions]. rewrite !zlen_attribute, Ha. f_equal. by apply IH.
Qed.

Lemma represents_set_head m h l h' l' : represents m h l -> zlen h' = radius_hdr_size -> same_shape l l' ->
  represents (set_head (h' ++ attributes_bytes l') m) h' l'.
Proof.
  intros [Eh Hh Ep Hs Ha] Hz Hl. split; [done|done| | |done]; unfold r_head, set_head in *; cbn [attr_pos r_buf wpabuf_head wpabuf_size].
  - rewrite Ep. by apply same_shape_positions.
  - rewrite Eh, zlen_app, Hh in Hs. by rewrite zlen_app, Hz, <- (same_shape_zlen l l').
Qed.

Section Fields.
Context (m : radius_msg) (ci f auth : list Z) (l : list attribute).
Hypothesis Hr : represents m (header ci f auth) l.
Hypothesis Hh : header_ok ci f auth.

Lemma authenticator_spec : get_authenticator m = Ok auth.
Proof.
  destruct Hr as [E _ _ _ _], Hh as (H1 & H2 & H3). unfold get_authenticator, header, o_authenticator, MD5_MAC_LEN in *. rewrite E.
  rewrite <- !app_assoc, app_assoc. apply get_app; [rewrite zlen_app; lia|done].
Qed.
Lemma set_length_spec f' : f' = to_be 2 (zlen (r_head m)) ->
  set_length m = Ok (set_head (header ci f' auth ++ attributes_bytes l) m) /\ header_ok ci f' auth.
Proof.
  intros ->. pose proof Hr as [E _ _ _ _]. destruct Hh as (H1 & H2 & H3). unfold set_length, header, o_length in *.
  split; [|by split; [|rewrite zlen_to_be]]. rewrite E at 1.
  rewrite <- !app_assoc, blit_app, bind_ok by (rewrite ?zlen_to_be; lia). done.
Qed.
Lemma set_auth_blit a : zlen a = 16 ->
  blit (r_head m) o_authenticator a = Ok (header ci f a ++ attributes_bytes l) /\ header_ok ci f a.
Proof.
  intros Ha. pose proof Hr as [E _ _ _ _]. destruct Hh as (H1 & H2 & H3). unfold header, o_authenticator in *.
  split; [|by split]. rewrite E. rewrite <- !app_assoc, (app_assoc ci f), blit_app by (rewrite ?zlen_app; lia). by rewrite <- app_assoc.
Qed.
Lemma set_authenticator_spec a : zlen a = 16 ->
  set_authenticator a m = Ok (set_head (header ci f a ++ attributes_bytes l) m).
Proof. intros Ha. unfold set_authenticator. destruct (set_auth_blit a Ha) as [-> _]. by rewrite bind_ok. Qed.
Lemma first_spec : get (r_head m) 0 4 = Ok (ci ++ f).
Proof.
  destruct Hr as [E _ _ _ _], Hh as (H1 & H2 & H3). unfold header in E. rewrite E, <- !app_assoc, app_assoc.
  apply get_head. rewrite zlen_app. lia.
Qed.
Lemma rest_spec : get (r_head m) radius_hdr_size (zlen (r_head m) - radius_hdr_size) = Ok (attributes_bytes l).
Proof. destruct Hr as [E Hz _ _ _]. rewrite E. apply get_last; [done|]. rewrite zlen_app, Hz. lia. Qed.
End Fields.

(** the value of a Message-Authenticator *)
Lemma msg_auth_blit m h l1 v l2 v' : represents m h (l1 ++ msg_auth v :: l2) -> zlen v' = zlen v ->
  blit (r_head m) (radius_hdr_size + zlen (attributes_bytes l1) + attr_hdr_size) v' = Ok (h ++ attributes_bytes (l1 ++ msg_auth v' :: l2)).
Proof.
  intros [E Hh _ _ _] Hv. rewrite E, !attributes_app. cbn [attributes_bytes]. unfold msg_auth, attribute_bytes. cbn [fst snd]. rewrite Hv.
  set (x := [RADIUS_ATTR_MESSAGE_AUTHENTICATOR; attr_hdr_size + zlen v]).
  replace (h ++ attributes_bytes l1 ++ (x ++ v) ++ attributes_bytes l2) with ((h ++ attributes_bytes l1 ++ x) ++ v ++ attributes_bytes l2)
    by by rewrite <- !app_assoc.
  rewrite blit_app; [by rewrite <- !app_assoc| |done]. rewrite !zlen_app, Hh. unfold attr_hdr_size. change (zlen x) with 2. lia.
Qed.

Definition no_msg_auth (l : list attribute) : Prop := Forall (fun a => fst a <> RADIUS_ATTR_MESSAGE_AUTHENTICATOR) l.
(** what [only_msg_auth] finds from an offset: the attributes around the only Message-Authenticator *)
Lemma only_msg_auth_none m l pre post found : no_msg_auth l -> r_head m = pre ++ attributes_bytes l ++ post ->
  only_msg_auth m (positions (zlen pre) l) found = Ok (Some found).
Proof.
  intros Hl. revert pre. induction Hl as [|a l Ha _ IH]; intros pre E; [done|]. cbn [positions only_msg_auth].
  rewrite advance in E. pose proof E as E'. rewrite <- app_assoc in E'. next_attribute E' a (zlen pre).
  rewrite (proj2 (Z.eqb_neq _ _) Ha). replace (zlen pre + zlen (attribute_bytes a)) with (zlen (pre ++ attribute_bytes a)) by by rewrite zlen_app.
  by apply IH.
Qed.
Lemma only_msg_auth_app m l1 l2 pre post found : no_msg_auth l1 -> r_head m = pre ++ attributes_bytes (l1 ++ l2) ++ post ->
  only_msg_auth m (positions (zlen pre) (l1 ++ l2)) found = only_msg_auth m (positions (zlen (pre ++ attributes_bytes l1)) l2) found.
Proof.
  intros Hl. revert pre. induction Hl as [|a l Ha _ IH]; intros pre E; [by rewrite app_nil_r|]. cbn [app positions only_msg_auth].
  cbn [app] in E. rewrite advance in E. pose proof E as E'. rewrite <- app_assoc in E'. next_attribute E' a (zlen pre).
  rewrite (proj2 (Z.eqb_neq _ _) Ha). replace (zlen pre + zlen (attribute_bytes a)) with (zlen (pre ++ attribute_bytes a)) by by rewrite zlen_app.
  rewrite IH by done. cbn [attributes_bytes]. by rewrite app_assoc.
Qed.

(** a list has no Message-Authenticator, one, or several *)
Lemma msg_auth_cases l : no_msg_auth l \/ exists l1 v r, l = l1 ++ msg_auth v :: r /\ no_msg_auth l1.
Proof.
  induction l as [|[t d] l [IH|(l1 & v & r & -> & IH)]]; [left; constructor| |].
  - destruct (decide (t = RADIUS_ATTR_MESSAGE_AUTHENTICATOR)) as [->|]; [right; exists [], d, l; by split; [|constructor]|left; by constructor].
  - right. destruct (decide (t = RADIUS_ATTR_MESSAGE_AUTHENTICATOR)) as [->|].
    + eexists [], d, _. by split; [|constructor].
    + exists ((t, d) :: l1), v, r. split; [done|by constructor].
Qed.

Lemma only_msg_auth_spec m h l : represents m h l ->
  only_msg_auth m (attr_pos m) None = Ok (Some None) /\ no_msg_auth l \/
  (exists l1 v l2, l = l1 ++ msg_auth v :: l2 /\ no_msg_auth l1 /\ no_msg_auth l2 /\
     only_msg_auth m (attr_pos m) None = Ok (Some (Some (radius_hdr_size + zlen (attributes_bytes l1))))) \/
  (exists l1 v l2 w l3, l = l1 ++ msg_auth v :: l2 ++ msg_auth w :: l3 /\ only_msg_auth m (attr_pos m) None = Ok None).
Proof.
  intros [E Hz Ep _ _]. rewrite Ep, (positions_hdr h) by done. assert (r_head m = h ++ attributes_bytes l ++ []) as E0 by by rewrite app_nil_r.
  destruct (msg_auth_cases l) as [Hn|(l1 & v & r & -> & H1)]; [left; split; [by apply (only_msg_auth_none m l h [])|done]|right].
  rewrite (only_msg_auth_app m l1 _ h []) by done. cbn [positions only_msg_auth].
  assert (r_head m = (h ++ attributes_bytes l1) ++ attribute_bytes (msg_auth v) ++ attributes_bytes r) as E1
    by (rewrite E, attributes_app; cbn [attributes_bytes]; by rewrite <- !app_assoc).
  destruct (attr_hdr_at _ _ _ _ _ E1 eq_refl) as [-> _]. rewrite bind_ok. cbn [msg_auth fst]. rewrite Z.eqb_refl.
  set (p := zlen (h ++ attributes_bytes l1)). assert (p = radius_hdr_size + zlen (attributes_bytes l1)) as Hp by (unfold p; by rewrite zlen_app, Hz).
  replace (p + zlen (attribute_bytes (msg_auth v))) with (zlen ((h ++ attributes_bytes l1) ++ attribute_bytes (msg_auth v))) by by rewrite zlen_app.
  assert (r_head m = ((h ++ attributes_bytes l1) ++ attribute_bytes (msg_auth v)) ++ attributes_bytes r ++ []) as E2
    by by rewrite E1, app_nil_r, <- !app_assoc.
  destruct (msg_auth_cases r) as [Hn|(l2 & w & l3 & -> & H2)].
  - left. exists l1, v, r. split; [done|]. split; [done|]. split; [done|]. rewrite (only_msg_auth_none m r _ [] _ Hn E2). by rewrite Hp.
  - right. exists l1, v, l2, w, l3. split; [done|]. rewrite (only_msg_auth_app m l2 _ _ [] _ H2 E2). cbn [positions only_msg_auth].
    assert (r_head m = (((h ++ attributes_bytes l1) ++ attribute_bytes (msg_auth v)) ++ attributes_bytes l2) ++ attribute_bytes (msg_auth w) ++ attributes_bytes l3) as E3
      by (rewrite E2, app_nil_r, attributes_app; cbn [attributes_bytes]; by rewrite <- !app_assoc).
    destruct (attr_hdr_at _ _ _ _ _ E3 eq_refl) as [-> _]. by rewrite bind_ok.
Qed.

(** ** Authenticators *)

Section Authenticators.
Context {DG : Digests} {DL : DigestsLaws} {MD : Md5} {ML : Md5Laws}.

Lemma put_digest_ok m h l off d h' l' : represents m h l -> blit (r_head m) off d = Ok (h' ++ attributes_bytes l') ->
  zlen h' = radius_hdr_size -> same_shape l l' ->
  exists m', put_digest (Some d) off m = Ok m' /\ represents m' h' l'.
Proof. intros Hr E Hz Hs. unfold put_digest. rewrite E, bind_ok. eexists. split; [done|]. by eapply represents_set_head. Qed.

Lemma too_long_spec m h l : represents m h l -> too_long m = if 0xffff <? radius_hdr_size + zlen (attributes_bytes l) then -1 else 0.
Proof. intros [E Hh _ _ _]. unfold too_long. by rewrite E, zlen_app, Hh. Qed.
Lemma zlen_r_head m h l : represents m h l -> zlen (r_head m) = radius_hdr_size + zlen (attributes_bytes l).
Proof. intros [E Hh _ _ _]. by rewrite E, zlen_app, Hh. Qed.
Lemma zlen_msg_auth l v : zlen v = 16 -> zlen (attributes_bytes (l ++ [msg_auth v])) = zlen (attributes_bytes l) + 18.
Proof. intros H. rewrite attributes_app, zlen_app. cbn [attributes_bytes]. rewrite app_nil_r, zlen_attribute. cbn [msg_auth snd]. lia. Qed.

(** the length field of the message with its Message-Authenticator *)
Definition finished_length (l : list attribute) : list Z := to_be 2 (radius_hdr_size + zlen (attributes_bytes l) + 18).

Lemma add_msg_auth ok m ci f auth l : no_failure ok -> represents m (header ci f auth) l -> header_ok ci f auth ->
  exists m1 m2, radius_msg_add_attr ok RADIUS_ATTR_MESSAGE_AUTHENTICATOR zeros m = Ok (Some (radius_hdr_size + zlen (attributes_bytes l)), m1) /\
    set_length m1 = Ok m2 /\ represents m2 (header ci (finished_length l) auth) (l ++ [msg_auth zeros]) /\ header_ok ci (finished_length l) auth.
Proof.
  intros Hok Hr Hh. destruct (add_attr_spec ok RADIUS_ATTR_MESSAGE_AUTHENTICATOR zeros m _ l Hr) as (r & m1 & E & Hres); [done|done|].
  destruct r as [p|]; [|by destruct Hres as [E'|E']; rewrite Hok in E']. destruct Hres as [-> Hr1].
  rewrite (zlen_r_head m _ l Hr) in E. exists m1. rewrite E.
  destruct (set_length_spec m1 ci f auth _ Hr1 Hh (finished_length l)) as [-> Hh'].
  { unfold finished_length. by rewrite (zlen_r_head _ _ _ Hr1), zlen_msg_auth, Z.add_assoc. }
  eexists. split; [done|]. split; [done|]. split; [|done]. apply (represents_set_head _ _ _ _ _ Hr1); [by apply zlen_header|done].
Qed.

(** the digests of a response *)
Definition msg_auth_of (secret ci f req : list Z) (l : list attribute) : option (list Z) :=
  hmac_md5 secret (header ci f req ++ attributes_bytes l).
Definition response_auth (secret ci f req : list Z) (l : list attribute) : option (list Z) :=
  md5_vector ((ci ++ f) ++ req ++ attributes_bytes l ++ secret).

Lemma finish_srv_spec ok secret req m ci f auth l mac resp : no_failure ok -> represents m (header ci f auth) l -> header_ok ci f auth ->
  zlen req = 16 ->
  msg_auth_of secret ci (finished_length l) req (l ++ [msg_auth zeros]) = Some mac ->
  response_auth secret ci (finished_length l) req (l ++ [msg_auth mac]) = Some resp ->
  exists m', radius_msg_finish_srv ok secret req m = Ok (if 0xffff <? radius_hdr_size + zlen (attributes_bytes l) + 18 then -1 else 0, m') /\
    represents m' (header ci (finished_length l) resp) (l ++ [msg_auth mac]) /\ header_ok ci (finished_length l) resp.
Proof.
  intros Hok Hr Hh Hq Hmac Hresp. unfold radius_msg_finish_srv.
  destruct (add_msg_auth ok m ci f auth l Hok Hr Hh) as (m1 & m2 & E1 & E2 & Hr2 & Hh2). unfold zeros in E1. rewrite E1, bind_ok, E2, bind_ok.
  rewrite (set_authenticator_spec m2 ci _ auth _ Hr2 Hh2 req Hq), bind_ok.
  destruct (set_auth_blit m2 ci _ auth _ Hr2 Hh2 req Hq) as [_ Hh3].
  pose proof (represents_set_head m2 _ _ _ _ Hr2 (zlen_header _ _ _ Hh3) eq_refl) as Hr3. set (m3 := set_head _ m2) in *. clearbody m3.
  destruct (hmac_md5_16 _ _ _ Hmac) as [Hz _].
  destruct (put_digest_ok m3 _ _ (radius_hdr_size + zlen (attributes_bytes l) + attr_hdr_size) mac (header ci (finished_length l) req) (l ++ [msg_auth mac]) Hr3) as (m4 & E4 & Hr4);
    [by apply (msg_auth_blit m3 _ l zeros [] mac Hr3)|by apply zlen_header|by apply same_shape_at|].
  assert (hmac_md5 secret (r_head m3) = Some mac) as -> by (destruct Hr3 as [-> _ _ _ _]; exact Hmac).
  rewrite E4, bind_ok. rewrite (first_spec m4 _ _ _ _ Hr4 Hh3), bind_ok, (rest_spec m4 _ _ _ _ Hr4), bind_ok.
  unfold response_auth in Hresp. rewrite Hresp.
  destruct (md5_16 _ _ Hresp) as [Hzr _]. destruct (set_auth_blit m4 ci _ req _ Hr4 Hh3 resp Hzr) as [Eb Hh5].
  destruct (put_digest_ok m4 _ _ o_authenticator resp _ (l ++ [msg_auth mac]) Hr4 Eb (zlen_header _ _ _ Hh5) eq_refl) as (m5 & E5 & Hr5).
  rewrite E5, bind_ok. exists m5. split; [|done]. rewrite (too_long_spec _ _ _ Hr5), zlen_msg_auth by done. by rewrite Z.add_assoc.
Qed.

Lemma finish_none_spec ok m ci f auth l : represents m (header ci f auth) l -> header_ok ci f auth ->
  let n := radius_hdr_size + zlen (attributes_bytes l) in
  exists m', radius_msg_finish ok None m = Ok (if 0xffff <? n then -1 else 0, m') /\
    represents m' (header ci (to_be 2 n) auth) l /\ header_ok ci (to_be 2 n) auth.
Proof.
  intros Hr Hh n. unfold radius_msg_finish.
  destruct (set_length_spec m ci f auth _ Hr Hh (to_be 2 n)) as [-> Hh']; [by rewrite (zlen_r_head _ _ _ Hr)|]. rewrite bind_ok.
  pose proof (represents_set_head m _ _ _ _ Hr (zlen_header _ _ _ Hh') eq_refl) as Hr'. eexists. split; [|done]. by rewrite (too_long_spec _ _ _ Hr').
Qed.

Lemma finish_spec ok secret m ci f auth l mac : no_failure ok -> represents m (header ci f auth) l -> header_ok ci f auth ->
  msg_auth_of secret ci (finished_length l) auth (l ++ [msg_auth zeros]) = Some mac ->
  exists m', radius_msg_finish ok (Some secret) m = Ok (if 0xffff <? radius_hdr_size + zlen (attributes_bytes l) + 18 then -1 else 0, m') /\
    represents m' (header ci (finished_length l) auth) (l ++ [msg_auth mac]) /\ header_ok ci (finished_length l) auth.
Proof.
  intros Hok Hr Hh Hmac. unfold radius_msg_finish.
  destruct (add_msg_auth ok m ci f auth l Hok Hr Hh) as (m1 & m2 & E1 & E2 & Hr2 & Hh2). unfold zeros in E1. rewrite E1, bind_ok, E2, bind_ok.
  destruct (hmac_md5_16 _ _ _ Hmac) as [Hz _].
  destruct (put_digest_ok m2 _ _ (radius_hdr_size + zlen (attributes_bytes l) + attr_hdr_size) mac (header ci (finished_length l) auth) (l ++ [msg_auth mac]) Hr2) as (m4 & E4 & Hr4);
    [by apply (msg_auth_blit m2 _ l zeros [] mac Hr2)|by apply zlen_header|by apply same_shape_at|].
  assert (hmac_md5 secret (r_head m2) = Some mac) as -> by (destruct Hr2 as [-> _ _ _ _]; exact Hmac).
  rewrite E4, bind_ok. exists m4. split; [|done]. rewrite (too_long_spec _ _ _ Hr4), zlen_msg_auth by done. by rewrite Z.add_assoc.
Qed.

Lemma check_authenticator_spec secret a m ci f auth l : represents m (header ci f auth) l -> header_ok ci f auth ->
  check_authenticator secret a m = (h ← computed (response_auth secret ci f a l); Ok (if bool_decide (h = auth) then 0 else 1)).
Proof.
  intros Hr Hh. unfold check_authenticator. rewrite (first_spec m _ _ _ _ Hr Hh), bind_ok, (rest_spec m _ _ _ _ Hr), bind_ok.
  unfold response_auth. destruct (computed _); [rewrite !bind_ok|done]. by rewrite (authenticator_spec m ci f auth l Hr Hh), bind_ok.
Qed.

(** the check in general: the sixteen octets that follow the header of the attribute are compared with the digest of the message with these
    octets zero, whatever the length in that header is; when fewer are left in the message, the check reads past it *)
Lemma check_msg_auth_any secret a m ci f auth l1 v l2 : represents m (header ci f auth) (l1 ++ msg_auth v :: l2) -> header_ok ci f auth ->
  zlen a = 16 ->
  check_msg_auth secret (Some a) (radius_hdr_size + zlen (attributes_bytes l1)) m =
    if zlen (v ++ attributes_bytes l2) <? 16 then Err OutOfBounds
    else (h ← computed (hmac_md5 secret (header ci f a ++ attributes_bytes l1 ++ [RADIUS_ATTR_MESSAGE_AUTHENTICATOR; attr_hdr_size + zlen v] ++
              zeros ++ drop 16 (v ++ attributes_bytes l2)));
          Ok (if bool_decide (take 16 (v ++ attributes_bytes l2) = h) then 0 else 1)).
Proof.
  intros [E Hz _ _ _] (H1 & H2 & H3) Ha. unfold check_msg_auth, MD5_MAC_LEN. rewrite E, attributes_app. cbn [attributes_bytes].
  unfold attribute_bytes. cbn [msg_auth fst snd]. set (x := [RADIUS_ATTR_MESSAGE_AUTHENTICATOR; attr_hdr_size + zlen v]).
  rewrite <- !app_assoc, (app_assoc x v), <- (app_assoc x v). set (t := v ++ attributes_bytes l2).
  replace (header ci f auth ++ attributes_bytes l1 ++ x ++ t) with ((header ci f auth ++ attributes_bytes l1 ++ x) ++ t) by by rewrite <- !app_assoc.
  assert (radius_hdr_size + zlen (attributes_bytes l1) + attr_hdr_size = zlen (header ci f auth ++ attributes_bytes l1 ++ x)) as Hp
    by (rewrite !zlen_app, Hz; unfold attr_hdr_size; change (zlen x) with 2; lia).
  rewrite Hp. destruct (Z.ltb_spec (zlen t) 16) as [Ht|Ht].
  - unfold get. rewrite (zlen_app _ t). destruct (_ && _) eqn:Eg; [lia|done].
  - assert (zlen (take 16 t) = 16) as Ht16 by (unfold zlen in *; rewrite length_take; lia).
    remember (take 16 t) as mac eqn:Em. remember (drop 16 t) as rest eqn:Er. rewrite <- (take_drop 16 t), <- Em, <- Er.
    rewrite (get_app _ mac), bind_ok by done. rewrite (blit_app _ mac), bind_ok by done. unfold header, o_authenticator. rewrite <- !app_assoc, (app_assoc ci f).
    rewrite (blit_app (ci ++ f) auth), bind_ok by (rewrite ?zlen_app; lia). by rewrite <- app_assoc.
Qed.

Lemma check_msg_auth_spec secret a m ci f auth l1 v l2 : represents m (header ci f auth) (l1 ++ msg_auth v :: l2) -> header_ok ci f auth ->
  zlen v = 16 -> zlen a = 16 ->
  check_msg_auth secret (Some a) (radius_hdr_size + zlen (attributes_bytes l1)) m =
    (h ← computed (msg_auth_of secret ci f a (l1 ++ msg_auth zeros :: l2)); Ok (if bool_decide (v = h) then 0 else 1)).
Proof.
  intros Hr Hh Hv Ha. rewrite (check_msg_auth_any secret a m ci f auth l1 v l2 Hr Hh Ha).
  assert (length v = 16%nat) as Hl by (unfold zlen in Hv; lia). pose proof (zlen_nonneg (attributes_bytes l2)).
  rewrite zlen_app, (proj2 (Z.ltb_ge _ _)) by lia. rewrite (take_app_length' v), (drop_app_length' v) by done.
  unfold msg_auth_of. rewrite attributes_app. cbn [attributes_bytes]. unfold attribute_bytes. cbn [msg_auth fst snd]. rewrite Hv.
  change (zlen zeros) with 16. by rewrite <- !app_assoc.
Qed.

Definition msg_auth_16 (l : list attribute) : Prop :=
  Forall (fun a => fst a = RADIUS_ATTR_MESSAGE_AUTHENTICATOR -> zlen (snd a) = 16) l.

(** the only Message-Authenticator of the message is the digest of the message with its value zero and the request's authenticator *)
Definition authentic (secret req ci f : list Z) (l : list attribute) : Prop :=
  exists l1 v l2, l = l1 ++ msg_auth v :: l2 /\ no_msg_auth l1 /\ no_msg_auth l2 /\
    msg_auth_of secret ci f req (l1 ++ msg_auth zeros :: l2) = Some v.

Lemma several_msg_auth l1 v l2 w l3 l1' v' l2' : l1 ++ msg_auth v :: l2 ++ msg_auth w :: l3 = l1' ++ msg_auth v' :: l2' ->
  no_msg_auth l1' -> no_msg_auth l2' -> False.
Proof.
  intros E H1 H2. revert l1' E H1. induction l1 as [|a l1 IH]; intros [|a' l1'] E H1; cbn [app] in E.
  - injection E as _ E. subst l2'. apply Forall_app in H2 as [_ H2]. by apply Forall_cons_1 in H2 as [H2 _].
  - injection E as E _. subst a'. by apply Forall_cons_1 in H1 as [H1 _].
  - injection E as _ E. subst l2'. apply Forall_app in H2 as [_ H2]. by apply Forall_cons_1 in H2 as [H2 _].
  - injection E as _ E. apply (IH l1'); [done|]. by apply Forall_cons_1 in H1 as [_ H1].
Qed.
Lemma the_msg_auth l1 v l2 l1' v' l2' : l1 ++ msg_auth v :: l2 = l1' ++ msg_auth v' :: l2' ->
  no_msg_auth l1 -> no_msg_auth l1' -> l1 = l1' /\ v = v' /\ l2 = l2'.
Proof.
  revert l1'. induction l1 as [|a l1 IH]; intros [|a' l1'] E H1 H2; cbn [app] in E.
  - injection E as -> ->. done.
  - injection E as E _. subst a'. by apply Forall_cons_1 in H2 as [H2 _].
  - injection E as E _. subst a. by apply Forall_cons_1 in H1 as [H1 _].
  - injection E as -> E. apply Forall_cons_1 in H1 as [_ H1], H2 as [_ H2]. by destruct (IH l1' E H1 H2) as (-> & -> & ->).
Qed.

(** what the check accepts: behind the header of the only Message-Authenticator, whatever length this header has, are the sixteen octets
    [mac] of the digest of the message with these octets zero and with the request's authenticator *)
Definition sealed (secret req ci f : list Z) (l : list attribute) : Prop :=
  exists l1 v l2 mac rest, l = l1 ++ msg_auth v :: l2 /\ no_msg_auth l1 /\ no_msg_auth l2 /\
    v ++ attributes_bytes l2 = mac ++ rest /\ zlen mac = 16 /\
    hmac_md5 secret (header ci f req ++ attributes_bytes l1 ++ [RADIUS_ATTR_MESSAGE_AUTHENTICATOR; attr_hdr_size + zlen v] ++ zeros ++ rest) =
      Some mac.

(** for an attribute of the length RFC 2869 gives it, this is the digest of RFC 2869 *)
Lemma sealed_16 secret req ci f l : msg_auth_16 l -> sealed secret req ci f l <-> authentic secret req ci f l.
Proof.
  intros Hl. unfold sealed, authentic.
  assert (forall l1 v l2, l = l1 ++ msg_auth v :: l2 -> zlen v = 16) as Hv.
  { intros l1 v l2 ->. apply Forall_app in Hl as [_ Hl]. apply Forall_cons_1 in Hl as [Hl _]. by apply Hl. }
  assert (forall l1 (v : list Z) l2, zlen v = 16 -> header ci f req ++ attributes_bytes (l1 ++ msg_auth zeros :: l2) =
    header ci f req ++ attributes_bytes l1 ++ [RADIUS_ATTR_MESSAGE_AUTHENTICATOR; attr_hdr_size + zlen v] ++ zeros ++ attributes_bytes l2) as Hd.
  { intros l1 v l2 ->. rewrite attributes_app. cbn [attributes_bytes]. unfold attribute_bytes. by rewrite <- app_assoc. }
  split.
  - intros (l1 & v & l2 & mac & rest & E & H1 & H2 & Et & Hm & Eh). exists l1, v, l2. split; [done|]. split; [done|]. split; [done|].
    pose proof (Hv _ _ _ E) as Hz. apply app_inj_1 in Et as [<- <-]; [|unfold zlen in *; lia]. unfold msg_auth_of. by rewrite (Hd l1 v l2 Hz).
  - intros (l1 & v & l2 & E & H1 & H2 & Eh). exists l1, v, l2, v, (attributes_bytes l2). pose proof (Hv _ _ _ E) as Hz.
    unfold msg_auth_of in Eh. rewrite (Hd l1 v l2 Hz) in Eh. done.
Qed.

Lemma verify_msg_auth_iff secret a m ci f auth l : represents m (header ci f auth) l -> header_ok ci f auth -> zlen a = 16 ->
  radius_msg_verify_msg_auth secret (Some a) m = Ok 0 <-> sealed secret a ci f l.
Proof.
  intros Hr Hh Ha. unfold radius_msg_verify_msg_auth, sealed.
  destruct (only_msg_auth_spec m _ l Hr) as [[-> Hn]|[(l1 & v & l2 & -> & H1 & H2 & ->)|(l1 & v & l2 & w & l3 & -> & ->)]]; rewrite bind_ok.
  - split; [done|]. intros (l1 & v & l2 & mac & rest & -> & _). apply Forall_app in Hn as [_ Hn]. by apply Forall_cons_1 in Hn as [Hn _].
  - rewrite (check_msg_auth_any secret a m ci f auth l1 v l2 Hr Hh Ha). set (t := v ++ attributes_bytes l2).
    split.
    + destruct (Z.ltb_spec (zlen t) 16) as [|Ht]; [done|]. destruct (hmac_md5 _ _) as [h|] eqn:Eh; [|done]. cbn [computed]. rewrite bind_ok.
      case_bool_decide as Eb; [|done]. subst h. intros _. exists l1, v, l2, (take 16 t), (drop 16 t).
      rewrite take_drop. do 4 (split; [done|]). split; [unfold zlen in *; rewrite length_take; lia|done].
    + intros (l1' & v' & l2' & mac & rest & E & H1' & _ & Et & Hm & Eh). destruct (the_msg_auth _ _ _ _ _ _ E H1 H1') as (<- & <- & <-).
      fold t in Et. rewrite Et. assert (length mac = 16%nat) as Hl by (unfold zlen in Hm; lia). pose proof (zlen_nonneg rest).
      rewrite zlen_app, (proj2 (Z.ltb_ge _ _)) by lia. rewrite (take_app_length' mac), (drop_app_length' mac) by done.
      rewrite Eh. cbn [computed]. rewrite bind_ok. by rewrite bool_decide_true.
  - split; [done|]. intros (l1' & v' & l2' & mac & rest & E & H1' & H2' & _). destruct (several_msg_auth _ _ _ _ _ _ _ _ E H1' H2').
Qed.

Lemma computed_cases h : (exists d, h = Some d /\ computed h = Ok d) \/ h = None /\ computed h = Err Uninitialised.
Proof. destruct h as [d|]; [left; by exists d|by right]. Qed.

Lemma verify_values secret sent auth m : radius_msg_verify secret sent auth m <> Ok 0 \/ radius_msg_verify secret sent auth m = Ok 0.
Proof. destruct (radius_msg_verify secret sent auth m) as [r|e]; [|by left]. destruct (decide (r = 0)) as [->|]; [by right|left; congruence]. Qed.

Lemma check_authenticator_iff secret a m ci f auth l : represents m (header ci f auth) l -> header_ok ci f auth ->
  check_authenticator secret a m = Ok 0 <-> response_auth secret ci f a l = Some auth.
Proof.
  intros Hr Hh. rewrite (check_authenticator_spec secret a m ci f auth l Hr Hh).
  destruct (response_auth _ _ _ _ _) as [h|]; cbn [computed]; [rewrite bind_ok|done]. case_bool_decide as E; [by subst|].
  split; [done|]. congruence.
Qed.

(** C32: [radius_msg_verify] accepts a received response, whatever its attributes are, exactly when it has one Message-Authenticator, the
    sixteen octets behind the header of this attribute are the HMAC-MD5 of the response under the shared secret with these octets zero and
    the authenticator of the request in place of its own, and its own authenticator is the MD5 of the response with the request's
    authenticator and of the secret (RFC 2865, 3). When the attribute has the eighteen octets of RFC 2869, 5.14, which the parser does not
    require, the first condition is that RFC's: the value of the attribute is the digest of the response with the value zero. *)
Theorem verify_iff secret sent m ci f auth l ci' f' req l' :
  represents m (header ci f auth) l -> header_ok ci f auth ->
  represents sent (header ci' f' req) l' -> header_ok ci' f' req ->
  (radius_msg_verify secret (Some sent) true m = Ok 0 <->
    sealed secret req ci f l /\ response_auth secret ci f req l = Some auth) /\
  (msg_auth_16 l -> sealed secret req ci f l <-> authentic secret req ci f l).
Proof.
  intros Hr Hh Hs Hhs. split; [|by apply sealed_16]. unfold radius_msg_verify. rewrite (authenticator_spec sent _ _ _ _ Hs Hhs), bind_ok.
  assert (zlen req = 16) as Hq by apply Hhs.
  rewrite <- (check_authenticator_iff secret req m ci f auth l Hr Hh), <- (verify_msg_auth_iff secret req m ci f auth l Hr Hh Hq).
  destruct (radius_msg_verify_msg_auth _ _ _) as [r|e]; [rewrite bind_ok|by split; [|intros [? _]]].
  destruct (Z.eqb_spec r 0) as [->|Hne]; cbn [negb]; [by split; [|intros [_ ?]]|]. split; [done|]. intros [[= ->] _]. done.
Qed.

(** C33: what the server finishes with the authenticator of a request, [radius_msg_parse] reads back on the other side (whatever follows the
    message) and [radius_msg_verify] accepts as the answer to that request, for every backend that computes the digests. *)
Theorem response_roundtrip ok ok' secret m ci f auth l sent ci' f' req l' mac resp extra :
  no_failure ok -> no_failure ok' -> represents m (header ci f auth) l -> header_ok ci f auth -> no_msg_auth l ->
  radius_hdr_size + zlen (attributes_bytes l) + 18 <= 0xffff ->
  represents sent (header ci' f' req) l' -> header_ok ci' f' req ->
  msg_auth_of secret ci (finished_length l) req (l ++ [msg_auth zeros]) = Some mac ->
  response_auth secret ci (finished_length l) req (l ++ [msg_auth mac]) = Some resp ->
  exists m1 m2, radius_msg_finish_srv ok secret req m = Ok (0, m1) /\ radius_msg_parse ok' (r_head m1 ++ extra) = Ok (Some m2) /\
    represents m2 (header ci (finished_length l) resp) (l ++ [msg_auth mac]) /\ radius_msg_verify secret (Some sent) true m2 = Ok 0.
Proof.
  intros Hok Hok' Hr Hh Hn Hz Hs Hhs Hmac Hresp. assert (zlen req = 16) as Hq by apply Hhs.
  destruct (finish_srv_spec ok secret req m ci f auth l mac resp Hok Hr Hh Hq Hmac Hresp) as (m1 & E1 & Hr1 & Hh1).
  rewrite (proj2 (Z.ltb_ge _ _) Hz) in E1. destruct (hmac_md5_16 _ _ _ Hmac) as [Hzm _].
  destruct (parse_complete ok' (header ci (finished_length l) resp) (l ++ [msg_auth mac]) extra Hok') as (m2 & E2 & Hr2 & _); [by apply zlen_header| |].
  { unfold header_length_is, header, finished_length, o_length. rewrite zlen_msg_auth, Z.add_assoc by done. destruct Hh1 as [<- _].
    apply get_be16_at. pose proof (zlen_nonneg (attributes_bytes l)). unfold radius_hdr_size in *. lia. }
  exists m1, m2. split; [done|]. split; [destruct Hr1 as [-> _ _ _ _]; by rewrite <- app_assoc|]. split; [done|].
  unfold radius_msg_verify. rewrite (authenticator_spec sent _ _ _ _ Hs Hhs), bind_ok.
  assert (msg_auth_16 (l ++ [msg_auth mac])) as H16.
  { apply Forall_app. split; [|apply Forall_cons; [by intros _|constructor]]. eapply Forall_impl; [|exact Hn]. intros a Ha Ea. by destruct Ha. }
  rewrite (proj2 (verify_msg_auth_iff secret req m2 _ _ _ _ Hr2 Hh1 Hq)), bind_ok
    by (apply sealed_16; [done|]; exists l, mac, []; split; [done|]; split; [done|]; split; [constructor|done]).
  cbn [Z.eqb negb]. by apply (check_authenticator_iff secret req m2 _ _ _ _ Hr2 Hh1).
Qed.
End Authenticators.

(** ** The MS-MPPE keys *)

Lemma zip_xor_xor (b h : list Z) : length b = length h -> zip_with Z.lxor (zip_with Z.lxor b h) h = b.
Proof.
  revert h. induction b as [|x b IH]; intros [|y h] H; try done. cbn [zip_with]. injection H as H. rewrite IH by done.
  by rewrite Z.lxor_assoc, Z.lxor_nilpotent, Z.lxor_0_r.
Qed.
Lemma zlen_zip_xor (b h : list Z) : zlen b = zlen h -> zlen (zip_with Z.lxor b h) = zlen h.
Proof. unfold zlen. rewrite length_zip_with. lia. Qed.

Section Hidden.
Context {DG : Digests} {DL : DigestsLaws} {MD : Md5} {ML : Md5Laws}.
(** the backend's MD5 does not fail *)
Definition md5_total : Prop := forall d, md5_vector d <> None.
Hypothesis Hmd5 : md5_total.

Lemma stream_block_ok secret seed : exists h, stream_block secret seed = Ok h /\ zlen h = 16.
Proof.
  unfold stream_block. destruct (md5_vector _) as [h|] eqn:E; [|by destruct (Hmd5 _ E)]. exists h. split; [done|]. by apply (md5_16 _ _ E).
Qed.

Lemma get_block (p : list Z) : 16 <= zlen p -> get p 0 16 = Ok (take 16 p) /\ zlen (take 16 p) = 16.
Proof.
  intros H. assert (zlen (take 16 p) = 16) as Hz by (unfold zlen in *; rewrite length_take; lia). split; [|done].
  rewrite <- (take_drop 16 p) at 1. by apply get_head.
Qed.

(** the blocks of the cipher text give the plain text back *)
Lemma blocks_inverse n fuel secret seed p : (n < fuel)%nat -> 16 * Z.of_nat n <= zlen p ->
  exists c, encrypt_blocks fuel secret seed p (16 * Z.of_nat n) = Ok (c ++ drop (16 * n) p) /\ zlen c = 16 * Z.of_nat n /\
    forall fuel', (n < fuel')%nat -> decrypt_blocks fuel' secret seed c = Ok (take (16 * n) p).
Proof.
  revert fuel seed p. induction n as [|n IH]; intros [|fuel] seed p Hf Hp; try lia.
  - exists []. split; [done|]. split; [done|]. by intros [|fuel'] Hf'; [lia|].
  - cbn [encrypt_blocks]. replace (0 <? 16 * Z.of_nat (S n)) with true by lia.
    destruct (get_block p) as [-> Hz]; [lia|]. rewrite bind_ok. destruct (stream_block_ok secret seed) as (h & Eh & Hh). rewrite Eh, bind_ok.
    set (c1 := zip_with Z.lxor (take 16 p) h). assert (zlen c1 = 16) as Hc1 by (unfold c1; rewrite zlen_zip_xor; lia).
    replace (16 * Z.of_nat (S n) - 16) with (16 * Z.of_nat n) by lia.
    destruct (IH fuel c1 (drop 16 p)) as (c & -> & Hzc & Hd); [lia|unfold zlen in *; rewrite length_drop; lia|]. rewrite bind_ok.
    replace (16 * S n)%nat with (16 + 16 * n)%nat by lia. exists (c1 ++ c). split; [by rewrite drop_drop, <- app_assoc|]. split; [rewrite zlen_app; lia|].
    intros [|fuel'] Hf'; [lia|]. cbn [decrypt_blocks]. rewrite zlen_app, Hc1, Hzc. replace (0 <? _) with true by lia.
    rewrite (get_head c1), bind_ok by done. rewrite Eh, bind_ok. rewrite drop_app_length' by (unfold zlen in Hc1; lia).
    rewrite Hd, bind_ok by lia. unfold c1. rewrite zip_xor_xor by (unfold zlen in *; lia). f_equal.
    rewrite <- (take_take_drop p 16 (16 * n)). done.
Qed.

(** the octets the key takes with its length and padding *)
Definition padded (n : Z) : Z := 16 * ((n + 16) / 16).
Lemma padded_spec n : 0 <= n -> n + 1 <= padded n <= n + 16 /\ padded n mod 16 = 0.
Proof. unfold padded. intros H. rewrite Z.mul_comm, Z_mod_mult. lia. Qed.

Lemma encrypted_length n : 0 <= n < 255 ->
  (if negb (Z.land (1 + n) 0x0f =? 0) then Z.land (1 + n) 0xf0 + 16 else 1 + n) = padded n.
Proof.
  intros H. assert (forall b, 0 <= b < 256 ->
    ((if negb (Z.land b 0x0f =? 0) then Z.land b 0xf0 + 16 else b) =? 16 * ((b + 15) / 16)) = true) as G.
  { apply byte_forall. vm_compute. reflexivity. }
  unfold padded. rewrite (proj1 (Z.eqb_eq _ _) (G (1 + n) ltac:(lia))). do 2 f_equal. lia.
Qed.

Lemma wr_head {A} (x y : A) l : wr (x :: l) 0 y = Ok (y :: l).
Proof. rewrite wr_ok; [done|]. rewrite zlen_cons. pose proof (zlen_nonneg l). lia. Qed.

Lemma encrypt_ms_key_spec key salt req secret : 0 <= zlen key < 255 ->
  exists e ebuf, encrypt_ms_key key salt req secret = Ok (ebuf, padded (zlen key)) /\ get ebuf 0 (padded (zlen key)) = Ok e /\
    zlen e = padded (zlen key) /\
    exists pad, forall fuel, (length e < fuel)%nat -> decrypt_blocks fuel secret (req ++ to_be 2 salt) e = Ok (zlen key :: key ++ pad).
Proof.
  intros Hk. unfold encrypt_ms_key. rewrite encrypted_length by lia. cbv zeta.
  destruct (padded_spec (zlen key)) as [Hp Hm]; [lia|]. set (N := padded (zlen key)) in *.
  assert (replicate (Z.to_nat (zlen key + 16)) 0 = replicate (Z.to_nat N) 0 ++ replicate (Z.to_nat (zlen key + 16 - N)) 0) as ->
    by (rewrite <- replicate_add; f_equal; lia).
  rewrite blit_head, bind_ok by done.
  replace (Z.to_nat N) with (S (length key + Z.to_nat (N - 1 - zlen key))) by (unfold zlen in *; lia).
  cbn [replicate app]. rewrite wr_head, bind_ok. rewrite u8_small by lia.
  set (pad := replicate (Z.to_nat (N - 1 - zlen key)) 0). set (tail := replicate (Z.to_nat (zlen key + 16 - N)) 0).
  rewrite replicate_add. change (replicate (Z.to_nat (N - 1 - zlen key)) 0) with pad. rewrite <- app_assoc.
  assert (blit (zlen key :: replicate (length key) 0 ++ pad ++ tail) 1 key = Ok ([zlen key] ++ key ++ pad ++ tail)) as ->
    by (apply (blit_app [zlen key]); [done|unfold zlen; by rewrite length_replicate]).
  rewrite bind_ok. assert (zlen pad = N - 1 - zlen key) as Hpad by (unfold pad, zlen; rewrite length_replicate; unfold zlen in *; lia).
  set (n := Z.to_nat (N / 16)). assert (N = 16 * Z.of_nat n) as EN by (unfold n; lia).
  set (p := [zlen key] ++ key ++ pad ++ tail).
  assert (p = ([zlen key] ++ key ++ pad) ++ tail) as Ep by (unfold p; by rewrite <- !app_assoc).
  assert (zlen ([zlen key] ++ key ++ pad) = N) as Hzp by (rewrite !zlen_app; change (zlen [zlen key]) with 1; lia).
  destruct (blocks_inverse n (S (Z.to_nat N)) secret (req ++ to_be 2 salt) p) as (c & E & Hzc & Hd); [lia|rewrite Ep, zlen_app; pose proof (zlen_nonneg tail); lia|].
  replace (S (S (length key + Z.to_nat (N - 1 - zlen key)))) with (S (Z.to_nat N)) by (unfold zlen in *; lia).
  rewrite <- EN in E. rewrite E, bind_ok. exists c. eexists. split; [done|]. split; [apply get_head; lia|]. split; [lia|].
  exists pad. intros fuel Hf. rewrite Hd by (unfold zlen in *; lia). f_equal. rewrite Ep. apply take_app_length', Nat2Z.inj.
    change (Z.of_nat (16 * n) = zlen ([zlen key] ++ key ++ pad)). lia.
Qed.

Lemma decrypt_ms_key_spec ok key salt req secret e pad : no_failure ok -> 0 < zlen key -> zlen e = padded (zlen key) -> zlen salt = 2 ->
  (forall fuel, (length e < fuel)%nat -> decrypt_blocks fuel secret (req ++ salt) e = Ok (zlen key :: key ++ pad)) ->
  decrypt_ms_key ok (salt ++ e) req secret = Ok (Some key).
Proof.
  intros Hok Hk He Hs Hd. unfold decrypt_ms_key. rewrite zlen_app, Hs, Z.add_simpl_l.
  destruct (padded_spec (zlen key)) as [Hp Hm]; [lia|]. rewrite <- He in Hp, Hm.
  replace (_ <? 2 + 16) with false by lia. rewrite Hm. cbn [Z.eqb negb]. rewrite !Hok. cbn [negb].
  rewrite (get_head salt), bind_ok by done. rewrite (get_last salt), bind_ok by done. rewrite Hd, bind_ok by lia.
  change (zlen key :: key ++ pad) with ([zlen key] ++ key ++ pad). rewrite (rd_app_l [zlen key]) by (change (zlen [zlen key]) with 1; lia).
  assert (rd [zlen key] 0 = Ok (zlen key)) as -> by done. rewrite bind_ok. rewrite !zlen_app. change (zlen [zlen key]) with 1.
  pose proof (zlen_nonneg pad). replace (_ || _) with false by lia. rewrite (get_app [zlen key]), bind_ok by done. done.
Qed.

(** the value of a vendor's attribute with one sub-attribute *)
Definition vendor_value (vendor type : Z) (d : list Z) : list Z := vendor_header vendor type (vendor_hdr_size + zlen d) ++ d.
Definition vendor_attr (vendor type : Z) (d : list Z) : attribute := (RADIUS_ATTR_VENDOR_SPECIFIC, vendor_value vendor type d).
Definition no_vendor (l : list attribute) : Prop := Forall (fun a => fst a <> RADIUS_ATTR_VENDOR_SPECIFIC) l.

Lemma zlen_vendor_value vendor type d : zlen (vendor_value vendor type d) = 6 + zlen d.
Proof. unfold vendor_value, vendor_header. rewrite !zlen_app, zlen_to_be. done. Qed.

(** a vendor's attribute with one sub-attribute *)
Lemma vendor_loop_one fuel pre type' type d rest : zlen d <= 247 ->
  vendor_loop (S (S fuel)) (pre ++ type' :: (2 + zlen d) :: d ++ rest) type (zlen pre) (2 + zlen d) =
    Ok (if type' =? type then Some (zlen pre + 2, zlen d) else None).
Proof.
  intros Hd. pose proof (zlen_nonneg d). set (fuel' := S fuel). cbn [vendor_loop]. unfold vendor_hdr_size. replace (2 <=? _) with true by lia.
  rewrite (rd_at pre _ _ (zlen pre)), bind_ok by done.
  replace (pre ++ type' :: 2 + zlen d :: d ++ rest) with ((pre ++ [type']) ++ (2 + zlen d) :: d ++ rest) at 1 by by rewrite <- app_assoc.
  rewrite (rd_at (pre ++ [type']) _ _ (zlen pre + 1)), bind_ok by by rewrite zlen_app. replace (_ || _) with false by lia.
  destruct (_ =? _); cbn [negb]; [by rewrite Z.add_simpl_l|]. unfold fuel'. cbn [vendor_loop]. by rewrite Z.sub_diag.
Qed.

(** one attribute of a vendor: its sub-attribute is found, or passed *)
Lemma find_vendor_at m vendor type type' d l pre post : 0 <= vendor < 2 ^ 32 -> zlen d <= 247 ->
  r_head m = pre ++ attributes_bytes (vendor_attr vendor type' d :: l) ++ post ->
  find_vendor m vendor type (positions (zlen pre) (vendor_attr vendor type' d :: l)) =
    if type' =? type then Ok (Some (zlen pre + 8, zlen d))
    else find_vendor m vendor type (positions (zlen (pre ++ attribute_bytes (vendor_attr vendor type' d))) l).
Proof.
  intros Hv Hd E. cbn [positions find_vendor]. rewrite advance in E. rewrite <- app_assoc in E. next_attribute E (vendor_attr vendor type' d) (zlen pre).
  unfold vendor_attr in *. cbn [fst snd] in *. rewrite zlen_vendor_value in *. rewrite Z.eqb_refl. cbn [negb orb]. pose proof (zlen_nonneg d).
  unfold attr_hdr_size in *. replace (_ || _) with false by lia.
  unfold attribute_bytes in E. cbn [fst snd] in E. rewrite zlen_vendor_value in E. unfold vendor_value, vendor_header, vendor_hdr_size in E.
  set (x := [RADIUS_ATTR_VENDOR_SPECIFIC; attr_hdr_size + (6 + zlen d)]) in E. set (rest := attributes_bytes l ++ post) in E.
  assert (r_head m = (pre ++ x) ++ to_be 4 vendor ++ [type'; u8 (2 + zlen d)] ++ d ++ rest) as E1 by (rewrite E; by rewrite <- !app_assoc).
  assert (zlen pre + 2 = zlen (pre ++ x)) as Ep by by rewrite zlen_app.
  rewrite Ep. rewrite E1, get_be32_at, bind_ok by lia. rewrite Z.eqb_refl. cbn [negb].
  assert (zlen (pre ++ x) + 4 = zlen ((pre ++ x) ++ to_be 4 vendor)) as Ep4 by (by rewrite (zlen_app (pre ++ x)), zlen_to_be).
  rewrite Ep4. rewrite u8_small by lia. cbn [app]. rewrite (app_assoc (pre ++ x)).
  replace (2 + (6 + zlen d) - 2 - 4) with (2 + zlen d) by lia. change 256%nat with (S (S 254)). rewrite vendor_loop_one, bind_ok by done.
  replace (zlen ((pre ++ x) ++ to_be 4 vendor) + 2) with (zlen pre + 8) by lia. destruct (type' =? type); [done|by rewrite zlen_app].
Qed.

(** attributes in which a vendor's sub-attribute is not *)
Definition passed (vendor type : Z) (a : attribute) : Prop :=
  fst a <> RADIUS_ATTR_VENDOR_SPECIFIC \/ exists type' d, a = vendor_attr vendor type' d /\ type' <> type /\ zlen d <= 247.
Lemma no_vendor_passed vendor type l : no_vendor l -> Forall (passed vendor type) l.
Proof. intros H. eapply Forall_impl; [|exact H]. intros a Ha. by left. Qed.

Lemma find_vendor_skip m vendor type l l2 pre post : 0 <= vendor < 2 ^ 32 -> Forall (passed vendor type) l ->
  r_head m = pre ++ attributes_bytes (l ++ l2) ++ post ->
  find_vendor m vendor type (positions (zlen pre) (l ++ l2)) = find_vendor m vendor type (positions (zlen (pre ++ attributes_bytes l)) l2).
Proof.
  intros Hv Hl. revert pre. induction Hl as [|a l Ha _ IH]; intros pre E; [by rewrite app_nil_r|]. cbn [app] in *. cbn [attributes_bytes].
  rewrite app_assoc. destruct Ha as [Ha|(type' & d & -> & Hne & Hd)].
  - cbn [positions find_vendor]. rewrite advance in E. pose proof E as E'. rewrite <- app_assoc in E'. next_attribute E' a (zlen pre).
    rewrite (proj2 (Z.eqb_neq _ _) Ha). cbn [negb orb].
    replace (zlen pre + zlen (attribute_bytes a)) with (zlen (pre ++ attribute_bytes a)) by by rewrite zlen_app. by apply IH.
  - rewrite (find_vendor_at m vendor type type' d _ pre post Hv Hd E). rewrite (proj2 (Z.eqb_neq _ _) Hne). apply IH. by rewrite advance in E.
Qed.

(** the value of the sub-attribute that is first *)
Lemma get_vendor_attr_spec ok m h l type d l2 : represents m h (l ++ vendor_attr RADIUS_VENDOR_ID_MICROSOFT type d :: l2) ->
  Forall (passed RADIUS_VENDOR_ID_MICROSOFT type) l -> zlen d <= 247 ->
  radius_msg_get_vendor_attr ok m RADIUS_VENDOR_ID_MICROSOFT type = Ok (if (ok : bool) then Some d else None).
Proof.
  intros [E Hz Ep _ _] Hl Hd. unfold radius_msg_get_vendor_attr. rewrite Ep, (positions_hdr h) by done.
  assert (r_head m = h ++ attributes_bytes (l ++ vendor_attr RADIUS_VENDOR_ID_MICROSOFT type d :: l2) ++ []) as E0 by by rewrite app_nil_r.
  rewrite (find_vendor_skip m RADIUS_VENDOR_ID_MICROSOFT _ l _ h [] ltac:(done) Hl E0).
  assert (r_head m = (h ++ attributes_bytes l) ++ attributes_bytes (vendor_attr RADIUS_VENDOR_ID_MICROSOFT type d :: l2) ++ []) as E1
    by by rewrite E0, attributes_app, <- !app_assoc.
  rewrite (find_vendor_at m RADIUS_VENDOR_ID_MICROSOFT type type d l2 _ [] ltac:(done) Hd E1). rewrite Z.eqb_refl, bind_ok. destruct ok; [|done].
  clear E E0 Ep. rewrite E1. clear E1. cbn [attributes_bytes]. unfold vendor_attr, attribute_bytes, vendor_value, vendor_header. cbn [fst snd].
  set (x := [RADIUS_ATTR_VENDOR_SPECIFIC; _]). set (y := [type; _]). set (w := to_be 4 RADIUS_VENDOR_ID_MICROSOFT). set (pre := h ++ _).
  replace (pre ++ ((x ++ (w ++ y) ++ d) ++ attributes_bytes l2) ++ []) with ((pre ++ x ++ w ++ y) ++ d ++ attributes_bytes l2)
    by by rewrite app_nil_r, <- !app_assoc.
  rewrite get_app, bind_ok; [done| |done]. by rewrite (zlen_app pre).
Qed.
End Hidden.

(** ** Conversations through a message *)

Section Carried.
Context {DG : Digests} {DL : DigestsLaws} {MD : Md5} {ML : Md5Laws}.

(** an MS-MPPE key is added as the attribute that decrypts to it *)
Definition carries (type : Z) (req secret key : list Z) (d : list Z) : Prop :=
  zlen d <= 247 /\ forall ok, no_failure ok -> decrypt_ms_key ok d req secret = Ok (Some key).

Lemma add_mppe_key_spec ok type salt req secret key m h l : md5_total -> no_failure ok -> represents m h l -> 0 < zlen key < 240 ->
  exists m' d, add_mppe_key ok type salt req secret key m = Ok (true, m') /\ carries type req secret key d /\
    represents m' h (l ++ [vendor_attr RADIUS_VENDOR_ID_MICROSOFT type d]).
Proof.
  intros Hmd5 Hok Hr Hk. unfold add_mppe_key. rewrite Hok. cbn [negb].
  destruct (encrypt_ms_key_spec Hmd5 key salt req secret) as (e & ebuf & -> & Eg & He & pad & Hd); [lia|]. rewrite bind_ok, Eg, bind_ok. cbv zeta.
  destruct (padded_spec (zlen key)) as [Hp Hm]; [lia|]. assert (padded (zlen key) <= 240) as H240 by (unfold padded; lia).
  set (d := to_be 2 salt ++ e). assert (zlen d = 2 + padded (zlen key)) as Hzd by (unfold d; rewrite zlen_app, zlen_to_be; lia).
  assert (vendor_header RADIUS_VENDOR_ID_MICROSOFT type (4 + vendor_hdr_size + 2 + padded (zlen key) - 4) ++ d =
          vendor_value RADIUS_VENDOR_ID_MICROSOFT type d) as -> by (unfold vendor_value, vendor_hdr_size; do 2 f_equal; lia).
  destruct (add_attr_spec (after_allocs 1 ok) RADIUS_ATTR_VENDOR_SPECIFIC (vendor_value RADIUS_VENDOR_ID_MICROSOFT type d) m h l Hr)
    as (r & m' & -> & Hres); [done|rewrite zlen_vendor_value; unfold RADIUS_MAX_ATTR_LEN; lia|].
  destruct r as [p|]; [|by destruct Hres as [E|E]; rewrite (no_failure_after 1 ok Hok) in E]. rewrite bind_ok. destruct Hres as [_ Hr'].
  exists m', d. split; [done|]. split; [|exact Hr']. split; [lia|]. intros ok' Hok'.
  apply (decrypt_ms_key_spec ok' key (to_be 2 salt) req secret e pad); [done|lia|done|by rewrite zlen_to_be|done].
Qed.

(** C34: the keys that [radius_msg_add_mppe_keys] puts into a message are the keys that [radius_msg_get_ms_keys] reads from any message with
    these attributes, whatever follows them: the encryption of RFC 2548, 2.4.2 and its inverse, through the vendor's attributes. *)
Theorem mppe_keys_roundtrip ok ok' random req secret send recv m h l sent ci' f' l' :
  md5_total -> no_failure ok -> no_failure ok' -> represents m h l -> no_vendor l ->
  0 < zlen send < 240 -> 0 < zlen recv < 240 -> represents sent (header ci' f' req) l' -> header_ok ci' f' req ->
  exists m' a b, radius_msg_add_mppe_keys ok random req secret send recv m = Ok (1, m') /\ represents m' h (l ++ [a; b]) /\
    forall m2 h2 l2, represents m2 h2 (l ++ a :: b :: l2) ->
      radius_msg_get_ms_keys ok' m2 sent secret = Ok (Some (mkMppe (Some send) (Some recv))).
Proof.
  intros Hmd5 Hok Hok' Hr Hn Hs Hv Hsent Hhs. unfold radius_msg_add_mppe_keys. cbv zeta. set (salt := u16 _).
  destruct (add_mppe_key_spec ok RADIUS_VENDOR_ATTR_MS_MPPE_SEND_KEY salt req secret send m h l Hmd5 Hok Hr Hs) as (m1 & d1 & -> & [Hz1 Hd1] & Hr1).
  rewrite bind_ok. cbn [negb].
  destruct (add_mppe_key_spec (after_allocs 3 ok) RADIUS_VENDOR_ATTR_MS_MPPE_RECV_KEY (Z.lxor salt 1) req secret recv m1 h _ Hmd5
    (no_failure_after 3 ok Hok) Hr1 Hv) as (m2 & d2 & -> & [Hz2 Hd2] & Hr2).
  rewrite bind_ok. set (a := vendor_attr _ _ d1) in *. set (b := vendor_attr _ _ d2) in *. exists m2, a, b. split; [done|].
  rewrite <- app_assoc in Hr2. split; [done|]. intros m3 h2 l2 Hr3. unfold radius_msg_get_ms_keys. rewrite Hok'. cbn [negb].
  rewrite (authenticator_spec sent _ _ _ _ Hsent Hhs), bind_ok.
  unfold decrypt_attr. rewrite (get_vendor_attr_spec _ m3 h2 l _ d1 (b :: l2) Hr3) by (done || by apply no_vendor_passed).
  assert (represents m3 h2 ((l ++ [a]) ++ b :: l2)) as Hr4 by by rewrite <- app_assoc.
  rewrite (get_vendor_attr_spec _ m3 h2 (l ++ [a]) _ d2 l2 Hr4); [|apply Forall_app; split; [by apply no_vendor_passed|]|done].
  - rewrite !(no_failure_after _ _ Hok'). cbn [mbind M_bind].
    rewrite Hd1, bind_ok, Hd2, bind_ok; [done|by repeat apply no_failure_after..].
  - apply Forall_cons; [|constructor]. right. by exists RADIUS_VENDOR_ATTR_MS_MPPE_SEND_KEY, d1.
Qed.

Lemma eap_data_app l1 l2 : eap_data (l1 ++ l2) = eap_data l1 ++ eap_data l2.
Proof. unfold eap_data. by rewrite map_app, concat_app. Qed.

(** C35: an EAP message that is not empty and fits the 16-bit length of a RADIUS message, when it is put into a RADIUS message ([radius_msg_new], [radius_msg_add_eap], [radius_msg_finish]), in as many attributes
    as it takes, comes out of the octets on the other side ([radius_msg_parse], [radius_msg_get_eap]) as it was. *)
Theorem eap_through_radius ok ok' code identifier secret eap :
  no_failure ok -> no_failure ok' -> (forall k d, hmac_md5 k d <> None) -> eap <> [] ->
  radius_hdr_size + zlen (attributes_bytes (eap_chunks (S (length eap)) eap)) + 18 <= 0xffff ->
  exists m m1 m2 m3, radius_msg_new ok code identifier = Ok (Some m) /\ radius_msg_add_eap ok eap m = Ok (1, m1) /\
    radius_msg_finish ok (Some secret) m1 = Ok (0, m2) /\ radius_msg_parse ok' (r_head m2) = Ok (Some m3) /\
    radius_msg_get_eap true m3 = Ok (Some eap).
Proof.
  intros Hok Hok' Hmac Hne Hz. destruct (new_spec ok code identifier Hok) as (m & E0 & Hr).
  destruct (add_eap_spec ok eap m _ [] Hok Hr) as (m1 & E1 & Hr1). cbn [app] in Hr1. set (l := eap_chunks _ eap) in *.
  set (ci := [u8 code; u8 identifier]). set (f := replicate 2 0).
  assert (header_ok ci f zeros) as Hh by done. assert (represents m1 (header ci f zeros) l) as Hr1' by exact Hr1.
  destruct (msg_auth_of secret ci (finished_length l) zeros (l ++ [msg_auth zeros])) as [mac|] eqn:Emac; [|by destruct (Hmac _ _ Emac)].
  destruct (finish_spec ok secret m1 ci f zeros l mac Hok Hr1' Hh Emac) as (m2 & E2 & Hr2 & Hh2).
  rewrite (proj2 (Z.ltb_ge _ _) Hz) in E2. destruct (hmac_md5_16 _ _ _ Emac) as [Hzm _].
  destruct (parse_complete ok' (header ci (finished_length l) zeros) (l ++ [msg_auth mac]) [] Hok') as (m3 & E3 & Hr3 & _); [by apply zlen_header| |].
  { unfold header_length_is, header, finished_length, o_length. rewrite zlen_msg_auth, Z.add_assoc by done.
    apply (get_be16_at ci). pose proof (zlen_nonneg (attributes_bytes l)). unfold radius_hdr_size in *. lia. }
  exists m, m1, m2, m3. split; [done|]. split; [done|]. split; [done|].
  split; [destruct Hr2 as [-> _ _ _ _]; by rewrite app_nil_r in E3|].
  rewrite (get_eap_spec m3 _ _ true Hr3), eap_data_app. unfold l at 1 2. rewrite eap_chunks_data by lia.
  change (eap_data [msg_auth mac]) with (@nil Z). rewrite app_nil_r. destruct (Z.eqb_spec (zlen eap) 0); [|done].
  destruct Hne. apply nil_length_inv. unfold zlen in *. lia.
Qed.

(** [radius_msg_parse] accepts a buffer exactly when its length field is at least the header and at most what was received, and the
    octets up to it divide into attributes of at least two octets; what it keeps is the header and these attributes. *)
Theorem parse_iff ok data : no_failure ok -> bytes data ->
  (exists m, radius_msg_parse ok data = Ok (Some m)) <->
  exists h l extra, data = h ++ attributes_bytes l ++ extra /\ zlen h = radius_hdr_size /\ Forall attribute_ok l /\
    header_length_is h (radius_hdr_size + zlen (attributes_bytes l)).
Proof.
  intros Hok Hb. split.
  - intros [m E]. pose proof (parse_sound ok data Hb) as Hs. rewrite E in Hs. destruct Hs as (h & l & extra & Ed & Hl & Hr & _ & Hn & _).
    exists h, l, extra. split; [done|]. split; [apply Hr|done].
  - intros (h & l & extra & -> & Hz & Hl & Hn). destruct (parse_complete ok h l extra Hok Hz Hn) as (m & E & _). by exists m.
Qed.

(** C36: [radius_msg_verify_msg_auth] on a received message with a Message-Authenticator of fewer than sixteen octets at its end reads and
    writes beyond the memory of the message (the parser takes every length from two up), before anything is authenticated. *)
Theorem short_msg_auth_out_of_bounds ok data secret auth m h l v :
  bytes data -> radius_msg_parse ok data = Ok (Some m) -> represents m h (l ++ [msg_auth v]) -> no_msg_auth l -> zlen v < 16 ->
  wpabuf_size (r_buf m) = zlen (r_head m) /\ radius_msg_verify_msg_auth secret auth m = Err OutOfBounds.
Proof.
  intros Hb E Hr Hn Hv. pose proof (parse_sound ok data Hb) as Hs. rewrite E in Hs.
  destruct Hs as (_ & _ & _ & _ & _ & _ & _ & _ & Hsize). split; [done|]. clear E Hsize.
  unfold radius_msg_verify_msg_auth. destruct (only_msg_auth_spec m h _ Hr) as [[_ H0]|[(l1 & w & l2 & El & H1 & _ & ->)|(l1 & w & l2 & w' & l3 & El & _)]].
  - apply Forall_app in H0 as [_ H0]. by apply Forall_cons_1 in H0 as [H0 _].
  - destruct (the_msg_auth _ _ _ _ _ _ El Hn H1) as (<- & <- & <-). rewrite bind_ok. unfold check_msg_auth, get.
    rewrite (zlen_r_head _ _ _ Hr), attributes_app, zlen_app. cbn [attributes_bytes]. rewrite app_nil_r, zlen_attribute. cbn [msg_auth snd].
    unfold MD5_MAC_LEN, attr_hdr_size. destruct (_ && _) eqn:Eg; [|done]. lia.
  - symmetry in El. destruct (several_msg_auth _ _ _ _ _ _ _ _ El Hn). constructor.
Qed.

Lemma computed_safe h : h <> None -> safe (computed h) (fun _ => True).
Proof. by destruct h. Qed.

(** On a message whose Message-Authenticator attributes have sixteen octets, [radius_msg_verify] stays in the memory of the message and
    answers 0 or 1, whatever the response is. *)
Theorem radius_verify_safe secret sent auth m h l h' l' :
  md5_total -> (forall k d, hmac_md5 k d <> None) -> represents m h l -> msg_auth_16 l -> represents sent h' l' ->
  safe (radius_msg_verify secret (Some sent) auth m) (fun r => r = 0 \/ r = 1).
Proof.
  intros Hmd5 Hmac Hr Hl Hs. destruct (header_parts h) as (ci & f & a & -> & Hh); [apply Hr|].
  destruct (header_parts h') as (ci' & f' & req & -> & Hhs); [apply Hs|]. assert (zlen req = 16) as Hq by apply Hhs.
  unfold radius_msg_verify. rewrite (authenticator_spec sent _ _ _ _ Hs Hhs), bind_ok.
  assert (forall h, h <> None -> forall (g : list Z -> bool), safe (d ← computed h; Ok (if g d then 0 else 1)) (fun r => r = 0 \/ r = 1)) as Hc.
  { intros [d|] Hne g; [|done]. cbn [computed]. rewrite bind_ok. destruct (g d); [by left|by right]. }
  apply (safe_bind (fun r => r = 0 \/ r = 1)).
  - destruct auth; [|by left]. unfold radius_msg_verify_msg_auth.
    destruct (only_msg_auth_spec m _ l Hr) as [[-> Hn]|[(l1 & v & l2 & -> & H1 & H2 & ->)|(l1 & v & l2 & w & l3 & -> & ->)]]; rewrite bind_ok; [by right| |by right].
    assert (zlen v = 16) as Hv by (apply Forall_app in Hl as [_ Hl]; apply Forall_cons_1 in Hl as [Hl _]; by apply Hl).
    rewrite (check_msg_auth_spec secret req m ci f a l1 v l2 Hr Hh Hv Hq). apply (Hc _ (Hmac _ _) (fun d => bool_decide (v = d))).
  - intros r _. destruct (r =? 0); cbn [negb]; [|by right]. rewrite (check_authenticator_spec secret req m ci f a l Hr Hh).
    apply (Hc _ (Hmd5 _) (fun d => bool_decide (d = a))).
Qed.

(** an integer attribute reads back as the value it was added with, modulo 2^32. *)
Theorem int32_roundtrip ok t value m h l : no_failure ok -> represents m h l -> is_byte t -> no_type t l ->
  exists m', radius_msg_add_attr_int32 ok t value m = Ok (true, m') /\ radius_msg_get_attr_int32 m' t = Ok (Some (u32 value)).
Proof.
  intros Hok Hr Ht Hl. unfold radius_msg_add_attr_int32, radius_msg_get_attr_int32.
  destruct (add_attr_spec ok t (to_be 4 value) m h l Hr Ht) as (r & m' & -> & Hres); [by rewrite zlen_to_be|].
  destruct r as [p|]; [|by destruct Hres as [E|E]; rewrite Hok in E]. destruct Hres as [_ Hr']. rewrite bind_ok. exists m'. split; [done|].
  rewrite (get_attr_spec m' h l t (to_be 4 value) [] 4 Hr' Hl), bind_ok by by rewrite zlen_to_be. rewrite zlen_to_be.
  change (Z.of_nat 4 =? 4) with true. cbn [negb]. unfold to_be. by rewrite be_rev, le_to_le.
Qed.
End Carried.

(** ** Concrete messages *)

Definition sample_msg (h : list Z) (l : list attribute) : radius_msg :=
  mkRadius (mkBuf 1024 (h ++ attributes_bytes l)) (positions radius_hdr_size l) 16.
Lemma sample_represents h l : zlen h = radius_hdr_size -> zlen (h ++ attributes_bytes l) <= 1024 -> represents (sample_msg h l) h l.
Proof. intros Hz Hs. by split. Qed.

Definition sample_ci : list Z := [RADIUS_CODE_ACCESS_CHALLENGE; 7].
Definition sample_secret : list Z := [115; 101; 99].
Definition sample_req : list Z := replicate 16 5.
Definition sample_attrs : list attribute := [(RADIUS_ATTR_EAP_MESSAGE, [1; 7; 0; 5; 4]); (24, [9; 9])].
Definition sample_sent : radius_msg := sample_msg (header [RADIUS_CODE_ACCESS_REQUEST; 7] [0; 20] sample_req) [].
Definition sample_f : list Z := Eval vm_compute in finished_length sample_attrs.
Definition sample_mac : list Z := Eval vm_compute in
  default [] (msg_auth_of sample_secret sample_ci sample_f sample_req (sample_attrs ++ [msg_auth zeros])).
Definition sample_resp : list Z := Eval vm_compute in
  default [] (response_auth sample_secret sample_ci sample_f sample_req (sample_attrs ++ [msg_auth sample_mac])).
Definition sample_response : radius_msg := sample_msg (header sample_ci sample_f sample_resp) (sample_attrs ++ [msg_auth sample_mac]).
Definition sample_challenge : radius_msg := sample_msg (header sample_ci [0; 0] zeros) sample_attrs.
Definition sample_short : list Z := header [RADIUS_CODE_ACCESS_CHALLENGE; 7] [0; 22] zeros ++ [RADIUS_ATTR_MESSAGE_AUTHENTICATOR; 2].

Lemma always : no_failure (fun _ => true).
Proof. done. Qed.
Lemma toy_md5_total : md5_total.
Proof. done. Qed.

(** a response whose Message-Authenticator has twenty octets, the last four of them anything *)
Definition long_f : list Z := to_be 2 (radius_hdr_size + zlen (attributes_bytes sample_attrs) + 22).
Definition long_mac : list Z := Eval vm_compute in
  default [] (hmac_md5 sample_secret (header sample_ci long_f sample_req ++ attributes_bytes sample_attrs ++
    [RADIUS_ATTR_MESSAGE_AUTHENTICATOR; 22] ++ zeros ++ [1; 2; 3; 4])).
Definition long_attrs : list attribute := sample_attrs ++ [msg_auth (long_mac ++ [1; 2; 3; 4])].
Definition long_resp : list Z := Eval vm_compute in default [] (response_auth sample_secret sample_ci long_f sample_req long_attrs).
Definition long_response : radius_msg := sample_msg (header sample_ci long_f long_resp) long_attrs.

(** it is parsed and accepted, although its Message-Authenticator is not the one of RFC 2869 *)
Lemma long_msg_auth_accepted : exists m, radius_msg_parse (fun _ => true) (r_head long_response) = Ok (Some m) /\
  radius_msg_verify sample_secret (Some sample_sent) true m = Ok 0 /\ ~ authentic sample_secret sample_req sample_ci long_f long_attrs.
Proof.
  eexists. split; [vm_compute; reflexivity|]. split; [vm_compute; reflexivity|]. intros (l1 & v & l2 & E & H1 & H2 & Eh).
  destruct (the_msg_auth sample_attrs (long_mac ++ [1; 2; 3; 4]) [] l1 v l2 E) as (<- & <- & <-); [by repeat constructor|done|].
  by apply hmac_md5_16 in Eh as [Hz _].
Qed.

Lemma verify_iff_witness : radius_msg_verify sample_secret (Some sample_sent) true sample_response = Ok 0 /\
  authentic sample_secret sample_req sample_ci sample_f (sample_attrs ++ [msg_auth sample_mac]) /\
  radius_msg_verify sample_secret (Some sample_sent) true long_response = Ok 0.
Proof.
  assert (represents sample_sent (header [RADIUS_CODE_ACCESS_REQUEST; 7] [0; 20] sample_req) []) as Hs by by apply sample_represents.
  destruct (verify_iff sample_secret sample_sent sample_response sample_ci sample_f sample_resp (sample_attrs ++ [msg_auth sample_mac])
    [RADIUS_CODE_ACCESS_REQUEST; 7] [0; 20] sample_req []) as [E1 A1]; [by apply sample_represents|done|done|done|].
  destruct (verify_iff sample_secret sample_sent long_response sample_ci long_f long_resp long_attrs
    [RADIUS_CODE_ACCESS_REQUEST; 7] [0; 20] sample_req []) as [E2 _]; [by apply sample_represents|done|done|done|].
  assert (sealed sample_secret sample_req sample_ci sample_f (sample_attrs ++ [msg_auth sample_mac])) as Hsealed.
  { exists sample_attrs, sample_mac, [], sample_mac, []. split; [done|]. split; [by repeat constructor|]. split; [constructor|].
    split; [done|]. split; [done|vm_compute; reflexivity]. }
  split; [|split].
  - apply E1. split; [done|vm_compute; reflexivity].
  - apply A1; [by repeat constructor|done].
  - apply E2. split; [|vm_compute; reflexivity]. exists sample_attrs, (long_mac ++ [1; 2; 3; 4]), [], long_mac, [1; 2; 3; 4].
    split; [done|]. split; [by repeat constructor|]. split; [constructor|]. split; [done|]. split; [done|vm_compute; reflexivity].
Defined.

Lemma response_roundtrip_witness : exists m1 m2,
  radius_msg_finish_srv (fun _ => true) sample_secret sample_req sample_challenge = Ok (0, m1) /\
  radius_msg_parse (fun _ => true) (r_head m1 ++ [0; 0]) = Ok (Some m2) /\
  represents m2 (header sample_ci (finished_length sample_attrs) sample_resp) (sample_attrs ++ [msg_auth sample_mac]) /\
  radius_msg_verify sample_secret (Some sample_sent) true m2 = Ok 0.
Proof.
  apply (response_roundtrip (fun _ => true) (fun _ => true) sample_secret sample_challenge sample_ci [0; 0] zeros sample_attrs
    sample_sent [RADIUS_CODE_ACCESS_REQUEST; 7] [0; 20] sample_req [] sample_mac sample_resp [0; 0]).
  - apply always.
  - apply always.
  - by apply sample_represents.
  - done.
  - by repeat constructor.
  - done.
  - by apply sample_represents.
  - done.
  - vm_compute; reflexivity.
  - vm_compute; reflexivity.
Defined.

Lemma mppe_keys_roundtrip_witness : exists m' a b,
  radius_msg_add_mppe_keys (fun _ => true) 77 sample_req sample_secret (seqZ 0 32) (seqZ 32 32) sample_challenge = Ok (1, m') /\
  represents m' (header sample_ci [0; 0] zeros) (sample_attrs ++ [a; b]) /\
  forall m2 h2 l2, represents m2 h2 (sample_attrs ++ a :: b :: l2) ->
    radius_msg_get_ms_keys (fun _ => true) m2 sample_sent sample_secret = Ok (Some (mkMppe (Some (seqZ 0 32)) (Some (seqZ 32 32)))).
Proof.
  apply (mppe_keys_roundtrip (fun _ => true) (fun _ => true) 77 sample_req sample_secret (seqZ 0 32) (seqZ 32 32) sample_challenge
    (header sample_ci [0; 0] zeros) sample_attrs sample_sent [RADIUS_CODE_ACCESS_REQUEST; 7] [0; 20] []).
  - apply toy_md5_total.
  - apply always.
  - apply always.
  - by apply sample_represents.
  - by repeat constructor.
  - done.
  - done.
  - by apply sample_represents.
  - done.
Defined.

Lemma eap_through_radius_witness : exists m m1 m2 m3,
  radius_msg_new (fun _ => true) RADIUS_CODE_ACCESS_REQUEST 7 = Ok (Some m) /\
  radius_msg_add_eap (fun _ => true) (replicate 300 1) m = Ok (1, m1) /\
  radius_msg_finish (fun _ => true) (Some sample_secret) m1 = Ok (0, m2) /\ radius_msg_parse (fun _ => true) (r_head m2) = Ok (Some m3) /\
  radius_msg_get_eap true m3 = Ok (Some (replicate 300 1)).
Proof.
  apply (eap_through_radius (fun _ => true) (fun _ => true) RADIUS_CODE_ACCESS_REQUEST 7 sample_secret (replicate 300 1)).
  - apply always.
  - apply always.
  - done.
  - done.
  - vm_compute. discriminate.
Defined.

Lemma parse_iff_witness : exists m, radius_msg_parse (fun _ => true) (header sample_ci [0; 26] zeros ++ [24; 2; 25; 4; 1; 2; 3; 3]) = Ok (Some m).
Proof.
  apply (parse_iff (fun _ => true)).
  - apply always.
  - by repeat constructor.
  - exists (header sample_ci [0; 26] zeros), [(24, []); (25, [1; 2])], [3; 3]. split; [done|]. split; [done|].
    split; [by repeat constructor|vm_compute; reflexivity].
Defined.

Lemma short_msg_auth_witness : exists m, radius_msg_parse (fun _ => true) sample_short = Ok (Some m) /\
  wpabuf_size (r_buf m) = zlen (r_head m) /\ radius_msg_verify_msg_auth sample_secret (Some sample_req) m = Err OutOfBounds.
Proof.
  eexists. split; [vm_compute; reflexivity|].
  apply (short_msg_auth_out_of_bounds (fun _ => true) sample_short sample_secret (Some sample_req) _
    (header [RADIUS_CODE_ACCESS_CHALLENGE; 7] [0; 22] zeros) [] []).
  - by repeat constructor.
  - vm_compute; reflexivity.
  - by split.
  - constructor.
  - done.
Defined.

Lemma radius_verify_safe_witness : safe (radius_msg_verify sample_secret (Some sample_sent) true sample_challenge) (fun r => r = 0 \/ r = 1).
Proof.
  apply (radius_verify_safe sample_secret sample_sent true sample_challenge (header sample_ci [0; 0] zeros) sample_attrs
    (header [RADIUS_CODE_ACCESS_REQUEST; 7] [0; 20] sample_req) []).
  - apply toy_md5_total.
  - done.
  - by apply sample_represents.
  - by repeat constructor.
  - by apply sample_represents.
Defined.
