(* ===== verification/Merkle.v ===== *)
(** * Iterated digests

    What sha1-internal.c, md5-internal.c and sha256-internal.c share: a state
    that is compressed with blocks of 64 octets, a context that holds the octets
    of an incomplete block, and padding with the length.  Also the 32-bit
    rotations and the facts about bits that their compressions need. *)

From S2P Require Import Prelude HexText AesCtr EapCommon.
Open Scope Z_scope.

(** ** Words *)

(** #define rol(value, bits) *)
Definition rol (value bits : Z) : Z := Z.lor (u32 (Z.shiftl value bits)) (Z.shiftr value (32 - bits)).
Definition is_word (x : Z) : Prop := 0 <= x < 2 ^ 32.
Definition words (l : list Z) : Prop := Forall is_word l.

Lemma u32_word x : is_word (u32 x).
Proof. apply u32_range. Qed.
Lemma word_testbit x i : is_word x -> 32 <= i -> Z.testbit x i = false.
Proof. intros H Hi. rewrite <- (Z.mod_small x (2 ^ 32)) by exact H. apply Z.mod_pow2_bits_high. lia. Qed.
Lemma word_bits x : 0 <= x -> (forall i, 32 <= i -> Z.testbit x i = false) -> is_word x.
Proof.
  intros H0 H. split; [done|]. destruct (Z.eq_dec x 0) as [->|Hne]; [done|]. apply Z.log2_lt_pow2; [lia|].
  destruct (Z.lt_ge_cases (Z.log2 x) 32); [done|]. pose proof (Z.bit_log2 x ltac:(lia)) as E. by rewrite H in E.
Qed.
Lemma lor_word x y : is_word x -> is_word y -> is_word (Z.lor x y).
Proof.
  intros Hx Hy. apply word_bits; [apply Z.lor_nonneg; unfold is_word in *; lia|]. intros i Hi.
  by rewrite Z.lor_spec, !word_testbit.
Qed.
Lemma lxor_word x y : is_word x -> is_word y -> is_word (Z.lxor x y).
Proof.
  intros Hx Hy. apply word_bits; [apply Z.lxor_nonneg; unfold is_word in *; lia|]. intros i Hi.
  by rewrite Z.lxor_spec, !word_testbit.
Qed.
Lemma land_word x y : is_word x -> is_word (Z.land x y).
Proof.
  intros Hx. apply word_bits; [apply Z.land_nonneg; unfold is_word in *; lia|]. intros i Hi.
  by rewrite Z.land_spec, (word_testbit x).
Qed.
Lemma rol_word x n : is_word x -> 0 <= n <= 32 -> is_word (rol x n).
Proof.
  intros Hx Hn. apply lor_word; [apply u32_word|]. rewrite Z.shiftr_div_pow2 by lia. unfold is_word in *.
  pose proof (Z.pow_pos_nonneg 2 (32 - n)). split; [apply Z.div_pos; lia|]. apply Z.div_lt_upper_bound; [lia|nia].
Qed.

(** bit-wise equations *)
Ltac bitwise := apply Z.bits_inj'; intros ? ?;
  repeat first [rewrite Z.land_spec | rewrite Z.lor_spec | rewrite Z.lxor_spec | rewrite Z.lnot_spec by assumption];
  repeat match goal with |- context [Z.testbit ?x ?i] => destruct (Z.testbit x i) end; reflexivity.

(** a number as its lowest octet and the rest *)
Lemma digit_bits a h i : is_byte a -> 0 <= i -> Z.testbit (a + 256 * h) i = if i <? 8 then Z.testbit a i else Z.testbit h (i - 8).
Proof.
  intros Ha Hi. replace (a + 256 * h) with (Z.lor (h * 2 ^ 8) a) by (rewrite lor_disjoint by (unfold is_byte in Ha; lia); lia).
  rewrite Z.lor_spec, Z.mul_pow2_bits by lia. destruct (Z.ltb_spec i 8).
  - by rewrite (Z.testbit_neg_r h) by lia.
  - rewrite <- (Z.mod_small a (2 ^ 8)) by exact Ha. rewrite (Z.mod_pow2_bits_high a) by lia. by rewrite orb_false_r.
Qed.
Lemma land_byte a m : is_byte a -> is_byte (Z.land a m).
Proof.
  intros Ha. split; [apply Z.land_nonneg; unfold is_byte in Ha; lia|].
  rewrite <- (Z.mod_small a (2 ^ 8)) by exact Ha. rewrite <- Z.land_ones, <- Z.land_assoc, (Z.land_comm (Z.ones 8)), Z.land_assoc, Z.land_ones by lia.
  apply Z.mod_pos_bound. lia.
Qed.
Lemma lor_byte a m : is_byte a -> is_byte m -> is_byte (Z.lor a m).
Proof.
  intros Ha Hm. rewrite <- (Z.mod_small a (2 ^ 8)), <- (Z.mod_small m (2 ^ 8)) by assumption.
  rewrite <- !Z.land_ones, <- Z.land_lor_distr_l, Z.land_ones by lia. apply Z.mod_pos_bound. lia.
Qed.
Lemma land_digit a h m k : is_byte a -> is_byte m -> Z.land (a + 256 * h) (m + 256 * k) = Z.land a m + 256 * Z.land h k.
Proof.
  intros Ha Hm. pose proof (land_byte a m Ha). apply Z.bits_inj'. intros i Hi.
  rewrite Z.land_spec, !digit_bits by done. destruct (i <? 8); by rewrite Z.land_spec.
Qed.
Lemma lor_digit a h m k : is_byte a -> is_byte m -> Z.lor (a + 256 * h) (m + 256 * k) = Z.lor a m + 256 * Z.lor h k.
Proof.
  intros Ha Hm. pose proof (lor_byte a m Ha Hm). apply Z.bits_inj'. intros i Hi.
  rewrite Z.lor_spec, !digit_bits by done. destruct (i <? 8); by rewrite Z.lor_spec.
Qed.
Lemma land_byte_mask a : is_byte a -> Z.land a 255 = a.
Proof. intros Ha. change 255 with (Z.ones 8). rewrite Z.land_ones by lia. by apply Z.mod_small. Qed.

Lemma nth_map_seq (f : nat -> Z) n j : (j < n)%nat -> nth j (map f (seq 0 n)) 0 = f j.
Proof.
  intros H. rewrite (nth_indep _ 0 (f 0%nat)) by (rewrite length_map, length_seq; lia). rewrite map_nth, seq_nth by done. done.
Qed.
Lemma nth_insert_same (l : list Z) i v : (i < length l)%nat -> nth i (<[i := v]> l) 0 = v.
Proof. intros H. by rewrite nth_lookup, list_lookup_insert_eq. Qed.
Lemma nth_insert_other (l : list Z) i j v : i <> j -> nth j (<[i := v]> l) 0 = nth j l 0.
Proof. intros H. rewrite !nth_lookup. by rewrite list_lookup_insert_ne. Qed.

Lemma words_nth h k : words h -> is_word (nth k h 0).
Proof. intros H. rewrite nth_lookup. destruct (h !! k) as [w|] eqn:E; [|done]. exact (Forall_lookup_1 _ _ _ _ H E). Qed.

(** the sixteen words of a buffer, as a little-endian machine reads them *)
Definition le_words (buffer : list Z) : list Z := map (fun i => le (slice (4 * i) 4 buffer)) (seq 0 16).

Lemma nth_le_words b j : (j < 16)%nat -> nth j (le_words b) 0 = le (slice (4 * j) 4 b).
Proof. intros H. unfold le_words. by rewrite nth_map_seq. Qed.
(** as big-endian numbers *)
Definition be_words (b : list Z) : list Z := map (fun i => be (slice (4 * i) 4 b)) (seq 0 16).
Lemma nth_be_words b j : (j < 16)%nat -> nth j (be_words b) 0 = be (slice (4 * j) 4 b).
Proof. intros H. unfold be_words. by rewrite nth_map_seq. Qed.

(** a length that u32 holds, with a block to spare *)
Definition fits_u32 (d : list Z) : Prop := zlen d < 2 ^ 32 - 64.

(** ** Blocks *)

(** the octets after the complete blocks *)
Definition left_over (d : list Z) : list Z := drop (64 * (length d / 64)) d.
Lemma length_left_over d : length (left_over d) = (length d mod 64)%nat.
Proof. unfold left_over. rewrite length_drop. pose proof (Nat.div_mod_eq (length d) 64). lia. Qed.

Section Blocks.
Context {St : Type} (compress : St -> list Z -> St) (init : St).

Fixpoint absorb (n : nat) (st : St) (l : list Z) : St :=
  match n with O => st | S n => absorb n (compress st (take 64 l)) (drop 64 l) end.
(** the state after the complete blocks *)
Definition after_blocks (d : list Z) : St := absorb (length d / 64) init d.
(** a digest from a message that is padded to whole blocks *)
Definition iterated (padded : list Z) : St := after_blocks padded.

Lemma absorb_app n m st a b : length a = (64 * n)%nat -> absorb (n + m) st (a ++ b) = absorb m (absorb n st a) b.
Proof.
  revert st a. induction n as [|n IH]; intros st a Ha.
  - destruct a; [done|cbn in Ha; lia].
  - cbn [Nat.add absorb]. assert (64 <= length a)%nat as H64 by lia.
    rewrite take_app_le, drop_app_le by lia. apply IH. rewrite length_drop. lia.
Qed.

(** all the blocks of [d] and of what is left followed by [e] *)
Lemma after_blocks_app d e : after_blocks (d ++ e) = absorb (length (left_over d ++ e) / 64) (after_blocks d) (left_over d ++ e) /\
  left_over (d ++ e) = left_over (left_over d ++ e).
Proof.
  unfold after_blocks. set (n := (length d / 64)%nat).
  assert (d ++ e = take (64 * n) d ++ (left_over d ++ e)) as E by (unfold left_over; fold n; by rewrite app_assoc, take_drop).
  assert (length (take (64 * n) d) = 64 * n)%nat as Hn by (rewrite length_take; pose proof (Nat.Div0.mul_div_le (length d) 64); unfold n; lia).
  assert (length (d ++ e) = 64 * n + length (left_over d ++ e))%nat as Hl by (rewrite E at 1; rewrite length_app; lia).
  assert (length (d ++ e) / 64 = n + length (left_over d ++ e) / 64)%nat as Hd.
  { rewrite Hl, (Nat.mul_comm 64 n). rewrite Nat.add_comm, Nat.div_add by lia. lia. }
  split.
  - rewrite Hd, E. rewrite absorb_app by exact Hn. f_equal.
    rewrite <- (take_drop (64 * n) d) at 2. pose proof (absorb_app n 0 init (take (64 * n) d) (drop (64 * n) d) Hn) as E0.
    rewrite Nat.add_0_r in E0. rewrite E0. done.
  - unfold left_over at 1. rewrite Hd, E. rewrite Nat.mul_add_distr_l, <- drop_drop, drop_app_length' by done. done.
Qed.

Lemma after_blocks_short d e : (length d mod 64 + length e < 64)%nat ->
  after_blocks (d ++ e) = after_blocks d /\ left_over (d ++ e) = left_over d ++ e.
Proof.
  intros H. destruct (after_blocks_app d e) as [-> ->].
  assert (length (left_over d ++ e) < 64)%nat as Hl by (rewrite length_app, length_left_over; lia).
  split; [by rewrite Nat.div_small|]. unfold left_over at 1. by rewrite Nat.div_small.
Qed.

(** a block is completed *)
Lemma after_blocks_block d e : (length d mod 64 + length e = 64)%nat ->
  after_blocks (d ++ e) = compress (after_blocks d) (left_over d ++ e) /\ left_over (d ++ e) = [].
Proof.
  intros H. destruct (after_blocks_app d e) as [-> ->].
  assert (length (left_over d ++ e) = 64)%nat as Hl by (rewrite length_app, length_left_over; lia).
  rewrite Hl. change (64 / 64)%nat with 1%nat. cbn [absorb]. rewrite take_ge by lia. split; [done|].
  unfold left_over at 1. rewrite Hl. change (64 * (64 / 64))%nat with 64%nat. by rewrite drop_ge by lia.
Qed.
End Blocks.

(** ** Padding *)

(** the octet 0x80, zeros up to 56 modulo 64, and the length in bits *)
Definition pad_zeros (n : nat) : nat := ((119 - n mod 64) mod 64)%nat.
Definition padding (length_bytes : list Z) (n : nat) : list Z := [0x80] ++ replicate (pad_zeros n) 0 ++ length_bytes.
Lemma length_padding lb n : length lb = 8%nat -> ((n + length (padding lb n)) mod 64 = 0)%nat.
Proof.
  intros Hl. unfold padding, pad_zeros. rewrite !length_app, length_replicate, Hl. cbn [length].
  pose proof (Nat.div_mod_eq n 64). pose proof (Nat.mod_upper_bound n 64 ltac:(lia)). set (r := (n mod 64)%nat) in *. clearbody r.
  assert ((119 - r) mod 64 = if (r <? 56)%nat then 55 - r else 119 - r)%nat as ->.
  { destruct (Nat.ltb_spec r 56).
    - replace (119 - r)%nat with (55 - r + 1 * 64)%nat by lia. rewrite Nat.Div0.mod_add. apply Nat.mod_small. lia.
    - apply Nat.mod_small. lia. }
  destruct (Nat.ltb_spec r 56).
  - replace (n + (1 + (55 - r + 8)))%nat with (0 + (n / 64 + 1) * 64)%nat by lia. by rewrite Nat.Div0.mod_add.
  - replace (n + (1 + (119 - r + 8)))%nat with (0 + (n / 64 + 2) * 64)%nat by lia. by rewrite Nat.Div0.mod_add.
Qed.

(** ** The memory of an incomplete block *)

Lemma fill_buffer (buf x : list Z) (j : Z) : length buf = 64%nat -> 0 <= j -> j + zlen x <= 64 ->
  exists buf', blit buf j x = Ok buf' /\ length buf' = 64%nat /\ take (Z.to_nat j + length x) buf' = take (Z.to_nat j) buf ++ x /\
    (bytes buf -> bytes x -> bytes buf').
Proof.
  intros Hb Hj Hx. unfold blit. replace (_ && _) with true by (unfold zlen in *; lia). eexists. split; [reflexivity|].
  unfold zlen in *. split; [rewrite !length_app, length_take, length_drop; lia|]. split.
  - rewrite app_assoc. apply take_app_length'. rewrite length_app, length_take. lia.
  - intros H1 H2. apply Forall_app; split; [by apply Forall_take|]. apply Forall_app; split; [done|by apply bytes_drop].
Qed.

Lemma get_bytes (d : list Z) off n : bytes d -> 0 <= off -> 0 <= n -> off + n <= zlen d ->
  exists x, get d off n = Ok x /\ zlen x = n /\ bytes x /\ take (Z.to_nat off) d ++ x = take (Z.to_nat (off + n)) d.
Proof.
  intros Hd H0 Hn Hle. unfold get, slice. replace (_ && _) with true by lia. eexists. split; [reflexivity|].
  split; [unfold zlen in *; rewrite length_take, length_drop; lia|]. split; [apply Forall_take; by apply bytes_drop|].
  replace (Z.to_nat (off + n)) with (Z.to_nat off + Z.to_nat n)%nat by lia. by rewrite take_take_drop.
Qed.

Lemma mod64 (n : nat) : Z.of_nat (n mod 64) = Z.of_nat n mod 64.
Proof. by rewrite Nat2Z.inj_mod. Qed.

(** the number of bits in two words *)
Definition bits_low (n : Z) : Z := u32 (8 * n).
Definition bits_high (n : Z) : Z := u32 (8 * n / 2 ^ 32).
Lemma bits_index n : 0 <= n -> Z.land (Z.shiftr (bits_low n) 3) 63 = n mod 64.
Proof.
  intros Hn. change 63 with (Z.ones 6). rewrite Z.land_ones, Z.shiftr_div_pow2 by lia. unfold bits_low, u32.
  change (2 ^ 3) with 8. change (2 ^ 6) with 64. change (2 ^ 32) with (8 * 2 ^ 29). rewrite Z.mul_mod_distr_l by lia.
  rewrite (Z.mul_comm 8), Z.div_mul by lia. pose proof (Z.mod_pos_bound n (2 ^ 29) ltac:(lia)).
  rewrite (Z.div_mod n (2 ^ 29)) at 2 by lia. replace (2 ^ 29 * (n / 2 ^ 29) + n mod 2 ^ 29) with (n mod 2 ^ 29 + (2 ^ 23 * (n / 2 ^ 29)) * 64) by lia.
  by rewrite Z.mod_add by lia.
Qed.
Lemma bits_add n len : 0 <= n -> 0 <= len < 2 ^ 32 ->
  let low := u32 (bits_low n + u32 (Z.shiftl len 3)) in
  low = bits_low (n + len) /\
  u32 ((if low <? u32 (Z.shiftl len 3) then u32 (bits_high n + 1) else bits_high n) + Z.shiftr len 29) = bits_high (n + len).
Proof.
  intros Hn Hl. cbv zeta. unfold bits_low, bits_high, u32. rewrite Z.shiftl_mul_pow2, Z.shiftr_div_pow2 by lia. change (2 ^ 3) with 8.
  rewrite (Z.mul_comm len 8). split; [rewrite <- Z.add_mod by lia; f_equal; lia|].
  rewrite <- Z.add_mod by lia. replace (8 * n + 8 * len) with (8 * (n + len)) by lia.
  assert (len / 2 ^ 29 = 8 * len / 2 ^ 32) as -> by (change (2 ^ 32) with (8 * 2 ^ 29); by rewrite Z.div_mul_cancel_l by lia).
  pose proof (Z.div_mod (8 * n) (2 ^ 32) ltac:(lia)) as En. pose proof (Z.div_mod (8 * len) (2 ^ 32) ltac:(lia)) as El.
  pose proof (Z.mod_pos_bound (8 * n) (2 ^ 32) ltac:(lia)) as Bn. pose proof (Z.mod_pos_bound (8 * len) (2 ^ 32) ltac:(lia)) as Bl.
  set (x := (8 * n) mod 2 ^ 32) in *. set (y := (8 * len) mod 2 ^ 32) in *. set (q := 8 * n / 2 ^ 32) in *. set (p := 8 * len / 2 ^ 32) in *.
  destruct (Z.lt_ge_cases (x + y) (2 ^ 32)) as [Hc|Hc].
  - assert ((8 * (n + len)) mod 2 ^ 32 = x + y) as -> by (symmetry; apply (Z.mod_unique _ _ (q + p)); lia).
    assert (8 * (n + len) / 2 ^ 32 = q + p) as -> by (symmetry; apply (Z.div_unique _ _ _ (x + y)); lia).
    destruct (Z.ltb_spec (x + y) y); [lia|]. by rewrite Z.add_mod_idemp_l by lia.
  - assert ((8 * (n + len)) mod 2 ^ 32 = x + y - 2 ^ 32) as -> by (symmetry; apply (Z.mod_unique _ _ (q + p + 1)); lia).
    assert (8 * (n + len) / 2 ^ 32 = q + p + 1) as -> by (symmetry; apply (Z.div_unique _ _ _ (x + y - 2 ^ 32)); lia).
    destruct (Z.ltb_spec (x + y - 2 ^ 32) y); [|lia]. rewrite Z.add_mod_idemp_l, <- Z.add_assoc, Z.add_mod_idemp_l by lia. f_equal. lia.
Qed.

Lemma at_boundary (pre data : list Z) i : (zlen pre + i) mod 64 = 0 -> 0 <= i <= zlen data ->
  (length (pre ++ take (Z.to_nat i) data) mod 64 = 0)%nat.
Proof.
  intros Hm Hi. apply Nat2Z.inj. rewrite mod64, length_app, length_take. change (Z.of_nat 0) with 0. unfold zlen in *. rewrite <- Hm. f_equal. lia.
Qed.

Lemma land_504 n : 0 <= n -> Z.land (bits_low n) 504 = 8 * (n mod 64).
Proof.
  intros Hn. rewrite <- bits_index by done. rewrite (Z.mul_comm 8), <- (Z.shiftl_mul_pow2 _ 3) by lia. change 504 with (Z.shiftl 63 3).
  rewrite Z.shiftl_land. apply Z.bits_inj'. intros i Hi. rewrite !Z.land_spec, !Z.shiftl_spec by done.
  destruct (Z.lt_ge_cases i 3); [by rewrite !(Z.testbit_neg_r _ (i - 3)), !andb_false_r by lia|].
  rewrite Z.shiftr_spec by lia. by replace (i - 3 + 3) with i by lia.
Qed.

Lemma pad_zeros_spec n : ((n + 1 + pad_zeros n) mod 64 = 56)%nat /\ (pad_zeros n < 64)%nat.
Proof.
  unfold pad_zeros. split; [|apply Nat.mod_upper_bound; lia]. pose proof (Nat.mod_upper_bound n 64 ltac:(lia)).
  rewrite Nat.Div0.add_mod_idemp_r. pose proof (Nat.div_mod_eq n 64).
  replace (n + 1 + (119 - n mod 64))%nat with (56 + (n / 64 + 1) * 64)%nat by lia. by rewrite Nat.Div0.mod_add.
Qed.

Lemma to_le_app n m v : to_le (n + m) v = to_le n v ++ to_le m (v / 256 ^ Z.of_nat n).
Proof.
  revert v. induction n as [|n IH]; intros v; [by rewrite Z.div_1_r|]. cbn [Nat.add to_le app]. rewrite IH. do 3 f_equal.
  rewrite Z.div_div by lia. f_equal. rewrite Nat2Z.inj_succ, Z.pow_succ_r by lia. done.
Qed.
Lemma to_le_u32 w : to_le 4 (u32 w) = to_le 4 w.
Proof. exact (to_le_mod 4 w). Qed.
Lemma to_le_split v : to_le 8 v = to_le 4 (u32 v) ++ to_le 4 (u32 (v / 2 ^ 32)).
Proof. rewrite !to_le_u32. exact (to_le_app 4 4 v). Qed.
Lemma to_be_split v : to_be 8 v = to_be 4 (u32 (v / 2 ^ 32)) ++ to_be 4 (u32 v).
Proof. unfold to_be. by rewrite to_le_split, rev_app_distr. Qed.

(** the carry, seen from the other summand *)
Lemma bits_carry n len : 0 <= n -> 0 <= len < 2 ^ 32 -> let low := u32 (bits_low n + u32 (Z.shiftl len 3)) in
  (low <? bits_low n) = (low <? u32 (Z.shiftl len 3)).
Proof.
  intros Hn Hl. cbv zeta. pose proof (u32_range (8 * n)) as Bx. fold (bits_low n) in Bx. pose proof (u32_range (Z.shiftl len 3)) as By.
  set (x := bits_low n) in *. set (y := u32 (Z.shiftl len 3)) in *. unfold u32. destruct (Z.lt_ge_cases (x + y) (2 ^ 32)).
  - rewrite Z.mod_small by lia. lia.
  - replace ((x + y) mod 2 ^ 32) with (x + y - 2 ^ 32) by (apply (Z.mod_unique _ _ 1); lia). lia.
Qed.

(** what is left of the message, in its place of the memory *)
Lemma memory_split (mem : list Z) (c : nat) : length mem = 64%nat -> (c < 64)%nat ->
  exists x r, mem = take c mem ++ [x] ++ r /\ length r = (63 - c)%nat /\ zlen (take c mem) = Z.of_nat c.
Proof.
  intros Hm Hc. destruct (drop c mem) as [|x r] eqn:E.
  - apply (f_equal length) in E. rewrite length_drop in E. cbn in E. lia.
  - exists x, r. split; [cbn [app]; by rewrite <- E, take_drop|]. apply (f_equal length) in E. rewrite length_drop in E. cbn in E.
    split; [lia|]. unfold zlen. rewrite length_take. lia.
Qed.

Lemma wr_at (l1 : list Z) x l2 i y : i = zlen l1 -> wr (l1 ++ [x] ++ l2) i y = Ok (l1 ++ [y] ++ l2).
Proof.
  intros ->. rewrite wr_ok by (rewrite !zlen_app; pose proof (zlen_nonneg l1); pose proof (zlen_nonneg l2); change (zlen [x]) with 1; lia).
  f_equal. unfold zlen. rewrite Nat2Z.id. rewrite insert_app_r_alt by lia. rewrite Nat.sub_diag. done.
Qed.
