(* ===== verification/Sha1Internal.v ===== *)
(** * SHA-1 (src/hostapd-2.5/src/crypto/sha1-internal.c)

    The compression is the source's table of eighty macro calls on five
    registers and a circular block of sixteen words; it is proved to be the one
    of FIPS 180-1.  The context holds the octets of an incomplete block.  The
    variant for little-endian machines is modelled. *)

From S2P Require Import Prelude HexText AesCtr EapCommon WpaSafe Merkle.
Open Scope Z_scope.

(** ** SHA1Transform *)

(** the working variables *)
Inductive sha1_reg := Ra | Rb | Rc | Rd | Re.
Record sha1_regs := mkRegs { reg_a : Z; reg_b : Z; reg_c : Z; reg_d : Z; reg_e : Z }.
Definition reg_get (r : sha1_reg) (s : sha1_regs) : Z :=
  match r with Ra => reg_a s | Rb => reg_b s | Rc => reg_c s | Rd => reg_d s | Re => reg_e s end.
Definition reg_set (r : sha1_reg) (v : Z) (s : sha1_regs) : sha1_regs :=
  let '(mkRegs a b c d e) := s in
  match r with
  | Ra => mkRegs v b c d e | Rb => mkRegs a v c d e | Rc => mkRegs a b v d e | Rd => mkRegs a b c v e | Re => mkRegs a b c d v
  end.

(** block->l[i]: the block has sixteen words and every index is below sixteen *)
Definition word (block : list Z) (i : nat) : Z := nth i block 0.

Definition blk0 (i : nat) (block : list Z) : Z * list Z :=
  let v := Z.lor (Z.land (rol (word block i) 24) 0xFF00FF00) (Z.land (rol (word block i) 8) 0x00FF00FF) in
  (v, <[i := v]> block).
Definition blk (i : nat) (block : list Z) : Z * list Z :=
  let v := rol (Z.lxor (Z.lxor (Z.lxor (word block (Nat.land (i + 13) 15)) (word block (Nat.land (i + 8) 15)))
                               (word block (Nat.land (i + 2) 15))) (word block (Nat.land i 15))) 1 in
  (v, <[Nat.land i 15 := v]> block).

Inductive macro := R0 | R1 | R2 | R3 | R4.
Record macro_call := rnd { r_macro : macro; r_v : sha1_reg; r_w : sha1_reg; r_x : sha1_reg; r_y : sha1_reg; r_z : sha1_reg; r_i : nat }.

Definition macro_f (m : macro) (w x y : Z) : Z :=
  match m with
  | R0 | R1 => Z.lxor (Z.land w (Z.lxor x y)) y
  | R2 | R4 => Z.lxor (Z.lxor w x) y
  | R3 => Z.lor (Z.land (Z.lor w x) y) (Z.land w x)
  end.
Definition macro_k (m : macro) : Z :=
  match m with R0 | R1 => 0x5A827999 | R2 => 0x6ED9EBA1 | R3 => 0x8F1BBCDC | R4 => 0xCA62C1D6 end.

Definition sha1_round (c : macro_call) (st : sha1_regs * list Z) : sha1_regs * list Z :=
  let '(s, block) := st in
  let '(b, block) := (match r_macro c with R0 => blk0 (r_i c) block | _ => blk (r_i c) block end) in
  let w := reg_get (r_w c) s in
  let z := u32 (reg_get (r_z c) s + macro_f (r_macro c) w (reg_get (r_x c) s) (reg_get (r_y c) s) + b + macro_k (r_macro c)
                + rol (reg_get (r_v c) s) 5) in
  (reg_set (r_w c) (rol w 30) (reg_set (r_z c) z s), block).

(** 4 rounds of 20 operations each *)
Definition sha1_rounds : list macro_call :=
  [
    rnd R0 Ra Rb Rc Rd Re 0; rnd R0 Re Ra Rb Rc Rd 1; rnd R0 Rd Re Ra Rb Rc 2; rnd R0 Rc Rd Re Ra Rb 3;
    rnd R0 Rb Rc Rd Re Ra 4; rnd R0 Ra Rb Rc Rd Re 5; rnd R0 Re Ra Rb Rc Rd 6; rnd R0 Rd Re Ra Rb Rc 7;
    rnd R0 Rc Rd Re Ra Rb 8; rnd R0 Rb Rc Rd Re Ra 9; rnd R0 Ra Rb Rc Rd Re 10; rnd R0 Re Ra Rb Rc Rd 11;
    rnd R0 Rd Re Ra Rb Rc 12; rnd R0 Rc Rd Re Ra Rb 13; rnd R0 Rb Rc Rd Re Ra 14; rnd R0 Ra Rb Rc Rd Re 15;
    rnd R1 Re Ra Rb Rc Rd 16; rnd R1 Rd Re Ra Rb Rc 17; rnd R1 Rc Rd Re Ra Rb 18; rnd R1 Rb Rc Rd Re Ra 19;
    rnd R2 Ra Rb Rc Rd Re 20; rnd R2 Re Ra Rb Rc Rd 21; rnd R2 Rd Re Ra Rb Rc 22; rnd R2 Rc Rd Re Ra Rb 23;
    rnd R2 Rb Rc Rd Re Ra 24; rnd R2 Ra Rb Rc Rd Re 25; rnd R2 Re Ra Rb Rc Rd 26; rnd R2 Rd Re Ra Rb Rc 27;
    rnd R2 Rc Rd Re Ra Rb 28; rnd R2 Rb Rc Rd Re Ra 29; rnd R2 Ra Rb Rc Rd Re 30; rnd R2 Re Ra Rb Rc Rd 31;
    rnd R2 Rd Re Ra Rb Rc 32; rnd R2 Rc Rd Re Ra Rb 33; rnd R2 Rb Rc Rd Re Ra 34; rnd R2 Ra Rb Rc Rd Re 35;
    rnd R2 Re Ra Rb Rc Rd 36; rnd R2 Rd Re Ra Rb Rc 37; rnd R2 Rc Rd Re Ra Rb 38; rnd R2 Rb Rc Rd Re Ra 39;
    rnd R3 Ra Rb Rc Rd Re 40; rnd R3 Re Ra Rb Rc Rd 41; rnd R3 Rd Re Ra Rb Rc 42; rnd R3 Rc Rd Re Ra Rb 43;
    rnd R3 Rb Rc Rd Re Ra 44; rnd R3 Ra Rb Rc Rd Re 45; rnd R3 Re Ra Rb Rc Rd 46; rnd R3 Rd Re Ra Rb Rc 47;
    rnd R3 Rc Rd Re Ra Rb 48; rnd R3 Rb Rc Rd Re Ra 49; rnd R3 Ra Rb Rc Rd Re 50; rnd R3 Re Ra Rb Rc Rd 51;
    rnd R3 Rd Re Ra Rb Rc 52; rnd R3 Rc Rd Re Ra Rb 53; rnd R3 Rb Rc Rd Re Ra 54; rnd R3 Ra Rb Rc Rd Re 55;
    rnd R3 Re Ra Rb Rc Rd 56; rnd R3 Rd Re Ra Rb Rc 57; rnd R3 Rc Rd Re Ra Rb 58; rnd R3 Rb Rc Rd Re Ra 59;
    rnd R4 Ra Rb Rc Rd Re 60; rnd R4 Re Ra Rb Rc Rd 61; rnd R4 Rd Re Ra Rb Rc 62; rnd R4 Rc Rd Re Ra Rb 63;
    rnd R4 Rb Rc Rd Re Ra 64; rnd R4 Ra Rb Rc Rd Re 65; rnd R4 Re Ra Rb Rc Rd 66; rnd R4 Rd Re Ra Rb Rc 67;
    rnd R4 Rc Rd Re Ra Rb 68; rnd R4 Rb Rc Rd Re Ra 69; rnd R4 Ra Rb Rc Rd Re 70; rnd R4 Re Ra Rb Rc Rd 71;
    rnd R4 Rd Re Ra Rb Rc 72; rnd R4 Rc Rd Re Ra Rb 73; rnd R4 Rb Rc Rd Re Ra 74; rnd R4 Ra Rb Rc Rd Re 75;
    rnd R4 Re Ra Rb Rc Rd 76; rnd R4 Rd Re Ra Rb Rc 77; rnd R4 Rc Rd Re Ra Rb 78; rnd R4 Rb Rc Rd Re Ra 79 ].

Definition SHA1Transform (state buffer : list Z) : list Z :=
  let s := mkRegs (nth 0 state 0) (nth 1 state 0) (nth 2 state 0) (nth 3 state 0) (nth 4 state 0) in
  let '(r, _) := fold_left (fun st c => sha1_round c st) sha1_rounds (s, le_words buffer) in
  [u32 (reg_a s + reg_a r); u32 (reg_b s + reg_b r); u32 (reg_c s + reg_c r); u32 (reg_d s + reg_d r); u32 (reg_e s + reg_e r)].

(** ** The context *)

Record SHA1Context := mkSha1 { sha1_state : list Z; count0 : Z; count1 : Z; sha1_buffer : list Z }.

(** [buffer]: what the memory of the context holds *)
Definition SHA1Init (buffer : list Z) : SHA1Context :=
  mkSha1 [0x67452301; 0xEFCDAB89; 0x98BADCFE; 0x10325476; 0xC3D2E1F0] 0 0 buffer.

(** for ( ; i + 63 < len; i += 64) *)
Fixpoint sha1_blocks (fuel : nat) (state data : list Z) (i len : Z) : M (list Z * Z) :=
  match fuel with
  | O => Err OutOfFuel
  | S fuel =>
      if u32 (i + 63) <? len then
        b ← get data i 64;
        sha1_blocks fuel (SHA1Transform state b) data (u32 (i + 64)) len
      else Ok (state, i)
  end.

Definition SHA1Update (data : list Z) (ctx : SHA1Context) : M SHA1Context :=
  let len := u32 (zlen data) in
  let j := Z.land (Z.shiftr (count0 ctx) 3) 63 in
  let c0 := u32 (count0 ctx + u32 (Z.shiftl len 3)) in
  let c1 := (if c0 <? u32 (Z.shiftl len 3) then u32 (count1 ctx + 1) else count1 ctx) in
  let c1 := u32 (c1 + Z.shiftr len 29) in
  '(state, buffer, i, j) ← (if 63 <? u32 (j + len) then
      d ← get data 0 (64 - j);
      buffer ← blit (sha1_buffer ctx) j d;
      '(state, i) ← sha1_blocks (S (length data)) (SHA1Transform (sha1_state ctx) buffer) data (64 - j) len;
      Ok (state, buffer, i, 0)
    else Ok (sha1_state ctx, sha1_buffer ctx, 0, j));
  d ← get data i (len - i);
  buffer ← blit buffer j d;
  Ok (mkSha1 state c0 c1 buffer).

(** while ((context->count[0] & 504) != 448) *)
Fixpoint sha1_pad (fuel : nat) (ctx : SHA1Context) : M SHA1Context :=
  match fuel with
  | O => Err OutOfFuel
  | S fuel => if negb (Z.land (count0 ctx) 504 =? 448) then ctx ← SHA1Update [0] ctx; sha1_pad fuel ctx else Ok ctx
  end.

(** (word >> ((3 - (i & 3)) * 8)) & 255 for the four octets of a word *)
Definition word_octets (w : Z) : list Z := [Z.land (Z.shiftr w 24) 255; Z.land (Z.shiftr w 16) 255; Z.land (Z.shiftr w 8) 255; Z.land (Z.shiftr w 0) 255].

Definition SHA1Final (ctx : SHA1Context) : M (list Z) :=
  let finalcount := word_octets (count1 ctx) ++ word_octets (count0 ctx) in
  ctx ← SHA1Update [0x80] ctx;
  ctx ← sha1_pad 65 ctx;
  ctx ← SHA1Update finalcount ctx;
  Ok (concat (map word_octets (sha1_state ctx))).

Fixpoint sha1_updates (addr : list (list Z)) (ctx : SHA1Context) : M SHA1Context :=
  match addr with [] => Ok ctx | d :: addr => ctx ← SHA1Update d ctx; sha1_updates addr ctx end.
Definition sha1_vector (stack : list Z) (addr : list (list Z)) : M (list Z) :=
  ctx ← sha1_updates addr (SHA1Init stack);
  SHA1Final ctx.

(** ** FIPS 180-1 *)

Definition sha1_f (t : nat) (b c d : Z) : Z :=
  if (t <? 20)%nat then Z.lor (Z.land b c) (Z.land (Z.lnot b) d)
  else if (t <? 40)%nat then Z.lxor (Z.lxor b c) d
  else if (t <? 60)%nat then Z.lor (Z.lor (Z.land b c) (Z.land b d)) (Z.land c d)
  else Z.lxor (Z.lxor b c) d.
Definition sha1_k (t : nat) : Z :=
  if (t <? 20)%nat then 0x5A827999 else if (t <? 40)%nat then 0x6ED9EBA1 else if (t <? 60)%nat then 0x8F1BBCDC else 0xCA62C1D6.
(** the schedule W(0) ... W(15 + n) *)
Fixpoint sha1_schedule (n : nat) (m : list Z) : list Z :=
  match n with
  | O => m
  | S n =>
      let w := sha1_schedule n m in
      w ++ [rol (Z.lxor (Z.lxor (Z.lxor (nth (n + 13) w 0) (nth (n + 8) w 0)) (nth (n + 2) w 0)) (nth n w 0)) 1]
  end.
Definition sha1_w (m : list Z) (t : nat) : Z := nth t (sha1_schedule 64 m) 0.
Definition sha1_step (m : list Z) (s : Z * Z * Z * Z * Z) (t : nat) : Z * Z * Z * Z * Z :=
  let '(a, b, c, d, e) := s in
  (u32 (rol a 5 + sha1_f t b c d + e + sha1_w m t + sha1_k t), a, rol b 30, c, d).
Definition sha1_compress (h : list Z) (b : list Z) : list Z :=
  let '(a, bb, c, d, e) := fold_left (sha1_step (be_words b)) (seq 0 80) (nth 0 h 0, nth 1 h 0, nth 2 h 0, nth 3 h 0, nth 4 h 0) in
  [u32 (nth 0 h 0 + a); u32 (nth 1 h 0 + bb); u32 (nth 2 h 0 + c); u32 (nth 3 h 0 + d); u32 (nth 4 h 0 + e)].

Lemma length_schedule n m : length m = 16%nat -> length (sha1_schedule n m) = (16 + n)%nat.
Proof. intros H. induction n as [|n IH]; [done|]. cbn [sha1_schedule]. rewrite length_app, IH. cbn. lia. Qed.
Lemma schedule_stable n k m t : length m = 16%nat -> (t < 16 + n)%nat -> nth t (sha1_schedule (n + k) m) 0 = nth t (sha1_schedule n m) 0.
Proof.
  intros H Ht. induction k as [|k IH]; [by rewrite Nat.add_0_r|]. rewrite Nat.add_succ_r. cbn [sha1_schedule].
  rewrite app_nth1 by (rewrite length_schedule by done; lia). exact IH.
Qed.
Lemma w_early m t : length m = 16%nat -> (t < 16)%nat -> sha1_w m t = nth t m 0.
Proof. intros H Ht. unfold sha1_w. apply (schedule_stable 0 64); [done|lia]. Qed.
Lemma w_late m n : length m = 16%nat -> (n < 64)%nat ->
  sha1_w m (n + 16) = rol (Z.lxor (Z.lxor (Z.lxor (sha1_w m (n + 13)) (sha1_w m (n + 8))) (sha1_w m (n + 2))) (sha1_w m n)) 1.
Proof.
  intros H Hn. unfold sha1_w.
  assert (forall t, (t < 16 + n)%nat -> nth t (sha1_schedule 64 m) 0 = nth t (sha1_schedule n m) 0) as E.
  { intros t Ht. replace 64%nat with (n + (64 - n))%nat by lia. by apply schedule_stable. }
  rewrite (E (n + 13)%nat), (E (n + 8)%nat), (E (n + 2)%nat), (E n) by lia. replace 64%nat with (S n + (63 - n))%nat by lia. rewrite schedule_stable by (done || lia). cbn [sha1_schedule].
  rewrite app_nth2 by (rewrite length_schedule by done; lia). rewrite length_schedule by done. by replace (n + 16 - (16 + n))%nat with 0%nat by lia.
Qed.

(** *** The rounds *)

(** the registers in the roles v, w, x, y, z of round [i] *)
Definition roles (i : nat) : sha1_reg * sha1_reg * sha1_reg * sha1_reg * sha1_reg :=
  match (i mod 5)%nat with
  | 0%nat => (Ra, Rb, Rc, Rd, Re) | 1%nat => (Re, Ra, Rb, Rc, Rd) | 2%nat => (Rd, Re, Ra, Rb, Rc)
  | 3%nat => (Rc, Rd, Re, Ra, Rb) | _ => (Rb, Rc, Rd, Re, Ra)
  end.
Definition macro_of (i : nat) : macro :=
  if (i <? 16)%nat then R0 else if (i <? 20)%nat then R1 else if (i <? 40)%nat then R2 else if (i <? 60)%nat then R3 else R4.
Definition call_of (i : nat) : macro_call := let '(v, w, x, y, z) := roles i in rnd (macro_of i) v w x y z i.
Definition view (i : nat) (s : sha1_regs) : Z * Z * Z * Z * Z :=
  let '(v, w, x, y, z) := roles i in (reg_get v s, reg_get w s, reg_get x s, reg_get y s, reg_get z s).

Lemma sha1_rounds_table : sha1_rounds = map call_of (seq 0 80).
Proof. reflexivity. Qed.

Lemma ch_xor w x y : Z.lxor (Z.land w (Z.lxor x y)) y = Z.lor (Z.land w x) (Z.land (Z.lnot w) y).
Proof. bitwise. Qed.
Lemma maj_or w x y : Z.lor (Z.land (Z.lor w x) y) (Z.land w x) = Z.lor (Z.lor (Z.land w x) (Z.land w y)) (Z.land x y).
Proof. bitwise. Qed.
Lemma macro_f_ok i w x y : macro_f (macro_of i) w x y = sha1_f i w x y.
Proof.
  unfold macro_of, sha1_f. destruct (Nat.ltb_spec i 16), (Nat.ltb_spec i 20); try lia; cbn [macro_f]; rewrite ?ch_xor; try done.
  destruct (_ <? 40)%nat; [done|]. destruct (_ <? 60)%nat; [|done]. apply maj_or.
Qed.
Lemma macro_k_ok i : macro_k (macro_of i) = sha1_k i.
Proof.
  unfold macro_of, sha1_k. destruct (Nat.ltb_spec i 16), (Nat.ltb_spec i 20); try lia; try done.
  destruct (_ <? 40)%nat; [done|]. by destruct (_ <? 60)%nat.
Qed.

(** the words of the block when round [i] begins, [raw] as the machine read them *)
Definition block_inv (raw m : list Z) (i : nat) (block : list Z) : Prop :=
  length block = 16%nat /\
  (forall j, (j < 16)%nat -> (i <= j)%nat -> nth j block 0 = nth j raw 0) /\
  (forall t, (t < i)%nat -> (i <= t + 16)%nat -> nth (t mod 16) block 0 = sha1_w m t).

(** the four octets of a word, at their places *)
Definition octets4 (a b c d : Z) : Z := a + 256 * (b + 256 * (c + 256 * (d + 256 * 0))).
Lemma rol_octets a b c d : is_byte a -> is_byte b -> is_byte c -> is_byte d ->
  rol (octets4 a b c d) 8 = octets4 d a b c /\ rol (octets4 a b c d) 24 = octets4 b c d a.
Proof.
  intros Ha Hb Hc Hd. unfold rol, u32, octets4. rewrite !Z.shiftl_mul_pow2, !Z.shiftr_div_pow2 by lia. change (32 - 8) with 24. change (32 - 24) with 8.
  unfold is_byte in *. split.
  - replace ((a + 256 * (b + 256 * (c + 256 * (d + 256 * 0)))) * 2 ^ 8) with ((a + 256 * b + 65536 * c) * 2 ^ 8 + d * 2 ^ 32) by lia.
    rewrite Z.mod_add, Z.mod_small by lia.
    replace ((a + 256 * (b + 256 * (c + 256 * (d + 256 * 0)))) / 2 ^ 24) with d by (apply (Z.div_unique _ _ _ (a + 256 * b + 65536 * c)); lia).
    rewrite lor_disjoint by lia. lia.
  - replace ((a + 256 * (b + 256 * (c + 256 * (d + 256 * 0)))) * 2 ^ 24) with (a * 2 ^ 24 + (b + 256 * c + 65536 * d) * 2 ^ 32) by lia.
    rewrite Z.mod_add, Z.mod_small by lia.
    replace ((a + 256 * (b + 256 * (c + 256 * (d + 256 * 0)))) / 2 ^ 8) with (b + 256 * c + 65536 * d) by (apply (Z.div_unique _ _ _ a); lia).
    rewrite lor_disjoint by lia. lia.
Qed.
Lemma swap_word (b : list Z) : bytes b -> length b = 4%nat ->
  Z.lor (Z.land (rol (le b) 24) 0xFF00FF00) (Z.land (rol (le b) 8) 0x00FF00FF) = be b.
Proof.
  intros Hb Hl. destruct b as [|b0 [|b1 [|b2 [|b3 [|? ?]]]]]; try done. clear Hl.
  apply Forall_cons_1 in Hb as [H0 Hb]. apply Forall_cons_1 in Hb as [H1 Hb]. apply Forall_cons_1 in Hb as [H2 Hb]. apply Forall_cons_1 in Hb as [H3 _].
  replace (le [b0; b1; b2; b3]) with (octets4 b0 b1 b2 b3) by (unfold octets4; cbn [le]; lia).
  destruct (rol_octets b0 b1 b2 b3) as [-> ->]; try done.
  change 0xFF00FF00 with (octets4 0 255 0 255). change 0x00FF00FF with (octets4 255 0 255 0). unfold octets4.
  rewrite !land_digit by done. rewrite !lor_digit by (try done; by apply land_byte). rewrite !Z.land_0_r, !land_byte_mask by done.
  rewrite !Z.lor_0_l, !Z.lor_0_r. change (Z.lor 0 0) with 0. unfold be. cbn [fold_left]. lia.
Qed.

(** one round: the word it takes, and the block it leaves *)
Lemma block_round b i block : bytes b -> length b = 64%nat -> (i < 80)%nat -> block_inv (le_words b) (be_words b) i block ->
  exists block', (match macro_of i with R0 => blk0 i block | _ => blk i block end) = (sha1_w (be_words b) i, block') /\
    block_inv (le_words b) (be_words b) (S i) block'.
Proof.
  intros Hb Hl Hi (Hlen & Hraw & Hw). assert (length (be_words b) = 16%nat) as Hm by done.
  unfold macro_of. destruct (Nat.ltb_spec i 16).
  - assert (bytes (slice (4 * i) 4 b) /\ length (slice (4 * i) 4 b) = 4%nat) as [Hsb Hsl].
    { unfold slice. split; [apply Forall_take; by apply bytes_drop|]. rewrite length_take, length_drop. lia. }
    unfold blk0, word. rewrite Hraw, nth_le_words, swap_word by (done || lia).
    rewrite w_early, nth_be_words by done. eexists. split; [reflexivity|]. split; [by rewrite length_insert|]. split.
    + intros j Hj Hij. rewrite nth_insert_other by lia. apply Hraw; lia.
    + intros t Ht Hit. destruct (decide (t = i)) as [->|Hne].
      * rewrite Nat.mod_small, nth_insert_same by lia. by rewrite w_early, nth_be_words.
      * rewrite nth_insert_other by (rewrite Nat.mod_small by lia; lia). apply Hw; lia.
  - assert (blk i block = (sha1_w (be_words b) i, <[(i mod 16)%nat := sha1_w (be_words b) i]> block)) as E.
    { unfold blk, word. change 15%nat with (Nat.ones 4). rewrite !Nat.land_ones. change (2 ^ 4)%nat with 16%nat.
      assert (forall k, (1 <= k <= 16)%nat -> nth ((i + (16 - k)) mod 16) block 0 = sha1_w (be_words b) (i - k)) as G.
      { intros k Hk. rewrite <- (Hw (i - k)%nat) by lia. f_equal. replace (i + (16 - k))%nat with (i - k + 1 * 16)%nat by lia. by rewrite Nat.Div0.mod_add. }
      pose proof (G 3%nat ltac:(lia)) as G3. pose proof (G 8%nat ltac:(lia)) as G8. pose proof (G 14%nat ltac:(lia)) as G14. pose proof (G 16%nat ltac:(lia)) as G16.
      cbn [Nat.sub] in G3, G8, G14, G16. rewrite Nat.add_0_r in G16. change (16 - 3)%nat with 13%nat in *. rewrite G3, G8, G14, G16.
      pose proof (w_late (be_words b) (i - 16) Hm ltac:(lia)) as E.
      replace (i - 16 + 16)%nat with i in E by lia. replace (i - 16 + 13)%nat with (i - 3)%nat in E by lia.
      replace (i - 16 + 8)%nat with (i - 8)%nat in E by lia. replace (i - 16 + 2)%nat with (i - 14)%nat in E by lia. by rewrite <- E. }
    exists (<[(i mod 16)%nat := sha1_w (be_words b) i]> block). split.
    { destruct (i <? 20)%nat; [exact E|]. destruct (i <? 40)%nat; [exact E|]. destruct (i <? 60)%nat; exact E. }
    split; [by rewrite length_insert|]. split; [lia|]. intros t Ht Hit. pose proof (Nat.mod_upper_bound i 16 ltac:(lia)).
    destruct (decide (t = i)) as [->|Hne]; [by rewrite nth_insert_same by lia|].
    rewrite nth_insert_other; [apply Hw; lia|]. intros Em. pose proof (Nat.div_mod_eq i 16). pose proof (Nat.div_mod_eq t 16). lia.
Qed.

Lemma mod5_cases i : {(i mod 5 = 0 /\ S i mod 5 = 1)%nat} + {(i mod 5 = 1 /\ S i mod 5 = 2)%nat} + {(i mod 5 = 2 /\ S i mod 5 = 3)%nat} +
  {(i mod 5 = 3 /\ S i mod 5 = 4)%nat} + {(i mod 5 = 4 /\ S i mod 5 = 0)%nat}.
Proof.
  assert (S i mod 5 = S (i mod 5) mod 5)%nat as E by (rewrite <- Nat.add_1_r, <- Nat.Div0.add_mod_idemp_l, Nat.add_1_r; done).
  pose proof (Nat.mod_upper_bound i 5 ltac:(lia)) as H. rewrite E. destruct (i mod 5)%nat as [|[|[|[|[|n]]]]]; cbn; try lia; auto 20.
Qed.

(** one macro call is one step of the standard on the registers in their roles *)
Lemma round_view i s block m block' :
  (match macro_of i with R0 => blk0 i block | _ => blk i block end) = (sha1_w m i, block') ->
  exists s', sha1_round (call_of i) (s, block) = (s', block') /\ view (S i) s' = sha1_step m (view i s) i.
Proof.
  intros E. unfold call_of, view, roles. destruct s as [a b c d e].
  assert (forall v w x y z, sha1_round (rnd (macro_of i) v w x y z i) (mkRegs a b c d e, block) =
    (reg_set w (rol (reg_get w (mkRegs a b c d e)) 30) (reg_set z (u32 (reg_get z (mkRegs a b c d e) +
       sha1_f i (reg_get w (mkRegs a b c d e)) (reg_get x (mkRegs a b c d e)) (reg_get y (mkRegs a b c d e)) + sha1_w m i + sha1_k i +
       rol (reg_get v (mkRegs a b c d e)) 5)) (mkRegs a b c d e)), block')) as H.
  { intros v w x y z. unfold sha1_round. cbn [r_macro r_v r_w r_x r_y r_z r_i]. rewrite E. by rewrite macro_f_ok, macro_k_ok. }
  destruct (mod5_cases i) as [[[[[-> ->]|[-> ->]]|[-> ->]]|[-> ->]]|[-> ->]]; rewrite H; eexists; (split; [reflexivity|]);
    unfold sha1_step; cbn [reg_get reg_set reg_a reg_b reg_c reg_d reg_e]; do 4 f_equal; f_equal; lia.
Qed.

Lemma rounds_view b s0 n : bytes b -> length b = 64%nat -> (n <= 80)%nat ->
  exists s block, fold_left (fun st c => sha1_round c st) (map call_of (seq 0 n)) (s0, le_words b) = (s, block) /\
    block_inv (le_words b) (be_words b) n block /\ view n s = fold_left (sha1_step (be_words b)) (seq 0 n) (view 0 s0).
Proof.
  intros Hb Hl. induction n as [|n IH]; intros Hn.
  - exists s0, (le_words b). split; [done|]. split; [|done]. split; [done|]. split; [done|lia].
  - destruct IH as (s & block & E & Hi & Hv); [lia|]. rewrite !seq_S, map_app, !fold_left_app, E. cbn [map fold_left Nat.add].
    destruct (block_round b n block Hb Hl ltac:(lia) Hi) as (block' & E' & Hi').
    destruct (round_view n s block (be_words b) block' E') as (s' & -> & Hv'). exists s', block'. split; [done|]. split; [done|]. by rewrite Hv', Hv.
Qed.

(** SHA1Transform is the compression of FIPS 180-1. *)
Theorem SHA1Transform_correct h b : bytes b -> length b = 64%nat -> SHA1Transform h b = sha1_compress h b.
Proof.
  intros Hb Hl. unfold SHA1Transform, sha1_compress. rewrite sha1_rounds_table. set (s0 := mkRegs _ _ _ _ _).
  destruct (rounds_view b s0 80 Hb Hl ltac:(lia)) as (s & block & -> & _ & Hv).
  change (view 0 s0) with (nth 0 h 0, nth 1 h 0, nth 2 h 0, nth 3 h 0, nth 4 h 0) in Hv. rewrite <- Hv. done.
Qed.

(** ** The context *)

Definition sha1_init : list Z := [0x67452301; 0xEFCDAB89; 0x98BADCFE; 0x10325476; 0xC3D2E1F0].
Definition sha1_after (d : list Z) : list Z := after_blocks sha1_compress sha1_init d.

(** a context into which the octets [d] went *)
Record sha1_holds (ctx : SHA1Context) (d : list Z) : Prop := {
  s1_state : sha1_state ctx = sha1_after d;
  s1_count0 : count0 ctx = bits_low (zlen d);
  s1_count1 : count1 ctx = bits_high (zlen d);
  s1_buffer : length (sha1_buffer ctx) = 64%nat;
  s1_bytes : bytes (sha1_buffer ctx);
  s1_rest : take (length d mod 64) (sha1_buffer ctx) = left_over d }.

Lemma sha1_init_holds buffer : length buffer = 64%nat -> bytes buffer -> sha1_holds (SHA1Init buffer) [].
Proof. by intros. Qed.

(** a complete block of what follows [pre] *)
Lemma sha1_next_block pre x : bytes x -> length x = 64%nat -> (length pre mod 64 = 0)%nat ->
  SHA1Transform (sha1_after pre) x = sha1_after (pre ++ x).
Proof.
  intros Hb Hl Hp. rewrite SHA1Transform_correct by done. unfold sha1_after.
  destruct (after_blocks_block sha1_compress sha1_init pre x) as [-> _]; [lia|].
  assert (left_over pre = []) as -> by (apply nil_length_inv; by rewrite length_left_over). done.
Qed.

Lemma sha1_blocks_spec fuel pre data i : bytes data -> zlen data < 2 ^ 32 - 64 -> 0 <= i <= zlen data ->
  (zlen pre + i) mod 64 = 0 -> zlen data - i < Z.of_nat fuel ->
  exists i', sha1_blocks fuel (sha1_after (pre ++ take (Z.to_nat i) data)) data i (zlen data) =
      Ok (sha1_after (pre ++ take (Z.to_nat i') data), i') /\
    0 <= i' <= zlen data /\ zlen data - i' < 64 /\ (zlen pre + i') mod 64 = 0.
Proof.
  intros Hb Hz. revert i. induction fuel as [|fuel IH]; intros i Hi Hm Hf; [lia|]. cbn [sha1_blocks]. rewrite !u32_small by lia.
  destruct (Z.ltb_spec (i + 63) (zlen data)); [|exists i; split; [done|lia]].
  destruct (get_bytes data i 64 Hb) as (x & -> & Hx & Hbx & Et); [lia..|]. rewrite bind_ok.
  rewrite sha1_next_block; [|done|unfold zlen in Hx; lia|].
  - rewrite <- app_assoc, Et. apply IH; [lia| |lia]. rewrite Z.add_assoc. by rewrite <- (Z.add_mod_idemp_l (zlen pre + i)), Hm by lia.
  - by apply at_boundary.
Qed.

Lemma SHA1Update_correct ctx d e : sha1_holds ctx d -> bytes e -> zlen e < 2 ^ 32 - 64 ->
  exists ctx', SHA1Update e ctx = Ok ctx' /\ sha1_holds ctx' (d ++ e).
Proof.
  intros [Hs H0 H1 Hb Hbb Hr] He Hz. pose proof (zlen_nonneg d). pose proof (zlen_nonneg e). unfold SHA1Update. rewrite H0, H1.
  rewrite (u32_small (zlen e)) by lia. rewrite bits_index by lia. destruct (bits_add (zlen d) (zlen e)) as [E0 E1]; [lia..|]. cbv zeta in E1. cbv zeta.
  rewrite E1, E0, <- zlen_app. set (j := zlen d mod 64). assert (0 <= j < 64) as Hj by (apply Z.mod_pos_bound; lia).
  assert (Z.to_nat j = (length d mod 64)%nat) as Ej by (unfold j, zlen; rewrite <- mod64; lia).
  rewrite (u32_small (j + zlen e)) by lia. destruct (Z.ltb_spec 63 (j + zlen e)).
  - destruct (get_bytes e 0 (64 - j) He) as (x & -> & Hx & Hbx & Et); [lia..|]. rewrite bind_ok. cbn [take Z.to_nat app] in Et.
    destruct (fill_buffer (sha1_buffer ctx) x j Hb) as (buf & -> & Hbl & Hbt & Hby); [lia..|]. rewrite bind_ok.
    assert (buf = left_over d ++ x) as Ebuf.
    { rewrite Ej, Hr in Hbt. rewrite <- Hbt, take_ge; [done|]. unfold zlen in *. lia. }
    assert (SHA1Transform (sha1_state ctx) buf = sha1_after (d ++ x)) as ->.
    { rewrite Hs, SHA1Transform_correct by auto. unfold sha1_after. rewrite Ebuf.
      destruct (after_blocks_block sha1_compress sha1_init d x) as [-> _]; [unfold zlen in *; lia|done]. }
    replace x with (take (Z.to_nat (64 - j)) e) by (symmetry; exact Et).
    destruct (sha1_blocks_spec (S (length e)) d e (64 - j) He Hz) as (i' & -> & Hi & Hlt & Hm); [lia| |unfold zlen; lia|].
    { unfold j. pose proof (Z.div_mod (zlen d) 64 ltac:(lia)).
      replace (zlen d + (64 - zlen d mod 64)) with ((zlen d / 64 + 1) * 64) by lia. by rewrite Z.mod_mul by lia. }
    rewrite !bind_ok. destruct (get_bytes e i' (zlen e - i') He) as (y & -> & Hy & Hby' & Ety); [lia..|]. rewrite bind_ok.
    destruct (fill_buffer buf y 0 Hbl) as (buf' & -> & Hbl' & Hbt' & Hby2); [lia..|]. rewrite bind_ok. eexists. split; [done|].
    replace (i' + (zlen e - i')) with (zlen e) in Ety by lia. rewrite (take_ge e (Z.to_nat (zlen e))) in Ety by (unfold zlen; lia).
    set (p := take (Z.to_nat i') e) in *.
    assert (length (d ++ p) mod 64 = 0)%nat as Hp by by apply at_boundary.
    destruct (after_blocks_short sha1_compress sha1_init (d ++ p) y) as [Ea Eo]; [unfold zlen in *; lia|].
    rewrite <- app_assoc, Ety in Ea, Eo. assert (left_over (d ++ p) = []) as E0' by (apply nil_length_inv; by rewrite length_left_over).
    rewrite E0' in Eo. split; cbn [sha1_state count0 count1 sha1_buffer]; [by unfold sha1_after|done..|by apply Hby2; [apply Hby|]|].
    rewrite Eo, <- length_left_over, Eo. exact Hbt'.
  - destruct (get_bytes e 0 (zlen e - 0) He) as (y & Ey & Hy & _ & Ety); [lia..|]. rewrite bind_ok, Ey, bind_ok.
    replace (0 + (zlen e - 0)) with (zlen e) in Ety by lia. rewrite (take_ge e (Z.to_nat (zlen e))) in Ety by (unfold zlen; lia). change (take (Z.to_nat 0) e) with (@nil Z) in Ety. cbn [app] in Ety. subst y.
    destruct (fill_buffer (sha1_buffer ctx) e j Hb) as (buf' & -> & Hbl' & Hbt' & Hby2); [lia..|]. rewrite bind_ok. eexists. split; [done|].
    destruct (after_blocks_short sha1_compress sha1_init d e) as [Ea Eo]; [unfold zlen in *; lia|].
    split; cbn [sha1_state count0 count1 sha1_buffer]; [by unfold sha1_after; rewrite Ea|done..|by apply Hby2|].
    rewrite Eo, <- length_left_over, Eo, length_app, length_left_over, <- Ej. by rewrite Hbt', Ej, Hr.
Qed.

(** ** The digest *)

(** the message, padded with its length in bits as eight octets, most significant first *)
Definition sha1_padded (d : list Z) : list Z := d ++ padding (to_be 8 (8 * zlen d)) (length d).
Definition sha1_digest (d : list Z) : list Z := concat (map (to_be 4) (sha1_after (sha1_padded d))).

Lemma sha1_pad_spec k : forall fuel ctx d, sha1_holds ctx d -> (k < 64)%nat -> ((length d + k) mod 64 = 56)%nat -> (k < fuel)%nat ->
  exists ctx', sha1_pad fuel ctx = Ok ctx' /\ sha1_holds ctx' (d ++ replicate k 0).
Proof.
  induction k as [|k IH]; intros [|fuel] ctx d Hd Hk Hm Hf; try lia; cbn [sha1_pad]; pose proof Hd as [_ -> _ _ _ _];
    rewrite land_504 by apply zlen_nonneg; unfold zlen at 1; rewrite <- mod64.
  - rewrite Nat.add_0_r in Hm. rewrite Hm. exists ctx. by rewrite app_nil_r.
  - assert (length d mod 64 <> 56)%nat as Hne.
    { intros E. pose proof (Nat.div_mod_eq (length d) 64). pose proof (Nat.div_mod_eq (length d + S k) 64). lia. }
    destruct (Z.eqb_spec (8 * Z.of_nat (length d mod 64)) 448); [lia|]. cbn [negb].
    destruct (SHA1Update_correct ctx d [0] Hd) as (ctx1 & -> & H1); [by repeat constructor|done|]. rewrite bind_ok.
    destruct (IH fuel ctx1 (d ++ [0]) H1) as (ctx' & -> & H'); [lia| |lia|].
    + rewrite length_app. cbn [length]. by replace (length d + 1 + k)%nat with (length d + S k)%nat by lia.
    + exists ctx'. split; [done|]. by rewrite <- app_assoc in H'.
Qed.

Lemma word_octets_ok w : is_word w -> word_octets w = to_be 4 w.
Proof.
  intros H. unfold word_octets, to_be. cbn [to_le rev app]. rewrite !Z.shiftr_div_pow2 by lia. change 255 with (Z.ones 8).
  rewrite !Z.land_ones by lia. change (2 ^ 0) with 1. rewrite Z.div_1_r. change (2 ^ 8) with 256.
  rewrite !Z.div_div by lia. done.
Qed.

Lemma sha1_compress_words h b : words (sha1_compress h b).
Proof. unfold sha1_compress. destruct (fold_left _ _ _) as [[[[a b'] c] d] e]. repeat (apply Forall_cons; [apply u32_word|]). constructor. Qed.
Lemma absorb_words n st l : words st -> words (absorb sha1_compress n st l).
Proof. revert st l. induction n as [|n IH]; intros st l H; [done|]. cbn [absorb]. apply IH, sha1_compress_words. Qed.
Lemma sha1_after_words d : words (sha1_after d).
Proof. apply absorb_words. by repeat constructor. Qed.

Lemma octets_of_words l : words l -> concat (map word_octets l) = concat (map (to_be 4) l).
Proof. induction 1 as [|w l Hw _ IH]; [done|]. cbn [map concat]. by rewrite IH, word_octets_ok. Qed.

Lemma SHA1Final_correct ctx d : sha1_holds ctx d -> SHA1Final ctx = Ok (sha1_digest d).
Proof.
  intros Hd. pose proof Hd as [_ E0 E1 _ _ _]. unfold SHA1Final. rewrite E0, E1, !word_octets_ok by apply u32_word. unfold bits_low, bits_high.
  rewrite <- to_be_split. destruct (SHA1Update_correct ctx d [0x80] Hd) as (c1 & -> & H1); [by repeat constructor|done|]. rewrite bind_ok.
  destruct (pad_zeros_spec (length d)) as [Hm Hlt].
  destruct (sha1_pad_spec (pad_zeros (length d)) 65 c1 _ H1) as (c2 & -> & H2); [done|by rewrite length_app|lia|]. rewrite bind_ok.
  destruct (SHA1Update_correct c2 _ (to_be 8 (8 * zlen d)) H2) as (c3 & -> & H3); [apply to_be_bytes|by rewrite zlen_to_be|]. rewrite bind_ok.
  rewrite <- !app_assoc in H3. destruct H3 as [-> _ _ _ _ _]. rewrite octets_of_words by apply sha1_after_words. done.
Qed.

(** [sha1_vector] computes the SHA-1 of FIPS 180-1 of the concatenation of its buffers, however the message is divided, for every
    content of the context's memory. *)
Theorem sha1_vector_correct stack addr : length stack = 64%nat -> bytes stack -> Forall (fun d => bytes d) addr -> Forall fits_u32 addr ->
  sha1_vector stack addr = Ok (sha1_digest (concat addr)).
Proof.
  intros Hl Hs Hb Hf. unfold sha1_vector.
  assert (forall ctx d, sha1_holds ctx d -> exists ctx', sha1_updates addr ctx = Ok ctx' /\ sha1_holds ctx' (d ++ concat addr)) as G.
  { clear Hl Hs. induction Hb as [|e addr He _ IH]; intros ctx d Hd; [exists ctx; by rewrite app_nil_r|].
    apply Forall_cons_1 in Hf as [He' Hf]. cbn [sha1_updates concat]. destruct (SHA1Update_correct ctx d e Hd He He') as (c1 & -> & H1).
    rewrite bind_ok. destruct (IH Hf c1 _ H1) as (c2 & -> & H2). exists c2. split; [done|]. by rewrite <- app_assoc in H2. }
  destruct (G _ [] (sha1_init_holds stack Hl Hs)) as (ctx & -> & H). rewrite bind_ok. by apply SHA1Final_correct.
Qed.

Lemma sha1_vector_correct_witness : sha1_vector (replicate 64 7) [[97]; [98; 99]] =
  Ok (to_be 20 0xA9993E364706816ABA3E25717850C26C9CD0D89D).
Proof.
  rewrite (sha1_vector_correct (replicate 64 7) [[97]; [98; 99]]).
  - vm_compute. reflexivity.
  - reflexivity.
  - by apply Forall_replicate.
  - by repeat constructor.
  - by repeat constructor.
Defined.

Lemma zlen_sha1 d : zlen (sha1_digest d) = 20 /\ bytes (sha1_digest d).
Proof.
  unfold sha1_digest, sha1_after, after_blocks.
  assert (forall n st l, length st = 5%nat -> length (absorb sha1_compress n st l) = 5%nat) as G.
  { induction n as [|n IH]; intros st l H; [done|]. cbn [absorb]. apply IH. unfold sha1_compress. by destruct (fold_left _ _ _) as [[[[? ?] ?] ?] ?]. }
  specialize (G (length (sha1_padded d) / 64)%nat sha1_init (sha1_padded d) eq_refl). set (h := absorb _ _ _ _) in *. split.
  - rewrite (zlen_concat _ 4); [unfold zlen; rewrite length_map, G; done|]. apply Forall_map, Forall_true. intros w. by rewrite zlen_to_be.
  - clear G. induction h as [|w h IH]; [constructor|]. cbn [map concat]. apply Forall_app; split; [apply to_be_bytes|exact IH].
Qed.
