(* ===== verification/Md5Internal.v ===== *)
(** * MD5 (src/hostapd-2.5/src/crypto/md5-internal.c)

    The compression is the source's table of sixty-four steps on four
    registers; it is proved to be the one of RFC 1321.  The variant for
    little-endian machines is modelled (byteReverse does nothing there). *)

From S2P Require Import Prelude HexText AesCtr EapCommon WpaSafe Merkle.
Open Scope Z_scope.

(** ** MD5Transform *)

Inductive md5_reg := Ma | Mb | Mc | Md.
Record md5_regs := mkMd5Regs { md5_a : Z; md5_b : Z; md5_c : Z; md5_d : Z }.
Definition md5_get (r : md5_reg) (s : md5_regs) : Z := match r with Ma => md5_a s | Mb => md5_b s | Mc => md5_c s | Md => md5_d s end.
Definition md5_set (r : md5_reg) (v : Z) (s : md5_regs) : md5_regs :=
  let '(mkMd5Regs a b c d) := s in
  match r with Ma => mkMd5Regs v b c d | Mb => mkMd5Regs a v c d | Mc => mkMd5Regs a b v d | Md => mkMd5Regs a b c v end.

(** the complement of a word *)
Definition not32 (x : Z) : Z := Z.lxor x 0xFFFFFFFF.

Inductive core := F1 | F2 | F3 | F4.
Definition f1 (x y z : Z) : Z := Z.lxor z (Z.land x (Z.lxor y z)).
Definition core_f (f : core) (x y z : Z) : Z :=
  match f with
  | F1 => f1 x y z
  | F2 => f1 z x y
  | F3 => Z.lxor (Z.lxor x y) z
  | F4 => Z.lxor y (Z.lor x (not32 z))
  end.

Record step_call := md5_call { m_f : core; m_w : md5_reg; m_x : md5_reg; m_y : md5_reg; m_z : md5_reg; m_in : nat; m_t : Z; m_s : Z }.

(** #define MD5STEP(f, w, x, y, z, data, s) *)
Definition md5_step (words : list Z) (s : md5_regs) (c : step_call) : md5_regs :=
  let x := md5_get (m_x c) s in
  let data := u32 (nth (m_in c) words 0 + m_t c) in
  let w := u32 (md5_get (m_w c) s + (core_f (m_f c) x (md5_get (m_y c) s) (md5_get (m_z c) s) + data)) in
  let w := rol w (m_s c) in
  md5_set (m_w c) (u32 (w + x)) s.

Definition md5_steps : list step_call :=
  [
    md5_call F1 Ma Mb Mc Md 0 0xd76aa478 7; md5_call F1 Md Ma Mb Mc 1 0xe8c7b756 12;
    md5_call F1 Mc Md Ma Mb 2 0x242070db 17; md5_call F1 Mb Mc Md Ma 3 0xc1bdceee 22;
    md5_call F1 Ma Mb Mc Md 4 0xf57c0faf 7; md5_call F1 Md Ma Mb Mc 5 0x4787c62a 12;
    md5_call F1 Mc Md Ma Mb 6 0xa8304613 17; md5_call F1 Mb Mc Md Ma 7 0xfd469501 22;
    md5_call F1 Ma Mb Mc Md 8 0x698098d8 7; md5_call F1 Md Ma Mb Mc 9 0x8b44f7af 12;
    md5_call F1 Mc Md Ma Mb 10 0xffff5bb1 17; md5_call F1 Mb Mc Md Ma 11 0x895cd7be 22;
    md5_call F1 Ma Mb Mc Md 12 0x6b901122 7; md5_call F1 Md Ma Mb Mc 13 0xfd987193 12;
    md5_call F1 Mc Md Ma Mb 14 0xa679438e 17; md5_call F1 Mb Mc Md Ma 15 0x49b40821 22;
    md5_call F2 Ma Mb Mc Md 1 0xf61e2562 5; md5_call F2 Md Ma Mb Mc 6 0xc040b340 9;
    md5_call F2 Mc Md Ma Mb 11 0x265e5a51 14; md5_call F2 Mb Mc Md Ma 0 0xe9b6c7aa 20;
    md5_call F2 Ma Mb Mc Md 5 0xd62f105d 5; md5_call F2 Md Ma Mb Mc 10 0x02441453 9;
    md5_call F2 Mc Md Ma Mb 15 0xd8a1e681 14; md5_call F2 Mb Mc Md Ma 4 0xe7d3fbc8 20;
    md5_call F2 Ma Mb Mc Md 9 0x21e1cde6 5; md5_call F2 Md Ma Mb Mc 14 0xc33707d6 9;
    md5_call F2 Mc Md Ma Mb 3 0xf4d50d87 14; md5_call F2 Mb Mc Md Ma 8 0x455a14ed 20;
    md5_call F2 Ma Mb Mc Md 13 0xa9e3e905 5; md5_call F2 Md Ma Mb Mc 2 0xfcefa3f8 9;
    md5_call F2 Mc Md Ma Mb 7 0x676f02d9 14; md5_call F2 Mb Mc Md Ma 12 0x8d2a4c8a 20;
    md5_call F3 Ma Mb Mc Md 5 0xfffa3942 4; md5_call F3 Md Ma Mb Mc 8 0x8771f681 11;
    md5_call F3 Mc Md Ma Mb 11 0x6d9d6122 16; md5_call F3 Mb Mc Md Ma 14 0xfde5380c 23;
    md5_call F3 Ma Mb Mc Md 1 0xa4beea44 4; md5_call F3 Md Ma Mb Mc 4 0x4bdecfa9 11;
    md5_call F3 Mc Md Ma Mb 7 0xf6bb4b60 16; md5_call F3 Mb Mc Md Ma 10 0xbebfbc70 23;
    md5_call F3 Ma Mb Mc Md 13 0x289b7ec6 4; md5_call F3 Md Ma Mb Mc 0 0xeaa127fa 11;
    md5_call F3 Mc Md Ma Mb 3 0xd4ef3085 16; md5_call F3 Mb Mc Md Ma 6 0x04881d05 23;
    md5_call F3 Ma Mb Mc Md 9 0xd9d4d039 4; md5_call F3 Md Ma Mb Mc 12 0xe6db99e5 11;
    md5_call F3 Mc Md Ma Mb 15 0x1fa27cf8 16; md5_call F3 Mb Mc Md Ma 2 0xc4ac5665 23;
    md5_call F4 Ma Mb Mc Md 0 0xf4292244 6; md5_call F4 Md Ma Mb Mc 7 0x432aff97 10;
    md5_call F4 Mc Md Ma Mb 14 0xab9423a7 15; md5_call F4 Mb Mc Md Ma 5 0xfc93a039 21;
    md5_call F4 Ma Mb Mc Md 12 0x655b59c3 6; md5_call F4 Md Ma Mb Mc 3 0x8f0ccc92 10;
    md5_call F4 Mc Md Ma Mb 10 0xffeff47d 15; md5_call F4 Mb Mc Md Ma 1 0x85845dd1 21;
    md5_call F4 Ma Mb Mc Md 8 0x6fa87e4f 6; md5_call F4 Md Ma Mb Mc 15 0xfe2ce6e0 10;
    md5_call F4 Mc Md Ma Mb 6 0xa3014314 15; md5_call F4 Mb Mc Md Ma 13 0x4e0811a1 21;
    md5_call F4 Ma Mb Mc Md 4 0xf7537e82 6; md5_call F4 Md Ma Mb Mc 11 0xbd3af235 10;
    md5_call F4 Mc Md Ma Mb 2 0x2ad7d2bb 15; md5_call F4 Mb Mc Md Ma 9 0xeb86d391 21 ].

Definition md5_load (buf : list Z) : md5_regs := mkMd5Regs (nth 0 buf 0) (nth 1 buf 0) (nth 2 buf 0) (nth 3 buf 0).
Definition md5_add (s r : md5_regs) : list Z :=
  [u32 (md5_a s + md5_a r); u32 (md5_b s + md5_b r); u32 (md5_c s + md5_c r); u32 (md5_d s + md5_d r)].
Definition MD5Transform (buf block : list Z) : list Z :=
  md5_add (md5_load buf) (fold_left (md5_step (le_words block)) md5_steps (md5_load buf)).

(** ** The context *)

Record MD5Context := mkMd5 { md5_buf : list Z; bits0 : Z; bits1 : Z; md5_in : list Z }.

(** [memory]: what the context holds *)
Definition MD5Init (memory : list Z) : MD5Context := mkMd5 [0x67452301; 0xefcdab89; 0x98badcfe; 0x10325476] 0 0 memory.

(** while (len >= 64); [pos] is how far [buf] has moved *)
Fixpoint md5_blocks (fuel : nat) (state mem data : list Z) (pos len : Z) : M (list Z * list Z * Z * Z) :=
  match fuel with
  | O => Err OutOfFuel
  | S fuel =>
      if 64 <=? len then
        d ← get data pos 64;
        mem ← blit mem 0 d;
        md5_blocks fuel (MD5Transform state mem) mem data (pos + 64) (len - 64)
      else Ok (state, mem, pos, len)
  end.

(** the blocks and the rest, from [pos] *)
Definition md5_tail (state mem data : list Z) (pos len b0 b1 : Z) : M MD5Context :=
  '(state, mem, pos, len) ← md5_blocks (S (length data)) state mem data pos len;
  d ← get data pos len;
  mem ← blit mem 0 d;
  Ok (mkMd5 state b0 b1 mem).

Definition MD5Update (data : list Z) (ctx : MD5Context) : M MD5Context :=
  let len := u32 (zlen data) in
  let t := bits0 ctx in
  let b0 := u32 (t + u32 (Z.shiftl len 3)) in
  let b1 := (if b0 <? t then u32 (bits1 ctx + 1) else bits1 ctx) in
  let b1 := u32 (b1 + Z.shiftr len 29) in
  let t := Z.land (Z.shiftr t 3) 0x3f in
  if negb (t =? 0) then
    if len <? 64 - t then
      d ← get data 0 len;
      mem ← blit (md5_in ctx) t d;
      Ok (mkMd5 (md5_buf ctx) b0 b1 mem)
    else
      d ← get data 0 (64 - t);
      mem ← blit (md5_in ctx) t d;
      md5_tail (MD5Transform (md5_buf ctx) mem) mem data (64 - t) (len - (64 - t)) b0 b1
  else md5_tail (md5_buf ctx) (md5_in ctx) data 0 len b0 b1.

Definition MD5Final (ctx : MD5Context) : M (list Z) :=
  let count := Z.land (Z.shiftr (bits0 ctx) 3) 0x3F in
  mem ← wr (md5_in ctx) count 0x80;
  let p := count + 1 in
  let count := 64 - 1 - count in
  '(state, mem) ← (if count <? 8 then
      mem ← blit mem p (replicate (Z.to_nat count) 0);
      let state := MD5Transform (md5_buf ctx) mem in
      mem ← blit mem 0 (replicate 56 0);
      Ok (state, mem)
    else mem ← blit mem p (replicate (Z.to_nat (count - 8)) 0); Ok (md5_buf ctx, mem));
  mem ← blit mem 56 (to_le 4 (bits0 ctx));
  mem ← blit mem 60 (to_le 4 (bits1 ctx));
  Ok (concat (map (to_le 4) (MD5Transform state mem))).

Fixpoint md5_updates (addr : list (list Z)) (ctx : MD5Context) : M MD5Context :=
  match addr with [] => Ok ctx | d :: addr => ctx ← MD5Update d ctx; md5_updates addr ctx end.
Definition md5_vector_internal (stack : list Z) (addr : list (list Z)) : M (list Z) :=
  ctx ← md5_updates addr (MD5Init stack);
  MD5Final ctx.

(** ** RFC 1321 *)

Definition md5_f (i : nat) (x y z : Z) : Z :=
  if (i <? 16)%nat then Z.lor (Z.land x y) (Z.land (not32 x) z)
  else if (i <? 32)%nat then Z.lor (Z.land x z) (Z.land y (not32 z))
  else if (i <? 48)%nat then Z.lxor (Z.lxor x y) z
  else Z.lxor y (Z.lor x (not32 z)).
Definition md5_k (i : nat) : nat :=
  if (i <? 16)%nat then i else if (i <? 32)%nat then ((5 * i + 1) mod 16)%nat
  else if (i <? 48)%nat then ((3 * i + 5) mod 16)%nat else ((7 * i) mod 16)%nat.
Definition md5_shifts : list Z := [7; 12; 17; 22; 5; 9; 14; 20; 4; 11; 16; 23; 6; 10; 15; 21].
Definition md5_shift (i : nat) : Z := nth (4 * (i / 16) + i mod 4) md5_shifts 0.
(** T[i + 1]: the integer part of 4294967296 times abs(sin(i + 1)) *)
Definition md5_sines : list Z :=
  [ 0xd76aa478; 0xe8c7b756; 0x242070db; 0xc1bdceee; 0xf57c0faf; 0x4787c62a; 0xa8304613; 0xfd469501;
    0x698098d8; 0x8b44f7af; 0xffff5bb1; 0x895cd7be; 0x6b901122; 0xfd987193; 0xa679438e; 0x49b40821;
    0xf61e2562; 0xc040b340; 0x265e5a51; 0xe9b6c7aa; 0xd62f105d; 0x02441453; 0xd8a1e681; 0xe7d3fbc8;
    0x21e1cde6; 0xc33707d6; 0xf4d50d87; 0x455a14ed; 0xa9e3e905; 0xfcefa3f8; 0x676f02d9; 0x8d2a4c8a;
    0xfffa3942; 0x8771f681; 0x6d9d6122; 0xfde5380c; 0xa4beea44; 0x4bdecfa9; 0xf6bb4b60; 0xbebfbc70;
    0x289b7ec6; 0xeaa127fa; 0xd4ef3085; 0x04881d05; 0xd9d4d039; 0xe6db99e5; 0x1fa27cf8; 0xc4ac5665;
    0xf4292244; 0x432aff97; 0xab9423a7; 0xfc93a039; 0x655b59c3; 0x8f0ccc92; 0xffeff47d; 0x85845dd1;
    0x6fa87e4f; 0xfe2ce6e0; 0xa3014314; 0x4e0811a1; 0xf7537e82; 0xbd3af235; 0x2ad7d2bb; 0xeb86d391 ].
(** [ABCD k s i] *)
Definition md5_operation (x : list Z) (s : Z * Z * Z * Z) (i : nat) : Z * Z * Z * Z :=
  let '(a, b, c, d) := s in
  (d, u32 (b + rol (u32 (a + md5_f i b c d + nth (md5_k i) x 0 + nth i md5_sines 0)) (md5_shift i)), b, c).
Definition md5_feedback (h : list Z) (s : Z * Z * Z * Z) : list Z :=
  let '(a, b, c, d) := s in [u32 (nth 0 h 0 + a); u32 (nth 1 h 0 + b); u32 (nth 2 h 0 + c); u32 (nth 3 h 0 + d)].
Definition md5_compress (h b : list Z) : list Z :=
  md5_feedback h (fold_left (md5_operation (le_words b)) (seq 0 64) (nth 0 h 0, nth 1 h 0, nth 2 h 0, nth 3 h 0)).

(** *** The steps *)

Definition md5_roles (i : nat) : md5_reg * md5_reg * md5_reg * md5_reg :=
  match (i mod 4)%nat with
  | 0%nat => (Ma, Mb, Mc, Md) | 1%nat => (Md, Ma, Mb, Mc) | 2%nat => (Mc, Md, Ma, Mb) | _ => (Mb, Mc, Md, Ma)
  end.
Definition core_of (i : nat) : core := if (i <? 16)%nat then F1 else if (i <? 32)%nat then F2 else if (i <? 48)%nat then F3 else F4.
Definition md5_call_of (i : nat) : step_call :=
  let '(w, x, y, z) := md5_roles i in md5_call (core_of i) w x y z (md5_k i) (nth i md5_sines 0) (md5_shift i).
Definition md5_view (i : nat) (s : md5_regs) : Z * Z * Z * Z :=
  let '(w, x, y, z) := md5_roles i in (md5_get w s, md5_get x s, md5_get y s, md5_get z s).

Lemma md5_steps_table : md5_steps = map md5_call_of (seq 0 64).
Proof. reflexivity. Qed.

Lemma not32_bits x y : is_word y -> Z.land (not32 x) y = Z.land (Z.lnot x) y.
Proof.
  intros Hy. apply Z.bits_inj'. intros i Hi. unfold not32. rewrite !Z.land_spec, Z.lxor_spec, Z.lnot_spec by done.
  destruct (Z.lt_ge_cases i 32); [|by rewrite (word_testbit y), !andb_false_r]. change 0xFFFFFFFF with (Z.ones 32).
  rewrite Z.ones_spec_low by lia. by rewrite xorb_true_r.
Qed.
Lemma f1_ok x y z : is_word z -> f1 x y z = Z.lor (Z.land x y) (Z.land (not32 x) z).
Proof. intros Hz. rewrite not32_bits by done. unfold f1. bitwise. Qed.
Lemma core_f_ok i x y z : is_word y -> is_word z -> core_f (core_of i) x y z = md5_f i x y z.
Proof.
  intros Hy Hz. unfold core_of, md5_f. destruct (i <? 16)%nat; cbn [core_f]; [by rewrite f1_ok|]. destruct (i <? 32)%nat; cbn [core_f]; [|by destruct (i <? 48)%nat].
  rewrite f1_ok by done. rewrite (Z.land_comm z x), (Z.land_comm (not32 z)). done.
Qed.

Definition md5_words (s : md5_regs) : Prop := is_word (md5_a s) /\ is_word (md5_b s) /\ is_word (md5_c s) /\ is_word (md5_d s).
Lemma md5_get_word r s : md5_words s -> is_word (md5_get r s).
Proof. intros (Ha & Hb & Hc & Hd). by destruct r. Qed.
Lemma md5_set_word r v s : md5_words s -> is_word v -> md5_words (md5_set r v s).
Proof. destruct s. intros (Ha & Hb & Hc & Hd) Hv. unfold md5_words. destruct r; cbn in *; auto. Qed.

Lemma mod4_cases i : {(i mod 4 = 0 /\ S i mod 4 = 1)%nat} + {(i mod 4 = 1 /\ S i mod 4 = 2)%nat} + {(i mod 4 = 2 /\ S i mod 4 = 3)%nat} +
  {(i mod 4 = 3 /\ S i mod 4 = 0)%nat}.
Proof.
  assert (S i mod 4 = S (i mod 4) mod 4)%nat as E by (rewrite <- Nat.add_1_r, <- Nat.Div0.add_mod_idemp_l, Nat.add_1_r; done).
  pose proof (Nat.mod_upper_bound i 4 ltac:(lia)) as H. rewrite E. destruct (i mod 4)%nat as [|[|[|[|n]]]]; cbn; try lia; auto 20.
Qed.

Lemma u32_add_l x y : u32 (u32 x + y) = u32 (x + y).
Proof. unfold u32. by rewrite Z.add_mod_idemp_l. Qed.
Lemma u32_add_r x y : u32 (x + u32 y) = u32 (x + y).
Proof. unfold u32. by rewrite Z.add_mod_idemp_r. Qed.

(** one step is one operation of the RFC on the registers in their roles *)
Lemma md5_step_view ws i s : md5_words s -> md5_words (md5_step ws s (md5_call_of i)) /\
  md5_view (S i) (md5_step ws s (md5_call_of i)) = md5_operation ws (md5_view i s) i.
Proof.
  intros Hs. unfold md5_call_of, md5_view, md5_roles.
  assert (forall w x y z, md5_step ws s (md5_call (core_of i) w x y z (md5_k i) (nth i md5_sines 0) (md5_shift i)) =
    md5_set w (u32 (md5_get x s + rol (u32 (md5_get w s + md5_f i (md5_get x s) (md5_get y s) (md5_get z s) + nth (md5_k i) ws 0 + nth i md5_sines 0))
      (md5_shift i))) s) as H.
  { intros w x y z. unfold md5_step. cbn [m_f m_w m_x m_y m_z m_in m_t m_s]. rewrite core_f_ok by by apply md5_get_word.
    rewrite Z.add_assoc, u32_add_r. f_equal. rewrite Z.add_comm. by rewrite !Z.add_assoc. }
  destruct (mod4_cases i) as [[[[-> ->]|[-> ->]]|[-> ->]]|[-> ->]]; rewrite H; (split; [apply md5_set_word; [done|apply u32_word]|]);
    destruct s; done.
Qed.

Lemma md5_steps_view ws s n : md5_words s ->
  let r := fold_left (md5_step ws) (map md5_call_of (seq 0 n)) s in
  md5_words r /\ md5_view n r = fold_left (md5_operation ws) (seq 0 n) (md5_view 0 s).
Proof.
  intros Hs. induction n as [|n IH]; [done|]. cbv zeta in *. rewrite !seq_S, map_app, !fold_left_app. cbn [map fold_left Nat.add].
  destruct IH as [Hw Hv]. destruct (md5_step_view ws n _ Hw) as [Hw' ->]. split; [done|]. by rewrite Hv.
Qed.

Lemma md5_add_view h r : md5_add (md5_load h) r = md5_feedback h (md5_view 64 r).
Proof. reflexivity. Qed.

(** MD5Transform is the compression of RFC 1321. *)
Theorem MD5Transform_correct h b : words h -> MD5Transform h b = md5_compress h b.
Proof.
  intros Hw. unfold MD5Transform, md5_compress. rewrite md5_add_view, md5_steps_table. f_equal.
  destruct (md5_steps_view (le_words b) (md5_load h) 64) as [_ ->]; [|reflexivity]. repeat split; by apply words_nth.
Qed.

(** ** The context *)

Definition md5_init : list Z := [0x67452301; 0xefcdab89; 0x98badcfe; 0x10325476].
Definition md5_after (d : list Z) : list Z := after_blocks md5_compress md5_init d.

Record md5_holds (ctx : MD5Context) (d : list Z) : Prop := {
  m5_state : md5_buf ctx = md5_after d;
  m5_bits0 : bits0 ctx = bits_low (zlen d);
  m5_bits1 : bits1 ctx = bits_high (zlen d);
  m5_memory : length (md5_in ctx) = 64%nat;
  m5_rest : take (length d mod 64) (md5_in ctx) = left_over d }.

Lemma md5_compress_words h b : words (md5_compress h b) /\ length (md5_compress h b) = 4%nat.
Proof. unfold md5_compress, md5_feedback. destruct (fold_left _ _ _) as [[[a b'] c] d]. split; [|done]. repeat (apply Forall_cons; [apply u32_word|]). constructor. Qed.
Lemma md5_after_words d : words (md5_after d) /\ length (md5_after d) = 4%nat.
Proof.
  unfold md5_after, after_blocks. generalize (length d / 64)%nat. intros n.
  assert (forall st l, words st /\ length st = 4%nat -> words (absorb md5_compress n st l) /\ length (absorb md5_compress n st l) = 4%nat) as G.
  { induction n as [|n IH]; intros st l H; [done|]. cbn [absorb]. apply IH, md5_compress_words. }
  apply G. split; [by repeat constructor|done].
Qed.

Lemma md5_next_block pre x : length x = 64%nat -> (length pre mod 64 = 0)%nat -> MD5Transform (md5_after pre) x = md5_after (pre ++ x).
Proof.
  intros Hl Hp. destruct (md5_after_words pre) as [Hw _]. rewrite MD5Transform_correct by done. unfold md5_after.
  destruct (after_blocks_block md5_compress md5_init pre x) as [-> _]; [lia|].
  assert (left_over pre = []) as -> by (apply nil_length_inv; by rewrite length_left_over). done.
Qed.

Lemma blit_all (mem x : list Z) : length mem = 64%nat -> zlen x = 64 -> blit mem 0 x = Ok x.
Proof. intros Hm Hx. apply blit_whole. unfold zlen in *. lia. Qed.

Lemma md5_blocks_spec fuel pre mem data i : bytes data -> length mem = 64%nat -> 0 <= i <= zlen data ->
  (zlen pre + i) mod 64 = 0 -> zlen data - i < Z.of_nat fuel ->
  exists i' mem', md5_blocks fuel (md5_after (pre ++ take (Z.to_nat i) data)) mem data i (zlen data - i) =
      Ok (md5_after (pre ++ take (Z.to_nat i') data), mem', i', zlen data - i') /\ length mem' = 64%nat /\
    0 <= i' <= zlen data /\ zlen data - i' < 64 /\ (zlen pre + i') mod 64 = 0.
Proof.
  intros Hb. revert mem i. induction fuel as [|fuel IH]; intros mem i Hmem Hi Hm Hf; [lia|]. cbn [md5_blocks].
  destruct (Z.leb_spec 64 (zlen data - i)); [|exists i, mem; split; [done|]; split; [done|lia]].
  destruct (get_bytes data i 64 Hb) as (x & -> & Hx & Hbx & Et); [lia..|]. rewrite bind_ok, blit_all, bind_ok by done.
  rewrite md5_next_block; [|unfold zlen in Hx; lia|by apply at_boundary].
  rewrite <- app_assoc, Et. replace (zlen data - i - 64) with (zlen data - (i + 64)) by lia. apply IH; [unfold zlen in Hx; lia|lia| |lia].
  rewrite Z.add_assoc. by rewrite <- (Z.add_mod_idemp_l (zlen pre + i)), Hm by lia.
Qed.

Lemma md5_tail_spec d mem data i b0 b1 : bytes data -> length mem = 64%nat -> 0 <= i <= zlen data -> (zlen d + i) mod 64 = 0 ->
  b0 = bits_low (zlen (d ++ data)) -> b1 = bits_high (zlen (d ++ data)) ->
  exists ctx', md5_tail (md5_after (d ++ take (Z.to_nat i) data)) mem data i (zlen data - i) b0 b1 = Ok ctx' /\ md5_holds ctx' (d ++ data).
Proof.
  intros Hb Hmem Hi Hm -> ->. unfold md5_tail.
  destruct (md5_blocks_spec (S (length data)) d mem data i Hb Hmem Hi Hm) as (i' & mem' & -> & Hl' & Hi' & Hlt & Hm'); [unfold zlen; lia|].
  rewrite bind_ok. destruct (get_bytes data i' (zlen data - i') Hb) as (y & -> & Hy & _ & Ety); [lia..|]. rewrite bind_ok.
  destruct (fill_buffer mem' y 0 Hl') as (buf' & -> & Hbl' & Hbt' & _); [lia..|]. rewrite bind_ok. eexists. split; [done|].
  replace (i' + (zlen data - i')) with (zlen data) in Ety by lia. rewrite (take_ge data (Z.to_nat (zlen data))) in Ety by (unfold zlen; lia).
  set (p := take (Z.to_nat i') data) in *. assert (length (d ++ p) mod 64 = 0)%nat as Hp by by apply at_boundary.
  destruct (after_blocks_short md5_compress md5_init (d ++ p) y) as [Ea Eo]; [unfold zlen in *; lia|].
  rewrite <- app_assoc, Ety in Ea, Eo. assert (left_over (d ++ p) = []) as E0' by (apply nil_length_inv; by rewrite length_left_over).
  rewrite E0' in Eo. split; cbn [md5_buf bits0 bits1 md5_in]; [by unfold md5_after|done..|].
  rewrite Eo, <- length_left_over, Eo. exact Hbt'.
Qed.

Lemma MD5Update_correct ctx d e : md5_holds ctx d -> bytes e -> zlen e < 2 ^ 32 ->
  exists ctx', MD5Update e ctx = Ok ctx' /\ md5_holds ctx' (d ++ e).
Proof.
  intros [Hs H0 H1 Hb Hr] He Hz. pose proof (zlen_nonneg d). pose proof (zlen_nonneg e). unfold MD5Update. rewrite H0, H1.
  rewrite (u32_small (zlen e)) by lia. change 0x3f with 63. rewrite bits_index by lia. cbv zeta. rewrite bits_carry by lia.
  destruct (bits_add (zlen d) (zlen e)) as [E0 E1]; [lia..|]. cbv zeta in E1.
  rewrite E1, E0, <- zlen_app. set (j := zlen d mod 64). assert (0 <= j < 64) as Hj by (apply Z.mod_pos_bound; lia).
  assert (Z.to_nat j = (length d mod 64)%nat) as Ej by (unfold j, zlen; rewrite <- mod64; lia).
  destruct (Z.eqb_spec j 0) as [Hj0|Hj0]; cbn [negb].
  - rewrite Hs. replace (md5_after d) with (md5_after (d ++ take (Z.to_nat 0) e)) by by rewrite app_nil_r.
    rewrite <- (Z.sub_0_r (zlen e)). apply md5_tail_spec; [done|done|lia|by rewrite Z.add_0_r|done..].
  - destruct (Z.ltb_spec (zlen e) (64 - j)).
    + rewrite get_whole, bind_ok by done. destruct (fill_buffer (md5_in ctx) e j Hb) as (buf' & -> & Hbl' & Hbt' & _); [lia..|]. rewrite bind_ok.
      eexists. split; [done|]. destruct (after_blocks_short md5_compress md5_init d e) as [Ea Eo]; [unfold zlen in *; lia|].
      split; cbn [md5_buf bits0 bits1 md5_in]; [by unfold md5_after; rewrite Ea|done..|].
      rewrite Eo, <- length_left_over, Eo, length_app, length_left_over, <- Ej. by rewrite Hbt', Ej, Hr.
    + destruct (get_bytes e 0 (64 - j) He) as (x & -> & Hx & _ & Et); [lia..|]. rewrite bind_ok.
      change (take (Z.to_nat 0) e) with (@nil Z) in Et. cbn [app] in Et. rewrite Z.add_0_l in Et.
      destruct (fill_buffer (md5_in ctx) x j Hb) as (buf & -> & Hbl & Hbt & _); [lia..|]. rewrite bind_ok.
      assert (buf = left_over d ++ x) as Ebuf by (rewrite Ej, Hr in Hbt; rewrite <- Hbt, take_ge; [done|unfold zlen in *; lia]).
      assert (MD5Transform (md5_buf ctx) buf = md5_after (d ++ x)) as ->.
      { destruct (md5_after_words d). rewrite Hs, MD5Transform_correct by done. unfold md5_after. rewrite Ebuf.
        destruct (after_blocks_block md5_compress md5_init d x) as [-> _]; [unfold zlen in *; lia|done]. }
      rewrite Et. apply md5_tail_spec; [done|done|lia| |done..].
      unfold j. pose proof (Z.div_mod (zlen d) 64 ltac:(lia)).
      replace (zlen d + (64 - zlen d mod 64)) with ((zlen d / 64 + 1) * 64) by lia. by rewrite Z.mod_mul by lia.
Qed.

(** ** The digest *)

(** the message, padded with its length in bits as eight octets, least significant first *)
Definition md5_padded (d : list Z) : list Z := d ++ padding (to_le 8 (8 * zlen d)) (length d).
Definition md5_digest (d : list Z) : list Z := concat (map (to_le 4) (md5_after (md5_padded d))).

(** the last block: fifty-six octets [x], and the length *)
Lemma md5_last_block pre (x rest : list Z) state bl bh : (length pre mod 64 = 0)%nat -> length x = 56%nat -> length rest = 8%nat -> state = md5_after pre ->
  (mem ← blit (x ++ rest) 56 (to_le 4 bl); mem ← blit mem 60 (to_le 4 bh); Ok (concat (map (to_le 4) (MD5Transform state mem)))) =
    Ok (concat (map (to_le 4) (md5_after (pre ++ x ++ to_le 4 bl ++ to_le 4 bh)))).
Proof.
  intros Hp Hx Hr ->. rewrite <- (take_drop 4 rest). rewrite (blit_app x (take 4 rest)), bind_ok
    by (unfold zlen; rewrite ?length_to_le, ?length_take; lia).
  rewrite app_assoc, blit_last, bind_ok by (unfold zlen; rewrite ?length_app, ?length_to_le, ?length_drop; lia).
  rewrite <- app_assoc, md5_next_block; [done| |done]. rewrite !length_app, !length_to_le. lia.
Qed.

Lemma MD5Final_correct ctx d : md5_holds ctx d -> MD5Final ctx = Ok (md5_digest d).
Proof.
  intros [Hs H0 H1 Hm Hr]. unfold MD5Final. rewrite Hs, H0, H1. change 0x3F with 63. rewrite bits_index by apply zlen_nonneg. cbv zeta.
  unfold bits_low, bits_high. set (c := (length d mod 64)%nat) in *. assert (zlen d mod 64 = Z.of_nat c) as Ec by (unfold c, zlen; by rewrite mod64).
  rewrite !Ec.
  assert (c < 64)%nat as Hc by (apply Nat.mod_upper_bound; lia).
  destruct (memory_split (md5_in ctx) c Hm Hc) as (x & r & Emem & Hlr & Hzc). rewrite Emem, (wr_at _ _ _ _ _ (eq_sym Hzc)), bind_ok. clear Emem. rewrite Hr in *.
  set (lo := left_over d) in *. assert (length lo = c) as Hlo by apply length_left_over.
  unfold md5_digest, md5_padded, padding, pad_zeros. fold c. rewrite to_le_split.
  destruct (Z.ltb_spec (64 - 1 - Z.of_nat c) 8).
  - assert (r = r ++ []) as -> by by rewrite app_nil_r.
    assert (blit (lo ++ [128] ++ r ++ []) (Z.of_nat c + 1) (replicate (Z.to_nat (64 - 1 - Z.of_nat c)) 0) = Ok (lo ++ [128] ++ replicate (63 - c) 0)) as ->.
    { rewrite (app_assoc lo), blit_app; [rewrite <- app_assoc, app_nil_r; do 4 f_equal; lia|rewrite zlen_app; change (zlen [128]) with 1; lia|].
      unfold zlen. rewrite length_replicate. lia. }
    rewrite bind_ok. set (pre := d ++ [128] ++ replicate (63 - c) 0).
    destruct (after_blocks_block md5_compress md5_init d ([128] ++ replicate (63 - c) 0)) as [Ea Eo]; [rewrite length_app, length_replicate; fold c; cbn [length]; lia|].
    assert (MD5Transform (md5_after d) (lo ++ [128] ++ replicate (63 - c) 0) = md5_after pre) as ->.
    { destruct (md5_after_words d). rewrite MD5Transform_correct by done. exact (eq_sym Ea). }
    set (blk := lo ++ [128] ++ replicate (63 - c) 0). assert (length blk = 64%nat) as Hblk by (unfold blk; rewrite !length_app, length_replicate; cbn [length]; lia).
    rewrite <- (take_drop 56 blk). rewrite blit_head, !bind_ok by (unfold zlen; rewrite length_replicate, length_take; lia).
    rewrite (md5_last_block pre); [| |done|rewrite length_drop; lia|done].
    + unfold pre. replace ((119 - c) mod 64)%nat with (63 - c + 56)%nat by (rewrite Nat.mod_small; lia). rewrite replicate_add, <- !app_assoc. done.
    + unfold pre. rewrite !length_app, length_replicate. cbn [length]. pose proof (Nat.div_mod_eq (length d) 64). fold c in H2.
      replace (length d + (1 + (63 - c)))%nat with ((length d / 64 + 1) * 64)%nat by lia. by rewrite Nat.Div0.mod_mul.
  - set (z := Z.to_nat (64 - 1 - Z.of_nat c - 8)). assert (z = (55 - c)%nat) as Hz by lia.
    rewrite <- (take_drop z r). assert (length (take z r) = z) as Htz by (rewrite length_take; lia).
    rewrite (app_assoc lo), blit_app, !bind_ok by (rewrite ?zlen_app; unfold zlen in *; rewrite ?length_replicate; cbn [length]; lia).
    rewrite <- (take_drop (length d - c) d).
    assert (length d - c = 64 * (length d / 64))%nat as Hd by (pose proof (Nat.div_mod_eq (length d) 64); fold c in H2; lia).
    assert (drop (length d - c) d = lo) as Elo by (unfold lo, left_over; by rewrite Hd). rewrite Elo. set (pre := take (length d - c) d).
    assert (length pre mod 64 = 0)%nat as Hpre by (unfold pre; rewrite length_take, Nat.min_l, Hd, Nat.mul_comm by lia; by rewrite Nat.Div0.mod_mul).
    rewrite (app_assoc (lo ++ [128])), (md5_last_block pre); [|done|rewrite !length_app, length_replicate; cbn [length]; lia|rewrite length_drop; lia|].
    + replace ((119 - c) mod 64)%nat with z by (replace (119 - c)%nat with (55 - c + 1 * 64)%nat by lia; rewrite Nat.Div0.mod_add, Nat.mod_small; lia).
      by rewrite <- !app_assoc.
    + destruct (after_blocks_short md5_compress md5_init pre lo) as [Ea _]; [lia|]. unfold md5_after. rewrite <- Ea. unfold pre. rewrite <- Elo. by rewrite take_drop.
Qed.

(** MD5 of sums: [md5_vector] computes the MD5 of RFC 1321 of the concatenation of its buffers, however the message is divided, for every
    content of the context's memory. *)
Theorem md5_vector_correct stack addr : length stack = 64%nat -> Forall (fun d => bytes d) addr -> Forall fits_u32 addr ->
  md5_vector_internal stack addr = Ok (md5_digest (concat addr)).
Proof.
  intros Hl Hb Hf. unfold md5_vector_internal.
  assert (forall ctx d, md5_holds ctx d -> exists ctx', md5_updates addr ctx = Ok ctx' /\ md5_holds ctx' (d ++ concat addr)) as G.
  { clear Hl. induction Hb as [|e addr He _ IH]; intros ctx d Hd; [exists ctx; by rewrite app_nil_r|].
    apply Forall_cons_1 in Hf as [He' Hf]. cbn [md5_updates concat]. destruct (MD5Update_correct ctx d e Hd He) as (c1 & -> & H1); [unfold fits_u32 in He'; lia|].
    rewrite bind_ok. destruct (IH Hf c1 _ H1) as (c2 & -> & H2). exists c2. split; [done|]. by rewrite <- app_assoc in H2. }
  destruct (G (MD5Init stack) []) as (ctx & -> & H); [by split|]. rewrite bind_ok. by apply MD5Final_correct.
Qed.

Lemma md5_vector_correct_witness : md5_vector_internal (replicate 64 7) [[97]; [98; 99]] = Ok (to_be 16 0x900150983cd24fb0d6963f7d28e17f72).
Proof.
  rewrite (md5_vector_correct (replicate 64 7) [[97]; [98; 99]]).
  - vm_compute. reflexivity.
  - reflexivity.
  - by repeat constructor.
  - by repeat constructor.
Defined.

Lemma zlen_md5 d : zlen (md5_digest d) = 16 /\ bytes (md5_digest d).
Proof.
  unfold md5_digest. destruct (md5_after_words (md5_padded d)) as [_ Hl]. set (h := md5_after _) in *. clearbody h. split.
  - rewrite (zlen_concat _ 4); [unfold zlen; by rewrite length_map, Hl|]. apply Forall_map, Forall_true. intros w. by rewrite zlen_to_le.
  - clear Hl. induction h as [|w h IH]; [constructor|]. cbn [map concat]. apply Forall_app; split; [apply to_le_bytes|exact IH].
Qed.
