(* ===== verification/Sha256Internal.v ===== *)
(** * SHA-256 (src/hostapd-2.5/src/crypto/sha256-internal.c)

    The compression with its message schedule, the context and the padding,
    against FIPS 180-2. *)

From S2P Require Import Prelude HexText AesCtr EapCommon WpaSafe Merkle.
Open Scope Z_scope.

(** ** sha256_compress *)

(** the rows of the array *)
Definition K : list Z :=
  concat [
    [0x428a2f98; 0x71374491; 0xb5c0fbcf; 0xe9b5dba5; 0x3956c25b];
    [0x59f111f1; 0x923f82a4; 0xab1c5ed5; 0xd807aa98; 0x12835b01];
    [0x243185be; 0x550c7dc3; 0x72be5d74; 0x80deb1fe; 0x9bdc06a7];
    [0xc19bf174; 0xe49b69c1; 0xefbe4786; 0x0fc19dc6; 0x240ca1cc];
    [0x2de92c6f; 0x4a7484aa; 0x5cb0a9dc; 0x76f988da; 0x983e5152];
    [0xa831c66d; 0xb00327c8; 0xbf597fc7; 0xc6e00bf3; 0xd5a79147];
    [0x06ca6351; 0x14292967; 0x27b70a85; 0x2e1b2138; 0x4d2c6dfc];
    [0x53380d13; 0x650a7354; 0x766a0abb; 0x81c2c92e; 0x92722c85];
    [0xa2bfe8a1; 0xa81a664b; 0xc24b8b70; 0xc76c51a3; 0xd192e819];
    [0xd6990624; 0xf40e3585; 0x106aa070; 0x19a4c116; 0x1e376c08];
    [0x2748774c; 0x34b0bcb5; 0x391c0cb3; 0x4ed8aa4a; 0x5b9cca4f];
    [0x682e6ff3; 0x748f82ee; 0x78a5636f; 0x84c87814; 0x8cc70208];
    [0x90befffa; 0xa4506ceb; 0xbef9a3f7; 0xc67178f2] ].

(** the macros, on unsigned long *)
Definition RORc (x y : Z) : Z :=
  Z.land (Z.lor (Z.shiftr (Z.land x 0xFFFFFFFF) (Z.land y 31)) (u64 (Z.shiftl x (32 - Z.land y 31)))) 0xFFFFFFFF.
Definition Ch (x y z : Z) : Z := Z.lxor z (Z.land x (Z.lxor y z)).
Definition Maj (x y z : Z) : Z := Z.lor (Z.land (Z.lor x y) z) (Z.land x y).
Definition shift_right (x n : Z) : Z := Z.shiftr (Z.land x 0xFFFFFFFF) n.
Definition Sigma0 (x : Z) : Z := Z.lxor (Z.lxor (RORc x 2) (RORc x 13)) (RORc x 22).
Definition Sigma1 (x : Z) : Z := Z.lxor (Z.lxor (RORc x 6) (RORc x 11)) (RORc x 25).
Definition Gamma0 (x : Z) : Z := Z.lxor (Z.lxor (RORc x 7) (RORc x 18)) (shift_right x 3).
Definition Gamma1 (x : Z) : Z := Z.lxor (Z.lxor (RORc x 17) (RORc x 19)) (shift_right x 10).

(** fill W[16..63]: the array grows to [16 + n] words *)
Fixpoint fill_w (n : nat) (w : list Z) : list Z :=
  match n with
  | O => w
  | S n =>
      let w := fill_w n w in
      let i := (16 + n)%nat in
      w ++ [u32 (Gamma1 (nth (i - 2) w 0) + nth (i - 7) w 0 + Gamma0 (nth (i - 15) w 0) + nth (i - 16) w 0)]
  end.

(** RND and the moves of the array S *)
Definition rnd256 (w : list Z) (s : list Z) (i : nat) : list Z :=
  match s with
  | [a; b; c; d; e; f; g; h] =>
      let t0 := u32 (h + Sigma1 e + Ch e f g + nth i K 0 + nth i w 0) in
      let t1 := u32 (Sigma0 a + Maj a b c) in
      let d := u32 (d + t0) in
      let h := u32 (t0 + t1) in
      [h; a; b; c; d; e; f; g]
  | _ => s
  end.

Definition word256 (buf : list Z) (i : nat) : Z := be (slice (4 * i) 4 buf).
Definition sha256_compress (state buf : list Z) : list Z :=
  let w := fill_w 48 (map (word256 buf) (seq 0 16)) in
  let s := fold_left (rnd256 w) (seq 0 64) state in
  zip_with (fun x y => u32 (x + y)) state s.

(** ** The context *)

Definition SHA256_BLOCK_SIZE : Z := 64.
Record sha256_state := mkSha256 { sha_length : Z; sha_state : list Z; curlen : Z; sha_buf : list Z }.

Definition sha256_start : list Z :=
  [0x6A09E667; 0xBB67AE85; 0x3C6EF372; 0xA54FF53A; 0x510E527F; 0x9B05688C; 0x1F83D9AB; 0x5BE0CD19].
Definition sha256_init (memory : list Z) : sha256_state := mkSha256 0 sha256_start 0 memory.

Fixpoint process_loop (fuel : nat) (md : sha256_state) (data : list Z) (pos inlen : Z) : M sha256_state :=
  match fuel with
  | O => Err OutOfFuel
  | S fuel =>
      if 0 <? inlen then
        if (curlen md =? 0) && (SHA256_BLOCK_SIZE <=? inlen) then
          b ← get data pos SHA256_BLOCK_SIZE;
          process_loop fuel (mkSha256 (u64 (sha_length md + SHA256_BLOCK_SIZE * 8)) (sha256_compress (sha_state md) b) (curlen md) (sha_buf md))
            data (pos + SHA256_BLOCK_SIZE) (inlen - SHA256_BLOCK_SIZE)
        else
          let n := (if inlen <? SHA256_BLOCK_SIZE - curlen md then inlen else SHA256_BLOCK_SIZE - curlen md) in
          d ← get data pos n;
          buf ← blit (sha_buf md) (curlen md) d;
          let curlen := u32 (curlen md + n) in
          let md := (if curlen =? SHA256_BLOCK_SIZE
                     then mkSha256 (u64 (sha_length md + 8 * SHA256_BLOCK_SIZE)) (sha256_compress (sha_state md) buf) 0 buf
                     else mkSha256 (sha_length md) (sha_state md) curlen buf) in
          process_loop fuel md data (pos + n) (inlen - n)
      else Ok md
  end.
(** [None] for -1 *)
Definition sha256_process (data : list Z) (md : sha256_state) : M (option sha256_state) :=
  if 64 <=? curlen md then Ok None
  else md ← process_loop (S (length data)) md data 0 (zlen data); Ok (Some md).

(** while (md->curlen < stop) md->buf[md->curlen++] = 0 *)
Fixpoint zero_fill (fuel : nat) (buf : list Z) (curlen stop : Z) : M (list Z * Z) :=
  match fuel with
  | O => Err OutOfFuel
  | S fuel => if curlen <? stop then buf ← wr buf curlen 0; zero_fill fuel buf (curlen + 1) stop else Ok (buf, curlen)
  end.

Definition sha256_done (md : sha256_state) : M (option (list Z)) :=
  if 64 <=? curlen md then Ok None
  else
    let length := u64 (sha_length md + curlen md * 8) in
    buf ← wr (sha_buf md) (curlen md) 0x80;
    let curlen := curlen md + 1 in
    '(state, buf, curlen) ← (if 56 <? curlen then
        '(buf, _) ← zero_fill 65 buf curlen SHA256_BLOCK_SIZE;
        Ok (sha256_compress (sha_state md) buf, buf, 0)
      else Ok (sha_state md, buf, curlen));
    '(buf, _) ← zero_fill 57 buf curlen 56;
    buf ← blit buf 56 (to_be 8 length);
    Ok (Some (concat (map (to_be 4) (sha256_compress state buf)))).

Fixpoint sha256_updates (addr : list (list Z)) (md : sha256_state) : M (option sha256_state) :=
  match addr with
  | [] => Ok (Some md)
  | d :: addr => r ← sha256_process d md; match r with None => Ok None | Some md => sha256_updates addr md end
  end.
Definition sha256_vector (stack : list Z) (addr : list (list Z)) : M (option (list Z)) :=
  r ← sha256_updates addr (sha256_init stack);
  match r with None => Ok None | Some md => sha256_done md end.

(** ** FIPS 180-2 *)

Definition rotr (n x : Z) : Z := Z.lor (Z.shiftr x n) (u32 (Z.shiftl x (32 - n))).
Definition fips_sigma0 (x : Z) : Z := Z.lxor (Z.lxor (rotr 7 x) (rotr 18 x)) (Z.shiftr x 3).
Definition fips_sigma1 (x : Z) : Z := Z.lxor (Z.lxor (rotr 17 x) (rotr 19 x)) (Z.shiftr x 10).
Definition fips_sum0 (x : Z) : Z := Z.lxor (Z.lxor (rotr 2 x) (rotr 13 x)) (rotr 22 x).
Definition fips_sum1 (x : Z) : Z := Z.lxor (Z.lxor (rotr 6 x) (rotr 11 x)) (rotr 25 x).
Definition fips_ch (x y z : Z) : Z := Z.lxor (Z.land x y) (Z.land (Z.lnot x) z).
Definition fips_maj (x y z : Z) : Z := Z.lxor (Z.lxor (Z.land x y) (Z.land x z)) (Z.land y z).
(** the largest r below 2^40 with r^3 <= n *)
Definition cube_root (n : Z) : Z :=
  fold_left (fun r bit => let r' := r + 2 ^ bit in if r' ^ 3 <=? n then r' else r) (map Z.of_nat (rev (seq 0 40))) 0.
Definition is_prime (p : nat) : bool := forallb (fun d => negb (p mod d =? 0)%nat) (seq 2 (p - 2)).
(** the first 64 primes; the constant of each is the first 32 bits of the fractional part of its cube root *)
Definition first_primes : list nat := List.filter is_prime (seq 2 310).
Definition fips_constants : list Z := map (fun p => u32 (cube_root (Z.of_nat p * 2 ^ 96))) first_primes.
(** the schedule W(0) ... W(15 + n) *)
Fixpoint fips_schedule (n : nat) (m : list Z) : list Z :=
  match n with
  | O => m
  | S n =>
      let w := fips_schedule n m in
      w ++ [u32 (fips_sigma1 (nth (n + 14) w 0) + nth (n + 9) w 0 + fips_sigma0 (nth (n + 1) w 0) + nth n w 0)]
  end.
Definition working : Type := Z * Z * Z * Z * Z * Z * Z * Z.
Definition fips_step (w : list Z) (s : working) (t : nat) : working :=
  let '(a, b, c, d, e, f, g, h) := s in
  let t1 := u32 (h + fips_sum1 e + fips_ch e f g + nth t fips_constants 0 + nth t w 0) in
  let t2 := u32 (fips_sum0 a + fips_maj a b c) in
  (u32 (t1 + t2), a, b, c, u32 (d + t1), e, f, g).
Definition to_working (h : list Z) : working :=
  (nth 0 h 0, nth 1 h 0, nth 2 h 0, nth 3 h 0, nth 4 h 0, nth 5 h 0, nth 6 h 0, nth 7 h 0).
Definition of_working (s : working) : list Z := let '(a, b, c, d, e, f, g, h) := s in [a; b; c; d; e; f; g; h].
Definition fips_compress (h b : list Z) : list Z :=
  zip_with (fun x y => u32 (x + y)) h (of_working (fold_left (fips_step (fips_schedule 48 (be_words b))) (seq 0 64) (to_working h))).

(** *** The compression *)

Lemma land_word_mask x : is_word x -> Z.land x 0xFFFFFFFF = x.
Proof. intros H. change 0xFFFFFFFF with (Z.ones 32). rewrite Z.land_ones by lia. by apply Z.mod_small. Qed.
Lemma shiftr_word x n : is_word x -> 0 <= n -> is_word (Z.shiftr x n).
Proof.
  intros H Hn. apply word_bits; [apply Z.shiftr_nonneg; unfold is_word in H; lia|]. intros i Hi. rewrite Z.shiftr_spec by lia.
  apply word_testbit; [done|lia].
Qed.
Lemma RORc_ok x n : is_word x -> 0 <= n < 32 -> RORc x n = rotr n x.
Proof.
  intros Hx Hn. unfold RORc, rotr. rewrite (land_word_mask x) by done. change 31 with (Z.ones 5). rewrite !Z.land_ones, (Z.mod_small n) by lia.
  rewrite Z.shiftl_mul_pow2 by lia. assert (u64 (x * 2 ^ (32 - n)) = x * 2 ^ (32 - n)) as ->.
  { apply u64_small. pose proof (Z.pow_pos_nonneg 2 (32 - n)). pose proof (Z.pow_le_mono_r 2 (32 - n) 32). unfold is_word in Hx. nia. }
  rewrite Z.land_lor_distr_l, land_word_mask by (apply shiftr_word; [done|lia]). f_equal.
  change 0xFFFFFFFF with (Z.ones 32). by rewrite Z.land_ones.
Qed.
Lemma shift_right_ok x n : is_word x -> shift_right x n = Z.shiftr x n.
Proof. intros H. unfold shift_right. by rewrite land_word_mask. Qed.

Lemma Sigma0_ok x : is_word x -> Sigma0 x = fips_sum0 x.
Proof. intros H. unfold Sigma0, fips_sum0. by rewrite !RORc_ok by (done || lia). Qed.
Lemma Sigma1_ok x : is_word x -> Sigma1 x = fips_sum1 x.
Proof. intros H. unfold Sigma1, fips_sum1. by rewrite !RORc_ok by (done || lia). Qed.
Lemma Gamma0_ok x : is_word x -> Gamma0 x = fips_sigma0 x.
Proof. intros H. unfold Gamma0, fips_sigma0. by rewrite !RORc_ok, shift_right_ok by (done || lia). Qed.
Lemma Gamma1_ok x : is_word x -> Gamma1 x = fips_sigma1 x.
Proof. intros H. unfold Gamma1, fips_sigma1. by rewrite !RORc_ok, shift_right_ok by (done || lia). Qed.
Lemma Ch_ok x y z : Ch x y z = fips_ch x y z.
Proof. unfold Ch, fips_ch. bitwise. Qed.
Lemma Maj_ok x y z : Maj x y z = fips_maj x y z.
Proof. unfold Maj, fips_maj. bitwise. Qed.

Lemma schedule_words n m : words m -> words (fips_schedule n m).
Proof. intros H. induction n as [|n IH]; [done|]. cbn [fips_schedule]. apply Forall_app; split; [done|]. constructor; [apply u32_word|constructor]. Qed.
Lemma fill_w_ok n m : words m -> fill_w n m = fips_schedule n m.
Proof.
  intros H. induction n as [|n IH]; [done|]. cbn [fill_w fips_schedule]. rewrite IH. pose proof (schedule_words n m H) as Hw.
  rewrite Gamma1_ok, Gamma0_ok by by apply words_nth.
  replace (16 + n - 2)%nat with (n + 14)%nat by lia. replace (16 + n - 7)%nat with (n + 9)%nat by lia.
  replace (16 + n - 15)%nat with (n + 1)%nat by lia. by replace (16 + n - 16)%nat with n by lia.
Qed.

(** the array holds the constants of the standard *)
Lemma K_constants : K = fips_constants.
Proof. vm_compute. reflexivity. Qed.

Definition working_ok (s : working) : Prop :=
  let '(a, b, c, d, e, f, g, h) := s in is_word a /\ is_word b /\ is_word c /\ is_word d /\ is_word e /\ is_word f /\ is_word g /\ is_word h.
Lemma rnd256_ok w s i : working_ok s -> rnd256 w (of_working s) i = of_working (fips_step w s i) /\ working_ok (fips_step w s i).
Proof.
  destruct s as [[[[[[[a b] c] d] e] f] g] h]. intros (Ha & Hb & Hc & Hd & He & Hf & Hg & Hh). unfold of_working, rnd256, fips_step. rewrite K_constants.
  rewrite Sigma1_ok, Sigma0_ok, Ch_ok, Maj_ok by done. split; [done|]. unfold working_ok. pose proof u32_word. by auto 20.
Qed.
Lemma rnds256_ok w s n : working_ok s -> fold_left (rnd256 w) (seq 0 n) (of_working s) = of_working (fold_left (fips_step w) (seq 0 n) s).
Proof.
  intros Hs. assert (forall l s, working_ok s -> fold_left (rnd256 w) l (of_working s) = of_working (fold_left (fips_step w) l s)) as G.
  { clear. induction l as [|i l IH]; intros s Hs; [done|]. cbn [fold_left]. destruct (rnd256_ok w s i Hs) as [-> Hs']. by apply IH. }
  by apply G.
Qed.

Lemma word256_words b : bytes b -> length b = 64%nat -> words (be_words b).
Proof.
  intros Hb Hl. unfold be_words. apply Forall_map, Forall_forall. intros i [_ Hi]%in_seq.
  assert (bytes (slice (4 * i) 4 b)) as Hs by (unfold slice; apply Forall_take; by apply bytes_drop).
  pose proof (be_range _ Hs) as Hr. assert (zlen (slice (4 * i) 4 b) = 4) as Hz by (unfold slice, zlen; rewrite length_take, length_drop; lia).
  rewrite Hz in Hr. exact Hr.
Qed.

Definition state_ok (h : list Z) : Prop := words h /\ length h = 8%nat.
(** sha256_compress is the compression of FIPS 180-2. *)
Theorem sha256_compress_correct h b : state_ok h -> bytes b -> length b = 64%nat -> sha256_compress h b = fips_compress h b.
Proof.
  intros [Hw Hl] Hb Hlb. unfold sha256_compress, fips_compress. change (map (word256 b) (seq 0 16)) with (be_words b).
  rewrite fill_w_ok by by apply word256_words. f_equal.
  assert (h = of_working (to_working h)) as E by (do 9 (destruct h as [|? h]; try done)).
  rewrite E at 1. apply rnds256_ok. unfold to_working, working_ok. repeat split; try apply (words_nth h _ Hw).
Qed.

Lemma fips_compress_ok h b : length h = 8%nat -> state_ok (fips_compress h b).
Proof.
  intros Hl. unfold fips_compress. destruct (fold_left _ _ _) as [[[[[[[a b'] c] d] e] f] g] k]. unfold of_working. split.
  - apply Forall_forall. intros x Hx. apply list_elem_of_In in Hx. apply list_elem_of_lookup in Hx as [i Hi].
    apply lookup_zip_with_Some in Hi as (y & z & -> & _). apply u32_word.
  - rewrite length_zip_with, Hl. done.
Qed.

(** ** The context *)

Definition sha256_after (d : list Z) : list Z := after_blocks fips_compress sha256_start d.

Record sha256_holds (md : sha256_state) (d : list Z) : Prop := {
  s2_state : sha_state md = sha256_after d;
  s2_curlen : curlen md = zlen d mod 64;
  s2_length : sha_length md = u64 (8 * (zlen d - zlen d mod 64));
  s2_buffer : length (sha_buf md) = 64%nat;
  s2_bytes : bytes (sha_buf md);
  s2_rest : take (length d mod 64) (sha_buf md) = left_over d }.

Lemma sha256_after_ok d : state_ok (sha256_after d).
Proof.
  unfold sha256_after, after_blocks. generalize (length d / 64)%nat. intros n.
  assert (forall st l, state_ok st -> state_ok (absorb fips_compress n st l)) as G.
  { induction n as [|n IH]; intros st l H; [done|]. cbn [absorb]. apply IH, fips_compress_ok, H. }
  apply G. split; [by repeat constructor|done].
Qed.

(** a block is complete: what is left of [d], and [x] *)
Lemma sha256_block d x : bytes (left_over d ++ x) -> (length d mod 64 + length x = 64)%nat ->
  sha256_compress (sha256_after d) (left_over d ++ x) = sha256_after (d ++ x).
Proof.
  intros Hb Hl. pose proof (sha256_after_ok d). rewrite sha256_compress_correct; [|done|done|rewrite length_app, length_left_over; lia].
  unfold sha256_after. by destruct (after_blocks_block fips_compress sha256_start d x Hl) as [-> _].
Qed.

Lemma u64_add_l x y : u64 (u64 x + y) = u64 (x + y).
Proof. unfold u64. by rewrite Z.add_mod_idemp_l. Qed.

Lemma whole_blocks (d x : list Z) : (length d mod 64 + length x = 64)%nat ->
  zlen (d ++ x) mod 64 = 0 /\ 8 * (zlen d - zlen d mod 64) + 512 = 8 * (zlen (d ++ x) - zlen (d ++ x) mod 64).
Proof.
  intros H. rewrite zlen_app. assert (zlen d mod 64 + zlen x = 64) as E by (unfold zlen; rewrite <- mod64; lia).
  pose proof (Z.div_mod (zlen d) 64 ltac:(lia)). assert ((zlen d + zlen x) mod 64 = 0) as ->; [|lia].
  replace (zlen d + zlen x) with ((zlen d / 64 + 1) * 64) by lia. by rewrite Z.mod_mul.
Qed.

Lemma process_loop_spec fuel md d data pos : sha256_holds md (d ++ take (Z.to_nat pos) data) -> bytes data -> 0 <= pos <= zlen data ->
  zlen data - pos < Z.of_nat fuel ->
  exists md', process_loop fuel md data pos (zlen data - pos) = Ok md' /\ sha256_holds md' (d ++ data).
Proof.
  intros H Hb. revert md pos H. induction fuel as [|fuel IH]; intros md pos Hmd Hp Hf; [lia|]. cbn [process_loop].
  destruct (Z.ltb_spec 0 (zlen data - pos)).
  2: { exists md. split; [done|]. by rewrite take_ge in Hmd by (unfold zlen in *; lia). }
  set (pre := d ++ take (Z.to_nat pos) data) in *. pose proof Hmd as [Es Ec El Hl Hby Hr].
  pose proof (Z.mod_pos_bound (zlen pre) 64 ltac:(lia)) as Hm. unfold SHA256_BLOCK_SIZE in *.
  assert (Z.to_nat (zlen pre mod 64) = (length pre mod 64)%nat) as En by (unfold zlen; rewrite <- mod64; lia).
  destruct (_ && _) eqn:Eb.
  - apply andb_true_iff in Eb as [E0%Z.eqb_eq E1%Z.leb_le]. rewrite Ec in E0.
    destruct (get_bytes data pos 64 Hb) as (x & -> & Hx & Hbx & Et); [lia..|]. rewrite bind_ok.
    assert (length pre mod 64 + length x = 64)%nat as Hw by (unfold zlen in Hx; lia).
    assert (left_over pre = []) as Elo by (apply nil_length_inv; rewrite length_left_over; lia).
    pose proof (sha256_block pre x) as Hblk. rewrite Elo in Hblk. cbn [app] in Hblk. destruct (whole_blocks pre x Hw) as [Hz Hlen].
    replace (zlen data - pos - 64) with (zlen data - (pos + 64)) by lia. apply IH; [|lia|lia].
    replace (d ++ take (Z.to_nat (pos + 64)) data) with (pre ++ x) by (unfold pre; by rewrite <- app_assoc, Et).
    split; cbn [sha_state curlen sha_length sha_buf]; [by rewrite Es, Hblk|by rewrite Ec, E0, Hz| |done|done|].
    + rewrite El, u64_add_l. f_equal. lia.
    + destruct (after_blocks_block fips_compress sha256_start pre x Hw) as [_ ->].
      assert (length (pre ++ x) mod 64 = 0)%nat as -> by (unfold zlen in Hz; apply Nat2Z.inj; rewrite mod64; exact Hz). done.
  - set (n := if _ <? _ then _ else _). assert (0 < n <= 64 - curlen md /\ n <= zlen data - pos /\ (n = 64 - curlen md \/ n = zlen data - pos)) as (Hn1 & Hn2 & Hn3)
      by (unfold n; rewrite Ec; destruct (Z.ltb_spec (zlen data - pos) (64 - zlen pre mod 64)); lia). clearbody n.
    destruct (get_bytes data pos n Hb) as (x & -> & Hx & Hbx & Et); [lia..|]. rewrite bind_ok.
    destruct (fill_buffer (sha_buf md) x (curlen md) Hl) as (buf & -> & Hbl & Hbt & Hbb); [lia..|]. rewrite bind_ok.
    rewrite Ec in *. rewrite En in Hbt. rewrite Hr in Hbt. rewrite (u32_small (zlen pre mod 64 + n)) by lia.
    replace (zlen data - pos - n) with (zlen data - (pos + n)) by lia. apply IH; [|lia|lia].
    replace (d ++ take (Z.to_nat (pos + n)) data) with (pre ++ x) by (unfold pre; by rewrite <- app_assoc, Et).
    destruct (Z.eqb_spec (zlen pre mod 64 + n) 64) as [E64|E64].
    + assert (length pre mod 64 + length x = 64)%nat as Hw by (unfold zlen in *; lia). destruct (whole_blocks pre x Hw) as [Hz Hlen].
      assert (buf = left_over pre ++ x) as Ebuf by (rewrite <- Hbt, take_ge; [done|lia]).
      split; cbn [sha_state curlen sha_length sha_buf]; [|by rewrite Hz| |done|by apply Hbb|].
      * rewrite Es, Ebuf. apply sha256_block; [|done]. rewrite <- Ebuf. by apply Hbb.
      * rewrite El, u64_add_l. f_equal. lia.
      * destruct (after_blocks_block fips_compress sha256_start pre x Hw) as [_ ->].
        assert (length (pre ++ x) mod 64 = 0)%nat as -> by (unfold zlen in Hz; apply Nat2Z.inj; rewrite mod64; exact Hz). done.
    + assert (length pre mod 64 + length x < 64)%nat as Hw by (unfold zlen in *; lia).
      destruct (after_blocks_short fips_compress sha256_start pre x Hw) as [Ea Eo].
      assert (zlen (pre ++ x) mod 64 = zlen pre mod 64 + n) as Hz.
      { rewrite zlen_app, Hx. rewrite <- Z.add_mod_idemp_l by lia. apply Z.mod_small. lia. }
      split; cbn [sha_state curlen sha_length sha_buf]; [by unfold sha256_after; rewrite Ea|by rewrite Hz| |done|by apply Hbb|].
      * rewrite El, Hz, zlen_app, Hx. f_equal. lia.
      * rewrite Eo, <- length_left_over, Eo, length_app, length_left_over. exact Hbt.
Qed.

Lemma sha256_process_correct md d data : sha256_holds md d -> bytes data ->
  exists md', sha256_process data md = Ok (Some md') /\ sha256_holds md' (d ++ data).
Proof.
  intros H Hb. pose proof H as [_ Ec _ _ _ _]. unfold sha256_process. pose proof (Z.mod_pos_bound (zlen d) 64 ltac:(lia)).
  destruct (Z.leb_spec 64 (curlen md)); [lia|]. rewrite <- (Z.sub_0_r (zlen data)).
  destruct (process_loop_spec (S (length data)) md d data 0) as (md' & -> & H'); [by rewrite app_nil_r|done|pose proof (zlen_nonneg data); lia|unfold zlen; lia|].
  rewrite bind_ok. by exists md'.
Qed.

(** ** The digest *)

Definition sha256_padded (d : list Z) : list Z := d ++ padding (to_be 8 (8 * zlen d)) (length d).
Definition sha256_digest (d : list Z) : list Z := concat (map (to_be 4) (sha256_after (sha256_padded d))).

Lemma zero_fill_spec fuel l1 x r : (length x < fuel)%nat ->
  zero_fill fuel (l1 ++ x ++ r) (zlen l1) (zlen l1 + zlen x) = Ok (l1 ++ replicate (length x) 0 ++ r, zlen l1 + zlen x).
Proof.
  revert l1 x. induction fuel as [|fuel IH]; intros l1 x Hf; [lia|]. cbn [zero_fill]. destruct x as [|y x].
  - rewrite zlen_nil, Z.add_0_r, Z.ltb_irrefl. done.
  - rewrite zlen_cons. pose proof (zlen_nonneg x). destruct (Z.ltb_spec (zlen l1) (zlen l1 + (1 + zlen x))); [|lia].
    rewrite (wr_at l1 y (x ++ r) _ 0), bind_ok by done. rewrite (app_assoc l1 [0]). cbn [length] in Hf.
    replace (zlen l1 + 1) with (zlen (l1 ++ [0])) by by rewrite zlen_app. replace (zlen l1 + (1 + zlen x)) with (zlen (l1 ++ [0]) + zlen x)
      by (rewrite zlen_app; change (zlen [0]) with 1; lia).
    rewrite IH by lia. cbn [length replicate]. by rewrite <- !app_assoc.
Qed.

Lemma left_over_bytes d : bytes d -> bytes (left_over d).
Proof. intros H. by apply bytes_drop. Qed.
Lemma to_be_u64 v : to_be 8 (u64 v) = to_be 8 v.
Proof. unfold to_be. f_equal. exact (to_le_mod 8 v). Qed.

(** the last block: fifty-six octets [x], and the length *)
Lemma sha256_last_block pre (x rest : list Z) state v : (length pre mod 64 = 0)%nat -> length x = 56%nat -> bytes x -> length rest = 8%nat ->
  state = sha256_after pre ->
  (buf ← blit (x ++ rest) 56 (to_be 8 v); Ok (Some (concat (map (to_be 4) (sha256_compress state buf))))) =
    Ok (Some (concat (map (to_be 4) (sha256_after (pre ++ x ++ to_be 8 v))))).
Proof.
  intros Hp Hx Hbx Hr ->. rewrite blit_last, bind_ok by (rewrite ?zlen_to_be; unfold zlen; lia).
  assert (left_over pre = []) as Elo by (apply nil_length_inv; rewrite length_left_over; lia).
  pose proof (sha256_block pre (x ++ to_be 8 v)) as E. rewrite Elo in E. cbn [app] in E. rewrite E; [done| |].
  - apply Forall_app; split; [done|apply to_be_bytes].
  - rewrite length_app, length_to_be. lia.
Qed.

Lemma sha256_done_correct md d : sha256_holds md d -> bytes d -> sha256_done md = Ok (Some (sha256_digest d)).
Proof.
  intros [Hs Hc0 Hlen Hm Hby Hr] Hbd. unfold sha256_done. rewrite Hs, Hc0, Hlen, u64_add_l. cbv zeta.
  set (c := (length d mod 64)%nat) in *. assert (zlen d mod 64 = Z.of_nat c) as Ec by (unfold c, zlen; by rewrite mod64).
  replace (8 * (zlen d - zlen d mod 64) + zlen d mod 64 * 8) with (8 * zlen d) by lia. rewrite !Ec.
  assert (c < 64)%nat as Hc by (apply Nat.mod_upper_bound; lia). destruct (Z.leb_spec 64 (Z.of_nat c)); [lia|].
  destruct (memory_split (sha_buf md) c Hm Hc) as (x & r & Emem & Hlr & Hzc). rewrite Emem, (wr_at _ _ _ _ _ (eq_sym Hzc)), bind_ok. clear Emem.
  rewrite Hr in *. set (lo := left_over d) in *. assert (length lo = c) as Hlo by apply length_left_over.
  assert (bytes lo) as Hblo by by apply left_over_bytes.
  unfold sha256_digest, sha256_padded, padding, pad_zeros. fold c. rewrite to_be_u64. unfold SHA256_BLOCK_SIZE.
  assert (zlen (lo ++ [128]) = Z.of_nat c + 1) as Hz1 by (rewrite zlen_app; change (zlen [128]) with 1; lia).
  destruct (Z.ltb_spec 56 (Z.of_nat c + 1)).
  - pose proof (zero_fill_spec 65 (lo ++ [128]) r []) as Ez. rewrite Hz1 in Ez. unfold zlen in Ez. rewrite Hlr, !app_nil_r in Ez.
    replace (Z.of_nat c + 1 + Z.of_nat (63 - c)) with 64 in Ez by lia. rewrite (app_assoc lo), Ez, bind_ok by lia. cbn [mbind M_bind].
    rewrite <- app_assoc. set (blk := lo ++ [128] ++ replicate (63 - c) 0). set (pre := d ++ [128] ++ replicate (63 - c) 0).
    assert (length blk = 64%nat) as Hblk by (unfold blk; rewrite !length_app, length_replicate; cbn [length]; lia).
    assert (bytes blk) as Hbb by (unfold blk; apply Forall_app; split; [done|]; apply Forall_app; split; [by repeat constructor|by apply Forall_replicate]).
    assert (sha256_compress (sha256_after d) blk = sha256_after pre) as ->.
    { apply sha256_block; [exact Hbb|]. rewrite length_app, length_replicate. cbn [length]. fold c. lia. }
    pose proof (zero_fill_spec 57 [] (take 56 blk) (drop 56 blk)) as E2. cbn [app] in E2. rewrite take_drop, zlen_nil in E2. unfold zlen in E2.
    rewrite length_take, Hblk in E2. change (Nat.min 56 64) with 56%nat in E2. change (0 + Z.of_nat 56) with 56 in E2. rewrite E2, bind_ok by lia.
    rewrite (sha256_last_block pre); [| |done|by apply Forall_replicate|rewrite length_drop; lia|done].
    + unfold pre. replace ((119 - c) mod 64)%nat with (63 - c + 56)%nat by (rewrite Nat.mod_small; lia). rewrite replicate_add, <- !app_assoc. done.
    + unfold pre. rewrite !length_app, length_replicate. cbn [length]. pose proof (Nat.div_mod_eq (length d) 64) as Hdm. fold c in Hdm.
      replace (length d + (1 + (63 - c)))%nat with ((length d / 64 + 1) * 64)%nat by lia. by rewrite Nat.Div0.mod_mul.
  - rewrite bind_ok. pose proof (zero_fill_spec 57 (lo ++ [128]) (take (55 - c) r) (drop (55 - c) r)) as Ez. rewrite Hz1, take_drop in Ez.
    unfold zlen in Ez. rewrite length_take, Hlr in Ez. rewrite Nat.min_l in Ez by lia.
    replace (Z.of_nat c + 1 + Z.of_nat (55 - c)) with 56 in Ez by lia. rewrite (app_assoc lo), Ez, bind_ok by lia.
    rewrite <- (take_drop (length d - c) d).
    assert (length d - c = 64 * (length d / 64))%nat as Hd by (pose proof (Nat.div_mod_eq (length d) 64) as Hdm; fold c in Hdm; lia).
    assert (drop (length d - c) d = lo) as Elo by (unfold lo, left_over; by rewrite Hd). rewrite Elo. set (pre := take (length d - c) d).
    assert (length pre mod 64 = 0)%nat as Hpre by (unfold pre; rewrite length_take, Nat.min_l, Hd, Nat.mul_comm by lia; by rewrite Nat.Div0.mod_mul).
    rewrite (app_assoc (lo ++ [128])), (sha256_last_block pre);
      [|done|rewrite !length_app, length_replicate; cbn [length]; lia| |rewrite length_drop; lia|].
    + replace ((119 - c) mod 64)%nat with (55 - c)%nat by (replace (119 - c)%nat with (55 - c + 1 * 64)%nat by lia; rewrite Nat.Div0.mod_add, Nat.mod_small; lia).
      by rewrite <- !app_assoc.
    + apply Forall_app; split; [apply Forall_app; split; [done|by repeat constructor]|by apply Forall_replicate].
    + destruct (after_blocks_short fips_compress sha256_start pre lo) as [Ea _]; [lia|]. unfold sha256_after. rewrite <- Ea. unfold pre. rewrite <- Elo. by rewrite take_drop.
Qed.

(** [sha256_vector] computes the SHA-256 of FIPS 180-2 of the concatenation of its buffers, however the message is divided, for every
    content of the context's memory. *)
Theorem sha256_vector_correct stack addr : length stack = 64%nat -> bytes stack -> Forall (fun d => bytes d) addr ->
  sha256_vector stack addr = Ok (Some (sha256_digest (concat addr))).
Proof.
  intros Hl Hs Hb. unfold sha256_vector.
  assert (forall md d, sha256_holds md d -> exists md', sha256_updates addr md = Ok (Some md') /\ sha256_holds md' (d ++ concat addr)) as G.
  { clear Hl Hs. induction Hb as [|e addr He _ IH]; intros md d Hd; [exists md; by rewrite app_nil_r|].
    cbn [sha256_updates concat]. destruct (sha256_process_correct md d e Hd He) as (m1 & -> & H1).
    rewrite bind_ok. destruct (IH m1 _ H1) as (m2 & -> & H2). exists m2. split; [done|]. by rewrite <- app_assoc in H2. }
  destruct (G (sha256_init stack) []) as (md & -> & H); [by split|]. rewrite bind_ok. apply sha256_done_correct; [done|].
  clear G H. induction Hb as [|e addr He _ IH]; [constructor|]. by apply Forall_app.
Qed.

Lemma sha256_vector_correct_witness : sha256_vector (replicate 64 7) [[97]; [98; 99]] =
  Ok (Some (to_be 32 0xba7816bf8f01cfea414140de5dae2223b00361a396177a9cb410ff61f20015ad)).
Proof.
  rewrite (sha256_vector_correct (replicate 64 7) [[97]; [98; 99]]).
  - vm_compute. reflexivity.
  - reflexivity.
  - by apply Forall_replicate.
  - by repeat constructor.
Defined.

Lemma zlen_sha256 d : zlen (sha256_digest d) = 32 /\ bytes (sha256_digest d).
Proof.
  unfold sha256_digest. destruct (sha256_after_ok (sha256_padded d)) as [_ Hl]. set (h := sha256_after _) in *. clearbody h. split.
  - rewrite (zlen_concat _ 4); [unfold zlen; by rewrite length_map, Hl|]. apply Forall_map, Forall_true. intros w. by rewrite zlen_to_be.
  - clear Hl. induction h as [|w h IH]; [constructor|]. cbn [map concat]. apply Forall_app; split; [apply to_be_bytes|exact IH].
Qed.
