(* ===== verification/Hmac.v ===== *)
(** * HMAC and what is built on it (src/hostapd-2.5/src/crypto)

    hmac_md5_vector, hmac_sha1_vector and hmac_sha256_vector (md5.c, sha1.c,
    sha256.c) over the digests of the internal backend, against RFC 2104; PBKDF2
    (sha1-pbkdf2.c), the PRFs of TLS (sha1-tlsprf.c, sha256-tlsprf.c) and the
    T-PRF of EAP-FAST (sha1-tprf.c), each against its RFC.  The digests
    instantiate the interfaces [Digests] and [Md5]. *)

From S2P Require Import Prelude HexText AesCtr EapCommon EapolKey Prf WpaSafe Merkle Sha1Internal Md5Internal Sha256Internal.
Open Scope Z_scope.

(** a backend's digest over a vector; [None] is -1 *)
Definition vector : Type := list (list Z) -> M (option (list Z)).

Section Internal.
(** what the contexts of the digests hold before they are initialised *)
Context (stack : list Z).
Definition md5_vec : vector := fun addr => h ← md5_vector_internal stack addr; Ok (Some h).
Definition sha1_vec : vector := fun addr => h ← sha1_vector stack addr; Ok (Some h).
Definition sha256_vec : vector := sha256_vector stack.
End Internal.

(** ** HMAC *)

Definition xor_pad (x : Z) (k_pad : list Z) : list Z := map (fun b => Z.lxor b x) k_pad.

(** the three functions differ in the digest only *)
Definition hmac_vector (digest : vector) (key : list Z) (addr : list (list Z)) : M (option (list Z)) :=
  if 5 <? zlen addr then Ok None
  else
    key ← (if 64 <? zlen key then digest [key] else Ok (Some key));
    match key with
    | None => Ok None
    | Some key =>
        k_pad ← blit (replicate 64 0) 0 key;
        mac ← digest (xor_pad 0x36 k_pad :: addr);
        match mac with
        | None => Ok None
        | Some mac =>
            k_pad ← blit (replicate 64 0) 0 key;
            digest [xor_pad 0x5c k_pad; mac]
        end
    end.

Section Internal.
Context (stack : list Z).
Definition hmac_md5_vector : list Z -> list (list Z) -> M (option (list Z)) := hmac_vector (md5_vec stack).
Definition hmac_sha1_vector : list Z -> list (list Z) -> M (option (list Z)) := hmac_vector (sha1_vec stack).
Definition hmac_sha256_vector : list Z -> list (list Z) -> M (option (list Z)) := hmac_vector (sha256_vec stack).
Definition hmac_md5_internal (key data : list Z) : M (option (list Z)) := hmac_md5_vector key [data].
Definition hmac_sha1_internal (key data : list Z) : M (option (list Z)) := hmac_sha1_vector key [data].
Definition hmac_sha256_internal (key data : list Z) : M (option (list Z)) := hmac_sha256_vector key [data].

(** ** PBKDF2 *)

(** the rounds after the first: [tmp], and the digest *)
Fixpoint pbkdf2_rounds (n : nat) (passphrase tmp digest : list Z) : M (option (list Z)) :=
  match n with
  | O => Ok (Some digest)
  | S n =>
      tmp2 ← hmac_sha1_internal passphrase tmp;
      match tmp2 with
      | None => Ok None
      | Some tmp2 => pbkdf2_rounds n passphrase tmp2 (zip_with Z.lxor digest tmp2)
      end
  end.
(** the octets of a counter, most significant first *)
Definition count_buf (count : Z) : list Z :=
  [Z.land (Z.shiftr count 24) 0xff; Z.land (Z.shiftr count 16) 0xff; Z.land (Z.shiftr count 8) 0xff; Z.land count 0xff].
(** [passphrase]: the characters before its 0 *)
Definition pbkdf2_sha1_f (passphrase ssid : list Z) (iterations count : Z) : M (option (list Z)) :=
  tmp ← hmac_sha1_vector passphrase [ssid; count_buf count];
  match tmp with
  | None => Ok None
  | Some tmp => pbkdf2_rounds (Z.to_nat (iterations - 1)) passphrase tmp tmp
  end.
Fixpoint pbkdf2_loop (fuel : nat) (passphrase ssid : list Z) (iterations count left_ : Z) : M (option (list Z)) :=
  match fuel with
  | O => Err OutOfFuel
  | S fuel =>
      if 0 <? left_ then
        let count := u32 (count + 1) in
        digest ← pbkdf2_sha1_f passphrase ssid iterations count;
        match digest with
        | None => Ok None
        | Some digest =>
            let plen := (if SHA1_MAC_LEN <? left_ then SHA1_MAC_LEN else left_) in
            d ← get digest 0 plen;
            rest ← pbkdf2_loop fuel passphrase ssid iterations count (left_ - plen);
            Ok (match rest with None => None | Some rest => Some (d ++ rest) end)
        end
      else Ok (Some [])
  end.
(** what the buffer of [buflen] octets holds, or [None] for -1 *)
Definition pbkdf2_sha1 (passphrase ssid : list Z) (iterations buflen : Z) : M (option (list Z)) :=
  pbkdf2_loop (S (Z.to_nat buflen)) passphrase ssid iterations 0 buflen.
End Internal.

(** ** RFC 2104 and RFC 2898 *)

Definition key_block (H : list Z -> list Z) (key : list Z) : list Z :=
  let k := (if 64 <? zlen key then H key else key) in k ++ replicate (64 - length k) 0.
Definition rfc2104 (H : list Z -> list Z) (key text : list Z) : list Z :=
  H (xor_pad 0x5c (key_block H key) ++ H (xor_pad 0x36 (key_block H key) ++ text)).

(** U(1 + n), and the exclusive or of U(1) ... U(1 + n) *)
Fixpoint rfc2898_u (n : nat) (p s : list Z) : list Z :=
  match n with O => rfc2104 sha1_digest p s | S n => rfc2104 sha1_digest p (rfc2898_u n p s) end.
Fixpoint rfc2898_f (n : nat) (p s : list Z) : list Z :=
  match n with O => rfc2898_u 0 p s | S k => zip_with Z.lxor (rfc2898_f k p s) (rfc2898_u n p s) end.
(** T(1) ... T(n) *)
Definition rfc2898 (p s : list Z) (c : Z) (n : nat) : list Z :=
  concat (map (fun i => rfc2898_f (Z.to_nat (c - 1)) p (s ++ to_be 4 (Z.of_nat i + 1))) (seq 0 n)).

(** ** HMAC is RFC 2104 *)

(** a vector function that computes [H] of the concatenation *)
Definition computes (digest : vector) (H : list Z -> list Z) : Prop :=
  forall addr, Forall (fun d => bytes d) addr -> Forall fits_u32 addr -> digest addr = Ok (Some (H (concat addr))).
Definition digest_size (H : list Z -> list Z) (n : Z) : Prop := forall d, zlen (H d) = n /\ bytes (H d).

Lemma xor_pad_ok x k : is_byte x -> bytes k -> bytes (xor_pad x k) /\ zlen (xor_pad x k) = zlen k.
Proof.
  intros Hx Hk. unfold xor_pad. split; [|unfold zlen; by rewrite length_map]. apply Forall_map. eapply Forall_impl; [|exact Hk].
  intros b Hb. cbn. split; [apply Z.lxor_nonneg; unfold is_byte in *; lia|].
  destruct (Z.eq_dec (Z.lxor b x) 0) as [->|Hne]; [lia|]. apply (Z.log2_lt_pow2 _ 8); [pose proof (proj2 (Z.lxor_nonneg b x)); unfold is_byte in *; lia|].
  pose proof (Z.log2_lxor b x ltac:(unfold is_byte in *; lia) ltac:(unfold is_byte in *; lia)).
  assert (forall y, is_byte y -> Z.log2 y < 8) as G.
  { intros y Hy. destruct (Z.eq_dec y 0) as [->|]; [done|]. apply Z.log2_lt_pow2; unfold is_byte in *; lia. }
  pose proof (G b Hb). pose proof (G x Hx). lia.
Qed.

Lemma key_block_ok H n key : digest_size H n -> n <= 64 -> bytes key -> bytes (key_block H key) /\ zlen (key_block H key) = 64.
Proof.
  intros HH Hn Hk. unfold key_block. destruct (HH key) as [Hz Hb].
  assert (forall k, bytes k -> zlen k <= 64 -> bytes (k ++ replicate (64 - length k) 0) /\ zlen (k ++ replicate (64 - length k) 0) = 64) as G.
  { intros k H1 H2. split; [apply Forall_app; split; [done|by apply Forall_replicate]|]. unfold zlen in *. rewrite length_app, length_replicate. lia. }
  cbv zeta. destruct (Z.ltb_spec 64 (zlen key)); apply G; auto; lia.
Qed.
Lemma pad_key k : zlen k <= 64 -> blit (replicate 64 0) 0 k = Ok (k ++ replicate (64 - length k) 0).
Proof.
  intros Hk. replace (replicate 64 0) with (replicate (length k) 0 ++ replicate (64 - length k) 0)
    by (rewrite <- replicate_add; f_equal; unfold zlen in Hk; lia).
  apply blit_head. unfold zlen. by rewrite length_replicate.
Qed.

Lemma hmac_vector_correct digest H n key addr : computes digest H -> digest_size H n -> n <= 64 -> bytes key -> fits_u32 key ->
  Forall (fun d => bytes d) addr -> Forall fits_u32 addr -> zlen addr <= 5 ->
  hmac_vector digest key addr = Ok (Some (rfc2104 H key (concat addr))).
Proof.
  intros Hd HH Hn Hk Hkf Hb Hf Ha. unfold hmac_vector. replace (5 <? zlen addr) with false by lia.
  set (k := if 64 <? zlen key then H key else key).
  assert ((if 64 <? zlen key then digest [key] else Ok (Some key)) = Ok (Some k)) as ->.
  { unfold k. destruct (64 <? zlen key); [|done]. rewrite Hd; [by cbn [concat]; rewrite app_nil_r|by repeat constructor..]. }
  assert (zlen k <= 64) as Hk64 by (unfold k; destruct (HH key); destruct (Z.ltb_spec 64 (zlen key)); lia).
  rewrite bind_ok, pad_key, bind_ok by done. destruct (key_block_ok H n key HH Hn Hk) as [Kb Kz].
  change (k ++ replicate (64 - length k) 0) with (key_block H key).
  destruct (xor_pad_ok 0x36 (key_block H key)) as [Ib Iz]; [done|done|]. destruct (xor_pad_ok 0x5c (key_block H key)) as [Ob Oz]; [done|done|].
  rewrite Hd, bind_ok; [|by constructor|constructor; [unfold fits_u32; lia|done]]. cbn [concat]. rewrite bind_ok.
  destruct (HH (xor_pad 0x36 (key_block H key) ++ concat addr)) as [Mz Mb].
  rewrite Hd; [by cbn [concat]; rewrite app_nil_r|by repeat constructor|repeat constructor; unfold fits_u32; lia].
Qed.

Section Correct.
Context (stack : list Z).
Hypothesis Hstack : length stack = 64%nat.
Hypothesis Hbytes : bytes stack.

Lemma md5_computes : computes (md5_vec stack) md5_digest.
Proof. intros addr Hb Hf. unfold md5_vec. by rewrite (md5_vector_correct stack addr Hstack Hb Hf), bind_ok. Qed.
Lemma sha1_computes : computes (sha1_vec stack) sha1_digest.
Proof. intros addr Hb Hf. unfold sha1_vec. by rewrite (sha1_vector_correct stack addr Hstack Hbytes Hb Hf), bind_ok. Qed.
Lemma sha256_computes : computes (sha256_vec stack) sha256_digest.
Proof. intros addr Hb _. exact (sha256_vector_correct stack addr Hstack Hbytes Hb). Qed.

(** C37: the three digests of the internal backend compute the MD5 of RFC 1321 and the SHA-1 and SHA-256 of FIPS 180 of the concatenation of
    their buffers, however the message is divided into buffers whose lengths the 32-bit length parameters can hold, for every content of the
    contexts' memory. *)
Theorem digests_correct addr : Forall (fun d => bytes d) addr -> Forall fits_u32 addr ->
  md5_vec stack addr = Ok (Some (md5_digest (concat addr))) /\
  sha1_vec stack addr = Ok (Some (sha1_digest (concat addr))) /\
  sha256_vec stack addr = Ok (Some (sha256_digest (concat addr))).
Proof. intros Hb Hf. split; [|split]; [by apply md5_computes|by apply sha1_computes|by apply sha256_computes]. Qed.

(** the buffers of one call *)
Definition buffers (addr : list (list Z)) : Prop := Forall (fun d => bytes d) addr /\ Forall fits_u32 addr /\ zlen addr <= 5.

Lemma hmac_md5_ok key addr : bytes key -> fits_u32 key -> buffers addr ->
  hmac_md5_vector stack key addr = Ok (Some (rfc2104 md5_digest key (concat addr))).
Proof. intros Hk Hf (Hb & Hfa & Ha). by apply (hmac_vector_correct _ _ 16 _ _ md5_computes zlen_md5). Qed.
Lemma hmac_sha1_ok key addr : bytes key -> fits_u32 key -> buffers addr ->
  hmac_sha1_vector stack key addr = Ok (Some (rfc2104 sha1_digest key (concat addr))).
Proof. intros Hk Hf (Hb & Hfa & Ha). by apply (hmac_vector_correct _ _ 20 _ _ sha1_computes zlen_sha1). Qed.
Lemma hmac_sha256_ok key addr : bytes key -> fits_u32 key -> buffers addr ->
  hmac_sha256_vector stack key addr = Ok (Some (rfc2104 sha256_digest key (concat addr))).
Proof. intros Hk Hf (Hb & Hfa & Ha). by apply (hmac_vector_correct _ _ 32 _ _ sha256_computes zlen_sha256). Qed.

(** C38: the three HMAC functions compute RFC 2104 over the digests of RFC 1321 and FIPS 180 of the concatenation of at most five buffers,
    for keys and buffers of every length that the 32-bit parameters of the digests can hold. *)
Theorem hmac_vectors_correct key addr : bytes key -> fits_u32 key -> buffers addr ->
  hmac_md5_vector stack key addr = Ok (Some (rfc2104 md5_digest key (concat addr))) /\
  hmac_sha1_vector stack key addr = Ok (Some (rfc2104 sha1_digest key (concat addr))) /\
  hmac_sha256_vector stack key addr = Ok (Some (rfc2104 sha256_digest key (concat addr))).
Proof. intros Hk Hf Hb. split; [|split]; [by apply hmac_md5_ok|by apply hmac_sha1_ok|by apply hmac_sha256_ok]. Qed.

Lemma zlen_rfc2104_sha1 k d : zlen (rfc2104 sha1_digest k d) = 20 /\ bytes (rfc2104 sha1_digest k d).
Proof. apply zlen_sha1. Qed.
Lemma hmac_sha1_one p d : bytes p -> fits_u32 p -> bytes d -> zlen d = 20 -> hmac_sha1_internal stack p d = Ok (Some (rfc2104 sha1_digest p d)).
Proof.
  intros Hp Hf Hd Hz. unfold hmac_sha1_internal. rewrite hmac_sha1_ok; [by cbn [concat]; rewrite app_nil_r|done|done|].
  split; [by repeat constructor|]. split; [|done]. repeat constructor. unfold fits_u32. lia.
Qed.

Lemma u_ok n p s : zlen (rfc2898_u n p s) = 20 /\ bytes (rfc2898_u n p s).
Proof. destruct n; apply zlen_rfc2104_sha1. Qed.
Lemma f_size n p s : zlen (rfc2898_f n p s) = 20.
Proof.
  induction n as [|n IH]; [apply u_ok|]. cbn [rfc2898_f]. destruct (u_ok (S n) p s) as [Hz _].
  unfold zlen in *. rewrite length_zip_with. cbn [rfc2898_u] in Hz. cbn [rfc2898_u]. lia.
Qed.

Lemma pbkdf2_rounds_ok n k p s : bytes p -> fits_u32 p ->
  pbkdf2_rounds stack n p (rfc2898_u k p s) (rfc2898_f k p s) = Ok (Some (rfc2898_f (k + n) p s)).
Proof.
  intros Hp Hf. revert k. induction n as [|n IH]; intros k; [by rewrite Nat.add_0_r|]. cbn [pbkdf2_rounds].
  destruct (u_ok k p s) as [Hz Hb]. rewrite hmac_sha1_one, bind_ok by done.
  change (rfc2104 sha1_digest p (rfc2898_u k p s)) with (rfc2898_u (S k) p s).
  change (zip_with Z.lxor (rfc2898_f k p s) (rfc2898_u (S k) p s)) with (rfc2898_f (S k) p s). rewrite IH.
  by replace (S k + n)%nat with (k + S n)%nat by lia.
Qed.

Lemma count_buf_ok v : count_buf v = to_be 4 v.
Proof.
  unfold count_buf, to_be. cbn [to_le rev app]. rewrite !Z.shiftr_div_pow2 by lia. change 0xff with (Z.ones 8). rewrite !Z.land_ones by lia.
  rewrite !Z.div_div by lia. done.
Qed.

Lemma pbkdf2_sha1_f_ok p ssid iterations count : bytes p -> fits_u32 p -> bytes ssid -> fits_u32 ssid ->
  pbkdf2_sha1_f stack p ssid iterations count = Ok (Some (rfc2898_f (Z.to_nat (iterations - 1)) p (ssid ++ to_be 4 count))).
Proof.
  intros Hp Hf Hs Hsf. unfold pbkdf2_sha1_f. rewrite count_buf_ok, hmac_sha1_ok, bind_ok; [|done|done|].
  - cbn [concat]. rewrite app_nil_r. apply (pbkdf2_rounds_ok (Z.to_nat (iterations - 1)) 0 p (ssid ++ to_be 4 count)); done.
  - split; [apply Forall_cons; [done|apply Forall_cons; [apply to_be_bytes|constructor]]|]. split; [|done].
    apply Forall_cons; [done|apply Forall_cons; [|constructor]]. unfold fits_u32. by rewrite zlen_to_be.
Qed.

Lemma pbkdf2_loop_ok fuel p ssid iterations n left_ : bytes p -> fits_u32 p -> bytes ssid -> fits_u32 ssid ->
  0 <= left_ -> Z.of_nat n + left_ < 2 ^ 32 -> left_ < Z.of_nat fuel ->
  exists k, (left_ <= 20 * Z.of_nat k) /\ pbkdf2_loop stack fuel p ssid iterations (Z.of_nat n) left_ =
    Ok (Some (take (Z.to_nat left_) (concat (map (fun i => rfc2898_f (Z.to_nat (iterations - 1)) p (ssid ++ to_be 4 (Z.of_nat i + 1))) (seq n k))))).
Proof.
  intros Hp Hf Hs Hsf. revert n left_. induction fuel as [|fuel IH]; intros n left_ Hl Hn Hfu; [lia|]. cbn [pbkdf2_loop].
  destruct (Z.ltb_spec 0 left_); [|exists 0%nat; split; [lia|]; by replace left_ with 0 by lia].
  rewrite (u32_small (Z.of_nat n + 1)) by lia. rewrite pbkdf2_sha1_f_ok, bind_ok by done.
  set (t := rfc2898_f _ _ _). assert (zlen t = 20) as Ht by apply f_size. unfold SHA1_MAC_LEN.
  set (plen := if 20 <? left_ then 20 else left_). assert (plen = Z.min 20 left_) as Ep by (unfold plen; destruct (Z.ltb_spec 20 left_); lia). clearbody plen.
  rewrite <- (take_drop (Z.to_nat plen) t). rewrite get_head, bind_ok by (unfold zlen in *; rewrite length_take; lia).
  replace (Z.of_nat n + 1) with (Z.of_nat (S n)) by lia. destruct (IH (S n) (left_ - plen)) as (k & Hk & ->); [lia..|]. rewrite bind_ok.
  exists (S k). split; [lia|]. cbn [seq map concat]. fold t. do 2 f_equal. rewrite take_app.
  assert (length t = 20%nat) as Hlt by (unfold zlen in Ht; lia). f_equal.
  - destruct (Z.le_gt_cases left_ 20); [f_equal; lia|]. rewrite !take_ge by lia. done.
  - f_equal. lia.
Qed.

(** C39: [pbkdf2_sha1] fills its buffer with the beginning of PBKDF2 of RFC 2898 over HMAC-SHA-1: the WPA passphrase becomes the PSK of
    IEEE 802.11 with 4096 iterations and 32 octets. *)
Theorem pbkdf2_sha1_correct p ssid iterations buflen : bytes p -> fits_u32 p -> bytes ssid -> fits_u32 ssid -> 0 <= buflen < 2 ^ 32 ->
  exists k, buflen <= 20 * Z.of_nat k /\
    pbkdf2_sha1 stack p ssid iterations buflen = Ok (Some (take (Z.to_nat buflen) (rfc2898 p ssid iterations k))).
Proof.
  intros Hp Hf Hs Hsf Hl. unfold pbkdf2_sha1.
  destruct (pbkdf2_loop_ok (S (Z.to_nat buflen)) p ssid iterations 0 buflen Hp Hf Hs Hsf) as (k & Hk & E); [lia..|]. exists k. split; [done|exact E].
Qed.
End Correct.

(** ** The PRFs of TLS and of EAP-FAST *)

Section Prfs.
Context (stack : list Z).

(** a result that is used without looking at the return value *)
Definition used (r : M (option (list Z))) : M (list Z) := h ← r; match h with Some h => Ok h | None => Err Uninitialised end.

Record prf_state := mkPrf { A_MD5 : list Z; A_SHA1 : list Z; P_MD5 : list Z; P_SHA1 : list Z; MD5_pos : Z; SHA1_pos : Z }.
Definition prf_md5 (S1 label seed : list Z) (s : prf_state) : M prf_state :=
  if MD5_pos s =? MD5_MAC_LEN then
    p ← used (hmac_md5_vector stack S1 [A_MD5 s; label; seed]);
    a ← used (hmac_md5_internal stack S1 (A_MD5 s));
    Ok (mkPrf a (A_SHA1 s) p (P_SHA1 s) 0 (SHA1_pos s))
  else Ok s.
Definition prf_sha1 (S2 label seed : list Z) (s : prf_state) : M prf_state :=
  if SHA1_pos s =? SHA1_MAC_LEN then
    p ← used (hmac_sha1_vector stack S2 [A_SHA1 s; label; seed]);
    a ← used (hmac_sha1_internal stack S2 (A_SHA1 s));
    Ok (mkPrf (A_MD5 s) a (P_MD5 s) p (MD5_pos s) 0)
  else Ok s.
Fixpoint tls_prf_loop (n : nat) (S1 S2 label seed : list Z) (s : prf_state) : M (list Z) :=
  match n with
  | O => Ok []
  | S n =>
      s ← prf_md5 S1 label seed s;
      s ← prf_sha1 S2 label seed s;
      x ← rd (P_MD5 s) (MD5_pos s);
      y ← rd (P_SHA1 s) (SHA1_pos s);
      rest ← tls_prf_loop n S1 S2 label seed (mkPrf (A_MD5 s) (A_SHA1 s) (P_MD5 s) (P_SHA1 s) (MD5_pos s + 1) (SHA1_pos s + 1));
      Ok (Z.lxor x y :: rest)
  end.
(** [label]: the characters before its 0 *)
Definition tls_prf_sha1_md5 (secret label seed : list Z) (outlen : nat) : M (option (list Z)) :=
  if negb (Z.land (zlen secret) 1 =? 0) then Ok None
  else
    let L := (zlen secret + 1) / 2 in
    S1 ← get secret 0 L;
    S2 ← get secret L L;
    am ← used (hmac_md5_vector stack S1 [label; seed]);
    ash ← used (hmac_sha1_vector stack S2 [label; seed]);
    out ← tls_prf_loop outlen S1 S2 label seed (mkPrf am ash [] [] MD5_MAC_LEN SHA1_MAC_LEN);
    Ok (Some out).

Fixpoint tls_prf_sha256_loop (fuel : nat) (secret label seed A : list Z) (left_ : Z) : M (list Z) :=
  match fuel with
  | O => Err OutOfFuel
  | S fuel =>
      if 0 <? left_ then
        P ← used (hmac_sha256_vector stack secret [A; label; seed]);
        A ← used (hmac_sha256_internal stack secret A);
        let clen := (if SHA256_MAC_LEN <? left_ then SHA256_MAC_LEN else left_) in
        d ← get P 0 clen;
        rest ← tls_prf_sha256_loop fuel secret label seed A (left_ - clen);
        Ok (d ++ rest)
      else Ok []
  end.
Definition tls_prf_sha256 (secret label seed : list Z) (outlen : Z) : M (list Z) :=
  A ← used (hmac_sha256_vector stack secret [label; seed]);
  tls_prf_sha256_loop (S (Z.to_nat outlen)) secret label seed A outlen.

(** [hash]: what [addr[0]] covers *)
Fixpoint sha1_t_prf_loop (fuel : nat) (key label seed output_len hash : list Z) (counter left_ : Z) : M (option (list Z)) :=
  match fuel with
  | O => Err OutOfFuel
  | S fuel =>
      if 0 <? left_ then
        let counter := u8 (counter + 1) in
        hash ← hmac_sha1_vector stack key [hash; label ++ [0]; seed; output_len; [counter]];
        match hash with
        | None => Ok None
        | Some hash =>
            if SHA1_MAC_LEN <=? left_ then
              rest ← sha1_t_prf_loop fuel key label seed output_len hash counter (left_ - SHA1_MAC_LEN);
              Ok (match rest with None => None | Some rest => Some (hash ++ rest) end)
            else d ← get hash 0 left_; Ok (Some d)
        end
      else Ok (Some [])
  end.
Definition sha1_t_prf (key label seed : list Z) (buf_len : Z) : M (option (list Z)) :=
  sha1_t_prf_loop (S (Z.to_nat buf_len)) key label seed [Z.land (Z.shiftr buf_len 8) 0xff; Z.land buf_len 0xff] [] 0 buf_len.
End Prfs.

(** ** RFC 2246, RFC 5246 and RFC 4851 *)

(** A(1 + n) of the seed, the blocks of P_hash and its octets *)
Fixpoint tls_a (H : list Z -> list Z) (n : nat) (secret seed : list Z) : list Z :=
  match n with O => rfc2104 H secret seed | S n => rfc2104 H secret (tls_a H n secret seed) end.
Definition p_block (H : list Z -> list Z) (secret seed : list Z) (n : nat) : list Z := rfc2104 H secret (tls_a H n secret seed ++ seed).
Definition p_octet (H : list Z -> list Z) (size : nat) (secret seed : list Z) (i : nat) : Z := nth (i mod size) (p_block H secret seed (i / size)) 0.
Definition rfc2246_prf (secret label seed : list Z) (outlen : nat) : list Z :=
  let half := (length secret / 2)%nat in
  map (fun i => Z.lxor (p_octet md5_digest 16 (take half secret) (label ++ seed) i) (p_octet sha1_digest 20 (drop half secret) (label ++ seed) i))
    (seq 0 outlen).
Definition rfc5246_prf (secret label seed : list Z) (n : nat) : list Z :=
  concat (map (p_block sha256_digest secret (label ++ seed)) (seq 0 n)).
(** T(1 + n) of T-PRF *)
Fixpoint t_prf_block (n : nat) (key s : list Z) : list Z :=
  match n with
  | O => rfc2104 sha1_digest key (s ++ [1])
  | S m => rfc2104 sha1_digest key (t_prf_block m key s ++ s ++ [Z.of_nat (S n)])
  end.
Definition rfc4851_t_prf (key label seed : list Z) (buf_len : Z) (n : nat) : list Z :=
  concat (map (fun i => t_prf_block i key (label ++ [0] ++ seed ++ to_be 2 buf_len)) (seq 0 n)).

Section PrfsCorrect.
Context (stack : list Z).
Hypothesis Hstack : length stack = 64%nat.
Hypothesis Hbytes : bytes stack.

(** at most three buffers, all short enough *)
Lemma buffers_3 (l : list (list Z)) : Forall (fun d => bytes d) l -> Forall fits_u32 l -> (length l <= 5)%nat -> buffers l.
Proof. intros H1 H2 H3. split; [done|]. split; [done|]. unfold zlen. lia. Qed.
Lemma short_fits (d : list Z) n : zlen d = n -> n <= 64 -> fits_u32 d.
Proof. unfold fits_u32. lia. Qed.

Lemma used_md5 key addr : bytes key -> fits_u32 key -> buffers addr ->
  used (hmac_md5_vector stack key addr) = Ok (rfc2104 md5_digest key (concat addr)).
Proof. intros Hk Hf Hb. unfold used. by rewrite hmac_md5_ok. Qed.
Lemma used_sha1 key addr : bytes key -> fits_u32 key -> buffers addr ->
  used (hmac_sha1_vector stack key addr) = Ok (rfc2104 sha1_digest key (concat addr)).
Proof. intros Hk Hf Hb. unfold used. by rewrite hmac_sha1_ok. Qed.
Lemma used_sha256 key addr : bytes key -> fits_u32 key -> buffers addr ->
  used (hmac_sha256_vector stack key addr) = Ok (rfc2104 sha256_digest key (concat addr)).
Proof. intros Hk Hf Hb. unfold used. by rewrite hmac_sha256_ok. Qed.

Lemma tls_a_ok H size n secret seed : digest_size H size -> zlen (tls_a H n secret seed) = size /\ bytes (tls_a H n secret seed).
Proof. intros HH. destruct n; apply HH. Qed.

Definition fine (d : list Z) : Prop := bytes d /\ fits_u32 d.
Lemma buffers_1 a : fine a -> buffers [a].
Proof. intros [Ha Ha']. apply buffers_3; [by repeat apply Forall_cons|by repeat apply Forall_cons|cbn; lia]. Qed.
Lemma buffers_2 a b : fine a -> fine b -> buffers [a; b].
Proof.
  intros [Ha Ha'] [Hb Hb']. apply buffers_3; [| |cbn; lia]; (apply Forall_cons; [done|]; apply Forall_cons; [done|constructor]).
Qed.
Lemma buffers_of_3 a b c : fine a -> fine b -> fine c -> buffers [a; b; c].
Proof.
  intros [Ha Ha'] [Hb Hb'] [Hc Hc']. apply buffers_3; [| |cbn; lia];
    (apply Forall_cons; [done|]; apply Forall_cons; [done|]; apply Forall_cons; [done|constructor]).
Qed.
Lemma fine_size H size d : digest_size H size -> size <= 64 -> fine (H d).
Proof. intros HH Hs. destruct (HH d) as [Hz Hb]. split; [done|]. unfold fits_u32. lia. Qed.
Lemma fine_a H size n secret seed : digest_size H size -> size <= 64 -> fine (tls_a H n secret seed).
Proof. intros HH Hs. destruct (tls_a_ok H size n secret seed HH) as [Hz Hb]. split; [done|]. unfold fits_u32. lia. Qed.

(** the state before octet [i]: A of the next block, the current block, and the position in it *)
Definition md5_at (S1 s : list Z) (i : nat) (st : prf_state) : Prop :=
  (i = 0%nat /\ MD5_pos st = 16 /\ A_MD5 st = tls_a md5_digest 0 S1 s) \/
  exists b k, (i = 16 * b + k /\ 0 < k <= 16)%nat /\ MD5_pos st = Z.of_nat k /\ A_MD5 st = tls_a md5_digest (S b) S1 s /\ P_MD5 st = p_block md5_digest S1 s b.
Definition sha1_at (S2 s : list Z) (i : nat) (st : prf_state) : Prop :=
  (i = 0%nat /\ SHA1_pos st = 20 /\ A_SHA1 st = tls_a sha1_digest 0 S2 s) \/
  exists b k, (i = 20 * b + k /\ 0 < k <= 20)%nat /\ SHA1_pos st = Z.of_nat k /\ A_SHA1 st = tls_a sha1_digest (S b) S2 s /\ P_SHA1 st = p_block sha1_digest S2 s b.

Lemma prf_md5_ok S1 label seed i st : fine S1 -> fine label -> fine seed -> md5_at S1 (label ++ seed) i st ->
  exists b k st', prf_md5 stack S1 label seed st = Ok st' /\ (i = 16 * b + k /\ k < 16)%nat /\ MD5_pos st' = Z.of_nat k /\
    A_MD5 st' = tls_a md5_digest (S b) S1 (label ++ seed) /\ P_MD5 st' = p_block md5_digest S1 (label ++ seed) b /\
    A_SHA1 st' = A_SHA1 st /\ P_SHA1 st' = P_SHA1 st /\ SHA1_pos st' = SHA1_pos st.
Proof.
  intros [HS HSf] Hl Hs Hat. unfold prf_md5, MD5_MAC_LEN.
  assert (forall n, A_MD5 st = tls_a md5_digest n S1 (label ++ seed) ->
    (p ← used (hmac_md5_vector stack S1 [A_MD5 st; label; seed]); a ← used (hmac_md5_internal stack S1 (A_MD5 st));
     Ok (mkPrf a (A_SHA1 st) p (P_SHA1 st) 0 (SHA1_pos st))) =
    Ok (mkPrf (tls_a md5_digest (S n) S1 (label ++ seed)) (A_SHA1 st) (p_block md5_digest S1 (label ++ seed) n) (P_SHA1 st) 0 (SHA1_pos st))) as G.
  { intros n ->. pose proof (fine_a md5_digest 16 n S1 (label ++ seed) zlen_md5 ltac:(lia)) as Hfa.
    rewrite used_md5, bind_ok by (done || by apply buffers_of_3). unfold hmac_md5_internal. rewrite used_md5, bind_ok by (done || by apply buffers_1).
    unfold p_block. cbn [concat tls_a]. by rewrite !app_nil_r. }
  destruct Hat as [(-> & -> & Ha)|(b & k & [-> Hk] & Hq & Ha & Hp)]; [|rewrite Hq].
  - change (16 =? 16) with true. cbv iota. rewrite (G 0%nat Ha). exists 0%nat, 0%nat. eexists. split; [reflexivity|]. split; [lia|done].
  - destruct (Z.eqb_spec (Z.of_nat k) 16).
    + rewrite (G (S b) Ha). exists (S b), 0%nat. eexists. split; [reflexivity|]. split; [lia|done].
    + exists b, k, st. split; [done|]. split; [lia|done].
Qed.
Lemma prf_sha1_ok S2 label seed i st : fine S2 -> fine label -> fine seed -> sha1_at S2 (label ++ seed) i st ->
  exists b k st', prf_sha1 stack S2 label seed st = Ok st' /\ (i = 20 * b + k /\ k < 20)%nat /\ SHA1_pos st' = Z.of_nat k /\
    A_SHA1 st' = tls_a sha1_digest (S b) S2 (label ++ seed) /\ P_SHA1 st' = p_block sha1_digest S2 (label ++ seed) b /\
    A_MD5 st' = A_MD5 st /\ P_MD5 st' = P_MD5 st /\ MD5_pos st' = MD5_pos st.
Proof.
  intros [HS HSf] Hl Hs Hat. unfold prf_sha1, SHA1_MAC_LEN.
  assert (forall n, A_SHA1 st = tls_a sha1_digest n S2 (label ++ seed) ->
    (p ← used (hmac_sha1_vector stack S2 [A_SHA1 st; label; seed]); a ← used (hmac_sha1_internal stack S2 (A_SHA1 st));
     Ok (mkPrf (A_MD5 st) a (P_MD5 st) p (MD5_pos st) 0)) =
    Ok (mkPrf (A_MD5 st) (tls_a sha1_digest (S n) S2 (label ++ seed)) (P_MD5 st) (p_block sha1_digest S2 (label ++ seed) n) (MD5_pos st) 0)) as G.
  { intros n ->. pose proof (fine_a sha1_digest 20 n S2 (label ++ seed) zlen_sha1 ltac:(lia)) as Hfa.
    rewrite used_sha1, bind_ok by (done || by apply buffers_of_3). unfold hmac_sha1_internal. rewrite used_sha1, bind_ok by (done || by apply buffers_1).
    unfold p_block. cbn [concat tls_a]. by rewrite !app_nil_r. }
  destruct Hat as [(-> & -> & Ha)|(b & k & [-> Hk] & Hq & Ha & Hp)]; [|rewrite Hq].
  - change (20 =? 20) with true. cbv iota. rewrite (G 0%nat Ha). exists 0%nat, 0%nat. eexists. split; [reflexivity|]. split; [lia|done].
  - destruct (Z.eqb_spec (Z.of_nat k) 20).
    + rewrite (G (S b) Ha). exists (S b), 0%nat. eexists. split; [reflexivity|]. split; [lia|done].
    + exists b, k, st. split; [done|]. split; [lia|done].
Qed.

Lemma block_octet H size b k secret s : digest_size H (Z.of_nat size) -> (k < size)%nat ->
  rd (p_block H secret s b) (Z.of_nat k) = Ok (p_octet H size secret s (size * b + k)).
Proof.
  intros HH Hk. unfold p_octet. rewrite (Nat.mul_comm size b), Nat.add_comm, Nat.Div0.mod_add, Nat.mod_small, Nat.div_add, Nat.div_small by lia.
  rewrite Nat.add_0_l. rewrite (rd_nth _ _ 0); [by rewrite Nat2Z.id|]. destruct (HH (xor_pad 92 (key_block H secret) ++ H (xor_pad 54 (key_block H secret) ++ tls_a H b secret s ++ s))) as [Hz _].
  unfold p_block, rfc2104. lia.
Qed.

Lemma tls_prf_loop_ok n S1 S2 label seed i st : fine S1 -> fine S2 -> fine label -> fine seed ->
  md5_at S1 (label ++ seed) i st -> sha1_at S2 (label ++ seed) i st ->
  tls_prf_loop stack n S1 S2 label seed st =
    Ok (map (fun j => Z.lxor (p_octet md5_digest 16 S1 (label ++ seed) j) (p_octet sha1_digest 20 S2 (label ++ seed) j)) (seq i n)).
Proof.
  intros H1 H2 Hl Hs. revert i st. induction n as [|n IH]; intros i st M1 M2; [done|]. cbn [tls_prf_loop seq map].
  destruct (prf_md5_ok S1 label seed i st H1 Hl Hs M1) as (b & k & s1 & -> & [Ei Hk] & Ep & Ea & Eb & Ec & Ed & Ee). rewrite bind_ok.
  assert (sha1_at S2 (label ++ seed) i s1) as M2' by (unfold sha1_at; by rewrite Ec, Ed, Ee).
  destruct (prf_sha1_ok S2 label seed i s1 H2 Hl Hs M2') as (b' & k' & s2 & -> & [Ei' Hk'] & Ep' & Ea' & Eb' & Ec' & Ed' & Ee'). rewrite bind_ok.
  rewrite Ed', Ee', Ec', Eb, Ep, Ea, Eb', Ep', Ea'.
  rewrite (block_octet md5_digest 16), bind_ok by (exact zlen_md5 || exact Hk). rewrite (block_octet sha1_digest 20), bind_ok by (exact zlen_sha1 || exact Hk').
  rewrite <- Ei, <- Ei'. rewrite (IH (S i)), bind_ok; [done| |].
  - right. exists b, (S k). cbn. split; [lia|]. split; [lia|done].
  - right. exists b', (S k'). cbn. split; [lia|]. split; [lia|done].
Qed.

(** C40: [tls_prf_sha1_md5] is the PRF of RFC 2246 for secrets of even length, and refuses the others. *)
Theorem tls_prf_sha1_md5_correct secret label seed outlen : fine secret -> fine label -> fine seed ->
  tls_prf_sha1_md5 stack secret label seed outlen =
    Ok (if Z.odd (zlen secret) then None else Some (rfc2246_prf secret label seed outlen)).
Proof.
  intros [Hs Hsf] Hl Hse. unfold tls_prf_sha1_md5. change 1 with (Z.ones 1). rewrite Z.land_ones by lia. change (2 ^ 1) with 2. rewrite Zmod_odd.
  destruct (Z.odd (zlen secret)) eqn:Eo; [done|]. change (negb (0 =? 0)) with false. cbv iota. change (Z.ones 1) with 1.
  pose proof (zlen_nonneg secret). pose proof (Z.div_mod (zlen secret) 2 ltac:(lia)) as Ed. rewrite Zmod_odd, Eo in Ed.
  set (half := (length secret / 2)%nat). assert ((zlen secret + 1) / 2 = Z.of_nat half) as ->.
  { unfold half. rewrite Nat2Z.inj_div. unfold zlen in *. change (Z.of_nat 2) with 2. symmetry. apply Z.div_unique with 1; lia. }
  assert (Z.of_nat half + Z.of_nat half = zlen secret) as Eh by (unfold half; rewrite Nat2Z.inj_div; unfold zlen in *; lia).
  assert (zlen (take half secret) = Z.of_nat half) as Ht by (unfold zlen in *; rewrite length_take; lia).
  assert (zlen (drop half secret) = Z.of_nat half) as Hd by (unfold zlen in *; rewrite length_drop; lia).
  assert (get secret 0 (Z.of_nat half) = Ok (take half secret)) as -> by (rewrite <- (take_drop half secret) at 1; by apply get_head).
  assert (get secret (Z.of_nat half) (Z.of_nat half) = Ok (drop half secret)) as -> by (rewrite <- (take_drop half secret) at 1; by apply get_last).
  rewrite !bind_ok. assert (fine (take half secret)) as F1 by (split; [by apply Forall_take|unfold fits_u32 in *; lia]).
  assert (fine (drop half secret)) as F2 by (split; [by apply bytes_drop|unfold fits_u32 in *; lia]).
  pose proof F1 as [F1a F1b]. pose proof F2 as [F2a F2b].
  rewrite used_md5, bind_ok by (done || by apply buffers_2). rewrite used_sha1, bind_ok by (done || by apply buffers_2).
  cbn [concat]. rewrite app_nil_r. rewrite (tls_prf_loop_ok outlen _ _ label seed 0), bind_ok; [done|done|done|done|done|left; done|left; done].
Qed.

Lemma get_prefix (t : list Z) n : 0 <= n <= zlen t -> get t 0 n = Ok (take (Z.to_nat n) t).
Proof. intros Hn. rewrite <- (take_drop (Z.to_nat n) t) at 1. apply get_head. unfold zlen in *. rewrite length_take. lia. Qed.

(** what fills a buffer block after block, and stops within a block *)
Lemma take_block (left_ n : Z) (t rest : list Z) : zlen t = n -> 0 <= left_ -> 0 <= n ->
  take (Z.to_nat (Z.min n left_)) t ++ take (Z.to_nat (left_ - Z.min n left_)) rest = take (Z.to_nat left_) (t ++ rest).
Proof.
  intros Ht Hl Hn. rewrite take_app. unfold zlen in Ht. f_equal.
  - destruct (Z.le_gt_cases left_ n); [f_equal; lia|]. rewrite !take_ge by lia. done.
  - f_equal. lia.
Qed.

Lemma tls_prf_sha256_loop_ok fuel secret label seed n left_ : fine secret -> fine label -> fine seed ->
  0 <= left_ -> left_ < Z.of_nat fuel ->
  exists k, left_ <= 32 * Z.of_nat k /\
    tls_prf_sha256_loop stack fuel secret label seed (tls_a sha256_digest n secret (label ++ seed)) left_ =
      Ok (take (Z.to_nat left_) (concat (map (p_block sha256_digest secret (label ++ seed)) (seq n k)))).
Proof.
  intros [Hs Hsf] Hl Hse. revert n left_. induction fuel as [|fuel IH]; intros n left_ H0 Hf; [lia|]. cbn [tls_prf_sha256_loop].
  destruct (Z.ltb_spec 0 left_); [|exists 0%nat; split; [lia|]; by replace left_ with 0 by lia].
  pose proof (fine_a sha256_digest 32 n secret (label ++ seed) zlen_sha256 ltac:(lia)) as Hfa.
  rewrite used_sha256, bind_ok by (done || by apply buffers_of_3). unfold hmac_sha256_internal.
  rewrite used_sha256, bind_ok by (done || by apply buffers_1). cbn [concat]. rewrite !app_nil_r.
  change (rfc2104 sha256_digest secret (tls_a sha256_digest n secret (label ++ seed) ++ label ++ seed)) with (p_block sha256_digest secret (label ++ seed) n).
  change (rfc2104 sha256_digest secret (tls_a sha256_digest n secret (label ++ seed))) with (tls_a sha256_digest (S n) secret (label ++ seed)).
  assert (zlen (p_block sha256_digest secret (label ++ seed) n) = 32) as Ht by apply zlen_sha256. unfold SHA256_MAC_LEN.
  set (t := p_block _ _ _ _) in *. replace (if 32 <? left_ then 32 else left_) with (Z.min 32 left_) by (destruct (Z.ltb_spec 32 left_); lia).
  rewrite get_prefix, bind_ok by lia.
  destruct (IH (S n) (left_ - Z.min 32 left_)) as (k & Hk & ->); [lia..|]. rewrite bind_ok.
  exists (S k). split; [lia|]. cbn [seq map concat]. fold t. f_equal. apply take_block; [done|lia..].
Qed.

(** [tls_prf_sha256] fills its buffer with the beginning of the PRF of RFC 5246. *)
Theorem tls_prf_sha256_correct secret label seed outlen : fine secret -> fine label -> fine seed -> 0 <= outlen ->
  exists k, outlen <= 32 * Z.of_nat k /\
    tls_prf_sha256 stack secret label seed outlen = Ok (take (Z.to_nat outlen) (rfc5246_prf secret label seed k)).
Proof.
  intros Hs Hl Hse Ho. unfold tls_prf_sha256. pose proof Hs as [Hsb Hsf]. rewrite used_sha256, bind_ok by (done || by apply buffers_2).
  cbn [concat]. rewrite app_nil_r. exact (tls_prf_sha256_loop_ok (S (Z.to_nat outlen)) secret label seed 0 outlen Hs Hl Hse Ho ltac:(lia)).
Qed.

(** what the T-PRF hashes before block [1 + n] *)
Definition t_prf_prev (n : nat) (key s : list Z) : list Z := match n with O => [] | S m => t_prf_block m key s end.

Lemma buffers_5 a b c d e : fine a -> fine b -> fine c -> fine d -> fine e -> buffers [a; b; c; d; e].
Proof.
  intros [Ha Ha'] [Hb Hb'] [Hc Hc'] [Hd Hd'] [He He']. apply buffers_3; [| |cbn; lia]; repeat (apply Forall_cons; [done|]); constructor.
Qed.

Lemma sha1_t_prf_loop_ok fuel key label seed len n left_ : fine key -> fine (label ++ [0]) -> fine seed -> fine len ->
  0 <= left_ -> left_ < Z.of_nat fuel -> 20 * Z.of_nat n + left_ <= 5100 ->
  exists k, left_ <= 20 * Z.of_nat k /\
    sha1_t_prf_loop stack fuel key label seed len (t_prf_prev n key (label ++ [0] ++ seed ++ len)) (Z.of_nat n) left_ =
      Ok (Some (take (Z.to_nat left_) (concat (map (fun i => t_prf_block i key (label ++ [0] ++ seed ++ len)) (seq n k))))).
Proof.
  intros [Hk Hkf] Hl Hse Hlen. revert n left_. induction fuel as [|fuel IH]; intros n left_ H0 Hf H51; [lia|]. cbn [sha1_t_prf_loop].
  destruct (Z.ltb_spec 0 left_); [|exists 0%nat; split; [lia|]; by replace left_ with 0 by lia].
  set (s := label ++ [0] ++ seed ++ len) in *.
  assert (u8 (Z.of_nat n + 1) = Z.of_nat (S n)) as -> by (unfold u8; rewrite Z.mod_small; lia).
  assert (fine (t_prf_prev n key s)) as Hp.
  { destruct n as [|n]; [done|]. destruct n; apply (fine_size sha1_digest 20); (exact zlen_sha1 || lia). }
  rewrite hmac_sha1_ok, bind_ok; [|done|done|done|done|apply buffers_5; try done; split; [apply Forall_cons; [unfold is_byte; lia|constructor]|done]].
  cbn [concat]. rewrite app_nil_r.
  assert (rfc2104 sha1_digest key (t_prf_prev n key s ++ (label ++ [0]) ++ seed ++ len ++ [Z.of_nat (S n)]) = t_prf_block n key s) as ->.
  { unfold s at 2. rewrite <- !app_assoc. destruct n; cbn [t_prf_prev t_prf_block app]; unfold s; cbn [app]; repeat (rewrite <- app_assoc; cbn [app]); reflexivity. }
  assert (zlen (t_prf_block n key s) = 20) as Ht by (destruct n; apply zlen_sha1). unfold SHA1_MAC_LEN.
  destruct (Z.leb_spec 20 left_).
  - destruct (IH (S n) (left_ - 20)) as (k & Hk' & E); [lia..|]. cbn [t_prf_prev] in E. rewrite E, bind_ok.
    exists (S k). split; [lia|]. cbn [seq map concat]. do 2 f_equal.
    rewrite <- (take_block left_ 20) by (done || lia). rewrite Z.min_l by lia. f_equal. rewrite take_ge; [done|unfold zlen in *; lia].
  - rewrite get_prefix, bind_ok by lia.
    exists 1%nat. split; [lia|]. cbn [seq map concat]. by rewrite app_nil_r.
Qed.

(** [sha1_t_prf] fills its buffer with the beginning of the T-PRF of RFC 4851, up to the 255 blocks its counter of 8 bits reaches. *)
Theorem sha1_t_prf_correct key label seed buf_len : fine key -> fine (label ++ [0]) -> fine seed -> 0 <= buf_len <= 5100 ->
  exists k, buf_len <= 20 * Z.of_nat k /\
    sha1_t_prf stack key label seed buf_len = Ok (Some (take (Z.to_nat buf_len) (rfc4851_t_prf key label seed buf_len k))).
Proof.
  intros Hk Hl Hs Hb. unfold sha1_t_prf, rfc4851_t_prf.
  assert ([Z.land (Z.shiftr buf_len 8) 255; Z.land buf_len 255] = to_be 2 buf_len) as ->.
  { unfold to_be. cbn [to_le rev app]. rewrite !Z.shiftr_div_pow2 by lia. change 255 with (Z.ones 8). by rewrite !Z.land_ones by lia. }
  apply (sha1_t_prf_loop_ok (S (Z.to_nat buf_len)) key label seed (to_be 2 buf_len) 0 buf_len); try done; try lia.
  split; [apply to_be_bytes|unfold fits_u32; by rewrite zlen_to_be].
Qed.
End PrfsCorrect.

(** ** The internal backend behind the interfaces *)

Definition internal_digests : Digests := {|
  hmac_md5 k d := Some (rfc2104 md5_digest k d);
  hmac_sha1 k d := Some (rfc2104 sha1_digest k d);
  hmac_sha256 k d := Some (rfc2104 sha256_digest k d) |}.
Definition internal_md5 : Md5 := {| md5_vector d := Some (md5_digest d) |}.

Lemma internal_digests_laws : @DigestsLaws internal_digests.
Proof.
  split; intros k d m [= <-]; [apply zlen_md5|apply zlen_sha1|apply zlen_sha256].
Qed.
Lemma internal_digests_total : @DigestsTotal internal_digests.
Proof. split; intros k d; eexists; reflexivity. Qed.
Lemma internal_md5_laws : @Md5Laws internal_md5.
Proof. split. intros d h [= <-]. apply zlen_md5. Qed.

(** the functions of the internal backend refine the interfaces the rest of the development takes its digests from: on every key and
    message of bytes the code gives what the instance gives, whatever the contexts' memory held. *)
Theorem internal_backend_refines stack key data : length stack = 64%nat -> bytes stack -> fine key -> fine data ->
  hmac_md5_internal stack key data = Ok (@hmac_md5 internal_digests key data) /\
  hmac_sha1_internal stack key data = Ok (@hmac_sha1 internal_digests key data) /\
  hmac_sha256_internal stack key data = Ok (@hmac_sha256 internal_digests key data) /\
  md5_vec stack [data] = Ok (@md5_vector internal_md5 data).
Proof.
  intros Hl Hs [Hk Hf] Hd. pose proof Hd as [Hdb Hdf].
  pose proof (hmac_vector_correct _ _ 16 key [data] (md5_computes stack Hl) zlen_md5 ltac:(lia) Hk Hf) as E1.
  pose proof (hmac_vector_correct _ _ 20 key [data] (sha1_computes stack Hl Hs) zlen_sha1 ltac:(lia) Hk Hf) as E2.
  pose proof (hmac_vector_correct _ _ 32 key [data] (sha256_computes stack Hl Hs) zlen_sha256 ltac:(lia) Hk Hf) as E3.
  destruct (buffers_1 stack Hl data Hd) as (B1 & B2 & B3). specialize (E1 B1 B2 B3). specialize (E2 B1 B2 B3). specialize (E3 B1 B2 B3).
  pose proof (md5_computes stack Hl [data] B1 B2) as E4. cbn [concat] in *. rewrite app_nil_r in *.
  unfold hmac_md5_internal, hmac_md5_vector, hmac_sha1_internal, hmac_sha1_vector, hmac_sha256_internal, hmac_sha256_vector.
  rewrite E1, E2, E3, E4. repeat split; reflexivity.
Qed.

(** ** Vectors of RFC 2202, RFC 4231 and RFC 6070 *)

Definition stack_of (b : Z) : list Z := replicate 64 b.
(** "Jefe", "what do ya want", " for nothing?" *)
Definition jefe : list Z := [74; 101; 102; 101].
Definition what_do_ya_want : list (list Z) :=
  [[119; 104; 97; 116; 32; 100; 111; 32; 121; 97; 32; 119; 97; 110; 116]; [32; 102; 111; 114; 32; 110; 111; 116; 104; 105; 110; 103; 63]].
Lemma stack_bytes b : is_byte b -> bytes (stack_of b). Proof. intros H. by apply Forall_replicate. Qed.

(** "a" and "bc", apart *)
Definition a_bc : list (list Z) := [[97]; [98; 99]].
Lemma digests_correct_witness :
  (md5_vec (stack_of 7) a_bc = Ok (Some (md5_digest (concat a_bc))) /\ sha1_vec (stack_of 7) a_bc = Ok (Some (sha1_digest (concat a_bc))) /\
   sha256_vec (stack_of 7) a_bc = Ok (Some (sha256_digest (concat a_bc)))) /\
  md5_vec (stack_of 7) a_bc = Ok (Some (to_be 16 0x900150983cd24fb0d6963f7d28e17f72)) /\
  sha1_vec (stack_of 7) a_bc = Ok (Some (to_be 20 0xA9993E364706816ABA3E25717850C26C9CD0D89D)) /\
  sha256_vec (stack_of 7) a_bc = Ok (Some (to_be 32 0xba7816bf8f01cfea414140de5dae2223b00361a396177a9cb410ff61f20015ad)).
Proof.
  split.
  - apply (digests_correct (stack_of 7) eq_refl (stack_bytes 7 ltac:(done)) a_bc); by repeat constructor.
  - split; [|split]; vm_compute; reflexivity.
Defined.

Lemma hmac_vectors_correct_witness :
  (hmac_md5_vector (stack_of 7) jefe what_do_ya_want = Ok (Some (rfc2104 md5_digest jefe (concat what_do_ya_want))) /\
   hmac_sha1_vector (stack_of 7) jefe what_do_ya_want = Ok (Some (rfc2104 sha1_digest jefe (concat what_do_ya_want))) /\
   hmac_sha256_vector (stack_of 7) jefe what_do_ya_want = Ok (Some (rfc2104 sha256_digest jefe (concat what_do_ya_want)))) /\
  hmac_md5_vector (stack_of 7) jefe what_do_ya_want = Ok (Some (to_be 16 0x750c783e6ab0b503eaa86e310a5db738)) /\
  hmac_sha1_vector (stack_of 7) jefe what_do_ya_want = Ok (Some (to_be 20 0xeffcdf6ae5eb2fa2d27416d5f184df9c259a7c79)) /\
  hmac_sha256_vector (stack_of 7) jefe what_do_ya_want =
    Ok (Some (to_be 32 0x5bdcc146bf60754e6a042426089575c75a003f089d2739839dec58b964ec3843)).
Proof.
  split.
  - apply (hmac_vectors_correct (stack_of 7) eq_refl (stack_bytes 7 ltac:(done)) jefe what_do_ya_want).
    + by repeat constructor.
    + done.
    + split; [|split]; by repeat constructor.
  - split; [|split]; vm_compute; reflexivity.
Defined.

(** "password", "salt" *)
Definition password : list Z := [112; 97; 115; 115; 119; 111; 114; 100].
Definition salt : list Z := [115; 97; 108; 116].
Lemma pbkdf2_sha1_correct_witness : exists k, 20 <= 20 * Z.of_nat k /\
  pbkdf2_sha1 (stack_of 7) password salt 2 20 = Ok (Some (take 20 (rfc2898 password salt 2 k))) /\
  pbkdf2_sha1 (stack_of 7) password salt 2 20 = Ok (Some (to_be 20 0xea6c014dc72d6f8ccd1ed92ace1d41f0d8de8957)).
Proof.
  destruct (pbkdf2_sha1_correct (stack_of 7) eq_refl (stack_bytes 7 ltac:(done)) password salt 2 20) as (k & Hk & E);
    [by repeat constructor|done|by repeat constructor|done|lia|].
  exists k. split; [exact Hk|]. split; [exact E|]. vm_compute. reflexivity.
Defined.

Lemma fine_small d : bytes d -> zlen d < 2 ^ 29 -> fine d.
Proof. intros H1 H2. split; [done|]. unfold fits_u32. lia. Qed.

(** a secret, a label and a seed *)
Definition abcd : list Z := [97; 98; 99; 100].
Definition test_label : list Z := [116; 101; 115; 116].
Definition short_seed : list Z := [1; 2].
Lemma fine_sample d : forallb (fun b => (0 <=? b) && (b <? 256)) d && (zlen d <? 2 ^ 16) = true -> fine d.
Proof.
  intros [H1 H2]%andb_prop. apply fine_small; [|lia]. rewrite forallb_forall in H1. apply List.Forall_forall. intros b Hb.
  specialize (H1 b Hb). unfold is_byte. lia.
Qed.

Lemma tls_prf_sha1_md5_correct_witness :
  tls_prf_sha1_md5 (stack_of 7) abcd test_label short_seed 18 = Ok (Some (rfc2246_prf abcd test_label short_seed 18)) /\
  tls_prf_sha1_md5 (stack_of 7) (97 :: abcd) test_label short_seed 18 = Ok None /\
  tls_prf_sha1_md5 (stack_of 7) abcd test_label short_seed 18 = Ok (Some (to_be 18 0xed32db0bf3cc4bde50b28c09cc4f6539292c)).
Proof.
  split; [|split].
  - exact (tls_prf_sha1_md5_correct (stack_of 7) eq_refl (stack_bytes 7 ltac:(done)) abcd test_label short_seed 18
      (fine_sample abcd eq_refl) (fine_sample test_label eq_refl) (fine_sample short_seed eq_refl)).
  - exact (tls_prf_sha1_md5_correct (stack_of 7) eq_refl (stack_bytes 7 ltac:(done)) (97 :: abcd) test_label short_seed 18
      (fine_sample (97 :: abcd) eq_refl) (fine_sample test_label eq_refl) (fine_sample short_seed eq_refl)).
  - vm_compute. reflexivity.
Defined.

Lemma tls_prf_sha256_correct_witness : exists k, 33 <= 32 * Z.of_nat k /\
  tls_prf_sha256 (stack_of 7) abcd test_label short_seed 33 = Ok (take 33 (rfc5246_prf abcd test_label short_seed k)) /\
  tls_prf_sha256 (stack_of 7) abcd test_label short_seed 33 =
    Ok (to_be 33 0xac129c518a3ed7afe6446be6b5fce07c3b057f3db5eae9646bc8115b02cc50fcd1).
Proof.
  destruct (tls_prf_sha256_correct (stack_of 7) eq_refl (stack_bytes 7 ltac:(done)) abcd test_label short_seed 33) as (k & Hk & E);
    [apply fine_sample; reflexivity..|lia|].
  exists k. split; [exact Hk|]. split; [exact E|]. vm_compute. reflexivity.
Defined.

Lemma sha1_t_prf_correct_witness : exists k, 21 <= 20 * Z.of_nat k /\
  sha1_t_prf (stack_of 7) abcd test_label short_seed 21 = Ok (Some (take 21 (rfc4851_t_prf abcd test_label short_seed 21 k))) /\
  sha1_t_prf (stack_of 7) abcd test_label short_seed 21 = Ok (Some (to_be 21 0x5668c37ff8801e602aedbe541f4e8aa42231cabbd0)).
Proof.
  destruct (sha1_t_prf_correct (stack_of 7) eq_refl (stack_bytes 7 ltac:(done)) abcd test_label short_seed 21) as (k & Hk & E);
    [apply fine_sample; reflexivity..|lia|].
  exists k. split; [exact Hk|]. split; [exact E|]. vm_compute. reflexivity.
Defined.

Lemma internal_backend_refines_witness :
  hmac_md5_internal (stack_of 7) jefe salt = Ok (@hmac_md5 internal_digests jefe salt) /\
  hmac_sha1_internal (stack_of 7) jefe salt = Ok (@hmac_sha1 internal_digests jefe salt) /\
  hmac_sha256_internal (stack_of 7) jefe salt = Ok (@hmac_sha256 internal_digests jefe salt) /\
  md5_vec (stack_of 7) [salt] = Ok (@md5_vector internal_md5 salt).
Proof.
  apply (internal_backend_refines (stack_of 7) jefe salt); [done|by apply stack_bytes|apply fine_sample; reflexivity..].
Defined.
